(* ===== verification/_CoqProject ===== *)
-Q . S2P
Prelude.v
Lists.v
BBox.v
ObjDesc.v
Sfc.v
Linear.v
Sspace.v
DhtEntry.v
DhtWait.v
StrHash.v
LocalStorage.v
Matrix.v
Codec.v
Modules.v
Server.v
Cluster.v
WaitQuery.v
Client.v
ClientStore.v
Conf.v
Toml.v
TomlLex.v
TomlDoc.v
TomlParse.v
TomlPrint.v
TomlConf.v
Startup.v
StartGroup.v
Rpc.v
Util.v
PutReqs.v
Subs.v
Bcast.v
Access.v
MetaStore.v
EndToEnd.v
Calls.v
Exec.v
ModCalls.v
Ops.v
PyMods.v
Messages.v
ServerStart.v
PyClient.v
