(* ===== verification/Prelude.v ===== *)
(** * DataSpaces: a verified model of the staging service

    DataSpaces keeps the data objects of coupled simulations in the memory of
    a set of staging servers.  A client puts an object (name, version, box of
    a global domain, bytes) on one server; the domain is dealt out to the
    servers, and each of them indexes the descriptors of the objects that meet
    its part; a query for a box asks the servers responsible, waits until the
    box is covered, and tells the client which servers to fetch the pieces
    from.

    ** Files and what they model

    - [Prelude]: machine integers ([u64], [i32], ...), sums, loops, bits and
      list lemmas shared by all files.
    - [Lists]: [src/include/list.h] and [src/include/queue.h] on a memory of
      nodes; the other files use the sequences they implement.
    - [BBox]: [src/src/bbox.c], [src/include/bbox.h]: boxes of up to ten
      64-bit dimensions, division, inclusion, intersection, volume.
    - [ObjDesc]: descriptors and global dimensions, [obj_desc_*],
      [global_dimension_*] and the [gdim] list of [src/src/ss_data.c].
    - [Sfc], [Linear]: the Hilbert curve of [src/include/sfc.h] and the
      interval tables of [src/src/bbox.c].
    - [Sspace]: [ssd_*] of [src/src/ss_data.c]: the three ways to deal a
      domain to servers, responsibility of servers for boxes, the lookup
      cache and the counting of owned elements.
    - [DhtEntry]: [dht_*]: one server's index and its waiting queries;
      [DhtWait]: the threads of those queries, asleep on the condition of a
      bin.
    - [StrHash], [LocalStorage]: [src/include/str_hash.h] and [ls_*],
      [meta_*]: the object store, the metadata store and its waiting readers.
    - [Matrix]: [matrix_*], [ssd_copy]: copying the common part of two
      objects.
    - [Codec]: the [hg_proc_*] encodings of [src/include/ss_data.h].
    - [Modules]: [src/src/dspaces-modules.c]: arguments and results of
      modules; [PyMods]: loading and calling them in Python, and arrays on
      their way from NumPy to the store.
    - [Server]: the request handlers of [src/src/dspaces-server.c], as
      functions from a server's state and a request to the new state, the
      messages sent and the reply.
    - [Cluster]: all servers and the index updates in flight; requests and
      deliveries in any order.
    - [WaitQuery]: queries and subscriptions that wait: the parts at the
      other servers, their waiters and notices, among all other requests.
    - [Client]: [src/src/dspaces-client.c]: the choice of a server, names,
      dimensions, puts, and the collection of a result from its pieces.
    - [ClientStore]: [dspaces_put_local], [drain_rpc] and the wait of
      [dspaces_fini], against a list of outstanding objects.
    - [PutReqs]: the linked list of asynchronous puts.
    - [Subs]: subscriptions: the user's calls, the notification handlers and
      [dspaces_fini] as interleaved steps.
    - [PyClient]: [src/bindings/python/dspaces_wrapper.c]: what a Python
      program hands to the client library and gets from it.
    - [Conf]: the option file of [src/src/dspaces-conf.c] and the defaults and
      checks around it, with a printer.
    - [Toml], [TomlLex], [TomlDoc], [TomlParse]: [src/src/toml.c]: the values,
      the tokens, the memory of tables and arrays with its access and release,
      and the parser; [TomlPrint]: a printer and how the parser reads each of
      its lines.
    - [TomlConf]: [parse_conf_toml] of [src/src/dspaces-conf.c] and the choice
      between the two formats.
    - [Startup]: [write_conf] and [ss_rpc] of the server, [read_conf] and
      [dspaces_init] of the client; [StartGroup]: every way a client starts,
      alone, over a wide-area connection or with the processes of a
      communicator, failures included; [ServerStart]: the start of the
      servers' processes, with the exchange of their addresses.
    - [Rpc]: the registration of requests by clients and servers, and the
      types used where requests are made and served.
    - [Util]: the parameter lists of [src/src/util.c].
    - [Bcast]: the broadcast tree and the handlers built on it (shutdown,
      collecting names and objects, registration).
    - [Access]: the requests one server handles in sequence, seen from
      [get_rpc] and the metadata queries.
    - [MetaStore]: the metadata calls of the clients down to the storage, as
      threads that take one critical section after the other, with queries
      that wait.
    - [EndToEnd]: a client's [dspaces_get] on top of the cluster.
    - [Calls]: listing what is stored, results of expressions, the calls of a
      program that hosts a server.
    - [Exec]: functions sent by a client to run on stored data, and the
      handshake on their results.
    - [ModCalls]: module requests and the registry.
    - [Ops]: [src/src/dspaces-ops.c], [src/include/dspaces-ops.h] and
      [do_ops_rpc]: expressions over stored variables.
    - [Messages]: the structures declared with [MERCURY_GEN_PROC], encoded
      with [Codec] and [Ops], sent over the registrations of [Rpc].

    A definition has the name of the C function it translates; the parts of a
    function that are loops or handle one case have names of their own.

    ** How C is represented

    Integers are [Z]; an operation that can leave the range of its type wraps
    explicitly.  An array of ten coordinates is a list of length ten.  A
    linked list is a list in the order of the links.  Shared mutable records
    that are pointed to from several places have an identity (the cells of
    the index, the objects of a store, the records of waiting threads), and
    pointers are those identities.  [None] is an execution the C standard
    leaves undefined (a null or out-of-range access, signed overflow) or a
    wait, as each definition says.  Code under one mutex is one step; where a
    condition is waited for ([DhtWait], [MetaStore], [Exec]) the sleeping
    threads and the signal are part of the state or the steps.

    What is outside [src/] is a parameter: the primitives of Mercury
    ([HgProc], [HgProcOps], [HgBulk]), Margo's registry ([Margo]), the
    interpreter and NumPy ([Python]), LZ4, [malloc] and remote systems
    ([Env]), decompression and what a client's uninitialised variables hold
    ([ClientEnv]), the mathematical functions ([Libm]), and [strtod]
    ([Strtod], the one function of the C library that is not spelled out).  The laws these classes
    state are what their documentation promises; each theorem that assumes
    one has a witness with a concrete instance.

    ** What the theorems show

    - End to end: what clients put on any servers, in any interleaving with
      deliveries and queries, a [dspaces_get] through any server returns cell
      for cell ([EndToEnd.get_returns_puts]).
    - The cluster: whatever the order in which updates are delivered, the
      indexes and the messages in flight hold exactly what was published,
      each descriptor at the servers responsible for it
      ([Cluster.index_follows_publications]); a covered query at any server
      gets every one of its points exactly once
      ([Cluster.query_covers_published]).
    - Storage: what was put is read back byte for byte
      ([Access.put_then_get]), on top of the correctness of the store
      ([LocalStorage]) and of the copy ([Matrix.ssd_copy_correct]).
    - Metadata: any session of puts and queries is answered as by a finite
      map, where announced versions are newer than those of waiting readers
      ([MetaStore.metadata_refines_map]).
    - Placement: the recursive bisection partitions the domain
      ([Sspace.ssd_alloc_v2_partition]), so that the local element counts of
      a query add up to its size; the interface [DhtEntry.ElemCounter] is what
      the index assumes of it, and [Sspace] discharges it.
    - Waiting: the thread of a query is woken and returns when what it misses
      has arrived, and not before ([DhtWait.dht_subscription_completes]); over the whole cluster, what a
      waiting call is answered is right, and it is answered once its box is
      covered and the messages are delivered
      ([WaitQuery.waiting_calls_sound], [WaitQuery.waiting_calls_complete]).
    - Shutdown: kill requests in any interleaving leave all servers in
      agreement, send nothing to a server that is gone, and end
      ([Bcast.kill_tokens_agree], [Bcast.kill_reaches_all]).
    - Clients: the local store refines a list of outstanding objects
      ([ClientStore.client_storage_refines]); a subscription's callback is
      made at most once, and never after an effective cancellation
      ([Subs.callback_once], [Subs.cancel_effective]); outstanding puts stay
      linked in order and are all collected ([PutReqs.iput_correct],
      [PutReqs.fini_collects]).
    - Start-up: servers that start together become the cluster the other
      theorems begin with, and clients that start with their file are attached
      to it ([ServerStart.service_starts]); every client of a group gets what
      it would get alone ([StartGroup.dspaces_init_mpi_correct]); a start that
      fails says so and leaves no client, a group fails as a whole, and no
      process can try again ([StartGroup.failed_starts]).
    - Requests: every request reaches the handler it means
      ([Rpc.requests_connected]), which decodes what was sent
      ([Messages.requests_arrive]).
    - Configuration: the parser of TOML ends on every text with a tree of
      tables and arrays or an error ([TomlParse.toml_parse_total],
      [TomlParse.toml_parse_well_formed]); a printed configuration is read
      back ([TomlConf.toml_conf_roundtrip]), whichever of the two formats it
      is in ([TomlConf.formats_agree]).
    - Computing at the server: a client's function is run on exactly the
      stored elements of its arguments ([Exec.mpexec_calls]), its result lives
      until it is fetched, unless the wait for that returns early
      ([Exec.handshake_ends]), a module's result reaches
      the client that asked ([ModCalls.get_module_returns_result]), and the
      elements of a NumPy array are the cells of the object it receives
      ([PyMods.module_array_reaches_client]).
    - Python programs: the elements of the array a program gets are those of
      the arrays that programs put, index for index
      ([PyClient.python_get_returns_puts]).
    - Memory: the pointer operations on lists and queues implement sequences
      ([Lists.lists_refine], [Lists.queue_fifo]).
    - Encodings and texts: round trips, with what they lose.
    - Expressions: the evaluator agrees with the element-wise meaning
      ([Ops.real_expr_evaluates]).
    - Where the code does not do what it means to, a theorem states what it
      does instead (names ending in what goes wrong, such as
      [Bcast.reg_rpc_floods]).

    ** Bounds and fuel

    The loops over a box's dimensions, bins and lists are structural.  Fuel
    bounds: [Bcast.bc_fuel] is [2 * size + 1], more than the longest path of
    messages in the tree of servers; [Server.last_loop] needs one round per
    stored entry; the loops of [Lists] need
    one round per member and one more; [Ops.ds_expr_decode] the depth of the
    expression; the 64 rounds of [next_pow_2_loop] exhaust the width of its
    argument, and beyond them the C loop does not end
    ([Sspace.next_pow_2_v2_least]).  [env_fuel] bounds the Hilbert interval
    loops of hash version 1.  The theorems on the servers take domains of
    version 2, whose allocation is total.  Objects are smaller than 2 GiB
    where a theorem asks for [small_obj]: [obj_data_alloc] keeps their size in
    an [int].  [Client.transfer_loop] needs one round per piece of 128 MiB;
    the loops of [PutReqs] have fuel for every record of the heap; the lookup
    [Subs.dspaces_get_sub] either answers in one round or never.
    Subscription numbers stay below the range of [int].
    [TomlParse.toml_parse] has one round per character and two, the functions
    that parse values twice the characters left and one; [TomlDoc.toml_free]
    the number of nodes.

    ** Not modelled

    The run-times of Margo, Argobots and MPI (bulk transfers, thread pools,
    collective calls beyond who takes part and what is sent), the threads of
    the Python interpreter ([bootstrap_python]), memory release (but for
    [toml_free]) and mutexes, debug output and messages, the download of
    modules with curl, and of the language bindings all but the calls of
    [PyClient].  The Hilbert routines of [src/include/sfc.h] no other file
    calls are left out. *)

From stdpp Require Export base list numbers option strings gmap sets.
From Stdlib Require Export ZArith Lia Bool.

#[global] Open Scope Z_scope.

(** ** Machine integers

    C integers are values of [Z]; an operation that can leave the range of
    its type wraps with one of the functions below.  [u64] is [uint64_t] (and
    [size_t], [hg_size_t] on the LP64 targets the code is built for), [u32]
    is [unsigned int]; [i32] and [i64] are the conversions to [int] and
    [long], which the compilers in use define as reduction modulo the width. *)

Definition u64 (z : Z) : Z := z mod 2 ^ 64.
Definition u32 (z : Z) : Z := z mod 2 ^ 32.
Definition i64 (z : Z) : Z := (z + 2 ^ 63) mod 2 ^ 64 - 2 ^ 63.
Definition i32 (z : Z) : Z := (z + 2 ^ 31) mod 2 ^ 32 - 2 ^ 31.

Definition in_u64 (z : Z) : Prop := 0 <= z < 2 ^ 64.
Definition in_u32 (z : Z) : Prop := 0 <= z < 2 ^ 32.

Create HintDb dspaces.
Create Rewrite HintDb cint.

Lemma u64_small z : 0 <= z < 2 ^ 64 -> u64 z = z.
Proof. intros. unfold u64. by apply Z.mod_small. Qed.

Lemma u64_range z : 0 <= u64 z < 2 ^ 64.
Proof. unfold u64. apply Z.mod_pos_bound. lia. Qed.

Lemma u64_idemp z : u64 (u64 z) = u64 z.
Proof. apply u64_small, u64_range. Qed.

Lemma u64_add_l a b : u64 (u64 a + b) = u64 (a + b).
Proof. unfold u64. apply Zplus_mod_idemp_l. Qed.

Lemma u64_add_r a b : u64 (a + u64 b) = u64 (a + b).
Proof. unfold u64. apply Zplus_mod_idemp_r. Qed.

Lemma u64_sub_l a b : u64 (u64 a - b) = u64 (a - b).
Proof. unfold u64. apply Zminus_mod_idemp_l. Qed.

Lemma u64_sub_r a b : u64 (a - u64 b) = u64 (a - b).
Proof. unfold u64. apply Zminus_mod_idemp_r. Qed.

Lemma u64_mul_l a b : u64 (u64 a * b) = u64 (a * b).
Proof. unfold u64. apply Zmult_mod_idemp_l. Qed.

Lemma u64_mul_r a b : u64 (a * u64 b) = u64 (a * b).
Proof. unfold u64. apply Zmult_mod_idemp_r. Qed.

Lemma u32_small z : 0 <= z < 2 ^ 32 -> u32 z = z.
Proof. intros. unfold u32. by apply Z.mod_small. Qed.

Lemma u32_range z : 0 <= u32 z < 2 ^ 32.
Proof. unfold u32. apply Z.mod_pos_bound. lia. Qed.

Lemma i64_small z : - 2 ^ 63 <= z < 2 ^ 63 -> i64 z = z.
Proof. intros. unfold i64. rewrite Z.mod_small; lia. Qed.

Lemma i64_range z : - 2 ^ 63 <= i64 z < 2 ^ 63.
Proof.
  unfold i64. pose proof (Z.mod_pos_bound (z + 2 ^ 63) (2 ^ 64)). lia.
Qed.

Lemma i64_u64 z : i64 (u64 z) = i64 z.
Proof. unfold i64, u64. by rewrite Zplus_mod_idemp_l. Qed.

Lemma i32_small z : - 2 ^ 31 <= z < 2 ^ 31 -> i32 z = z.
Proof. intros. unfold i32. rewrite Z.mod_small; lia. Qed.

Lemma i32_range z : - 2 ^ 31 <= i32 z < 2 ^ 31.
Proof.
  unfold i32. pose proof (Z.mod_pos_bound (z + 2 ^ 31) (2 ^ 32)). lia.
Qed.

#[export] Hint Rewrite u64_idemp u64_add_l u64_add_r u64_sub_l u64_sub_r
  u64_mul_l u64_mul_r i64_u64 : cint.
#[export] Hint Resolve u64_range u32_range i32_range i64_range : dspaces.

(** [z_range] proves range side conditions left by [u64_small] and
    friends. *)
Ltac z_range := unfold in_u64, in_u32 in *; try lia; auto with dspaces.

(** [dlia]: linear arithmetic with division and remainder by constants. *)
Ltac dlia := Z.div_mod_to_equations; lia.

(** [zify_bool] turns boolean comparisons on [Z], in the goal and in the
    hypotheses, into propositions. *)
Ltac zify_bool :=
  repeat first
    [ rewrite andb_true_iff in * | rewrite orb_true_iff in *
    | rewrite andb_false_iff in * | rewrite orb_false_iff in *
    | rewrite negb_true_iff in * | rewrite negb_false_iff in *
    | rewrite Z.leb_le in * | rewrite Z.ltb_lt in * | rewrite Z.eqb_eq in *
    | rewrite Z.leb_gt in * | rewrite Z.ltb_ge in * | rewrite Z.eqb_neq in *
    | rewrite Nat.leb_le in * | rewrite Nat.ltb_lt in * | rewrite Nat.eqb_eq in *
    | rewrite Nat.leb_gt in * | rewrite Nat.ltb_ge in * | rewrite Nat.eqb_neq in * ].

(** ** Loops over index ranges *)

(** [for(i = 0; i < n; i++) if(!f(i)) return 0; return 1;] *)
Definition for_all (n : nat) (f : nat -> bool) : bool := forallb f (seq 0 n).

Lemma for_all_true n f : for_all n f = true <-> forall i, (i < n)%nat -> f i = true.
Proof.
  unfold for_all. rewrite forallb_forall. split.
  - intros H i Hi. apply H, in_seq. lia.
  - intros H i Hi%in_seq. apply H. lia.
Qed.

Lemma for_all_false n f :
  for_all n f = false <-> exists i, (i < n)%nat /\ f i = false.
Proof.
  split.
  - intros H. unfold for_all in H.
    assert (Hex : exists i, In i (seq 0 n) /\ f i = false).
    { induction (seq 0 n) as [|a l IH]; simpl in H; [done|].
      destruct (f a) eqn:E; simpl in H.
      - destruct (IH H) as (i & ? & ?). exists i. simpl. eauto.
      - exists a. simpl. eauto. }
    destruct Hex as (i & Hi%in_seq & ?). exists i. split; [lia|done].
  - intros (i & Hi & Hf). apply not_true_is_false. intros Ht.
    rewrite for_all_true in Ht. rewrite Ht in Hf; [done|lia].
Qed.

(** Product over an index range, the accumulator wrapping at 64 bits. *)
Fixpoint zprod (n : nat) (f : nat -> Z) : Z :=
  match n with O => 1 | S m => zprod m f * f m end.

Lemma zprod_ext n f g : (forall i, (i < n)%nat -> f i = g i) -> zprod n f = zprod n g.
Proof.
  induction n as [|n IH]; intros H; simpl; [done|].
  rewrite (H n) by lia. rewrite IH; [done|]. intros. apply H. lia.
Qed.

Lemma zprod_nonneg n f : (forall i, (i < n)%nat -> 0 <= f i) -> 0 <= zprod n f.
Proof.
  induction n as [|n IH]; intros H; simpl; [lia|].
  apply Z.mul_nonneg_nonneg; [apply IH; intros; apply H|apply H]; lia.
Qed.

Lemma zprod_pos n f : (forall i, (i < n)%nat -> 0 < f i) -> 0 < zprod n f.
Proof.
  induction n as [|n IH]; intros H; simpl; [lia|].
  apply Z.mul_pos_pos; [apply IH; intros; apply H|apply H]; lia.
Qed.

Lemma zprod_zero n f i : (i < n)%nat -> f i = 0 -> zprod n f = 0.
Proof.
  induction n as [|n IH]; intros Hi H0; simpl; [lia|].
  destruct (decide (i = n)) as [->|]; [rewrite H0; lia|].
  rewrite IH by lia || done. lia.
Qed.

(** The product splits when one factor is a sum. *)
Lemma zprod_split n d f g h :
  (d < n)%nat -> f d = g d + h d ->
  (forall i, i <> d -> g i = f i) -> (forall i, i <> d -> h i = f i) ->
  zprod n f = zprod n g + zprod n h.
Proof.
  induction n as [|n IH]; intros Hd Hs Hg Hh; simpl; [lia|].
  destruct (decide (d = n)) as [->|].
  - rewrite Hs, (zprod_ext n g f), (zprod_ext n h f);
      [lia| |]; intros; [apply Hh|apply Hg]; lia.
  - rewrite (Hg n), (Hh n), IH by (done || lia). lia.
Qed.

Lemma zprod_mono n f g :
  (forall i, (i < n)%nat -> 0 <= f i <= g i) -> zprod n f <= zprod n g.
Proof.
  induction n as [|n IH]; intros H; simpl; [lia|].
  apply Z.mul_le_mono_nonneg; [| |apply (H n); lia|apply (H n); lia].
  - apply zprod_nonneg. intros. apply H. lia.
  - apply IH. intros. apply H. lia.
Qed.

(** ** Sums over lists *)

Definition zsum (l : list Z) : Z := foldr Z.add 0 l.

Lemma zsum_app l1 l2 : zsum (l1 ++ l2) = zsum l1 + zsum l2.
Proof. induction l1; simpl; lia. Qed.

Lemma zsum_map_nonneg {A} (f : A -> Z) l :
  (forall x, In x l -> 0 <= f x) -> 0 <= zsum (map f l).
Proof.
  induction l as [|a l IH]; intros H; simpl in *; [lia|].
  pose proof (H a (or_introl eq_refl)). specialize (IH (fun x Hx => H x (or_intror Hx))). lia.
Qed.

Lemma zsum_map_ext {A} (f g : A -> Z) l :
  (forall x, In x l -> f x = g x) -> zsum (map f l) = zsum (map g l).
Proof. intros H. f_equal. by apply map_ext_in. Qed.

Lemma zsum_permutation l1 l2 : l1 ≡ₚ l2 -> zsum l1 = zsum l2.
Proof. induction 1; simpl; lia. Qed.

Lemma zsum_map_alter {A} (f : A -> Z) (g : A -> A) l i x :
  l !! i = Some x -> zsum (map f (alter g i l)) = zsum (map f l) + (f (g x) - f x).
Proof.
  revert i. induction l as [|a l IH]; intros [|i] H; [done..| |].
  - simpl in H. simplify_eq. change (alter g 0%nat (x :: l)) with (g x :: l). simpl. lia.
  - change (alter g (S i) (a :: l)) with (a :: alter g i l). cbn [map zsum foldr].
    specialize (IH i H). unfold zsum in IH. lia.
Qed.

Lemma zsum_map_const0 {A} (f : A -> Z) l : (forall x, In x l -> f x = 0) -> zsum (map f l) = 0.
Proof.
  induction l as [|a l IH]; intros H; simpl; [done|].
  rewrite (H a (or_introl eq_refl)), IH; [done|]. intros x Hx. apply H. by right.
Qed.

Lemma zsum_pos_member {A} (f : A -> Z) l :
  0 < zsum (map f l) -> exists x, In x l /\ 0 < f x.
Proof.
  induction l as [|a l IH]; simpl; intros H; [lia|].
  destruct (decide (0 < f a)); [exists a; auto|].
  destruct IH as (x & ? & ?); [lia|]. exists x. auto.
Qed.

Lemma zsum_member_le {A} (f : A -> Z) l x :
  (forall y, In y l -> 0 <= f y) -> In x l -> f x <= zsum (map f l).
Proof.
  induction l as [|a l IH]; simpl; intros Hpos Hx; [done|].
  pose proof (zsum_map_nonneg f l (fun y Hy => Hpos y (or_intror Hy))).
  pose proof (Hpos a (or_introl eq_refl)).
  destruct Hx as [->|Hx]; [lia|].
  pose proof (IH (fun y Hy => Hpos y (or_intror Hy)) Hx). lia.
Qed.

(** A non-negative measure that sums to 1 is positive at one place only. *)
Lemma zsum_one_unique {A} (f : A -> Z) l (d : A) :
  (forall x, In x l -> 0 <= f x) -> zsum (map f l) = 1 ->
  exists! i, (i < length l)%nat /\ 0 < f (nth i l d).
Proof.
  induction l as [|a l IH]; simpl; intros Hpos Hs; [lia|].
  pose proof (Hpos a (or_introl eq_refl)) as Ha.
  assert (Hl : forall y, In y l -> 0 <= f y) by auto.
  pose proof (zsum_map_nonneg f l Hl) as Hnn. destruct (decide (f a = 0)) as [E|E].
  - destruct IH as (i & [Hi Hf] & Hu); [done|lia|]. exists (S i). split; [split; [lia|done]|].
    intros [|j] [Hj Hfj]; [lia|]. f_equal. apply Hu. split; [lia|done].
  - exists 0%nat. split; [split; simpl; lia|]. intros [|j] [Hj Hfj]; [done|exfalso].
    simpl in Hfj, Hj. assert (Hin : In (nth j l d) l) by (apply nth_In; lia).
    pose proof (zsum_member_le f l _ Hl Hin). lia.
Qed.

Lemma map_nth_seq {A B} (f : A -> B) (l : list A) (d : A) :
  map (fun i => f (nth i l d)) (seq 0 (length l)) = map f l.
Proof.
  induction l as [|a l IH]; simpl; [done|]. f_equal.
  by rewrite <- seq_shift, map_map.
Qed.

(** ** Bits of an index *)

(** The number below [2 ^ n] whose bit [j] is [f j]. *)
Fixpoint of_bits (f : nat -> bool) (n : nat) : Z :=
  match n with
  | O => 0
  | S m => of_bits f m + (if f m then 2 ^ Z.of_nat m else 0)
  end.

Lemma of_bits_range f n : 0 <= of_bits f n < 2 ^ Z.of_nat n.
Proof.
  induction n as [|n IH]; cbn [of_bits]; [lia|].
  rewrite Nat2Z.inj_succ, Z.pow_succ_r by lia. destruct (f n); lia.
Qed.

Lemma testbit_high z n j : 0 <= z < 2 ^ n -> 0 <= n <= j -> Z.testbit z j = false.
Proof.
  intros Hz Hj. rewrite <- (Z.mod_small z (2 ^ n)) by done.
  apply Z.mod_pow2_bits_high. lia.
Qed.

Lemma testbit_of_bits f n j : (j < n)%nat -> Z.testbit (of_bits f n) (Z.of_nat j) = f j.
Proof.
  induction n as [|n IH]; intros Hj; cbn [of_bits]; [lia|].
  pose proof (of_bits_range f n) as Hr.
  assert (Hadd : of_bits f n + (if f n then 2 ^ Z.of_nat n else 0)
          = Z.lor (of_bits f n) (Z.shiftl (Z.b2z (f n)) (Z.of_nat n))).
  { rewrite <- Z.lxor_lor, <- Z.add_nocarry_lxor.
    - f_equal. rewrite Z.shiftl_mul_pow2 by lia. destruct (f n); simpl Z.b2z; lia.
    - apply Z.bits_inj'. intros k Hk. rewrite Z.land_spec, Z.bits_0, Z.shiftl_spec by lia.
      destruct (decide (Z.of_nat n <= k)).
      + rewrite (testbit_high _ (Z.of_nat n)) by lia. done.
      + rewrite (Z.testbit_neg_r _ (k - Z.of_nat n)) by lia. apply andb_false_r.
    - apply Z.bits_inj'. intros k Hk. rewrite Z.land_spec, Z.bits_0, Z.shiftl_spec by lia.
      destruct (decide (Z.of_nat n <= k)).
      + rewrite (testbit_high _ (Z.of_nat n)) by lia. done.
      + rewrite (Z.testbit_neg_r _ (k - Z.of_nat n)) by lia. apply andb_false_r. }
  rewrite Hadd, Z.lor_spec, Z.shiftl_spec by lia.
  destruct (decide (j = n)) as [->|].
  - rewrite (testbit_high _ (Z.of_nat n)), Z.sub_diag, Z.b2z_bit0 by lia. done.
  - rewrite IH, (Z.testbit_neg_r _ (Z.of_nat j - Z.of_nat n)) by lia. apply orb_false_r.
Qed.

Lemma testbit_inj n a b :
  0 <= a < 2 ^ Z.of_nat n -> 0 <= b < 2 ^ Z.of_nat n ->
  (forall j, (j < n)%nat -> Z.testbit a (Z.of_nat j) = Z.testbit b (Z.of_nat j)) -> a = b.
Proof.
  intros Ha Hb H. apply Z.bits_inj'. intros k Hk.
  destruct (decide (k < Z.of_nat n)).
  - specialize (H (Z.to_nat k) ltac:(lia)). by rewrite Z2Nat.id in H by lia.
  - by rewrite !(testbit_high _ (Z.of_nat n)) by lia.
Qed.

Lemma nat_pow2_Z n : Z.of_nat (2 ^ n) = 2 ^ Z.of_nat n.
Proof. by rewrite Nat2Z.inj_pow. Qed.

(** ** Hash bins: lists of lists *)

Lemma nth_alter {A} (f : A -> A) n m (l : list A) d :
  nth m (alter f n l) d = if decide (m = n /\ (n < length l)%nat) then f (nth n l d) else nth m l d.
Proof.
  rewrite !nth_lookup, list_lookup_alter. destruct (decide (n = m)) as [->|Hne].
  - destruct (l !! m) as [x|] eqn:E; simpl.
    + apply lookup_lt_Some in E. case_decide; [done|lia].
    + apply lookup_ge_None in E. case_decide; [lia|done].
  - case_decide; [lia|done].
Qed.

Lemma nth_replicate_same {A} n m (x : A) : nth m (replicate n x) x = x.
Proof.
  rewrite nth_lookup. destruct (replicate n x !! m) eqn:E; [|done].
  by apply lookup_replicate in E as [-> _].
Qed.

Lemma concat_replicate_nil {A} n : concat (replicate n ([] : list A)) = [].
Proof. induction n; simpl; done. Qed.

Lemma concat_alter_split {A} (f : list A -> list A) n l :
  (n < length l)%nat -> exists l1 l2,
    concat l = l1 ++ nth n l [] ++ l2 /\ concat (alter f n l) = l1 ++ f (nth n l []) ++ l2.
Proof.
  revert n. induction l as [|a l IH]; intros [|n] Hn; simpl in Hn; [lia..| |].
  - exists [], (concat l). done.
  - destruct (IH n ltac:(lia)) as (l1 & l2 & E1 & E2). exists (a ++ l1), l2.
    change (alter f (S n) (a :: l)) with (a :: alter f n l). simpl. rewrite E1, E2.
    by rewrite <- !app_assoc.
Qed.

Lemma in_nth_concat {A} n (l : list (list A)) x : In x (nth n l []) -> In x (concat l).
Proof.
  intros Hx. apply in_concat. exists (nth n l []). split; [|done].
  destruct (nth_in_or_default n l []) as [H|H]; [done|]. rewrite H in Hx. by destruct Hx.
Qed.

Lemma find_map_fst {A} (f : A -> bool) l : find f l = None <-> forall x, In x l -> f x = false.
Proof.
  split; [apply find_none|]. induction l as [|a l IH]; simpl; intros H; [done|].
  rewrite (H a (or_introl eq_refl)). auto.
Qed.

(** ** Counting with boolean filters *)

Lemma filter_split_length {A} (f g : A -> bool) l :
  (length (List.filter f l) = length (List.filter (fun x => f x && g x) l)
                              + length (List.filter (fun x => f x && negb (g x)) l))%nat.
Proof.
  induction l as [|a l IH]; simpl; [done|]. destruct (f a), (g a); simpl; lia.
Qed.

Lemma filter_cover_step {A} (f g h : A -> bool) l :
  (forall x, In x l -> f x = true -> g x = true -> h x = false) ->
  (length (List.filter (fun x => f x && negb (g x || h x)) l)
   + length (List.filter (fun x => f x && g x) l)
   = length (List.filter (fun x => f x && negb (h x)) l))%nat.
Proof.
  induction l as [|a l IH]; intros H; simpl; [done|].
  specialize (IH (fun x Hx => H x (or_intror Hx))). specialize (H a (or_introl eq_refl)).
  destruct (f a), (g a), (h a); simpl; lia.
Qed.

Lemma filter_ext_length {A} (f g : A -> bool) l :
  (forall x, In x l -> f x = g x) -> length (List.filter f l) = length (List.filter g l).
Proof. intros H. f_equal. by apply filter_ext_in. Qed.

Lemma filter_zero_length {A} (f : A -> bool) l :
  length (List.filter f l) = 0%nat <-> forall x, In x l -> f x = false.
Proof.
  split.
  - intros H x Hx. destruct (f x) eqn:E; [|done].
    assert (In x (List.filter f l)) by (apply filter_In; done).
    destruct (List.filter f l); done.
  - intros H. induction l as [|a l IH]; simpl; [done|].
    rewrite (H a (or_introl eq_refl)). apply IH. intros. apply H. by right.
Qed.

(** ** Lists with exactly one element of a kind *)

Lemma length_filter_none {A} (P : A -> Prop) {Hdec : forall x, Decision (P x)} (l : list A) (d : A) :
  (forall i, (i < length l)%nat -> ~ P (nth i l d)) -> length (filter P l) = 0%nat.
Proof.
  induction l as [|a l IH]; intros H; [done|].
  rewrite filter_cons_False by (apply (H 0%nat); simpl; lia).
  apply IH. intros i Hi. apply (H (S i)). simpl. lia.
Qed.

Lemma length_filter_unique {A} (P : A -> Prop) {Hdec : forall x, Decision (P x)} (l : list A) (d : A) :
  (exists! i, (i < length l)%nat /\ P (nth i l d)) -> length (filter P l) = 1%nat.
Proof.
  induction l as [|a l IH]; intros (i & [Hi Hp] & Hu); [simpl in Hi; lia|].
  destruct (decide (P a)).
  - rewrite filter_cons_True by done. cbn [length]. f_equal.
    apply (length_filter_none _ _ d). intros j Hj Hpj.
    assert (i = 0%nat) by (apply Hu; simpl; split; [lia|done]).
    assert (i = S j) by (apply Hu; simpl; split; [lia|done]). lia.
  - rewrite filter_cons_False by done. destruct i as [|i]; [done|]. apply IH.
    exists i. split; [simpl in *; split; [lia|done]|].
    intros j [Hj Hpj]. assert (S i = S j) by (apply Hu; simpl; split; [lia|done]). lia.
Qed.

(** A filter of length one: some index, and only one. *)
Lemma filter_one_unique {A} (P : A -> Prop) {Hdec : forall x, Decision (P x)} (l : list A) (d : A) :
  length (filter P l) = 1%nat -> exists! i, (i < length l)%nat /\ P (nth i l d).
Proof.
  induction l as [|a l IH]; intros H; [done|]. destruct (decide (P a)).
  - rewrite filter_cons_True in H by done. cbn [length] in H. exists 0%nat.
    split; [simpl; split; [lia|done]|]. intros [|j] [Hj Hpj]; [done|exfalso].
    assert (Hin : nth j l d ∈ filter P l).
    { apply list_elem_of_filter. split; [done|]. apply list_elem_of_In, nth_In. simpl in Hj. lia. }
    destruct (filter P l); [by apply elem_of_nil in Hin|simpl in H; lia].
  - rewrite filter_cons_False in H by done. destruct (IH H) as (i & [Hi Hp] & Hu).
    exists (S i). split; [simpl; split; [lia|done]|].
    intros [|j] [Hj Hpj]; [done|]. f_equal. apply Hu. simpl in *. split; [lia|done].
Qed.

Lemma NoDup_map_filter {A B} (f : A -> B) (g : A -> bool) l :
  NoDup (map f l) -> NoDup (map f (List.filter g l)).
Proof.
  induction l as [|x l IH]; cbn [map List.filter]; intros Hnd; [done|].
  apply NoDup_cons in Hnd as [Hx Hnd]. destruct (g x); [|by apply IH].
  cbn [map]. apply NoDup_cons. split; [|by apply IH]. intros (y & Hy & Hin)%list_elem_of_fmap.
  destruct Hx. apply list_elem_of_fmap. exists y. split; [done|].
  apply list_elem_of_In in Hin. apply filter_In in Hin as [Hin _]. by apply list_elem_of_In.
Qed.

Lemma filter_map {A B} (f : A -> B) (P : B -> bool) l : List.filter P (map f l) = map f (List.filter (fun x => P (f x)) l).
Proof. induction l as [|x l IH]; [done|]. cbn [map List.filter]. rewrite IH. by destruct (P (f x)). Qed.

Lemma Forall2_filter {A B} (R : A -> B -> Prop) (P : A -> bool) (Q : B -> bool) l k :
  (forall x y, R x y -> P x = Q y) -> Forall2 R l k -> Forall2 R (List.filter P l) (List.filter Q k).
Proof.
  intros H. induction 1 as [|x y l k Hxy _ IH]; [constructor|]. cbn [List.filter]. rewrite (H x y Hxy).
  destruct (Q y); [by constructor|done].
Qed.

Lemma Forall2_find {A B} (R : A -> B -> Prop) (P : A -> bool) (Q : B -> bool) l k :
  (forall x y, R x y -> P x = Q y) -> Forall2 R l k ->
  match find P l with
  | Some x => exists y, find Q k = Some y /\ R x y /\ In x l
  | None => find Q k = None
  end.
Proof.
  intros H. induction 1 as [|x y l k Hxy _ IH]; [done|]. cbn [find]. rewrite (H x y Hxy). destruct (Q y); [exists y; split; [done|split; [done|by left]]|].
  destruct (find P l) as [x'|]; [|done]. destruct IH as (y' & E1 & E2 & E3). exists y'. split; [done|]. split; [done|by right].
Qed.

Lemma find_app {A} (P : A -> bool) l k : find P (l ++ k) = match find P l with Some x => Some x | None => find P k end.
Proof. induction l as [|x l IH]; [done|]. cbn [app find]. by destruct (P x). Qed.

Lemma alter_replicate_nil {A} (f : list A -> list A) i n l : f [] = [] -> (i < n)%nat ->
  alter f i (replicate n [] ++ l) = replicate n [] ++ l.
Proof.
  intros Hf. revert i. induction n as [|n IH]; intros [|i] Hi; [lia|lia|cbn; by rewrite Hf|].
  change (replicate (S n) [] ++ l) with ((@nil A) :: (replicate n [] ++ l)).
  change (alter f (S i) ((@nil A) :: (replicate n [] ++ l))) with ((@nil A) :: alter f i (replicate n [] ++ l)).
  rewrite IH by lia. done.
Qed.

Lemma filter_list_Permutation {A} (P : A -> bool) l k : l ≡ₚ k -> List.filter P l ≡ₚ List.filter P k.
Proof.
  induction 1 as [|x l k _ IH|x y l|l k m _ IH1 _ IH2]; cbn [List.filter]; [done| | |by rewrite IH1].
  - destruct (P x); [by constructor|done].
  - destruct (P x), (P y); try done. constructor.
Qed.

Lemma filter_keeps {A} (P : A -> bool) l : (forall x, In x l -> P x = true) -> List.filter P l = l.
Proof.
  induction l as [|x l IH]; [done|]. intros H. cbn [List.filter]. rewrite (H x) by (by left). f_equal.
  apply IH. intros y Hy. apply H. by right.
Qed.

(** ** [mapM] and [combine] *)

Lemma mapM_total {A B} (f : A -> option B) (g : A -> B) l : Forall (fun x => f x = Some (g x)) l -> mapM f l = Some (map g l).
Proof. induction 1 as [|x l Hx _ IH]; [done|]. cbn [mapM]. by rewrite Hx, IH. Qed.

Lemma mapM_mbind {A B C} (f : A -> option B) (g : B -> option C) l :
  mapM (fun x => y ← f x; g y) l = (ys ← mapM f l; mapM g ys).
Proof.
  induction l as [|x l IH]; [done|]. cbn. destruct (f x) as [y|]; [|done]. cbn. rewrite IH.
  destruct (mapM f l) as [ys|]; cbn; [done|]. by destruct (g y).
Qed.

Lemma mapM_map {A B C} (f : A -> B) (g : B -> option C) l : mapM g (map f l) = mapM (fun x => g (f x)) l.
Proof. induction l as [|x l IH]; [done|]. cbn. by rewrite IH. Qed.

Lemma mapM_ext_in {A B} (f g : A -> option B) l : Forall (fun x => f x = g x) l -> mapM f l = mapM g l.
Proof. induction 1 as [|x l Hx H IH]; [done|]. cbn. by rewrite Hx, IH. Qed.

Lemma mapM_all {A B C} (f : A -> option C) (g : B -> C) (P : A -> B -> Prop) l :
  (forall i x, l !! i = Some x -> exists y, f x = Some (g y) /\ P x y) ->
  exists ys, mapM f l = Some (map g ys) /\ Forall2 P l ys.
Proof.
  induction l as [|x l IH]; intros H; [by exists []|].
  destruct (H 0%nat x eq_refl) as (y & Hy & HP). destruct IH as (ys & Hys & HF); [intros i z Hz; exact (H (S i) z Hz)|].
  exists (y :: ys). cbn. rewrite Hy, Hys. split; [done|by constructor].
Qed.

Lemma combine_maps {A B C} (f : A -> B) (g : A -> C) l : combine (map f l) (map g l) = map (fun x => (f x, g x)) l.
Proof. induction l as [|x l IH]; [done|]. cbn. by rewrite IH. Qed.

Lemma combine_snd {A B} (l : list A) : forall l' : list B, length l = length l' -> map snd (combine l l') = l'.
Proof. induction l as [|x l IH]; intros [|y l'] H; try done. cbn. by rewrite IH by (cbn in H; lia). Qed.

Lemma combine_seq_lookup {A} (l : list A) : forall k i, combine (seq k (length l)) l !! i = x ← l !! i; Some ((k + i)%nat, x).
Proof.
  induction l as [|x l IH]; intros k i; [done|]. cbn [length seq combine]. destruct i as [|i]; cbn.
  - by rewrite Nat.add_0_r.
  - rewrite IH. by rewrite Nat.add_succ_r.
Qed.
