(* ===== verification/Lists.v ===== *)
(** * Lists: intrusive lists and queues in memory

    [src/include/list.h] and [src/include/queue.h] on a memory of nodes.  The
    other files model a linked list by the sequence of its members; here the
    pointer operations are shown to implement that: a memory holding any
    number of disjoint circular lists refines a map from heads to sequences,
    and the queue a sequence. *)

From S2P Require Import Prelude.

#[local] Set Warnings "-clear-no-such-hyp".

(** ** [list.h] *)

(** [struct list_head]; a pointer is an address or [NULL]. *)
Abbreviation addr := nat.

Record list_head := mkLh { lh_prev : option addr; lh_next : option addr }.

Abbreviation heap := (gmap addr list_head).

(** Access through a pointer; [None] is undefined. *)
Definition load (h : heap) (p : option addr) : option list_head := a ← p; h !! a.

Definition set_next (p v : option addr) (h : heap) : option heap :=
  a ← p; n ← h !! a; Some (<[a := mkLh (lh_prev n) v]> h).
Definition set_prev (p v : option addr) (h : heap) : option heap :=
  a ← p; n ← h !! a; Some (<[a := mkLh v (lh_next n)]> h).

Definition INIT_LIST_HEAD (list : addr) (h : heap) : option heap :=
  h ← set_next (Some list) (Some list) h; set_prev (Some list) (Some list) h.

Definition list_add_between (np : addr) (prev next : option addr) (h : heap) : option heap :=
  h ← set_next (Some np) next h;
  h ← set_prev (Some np) prev h;
  h ← set_next prev (Some np) h;
  set_prev next (Some np) h.

Definition list_add (np head : addr) (h : heap) : option heap :=
  n ← h !! head; list_add_between np (Some head) (lh_next n) h.
Definition list_add_tail (np head : addr) (h : heap) : option heap :=
  n ← h !! head; list_add_between np (lh_prev n) (Some head) h.
Definition list_add_before_pos (np next : addr) (h : heap) : option heap :=
  n ← h !! next; list_add_between np (lh_prev n) (Some next) h.

(** Each statement reads [old] again. *)
Definition list_del (old : addr) (h : heap) : option heap :=
  n ← h !! old;
  h ← set_next (lh_prev n) (lh_next n) h;
  n ← h !! old;
  h ← set_prev (lh_next n) (lh_prev n) h;
  h ← set_next (Some old) None h;
  set_prev (Some old) None h.

Definition list_empty (head : addr) (h : heap) : option bool :=
  n ← h !! head; Some (bool_decide (lh_next n = Some head)).

Fixpoint list_len_loop (fuel : nat) (pos : option addr) (head : addr) (h : heap) (len : Z) : option Z :=
  match fuel with
  | O => None
  | S f =>
      if bool_decide (pos = Some head) then Some len
      else n ← load h pos; list_len_loop f (lh_next n) head h (i32 (len + 1))
  end.

Definition list_len (fuel : nat) (head : addr) (h : heap) : option Z :=
  n ← h !! head; list_len_loop fuel (lh_next n) head h 0.

(** The loops of [list_for_each] and [list_for_each_safe] over a body that
    changes a state of which the memory is a part; the latter reads the
    successor before the body runs. *)
Section Loops.
Context {A : Type} (mem : A -> heap) (body : addr -> A -> option A).

Fixpoint for_each_loop (fuel : nat) (pos : option addr) (head : addr) (s : A) : option A :=
  match fuel with
  | O => None
  | S f =>
      if bool_decide (pos = Some head) then Some s
      else
        a ← pos;
        s ← body a s;
        n ← load (mem s) pos;
        for_each_loop f (lh_next n) head s
  end.

Definition list_for_each (fuel : nat) (head : addr) (s : A) : option A :=
  n ← mem s !! head; for_each_loop fuel (lh_next n) head s.

Fixpoint for_each_safe_loop (fuel : nat) (pos n : option addr) (head : addr) (s : A) : option A :=
  match fuel with
  | O => None
  | S f =>
      if bool_decide (pos = Some head) then Some s
      else
        a ← pos;
        s ← body a s;
        n' ← load (mem s) n;
        for_each_safe_loop f n (lh_next n') head s
  end.

Definition list_for_each_safe (fuel : nat) (head : addr) (s : A) : option A :=
  hd ← mem s !! head;
  n ← load (mem s) (lh_next hd);
  for_each_safe_loop fuel (lh_next hd) (lh_next n) head s.
End Loops.

(** ** [queue.h] *)

Section Queue.
Context {O : Type}.

(** [struct queue_node] and [struct queue]. *)
Record queue_node := mkQn { qn_next : option addr; qn_obj : O }.

Record queue := mkQueue { q_num_elem : Z; q_head : option addr; q_tail : option addr }.

Definition queue_init : queue := mkQueue 0 None None.

(** [a] is the address [malloc] returns. *)
Definition queue_enqueue (a : addr) (obj : O) (q : queue) (h : gmap addr queue_node)
  : option (queue * gmap addr queue_node) :=
  let h := <[a := mkQn None obj]> h in
  if q_num_elem q =? 0 then Some (mkQueue (i32 (q_num_elem q + 1)) (Some a) (Some a), h)
  else
    t ← q_tail q;
    n ← h !! t;
    Some (mkQueue (i32 (q_num_elem q + 1)) (q_head q) (Some a), <[t := mkQn (Some a) (qn_obj n)]> h).

(** The object is [None] for [NULL]. *)
Definition queue_dequeue (q : queue) (h : gmap addr queue_node)
  : option (queue * gmap addr queue_node * option O) :=
  if q_num_elem q =? 0 then Some (q, h, None)
  else
    a ← q_head q;
    n ← h !! a;
    let num := i32 (q_num_elem q - 1) in
    Some (mkQueue num (qn_next n) (if num =? 0 then None else q_tail q), delete a h, Some (qn_obj n)).

Definition queue_is_empty (q : queue) : bool := q_num_elem q =? 0.
Definition queue_size (q : queue) : Z := q_num_elem q.
End Queue.

Arguments queue_node : clear implicits.

(** ** Chains *)

Definition nxt (h : heap) (a : addr) : option addr := n ← h !! a; lh_next n.
Definition prv (h : heap) (a : addr) : option addr := n ← h !! a; lh_prev n.

(** [a] points to [b] and [b] back to [a]. *)
Definition linked (h : heap) (a b : addr) : Prop := nxt h a = Some b /\ prv h b = Some a.

(** From [p] over the members of [l] to [q]. *)
Fixpoint chain (h : heap) (p : addr) (l : list addr) (q : addr) : Prop :=
  match l with
  | [] => linked h p q
  | a :: l => linked h p a /\ chain h a l q
  end.

Definition is_list (h : heap) (head : addr) (l : list addr) : Prop := NoDup (head :: l) /\ chain h head l head.

Lemma chain_app h p l1 a l2 q : chain h p (l1 ++ a :: l2) q <-> chain h p l1 a /\ chain h a l2 q.
Proof. revert p. induction l1 as [|b l1 IH]; intros p; cbn [chain app]; [done|]. rewrite IH. tauto. Qed.

(** What a chain reads. *)
Lemma chain_ext h h' p l q :
  (forall a, a ∈ p :: l -> nxt h' a = nxt h a) -> (forall a, a ∈ l ++ [q] -> prv h' a = prv h a) ->
  chain h p l q -> chain h' p l q.
Proof.
  revert p. induction l as [|b l IH]; intros p Hn Hp; cbn [chain].
  - intros [H1 H2]. split; [rewrite Hn|rewrite Hp]; set_solver.
  - intros [[H1 H2] Hc]. split; [split; [rewrite Hn|rewrite Hp]; set_solver|]. apply IH; [|set_solver..]. intros a Ha. apply Hn. set_solver.
Qed.

Lemma nxt_insert h a n x : nxt (<[a := n]> h) x = if decide (x = a) then lh_next n else nxt h x.
Proof. unfold nxt. case_decide as Hx; [subst; by rewrite lookup_insert, decide_True|by rewrite lookup_insert_ne by congruence]. Qed.

Lemma prv_insert h a n x : prv (<[a := n]> h) x = if decide (x = a) then lh_prev n else prv h x.
Proof. unfold prv. case_decide as Hx; [subst; by rewrite lookup_insert, decide_True|by rewrite lookup_insert_ne by congruence]. Qed.

(** The two assignments on an allocated node. *)
Lemma set_next_spec h a v : is_Some (h !! a) -> exists h', set_next (Some a) v h = Some h' /\ dom h' = dom h /\
  (forall x, nxt h' x = if decide (x = a) then v else nxt h x) /\ (forall x, prv h' x = prv h x).
Proof.
  intros [n Hn]. unfold set_next. cbn [mbind option_bind]. rewrite Hn. eexists. split; [reflexivity|]. split; [|split].
  - apply dom_insert_lookup_L. by exists n.
  - intros x. apply nxt_insert.
  - intros x. rewrite prv_insert. case_decide as Hx; [|done]. subst. unfold prv. by rewrite Hn.
Qed.

Lemma set_prev_spec h a v : is_Some (h !! a) -> exists h', set_prev (Some a) v h = Some h' /\ dom h' = dom h /\
  (forall x, prv h' x = if decide (x = a) then v else prv h x) /\ (forall x, nxt h' x = nxt h x).
Proof.
  intros [n Hn]. unfold set_prev. cbn [mbind option_bind]. rewrite Hn. eexists. split; [reflexivity|]. split; [|split].
  - apply dom_insert_lookup_L. by exists n.
  - intros x. apply prv_insert.
  - intros x. rewrite nxt_insert. case_decide as Hx; [|done]. subst. unfold nxt. by rewrite Hn.
Qed.

(** ** Insertion and removal *)

Fixpoint last_of (d : addr) (l : list addr) : addr :=
  match l with [] => d | a :: l => last_of a l end.

Lemma last_of_in d l : last_of d l ∈ d :: l.
Proof. revert d. induction l as [|a l IH]; intros d; cbn [last_of]; [by left|]. right. apply IH. Qed.

Lemma hd_in d (l : list addr) : hd d l ∈ l ++ [d].
Proof. destruct l; cbn; by left. Qed.

(** The pointers at the cut of a chain. *)
Lemma chain_cut h a l1 l2 b : chain h a (l1 ++ l2) b -> linked h (last_of a l1) (hd b l2).
Proof.
  revert a. induction l1 as [|c l1 IH]; intros a; cbn [app chain last_of]; [|intros [_ H]; by apply IH].
  destruct l2; cbn [chain hd]; [done|]. by intros [? _].
Qed.

Lemma chain_linked h p l q a : chain h p l q -> a ∈ p :: l -> is_Some (nxt h a).
Proof.
  revert p. induction l as [|b l IH]; intros p; cbn [chain].
  - intros [H _] ->%list_elem_of_singleton. by eexists.
  - intros [[H _] Hc] [->|Ha]%elem_of_cons; [by eexists|]. by apply (IH b).
Qed.

Lemma nxt_alloc h a : is_Some (nxt h a) -> is_Some (h !! a).
Proof. unfold nxt. destruct (h !! a); [by eexists|by intros [??]]. Qed.

Lemma prv_alloc h a : is_Some (prv h a) -> is_Some (h !! a).
Proof. unfold prv. destruct (h !! a); [by eexists|by intros [??]]. Qed.

(** [h'] is [h] with [np] put between the two parts. *)
Lemma chain_insert h h' np l1 : forall a l2 b,
  NoDup (a :: l1 ++ l2) -> NoDup (l1 ++ l2 ++ [b]) -> np ∉ a :: l1 ++ l2 ++ [b] ->
  (forall x, nxt h' x = if decide (x = last_of a l1) then Some np else if decide (x = np) then Some (hd b l2) else nxt h x) ->
  (forall x, prv h' x = if decide (x = hd b l2) then Some np else if decide (x = np) then Some (last_of a l1) else prv h x) ->
  chain h a (l1 ++ l2) b -> chain h' a (l1 ++ np :: l2) b.
Proof.
  induction l1 as [|c l1 IH]; intros a l2 b Hd1 Hd2 Hnp Hn Hp; cbn [app chain last_of] in *.
  - assert (Hna : np <> a) by set_solver. assert (Hnh : np <> hd b l2) by (pose proof (hd_in b l2); set_solver).
    intros Hc. split; [split; [rewrite Hn, decide_True; done|rewrite Hp, decide_False, decide_True; done]|].
    assert (Hl : linked h' np (hd b l2)).
    { split; [rewrite Hn, decide_False, decide_True; done|rewrite Hp, decide_True; done]. }
    destruct l2 as [|d l2]; cbn [chain hd app] in *; [done|]. split; [done|]. destruct Hc as [_ Hc].
    apply NoDup_cons in Hd1 as [Ha Hd1]. apply NoDup_cons in Hd2 as [Hd Hd2].
    apply (chain_ext h); [| |done]; intros x Hx.
    + rewrite Hn, !decide_False by set_solver. done.
    + rewrite Hp, !decide_False by set_solver. done.
  - intros [[H1 H2] Hc]. apply NoDup_cons in Hd1 as [Ha Hd1]. pose proof Hd2 as [Hc2 Hd2']%NoDup_cons.
    assert (Hal : a <> last_of c l1) by (pose proof (last_of_in c l1); set_solver).
    assert (Hch : c <> hd b l2) by (pose proof (hd_in b l2); set_solver).
    split; [split; [rewrite Hn, !decide_False by set_solver; done|rewrite Hp, !decide_False by set_solver; done]|].
    apply IH; try done. set_solver.
Qed.

(** [h'] is [h] with [old] unlinked. *)
Lemma chain_remove h h' old l1 : forall a l2 b,
  NoDup (a :: l1 ++ old :: l2) -> NoDup (l1 ++ old :: l2 ++ [b]) ->
  (forall x, nxt h' x = if decide (x = old) then None else if decide (x = last_of a l1) then Some (hd b l2) else nxt h x) ->
  (forall x, prv h' x = if decide (x = old) then None else if decide (x = hd b l2) then Some (last_of a l1) else prv h x) ->
  chain h a (l1 ++ old :: l2) b -> chain h' a (l1 ++ l2) b.
Proof.
  induction l1 as [|c l1 IH]; intros a l2 b Hd1 Hd2 Hn Hp; cbn [app chain last_of] in *.
  - pose proof Hd1 as [Ha [Ho Hd1']%NoDup_cons]%NoDup_cons. pose proof Hd2 as [Ho' Hd2']%NoDup_cons.
    assert (Hoh : hd b l2 <> old) by (pose proof (hd_in b l2); set_solver).
    intros [_ Hc]. assert (Hl : linked h' a (hd b l2)).
    { split; [rewrite Hn, decide_False, decide_True by set_solver; done|rewrite Hp, decide_False, decide_True by done; done]. }
    destruct l2 as [|d l2]; cbn [chain hd app] in *; [done|]. split; [done|]. destruct Hc as [_ Hc].
    pose proof Hd2' as [Hd _]%NoDup_cons.
    apply (chain_ext h); [| |done]; intros x Hx.
    + rewrite Hn, !decide_False by set_solver. done.
    + rewrite Hp, !decide_False by set_solver. done.
  - intros [[H1 H2] Hc]. pose proof Hd1 as [Ha Hd1']%NoDup_cons. pose proof Hd2 as [Hc2 Hd2']%NoDup_cons.
    assert (Hal : a <> last_of c l1) by (pose proof (last_of_in c l1); set_solver).
    assert (Hch : c <> hd b l2) by (pose proof (hd_in b l2); set_solver).
    split; [split; [rewrite Hn, !decide_False by set_solver; done|rewrite Hp, !decide_False by set_solver; done]|].
    by apply IH.
Qed.

(** The four assignments of an insertion. *)
Lemma add_between_spec h np p q : is_Some (h !! np) -> is_Some (h !! p) -> is_Some (h !! q) -> np <> p -> np <> q ->
  exists h', list_add_between np (Some p) (Some q) h = Some h' /\ dom h' = dom h /\
    (forall x, nxt h' x = if decide (x = p) then Some np else if decide (x = np) then Some q else nxt h x) /\
    (forall x, prv h' x = if decide (x = q) then Some np else if decide (x = np) then Some p else prv h x).
Proof.
  intros Hn Hp Hq Hnp Hnq. unfold list_add_between.
  assert (Hdom : forall (h1 : heap) x, dom h1 = dom h -> is_Some (h !! x) -> is_Some (h1 !! x)).
  { intros h1 x Hd Hx. apply elem_of_dom. rewrite Hd. by apply elem_of_dom. }
  destruct (set_next_spec h np (Some q) Hn) as (h1 & -> & D1 & N1 & P1). cbn [mbind option_bind].
  destruct (set_prev_spec h1 np (Some p)) as (h2 & -> & D2 & P2 & N2); [by apply Hdom|]. cbn [mbind option_bind].
  destruct (set_next_spec h2 p (Some np)) as (h3 & -> & D3 & N3 & P3); [apply Hdom; [congruence|done]|]. cbn [mbind option_bind].
  destruct (set_prev_spec h3 q (Some np)) as (h4 & -> & D4 & P4 & N4); [apply Hdom; [congruence|done]|].
  exists h4. split; [done|]. split; [congruence|]. split; intros x.
  - by rewrite N4, N3, N2, N1.
  - by rewrite P4, P3, P2, P1.
Qed.

(** Nodes outside keep their pointers. *)
Definition untouched (h h' : heap) (cells : list addr) : Prop :=
  forall x, x ∉ cells -> nxt h' x = nxt h x /\ prv h' x = prv h x.

Lemma insert_spec h head l1 l2 np : is_list h head (l1 ++ l2) -> is_Some (h !! np) -> np ∉ head :: l1 ++ l2 ->
  exists h', list_add_between np (Some (last_of head l1)) (Some (hd head l2)) h = Some h' /\
    is_list h' head (l1 ++ np :: l2) /\ dom h' = dom h /\ untouched h h' (np :: head :: l1 ++ l2).
Proof.
  intros [Hnd Hc] Hnp Hfresh. pose proof (chain_cut _ _ _ _ _ Hc) as [Hl1 Hl2].
  assert (Hp : last_of head l1 ∈ head :: l1 ++ l2) by (pose proof (last_of_in head l1); set_solver).
  assert (Hq : hd head l2 ∈ head :: l1 ++ l2) by (pose proof (hd_in head l2); set_solver).
  destruct (add_between_spec h np (last_of head l1) (hd head l2)) as (h' & -> & Hd & Hn & Hpr); [done| | | | |].
  - apply nxt_alloc. rewrite Hl1. by eexists.
  - apply prv_alloc. rewrite Hl2. by eexists.
  - intros ->. done.
  - intros ->. done.
  - assert (Hperm : head :: l1 ++ np :: l2 ≡ₚ np :: head :: l1 ++ l2) by solve_Permutation.
    assert (Hrot : l1 ++ l2 ++ [head] ≡ₚ head :: l1 ++ l2) by solve_Permutation.
    exists h'. split; [done|]. split; [split|split; [done|]].
    + rewrite Hperm. by constructor.
    + apply (chain_insert h); try done; [by rewrite Hrot|]. set_solver.
    + intros x Hx. rewrite Hn, Hpr, !decide_False by set_solver. done.
Qed.

(** The four assignments of a removal. *)
Lemma list_del_spec h p old q : linked h p old -> linked h old q -> p <> old -> q <> old ->
  exists h', list_del old h = Some h' /\ dom h' = dom h /\ h' !! old = Some (mkLh None None) /\
    (forall x, nxt h' x = if decide (x = old) then None else if decide (x = p) then Some q else nxt h x) /\
    (forall x, prv h' x = if decide (x = old) then None else if decide (x = q) then Some p else prv h x).
Proof.
  intros [Np Po] [No Pq] Hp Hq. unfold list_del.
  assert (Hdom : forall (h1 : heap) x, dom h1 = dom h -> is_Some (h !! x) -> is_Some (h1 !! x)).
  { intros h1 x Hd Hx. apply elem_of_dom. rewrite Hd. by apply elem_of_dom. }
  assert (Ho : is_Some (h !! old)) by (apply nxt_alloc; by eexists).
  pose proof Ho as [n En]. unfold prv in Po. unfold nxt in No. rewrite En in Po, No. cbn [mbind option_bind] in Po, No. rewrite En. cbn [mbind option_bind]. rewrite Po, No.
  destruct (set_next_spec h p (Some q)) as (h1 & -> & D1 & N1 & P1); [apply nxt_alloc; by eexists|]. cbn [mbind option_bind].
  destruct (Hdom h1 old D1 Ho) as [n1 En1]. pose proof (N1 old) as No1. pose proof (P1 old) as Po1.
  rewrite decide_False in No1 by done. unfold nxt, prv in No1, Po1. rewrite En1, En in No1, Po1. cbn [mbind option_bind] in No1, Po1.
  rewrite En1. cbn [mbind option_bind]. rewrite No1, Po1, No, Po.
  destruct (set_prev_spec h1 q (Some p)) as (h2 & -> & D2 & P2 & N2); [apply Hdom; [done|apply prv_alloc; by eexists]|]. cbn [mbind option_bind].
  destruct (set_next_spec h2 old None) as (h3 & -> & D3 & N3 & P3); [apply Hdom; [congruence|done]|]. cbn [mbind option_bind].
  destruct (set_prev_spec h3 old None) as (h4 & -> & D4 & P4 & N4); [apply Hdom; [congruence|done]|].
  assert (Hn : forall x, nxt h4 x = if decide (x = old) then None else if decide (x = p) then Some q else nxt h x).
  { intros x. by rewrite N4, N3, N2, N1. }
  assert (Hpr : forall x, prv h4 x = if decide (x = old) then None else if decide (x = q) then Some p else prv h x).
  { intros x. by rewrite P4, P3, P2, P1. }
  exists h4. split; [done|]. split; [congruence|]. split; [|by split].
  destruct (Hdom h4 old ltac:(congruence) Ho) as [n4 En4]. pose proof (Hn old) as Hn4. pose proof (Hpr old) as Hp4.
  rewrite decide_True in Hn4, Hp4 by done. unfold nxt, prv in Hn4, Hp4. rewrite En4 in Hn4, Hp4. rewrite En4. destruct n4. cbn in Hn4, Hp4. by subst.
Qed.

Lemma remove_spec h head l1 old l2 : is_list h head (l1 ++ old :: l2) ->
  exists h', list_del old h = Some h' /\ is_list h' head (l1 ++ l2) /\ dom h' = dom h /\
    h' !! old = Some (mkLh None None) /\ untouched h h' (head :: l1 ++ old :: l2).
Proof.
  intros [Hnd Hc]. pose proof Hc as [_ Hc2]%chain_app.
  pose proof (chain_cut h head l1 (old :: l2) head Hc) as Hpo. cbn [hd] in Hpo.
  pose proof (chain_cut h old [] l2 head Hc2) as Hoq. cbn [last_of] in Hoq.
  assert (Hperm : head :: l1 ++ old :: l2 ≡ₚ old :: head :: l1 ++ l2) by solve_Permutation.
  pose proof Hnd as Hnd'. rewrite Hperm in Hnd'. apply NoDup_cons in Hnd' as [Ho Hnd'].
  assert (Hp : last_of head l1 ∈ head :: l1 ++ l2) by (pose proof (last_of_in head l1); set_solver).
  assert (Hq : hd head l2 ∈ head :: l1 ++ l2) by (pose proof (hd_in head l2); set_solver).
  destruct (list_del_spec h _ _ _ Hpo Hoq) as (h' & Hd & D & L & Hn & Hpr); [by intros Hx; rewrite Hx in Hp|by intros Hx; rewrite Hx in Hq|].
  exists h'. split; [done|]. split; [split; [done|]|split; [done|split; [done|]]].
  - apply (chain_remove h h' old); try done.
    assert (Hrot : l1 ++ old :: l2 ++ [head] ≡ₚ head :: l1 ++ old :: l2) by solve_Permutation. by rewrite Hrot.
  - intros x Hx. rewrite Hn, Hpr, !decide_False by set_solver. done.
Qed.

(** ** Walking a list *)

Lemma is_list_next h head l1 l2 : is_list h head (l1 ++ l2) -> nxt h (last_of head l1) = Some (hd head l2).
Proof. intros [_ Hc]. by apply chain_cut in Hc as [? _]. Qed.

Lemma is_list_load h head l a : is_list h head l -> a ∈ head :: l -> exists n, h !! a = Some n /\ nxt h a = lh_next n.
Proof.
  intros [_ Hc] Ha. destruct (nxt_alloc h a) as [n Hn]; [by eapply chain_linked|]. exists n. split; [done|].
  unfold nxt. by rewrite Hn.
Qed.

Lemma is_list_not_head h head l a : is_list h head l -> a ∈ l -> a <> head.
Proof. intros [[Hh _]%NoDup_cons _] Ha ->. done. Qed.

(** The head's successor, and that of a member. *)
Lemma is_list_first h head l : is_list h head l -> exists n, h !! head = Some n /\ lh_next n = Some (hd head l).
Proof.
  intros Hl. destruct (is_list_load h head l head Hl) as (n & Hn & He); [by left|]. exists n. split; [done|].
  rewrite <- He. apply (is_list_next h head [] l Hl).
Qed.

Lemma is_list_after h head k a t : is_list h head (k ++ a :: t) -> exists n, h !! a = Some n /\ lh_next n = Some (hd head t).
Proof.
  intros Hl. destruct (is_list_load h head _ a Hl) as (n & Hn & He); [set_solver|]. exists n. split; [done|].
  rewrite <- He. rewrite cons_middle, app_assoc in Hl. apply is_list_next in Hl.
  assert (Hla : forall d, last_of d (k ++ [a]) = a) by (clear; induction k; intros d; cbn; auto). by rewrite Hla in Hl.
Qed.

Lemma len_loop_spec h head fuel : forall k t len, is_list h head (k ++ t) -> (length t < fuel)%nat ->
  0 <= len -> len + Z.of_nat (length t) < 2 ^ 31 ->
  list_len_loop fuel (Some (hd head t)) head h len = Some (len + Z.of_nat (length t)).
Proof.
  induction fuel as [|f IH]; intros k t len Hl Hf H0 Hm; [lia|]. cbn [list_len_loop]. destruct t as [|a t]; cbn [hd].
  - rewrite bool_decide_eq_true_2 by done. f_equal. cbn [length]. lia.
  - rewrite bool_decide_eq_false_2.
    2:{ intros [= ->]. by apply (is_list_not_head h head _ head Hl); [set_solver|]. }
    destruct (is_list_after h head k a t Hl) as (n & Hn & He). cbn [load mbind option_bind]. rewrite Hn. cbn [mbind option_bind].
    cbn [length] in *. rewrite He, i32_small by lia. rewrite cons_middle, app_assoc in Hl.
    rewrite (IH (k ++ [a]) t (len + 1) Hl) by lia. f_equal. lia.
Qed.

(** A body that unlinks the members it does not keep, and notes those it
    has seen. *)
Definition prune (keep : addr -> bool) (a : addr) (s : list addr * heap) : option (list addr * heap) :=
  h ← (if keep a then Some (snd s) else list_del a (snd s)); Some (fst s ++ [a], h).

Lemma prune_eq keep a v h : prune keep a (v, h) = h ← (if keep a then Some h else list_del a h); Some (v ++ [a], h).
Proof. done. Qed.

(** The nodes taken out are closed off. *)
Definition unlinked (h : heap) (a : addr) : Prop := h !! a = Some (mkLh None None).

Lemma unlinked_stays h h' a cells : unlinked h a -> dom h' = dom h -> untouched h h' cells -> a ∉ cells -> unlinked h' a.
Proof.
  unfold unlinked. intros Ha Hd Hu Hx. assert (Hs : is_Some (h' !! a)) by (apply elem_of_dom; rewrite Hd; apply elem_of_dom; by eexists).
  destruct Hs as [[p n] Hs]. destruct (Hu a Hx) as [Hn Hp]. unfold nxt, prv in Hn, Hp. rewrite Ha, Hs in Hn, Hp. cbn in Hn, Hp. by subst.
Qed.

Lemma safe_loop_prunes keep head fuel : forall k t v h n, is_list h head (k ++ t) -> (length t < fuel)%nat ->
  (t <> [] -> n = Some (hd head (tl t))) ->
  exists h', for_each_safe_loop snd (prune keep) fuel (Some (hd head t)) n head (v, h) = Some (v ++ t, h') /\
    is_list h' head (k ++ List.filter keep t) /\ dom h' = dom h /\ untouched h h' (head :: k ++ t) /\
    forall a, a ∈ t -> keep a = false -> unlinked h' a.
Proof.
  induction fuel as [|f IH]; intros k t v h n Hl Hf Hn; [lia|]. cbn [for_each_safe_loop]. destruct t as [|a t]; cbn [hd].
  { rewrite bool_decide_eq_true_2 by done. exists h. rewrite app_nil_r. split; [done|]. split; [done|]. split; [done|]. split; [by intros x _|].
    intros x Hx. by apply elem_of_nil in Hx. }
  rewrite bool_decide_eq_false_2.
  2:{ intros [= ->]. by apply (is_list_not_head h head _ head Hl); [set_solver|]. }
  cbn [tl] in Hn. rewrite (Hn ltac:(done)). clear Hn n. cbn [length mbind option_bind List.filter] in *. rewrite prune_eq.
  assert (Hstep : exists h1, (if keep a then Some h else list_del a h) = Some h1 /\ dom h1 = dom h /\
    is_list h1 head ((if keep a then k ++ [a] else k) ++ t) /\ untouched h h1 (head :: k ++ a :: t) /\
    (keep a = false -> unlinked h1 a)).
  { destruct (keep a); [exists h; by rewrite <- app_assoc|].
    destruct (remove_spec h head k a t Hl) as (h1 & -> & H1 & H2 & H3 & H4). by exists h1. }
  destruct Hstep as (h1 & -> & Hd1 & Hl1 & Hu1 & Hx1). cbn [mbind option_bind].
  set (k1 := if keep a then k ++ [a] else k) in *.
  assert (Hload : exists n', load h1 (Some (hd head t)) = Some n' /\ (t <> [] -> lh_next n' = Some (hd head (tl t)))).
  { destruct t as [|b t]; cbn [hd load mbind option_bind].
    - destruct (is_list_load h1 head _ head Hl1) as (n' & Hn' & _); [by left|]. by exists n'.
    - destruct (is_list_after h1 head k1 b t Hl1) as (n' & Hn' & He). by exists n'. }
  destruct Hload as (n' & Hload & Hn'). cbn [snd]. rewrite Hload. cbn [mbind option_bind].
  destruct (IH k1 t (v ++ [a]) h1 (lh_next n') Hl1 ltac:(lia) Hn') as (h' & -> & Hl' & Hd' & Hu' & Hx').
  exists h'. rewrite <- app_assoc. split; [done|]. split; [|split; [congruence|split]].
  - unfold k1 in Hl'. destruct (keep a); [by rewrite <- app_assoc in Hl'|done].
  - intros x Hx. assert (Hk1 : x ∉ head :: k1 ++ t) by (unfold k1; destruct (keep a); set_solver).
    destruct (Hu' x Hk1) as [-> ->]. apply Hu1. set_solver.
  - intros x [->|Hx]%elem_of_cons Hk; [|by apply Hx'].
    apply (unlinked_stays h1 h' a (head :: k1 ++ t)); [by apply Hx1|done|done|].
    unfold k1. rewrite Hk. destruct Hl as [Hnd _].
    assert (Hperm : head :: k ++ a :: t ≡ₚ a :: head :: k ++ t) by solve_Permutation.
    rewrite Hperm in Hnd. by apply NoDup_cons in Hnd as [? _].
Qed.

Lemma plain_loop_stuck keep head fuel : forall k t v h, is_list h head (k ++ t) ->
  (exists a, a ∈ t /\ keep a = false) ->
  for_each_loop snd (prune keep) fuel (Some (hd head t)) head (v, h) = None.
Proof.
  induction fuel as [|f IH]; intros k t v h Hl (x & Hx & Hkx); [done|]. cbn [for_each_loop].
  destruct t as [|a t]; [by apply elem_of_nil in Hx|]. cbn [hd]. rewrite bool_decide_eq_false_2.
  2:{ intros [= ->]. by apply (is_list_not_head h head _ head Hl); [set_solver|]. }
  cbn [mbind option_bind]. rewrite prune_eq. destruct (keep a) eqn:Ek; cbn [mbind option_bind].
  - destruct (is_list_after h head k a t Hl) as (n & Hn & He). cbn [load mbind option_bind snd]. rewrite Hn. cbn [mbind option_bind]. rewrite He.
    apply (IH (k ++ [a])); [by rewrite <- app_assoc|]. exists x. apply elem_of_cons in Hx as [->|Hx]; [congruence|done].
  - destruct (remove_spec h head k a t Hl) as (h1 & -> & _ & _ & Hu & _). cbn [mbind option_bind load snd]. rewrite Hu. cbn [mbind option_bind lh_next].
    destruct f; [done|]. cbn [for_each_loop]. by rewrite bool_decide_eq_false_2.
Qed.

(** ** Many lists *)

Abbreviation world := (gmap addr (list addr)).

Record represents (h : heap) (W : world) : Prop := {
  rp_list : forall hd l, W !! hd = Some l -> is_list h hd l;
  rp_disj : forall h1 l1 h2 l2 a, W !! h1 = Some l1 -> W !! h2 = Some l2 -> a ∈ h1 :: l1 -> a ∈ h2 :: l2 -> h1 = h2
}.

Inductive list_op :=
| L_init (a : addr)
| L_add (np head : addr)
| L_add_tail (np head : addr)
| L_add_before (np pos : addr)
| L_del (old : addr).

Definition exec_op (o : list_op) (h : heap) : option heap :=
  match o with
  | L_init a => INIT_LIST_HEAD a h
  | L_add np head => list_add np head h
  | L_add_tail np head => list_add_tail np head h
  | L_add_before np pos => list_add_before_pos np pos h
  | L_del old => list_del old h
  end.

Definition exec_ops (os : list list_op) (h : heap) : option heap := foldl (fun h o => h ← h; exec_op o h) (Some h) os.

(** A node of [nodes] in no list. *)
Definition fresh (nodes : gset addr) (W : world) (a : addr) : Prop :=
  a ∈ nodes /\ forall hd l, W !! hd = Some l -> a ∉ hd :: l.

(** What the operations are for. *)
Inductive list_step (nodes : gset addr) (W : world) : list_op -> world -> Prop :=
| ls_init a : fresh nodes W a -> list_step nodes W (L_init a) (<[a := []]> W)
| ls_reinit a : W !! a = Some [] -> list_step nodes W (L_init a) W
| ls_add np head l : W !! head = Some l -> fresh nodes W np -> list_step nodes W (L_add np head) (<[head := np :: l]> W)
| ls_add_tail np head l : W !! head = Some l -> fresh nodes W np ->
    list_step nodes W (L_add_tail np head) (<[head := l ++ [np]]> W)
| ls_before np pos head l1 l2 : W !! head = Some (l1 ++ pos :: l2) -> fresh nodes W np ->
    list_step nodes W (L_add_before np pos) (<[head := l1 ++ np :: pos :: l2]> W)
| ls_del old head l1 l2 : W !! head = Some (l1 ++ old :: l2) -> list_step nodes W (L_del old) (<[head := l1 ++ l2]> W).

Inductive list_steps (nodes : gset addr) : world -> list list_op -> world -> Prop :=
| ls_nil W : list_steps nodes W [] W
| ls_cons W o W1 os W2 : list_step nodes W o W1 -> list_steps nodes W1 os W2 -> list_steps nodes W (o :: os) W2.

(** Changing the cells of one list. *)
Lemma represents_update h h' W hd l l' extra : represents h W -> (W !! hd = Some l \/ (l = [] /\ W !! hd = None)) ->
  is_list h' hd l' -> untouched h h' (hd :: extra ++ l) -> (forall a, a ∈ hd :: l' -> a ∈ hd :: extra ++ l) ->
  (forall a, a ∈ extra \/ (W !! hd = None /\ a = hd) -> forall h2 l2, W !! h2 = Some l2 -> a ∉ h2 :: l2) ->
  represents h' (<[hd := l']> W).
Proof.
  intros Hr Hw Hl' Hu Hsub Hex.
  assert (Hother : forall h2 l2 a, W !! h2 = Some l2 -> h2 <> hd -> a ∈ h2 :: l2 -> a ∉ hd :: extra ++ l).
  { intros h2 l2 a H2 Hne Ha Hin. assert (Hcase : a ∈ hd :: l \/ a ∈ extra) by set_solver. destruct Hcase as [Hin'|He].
    - destruct Hw as [Hw|[-> Hw]]; [by destruct Hne; apply (rp_disj _ _ Hr h2 l2 hd l a)|].
      apply list_elem_of_singleton in Hin'. apply (Hex a ltac:(by right) h2 l2 H2 Ha).
    - by apply (Hex a ltac:(by left) h2 l2 H2). }
  split.
  - intros h2 l2 [[<- <-]|[Hne H2]]%lookup_insert_Some; [done|]. destruct (rp_list _ _ Hr h2 l2 H2) as [Hnd Hc]. split; [done|].
    apply (chain_ext h); [| |done]; intros x Hx; (apply Hu; apply (Hother h2 l2); [done|congruence|set_solver]).
  - intros h1 l1 h2 l2 a [[<- <-]|[Hne1 H1]]%lookup_insert_Some [[<- <-]|[Hne2 H2]]%lookup_insert_Some Ha1 Ha2; [done| | |].
    + exfalso. apply (Hother h2 l2 a H2); [congruence|done|]. by apply Hsub.
    + exfalso. apply (Hother h1 l1 a H1); [congruence|done|]. by apply Hsub.
    + by apply (rp_disj _ _ Hr h1 l1 h2 l2 a).
Qed.

Lemma init_spec h a : is_Some (h !! a) -> exists h', INIT_LIST_HEAD a h = Some h' /\ is_list h' a [] /\ dom h' = dom h /\ untouched h h' [a].
Proof.
  intros Ha. unfold INIT_LIST_HEAD. destruct (set_next_spec h a (Some a) Ha) as (h1 & -> & D1 & N1 & P1). cbn [mbind option_bind].
  destruct (set_prev_spec h1 a (Some a)) as (h2 & -> & D2 & P2 & N2); [apply elem_of_dom; rewrite D1; by apply elem_of_dom|].
  exists h2. split; [done|]. split; [split; [apply NoDup_singleton|]|split; [congruence|]].
  - split; [by rewrite N2, N1, decide_True|by rewrite P2, decide_True].
  - intros x Hx%not_elem_of_cons. destruct Hx as [Hx _]. by rewrite N2, N1, P2, P1, !decide_False by done.
Qed.

Lemma load_prev h head l1 l2 : is_list h head (l1 ++ l2) ->
  exists n, h !! (hd head l2) = Some n /\ lh_prev n = Some (last_of head l1).
Proof.
  intros [_ [_ Hp]%chain_cut]. unfold prv in Hp. destruct (h !! hd head l2) as [n|]; [|done]. by exists n.
Qed.

Lemma fresh_alloc nodes (h : heap) W a : fresh nodes W a -> nodes ⊆ dom h -> is_Some (h !! a).
Proof. intros [Ha _] Hs. apply elem_of_dom. set_solver. Qed.

Section Step.
Context (nodes : gset addr) (h : heap) (W : world) (Hr : represents h W) (Hs : nodes ⊆ dom h).

(** Any insertion of a fresh node. *)
Lemma insert_refines head l1 l2 np : W !! head = Some (l1 ++ l2) -> fresh nodes W np ->
  exists h', list_add_between np (Some (last_of head l1)) (Some (hd head l2)) h = Some h' /\
    represents h' (<[head := l1 ++ np :: l2]> W) /\ dom h' = dom h.
Proof using Hr Hs.
  intros Hw Hf. destruct (insert_spec h head l1 l2 np) as (h' & -> & Hl & Hd & Hu).
  - by apply (rp_list _ _ Hr).
  - by eapply fresh_alloc.
  - by apply Hf.
  - exists h'. split; [done|]. split; [|done].
    apply (represents_update h h' W head (l1 ++ l2) (l1 ++ np :: l2) [np] Hr); [by left|done| | |].
    + intros x Hx. apply Hu. set_solver.
    + intros x Hx. set_solver.
    + intros x [->%list_elem_of_singleton|[Hn _]]; [apply Hf|by rewrite Hw in Hn].
Qed.

Lemma op_refines o W' : list_step nodes W o W' -> exists h', exec_op o h = Some h' /\ represents h' W' /\ dom h' = dom h.
Proof using Hr Hs.
  intros Hstep. destruct Hstep as [a Hf|a Hw|np head l Hw Hf|np head l Hw Hf|np pos head l1 l2 Hw Hf|old head l1 l2 Hw]; cbn [exec_op].
  - assert (Hnone : W !! a = None).
    { destruct (W !! a) as [l|] eqn:Ea; [|done]. destruct Hf as [_ Hf]. destruct (Hf a l Ea). by left. }
    destruct (init_spec h a) as (h' & -> & Hl & Hd & Hu); [by eapply fresh_alloc|]. exists h'. split; [done|]. split; [|done].
    apply (represents_update h h' W a [] [] [] Hr); [by right|done|done|done|]. intros x [[]%elem_of_nil|[_ ->]]. apply Hf.
  - destruct (is_list_first h a [] (rp_list _ _ Hr a [] Hw)) as (n & Hn & _).
    destruct (init_spec h a) as (h' & -> & Hl & Hd & Hu); [by eexists|]. exists h'. split; [done|]. split; [|done].
    rewrite <- (insert_id W a [] Hw). apply (represents_update h h' W a [] [] [] Hr); [by left|done|done|done|].
    intros x [[]%elem_of_nil|[Hx _]]. by rewrite Hw in Hx.
  - destruct (is_list_first h head l (rp_list _ _ Hr head l Hw)) as (n & Hn & He). unfold list_add. rewrite Hn. cbn [mbind option_bind]. rewrite He.
    by apply (insert_refines head [] l np).
  - destruct (load_prev h head l []) as (n & Hn & He); [rewrite app_nil_r; by apply (rp_list _ _ Hr)|].
    unfold list_add_tail. cbn [hd] in Hn. rewrite Hn. cbn [mbind option_bind]. rewrite He.
    by apply (insert_refines head l [] np); [rewrite app_nil_r|].
  - destruct (load_prev h head l1 (pos :: l2)) as (n & Hn & He); [by apply (rp_list _ _ Hr)|].
    unfold list_add_before_pos. cbn [hd] in Hn. rewrite Hn. cbn [mbind option_bind]. rewrite He.
    by apply (insert_refines head l1 (pos :: l2) np).
  - destruct (remove_spec h head l1 old l2) as (h' & -> & Hl & Hd & _ & Hu); [by apply (rp_list _ _ Hr)|]. exists h'. split; [done|]. split; [|done].
    apply (represents_update h h' W head (l1 ++ old :: l2) (l1 ++ l2) [] Hr); [by left|done|done|set_solver|].
    intros x [[]%elem_of_nil|[Hx _]]. by rewrite Hw in Hx.
Qed.
End Step.

(** ** Queue: lemmas *)

Section QueueLemmas.
Context {O : Type}.

(** The nodes from a pointer on hold the given objects, and end in the
    given node. *)
Fixpoint qchain (h : gmap addr (queue_node O)) (p : option addr) (l : list (addr * O)) : Prop :=
  match l with
  | [] => p = None
  | (a, o) :: l => p = Some a /\ exists n, h !! a = Some (mkQn n o) /\ qchain h n l
  end.

(** [q] is the queue of the objects of [l], whose nodes are [l]'s. *)
Definition is_queue (q : queue) (h : gmap addr (queue_node O)) (l : list (addr * O)) : Prop :=
  NoDup (map fst l) /\ qchain h (q_head q) l /\ q_num_elem q = Z.of_nat (length l) /\
  q_tail q = option_map fst (last l).

Lemma qchain_insert h p l a n : qchain h p l -> a ∉ map fst l -> qchain (<[a := n]> h) p l.
Proof.
  revert p. induction l as [|[b o] l IH]; intros p; cbn [qchain map fst]; [done|].
  intros (-> & n' & Hn & Hc) [Hab Ha]%not_elem_of_cons. split; [done|]. exists n'. by rewrite lookup_insert_ne by congruence; auto.
Qed.

Lemma qchain_snoc h p l b o a o' : qchain h p (l ++ [(b, o)]) -> b ∉ map fst l -> a ∉ map fst (l ++ [(b, o)]) -> h !! a = Some (mkQn None o') ->
  qchain (<[b := mkQn (Some a) o]> h) p (l ++ [(b, o); (a, o')]).
Proof.
  revert p. induction l as [|[c x] l IH]; intros p; cbn [qchain map fst app].
  - intros (-> & n & Hn & _) _ Ha Hao. split; [done|]. exists (Some a). rewrite lookup_insert, decide_True by done. split; [done|].
    split; [done|]. exists None. rewrite lookup_insert_ne by set_solver. done.
  - intros (-> & n & Hn & Hc) [Hbc Hb]%not_elem_of_cons [Hac Ha]%not_elem_of_cons Hao. split; [done|]. exists n.
    rewrite lookup_insert_ne by done. split; [done|]. by apply IH.
Qed.

Lemma enqueue_spec q h l a obj : is_queue q h l -> a ∉ map fst l -> Z.of_nat (length l) + 1 < 2 ^ 31 ->
  exists q' h', queue_enqueue a obj q h = Some (q', h') /\ is_queue q' h' (l ++ [(a, obj)]).
Proof.
  intros (Hnd & Hc & Hn & Ht) Ha Hl. unfold queue_enqueue. rewrite Hn.
  assert (Hnd' : NoDup (map fst (l ++ [(a, obj)]))).
  { rewrite map_app. apply NoDup_app. split; [done|]. split; [set_solver|apply NoDup_singleton]. }
  destruct (Z.eqb_spec (Z.of_nat (length l)) 0) as [Hz|Hz].
  - destruct l; [|done]. eexists _, _. split; [reflexivity|]. split; [done|]. split; [|by split].
    cbn. split; [done|]. exists None. by rewrite lookup_insert, decide_True.
  - destruct l as [|x0 l0] using rev_ind; [done|]. clear IHl0. destruct x0 as [b o]. rewrite last_snoc in Ht. cbn [option_map fst] in Ht. rewrite Ht.
    cbn [mbind option_bind]. rewrite map_app in Hnd, Ha. cbn [map fst] in Hnd, Ha.
    assert (Hb : b ∉ map fst l0) by (apply NoDup_app in Hnd as (_ & Hd & _); intros Hx; apply (Hd b Hx); set_solver).
    assert (Hab : a <> b) by set_solver.
    assert (Hlast : exists n, h !! b = Some (mkQn n o)).
    { clear - Hc. revert Hc. generalize (q_head q). induction l0 as [|[c x] l0 IH]; intros p; cbn [app qchain].
      - intros (_ & n & Hn & _). by exists n.
      - intros (_ & n & _ & Hc). by apply (IH n). }
    destruct Hlast as [n En]. rewrite lookup_insert_ne, En by done. cbn [mbind option_bind qn_obj]. eexists _, _. split; [reflexivity|].
    split; [done|]. cbn [q_head q_num_elem q_tail]. rewrite last_snoc. split; [|split; [|done]].
    + rewrite <- app_assoc. cbn [app]. apply qchain_snoc; [|done|rewrite map_app; cbn [map fst]; set_solver|by rewrite lookup_insert, decide_True].
      apply qchain_insert; [done|]. rewrite map_app. cbn [map fst]. set_solver.
    + rewrite i32_small by lia. rewrite !length_app in *. cbn [length] in *. lia.
Qed.

Lemma dequeue_spec q h l : is_queue q h l -> Z.of_nat (length l) < 2 ^ 31 ->
  match l with
  | [] => queue_dequeue q h = Some (q, h, None)
  | (a, o) :: l => exists q', queue_dequeue q h = Some (q', delete a h, Some o) /\ is_queue q' (delete a h) l
  end.
Proof.
  intros (Hnd & Hc & Hn & Ht) Hl. unfold queue_dequeue. rewrite Hn. destruct l as [|[a o] l]; [done|].
  destruct Hc as (-> & n & Hn' & Hc). cbn [map fst length] in *. destruct (Z.eqb_spec (Z.of_nat (S (length l))) 0); [lia|].
  cbn [mbind option_bind]. rewrite Hn'. cbn [mbind option_bind qn_next qn_obj]. eexists. split; [reflexivity|].
  apply NoDup_cons in Hnd as [Ha Hnd]. split; [done|]. cbn [q_head q_num_elem q_tail]. rewrite i32_small by lia. split; [|split; [lia|]].
  - clear - Hc Ha. revert n Hc. induction l as [|[b x] l IH]; intros n; cbn [qchain]; [done|]. cbn [map fst] in Ha. apply not_elem_of_cons in Ha as [Hab Ha].
    intros (-> & m & Hm & Hc). split; [done|]. exists m. rewrite lookup_delete_ne by done. split; [done|]. by apply IH.
  - destruct l as [|y l]; [done|]. destruct (Z.eqb_spec (Z.of_nat (S (length (y :: l))) - 1) 0); [cbn [length] in *; lia|]. rewrite Ht. done.
Qed.
End QueueLemmas.

(** ** Runs of a queue *)

Section QueueRuns.
Context {O : Type}.

(** The address is the one [malloc] returns. *)
Inductive queue_op := Q_enqueue (a : addr) (obj : O) | Q_dequeue.

Fixpoint queue_run (os : list queue_op) (q : queue) (h : gmap addr (queue_node O))
  : option (queue * gmap addr (queue_node O) * list (option O)) :=
  match os with
  | [] => Some (q, h, [])
  | Q_enqueue a obj :: os => '(q, h) ← queue_enqueue a obj q h; queue_run os q h
  | Q_dequeue :: os =>
      '(q, h, r) ← queue_dequeue q h; '(q, h, rs) ← queue_run os q h; Some (q, h, r :: rs)
  end.

Fixpoint fifo_run (os : list queue_op) (l : list (addr * O)) : list (addr * O) * list (option O) :=
  match os with
  | [] => (l, [])
  | Q_enqueue a obj :: os => fifo_run os (l ++ [(a, obj)])
  | Q_dequeue :: os =>
      let '(l', rs) := fifo_run os (tl l) in (l', option_map snd (head l) :: rs)
  end.

(** [malloc] returns no node in use, and the queue stays below the range of
    [int]. *)
Fixpoint fifo_ok (os : list queue_op) (l : list (addr * O)) : Prop :=
  match os with
  | [] => True
  | Q_enqueue a obj :: os => a ∉ map fst l /\ Z.of_nat (length l) + 1 < 2 ^ 31 /\ fifo_ok os (l ++ [(a, obj)])
  | Q_dequeue :: os => fifo_ok os (tl l)
  end.
End QueueRuns.

Arguments queue_op : clear implicits.

(** ** Properties *)

(** C40: The pointer operations of [list.h] implement sequences.  In a memory
    that holds any number of disjoint lists, any sequence of initialisations,
    insertions of free nodes and removals of members runs without undefined
    behaviour and leaves the lists that the operations on sequences give;
    then [list_empty] and [list_len] answer for the sequence, and
    [list_for_each_safe] with a body that unlinks members visits each member
    once in order and leaves the others.  With [list_for_each] the same body
    is undefined as soon as it unlinks one, and so is unlinking a node
    twice. *)
Theorem lists_refine nodes h W os W' :
  represents h W -> nodes ⊆ dom h -> list_steps nodes W os W' ->
  exists h', exec_ops os h = Some h' /\ represents h' W' /\ dom h' = dom h /\
    forall head l, W' !! head = Some l ->
      list_empty head h' = Some (bool_decide (l = [])) /\
      (forall fuel, (length l < fuel)%nat -> Z.of_nat (length l) < 2 ^ 31 -> list_len fuel head h' = Some (Z.of_nat (length l))) /\
      forall keep v fuel, (length l < fuel)%nat ->
        (exists h2, list_for_each_safe snd (prune keep) fuel head (v, h') = Some (v ++ l, h2) /\
           is_list h2 head (List.filter keep l) /\
           forall a, a ∈ l -> keep a = false -> list_del a h2 = None) /\
        ((exists a, a ∈ l /\ keep a = false) -> list_for_each snd (prune keep) fuel head (v, h') = None).
Proof.
  intros Hr Hs Hsteps. revert h Hr Hs. induction Hsteps as [W|W o W1 os W2 Hstep _ IH]; intros h Hr Hs.
  2:{ destruct (op_refines nodes h W Hr Hs o W1 Hstep) as (h1 & He & Hr1 & Hd1).
      destruct (IH h1 Hr1 ltac:(by rewrite Hd1)) as (h' & Hx & Hr' & Hd' & Hobs). exists h'.
      unfold exec_ops in *. cbn [foldl mbind option_bind]. rewrite He. split; [done|]. split; [done|]. split; [congruence|done]. }
  exists h. split; [done|]. split; [done|]. split; [done|]. intros head l Hw. pose proof (rp_list _ _ Hr head l Hw) as Hl.
  destruct (is_list_first h head l Hl) as (n & Hn & He). split; [|split].
  - unfold list_empty. rewrite Hn. cbn [mbind option_bind]. rewrite He. f_equal. apply bool_decide_ext.
    destruct l as [|a l]; cbn [hd]; [done|]. split; [|done]. intros [= ->].
    exfalso. apply (is_list_not_head h head _ head Hl); [by left|done].
  - intros fuel Hf Hm. unfold list_len. rewrite Hn. cbn [mbind option_bind]. rewrite He. by apply (len_loop_spec h head fuel [] l 0).
  - intros keep v fuel Hf. split.
    + unfold list_for_each_safe. cbn [snd]. rewrite Hn. cbn [mbind option_bind]. rewrite He.
      assert (Hload : exists n', load h (Some (hd head l)) = Some n' /\ (l <> [] -> lh_next n' = Some (hd head (tl l)))).
      { destruct l as [|b t]; [by exists n|]. destruct (is_list_after h head [] b t Hl) as (n' & Hn' & He'). by exists n'. }
      destruct Hload as (n' & -> & Hn'). cbn [mbind option_bind].
      destruct (safe_loop_prunes keep head fuel [] l v h (lh_next n') Hl Hf Hn') as (h2 & -> & Hl2 & _ & _ & Hx).
      exists h2. split; [done|]. split; [done|]. intros a Ha Hk. unfold list_del. by rewrite (Hx a Ha Hk).
    + intros Hex. unfold list_for_each. cbn [snd]. rewrite Hn. cbn [mbind option_bind]. rewrite He.
      by apply (plain_loop_stuck keep head fuel [] l v h Hl).
Qed.

(** [queue.h] is a first-in first-out queue: any sequence of insertions,
    at addresses not in use, and removals, also from an empty queue, returns
    the objects in the order in which they were put in, never touches freed
    memory, and [queue_size] and [queue_is_empty] tell the number left. *)
Theorem queue_fifo {O} (os : list (queue_op O)) : forall l q h,
  is_queue q h l -> Z.of_nat (length l) < 2 ^ 31 -> fifo_ok os l ->
  exists q' h', queue_run os q h = Some (q', h', snd (fifo_run os l)) /\ is_queue q' h' (fst (fifo_run os l)) /\
    queue_size q' = Z.of_nat (length (fst (fifo_run os l))) /\
    queue_is_empty q' = bool_decide (fst (fifo_run os l) = []).
Proof.
  induction os as [|[a obj|] os IH]; intros l q h Hq Hl Hok; cbn [queue_run fifo_run fifo_ok fst snd] in *.
  - exists q, h. split; [done|]. split; [done|]. destruct Hq as (_ & _ & Hn & _). split; [done|]. unfold queue_is_empty. rewrite Hn.
    by destruct l.
  - destruct Hok as (Ha & Hlen & Hok). destruct (enqueue_spec q h l a obj Hq Ha Hlen) as (q1 & h1 & -> & Hq1). cbn [mbind option_bind].
    apply (IH _ q1 h1 Hq1); [rewrite length_app; cbn [length]; lia|done].
  - pose proof (dequeue_spec q h l Hq Hl) as Hd. destruct l as [|[a o] l].
    + rewrite Hd. cbn [mbind option_bind tl] in *. destruct (IH [] q h Hq ltac:(simpl; lia) Hok) as (q' & h' & -> & H'). cbn [mbind option_bind].
      destruct (fifo_run os []) as [l' rs]. by exists q', h'.
    + destruct Hd as (q1 & -> & Hq1). cbn [mbind option_bind tl] in *.
      destruct (IH l q1 _ Hq1 ltac:(cbn [length] in Hl; lia) Hok) as (q' & h' & -> & H'). cbn [mbind option_bind].
      destruct (fifo_run os l) as [l' rs]. by exists q', h'.
Qed.

(** ** Concrete memories *)

(** Nodes 0 to 4, two of them heads. *)
Definition demo_nodes : heap := list_to_map (map (fun a => (a, mkLh None None)) (seq 0 5)).

Definition demo_ops : list list_op :=
  [L_init 0; L_init 1; L_add 2 0; L_add_tail 3 0; L_add_before 4 3; L_del 2; L_add 2 1].

Lemma demo_fresh (W : world) a : (a < 5)%nat -> (forall hd l, (hd, l) ∈ map_to_list W -> a ∉ hd :: l) ->
  fresh (dom demo_nodes) W a.
Proof.
  intros Ha H. split; [apply elem_of_dom; destruct a as [|[|[|[|[|]]]]]; [by eexists..|lia]|].
  intros hd l Hl. by apply H, elem_of_map_to_list.
Qed.

Ltac fresh_node := apply demo_fresh; [lia|]; intros hd0 l0 Hl0; vm_compute in Hl0;
  repeat (apply elem_of_cons in Hl0 as [[= -> ->]|Hl0]; [by rewrite !not_elem_of_cons; split_and?; (lia || apply not_elem_of_nil)|]);
  by apply elem_of_nil in Hl0.

Lemma demo_steps : exists W', list_steps (dom demo_nodes) ∅ demo_ops W' /\ W' !! 0%nat = Some [4; 3]%nat /\ W' !! 1%nat = Some [2]%nat.
Proof.
  eexists. split.
  - unfold demo_ops. eapply ls_cons; [apply ls_init; fresh_node|].
    eapply ls_cons; [apply ls_init; fresh_node|].
    eapply ls_cons; [apply (ls_add _ _ 2 0 []); [vm_compute; reflexivity|fresh_node]|].
    eapply ls_cons; [apply (ls_add_tail _ _ 3 0 [2%nat]); [vm_compute; reflexivity|fresh_node]|].
    eapply ls_cons; [apply (ls_before _ _ 4 3 0 [2%nat] []); [vm_compute; reflexivity|fresh_node]|].
    eapply ls_cons; [apply (ls_del _ _ 2 0 [] [4; 3]%nat); vm_compute; reflexivity|].
    eapply ls_cons; [apply (ls_add _ _ 2 1 []); [vm_compute; reflexivity|fresh_node]|].
    apply ls_nil.
  - split; vm_compute; reflexivity.
Qed.

Lemma empty_represents h : represents h ∅.
Proof. split; [intros hd l Hl|intros h1 l1 h2 l2 a H1]; by rewrite lookup_empty in *. Qed.

Lemma lists_refine_witness :
  exists h', exec_ops demo_ops demo_nodes = Some h' /\ list_len 9 0 h' = Some 2 /\ list_empty 1 h' = Some false.
Proof.
  destruct demo_steps as (W' & Hst & H0 & H1).
  destruct (lists_refine (dom demo_nodes) demo_nodes ∅ demo_ops W' (empty_represents _) ltac:(reflexivity) Hst)
    as (h' & E & _ & _ & Hobs).
  exists h'. split; [exact E|]. split.
  - destruct (Hobs 0%nat [4; 3]%nat H0) as (_ & Hlen & _). apply Hlen; simpl; lia.
  - destruct (Hobs 1%nat [2]%nat H1) as (He & _). exact He.
Defined.

Lemma queue_fifo_witness :
  exists q h, queue_run [Q_enqueue 7 "a"; Q_enqueue 3 "b"; Q_dequeue; Q_enqueue 7 "c"; Q_dequeue; Q_dequeue; Q_dequeue]%string queue_init ∅
    = Some (q, h, [Some "a"; Some "b"; Some "c"; None]%string).
Proof.
  destruct (queue_fifo [Q_enqueue 7 "a"; Q_enqueue 3 "b"; Q_dequeue; Q_enqueue 7 "c"; Q_dequeue; Q_dequeue; Q_dequeue]%string
    [] queue_init ∅) as (q & h & E & _).
  - split; [constructor|]. split; [reflexivity|split; reflexivity].
  - simpl. lia.
  - cbn. rewrite !not_elem_of_cons. split_and?; (lia || apply not_elem_of_nil || exact I).
  - exists q, h. exact E.
Defined.
