(* ===== verification/BBox.v ===== *)
(** * BBox: coordinates, bounding boxes and intervals

    [src/src/bbox.c] and [src/include/bbox.h]: the geometry every other part
    of DataSpaces computes with.  A box is the record of the C structure; a
    coordinate array of [BBOX_MAX_NDIM] cells is a list.  The theorems relate
    each routine to the set of integer points of a box ([in_box]). *)

From S2P Require Import Prelude.

(** ** Data *)

Definition BBOX_MAX_NDIM : nat := 10.

(** [struct coord]: the array [c]; reads and writes are by dimension. *)
Definition coord := list Z.

Definition cget (c : coord) (i : nat) : Z := nth i c 0.
Definition cset (c : coord) (i : nat) (v : Z) : coord := <[i:=v]> (c : list Z).

(** [struct bbox]. *)
Record bbox := mkBBox { num_dims : nat; lb : coord; ub : coord }.

(** [struct intv]: a closed interval of Hilbert indices. *)
Record intv := mkIntv { ilb : Z; iub : Z }.

#[export] Instance bbox_eq_dec : EqDecision bbox.
Proof. solve_decision. Defined.
#[export] Instance intv_eq_dec : EqDecision intv.
Proof. solve_decision. Defined.

(** A zeroed array and a zeroed structure ([memset(.., 0, ..)]). *)
Definition zero_coord : coord := replicate BBOX_MAX_NDIM 0.
Definition zero_bbox : bbox := mkBBox 0 zero_coord zero_coord.

(** [for(i = 0; i < n; i++) c[i] = f(i);] *)
Fixpoint set_range (n : nat) (f : nat -> Z) (c : coord) : coord :=
  match n with
  | O => c
  | S m => cset (set_range m f c) m (f m)
  end.

#[global] Arguments cget : simpl never.
#[global] Arguments cset : simpl never.

(** ** Operations *)

(** The [max] and [min] macros. *)
Definition cmax (a b : Z) : Z := if b <? a then a else b.
Definition cmin (a b : Z) : Z := if a <? b then a else b.

Definition coord_dist (c0 c1 : coord) (dim : nat) : Z :=
  u64 (u64 (cget c1 dim - cget c0 dim) + 1).

Definition bbox_dist (bb : bbox) (dim : nat) : Z :=
  coord_dist (lb bb) (ub bb) dim.

Definition bbox_divide_in2_ondim (b0 : bbox) (dim : nat) : bbox * bbox :=
  let n := Z.shiftr (u64 (cget (lb b0) dim + cget (ub b0) dim)) 1 in
  (mkBBox (num_dims b0) (lb b0) (cset (ub b0) dim n),
   mkBBox (num_dims b0) (cset (lb b0) dim (u64 (n + 1))) (ub b0)).

(** The midpoint of [bbox_divide]. *)
Definition bbox_mid (b0 : bbox) (j : nat) : Z :=
  u64 (cget (lb b0) j + cget (ub b0) j) `div` 2.

(** Entry [i] of [b_tab] after [bbox_divide]; [old] is its previous content,
    whose coordinates past [num_dims] survive. *)
Definition bbox_divide_entry (b0 old : bbox) (i : nat) : bbox :=
  mkBBox (num_dims b0)
    (set_range (num_dims b0)
       (fun j => if Z.testbit (Z.of_nat i) (Z.of_nat j)
                 then u64 (bbox_mid b0 j + 1) else cget (lb b0) j) (lb old))
    (set_range (num_dims b0)
       (fun j => if Z.testbit (Z.of_nat i) (Z.of_nat j)
                 then cget (ub b0) j else bbox_mid b0 j) (ub old)).

Definition bbox_divide (b0 : bbox) (b_tab : list bbox) : list bbox :=
  map (fun i => bbox_divide_entry b0 (nth i b_tab zero_bbox) i)
      (seq 0 (2 ^ num_dims b0)).

Definition bbox_include_ondim (b0 b1 : bbox) (dim : nat) : bool :=
  (cget (lb b0) dim <=? cget (lb b1) dim) && (cget (ub b1) dim <=? cget (ub b0) dim).

Definition bbox_include (b0 b1 : bbox) : bool :=
  for_all (num_dims b0) (bbox_include_ondim b0 b1).

Definition bbox_intersect_ondim (b0 b1 : bbox) (dim : nat) : bool :=
  ((cget (lb b0) dim <=? cget (lb b1) dim) && (cget (lb b1) dim <=? cget (ub b0) dim))
  || ((cget (lb b1) dim <=? cget (lb b0) dim) && (cget (lb b0) dim <=? cget (ub b1) dim)).

Definition bbox_does_intersect (b0 b1 : bbox) : bool :=
  for_all (num_dims b0) (bbox_intersect_ondim b0 b1).

(** The output box [b2] keeps its cells past [num_dims]. *)
Definition bbox_intersect (b0 b1 b2 : bbox) : bbox :=
  mkBBox (num_dims b0)
    (set_range (num_dims b0) (fun i => cmax (cget (lb b0) i) (cget (lb b1) i)) (lb b2))
    (set_range (num_dims b0) (fun i => cmin (cget (ub b0) i) (cget (ub b1) i)) (ub b2)).

Definition bbox_equals (bb0 bb1 : bbox) : bool :=
  (num_dims bb0 =? num_dims bb1)%nat
  && for_all (num_dims bb0)
       (fun i => (cget (lb bb0) i =? cget (lb bb1) i) && (cget (ub bb0) i =? cget (ub bb1) i)).

(** The accumulator of [bbox_volume] after [n] iterations. *)
Fixpoint bbox_volume_loop (bb : bbox) (n : nat) : Z :=
  match n with
  | O => 1
  | S i => u64 (bbox_volume_loop bb i * coord_dist (lb bb) (ub bb) i)
  end.

Definition bbox_volume (bb : bbox) : Z := bbox_volume_loop bb (num_dims bb).

Definition bbox_to_origin (bb bb_glb : bbox) : bbox :=
  mkBBox (num_dims bb_glb)
    (set_range (num_dims bb_glb)
       (fun i => u64 (cget (lb bb) i - cget (lb bb_glb) i)) (lb bb))
    (set_range (num_dims bb_glb)
       (fun i => u64 (cget (ub bb) i - cget (lb bb_glb) i)) (ub bb)).

Definition intv_do_intersect (i0 i1 : intv) : bool :=
  ((ilb i0 <=? ilb i1) && (ilb i1 <=? iub i0))
  || ((ilb i1 <=? ilb i0) && (ilb i0 <=? iub i1)).

Definition intv_size (itv : intv) : Z := u64 (u64 (iub itv - ilb itv) + 1).

(** ** Well-formedness and the points of a box *)

Definition wf_coord (c : coord) : Prop :=
  length c = BBOX_MAX_NDIM /\ Forall in_u64 c.

Definition wf_box (b : bbox) : Prop :=
  (num_dims b <= BBOX_MAX_NDIM)%nat /\ wf_coord (lb b) /\ wf_coord (ub b).

(** A box with at least one point. *)
Definition valid_box (b : bbox) : Prop :=
  wf_box b /\ forall i, (i < num_dims b)%nat -> cget (lb b) i <= cget (ub b) i.

Definition in_box (p : coord) (b : bbox) : Prop :=
  forall i, (i < num_dims b)%nat -> cget (lb b) i <= cget p i <= cget (ub b) i.

Definition in_intv (x : Z) (v : intv) : Prop := ilb v <= x <= iub v.

Definition in_boxb (p : coord) (b : bbox) : bool :=
  for_all (num_dims b)
    (fun i => (cget (lb b) i <=? cget p i) && (cget p i <=? cget (ub b) i)).

Lemma in_boxb_spec p b : in_boxb p b = true <-> in_box p b.
Proof.
  unfold in_boxb, in_box. rewrite for_all_true.
  split; intros H i Hi; specialize (H i Hi); zify_bool; lia.
Qed.

#[export] Instance in_box_dec p b : Decision (in_box p b).
Proof.
  destruct (in_boxb p b) eqn:E; [left|right]; abstract (rewrite <- in_boxb_spec; congruence).
Defined.

(** All points of a box, each as the list of its [num_dims] coordinates. *)
Fixpoint points_of (n : nat) (lo hi : nat -> Z) : list (list Z) :=
  match n with
  | O => [[]]
  | S m => flat_map (fun p => map (fun x => p ++ [x]) (seqZ (lo m) (hi m - lo m + 1)))
             (points_of m lo hi)
  end.

Definition box_points (b : bbox) : list (list Z) :=
  points_of (num_dims b) (cget (lb b)) (cget (ub b)).

(** Exact (unbounded) side length and volume. *)
Definition side (b : bbox) (i : nat) : Z := cget (ub b) i - cget (lb b) i + 1.
Definition zvolume (b : bbox) : Z := zprod (num_dims b) (side b).

(** ** Array lemmas *)

Lemma cget_cset_eq c i v : (i < length c)%nat -> cget (cset c i v) i = v.
Proof.
  intros. unfold coord, cget, cset in *. rewrite nth_lookup, list_lookup_insert_eq by done. done.
Qed.

Lemma cget_cset_ne c i j v : i <> j -> cget (cset c i v) j = cget c j.
Proof.
  intros. unfold coord, cget, cset in *. by rewrite !nth_lookup, list_lookup_insert_ne.
Qed.

Lemma length_cset c i v : length (cset c i v) = length c.
Proof. unfold coord, cset in *. apply length_insert. Qed.

Lemma length_set_range n f c : length (set_range n f c) = length c.
Proof. induction n; simpl; [done|]. by rewrite length_cset. Qed.

Lemma cget_set_range n f c i :
  (n <= length c)%nat ->
  cget (set_range n f c) i = if (i <? n)%nat then f i else cget c i.
Proof.
  induction n as [|n IH]; intros Hn; simpl; [done|].
  destruct (decide (i = n)) as [->|Hne].
  - rewrite cget_cset_eq by (rewrite length_set_range; lia).
    by replace (n <? S n)%nat with true by (symmetry; apply Nat.ltb_lt; lia).
  - rewrite cget_cset_ne, IH by lia.
    destruct (Nat.ltb_spec i n), (Nat.ltb_spec i (S n)); done || lia.
Qed.

Lemma cget_set_range_lt n f c i :
  (n <= length c)%nat -> (i < n)%nat -> cget (set_range n f c) i = f i.
Proof.
  intros. rewrite cget_set_range by done. by destruct (Nat.ltb_spec i n); [|lia].
Qed.

Lemma wf_coord_range c i : wf_coord c -> 0 <= cget c i < 2 ^ 64.
Proof.
  intros [Hlen Hall]. unfold cget. destruct (decide (i < length c)%nat).
  - rewrite Forall_forall in Hall. apply Hall, list_elem_of_In, nth_In. done.
  - rewrite nth_overflow; lia.
Qed.

Lemma wf_coord_cset c i v : wf_coord c -> in_u64 v -> wf_coord (cset c i v).
Proof.
  intros [Hlen Hall] Hv. split; [by rewrite length_cset|].
  by apply Forall_insert.
Qed.

Lemma wf_coord_set_range n f c :
  wf_coord c -> (forall i, (i < n)%nat -> in_u64 (f i)) -> wf_coord (set_range n f c).
Proof.
  induction n as [|n IH]; intros Hc Hf; simpl; [done|].
  apply wf_coord_cset; [apply IH; [done|]; intros; apply Hf; lia|apply Hf; lia].
Qed.

Lemma wf_zero_coord : wf_coord zero_coord.
Proof. split; [done|]. apply Forall_replicate. unfold in_u64. lia. Qed.

Lemma wf_zero_bbox : wf_box zero_bbox.
Proof. repeat split; unfold BBOX_MAX_NDIM; simpl; try lia; apply wf_zero_coord. Qed.

Lemma cmax_spec a b : cmax a b = Z.max a b.
Proof. unfold cmax. destruct (Z.ltb_spec b a); lia. Qed.

Lemma cmin_spec a b : cmin a b = Z.min a b.
Proof. unfold cmin. destruct (Z.ltb_spec a b); lia. Qed.

#[export] Hint Resolve wf_zero_coord wf_zero_bbox wf_coord_range : dspaces.

(** ** Inclusion and intersection *)

Lemma bbox_intersect_ondim_spec b0 b1 i :
  bbox_intersect_ondim b0 b1 i = true <->
  (cget (lb b0) i <= cget (lb b1) i <= cget (ub b0) i \/
   cget (lb b1) i <= cget (lb b0) i <= cget (ub b1) i).
Proof. unfold bbox_intersect_ondim. zify_bool. tauto. Qed.

Lemma lb_intersect b0 b1 b2 i :
  (num_dims b0 <= BBOX_MAX_NDIM)%nat -> wf_coord (lb b2) -> (i < num_dims b0)%nat ->
  cget (lb (bbox_intersect b0 b1 b2)) i = Z.max (cget (lb b0) i) (cget (lb b1) i).
Proof.
  intros Hn [Hl _] Hi. cbn. rewrite cget_set_range_lt by (unfold coord in *; lia). apply cmax_spec.
Qed.

Lemma ub_intersect b0 b1 b2 i :
  (num_dims b0 <= BBOX_MAX_NDIM)%nat -> wf_coord (ub b2) -> (i < num_dims b0)%nat ->
  cget (ub (bbox_intersect b0 b1 b2)) i = Z.min (cget (ub b0) i) (cget (ub b1) i).
Proof.
  intros Hn [Hl _] Hi. cbn. rewrite cget_set_range_lt by (unfold coord in *; lia). apply cmin_spec.
Qed.

Lemma wf_bbox_intersect b0 b1 b2 :
  wf_box b0 -> wf_box b1 -> wf_box b2 -> wf_box (bbox_intersect b0 b1 b2).
Proof.
  intros (? & ? & ?) (? & ? & ?) (? & ? & ?). split; [done|].
  split; apply wf_coord_set_range; try done; intros i _;
    rewrite ?cmax_spec, ?cmin_spec; unfold in_u64.
  - pose proof (wf_coord_range (lb b0) i ltac:(done)).
    pose proof (wf_coord_range (lb b1) i ltac:(done)). lia.
  - pose proof (wf_coord_range (ub b0) i ltac:(done)).
    pose proof (wf_coord_range (ub b1) i ltac:(done)). lia.
Qed.

Lemma in_box_lb b : valid_box b -> in_box (lb b) b.
Proof. intros [_ H] i Hi. specialize (H i Hi). lia. Qed.

Lemma in_box_ub b : valid_box b -> in_box (ub b) b.
Proof. intros [_ H] i Hi. specialize (H i Hi). lia. Qed.

Lemma in_box_intersect p b0 b1 b2 :
  wf_box b0 -> wf_box b2 -> num_dims b1 = num_dims b0 ->
  in_box p (bbox_intersect b0 b1 b2) <-> in_box p b0 /\ in_box p b1.
Proof.
  intros (Hn & _ & _) (_ & Hl & Hu) Hd. unfold in_box. split.
  - intros H. split; intros i Hi; specialize (H i ltac:(cbn; lia));
      rewrite lb_intersect, ub_intersect in H by (done || lia); lia.
  - intros [H0 H1] i Hi. cbn in Hi. rewrite lb_intersect, ub_intersect by done.
    specialize (H0 i Hi). specialize (H1 i ltac:(lia)). lia.
Qed.

(** A point common to both boxes exists exactly when the test succeeds. *)
Lemma does_intersect_common b0 b1 :
  valid_box b0 -> valid_box b1 -> num_dims b1 = num_dims b0 ->
  bbox_does_intersect b0 b1 = true <-> exists p, in_box p b0 /\ in_box p b1.
Proof.
  intros [Hw0 Hv0] [Hw1 Hv1] Hd. unfold bbox_does_intersect. rewrite for_all_true.
  setoid_rewrite bbox_intersect_ondim_spec. split.
  - intros H. exists (lb (bbox_intersect b0 b1 zero_bbox)).
    apply (in_box_intersect _ b0 b1 zero_bbox); auto with dspaces.
    intros i Hi. cbn [num_dims bbox_intersect] in Hi.
    rewrite lb_intersect, ub_intersect by (auto with dspaces; apply Hw0).
    specialize (H i Hi). specialize (Hv0 i Hi). specialize (Hv1 i ltac:(lia)). lia.
  - intros (p & H0 & H1) i Hi. specialize (H0 i Hi). specialize (H1 i ltac:(lia)). lia.
Qed.

Lemma bbox_equals_spec b0 b1 :
  bbox_equals b0 b1 = true <->
  num_dims b0 = num_dims b1 /\
  forall i, (i < num_dims b0)%nat ->
    cget (lb b0) i = cget (lb b1) i /\ cget (ub b0) i = cget (ub b1) i.
Proof.
  unfold bbox_equals. rewrite andb_true_iff, for_all_true, Nat.eqb_eq.
  split; intros [? H]; (split; [done|]); intros i Hi; specialize (H i Hi); zify_bool; lia.
Qed.

Lemma set_range_ext n f g c : (forall i, (i < n)%nat -> f i = g i) -> set_range n f c = set_range n g c.
Proof.
  induction n as [|n IH]; intros H; simpl; [done|].
  rewrite IH, H by lia || (intros; apply H; lia). done.
Qed.

Lemma bbox_intersect_comm b0 b1 b2 :
  num_dims b1 = num_dims b0 -> bbox_intersect b0 b1 b2 = bbox_intersect b1 b0 b2.
Proof.
  intros Hd. unfold bbox_intersect. rewrite Hd.
  f_equal; apply set_range_ext; intros i _; rewrite ?cmax_spec, ?cmin_spec; lia.
Qed.

(** ** Volume *)

Lemma coord_dist_side b i : coord_dist (lb b) (ub b) i = u64 (side b i).
Proof. unfold coord_dist, side. by autorewrite with cint. Qed.

Lemma bbox_volume_loop_zprod b n : bbox_volume_loop b n = u64 (zprod n (side b)).
Proof.
  induction n as [|n IH]; simpl; [by rewrite u64_small|].
  rewrite IH, coord_dist_side. by autorewrite with cint.
Qed.

Lemma bbox_volume_zvolume b : bbox_volume b = u64 (zvolume b).
Proof. apply bbox_volume_loop_zprod. Qed.

Lemma length_points_of n lo hi :
  (forall i, (i < n)%nat -> 0 <= hi i - lo i + 1) ->
  Z.of_nat (length (points_of n lo hi)) = zprod n (fun i => hi i - lo i + 1).
Proof.
  induction n as [|n IH]; intros H; simpl; [done|].
  rewrite <- IH by (intros; apply H; lia). specialize (H n ltac:(lia)).
  clear IH. induction (points_of n lo hi) as [|p l IHl]; [done|]. cbn [flat_map length].
  rewrite length_app, length_map, length_seqZ, Nat2Z.inj_add.
  rewrite Z2Nat.id, IHl by lia.
  rewrite Nat2Z.inj_succ. ring.
Qed.

Lemma elem_of_points_of n lo hi p :
  In p (points_of n lo hi) <->
  length p = n /\ forall i, (i < n)%nat -> lo i <= nth i p 0 <= hi i.
Proof.
  revert p. induction n as [|n IH]; intros p; simpl.
  - split; [intros [<-|[]]; split; [done|lia]|].
    intros [Hl _]. left. symmetry. by apply nil_length_inv.
  - rewrite in_flat_map. setoid_rewrite in_map_iff. setoid_rewrite IH. split.
    + intros (q & [Hq Hall] & x & <- & Hx).
      apply list_elem_of_In, elem_of_seqZ in Hx.
      split; [rewrite length_app; simpl; lia|]. intros i Hi.
      destruct (decide (i = n)) as [->|].
      * rewrite app_nth2, Hq, Nat.sub_diag by lia. simpl. lia.
      * rewrite app_nth1 by lia. apply Hall. lia.
    + intros [Hl Hall]. destruct (exists_last (l := p)) as (q & x & ->).
      { intros ->. simpl in Hl. lia. }
      rewrite length_app in Hl. simpl in Hl. exists q. split; [split; [lia|]|].
      * intros i Hi. specialize (Hall i ltac:(lia)). by rewrite app_nth1 in Hall by lia.
      * exists x. split; [done|]. apply list_elem_of_In, elem_of_seqZ.
        specialize (Hall n ltac:(lia)). rewrite app_nth2 in Hall by lia.
        replace (n - length q)%nat with 0%nat in Hall by lia. simpl in Hall. lia.
Qed.

Lemma NoDup_points_of n lo hi : NoDup (points_of n lo hi).
Proof.
  induction n as [|n IH]; simpl; [repeat constructor; set_solver|].
  induction IH as [|p l Hp Hl IHl]; simpl; [constructor|].
  apply NoDup_app. split; [|split; [|done]].
  - apply (NoDup_fmap_2_strong (fun x => p ++ [x])); [|apply NoDup_seqZ].
    intros x y _ _ Hxy. by simplify_list_eq.
  - intros q Hq Hq'. apply list_elem_of_In in Hq, Hq'.
    apply in_map_iff in Hq as (x & <- & _). apply in_flat_map in Hq' as (r & Hr & Hx).
    apply in_map_iff in Hx as (y & Heq & _). apply app_inj_2 in Heq as [-> _]; [|done].
    by apply list_elem_of_In in Hr.
Qed.

Lemma elem_of_box_points p b :
  In p (box_points b) <-> length p = num_dims b /\ in_box p b.
Proof. apply elem_of_points_of. Qed.

Lemma zvolume_points b :
  valid_box b -> zvolume b = Z.of_nat (length (box_points b)).
Proof.
  intros [_ Hv]. unfold box_points. rewrite length_points_of; [done|].
  intros i Hi. specialize (Hv i Hi). lia.
Qed.

(** ** Division *)

(** The upper corner is below [2^63], so [lb + ub] does not wrap, and the box
    is at worst empty by one cell, which is what halving a box of side 1
    gives. *)
Definition small_box (b : bbox) : Prop :=
  forall i, (i < num_dims b)%nat ->
    cget (lb b) i <= cget (ub b) i + 1 /\ cget (ub b) i < 2 ^ 63.

Definition in2_mid (b : bbox) (d : nat) : Z := (cget (lb b) d + cget (ub b) d) `div` 2.

Lemma shiftr_mid b d :
  wf_box b -> small_box b -> (d < num_dims b)%nat ->
  Z.shiftr (u64 (cget (lb b) d + cget (ub b) d)) 1 = in2_mid b d
  /\ 0 <= in2_mid b d < 2 ^ 63.
Proof.
  intros (Hn & Hl & Hu) Hs Hd. specialize (Hs d Hd).
  pose proof (wf_coord_range (lb b) d Hl). pose proof (wf_coord_range (ub b) d Hu).
  rewrite u64_small by lia. rewrite Z.shiftr_div_pow2 by lia.
  change (2 ^ 1) with 2. unfold in2_mid. split; [done|].
  split; [apply Z.div_pos; lia|apply Z.div_lt_upper_bound; lia].
Qed.

Lemma bbox_mid_eq b d :
  wf_box b -> small_box b -> (d < num_dims b)%nat -> bbox_mid b d = in2_mid b d.
Proof.
  intros Hw Hs Hd. unfold bbox_mid, in2_mid. pose proof (shiftr_mid b d Hw Hs Hd) as [_ _].
  destruct Hw as (Hn & Hl & Hu). specialize (Hs d Hd).
  pose proof (wf_coord_range (lb b) d Hl). pose proof (wf_coord_range (ub b) d Hu).
  by rewrite u64_small by lia.
Qed.

Section Divide2.
Context (b : bbox) (d : nat).
Hypothesis Hw : wf_box b.
Hypothesis Hs : small_box b.
Hypothesis Hd : (d < num_dims b)%nat.

Let b1 := fst (bbox_divide_in2_ondim b d).
Let b2 := snd (bbox_divide_in2_ondim b d).

Lemma in2_bounds i :
  cget (lb b1) i = cget (lb b) i /\
  cget (ub b1) i = (if decide (i = d) then in2_mid b d else cget (ub b) i) /\
  cget (lb b2) i = (if decide (i = d) then in2_mid b d + 1 else cget (lb b) i) /\
  cget (ub b2) i = cget (ub b) i.
Proof using Hw Hs Hd.
  destruct (shiftr_mid b d Hw Hs Hd) as [Hm Hr]. destruct Hw as (Hn & [Hll _] & [Hul _]).
  unfold b1, b2, bbox_divide_in2_ondim. simpl. rewrite Hm, (u64_small (in2_mid b d + 1)) by lia.
  destruct (decide (i = d)) as [->|].
  - by rewrite !cget_cset_eq by (unfold coord in *; lia).
  - by rewrite !cget_cset_ne by done.
Qed.

Lemma wf_in2 : wf_box b1 /\ wf_box b2.
Proof using Hw Hs Hd.
  destruct (shiftr_mid b d Hw Hs Hd) as [Hm Hr]. destruct Hw as (Hn & Hl & Hu).
  unfold b1, b2, bbox_divide_in2_ondim. simpl. rewrite Hm, (u64_small (in2_mid b d + 1)) by lia.
  split; (split; [done|]); split; simpl; try done; apply wf_coord_cset; z_range.
Qed.

Lemma small_in2 : small_box b1 /\ small_box b2.
Proof using Hw Hs Hd.
  destruct (shiftr_mid b d Hw Hs Hd) as [_ Hr]. destruct Hw as (Hn & Hl & Hu).
  split; intros i Hi; pose proof (in2_bounds i) as (E1 & E2 & E3 & E4);
    rewrite ?E1, ?E2, ?E3, ?E4; specialize (Hs i Hi); unfold in2_mid in *;
    case_decide; subst; dlia.
Qed.

Lemma in2_zvolume_split : zvolume b = zvolume b1 + zvolume b2.
Proof using Hw Hs Hd.
  unfold zvolume. apply zprod_split with d; [done| | |]; unfold side.
  - pose proof (in2_bounds d) as (-> & -> & -> & ->). case_decide; [lia|done].
  - intros i Hi. pose proof (in2_bounds i) as (-> & -> & _). case_decide; [done|lia].
  - intros i Hi. pose proof (in2_bounds i) as (_ & _ & -> & ->). case_decide; [done|lia].
Qed.

Lemma in2_points_split p : in_box p b <->
  cget (lb b) d <= cget p d <= cget (ub b) d /\
  (in_box p b1 /\ cget p d <= in2_mid b d \/ in_box p b2 /\ in2_mid b d < cget p d).
Proof using Hw Hs Hd.
  unfold in_box. change (num_dims b1) with (num_dims b). change (num_dims b2) with (num_dims b).
  split.
  - intros H. split; [by apply H|]. destruct (decide (cget p d <= in2_mid b d)); [left|right];
      (split; [|lia]); intros i Hi; pose proof (in2_bounds i) as (E1 & E2 & E3 & E4);
      rewrite ?E1, ?E2, ?E3, ?E4; specialize (H i Hi); case_decide; subst; lia.
  - intros [H [[H1 H2]|[H1 H2]]] i Hi; specialize (H1 i Hi);
      pose proof (in2_bounds i) as (E1 & E2 & E3 & E4);
      rewrite ?E1, ?E2, ?E3, ?E4 in H1; case_decide; subst; lia.
Qed.
End Divide2.

Section Divide.
Context (b : bbox) (tab : list bbox).
Hypothesis Hw : wf_box b.
Hypothesis Hs : small_box b.
Hypothesis Htab : Forall wf_box tab.

Lemma wf_tab_entry i : wf_box (nth i tab zero_bbox).
Proof using Htab.
  destruct (nth_in_or_default i tab zero_bbox) as [Hin | ->]; [|apply wf_zero_bbox].
  rewrite Forall_forall in Htab. by apply Htab, list_elem_of_In.
Qed.

Lemma length_bbox_divide : length (bbox_divide b tab) = (2 ^ num_dims b)%nat.
Proof. unfold bbox_divide. by rewrite length_map, length_seq. Qed.

Lemma nth_bbox_divide i :
  (i < 2 ^ num_dims b)%nat ->
  nth i (bbox_divide b tab) zero_bbox = bbox_divide_entry b (nth i tab zero_bbox) i.
Proof.
  intros Hi. unfold bbox_divide. set (g := fun i => _).
  rewrite (nth_indep _ zero_bbox (g 0%nat)) by (rewrite length_map, length_seq; lia).
  by rewrite map_nth, seq_nth by lia.
Qed.

Lemma divide_entry_bounds i j :
  (j < num_dims b)%nat ->
  let e := bbox_divide_entry b (nth i tab zero_bbox) i in
  let bit := Z.testbit (Z.of_nat i) (Z.of_nat j) in
  cget (lb e) j = (if bit then in2_mid b j + 1 else cget (lb b) j) /\
  cget (ub e) j = (if bit then cget (ub b) j else in2_mid b j).
Proof using Hw Hs Htab.
  intros Hj e bit. destruct (wf_tab_entry i) as (_ & [Hl _] & [Hu _]).
  pose proof Hw as (Hn & _ & _). unfold coord in *.
  unfold e, bbox_divide_entry. simpl. rewrite !cget_set_range_lt by lia. fold bit.
  rewrite bbox_mid_eq by done. destruct (shiftr_mid b j Hw Hs Hj) as [_ ?].
  by rewrite u64_small by lia.
Qed.

Lemma divide_entry_member p i :
  (forall j, (j < num_dims b)%nat ->
     cget (lb b) j <= in2_mid b j + 1 /\ in2_mid b j <= cget (ub b) j) ->
  in_box p (bbox_divide_entry b (nth i tab zero_bbox) i) <->
  in_box p b /\ forall j, (j < num_dims b)%nat ->
    Z.testbit (Z.of_nat i) (Z.of_nat j) = bool_decide (in2_mid b j < cget p j).
Proof using Hw Hs Htab.
  intros Hmid. unfold in_box. change (num_dims (bbox_divide_entry _ _ _)) with (num_dims b).
  split.
  - intros H. split; intros j Hj; specialize (H j Hj); specialize (Hmid j Hj);
      destruct (divide_entry_bounds i j Hj) as [E1 E2]; rewrite E1, E2 in H;
      destruct (Z.testbit _ _); try case_bool_decide; lia || done.
  - intros [H Hb] j Hj. destruct (divide_entry_bounds i j Hj) as [-> ->].
    rewrite (Hb j Hj). specialize (H j Hj). case_bool_decide; lia.
Qed.
End Divide.

Lemma mid_between b j :
  small_box b -> (j < num_dims b)%nat ->
  cget (lb b) j <= in2_mid b j + 1 /\ in2_mid b j <= cget (ub b) j.
Proof. intros Hs Hj. specialize (Hs j Hj). unfold in2_mid. dlia. Qed.

Lemma bbox_divide_unique b tab p :
  wf_box b -> small_box b -> Forall wf_box tab ->
  (in_box p b -> exists! i, (i < 2 ^ num_dims b)%nat /\ in_box p (nth i (bbox_divide b tab) zero_bbox)) /\
  (forall i, (i < 2 ^ num_dims b)%nat -> in_box p (nth i (bbox_divide b tab) zero_bbox) -> in_box p b).
Proof.
  intros Hw Hs Ht. split.
  - intros Hp. set (f j := bool_decide (in2_mid b j < cget p j)).
    pose proof (of_bits_range f (num_dims b)) as Hr.
    exists (Z.to_nat (of_bits f (num_dims b))). split.
    + assert (Z.to_nat (of_bits f (num_dims b)) < 2 ^ num_dims b)%nat.
      { apply Nat2Z.inj_lt. rewrite nat_pow2_Z. lia. }
      split; [done|]. rewrite nth_bbox_divide by done.
      apply divide_entry_member; [done..|intros; by apply mid_between|].
      split; [done|]. intros j Hj. rewrite Z2Nat.id by lia. by apply testbit_of_bits.
    + intros i [Hi Hin]. rewrite nth_bbox_divide in Hin by done.
      apply divide_entry_member in Hin as [_ Hb]; [|done..|intros; by apply mid_between].
      apply Nat2Z.inj. rewrite Z2Nat.id by lia. apply (testbit_inj (num_dims b)); [done| |].
      * rewrite <- nat_pow2_Z. lia.
      * intros j Hj. rewrite Hb, testbit_of_bits by done. done.
  - intros i Hi Hin. rewrite nth_bbox_divide in Hin by done.
    apply divide_entry_member in Hin as [? _]; [done..|intros; by apply mid_between].
Qed.

(** The number of boxes of a table that contain a point. *)
Definition count_boxes (p : coord) (l : list bbox) : nat :=
  length (filter (fun b => in_box p b) l).

Lemma count_boxes_nil p : count_boxes p [] = 0%nat.
Proof. done. Qed.

Lemma count_boxes_cons p b l :
  count_boxes p (b :: l) = ((if decide (in_box p b) then 1 else 0) + count_boxes p l)%nat.
Proof. unfold count_boxes. rewrite filter_cons. by destruct (decide (in_box p b)). Qed.

Lemma count_boxes_app p l1 l2 : count_boxes p (l1 ++ l2) = (count_boxes p l1 + count_boxes p l2)%nat.
Proof. unfold count_boxes. by rewrite filter_app, length_app. Qed.

Lemma count_boxes_divide b tab p :
  wf_box b -> small_box b -> Forall wf_box tab ->
  count_boxes p (bbox_divide b tab) = if decide (in_box p b) then 1%nat else 0%nat.
Proof.
  intros Hw Hs Ht. destruct (bbox_divide_unique b tab p Hw Hs Ht) as [H1 H2].
  rewrite <- (length_bbox_divide b tab) in H1, H2. unfold count_boxes. case_decide as Hp.
  - apply (length_filter_unique _ _ zero_bbox). by apply H1.
  - apply (length_filter_none _ _ zero_bbox). intros i Hi Hin. apply Hp. by apply (H2 i).
Qed.

Lemma count_boxes_in2 b d p :
  wf_box b -> small_box b -> (d < num_dims b)%nat ->
  let '(b1, b2) := bbox_divide_in2_ondim b d in
  count_boxes p [b1; b2] = if decide (in_box p b) then 1%nat else 0%nat.
Proof.
  intros Hw Hs Hd. pose proof (in2_points_split b d Hw Hs Hd p) as H.
  pose proof (in2_bounds b d Hw Hs Hd d) as (E1 & E2 & E3 & E4).
  destruct (decide (d = d)) as [_|]; [|done].
  destruct (bbox_divide_in2_ondim b d) as [b1 b2] eqn:Eb. cbn [fst snd] in *.
  assert (num_dims b1 = num_dims b /\ num_dims b2 = num_dims b) as [Hn1 Hn2].
  { unfold bbox_divide_in2_ondim in Eb. by simplify_eq. }
  pose proof (mid_between b d Hs Hd) as [? ?].
  assert (Hin1 : in_box p b1 -> cget (lb b) d <= cget p d <= in2_mid b d).
  { intros Hi. specialize (Hi d ltac:(lia)). lia. }
  assert (Hin2 : in_box p b2 -> in2_mid b d + 1 <= cget p d <= cget (ub b) d).
  { intros Hi. specialize (Hi d ltac:(lia)). lia. }
  rewrite !count_boxes_cons, count_boxes_nil.
  repeat case_decide; try done; exfalso.
  - specialize (Hin1 ltac:(done)). specialize (Hin2 ltac:(done)). lia.
  - specialize (Hin1 ltac:(done)). specialize (Hin2 ltac:(done)). lia.
  - assert (in_box p b); [|done]. apply H. specialize (Hin1 ltac:(done)). split; [lia|left; split; [done|lia]].
  - assert (in_box p b); [|done]. apply H. specialize (Hin2 ltac:(done)). split; [lia|right; split; [done|lia]].
  - destruct (proj1 H ltac:(done)) as [_ [[? _]|[? _]]]; done.
Qed.

(** ** Properties *)

(** [bbox_include] decides inclusion of the point sets of two boxes: for
    a box [b1] with at least one point, the test succeeds exactly when every
    point of [b1] is a point of [b0]. *)
Theorem bbox_include_correct b0 b1 :
  valid_box b1 -> num_dims b1 = num_dims b0 ->
  bbox_include b0 b1 = true <-> forall p, in_box p b1 -> in_box p b0.
Proof.
  intros Hv Hd. unfold bbox_include. rewrite for_all_true. split.
  - intros H p Hp i Hi. specialize (H i Hi). specialize (Hp i ltac:(lia)).
    unfold bbox_include_ondim in H. zify_bool. lia.
  - intros H i Hi. pose proof (H _ (in_box_lb b1 Hv) i Hi).
    pose proof (H _ (in_box_ub b1 Hv) i Hi). unfold bbox_include_ondim. zify_bool. lia.
Qed.

(** [bbox_does_intersect] succeeds exactly when the two boxes have a
    common point, and then the points of [bbox_intersect] are the common
    points; the test is symmetric. *)
Theorem bbox_intersect_correct b0 b1 b2 :
  valid_box b0 -> valid_box b1 -> wf_box b2 -> num_dims b1 = num_dims b0 ->
  (bbox_does_intersect b0 b1 = true <-> exists p, in_box p b0 /\ in_box p b1) /\
  bbox_does_intersect b1 b0 = bbox_does_intersect b0 b1 /\
  forall p, in_box p (bbox_intersect b0 b1 b2) <-> in_box p b0 /\ in_box p b1.
Proof.
  intros H0 H1 H2 Hd. split; [by apply does_intersect_common|]. split.
  - apply eq_true_iff_eq. rewrite !does_intersect_common by done.
    split; intros (p & ? & ?); eauto.
  - intros p. apply in_box_intersect; [apply H0|done|done].
Qed.

(** [bbox_volume] is the number of integer points of the box, reduced
    modulo [2^64] as the [uint64_t] accumulator reduces it. *)
Theorem bbox_volume_correct b :
  valid_box b ->
  bbox_volume b = u64 (Z.of_nat (length (box_points b))) /\
  (forall p, In p (box_points b) <-> length p = num_dims b /\ in_box p b) /\
  NoDup (box_points b).
Proof.
  intros Hv. split; [|split].
  - by rewrite bbox_volume_zvolume, zvolume_points.
  - intros p. apply elem_of_box_points.
  - apply NoDup_points_of.
Qed.

(** [bbox_divide] partitions a box: every point of the box is in exactly
    one of the [2^num_dims] sub-boxes and the sub-boxes have no other point,
    provided that no corner reaches [2^63] (otherwise [lb + ub] wraps). *)
Theorem bbox_divide_partition b tab p :
  wf_box b -> small_box b -> Forall wf_box tab ->
  length (bbox_divide b tab) = (2 ^ num_dims b)%nat /\
  (in_box p b -> exists! i, (i < 2 ^ num_dims b)%nat /\ in_box p (nth i (bbox_divide b tab) zero_bbox)) /\
  (forall i, (i < 2 ^ num_dims b)%nat -> in_box p (nth i (bbox_divide b tab) zero_bbox) -> in_box p b).
Proof.
  intros Hw Hs Ht. split; [apply length_bbox_divide|]. by apply bbox_divide_unique.
Qed.

(** ** Witnesses *)

(** The box [l0..u0] x [l1..u1]. *)
Definition box2 (l0 l1 u0 u1 : Z) : bbox :=
  mkBBox 2 (l0 :: l1 :: replicate 8 0) (u0 :: u1 :: replicate 8 0).

Lemma box2_valid l0 l1 u0 u1 :
  0 <= l0 <= u0 -> 0 <= l1 <= u1 -> u0 < 2 ^ 63 -> u1 < 2 ^ 63 ->
  valid_box (box2 l0 l1 u0 u1) /\ small_box (box2 l0 l1 u0 u1).
Proof.
  intros H0 H1 H2 H3. split; [split|].
  - repeat split; simpl; unfold BBOX_MAX_NDIM; try lia;
      repeat (apply Forall_cons; split; [unfold in_u64; lia|]); constructor.
  - intros [|[|i]] Hi; simpl in Hi |- *; unfold cget; simpl; lia.
  - intros [|[|i]] Hi; simpl in Hi |- *; unfold cget; simpl; lia.
Qed.

Lemma bbox_include_correct_witness :
  bbox_include (box2 0 0 9 9) (box2 2 3 9 5) = true /\
  (forall p, in_box p (box2 2 3 9 5) -> in_box p (box2 0 0 9 9)).
Proof.
  split; [reflexivity|].
  apply (bbox_include_correct (box2 0 0 9 9) (box2 2 3 9 5));
    [apply box2_valid; lia|reflexivity|reflexivity].
Defined.

Lemma bbox_intersect_correct_witness :
  bbox_does_intersect (box2 0 0 5 5) (box2 4 5 9 9) = true /\
  (forall p, in_box p (bbox_intersect (box2 0 0 5 5) (box2 4 5 9 9) zero_bbox) <->
     in_box p (box2 0 0 5 5) /\ in_box p (box2 4 5 9 9)).
Proof.
  split; [reflexivity|].
  apply (bbox_intersect_correct (box2 0 0 5 5) (box2 4 5 9 9) zero_bbox);
    [apply box2_valid; lia|apply box2_valid; lia|apply wf_zero_bbox|reflexivity].
Defined.

Lemma bbox_volume_correct_witness :
  bbox_volume (box2 2 3 4 6) = 12 /\
  bbox_volume (box2 2 3 4 6) = u64 (Z.of_nat (length (box_points (box2 2 3 4 6)))).
Proof.
  split; [reflexivity|]. apply (bbox_volume_correct (box2 2 3 4 6)). apply box2_valid; lia.
Defined.

Lemma bbox_divide_partition_witness :
  let tab := bbox_divide (box2 0 0 7 3) [] in
  length tab = 4%nat /\
  exists! i, (i < 4)%nat /\ in_box [5; 1] (nth i tab zero_bbox).
Proof.
  destruct (bbox_divide_partition (box2 0 0 7 3) [] [5; 1]) as (H1 & H2 & _).
  - apply box2_valid; lia.
  - apply box2_valid; lia.
  - constructor.
  - split; [exact H1|]. apply H2. apply in_boxb_spec. reflexivity.
Defined.
