(* ===== verification/ObjDesc.v ===== *)
(** * ObjDesc: object descriptors, data objects and global dimensions

    The descriptor structures of [src/include/ss_data.h] and the matching
    predicates of [src/src/ss_data.c] ([obj_desc_*]) on which local storage
    and the distributed index are built, with the global-dimension list.  A
    [char] array holding a C string is the [string] before its terminator, so
    [strcmp(a, b) == 0] is [String.eqb a b]. *)

From S2P Require Import Prelude BBox.

(** ** Data *)

Inductive storage_type := row_major | column_major.

(** Bits of [flags]. *)
Definition DS_CLIENT_STORAGE : Z := 1.
Definition DS_OBJ_RESIZE : Z := 2.
Definition DS_NO_COMPRESS : Z := 4.

Definition OD_MAX_NAME_LEN : nat := 150.
Definition OD_MAX_OWNER_LEN : nat := 128.

(** [obj_descriptor]. *)
Record obj_descriptor := mkOdsc {
  od_name : string;
  od_st : storage_type;
  od_flags : Z;
  od_tag : Z;
  od_type : Z;
  od_owner : string;
  od_version : Z;
  od_bb : bbox;
  od_size : Z
}.

(** [struct global_dimension]. *)
Record global_dimension := mkGdim { gd_ndim : nat; gd_sizes : coord }.

#[export] Instance storage_type_eq_dec : EqDecision storage_type.
Proof. solve_decision. Defined.
#[export] Instance obj_descriptor_eq_dec : EqDecision obj_descriptor.
Proof. solve_decision. Defined.
#[export] Instance global_dimension_eq_dec : EqDecision global_dimension.
Proof. solve_decision. Defined.

(** Structure updates. *)
Definition set_bb (bb : bbox) (o : obj_descriptor) : obj_descriptor :=
  mkOdsc (od_name o) (od_st o) (od_flags o) (od_tag o) (od_type o) (od_owner o)
    (od_version o) bb (od_size o).
Definition set_st (st : storage_type) (o : obj_descriptor) : obj_descriptor :=
  mkOdsc (od_name o) st (od_flags o) (od_tag o) (od_type o) (od_owner o)
    (od_version o) (od_bb o) (od_size o).
Definition set_flags (f : Z) (o : obj_descriptor) : obj_descriptor :=
  mkOdsc (od_name o) (od_st o) f (od_tag o) (od_type o) (od_owner o)
    (od_version o) (od_bb o) (od_size o).
Definition set_owner (w : string) (o : obj_descriptor) : obj_descriptor :=
  mkOdsc (od_name o) (od_st o) (od_flags o) (od_tag o) (od_type o) w
    (od_version o) (od_bb o) (od_size o).
Definition set_tag_type (tag type : Z) (o : obj_descriptor) : obj_descriptor :=
  mkOdsc (od_name o) (od_st o) (od_flags o) tag type (od_owner o)
    (od_version o) (od_bb o) (od_size o).
Definition set_size (s : Z) (o : obj_descriptor) : obj_descriptor :=
  mkOdsc (od_name o) (od_st o) (od_flags o) (od_tag o) (od_type o) (od_owner o)
    (od_version o) (od_bb o) s.

(** ** Matching *)

Definition obj_desc_equals_no_owner (o1 o2 : obj_descriptor) : bool :=
  (od_version o1 =? od_version o2) && String.eqb (od_name o1) (od_name o2)
  && bbox_equals (od_bb o1) (od_bb o2).

(** [odsc1->owner == odsc2->owner] compares the addresses of the two arrays,
    which are equal only when the two pointers are: [addr1] and [addr2] are
    the addresses of the descriptors. *)
Definition obj_desc_equals (addr1 addr2 : Z) (o1 o2 : obj_descriptor) : bool :=
  (addr1 =? addr2) && bbox_equals (od_bb o1) (od_bb o2).

Definition obj_desc_equals_intersect (o1 o2 : obj_descriptor) : bool :=
  String.eqb (od_name o1) (od_name o2) && (od_version o1 =? od_version o2)
  && bbox_does_intersect (od_bb o1) (od_bb o2).

Definition obj_desc_by_name_intersect (o1 o2 : obj_descriptor) : bool :=
  String.eqb (od_name o1) (od_name o2) && bbox_does_intersect (od_bb o1) (od_bb o2).

Definition obj_desc_match (o1 o2 : obj_descriptor) : bool :=
  (od_version o1 =? od_version o2) && String.eqb (od_name o1) (od_name o2).

Definition obj_data_size (o : obj_descriptor) : Z :=
  u64 (od_size o * bbox_volume (od_bb o)).

(** [obj_data_resize]: the upper corner follows the new dimensions and the
    resize flag is toggled. *)
Definition obj_data_resize (o : obj_descriptor) (new_dims : nat -> Z) : obj_descriptor :=
  let bb := od_bb o in
  let bb' := mkBBox (num_dims bb) (lb bb)
    (set_range (num_dims bb)
       (fun i => u64 (cget (lb bb) i + u64 (new_dims i - 1))) (ub bb)) in
  set_flags (Z.lxor (od_flags o) DS_OBJ_RESIZE) (set_bb bb' o).

(** ** Global dimensions *)

(** [struct gdim_list_entry]; the list itself, head first. *)
Record gdim_entry := mkGdimEntry { ge_name : string; ge_gdim : global_dimension }.

Definition copy_global_dimension (ndim : nat) (gdim : nat -> Z) : global_dimension :=
  mkGdim ndim (set_range ndim gdim zero_coord).

(** Index of the first entry with the name. *)
Definition lookup_gdim_list (l : list gdim_entry) (name : string) : option gdim_entry :=
  find (fun e => String.eqb (ge_name e) name) l.

(** The update overwrites the entry in place, or adds one at the head. *)
Fixpoint set_gdim_entry (l : list gdim_entry) (name : string) (g : global_dimension)
  : list gdim_entry :=
  match l with
  | [] => []
  | e :: l' => if String.eqb (ge_name e) name then mkGdimEntry (ge_name e) g :: l'
               else e :: set_gdim_entry l' name g
  end.

Definition update_gdim_list (l : list gdim_entry) (name : string) (ndim : nat)
    (gdim : nat -> Z) : list gdim_entry :=
  let l' := match lookup_gdim_list l name with
            | Some _ => l
            | None => mkGdimEntry name (mkGdim 0 zero_coord) :: l
            end in
  set_gdim_entry l' name (copy_global_dimension ndim gdim).

Definition set_global_dimension (l : list gdim_entry) (name : string)
    (default_gdim : global_dimension) : global_dimension :=
  match lookup_gdim_list l name with
  | Some e => ge_gdim e
  | None => default_gdim
  end.

(** [get_gdims]: [-1] for an unknown variable, else the dimensions. *)
Definition get_gdims (l : list gdim_entry) (name : string) : Z * list Z :=
  match lookup_gdim_list l name with
  | None => (-1, [])
  | Some e => (Z.of_nat (gd_ndim (ge_gdim e)),
               map (cget (gd_sizes (ge_gdim e))) (seq 0 (gd_ndim (ge_gdim e))))
  end.

(** [get_global_dimensions]. *)
Definition get_global_dimensions (g : global_dimension) : nat * list Z :=
  (gd_ndim g, map (cget (gd_sizes g)) (seq 0 (gd_ndim g))).

(** Compares the first [gdim1->ndim] sizes; [gdim2->ndim] is not read. *)
Definition global_dimension_equal (g1 g2 : global_dimension) : bool :=
  for_all (gd_ndim g1) (fun i => cget (gd_sizes g1) i =? cget (gd_sizes g2) i).

(** Two descriptors that do not compete for a place in an index of [mv] bins:
    different names, disjoint boxes or versions in different bins. *)
Definition apart (mv : Z) (o x : obj_descriptor) : Prop :=
  od_version o mod mv <> od_version x mod mv \/ obj_desc_by_name_intersect o x = false.

(** No two members, wherever they stand, compete. *)
Definition compatible (mv : Z) (l : list obj_descriptor) : Prop :=
  forall o l', l ≡ₚ o :: l' -> Forall (apart mv o) l'.

(** ** Lemmas *)

Lemma obj_desc_equals_intersect_spec o1 o2 :
  obj_desc_equals_intersect o1 o2 = true <->
  od_name o1 = od_name o2 /\ od_version o1 = od_version o2 /\
  bbox_does_intersect (od_bb o1) (od_bb o2) = true.
Proof.
  unfold obj_desc_equals_intersect. rewrite !andb_true_iff, String.eqb_eq, Z.eqb_eq. tauto.
Qed.

Lemma obj_desc_by_name_intersect_spec o1 o2 :
  obj_desc_by_name_intersect o1 o2 = true <->
  od_name o1 = od_name o2 /\ bbox_does_intersect (od_bb o1) (od_bb o2) = true.
Proof. unfold obj_desc_by_name_intersect. rewrite andb_true_iff, String.eqb_eq. tauto. Qed.

Lemma obj_desc_match_spec o1 o2 :
  obj_desc_match o1 o2 = true <-> od_version o1 = od_version o2 /\ od_name o1 = od_name o2.
Proof. unfold obj_desc_match. by rewrite andb_true_iff, String.eqb_eq, Z.eqb_eq. Qed.

Lemma obj_desc_equals_no_owner_spec o1 o2 :
  obj_desc_equals_no_owner o1 o2 = true <->
  od_version o1 = od_version o2 /\ od_name o1 = od_name o2 /\
  bbox_equals (od_bb o1) (od_bb o2) = true.
Proof.
  unfold obj_desc_equals_no_owner. rewrite !andb_true_iff, String.eqb_eq, Z.eqb_eq. tauto.
Qed.

(** ** Compatible descriptors *)

Lemma compatible_perm mv l1 l2 : l1 ≡ₚ l2 -> compatible mv l1 -> compatible mv l2.
Proof. intros Hp Hc o l' Hl. apply Hc. by rewrite Hp. Qed.

Lemma compatible_app_l mv l1 l2 : compatible mv (l1 ++ l2) -> compatible mv l1.
Proof.
  intros Hc o l' Hl. assert (H : l1 ++ l2 ≡ₚ o :: (l' ++ l2)) by (by rewrite Hl).
  apply Hc in H. by apply Forall_app in H as [H _].
Qed.

Lemma filter_split_perm {A} (f : A -> bool) l :
  l ≡ₚ List.filter f l ++ List.filter (fun x => negb (f x)) l.
Proof.
  induction l as [|x l IH]; [done|]. simpl. destruct (f x); simpl.
  - by rewrite <- IH.
  - rewrite <- Permutation_middle. by rewrite <- IH.
Qed.

Lemma compatible_filter mv {A} (g : A -> obj_descriptor) (f : A -> bool) l :
  compatible mv (map g l) -> compatible mv (map g (List.filter f l)).
Proof.
  intros Hc. apply (compatible_app_l _ _ (map g (List.filter (fun x => negb (f x)) l))).
  rewrite <- map_app. eapply compatible_perm; [|exact Hc].
  apply Permutation_map, filter_split_perm.
Qed.

Lemma compatible_cons mv o l : compatible mv (o :: l) -> Forall (apart mv o) l /\ compatible mv l.
Proof.
  intros Hc. split; [by apply Hc|]. apply (compatible_app_l _ _ [o]).
  eapply compatible_perm; [|exact Hc]. by rewrite Permutation_app_comm.
Qed.

(** Members of two parts do not compete. *)
Lemma compatible_parts mv l1 l2 o x :
  compatible mv (l1 ++ l2) -> o ∈ l2 -> x ∈ l1 -> apart mv o x.
Proof.
  intros Hc [l Ho]%elem_of_Permutation Hx. assert (Hp : l1 ++ l2 ≡ₚ o :: l1 ++ l) by (rewrite Ho; solve_Permutation).
  apply Hc in Hp. rewrite Forall_forall in Hp. apply Hp, elem_of_app. by left.
Qed.

(** Members that compete are the same value. *)
Lemma compatible_unique mv l o x :
  compatible mv l -> o ∈ l -> x ∈ l -> ~ apart mv o x -> o = x.
Proof.
  intros Hc [l' Ho]%elem_of_Permutation Hx Hn. rewrite Ho in Hx.
  apply elem_of_cons in Hx as [->|Hx]; [done|]. destruct Hn.
  apply Hc in Ho. rewrite Forall_forall in Ho. by apply Ho.
Qed.

Lemma compatible_pairs mv l :
  ForallOrdPairs (fun x y => apart mv x y /\ apart mv y x) l -> compatible mv l.
Proof.
  intros Hl o l' Hp. assert (Hin : o ∈ l) by (rewrite Hp; apply list_elem_of_here).
  apply list_elem_of_split in Hin as (l1 & l2 & ->).
  rewrite <- Permutation_middle in Hp. apply Permutation_cons_inv in Hp.
  rewrite <- Hp. clear Hp. induction l1 as [|x l1 IH]; cbn [app] in *.
  - inversion Hl as [|? ? Ho _]; subst. eapply Forall_impl; [exact Ho|]. by intros y [? _].
  - inversion Hl as [|? ? Hx Hl']; subst. apply Forall_cons. split; [|by apply IH].
    rewrite Forall_forall in Hx. apply (Hx o). rewrite elem_of_app, elem_of_cons. auto.
Qed.

(** ** The dimension list *)

Lemma lookup_set_gdim_entry l name name' g :
  lookup_gdim_list (set_gdim_entry l name g) name' =
  if String.eqb name name'
  then option_map (fun e => mkGdimEntry (ge_name e) g) (lookup_gdim_list l name)
  else lookup_gdim_list l name'.
Proof.
  unfold lookup_gdim_list. induction l as [|e l IH]; simpl.
  - by destruct (String.eqb name name').
  - destruct (String.eqb_spec (ge_name e) name) as [He|He]; simpl.
    + subst name. by destruct (String.eqb (ge_name e) name').
    + destruct (String.eqb_spec name name') as [->|]; simpl.
      * destruct (String.eqb_spec (ge_name e) name'); [done|]. exact IH.
      * destruct (String.eqb (ge_name e) name'); [done|]. exact IH.
Qed.

Lemma lookup_update_gdim_list l name name' n g :
  option_map ge_gdim (lookup_gdim_list (update_gdim_list l name n g) name') =
  if String.eqb name name' then Some (copy_global_dimension n g)
  else option_map ge_gdim (lookup_gdim_list l name').
Proof.
  unfold update_gdim_list. rewrite lookup_set_gdim_entry.
  destruct (String.eqb_spec name name') as [<-|Hne].
  - destruct (lookup_gdim_list l name) as [e|] eqn:E; [by rewrite E|].
    unfold lookup_gdim_list. simpl. by rewrite String.eqb_refl.
  - destruct (lookup_gdim_list l name) as [e|] eqn:E; [done|].
    unfold lookup_gdim_list. simpl. by destruct (String.eqb_spec name name').
Qed.

#[export] Hint Rewrite length_cset length_set_range : cint.
