(* ===== verification/Sfc.v ===== *)
(** * Sfc: the Hilbert space-filling curve

    [hilbert_c2i] and [hilbert_i2c] of [src/include/sfc.h] with the macros and
    the bit transposition they use.  [bitmask_t] is 64 bits wide,
    [halfmask_t] and [unsigned] are 32; shifts are by less than the width
    when [nDims * nBits <= 64], the documented precondition. *)

From S2P Require Import Prelude BBox.

(** ** Macros *)

(** [ones(bitmask_t, k)] and [ones(halfmask_t, k)]. *)
Definition ones64 (k : Z) : Z := u64 (u64 (Z.shiftl 2 (k - 1)) - 1).
Definition ones32 (k : Z) : Z := u32 (u32 (Z.shiftl 2 (k - 1)) - 1).

(** The rotations of a [halfmask_t]. *)
Definition rotateRight (arg nRots nDims : Z) : Z :=
  Z.land (Z.lor (Z.shiftr arg nRots) (u32 (Z.shiftl arg (nDims - nRots)))) (ones64 nDims).
Definition rotateLeft (arg nRots nDims : Z) : Z :=
  Z.land (Z.lor (u32 (Z.shiftl arg nRots)) (Z.shiftr arg (nDims - nRots))) (ones64 nDims).

(** [while(bits) bits >>= 1, ++rotation;] *)
Fixpoint adjust_loop (fuel : nat) (bits rotation : Z) : Z :=
  match fuel with
  | O => rotation
  | S f => if bits =? 0 then rotation else adjust_loop f (Z.shiftr bits 1) (rotation + 1)
  end.

(** [adjust_rotation]; a [halfmask_t] is zero after at most 32 shifts. *)
Definition adjust_rotation (rotation nDims bits nd1Ones : Z) : Z :=
  let bits := Z.land bits (Z.land (u32 (- bits)) nd1Ones) in
  let rotation := adjust_loop 32 bits rotation + 1 in
  if nDims <=? rotation then rotation - nDims else rotation.

(** ** Bit transposition *)

(** One iteration of the [for(d = 0; d < nDims; ++d)] loop of [bitTranspose];
    the state is [(inCoords, coords, utCoords, oddShift)]. *)
Definition transpose_field (odd : bool) (inB utB inMask inFieldStarts shiftAmt utMask : Z)
    (st : Z * Z * Z * Z) (d : nat) : Z * Z * Z * Z :=
  let '(inCoords, coords, utCoords, oddShift) := st in
  let fld := Z.land inCoords inMask in
  let inCoords := Z.shiftr inCoords inB in
  let '(coords, fld, oddShift) :=
    if odd then
      (Z.lor coords (u64 (Z.shiftl (Z.land fld inFieldStarts) oddShift)),
       Z.land fld (Z.lnot inFieldStarts), oddShift + 1)
    else (coords, fld, oddShift) in
  let fld := Z.land (Z.lor fld (u64 (Z.shiftl fld shiftAmt))) utMask in
  (inCoords, coords, Z.lor utCoords (u64 (Z.shiftl fld (Z.of_nat d * utB))), oddShift).

(** The [while((utB = inB / 2))] loop; [inB] halves, so [fuel] above its bit
    length is enough. *)
Fixpoint transpose_loop (fuel : nat) (nDims : Z) (inB inFieldEnds inMask coords inCoords : Z) : Z :=
  match fuel with
  | O => Z.lor coords inCoords
  | S f =>
      let utB := inB / 2 in
      if utB =? 0 then Z.lor coords inCoords else
      let shiftAmt := (nDims - 1) * utB in
      let utFieldEnds := Z.lor inFieldEnds (u64 (Z.shiftl inFieldEnds (shiftAmt + utB))) in
      let utMask := u64 (u64 (Z.shiftl utFieldEnds utB) - utFieldEnds) in
      let inFieldStarts := u64 (Z.shiftl inFieldEnds (inB - 1)) in
      let '(_, coords, utCoords, _) :=
        fold_left (transpose_field (Z.odd inB) inB utB inMask inFieldStarts shiftAmt utMask)
          (seq 0 (Z.to_nat nDims)) (inCoords, coords, 0, 2 * shiftAmt) in
      transpose_loop f nDims utB utFieldEnds utMask coords utCoords
  end.

Definition bitTranspose (nDims nBits inCoords : Z) : Z :=
  transpose_loop 32 nDims nBits 1 (ones64 nBits) 0 inCoords.

(** ** Coordinates to index *)

(** [for(d = nDims; d--;) { coords <<= nBits; coords |= coord[d]; }] *)
Fixpoint pack_coords (d : nat) (nBits : Z) (coord : coord) (coords : Z) : Z :=
  match d with
  | O => coords
  | S d' => pack_coords d' nBits coord (Z.lor (u64 (Z.shiftl coords nBits)) (cget coord d'))
  end.

(** The [do .. while(b)] loop of [hilbert_c2i], [n] digits still to read. *)
Fixpoint c2i_loop (n : nat) (nDims coords index rotation flipBit : Z) : Z :=
  match n with
  | O => index
  | S n' =>
      let bits := Z.land (u32 (Z.shiftr coords (Z.of_nat n' * nDims))) (ones32 nDims) in
      let bits := u32 (rotateRight (Z.lxor flipBit bits) rotation nDims) in
      let index := Z.lor (u64 (Z.shiftl index nDims)) bits in
      c2i_loop n' nDims coords index
        (adjust_rotation rotation nDims bits (Z.shiftr (ones32 nDims) 1))
        (u32 (Z.shiftl 1 rotation))
  end.

(** [for(d = 1; d < nDimsBits; d *= 2) index ^= index >> d;] *)
Fixpoint xor_scan (fuel : nat) (d lim index : Z) : Z :=
  match fuel with
  | O => index
  | S f => if d <? lim then xor_scan f (2 * d) lim (Z.lxor index (Z.shiftr index d)) else index
  end.

Definition hilbert_c2i (nDims : nat) (nBits : Z) (coord : coord) : Z :=
  if (1 <? nDims)%nat then
    let nD := Z.of_nat nDims in
    let nDimsBits := nD * nBits in
    let coords := pack_coords nDims nBits coord 0 in
    let index :=
      if 1 <? nBits then
        let nthbits := ones64 nDimsBits / ones32 nD in
        let coords := bitTranspose nD nBits coords in
        let coords := Z.lxor coords (Z.shiftr coords nD) in
        Z.lxor (c2i_loop (Z.to_nat nBits) nD coords 0 0 0) (Z.shiftr nthbits 1)
      else coords in
    xor_scan 32 1 nDimsBits index
  else cget coord 0.

(** ** Index to coordinates *)

Fixpoint i2c_loop (n : nat) (nDims index coords rotation flipBit : Z) : Z :=
  match n with
  | O => coords
  | S n' =>
      let bits := Z.land (u32 (Z.shiftr index (Z.of_nat n' * nDims))) (ones32 nDims) in
      let coords := Z.lor (u64 (Z.shiftl coords nDims))
                          (Z.lxor (rotateLeft bits rotation nDims) flipBit) in
      i2c_loop n' nDims index coords
        (adjust_rotation rotation nDims bits (Z.shiftr (ones32 nDims) 1))
        (u32 (Z.shiftl 1 rotation))
  end.

(** [for(d = 0; d < nDims; ++d) { coord[d] = coords & nbOnes; coords >>= nBits; }] *)
Definition unpack_coords (nDims : nat) (nBits coords : Z) : list Z :=
  map (fun d => Z.land (Z.shiftr coords (Z.of_nat d * nBits)) (ones32 nBits)) (seq 0 nDims).

Definition hilbert_i2c (nDims : nat) (nBits index : Z) : list Z :=
  if (1 <? nDims)%nat then
    let nD := Z.of_nat nDims in
    let nDimsBits := nD * nBits in
    let coords :=
      if 1 <? nBits then
        let nthbits := ones64 nDimsBits / ones32 nD in
        let index := Z.lxor index (Z.shiftr (Z.lxor index nthbits) 1) in
        let coords := i2c_loop (Z.to_nat nBits) nD index 0 0 0 in
        let coords := xor_scan 32 nD nDimsBits coords in
        bitTranspose nBits nD coords
      else Z.lxor index (Z.shiftr index 1) in
    unpack_coords nDims nBits coords
  else [index].
