(* ===== verification/Linear.v ===== *)
(** * Linear: boxes as intervals of Hilbert indices

    The linearisation half of [src/src/bbox.c]: [bbox_flat], [intv_compact],
    [bbox_to_intv] (work queue) and [bbox_to_intv2] (the same decomposition in
    a growing ring buffer).  Loops whose length depends on the data take fuel
    and return [None] without enough of it. *)

From stdpp Require Import sorting.
From S2P Require Import Prelude BBox Sfc.

(** ** [compute_bits] *)

(** [while(n) { n = n >> 1; nr_bits++; }]; 64 shifts clear a [uint64_t]. *)
Fixpoint compute_bits_loop (fuel : nat) (n nr_bits : Z) : Z :=
  match fuel with
  | O => nr_bits
  | S f => if n =? 0 then nr_bits else compute_bits_loop f (Z.shiftr n 1) (nr_bits + 1)
  end.

Definition compute_bits (n : Z) : Z := compute_bits_loop 64 n 0.

(** ** [bbox_flat] *)

(** [sfc_coord] for corner [i]: bit [j] of [i] selects the upper bound. *)
Definition corner_coord (bb : bbox) (i : nat) : coord :=
  map (fun k => if Z.testbit (Z.of_nat i) (Z.of_nat k) then cget (ub bb) k else cget (lb bb) k)
    (seq 0 (num_dims bb)).

Definition flat_step (bb : bbox) (bpd : Z) (itv : intv) (i : nat) : intv :=
  let index := hilbert_c2i (num_dims bb) bpd (corner_coord bb i) in
  if index <? ilb itv then mkIntv index (iub itv)
  else if iub itv <? index then mkIntv (ilb itv) index
  else itv.

Definition bbox_flat (bb : bbox) (bpd : Z) : intv :=
  fold_left (flat_step bb bpd) (seq 0 (2 ^ num_dims bb)) (mkIntv (2 ^ 64 - 1) 0).

(** ** [intv_compact] *)

(** Index [j] runs over the table; [cur] is [i_tab[i]], [acc] the entries
    before it. *)
Fixpoint compact_loop (acc : list intv) (cur : intv) (rest : list intv) : list intv :=
  match rest with
  | [] => acc ++ [cur]
  | x :: rest' =>
      if u64 (iub cur + 1) =? ilb x
      then compact_loop acc (mkIntv (ilb cur) (iub x)) rest'
      else compact_loop (acc ++ [cur]) x rest'
  end.

(** The table after the call and the returned count [i + 1], which is 1 for
    an empty table. *)
Definition intv_compact (i_tab : list intv) : list intv * Z :=
  match i_tab with
  | [] => ([], 1)
  | cur :: rest => let r := compact_loop [] cur rest in (r, Z.of_nat (length r))
  end.

(** The comparison [intv_compar] sorts by lower bound. *)
Definition intv_le (a b : intv) : Prop := ilb a <= ilb b.
#[export] Instance intv_le_dec a b : Decision (intv_le a b).
Proof. unfold intv_le. apply _. Defined.

(** [qsort], [intv_compact] and the final [realloc]; [None] when the count
    exceeds the initialised entries. *)
Definition finish_intv (i_tab : list intv) : option (list intv) :=
  let '(tab, n) := intv_compact (merge_sort intv_le i_tab) in
  if n =? Z.of_nat (length tab) then Some tab else None.

(** ** [bbox_to_intv] *)

(** The candidate that covers the whole virtual domain of side [max]. *)
Definition virt_bbox (ndims : nat) (max : Z) : bbox :=
  mkBBox ndims zero_coord (set_range ndims (fun _ => u64 (max - 1)) zero_coord).

(** One iteration of the [while] loop on the dequeued box [bv]. *)
Definition to_intv_step (bb : bbox) (bpd : Z) (b_tab : list bbox) (bv : bbox)
    (q_can : list bbox) (q_good : list intv) : list bbox * list intv * list bbox :=
  if bbox_include bb bv then (q_can, q_good ++ [bbox_flat bv bpd], b_tab)
  else if bbox_does_intersect bb bv then
    let b_tab := bbox_divide bv b_tab in (q_can ++ b_tab, q_good, b_tab)
  else (q_can, q_good, b_tab).

Fixpoint to_intv_loop (fuel : nat) (bb : bbox) (bpd : Z) (b_tab q_can : list bbox)
    (q_good : list intv) : option (list intv) :=
  match fuel with
  | O => None
  | S f =>
      match q_can with
      | [] => Some q_good
      | bv :: q_can =>
          let '(q_can, q_good, b_tab) := to_intv_step bb bpd b_tab bv q_can q_good in
          to_intv_loop f bb bpd b_tab q_can q_good
      end
  end.

Definition bbox_to_intv (fuel : nat) (bb : bbox) (dim_virt : Z) : option (list intv) :=
  let max := dim_virt in
  let bpd := compute_bits max in
  q_good ← to_intv_loop fuel bb bpd [] [virt_bbox (num_dims bb) max] [];
  finish_intv q_good.

(** ** [bbox_to_intv2] *)

(** The ring buffer: [bb_tab] with [bb_size] cells, [bb_head], [bb_tail]. *)
Record ring := mkRing { r_tab : list bbox; r_head : nat; r_tail : nat }.

(** Write [l] from cell [i] on ([bbox_divide(pbb, &bb_tab[bb_tail])]). *)
Definition write_at (i : nat) (l tab : list bbox) : list bbox :=
  take i tab ++ l ++ drop (i + length l) tab.

(** The reallocation branch: the live cells move to the front of a table
    half as large again, rounded to a multiple of [n]. *)
Definition ring_grow (n : nat) (r : ring) : ring :=
  let bb_size := length (r_tab r) in
  let tmp_size := (bb_size + bb_size / 2)%nat in
  let bb_nsize := (tmp_size - tmp_size mod n)%nat in
  let bb_nhead := (r_head r - r_head r mod n)%nat in
  let live :=
    if (r_head r <? r_tail r)%nat
    then take (r_tail r - bb_nhead) (drop bb_nhead (r_tab r))
    else drop bb_nhead (r_tab r) ++ take (r_tail r) (r_tab r) in
  mkRing (live ++ replicate (bb_nsize - length live) zero_bbox)
    (r_head r mod n) (bb_size - n).

(** One iteration of the [while(bb_head != bb_tail)] loop. *)
Definition to_intv2_step (bb : bbox) (bpd : Z) (n : nat) (r : ring) (i_tab : list intv)
  : ring * list intv :=
  let pbb := nth (r_head r) (r_tab r) zero_bbox in
  let next (r : ring) := mkRing (r_tab r) (S (r_head r) mod length (r_tab r)) (r_tail r) in
  if bbox_include bb pbb then (next r, i_tab ++ [bbox_flat pbb bpd])
  else if bbox_does_intersect bb pbb then
    let full := ((r_tail r + n) mod length (r_tab r) =? r_head r - r_head r mod n)%nat in
    let r := if full then ring_grow n r else r in
    let pbb := nth (r_head r) (r_tab r) zero_bbox in
    let sub := bbox_divide pbb (take n (drop (r_tail r) (r_tab r))) in
    (next (mkRing (write_at (r_tail r) sub (r_tab r)) (r_head r)
             ((r_tail r + n) mod length (r_tab r))), i_tab)
  else (next r, i_tab).

Fixpoint to_intv2_loop (fuel : nat) (bb : bbox) (bpd : Z) (n : nat) (r : ring)
    (i_tab : list intv) : option (list intv) :=
  match fuel with
  | O => None
  | S f =>
      if (r_head r =? r_tail r)%nat then Some i_tab
      else let '(r, i_tab) := to_intv2_step bb bpd n r i_tab in
           to_intv2_loop f bb bpd n r i_tab
  end.

(** [size] is the initial number of cells, 4096 in the code. *)
Definition bbox_to_intv2_sized (size : nat) (fuel : nat) (bb : bbox) (dim_virt : Z)
  : option (list intv) :=
  let bpd := compute_bits dim_virt in
  let tab := replicate (size - 1) zero_bbox ++ [virt_bbox (num_dims bb) dim_virt] in
  i_tab ← to_intv2_loop fuel bb bpd (2 ^ num_dims bb) (mkRing tab (size - 1) 0) [];
  finish_intv i_tab.

(** [bb_size = 4096]. *)
Definition RING_SIZE : nat := N.to_nat 4096.

Definition bbox_to_intv2 (fuel : nat) (bb : bbox) (dim_virt : Z) : option (list intv) :=
  bbox_to_intv2_sized RING_SIZE fuel bb dim_virt.

(** ** Cubes *)

(** A box of side [2 ^ s] in all [nd] dimensions, below [2^63]. *)
Definition is_cube (nd s : nat) (b : bbox) : Prop :=
  num_dims b = nd /\ wf_box b /\
  forall i, (i < nd)%nat ->
    cget (ub b) i = cget (lb b) i + 2 ^ Z.of_nat s - 1 /\ cget (ub b) i < 2 ^ 63.

Lemma is_cube_small nd s b : is_cube nd s b -> small_box b.
Proof.
  intros (Hn & _ & H) i Hi. rewrite Hn in Hi. specialize (H i Hi).
  assert (0 < 2 ^ Z.of_nat s) by lia. lia.
Qed.

Lemma is_cube_valid nd s b : is_cube nd s b -> valid_box b.
Proof.
  intros (Hn & Hw & H). split; [done|]. intros i Hi. rewrite Hn in Hi. specialize (H i Hi).
  assert (0 < 2 ^ Z.of_nat s) by lia. lia.
Qed.

Lemma wf_divide_entry b tab i :
  wf_box b -> small_box b -> Forall wf_box tab ->
  wf_box (bbox_divide_entry b (nth i tab zero_bbox) i).
Proof.
  intros Hw Hs Ht. destruct (wf_tab_entry tab Ht i) as (_ & Hl & Hu).
  pose proof Hw as (Hn & Hbl & Hbu). split; [done|].
  split; (apply wf_coord_set_range; [done|]); intros j Hj;
    rewrite bbox_mid_eq by done; destruct (shiftr_mid b j Hw Hs Hj) as [_ ?];
    destruct (Z.testbit _ _); rewrite ?u64_small by lia; z_range.
Qed.

Lemma is_cube_divide nd s b tab :
  is_cube nd (S s) b -> Forall wf_box tab -> Forall (is_cube nd s) (bbox_divide b tab).
Proof.
  intros Hc Ht. pose proof (is_cube_small _ _ _ Hc) as Hs. destruct Hc as (Hn & Hw & Hc).
  rewrite Forall_forall. intros e He. apply list_elem_of_In, in_map_iff in He as (i & <- & _).
  split; [done|]. split; [by apply wf_divide_entry|]. intros j Hj.
  rewrite <- Hn in Hj. destruct (divide_entry_bounds b tab Hw Hs Ht i j Hj) as [-> ->].
  specialize (Hc j ltac:(lia)). unfold in2_mid.
  rewrite Nat2Z.inj_succ, Z.pow_succ_r in Hc by lia.
  destruct (Z.testbit _ _); dlia.
Qed.

Lemma is_cube_virt nd k :
  (nd <= BBOX_MAX_NDIM)%nat -> (k <= 63)%nat -> is_cube nd k (virt_bbox nd (2 ^ Z.of_nat k)).
Proof.
  intros Hn Hk. assert (0 < 2 ^ Z.of_nat k <= 2 ^ 63).
  { split; [lia|]. apply Z.pow_le_mono_r; lia. }
  split; [done|]. split.
  - split; [done|]. split; [apply wf_zero_coord|].
    apply wf_coord_set_range; [apply wf_zero_coord|]. intros. apply u64_range.
  - intros i Hi. cbn [virt_bbox lb ub]. rewrite cget_set_range_lt by done.
    rewrite u64_small by lia. unfold cget, zero_coord.
    rewrite nth_lookup, lookup_replicate_2 by lia. simpl. lia.
Qed.

(** A cube of side 1 that meets [bb] is included in it. *)
Lemma unit_cube_include nd bb b :
  valid_box bb -> num_dims bb = nd -> is_cube nd 0 b ->
  bbox_does_intersect bb b = true -> bbox_include bb b = true.
Proof.
  intros [_ Hv] Hd (Hn & _ & Hc). unfold bbox_does_intersect, bbox_include.
  rewrite !for_all_true. intros H i Hi. specialize (H i Hi). specialize (Hc i ltac:(lia)).
  specialize (Hv i Hi).
  rewrite bbox_intersect_ondim_spec in H. change (2 ^ Z.of_nat 0) with 1 in Hc.
  unfold bbox_include_ondim. zify_bool. lia.
Qed.

Lemma include_points b0 b1 p :
  num_dims b1 = num_dims b0 -> bbox_include b0 b1 = true -> in_box p b1 -> in_box p b0.
Proof.
  intros Hd H Hp i Hi. unfold bbox_include in H. rewrite for_all_true in H.
  specialize (H i Hi). specialize (Hp i ltac:(lia)). unfold bbox_include_ondim in H.
  zify_bool. lia.
Qed.

(** ** The work-queue loop *)

(** Iterations needed for a cube of side [2 ^ s]. *)
Fixpoint cube_work (nd s : nat) : nat :=
  match s with
  | O => 1
  | S s' => S (2 ^ nd * cube_work nd s')
  end.

Definition nsum (l : list nat) : nat := foldr Nat.add 0%nat l.

Lemma nsum_app l1 l2 : nsum (l1 ++ l2) = (nsum l1 + nsum l2)%nat.
Proof. induction l1; simpl; lia. Qed.

Lemma nsum_replicate n x : nsum (replicate n x) = (n * x)%nat.
Proof. induction n; simpl; lia. Qed.

Lemma cube_work_pos nd s : (0 < cube_work nd s)%nat.
Proof. destruct s; simpl; lia. Qed.

Section WorkQueue.
Context (bb : bbox) (bpd : Z) (nd : nat).
Hypothesis Hbb : valid_box bb.
Hypothesis Hnd : num_dims bb = nd.

(** Work left for a queue of cubes of exponents [ss]. *)
Definition queue_work (ss : list nat) : nat := nsum (map (cube_work nd) ss).

(** What the rest of the loop adds to the good queue: cubes that contain
    each point of [bb] as often as the candidates do, and no other point. *)
Definition tiles (cands boxes : list bbox) : Prop :=
  (forall p, in_box p bb -> count_boxes p boxes = count_boxes p cands) /\
  (forall p, ~ in_box p bb -> count_boxes p boxes = 0%nat) /\
  Forall (fun b => exists s, is_cube nd s b) boxes.

Lemma tiles_include s b cands boxes :
  is_cube nd s b -> bbox_include bb b = true ->
  tiles cands boxes -> tiles (b :: cands) (b :: boxes).
Proof using Hnd.
  intros Hc Hi (H1 & H2 & H3). split; [|split].
  - intros p Hp. rewrite !count_boxes_cons. by rewrite H1.
  - intros p Hp. rewrite count_boxes_cons, H2 by done. case_decide as Hin; [|done].
    destruct Hp. apply (include_points bb b); [|done|done]. destruct Hc. congruence.
  - constructor; eauto.
Qed.

Lemma tiles_divide s b tab cands boxes :
  is_cube nd s b -> Forall wf_box tab ->
  tiles (cands ++ bbox_divide b tab) boxes -> tiles (b :: cands) boxes.
Proof using Hnd.
  intros Hc Ht (H1 & H2 & H3). split; [|done]. intros p Hp.
  rewrite H1, count_boxes_app, count_boxes_cons by done.
  rewrite count_boxes_divide; [|apply Hc|by eapply is_cube_small|done]. case_decide; lia.
Qed.

Lemma tiles_skip s b cands boxes :
  is_cube nd s b -> bbox_does_intersect bb b = false ->
  tiles cands boxes -> tiles (b :: cands) boxes.
Proof using Hbb Hnd.
  intros Hc Hi (H1 & H2 & H3). split; [|done]. intros p Hp.
  rewrite H1, count_boxes_cons by done. case_decide as Hin; [|done]. exfalso.
  apply not_true_iff_false in Hi. apply Hi.
  apply does_intersect_common; [done|by eapply is_cube_valid| |by exists p].
  destruct Hc. congruence.
Qed.

Lemma wf_cubes s l : Forall (is_cube nd s) l -> Forall wf_box l.
Proof. intros H. eapply Forall_impl; [exact H|]. intros b Hc. apply Hc. Qed.

Lemma to_intv_loop_total fuel : forall ss cands goods tab,
  Forall2 (is_cube nd) ss cands -> Forall wf_box tab -> (queue_work ss < fuel)%nat ->
  exists boxes,
    to_intv_loop fuel bb bpd tab cands goods = Some (goods ++ map (fun b => bbox_flat b bpd) boxes)
    /\ tiles cands boxes.
Proof using Hbb Hnd.
  induction fuel as [|fuel IH]; intros ss cands goods tab Hss Ht Hf; [lia|].
  destruct Hss as [|s b ss cands Hb Hss].
  { exists []. simpl. rewrite app_nil_r. split; [done|]. by split; [|split; [|constructor]]. }
  cbn [to_intv_loop]. unfold to_intv_step. unfold queue_work in *. cbn [map nsum foldr] in Hf. fold nsum in Hf.
  pose proof (cube_work_pos nd s) as Hpos.
  destruct (bbox_include bb b) eqn:Ei; [|destruct (bbox_does_intersect bb b) eqn:Ed].
  - destruct (IH ss cands (goods ++ [bbox_flat b bpd]) tab Hss Ht) as (boxes & -> & Htl).
    { unfold nsum in *. lia. }
    exists (b :: boxes). rewrite <- app_assoc. split; [done|]. by eapply tiles_include.
  - destruct s as [|s]; [by rewrite (unit_cube_include nd bb b Hbb Hnd Hb Ed) in Ei|].
    pose proof (is_cube_divide _ _ _ tab Hb Ht) as Hdiv.
    destruct (IH (ss ++ replicate (2 ^ nd) s) (cands ++ bbox_divide b tab) goods (bbox_divide b tab))
      as (boxes & -> & Htl).
    + apply Forall2_app; [done|]. apply Forall2_replicate_l; [|done].
      rewrite length_bbox_divide. destruct Hb. congruence.
    + by eapply wf_cubes.
    + rewrite map_app, nsum_app, (fmap_replicate (cube_work nd)), nsum_replicate.
      cbn [cube_work] in Hf. unfold nsum. lia.
    + exists boxes. split; [done|]. by eapply tiles_divide.
  - destruct (IH ss cands goods tab Hss Ht) as (boxes & -> & Htl).
    { unfold nsum in *. lia. }
    exists boxes. split; [done|]. by eapply tiles_skip.
Qed.
End WorkQueue.

(** ** Compaction *)

Definition valid_intv (v : intv) : Prop := 0 <= ilb v <= iub v /\ iub v < 2 ^ 64.

(** [a] ends before [b] starts; and with a gap of at least one index. *)
Definition before (a b : intv) : Prop := iub a < ilb b.
Definition intv_apart (a b : intv) : Prop := iub a + 1 < ilb b.

Definition in_tab (x : Z) (l : list intv) : Prop := Exists (in_intv x) l.

(** Exact number of indices of a table. *)
Definition tab_size (l : list intv) : Z := zsum (map (fun v => iub v - ilb v + 1) l).

Lemma in_tab_app x l1 l2 : in_tab x (l1 ++ l2) <-> in_tab x l1 \/ in_tab x l2.
Proof. apply Exists_app. Qed.

Lemma in_tab_cons x v l : in_tab x (v :: l) <-> in_intv x v \/ in_tab x l.
Proof. apply Exists_cons. Qed.

Lemma in_tab_nil x : in_tab x [] <-> False.
Proof. apply Exists_nil. Qed.

Lemma tab_size_app l1 l2 : tab_size (l1 ++ l2) = tab_size l1 + tab_size l2.
Proof. unfold tab_size. by rewrite map_app, zsum_app. Qed.

Create Rewrite HintDb intvs.
#[export] Hint Rewrite in_tab_app in_tab_cons in_tab_nil : intvs.

Lemma StronglySorted_snoc {A} (R : A -> A -> Prop) l x :
  StronglySorted R (l ++ [x]) <-> StronglySorted R l /\ Forall (fun a => R a x) l.
Proof.
  induction l as [|a l IH]; simpl.
  - split; [intros _; split; constructor|intros _; repeat constructor].
  - split.
    + intros [H1 H2]%StronglySorted_inv. apply IH in H1 as [H1 H3].
      apply Forall_app in H2 as [H2 H4]. inversion H4; subst.
      split; constructor; done.
    + intros [[H1 H2]%StronglySorted_inv H3]. inversion H3; subst.
      constructor; [by apply IH|]. apply Forall_app. split; [done|by constructor].
Qed.

Lemma compact_loop_spec rest : forall acc cur,
  Forall valid_intv (cur :: rest) -> StronglySorted before (cur :: rest) ->
  StronglySorted intv_apart (acc ++ [cur]) ->
  let r := compact_loop acc cur rest in
  StronglySorted intv_apart r /\ r <> [] /\
  (forall x, in_tab x r <-> in_tab x (acc ++ cur :: rest)) /\
  tab_size r = tab_size (acc ++ cur :: rest) /\
  (length r <= length (acc ++ cur :: rest))%nat.
Proof.
  induction rest as [|x rest IH]; intros acc cur Hv Hs Ha; cbn [compact_loop].
  { split; [done|]. split; [by destruct acc|]. done. }
  inversion Hv as [|? ? Hcur Hv']; subst. inversion Hv' as [|? ? Hx Hv'']; subst.
  apply StronglySorted_inv in Hs as [Hs Hcb]. inversion Hcb as [|? ? Hcx Hcb']; subst.
  apply StronglySorted_inv in Hs as [Hs Hxb]. apply StronglySorted_snoc in Ha as [Ha Hac].
  destruct Hcur as [[? ?] ?], Hx as [[? ?] ?]. unfold before in *.
  rewrite u64_small by lia. destruct (Z.eqb_spec (iub cur + 1) (ilb x)) as [E|E].
  - destruct (IH acc (mkIntv (ilb cur) (iub x))) as (I1 & I2 & I3 & I4 & I5).
    + constructor; [unfold valid_intv; simpl; lia|done].
    + constructor; [done|]. exact Hxb.
    + apply StronglySorted_snoc. split; [done|]. exact Hac.
    + split; [done|]. split; [done|]. split; [|split].
      * intros y. rewrite I3. autorewrite with intvs. unfold in_intv; simpl. split; lia || intuition lia.
      * rewrite I4, !tab_size_app. unfold tab_size. simpl. lia.
      * rewrite !length_app in *. simpl in *. lia.
  - destruct (IH (acc ++ [cur]) x) as (I1 & I2 & I3 & I4 & I5); [done|by constructor| |].
    + apply StronglySorted_snoc. split; [by apply StronglySorted_snoc|].
      apply Forall_app. split; [|repeat constructor; unfold intv_apart; lia].
      eapply Forall_impl; [exact Hac|]. unfold intv_apart. intros a. simpl. lia.
    + rewrite <- app_assoc in I3, I4, I5. done.
Qed.

(** ** Properties *)

(** [intv_compact] on a sorted table of disjoint intervals keeps the set
    of indices and their number, returns the length of the compacted prefix,
    and leaves no two intervals that could still be merged. *)
Theorem intv_compact_correct l :
  l <> [] -> Forall valid_intv l -> StronglySorted before l ->
  let '(tab, n) := intv_compact l in
  n = Z.of_nat (length tab) /\ (length tab <= length l)%nat /\
  StronglySorted intv_apart tab /\ tab_size tab = tab_size l /\
  (forall x, in_tab x tab <-> in_tab x l).
Proof.
  intros Hne Hv Hs. destruct l as [|cur rest]; [done|]. cbn [intv_compact].
  destruct (compact_loop_spec rest [] cur Hv Hs) as (H1 & H2 & H3 & H4 & H5); [|done].
  repeat constructor.
Qed.

Lemma intv_compact_correct_witness :
  intv_compact [mkIntv 0 3; mkIntv 4 7; mkIntv 9 9] = ([mkIntv 0 7; mkIntv 9 9], 2) /\
  tab_size [mkIntv 0 7; mkIntv 9 9] = 9.
Proof.
  pose proof (intv_compact_correct [mkIntv 0 3; mkIntv 4 7; mkIntv 9 9]) as H.
  split; [reflexivity|].
  destruct H as (_ & _ & _ & H & _); [done| | |exact H].
  - repeat constructor; simpl; lia.
  - repeat constructor; unfold before; simpl; lia.
Defined.
