(* ===== verification/Sspace.v ===== *)
(** * Sspace: decomposition of a global domain over the servers

    The shared-space part of [src/src/ss_data.c]: the bisection of a domain
    into boxes dealt to the servers ([ssd_alloc_v2]), the lookup of the
    servers responsible for a box with its result cache ([ssd_hash_*],
    [sh_add], [sh_find]) and the number of elements of a box a server is
    responsible for ([ssh_hash_elem_count]).  Allocation is taken to succeed. *)

From S2P Require Import Prelude BBox ObjDesc Linear.

(** ** Powers of two *)

(** [while(i < n) i = i << 1;]: [None] when the loop does not end within
    [fuel] doublings. *)
Fixpoint next_pow_2_loop (fuel : nat) (n i : Z) : option Z :=
  match fuel with
  | O => None
  | S f => if i <? n then next_pow_2_loop f n (u64 (Z.shiftl i 1)) else Some i
  end.

(** 64 doublings bring the 64-bit [i] back to 0, where it stays. *)
Definition next_pow_2_v2 (n : Z) : option Z := next_pow_2_loop 65 n 1.

(** [while(n > 1) { n = n >> 1; nr_bits++; }] *)
Fixpoint compute_bits_v2_loop (fuel : nat) (n nr_bits : Z) : Z :=
  match fuel with
  | O => nr_bits
  | S f => if 1 <? n then compute_bits_v2_loop f (Z.shiftr n 1) (nr_bits + 1) else nr_bits
  end.

Definition compute_bits_v2 (n : Z) : Z := compute_bits_v2_loop 64 n 0.

(** ** Data *)

Inductive sspace_hash_version :=
| ssd_hash_version_auto | ssd_hash_version_v0
| ssd_hash_version_v1 | ssd_hash_version_v2.

#[export] Instance hash_version_eq_dec : EqDecision sspace_hash_version.
Proof. solve_decision. Defined.

(** The part of [struct dht_entry] that places a server in the index: its
    rank, the Hilbert intervals of version 1 and the boxes of version 2. *)
Record dht_place := mkPlace {
  de_rank : nat;
  de_i_virt : intv;
  de_i_tab : list intv;
  de_size_bb_tab : Z;
  de_bb_tab : list bbox
}.

(** [struct sspace] with its [struct dht]; [ss_id] stands for its address.
    [ent_self] is the entry of index [ss_rank]. *)
Record sspace := mkSspace {
  ss_id : nat;
  ss_max_dim : Z;
  ss_bpd : Z;
  ss_domain : bbox;
  ss_ent_tab : list dht_place;
  ss_total_num_bbox : Z;
  ss_hash_version : sspace_hash_version;
  ss_rank : nat
}.

Definition zero_place (rank : nat) : dht_place :=
  mkPlace rank (mkIntv 0 0) [] 0 [].

Definition ssd_init (ss : sspace) (rank : nat) : sspace :=
  mkSspace (ss_id ss) (ss_max_dim ss) (ss_bpd ss) (ss_domain ss) (ss_ent_tab ss)
    (ss_total_num_bbox ss) (ss_hash_version ss) rank.

Definition ent_self (ss : sspace) : dht_place :=
  nth (ss_rank ss) (ss_ent_tab ss) (zero_place 0).

(** ** Version 0: a single entry *)

Definition ssd_alloc_v0 (id : nat) (bb_domain : bbox) : sspace :=
  mkSspace id 0 0 bb_domain [zero_place 0] 0 ssd_hash_version_v0 0.

(** ** Version 2: recursive bisection *)

(** The loops of [get_bbox_max_dim] and [get_bbox_max_dim_size] after [n]
    dimensions: the maximum so far and [*out_dim], which keeps its previous
    value [dim] while no dimension beats 0. *)
Fixpoint max_dim_loop (measure : nat -> Z) (dim : nat) (n : nat) : Z * nat :=
  match n with
  | O => (0, dim)
  | S i => let '(m, d) := max_dim_loop measure dim i in
           if m <? measure i then (measure i, i) else (m, d)
  end.

Definition get_bbox_max_dim (bb : bbox) (dim : nat) : Z * nat :=
  max_dim_loop (cget (ub bb)) dim (num_dims bb).

Definition get_bbox_max_dim_size (bb : bbox) (dim : nat) : Z * nat :=
  max_dim_loop (fun i => coord_dist (lb bb) (ub bb) i) dim (num_dims bb).

(** [while(!queue_is_empty(src_q))]: each box of the source queue is halved
    along its longest dimension and both halves are enqueued on the other
    queue; [dim] lives across iterations. *)
Fixpoint divide_queue (src dst : list bbox) (dim : nat) : list bbox * nat :=
  match src with
  | [] => (dst, dim)
  | bb :: src' =>
      let dim := snd (get_bbox_max_dim_size bb dim) in
      let '(b1, b2) := bbox_divide_in2_ondim bb dim in
      divide_queue src' (dst ++ [b1; b2]) dim
  end.

(** The [for] loop over [num_divide_iteration] with its two queues: the
    non-empty one is the source.  [None] is the branch in which neither is
    chosen and the code goes on with an uninitialised pointer. *)
Fixpoint divide_rounds (n : nat) (q1 q2 : list bbox) (dim : nat)
  : option (list bbox * list bbox) :=
  match n with
  | O => Some (q1, q2)
  | S n' =>
      match q1, q2 with
      | _ :: _, [] => let '(q2', dim) := divide_queue q1 [] dim in divide_rounds n' [] q2' dim
      | [], _ :: _ => let '(q1', dim) := divide_queue q2 [] dim in divide_rounds n' q1' [] dim
      | _, _ => None
      end
  end.

(** [ent_tab[j]->bb_tab[ent_tab[j]->num_bbox++] = bb] *)
Definition push_bbox (bb : bbox) (e : dht_place) : dht_place :=
  mkPlace (de_rank e) (de_i_virt e) (de_i_tab e) (de_size_bb_tab e) (de_bb_tab e ++ [bb]).

(** The round-robin loop: [j = i++ % num_entries]. *)
Fixpoint deal_boxes (q : list bbox) (i : nat) (ents : list dht_place) : list dht_place :=
  match q with
  | [] => ents
  | bb :: q' => deal_boxes q' (S i) (alter (push_bbox bb) (i mod length ents)%nat ents)
  end.

(** [ceil(total * 1.0 / entries)], exact for these magnitudes. *)
Definition ceil_div (a b : Z) : Z := - ((- a) / b).

Definition ssd_alloc_v2 (id : nat) (bb_domain : bbox) (num_nodes : nat) (dim0 : nat)
  : option sspace :=
  let '(max_dim, dim) := get_bbox_max_dim bb_domain dim0 in
  max_dim ← next_pow_2_v2 max_dim;
  nodes ← next_pow_2_v2 (Z.of_nat num_nodes);
  '(q1, q2) ← divide_rounds (Z.to_nat (compute_bits_v2 nodes)) [bb_domain] [] dim;
  let q := match q1 with [] => q2 | _ => q1 end in
  let total := Z.of_nat (length q) in
  let n := ceil_div total (Z.of_nat num_nodes) in
  let ents := map (fun r => mkPlace r (mkIntv 0 0) [] n []) (seq 0 num_nodes) in
  Some (mkSspace id max_dim (compute_bits_v2 max_dim) bb_domain (deal_boxes q 0 ents)
          total ssd_hash_version_v2 0).

(** ** The lookup cache *)

(** A [struct dht_entry *]: the shared space it belongs to and its index. *)
Record de_ptr := mkPtr { ptr_ss : nat; ptr_ent : nat }.

#[export] Instance de_ptr_eq_dec : EqDecision de_ptr.
Proof. solve_decision. Defined.

(** [sfc_hash_list], one list for the whole process, oldest entry first. *)
Definition sh_cache : Type := list (bbox * list de_ptr).

Definition sh_add (bb : bbox) (de_tab : list de_ptr) (c : sh_cache) : sh_cache :=
  c ++ [(bb, de_tab)].

Fixpoint sh_find (bb : bbox) (c : sh_cache) : option (list de_ptr) :=
  match c with
  | [] => None
  | (b, tab) :: c' => if bbox_equals bb b then Some tab else sh_find bb c'
  end.

(** [for(j ..) if(bbox_does_intersect(bb, &bb_tab[j])) { ..; break; }] *)
Definition place_hit_v2 (bb : bbox) (e : dht_place) : bool :=
  existsb (bbox_does_intersect bb) (de_bb_tab e).

(** Indices of the entries that satisfy a test, in table order. *)
Definition select_ents (f : dht_place -> bool) (ss : sspace) : list de_ptr :=
  map (fun '(i, _) => mkPtr (ss_id ss) i)
    (List.filter (fun '(_, e) => f e) (imap pair (ss_ent_tab ss))).

(** A cached result with [num_nodes > 0] is used; otherwise the result is
    computed and cached. *)
Definition cached_hash (compute : list de_ptr) (bb : bbox) (c : sh_cache)
  : list de_ptr * sh_cache :=
  match sh_find bb c with
  | Some (p :: tab) => (p :: tab, c)
  | _ => (compute, sh_add bb compute c)
  end.

Definition ssd_hash_v0 (ss : sspace) : list de_ptr := [mkPtr (ss_id ss) 0].

Definition ssd_hash_v2 (ss : sspace) (bb : bbox) (c : sh_cache) : list de_ptr * sh_cache :=
  cached_hash (select_ents (place_hit_v2 bb) ss) bb c.

(** ** Version 1: intervals of Hilbert indices *)

(** [dht_intersect]: the hull [i_virt] first, then the table. *)
Definition dht_intersect (de : dht_place) (itv : intv) : bool :=
  if (iub itv <? ilb (de_i_virt de)) || (iub (de_i_virt de) <? ilb itv) then false
  else existsb (fun v => intv_do_intersect v itv) (de_i_tab de).

(** [sn[i]]: the share of entry [i]. *)
Definition share (vol : Z) (num_entries i : nat) : Z :=
  let n := Z.of_nat num_entries in
  vol `div` n + (if Z.of_nat i <? i32 (vol `mod` n) then 1 else 0).

(** [while(len > 0)]: [tab] is [i_tab] from index [j] on, [got] the entry's
    table.  [None]: a read past the end of [i_tab]. *)
Fixpoint take_intvs (fuel : nat) (len : Z) (tab got : list intv)
  : option (list intv * list intv) :=
  match fuel with
  | O => None
  | S f =>
      if 0 <? len then
        match tab with
        | [] => None
        | v :: rest =>
            if len <? intv_size v
            then take_intvs f (u64 (len - intv_size (mkIntv (ilb v) (u64 (u64 (ilb v + len) - 1)))))
                   (mkIntv (u64 (ilb v + len)) (iub v) :: rest)
                   (got ++ [mkIntv (ilb v) (u64 (u64 (ilb v + len) - 1))])
            else take_intvs f (u64 (len - intv_size v)) rest (got ++ [v])
        end
      else Some (got, tab)
  end.

(** The [for] loop over the entries.  An entry that receives no interval
    reads [i_tab[0]] of an empty table: [None]. *)
Fixpoint deal_intvs (vol : Z) (num_entries : nat) (todo : list nat) (tab : list intv)
  : option (list dht_place) :=
  match todo with
  | [] => Some []
  | i :: todo' =>
      '(got, tab') ← take_intvs (S (S (length tab))) (share vol num_entries i) tab [];
      match got with
      | [] => None
      | v :: _ =>
          rest ← deal_intvs vol num_entries todo' tab';
          Some (mkPlace i (mkIntv (ilb v) (iub (List.last got v))) got 0 [] :: rest)
      end
  end.

Definition dht_construct_hash (fuel : nat) (bb_glb_domain : bbox) (num_entries : nat)
    (max_dim : Z) : option (list dht_place) :=
  i_tab ← bbox_to_intv fuel bb_glb_domain max_dim;
  deal_intvs (bbox_volume bb_glb_domain) num_entries (seq 0 num_entries) i_tab.

(** [max_dim = max(ub.c[i], max_dim)] over the dimensions. *)
Fixpoint max_ub (bb : bbox) (n : nat) : Z :=
  match n with
  | O => cget (ub bb) 0
  | S i => if (i =? 0)%nat then cget (ub bb) 0 else cmax (cget (ub bb) i) (max_ub bb i)
  end.

Definition ssd_alloc_v1 (fuel : nat) (id : nat) (bb_domain : bbox) (num_nodes : nat)
  : option sspace :=
  let max_dim := max_ub bb_domain (num_dims bb_domain) in
  let max_dim := if max_dim =? 0 then 1 else max_dim in
  max_dim ← next_pow_2_v2 max_dim;
  ents ← dht_construct_hash fuel bb_domain num_nodes max_dim;
  Some (mkSspace id max_dim (compute_bits (u64 (max_dim + 1))) bb_domain ents 0
          ssd_hash_version_v1 0).

Definition ssd_hash_v1 (fuel : nat) (ss : sspace) (bb : bbox) (c : sh_cache)
  : option (list de_ptr * sh_cache) :=
  match sh_find bb c with
  | Some (p :: tab) => Some (p :: tab, c)
  | _ =>
      i_tab ← bbox_to_intv2 fuel bb (ss_max_dim ss);
      Some (cached_hash (select_ents (fun e => existsb (dht_intersect e) i_tab) ss) bb c)
  end.

(** ** Number of local elements *)

(** The overlap of one interval with the hull of this server, computed in
    [uint64_t] and converted to [long] at each assignment. *)
Definition elem_overlap (i_self v : intv) : Z :=
  if (ilb i_self <=? iub v) && (ilb v <=? iub i_self) then
    let overlap := i64 (u64 (iub i_self - ilb v) + 1) in
    let overlap := if ilb v <? ilb i_self then i64 (overlap - (ilb i_self - ilb v)) else overlap in
    if iub v <? iub i_self then i64 (overlap - (iub i_self - iub v)) else overlap
  else 0.

Definition ssh_hash_elem_count_v1 (fuel : nat) (ss : sspace) (bb : bbox) : option Z :=
  i_tab ← bbox_to_intv2 fuel bb (ss_max_dim ss);
  Some (fold_left (fun num_elem v => i64 (num_elem + elem_overlap (de_i_virt (ent_self ss)) v))
          i_tab 0).

Definition ssh_hash_elem_count_v0 (bb : bbox) : Z := i64 (bbox_volume bb).

(** The loop of [ssh_hash_elem_count_v2]: [num_elem += bbox_volume(&isect)]
    adds in [uint64_t] and converts to [long]. *)
Definition ssh_hash_elem_count_v2 (ss : sspace) (bb : bbox) : Z :=
  fold_left (fun num_elem ent_bb =>
      if bbox_does_intersect bb ent_bb
      then i64 (num_elem + bbox_volume (bbox_intersect bb ent_bb zero_bbox))
      else num_elem)
    (de_bb_tab (ent_self ss)) 0.

(** ** Dispatch *)

(** [ssd_choose_hash]: [x & x + 1] is [x & (x + 1)]. *)
Definition ssd_choose_hash (bb_domain : bbox) : sspace_hash_version :=
  if (num_dims bb_domain =? 1)%nat && (cget (ub bb_domain) 0 =? 0) then ssd_hash_version_v0
  else if for_all (num_dims bb_domain)
            (fun i => Z.land (cget (ub bb_domain) i) (u64 (cget (ub bb_domain) i + 1)) =? 0)
  then ssd_hash_version_v1 else ssd_hash_version_v2.

Definition ssd_alloc (fuel : nat) (id : nat) (bb_domain : bbox) (num_nodes : nat)
    (hash_version : sspace_hash_version) (dim0 : nat) : option sspace :=
  let hash_version :=
    if decide (hash_version = ssd_hash_version_auto) then ssd_choose_hash bb_domain
    else hash_version in
  match hash_version with
  | ssd_hash_version_v0 => Some (ssd_alloc_v0 id bb_domain)
  | ssd_hash_version_v1 => ssd_alloc_v1 fuel id bb_domain num_nodes
  | ssd_hash_version_v2 => ssd_alloc_v2 id bb_domain num_nodes dim0
  | ssd_hash_version_auto => None
  end.

Definition ssd_hash (fuel : nat) (ss : sspace) (bb : bbox) (c : sh_cache)
  : option (list de_ptr * sh_cache) :=
  match ss_hash_version ss with
  | ssd_hash_version_v0 => Some (ssd_hash_v0 ss, c)
  | ssd_hash_version_v1 => ssd_hash_v1 fuel ss bb c
  | ssd_hash_version_v2 => Some (ssd_hash_v2 ss bb c)
  | ssd_hash_version_auto => Some ([], c)
  end.

Definition ssh_hash_elem_count (fuel : nat) (ss : sspace) (bb : bbox) : option Z :=
  match ss_hash_version ss with
  | ssd_hash_version_v0 => Some (ssh_hash_elem_count_v0 bb)
  | ssd_hash_version_v1 => ssh_hash_elem_count_v1 fuel ss bb
  | ssd_hash_version_v2 => Some (ssh_hash_elem_count_v2 ss bb)
  | ssd_hash_version_auto => Some 0
  end.

(** ** Powers of two: lemmas *)

Lemma next_pow_2_loop_spec k : forall fuel i n,
  2 ^ Z.of_nat i < 2 ^ 64 -> n <= 2 ^ Z.of_nat (i + k) -> (i + k <= 63)%nat -> (k < fuel)%nat ->
  exists j, next_pow_2_loop fuel n (2 ^ Z.of_nat i) = Some (2 ^ Z.of_nat j) /\
    (i <= j <= i + k)%nat /\ n <= 2 ^ Z.of_nat j /\ ((i < j)%nat -> 2 ^ Z.of_nat (j - 1) < n).
Proof.
  induction k as [|k IH]; intros fuel i n Hi Hn Hk Hf; (destruct fuel as [|fuel]; [lia|]);
    cbn [next_pow_2_loop]; destruct (Z.ltb_spec (2 ^ Z.of_nat i) n) as [Hlt|Hge].
  - replace (i + 0)%nat with i in Hn by lia. lia.
  - exists i. repeat split; lia.
  - rewrite Z.shiftl_mul_pow2 by lia. change (2 ^ 1) with 2.
    assert (Hd : 2 ^ Z.of_nat (S i) = 2 ^ Z.of_nat i * 2).
    { rewrite Nat2Z.inj_succ, Z.pow_succ_r by lia. lia. }
    assert (Hlt' : 2 ^ Z.of_nat (S i) < 2 ^ 64) by (apply Z.pow_lt_mono_r; lia).
    rewrite u64_small by lia. rewrite <- Hd.
    destruct (IH fuel (S i) n) as (j & H1 & H2 & H3 & H4); [done| |lia|lia|].
    { by replace (S i + k)%nat with (i + S k)%nat by lia. }
    exists j. split; [done|]. split; [lia|]. split; [done|]. intros _.
    destruct (decide (j = S i)) as [->|]; [|apply H4; lia].
    by replace (S i - 1)%nat with i by lia.
  - exists i. repeat split; lia.
Qed.

Lemma next_pow_2_spec n :
  0 <= n <= 2 ^ 63 ->
  exists j, next_pow_2_v2 n = Some (2 ^ Z.of_nat j) /\ (j <= 63)%nat /\
    n <= 2 ^ Z.of_nat j /\ ((0 < j)%nat -> 2 ^ Z.of_nat (j - 1) < n).
Proof.
  intros Hn. destruct (next_pow_2_loop_spec 63 65 0 n) as (j & H1 & H2 & H3 & H4); try lia.
  exists j. split; [exact H1|]. split; [lia|]. split; [done|]. intros ?. apply H4. lia.
Qed.

Lemma compute_bits_v2_loop_pow j : forall fuel acc,
  (j <= fuel)%nat -> compute_bits_v2_loop fuel (2 ^ Z.of_nat j) acc = acc + Z.of_nat j.
Proof.
  induction j as [|j IH]; intros fuel acc Hf.
  - destruct fuel; simpl; lia.
  - destruct fuel as [|fuel]; [lia|]. cbn [compute_bits_v2_loop].
    rewrite Nat2Z.inj_succ, Z.pow_succ_r by lia.
    destruct (Z.ltb_spec 1 (2 * 2 ^ Z.of_nat j)); [|lia].
    rewrite Z.shiftr_div_pow2 by lia. change (2 ^ 1) with 2.
    rewrite (Z.mul_comm 2), Z.div_mul by lia. rewrite IH by lia. lia.
Qed.

Lemma compute_bits_v2_pow j : (j <= 63)%nat -> compute_bits_v2 (2 ^ Z.of_nat j) = Z.of_nat j.
Proof. intros. unfold compute_bits_v2. rewrite compute_bits_v2_loop_pow by lia. lia. Qed.

(** ** Bisection: lemmas *)

Lemma max_dim_loop_dim measure dim n :
  (exists i, (i < n)%nat /\ 0 < measure i) \/ (dim < n)%nat ->
  (0 < n)%nat -> (forall i, (i < n)%nat -> 0 <= measure i) ->
  (snd (max_dim_loop measure dim n) < n)%nat.
Proof.
  intros H Hn Hpos.
  assert (Hg : forall k, (k <= n)%nat ->
    let '(m, d) := max_dim_loop measure dim k in
    0 <= m /\ (forall i, (i < k)%nat -> measure i <= m) /\ (d = dim /\ m = 0 \/ (d < k)%nat)).
  { induction k as [|k IH]; intros Hk; [simpl; split; [lia|]; split; [lia|]; left; done|].
    specialize (IH ltac:(lia)). cbn [max_dim_loop].
    destruct (max_dim_loop measure dim k) as [m d]. destruct IH as (H0 & H1 & H2).
    specialize (Hpos k ltac:(lia)). destruct (Z.ltb_spec m (measure k)).
    - split; [lia|]. split; [|right; lia]. intros i Hi.
      destruct (decide (i = k)) as [->|]; [lia|]. specialize (H1 i ltac:(lia)). lia.
    - split; [lia|]. split; [|destruct H2 as [?|?]; [by left|right; lia]]. intros i Hi.
      destruct (decide (i = k)) as [->|]; [lia|]. apply H1. lia. }
  specialize (Hg n ltac:(lia)). destruct (max_dim_loop measure dim n) as [m d]. simpl.
  destruct Hg as (H0 & H1 & [[-> ->]|?]); [|done].
  destruct H as [(i & Hi & Hm)|?]; [|done]. specialize (H1 i Hi). lia.
Qed.

(** A box that the bisection may produce from [dom]. *)
Definition piece (nd : nat) (b : bbox) : Prop := num_dims b = nd /\ wf_box b /\ small_box b.

Lemma piece_in2 nd b d :
  piece nd b -> (d < nd)%nat ->
  let '(b1, b2) := bbox_divide_in2_ondim b d in piece nd b1 /\ piece nd b2.
Proof.
  intros (Hn & Hw & Hs) Hd. rewrite <- Hn in Hd.
  pose proof (wf_in2 b d Hw Hs Hd) as [? ?]. pose proof (small_in2 b d Hw Hs Hd) as [? ?].
  destruct (bbox_divide_in2_ondim b d) as [b1 b2] eqn:E. cbn [fst snd] in *.
  assert (num_dims b1 = num_dims b /\ num_dims b2 = num_dims b) as [? ?].
  { unfold bbox_divide_in2_ondim in E. by simplify_eq. }
  split; (split; [congruence|done]).
Qed.

Lemma divide_queue_spec nd src : forall dst dim,
  Forall (piece nd) src -> Forall (piece nd) dst -> (0 < nd)%nat ->
  (dim < nd)%nat \/ (exists b src', src = b :: src' /\ valid_box b) ->
  let '(q, dim') := divide_queue src dst dim in
  Forall (piece nd) q /\ length q = (length dst + 2 * length src)%nat /\
  (src <> [] -> (dim' < nd)%nat) /\
  (forall (m : bbox -> Z), (forall b d, piece nd b -> (d < nd)%nat ->
       m b = m (fst (bbox_divide_in2_ondim b d)) + m (snd (bbox_divide_in2_ondim b d))) ->
     zsum (map m q) = zsum (map m dst) + zsum (map m src)).
Proof.
  induction src as [|b src IH]; intros dst dim Hs Hd Hnd Hdim; cbn [divide_queue].
  { split; [done|]. split; [simpl; lia|]. split; [done|]. intros. simpl. lia. }
  inversion Hs as [|? ? Hb Hs']; subst.
  assert (Hlt : (snd (get_bbox_max_dim_size b dim) < nd)%nat).
  { destruct Hb as (Hn & Hw & Hsm). rewrite <- Hn. apply max_dim_loop_dim; [|lia|].
    - destruct Hdim as [?|(b' & src' & E & Hv)]; [right; lia|left]. simplify_eq.
      exists 0%nat. split; [lia|]. rewrite coord_dist_side. unfold side.
      destruct Hv as [(_ & Hl & Hu) Hv]. specialize (Hv 0%nat ltac:(lia)).
      specialize (Hsm 0%nat ltac:(lia)). pose proof (wf_coord_range (lb b') 0 Hl).
      rewrite u64_small by lia. lia.
    - intros. rewrite coord_dist_side. apply u64_range. }
  set (d := snd (get_bbox_max_dim_size b dim)) in *.
  pose proof (piece_in2 nd b d Hb Hlt) as H2.
  destruct (bbox_divide_in2_ondim b d) as [b1 b2] eqn:E2. destruct H2 as [Hb1 Hb2].
  specialize (IH (dst ++ [b1; b2]) d Hs').
  destruct (divide_queue src (dst ++ [b1; b2]) d) as [q dim'] eqn:Eq.
  destruct IH as (I1 & I2 & I3 & I4); [|done|by left|].
  { apply Forall_app. split; [done|]. rewrite !Forall_cons. done. }
  split; [done|]. split; [|split].
  - rewrite I2, length_app. simpl. lia.
  - intros _. destruct src as [|b' src]; [simpl in Eq; simplify_eq; done|by apply I3].
  - intros m Hm. rewrite (I4 m Hm), map_app, zsum_app. simpl.
    rewrite (Hm b d Hb Hlt), E2. simpl. lia.
Qed.

Lemma divide_rounds_spec nd n : forall q1 q2 dim,
  (q1 = [] /\ q2 <> [] \/ q1 <> [] /\ q2 = []) -> (0 < nd)%nat ->
  Forall (piece nd) (q1 ++ q2) ->
  (dim < nd)%nat \/ (exists b l, q1 ++ q2 = b :: l /\ valid_box b) ->
  exists q1' q2', divide_rounds n q1 q2 dim = Some (q1', q2') /\
    (q1' = [] /\ q2' <> [] \/ q1' <> [] /\ q2' = []) /\
    Forall (piece nd) (q1' ++ q2') /\
    length (q1' ++ q2') = (2 ^ n * length (q1 ++ q2))%nat /\
    (forall (m : bbox -> Z), (forall b d, piece nd b -> (d < nd)%nat ->
         m b = m (fst (bbox_divide_in2_ondim b d)) + m (snd (bbox_divide_in2_ondim b d))) ->
       zsum (map m (q1' ++ q2')) = zsum (map m (q1 ++ q2))).
Proof.
  induction n as [|n IH]; intros q1 q2 dim Hq Hnd Hp Hdim; cbn [divide_rounds].
  { exists q1, q2. split; [done|]. split; [done|]. split; [done|]. split; [simpl; lia|done]. }
  assert (Hlen : forall q : list bbox, q <> [] -> forall l, length l = (0 + 2 * length q)%nat -> l <> ([] : list bbox)).
  { intros q Hne l Hl ->. by destruct q. }
  destruct Hq as [[-> Hne]|[Hne ->]].
  - destruct q2 as [|b q2]; [done|]. cbn [app] in *.
    pose proof (divide_queue_spec nd (b :: q2) [] dim Hp (Forall_nil_2 _) Hnd Hdim) as Hdq.
    destruct (divide_queue (b :: q2) [] dim) as [q dim']. destruct Hdq as (D1 & D2 & D3 & D4).
    destruct (IH q [] dim') as (q1' & q2' & I1 & I2 & I3 & I4 & I5).
    + right. split; [|done]. eapply Hlen; [exact Hne|exact D2].
    + done.
    + by rewrite app_nil_r.
    + left. by apply D3.
    + exists q1', q2'. split; [done|]. split; [done|]. split; [done|]. rewrite app_nil_r in I4, I5.
      split; [rewrite I4, D2; simpl; lia|]. intros m Hm. rewrite (I5 m Hm), (D4 m Hm). simpl. lia.
  - destruct q1 as [|b q1]; [done|]. rewrite app_nil_r in *.
    pose proof (divide_queue_spec nd (b :: q1) [] dim Hp (Forall_nil_2 _) Hnd Hdim) as Hdq.
    destruct (divide_queue (b :: q1) [] dim) as [q dim']. destruct Hdq as (D1 & D2 & D3 & D4).
    destruct (IH [] q dim') as (q1' & q2' & I1 & I2 & I3 & I4 & I5).
    + left. split; [done|]. eapply Hlen; [exact Hne|exact D2].
    + done.
    + done.
    + left. by apply D3.
    + exists q1', q2'. split; [done|]. split; [done|]. split; [done|]. cbn [app] in I4, I5.
      split; [rewrite I4, D2; simpl; lia|]. intros m Hm. rewrite (I5 m Hm), (D4 m Hm). simpl. lia.
Qed.

(** ** Dealing the boxes: lemmas *)

(** A measure summed over the boxes of all entries. *)
Definition ents_sum (m : bbox -> Z) (ents : list dht_place) : Z :=
  zsum (map (fun e => zsum (map m (de_bb_tab e))) ents).

Lemma deal_boxes_sum m q : forall i ents,
  ents <> [] -> ents_sum m (deal_boxes q i ents) = ents_sum m ents + zsum (map m q).
Proof.
  induction q as [|b q IH]; intros i ents Hne; cbn [deal_boxes]; [simpl; lia|].
  assert (Hlen : (i mod length ents < length ents)%nat).
  { apply Nat.mod_upper_bound. by destruct ents. }
  destruct (lookup_lt_is_Some_2 ents _ Hlen) as [e He].
  rewrite IH by (intros E; apply (f_equal length) in E; rewrite length_alter in E; by destruct ents).
  unfold ents_sum. rewrite (zsum_map_alter _ _ _ _ e He). simpl.
  rewrite map_app, zsum_app. simpl. lia.
Qed.

Lemma deal_boxes_static {B} (f : dht_place -> B) q :
  (forall b e, f (push_bbox b e) = f e) ->
  forall i ents, map f (deal_boxes q i ents) = map f ents.
Proof.
  intros Hf. induction q as [|b q IH]; intros i ents; cbn [deal_boxes]; [done|].
  rewrite IH. apply list_eq. intros j. rewrite !list_lookup_fmap, list_lookup_alter.
  destruct (decide _) as [->|]; [|done]. destruct (ents !! j); simpl; by rewrite ?Hf.
Qed.

Lemma length_deal_boxes q i ents : length (deal_boxes q i ents) = length ents.
Proof.
  rewrite <- (length_map (fun _ => tt)), deal_boxes_static by done. by rewrite length_map.
Qed.

(** Boxes dealt to entry [j] of [N] after [i] steps. *)
Definition dealt (N i j : nat) : nat := ((i + N - 1 - j) / N)%nat.

Lemma dealt_step N i j :
  (j < N)%nat -> dealt N (S i) j = (dealt N i j + (if decide (i mod N = j)%nat then 1 else 0))%nat.
Proof.
  intros Hj. unfold dealt. pose proof (Nat.div_mod_eq i N) as Hi.
  pose proof (Nat.mod_upper_bound i N ltac:(lia)) as Hr.
  set (r := (i mod N)%nat) in *. set (k := (i / N)%nat) in *. case_decide as E.
  - rewrite <- (Nat.div_unique (S i + N - 1 - j) N (k + 1) 0) by lia.
    rewrite <- (Nat.div_unique (i + N - 1 - j) N k (N - 1)) by lia. lia.
  - destruct (decide (j < r)%nat).
    + rewrite <- (Nat.div_unique (S i + N - 1 - j) N (k + 1) (r - j)) by lia.
      rewrite <- (Nat.div_unique (i + N - 1 - j) N (k + 1) (r - j - 1)) by lia. lia.
    + rewrite <- (Nat.div_unique (S i + N - 1 - j) N k (N + r - j)) by lia.
      rewrite <- (Nat.div_unique (i + N - 1 - j) N k (N + r - j - 1)) by lia. lia.
Qed.

Lemma deal_boxes_dealt q : forall i ents,
  (forall j e, ents !! j = Some e -> length (de_bb_tab e) = dealt (length ents) i j) ->
  forall j e, deal_boxes q i ents !! j = Some e ->
    length (de_bb_tab e) = dealt (length ents) (i + length q) j.
Proof.
  induction q as [|b q IH]; intros i ents H j e; cbn [deal_boxes length].
  { rewrite Nat.add_0_r. apply H. }
  intros He. apply IH in He; [by rewrite He, length_alter, Nat.add_succ_r|].
  intros j' e'. rewrite length_alter, list_lookup_alter. intros Hj'.
  assert (Hlt : (j' < length ents)%nat).
  { apply lookup_lt_is_Some_1. destruct (decide (i mod length ents = j')%nat) as [<-|]; [|by exists e'].
    apply fmap_Some in Hj' as (x & Hx & _). by exists x. }
  rewrite dealt_step by done. destruct (decide (i mod length ents = j')%nat) as [E|E].
  - apply fmap_Some in Hj' as (e0 & He0 & ->). rewrite E in He0. simpl.
    by rewrite length_app, (H _ _ He0).
  - rewrite (H _ _ Hj'). lia.
Qed.

Lemma deal_boxes_members (P : bbox -> Prop) q : forall i ents,
  Forall P q -> Forall (fun e => Forall P (de_bb_tab e)) ents ->
  Forall (fun e => Forall P (de_bb_tab e)) (deal_boxes q i ents).
Proof.
  induction q as [|b q IH]; intros i ents Hq He; cbn [deal_boxes]; [done|].
  apply Forall_cons in Hq as [Hb Hq]. apply IH; [done|].
  apply Forall_alter; [done|]. intros e _ Hpe. simpl. apply Forall_app. by rewrite Forall_singleton.
Qed.

Lemma ceil_div_eq a b : 0 < b -> ceil_div a b = (a + b - 1) `div` b.
Proof.
  intros Hb. unfold ceil_div. pose proof (Z.div_mod (- a) b ltac:(lia)) as H.
  pose proof (Z.mod_pos_bound (- a) b Hb).
  apply (Z.div_unique _ _ _ (b - 1 - (- a) mod b)); [left; lia|]. lia.
Qed.

(** ** The allocated space *)

(** What [ssd_alloc_v2] needs: a valid domain whose corners are below
    [2^63], and at least one server. *)
Definition domain_ok (dom : bbox) : Prop :=
  valid_box dom /\ small_box dom /\ (0 < num_dims dom)%nat.

Definition place0 (n : Z) (r : nat) : dht_place := mkPlace r (mkIntv 0 0) [] n [].

Lemma max_dim_loop_bound measure dim n M :
  0 <= M -> (forall i, (i < n)%nat -> measure i <= M) -> 0 <= fst (max_dim_loop measure dim n) <= M.
Proof.
  intros HM. induction n as [|n IH]; intros H; cbn [max_dim_loop]; [simpl; lia|].
  specialize (IH ltac:(intros; apply H; lia)). specialize (H n ltac:(lia)).
  destruct (max_dim_loop measure dim n) as [m d]. simpl in IH.
  destruct (Z.ltb_spec m (measure n)); simpl; lia.
Qed.

Lemma ssd_alloc_v2_spec id dom n dim0 :
  domain_ok dom -> (0 < n)%nat -> Z.of_nat n <= 2 ^ 63 ->
  exists ss j q, ssd_alloc_v2 id dom n dim0 = Some ss /\
    ss_id ss = id /\ ss_domain ss = dom /\ ss_hash_version ss = ssd_hash_version_v2 /\
    ss_ent_tab ss = deal_boxes q 0 (map (place0 (ceil_div (2 ^ Z.of_nat j) (Z.of_nat n))) (seq 0 n)) /\
    Z.of_nat (length q) = 2 ^ Z.of_nat j /\ Forall (piece (num_dims dom)) q /\
    (forall (m : bbox -> Z), (forall b d, piece (num_dims dom) b -> (d < num_dims dom)%nat ->
       m b = m (fst (bbox_divide_in2_ondim b d)) + m (snd (bbox_divide_in2_ondim b d))) ->
     zsum (map m q) = m dom).
Proof.
  intros (Hv & Hs & Hnd) Hn Hn'. unfold ssd_alloc_v2.
  pose proof (max_dim_loop_bound (cget (ub dom)) dim0 (num_dims dom) (2 ^ 63) ltac:(lia)) as Hmx.
  destruct (get_bbox_max_dim dom dim0) as [mx dim] eqn:Em.
  unfold get_bbox_max_dim in Em. rewrite Em in Hmx. simpl in Hmx.
  destruct (next_pow_2_spec mx) as (jm & -> & _).
  { apply Hmx. intros i Hi. specialize (Hs i Hi). lia. }
  destruct (next_pow_2_spec (Z.of_nat n)) as (j & -> & Hj & _); [lia|].
  cbn [mbind option_bind]. rewrite (compute_bits_v2_pow j), Nat2Z.id by exact Hj.
  destruct (divide_rounds_spec (num_dims dom) j [dom] [] dim) as (q1 & q2 & E & Hq & Hp & Hl & Hm).
  - by right.
  - done.
  - simpl. rewrite Forall_singleton. split; [done|]. split; [apply Hv|done].
  - right. by exists dom, [].
  - rewrite E. simpl. set (q := match q1 with [] => q2 | _ => q1 end).
    assert (Hqq : q = q1 ++ q2).
    { unfold q. destruct Hq as [[-> _]|[Hne ->]]; [done|]. rewrite app_nil_r. by destruct q1. }
    assert (Hlen : Z.of_nat (length q) = 2 ^ Z.of_nat j).
    { rewrite Hqq, Hl. simpl. rewrite Nat.mul_1_r. apply nat_pow2_Z. }
    eexists _, j, q. rewrite Hlen. split; [reflexivity|]. repeat (split; [done|]).
    rewrite Hqq. split; [done|]. intros m Hadd. rewrite (Hm m Hadd). simpl. lia.
Qed.

(** Every box a server holds is a piece of the domain's dimensionality. *)
Lemma alloc_v2_pieces id dom n dim0 ss :
  domain_ok dom -> (0 < n)%nat -> Z.of_nat n <= 2 ^ 63 ->
  ssd_alloc_v2 id dom n dim0 = Some ss ->
  forall e b, In e (ss_ent_tab ss) -> b ∈ de_bb_tab e -> piece (num_dims dom) b.
Proof.
  intros Hdom Hn Hn' Ha e b Hin Hb.
  destruct (ssd_alloc_v2_spec id dom n dim0 Hdom Hn Hn')
    as (ss' & j & bs & E & _ & _ & _ & He & _ & Hp & _).
  rewrite Ha in E. injection E as <-.
  assert (H0 : Forall (fun e => Forall (piece (num_dims dom)) (de_bb_tab e))
                 (map (place0 (ceil_div (2 ^ Z.of_nat j) (Z.of_nat n))) (seq 0 n))).
  { apply Forall_forall. intros x (r & -> & _)%list_elem_of_fmap. by apply Forall_nil. }
  pose proof (deal_boxes_members _ bs 0 _ Hp H0) as Hall. rewrite <- He, Forall_forall in Hall.
  specialize (Hall e (proj2 (list_elem_of_In _ _) Hin)). rewrite Forall_forall in Hall. by apply Hall.
Qed.

(** ** Shared points *)

(** Exact number of points common to two boxes. *)
Definition zoverlap (q b : bbox) : Z :=
  zprod (num_dims b)
    (fun i => Z.max 0 (Z.min (cget (ub q) i) (cget (ub b) i)
                       - Z.max (cget (lb q) i) (cget (lb b) i) + 1)).

Lemma zoverlap_nonneg q b : 0 <= zoverlap q b.
Proof. apply zprod_nonneg. lia. Qed.

Lemma zoverlap_in2 nd q b d :
  piece nd b -> (d < nd)%nat ->
  zoverlap q b = zoverlap q (fst (bbox_divide_in2_ondim b d))
                 + zoverlap q (snd (bbox_divide_in2_ondim b d)).
Proof.
  intros (Hn & Hw & Hs) Hd. rewrite <- Hn in Hd. unfold zoverlap.
  change (num_dims (fst (bbox_divide_in2_ondim b d))) with (num_dims b).
  change (num_dims (snd (bbox_divide_in2_ondim b d))) with (num_dims b).
  apply zprod_split with d; [done| | |].
  - pose proof (in2_bounds b d Hw Hs Hd d) as (-> & -> & -> & ->).
    pose proof (mid_between b d Hs Hd). case_decide; [lia|done].
  - intros i Hi. pose proof (in2_bounds b d Hw Hs Hd i) as (-> & -> & _). by case_decide.
  - intros i Hi. pose proof (in2_bounds b d Hw Hs Hd i) as (_ & _ & -> & ->). by case_decide.
Qed.

Lemma zoverlap_le q b :
  num_dims b = num_dims q -> valid_box q -> zoverlap q b <= zvolume q.
Proof.
  intros Hn [_ Hv]. unfold zoverlap, zvolume. rewrite Hn. apply zprod_mono.
  intros i Hi. specialize (Hv i Hi). unfold side. lia.
Qed.

(** The code's test-then-measure on a possibly empty piece. *)
Lemma intersect_volume nd q b :
  piece nd b -> valid_box q -> num_dims q = nd -> zvolume q < 2 ^ 64 ->
  (if bbox_does_intersect q b then bbox_volume (bbox_intersect q b zero_bbox) else 0)
  = zoverlap q b.
Proof.
  intros (Hn & Hw & Hs) Hv Hq Hvol.
  pose proof (zoverlap_le q b ltac:(congruence) Hv) as Hle.
  pose proof (zoverlap_nonneg q b) as Hnn. destruct Hv as [Hwq Hvq].
  destruct (bbox_does_intersect q b) eqn:E.
  - rewrite bbox_volume_zvolume, <- (u64_small (zoverlap q b)) by lia. f_equal.
    unfold zvolume, zoverlap. cbn [num_dims bbox_intersect]. rewrite Hn, <- Hq.
    apply zprod_ext. intros i Hi. unfold side.
    rewrite lb_intersect, ub_intersect by (auto with dspaces; apply Hwq).
    unfold bbox_does_intersect in E. rewrite for_all_true in E. specialize (E i Hi).
    rewrite bbox_intersect_ondim_spec in E. specialize (Hvq i Hi).
    specialize (Hs i ltac:(lia)). lia.
  - symmetry. unfold bbox_does_intersect in E. apply for_all_false in E as (i & Hi & E).
    apply (zprod_zero _ _ i); [lia|]. apply not_true_iff_false in E.
    rewrite bbox_intersect_ondim_spec in E. specialize (Hvq i Hi).
    specialize (Hs i ltac:(lia)). lia.
Qed.

Lemma fold_elem_count nd q bs : forall acc,
  Forall (piece nd) bs -> valid_box q -> num_dims q = nd ->
  0 <= acc -> acc + zsum (map (zoverlap q) bs) < 2 ^ 63 -> zvolume q < 2 ^ 64 ->
  fold_left (fun num_elem ent_bb =>
      if bbox_does_intersect q ent_bb
      then i64 (num_elem + bbox_volume (bbox_intersect q ent_bb zero_bbox))
      else num_elem) bs acc
  = acc + zsum (map (zoverlap q) bs).
Proof.
  induction bs as [|b bs IH]; intros acc Hp Hv Hq Ha Hb Hvol; simpl in *; [lia|].
  apply Forall_cons in Hp as [Hp1 Hp2].
  pose proof (intersect_volume nd q b Hp1 Hv Hq Hvol) as Hi.
  pose proof (zoverlap_nonneg q b).
  pose proof (zsum_map_nonneg (zoverlap q) bs ltac:(intros; apply zoverlap_nonneg)).
  destruct (bbox_does_intersect q b).
  - rewrite Hi, i64_small, IH by (done || lia). lia.
  - rewrite IH by (done || lia). lia.
Qed.

Lemma zoverlap_points q dom :
  valid_box q -> num_dims dom = num_dims q ->
  zoverlap q dom = Z.of_nat (length (filter (fun p => in_box p dom) (box_points q))).
Proof.
  intros Hv Hn. set (r := bbox_intersect q dom zero_bbox).
  assert (Hb : forall i, (i < num_dims q)%nat ->
    cget (lb r) i = Z.max (cget (lb q) i) (cget (lb dom) i) /\
    cget (ub r) i = Z.min (cget (ub q) i) (cget (ub dom) i)).
  { intros i Hi. unfold r. rewrite lb_intersect, ub_intersect by (auto with dspaces; apply Hv). done. }
  assert (Hp : filter (fun p => in_box p dom) (box_points q) ≡ₚ box_points r).
  { apply NoDup_Permutation; [apply NoDup_filter, NoDup_points_of|apply NoDup_points_of|].
    intros p. rewrite list_elem_of_filter, !list_elem_of_In, !elem_of_box_points.
    unfold r. rewrite in_box_intersect by (auto with dspaces; apply Hv). simpl. tauto. }
  rewrite Hp. unfold zoverlap, box_points. rewrite Hn. change (num_dims r) with (num_dims q).
  destruct (for_all (num_dims q) (fun i => cget (lb r) i <=? cget (ub r) i)) eqn:E.
  - rewrite for_all_true in E. rewrite length_points_of.
    + apply zprod_ext. intros i Hi. specialize (E i Hi). destruct (Hb i Hi) as [H1 H2].
      zify_bool. lia.
    + intros i Hi. specialize (E i Hi). zify_bool. lia.
  - apply for_all_false in E as (i & Hi & E). zify_bool. destruct (Hb i Hi) as [H1 H2].
    destruct (points_of _ _ _) as [|p l] eqn:Epts.
    + apply (zprod_zero _ _ i Hi). lia.
    + assert (Hin : In p (points_of (num_dims q) (cget (lb r)) (cget (ub r)))) by (rewrite Epts; by left).
      apply elem_of_points_of in Hin as [_ Hin]. specialize (Hin i Hi). lia.
Qed.

(** ** The lookup cache: lemmas *)

(** Every cached result is the one a fresh lookup in [ss] would compute. *)
Definition cache_ok (ss : sspace) (c : sh_cache) : Prop :=
  Forall (fun '(b, tab) => tab = select_ents (place_hit_v2 b) ss) c.

Lemma does_intersect_equals bb b b' :
  bbox_equals bb b = true -> bbox_does_intersect bb b' = bbox_does_intersect b b'.
Proof.
  rewrite bbox_equals_spec. intros [Hn H]. unfold bbox_does_intersect.
  apply eq_true_iff_eq. rewrite !for_all_true, <- Hn.
  split; intros Hi i Hlt; specialize (Hi i Hlt); destruct (H i Hlt) as [E1 E2];
    unfold bbox_intersect_ondim in *; [by rewrite <- E1, <- E2|by rewrite E1, E2].
Qed.

Lemma place_hit_equals bb b e :
  bbox_equals bb b = true -> place_hit_v2 bb e = place_hit_v2 b e.
Proof.
  intros H. unfold place_hit_v2. induction (de_bb_tab e) as [|x l IH]; simpl; [done|].
  by rewrite IH, (does_intersect_equals bb b x H).
Qed.

Lemma select_ents_ext f g ss :
  (forall e, f e = g e) -> select_ents f ss = select_ents g ss.
Proof.
  intros H. unfold select_ents. f_equal. apply filter_ext. intros [i e]. apply H.
Qed.

Lemma sh_find_ok ss c bb tab :
  cache_ok ss c -> sh_find bb c = Some tab -> tab = select_ents (place_hit_v2 bb) ss.
Proof.
  induction c as [|[b t] c IH]; simpl; intros Hc Hf; [done|].
  apply Forall_cons in Hc as [Hb Hc]. destruct (bbox_equals bb b) eqn:E; [|by apply IH].
  simplify_eq. apply select_ents_ext. intros e. symmetry. by apply place_hit_equals.
Qed.

Lemma ssd_hash_v2_ok ss bb c :
  cache_ok ss c ->
  fst (ssd_hash_v2 ss bb c) = select_ents (place_hit_v2 bb) ss /\
  cache_ok ss (snd (ssd_hash_v2 ss bb c)).
Proof.
  intros Hc. unfold ssd_hash_v2, cached_hash.
  assert (Hadd : cache_ok ss (sh_add bb (select_ents (place_hit_v2 bb) ss) c)).
  { unfold cache_ok, sh_add. rewrite Forall_app, Forall_singleton. done. }
  destruct (sh_find bb c) as [[|p tab]|] eqn:E; [done| |done].
  split; [|done]. exact (sh_find_ok _ _ _ _ Hc E).
Qed.

Lemma elem_of_select_ents f ss p :
  In p (select_ents f ss) <->
  ptr_ss p = ss_id ss /\ exists e, ss_ent_tab ss !! ptr_ent p = Some e /\ f e = true.
Proof.
  unfold select_ents. rewrite in_map_iff. setoid_rewrite filter_In.
  assert (Himap : forall i e, In (i, e) (imap pair (ss_ent_tab ss)) <-> ss_ent_tab ss !! i = Some e).
  { intros i e. rewrite <- list_elem_of_In, elem_of_lookup_imap. split.
    - by intros (j & y & [= -> ->] & H).
    - intros H. eauto. }
  split.
  - intros ([i e] & <- & Hi & Hf). simpl. apply Himap in Hi. eauto.
  - intros (Hs & e & He & Hf). exists (ptr_ent p, e). split; [destruct p; simpl in *; by subst|].
    split; [by apply Himap|done].
Qed.

(** ** Properties *)

(** The indicator of a point, as a measure on boxes. *)
Definition point_measure (p : coord) (b : bbox) : Z := if decide (in_box p b) then 1 else 0.

Lemma point_measure_in2 nd p b d :
  piece nd b -> (d < nd)%nat ->
  point_measure p b = point_measure p (fst (bbox_divide_in2_ondim b d))
                      + point_measure p (snd (bbox_divide_in2_ondim b d)).
Proof.
  intros (Hn & Hw & Hs) Hd. rewrite <- Hn in Hd.
  pose proof (count_boxes_in2 b d p Hw Hs Hd) as H.
  destruct (bbox_divide_in2_ondim b d) as [b1 b2]. simpl.
  rewrite !count_boxes_cons, count_boxes_nil in H. unfold point_measure. repeat case_decide; lia.
Qed.

Lemma point_measure_sum p l : 0 < zsum (map (point_measure p) l) <-> Exists (in_box p) l.
Proof.
  split.
  - intros (b & Hb & Hm)%zsum_pos_member. apply Exists_exists. exists b.
    split; [by apply list_elem_of_In|]. unfold point_measure in Hm. by case_decide; [|lia].
  - intros (b & Hb & Hm)%Exists_exists. apply list_elem_of_In in Hb.
    assert (Hpos : forall y, In y l -> 0 <= point_measure p y).
    { intros. unfold point_measure. case_decide; lia. }
    pose proof (zsum_member_le (point_measure p) l b Hpos Hb).
    unfold point_measure at 1 in H. case_decide; [lia|done].
Qed.

Lemma ents_sum_place0 m n k : ents_sum m (map (place0 k) (seq 0 n)) = 0.
Proof.
  unfold ents_sum. rewrite map_map. apply zsum_map_const0. done.
Qed.

Lemma place0_seq_ne k n : (0 < n)%nat -> map (place0 k) (seq 0 n) <> [].
Proof. by destruct n; [lia|]. Qed.

Lemma alloc_v2_shape id dom n dim0 ss :
  domain_ok dom -> (0 < n)%nat -> Z.of_nat n <= 2 ^ 63 -> ssd_alloc_v2 id dom n dim0 = Some ss ->
  length (ss_ent_tab ss) = n /\ ss_hash_version ss = ssd_hash_version_v2.
Proof.
  intros Hdom Hn Hn' Ha.
  destruct (ssd_alloc_v2_spec id dom n dim0 Hdom Hn Hn')
    as (ss' & j & bs & E & _ & _ & Hv & He & _). rewrite Ha in E. injection E as <-.
  by rewrite He, length_deal_boxes, length_map, length_seq.
Qed.

(** Every point of the domain is in a box of an entry. *)
Lemma alloc_v2_cover id dom n dim0 ss :
  domain_ok dom -> (0 < n)%nat -> Z.of_nat n <= 2 ^ 63 -> ssd_alloc_v2 id dom n dim0 = Some ss ->
  forall x, in_box x dom -> exists r e, (r < n)%nat /\ ss_ent_tab ss !! r = Some e /\
    exists b, b ∈ de_bb_tab e /\ in_box x b /\ num_dims b = num_dims dom.
Proof.
  intros Hdom Hn Hn' Ha x Hxd.
  destruct (ssd_alloc_v2_spec id dom n dim0 Hdom Hn Hn')
    as (ss' & j & bs & E & Hid & _ & _ & He & _ & _ & Hm).
  rewrite Ha in E. injection E as <-.
  assert (Hpos : 0 < ents_sum (point_measure x) (ss_ent_tab ss)).
  { rewrite He, deal_boxes_sum, ents_sum_place0, (Hm (point_measure x)).
    - unfold point_measure. case_decide; [lia|done].
    - intros b d. apply point_measure_in2.
    - by apply place0_seq_ne. }
  apply zsum_pos_member in Hpos as (e & Hin & Hpos). apply point_measure_sum in Hpos.
  destruct (proj1 (list_elem_of_lookup _ _) (proj2 (list_elem_of_In _ _) Hin)) as (r & Hr).
  exists r, e. split; [|split; [done|]].
  - apply lookup_lt_Some in Hr. by rewrite He, length_deal_boxes, length_map, length_seq in Hr.
  - apply Exists_exists in Hpos as (b & Hb & Hxb). exists b. split; [done|]. split; [done|].
    by destruct (alloc_v2_pieces _ _ _ _ _ Hdom Hn Hn' Ha e b Hin Hb).
Qed.

(** No entry holds a point outside the domain. *)
Lemma alloc_v2_inside id dom n dim0 ss :
  domain_ok dom -> (0 < n)%nat -> Z.of_nat n <= 2 ^ 63 -> ssd_alloc_v2 id dom n dim0 = Some ss ->
  forall p e b, In e (ss_ent_tab ss) -> In b (de_bb_tab e) -> in_box p b -> in_box p dom.
Proof.
  intros Hdom Hn Hn' Ha p e b Hin Hb Hp.
  destruct (ssd_alloc_v2_spec id dom n dim0 Hdom Hn Hn')
    as (ss' & j & bs & E & Hid & _ & _ & He & _ & _ & Hm).
  rewrite Ha in E. injection E as <-.
  assert (Hpm : ents_sum (point_measure p) (ss_ent_tab ss) = point_measure p dom).
  { rewrite He, deal_boxes_sum, ents_sum_place0, (Hm (point_measure p)); [done| |].
    - intros x d. apply point_measure_in2.
    - by apply place0_seq_ne. }
  assert (Hex : 0 < zsum (map (point_measure p) (de_bb_tab e))).
  { apply point_measure_sum, Exists_exists. exists b. split; [by apply list_elem_of_In|done]. }
  pose proof (zsum_member_le (fun e => zsum (map (point_measure p) (de_bb_tab e))) (ss_ent_tab ss) e) as Hle.
  fold (ents_sum (point_measure p) (ss_ent_tab ss)) in Hle. rewrite Hpm in Hle.
  assert (0 < point_measure p dom).
  { enough (zsum (map (point_measure p) (de_bb_tab e)) <= point_measure p dom) by lia. apply Hle; [|done].
    intros y _. apply zsum_map_nonneg. intros x _. unfold point_measure. case_decide; lia. }
  unfold point_measure in *. by case_decide; [|lia].
Qed.

(** C13: [ssd_alloc_v2] always succeeds on a valid domain (the two-queue
    bisection never meets its error branch) and deals the domain out: server
    [r] is entry [r], no entry receives more boxes than its table was
    allocated for, every point of the domain belongs to exactly one server,
    and no server holds a point outside the domain. *)
Theorem ssd_alloc_v2_partition id dom n dim0 :
  domain_ok dom -> (0 < n)%nat -> Z.of_nat n <= 2 ^ 63 ->
  exists ss, ssd_alloc_v2 id dom n dim0 = Some ss /\
    map de_rank (ss_ent_tab ss) = seq 0 n /\
    (forall e, e ∈ ss_ent_tab ss -> Z.of_nat (length (de_bb_tab e)) <= de_size_bb_tab e) /\
    (forall p, in_box p dom ->
       exists! r, (r < n)%nat /\ Exists (in_box p) (de_bb_tab (nth r (ss_ent_tab ss) (zero_place 0)))) /\
    (forall p e, e ∈ ss_ent_tab ss -> Exists (in_box p) (de_bb_tab e) -> in_box p dom).
Proof.
  intros Hdom Hn Hn'.
  destruct (ssd_alloc_v2_spec id dom n dim0 Hdom Hn Hn')
    as (ss & j & q & E & _ & _ & _ & He & Hq & _ & Hm).
  exists ss. split; [done|].
  assert (Hlen : length (ss_ent_tab ss) = n).
  { by rewrite He, length_deal_boxes, length_map, length_seq. }
  assert (Hpm : forall p, ents_sum (point_measure p) (ss_ent_tab ss) = point_measure p dom).
  { intros p. rewrite He, deal_boxes_sum, ents_sum_place0, (Hm (point_measure p)); [done| |].
    - intros b d. apply point_measure_in2.
    - by apply place0_seq_ne. }
  assert (Hnn : forall p e, 0 <= zsum (map (point_measure p) (de_bb_tab e))).
  { intros p e. apply zsum_map_nonneg. intros b _. unfold point_measure. case_decide; lia. }
  split; [|split; [|split]].
  - rewrite He, deal_boxes_static, map_map by done. apply map_id.
  - intros e [r Hr]%list_elem_of_lookup.
    assert (Hs : map de_size_bb_tab (ss_ent_tab ss) !! r = Some (de_size_bb_tab e)).
    { by rewrite list_lookup_fmap, Hr. }
    rewrite He, deal_boxes_static, map_map, list_lookup_fmap in Hs by done.
    apply fmap_Some in Hs as (r' & Hr' & ->). rewrite He in Hr.
    apply deal_boxes_dealt in Hr.
    + rewrite Hr, length_map, length_seq. apply lookup_seq in Hr' as [-> Hr'].
      unfold dealt. cbn [place0 de_size_bb_tab]. rewrite Nat2Z.inj_div, <- Hq, ceil_div_eq by lia.
      apply Z.div_le_mono; lia.
    + intros j' e'. rewrite list_lookup_fmap. intros (x & Hx & ->)%fmap_Some. simpl.
      rewrite length_map, length_seq. apply lookup_seq in Hx as [-> Hx].
      unfold dealt. rewrite Nat.div_small; lia.
  - intros p Hp. rewrite <- Hlen.
    destruct (zsum_one_unique (fun e => zsum (map (point_measure p) (de_bb_tab e)))
                (ss_ent_tab ss) (zero_place 0)) as (r & [Hr Hpos] & Hu); [done| |].
    + fold (ents_sum (point_measure p) (ss_ent_tab ss)). rewrite Hpm.
      unfold point_measure. by case_decide.
    + exists r. split; [split; [done|by apply point_measure_sum]|].
      intros r' [Hr' Hex]. apply Hu. split; [done|by apply point_measure_sum].
  - intros p e Hin (b & Hb & Hp)%Exists_exists.
    by apply (alloc_v2_inside id dom n dim0 ss Hdom Hn Hn' E p e b); [apply list_elem_of_In..|].
Qed.

(** An entry with a box holding a point of [bb] is hit. *)
Lemma place_hit_v2_point bb e b x :
  num_dims bb = num_dims b -> b ∈ de_bb_tab e -> in_box x b -> in_box x bb -> place_hit_v2 bb e = true.
Proof.
  intros Hd Hb Hxb Hx. apply existsb_exists. exists b. split; [by apply list_elem_of_In|].
  unfold bbox_does_intersect. apply for_all_true. intros i Hi.
  apply bbox_intersect_ondim_spec. specialize (Hx i Hi). specialize (Hxb i ltac:(lia)). lia.
Qed.

(** The selected entries by index, in order. *)
Lemma select_ents_ranks f ss :
  map ptr_ent (select_ents f ss)
  = List.filter (fun r => f (nth r (ss_ent_tab ss) (zero_place 0))) (seq 0 (length (ss_ent_tab ss))).
Proof.
  unfold select_ents. rewrite map_map.
  rewrite (map_ext _ fst) by (by intros [i e]).
  assert (H : forall (l : list dht_place) k (g : nat -> dht_place),
    (forall i e, l !! i = Some e -> g (k + i)%nat = e) ->
    map fst (List.filter (fun '(_, e) => f e) (imap (fun i e => ((k + i)%nat, e)) l))
    = List.filter (fun r => f (g r)) (seq k (length l))).
  { induction l as [|e l IH]; intros k g Hg; [done|]. cbn [imap length seq List.filter].
    rewrite Nat.add_0_r. rewrite (imap_ext _ (fun i e => ((S k + i)%nat, e))) by
      (intros; simpl; do 2 f_equal; lia).
    pose proof (Hg 0%nat e eq_refl) as He. rewrite Nat.add_0_r in He. rewrite He.
    specialize (IH (S k) g). rewrite <- IH.
    - by destruct (f e).
    - intros i e' Hi. rewrite <- (Hg (S i) e') by done. f_equal. lia. }
  rewrite <- (H (ss_ent_tab ss) 0%nat (fun r => nth r (ss_ent_tab ss) (zero_place 0))).
  - do 2 f_equal.
  - intros i e Hi. simpl. by apply nth_lookup_Some.
Qed.

Lemma box2_domain_ok l0 l1 u0 u1 :
  0 <= l0 <= u0 -> 0 <= l1 <= u1 -> u0 < 2 ^ 63 -> u1 < 2 ^ 63 ->
  domain_ok (box2 l0 l1 u0 u1).
Proof. intros. destruct (box2_valid l0 l1 u0 u1); try done. split; [done|]. split; [done|simpl; lia]. Qed.

Lemma ssd_alloc_v2_partition_witness :
  exists ss, ssd_alloc_v2 7 (box2 0 0 7 4) 3 0 = Some ss /\
    map de_rank (ss_ent_tab ss) = [0; 1; 2]%nat /\
    map (fun e => length (de_bb_tab e)) (ss_ent_tab ss) = [2; 1; 1]%nat.
Proof.
  destruct (ssd_alloc_v2_partition 7 (box2 0 0 7 4) 3 0) as (ss & H1 & H2 & _).
  - apply box2_domain_ok; lia.
  - lia.
  - lia.
  - exists ss. split; [exact H1|]. split; [exact H2|].
    vm_compute in H1. by injection H1 as <-.
Defined.

(** C18: The local element counts add up: over all servers,
    [ssh_hash_elem_count_v2] of a query box sums to the number of points the
    query shares with the domain, so the counts that decide when a query is
    satisfied neither lose nor double-count a point. *)
Theorem ssh_hash_elem_count_v2_sum id dom n dim0 ss q :
  domain_ok dom -> (0 < n)%nat -> Z.of_nat n <= 2 ^ 63 ->
  ssd_alloc_v2 id dom n dim0 = Some ss ->
  valid_box q -> num_dims q = num_dims dom -> zvolume q < 2 ^ 63 ->
  zsum (map (fun r => ssh_hash_elem_count_v2 (ssd_init ss r) q) (seq 0 n))
  = Z.of_nat (length (filter (fun p => in_box p dom) (box_points q))).
Proof.
  intros Hdom Hn Hn' Ha Hv Hd Hvol.
  destruct (ssd_alloc_v2_spec id dom n dim0 Hdom Hn Hn')
    as (ss' & j & bs & E & _ & _ & _ & He & Hq & Hp & Hm).
  rewrite Ha in E. injection E as <-.
  assert (Hlen : length (ss_ent_tab ss) = n).
  { by rewrite He, length_deal_boxes, length_map, length_seq. }
  assert (Hsum : ents_sum (zoverlap q) (ss_ent_tab ss) = zoverlap q dom).
  { rewrite He, deal_boxes_sum, ents_sum_place0, (Hm (zoverlap q)); [done| |].
    - intros b d. apply zoverlap_in2.
    - by apply place0_seq_ne. }
  rewrite <- zoverlap_points, <- Hsum by congruence || done.
  pose proof (alloc_v2_pieces _ _ _ _ _ Hdom Hn Hn' Ha) as Hpieces.
  assert (Hle : forall e, In e (ss_ent_tab ss) -> zsum (map (zoverlap q) (de_bb_tab e)) < 2 ^ 63).
  { intros e Hin. pose proof (zsum_member_le (fun e => zsum (map (zoverlap q) (de_bb_tab e)))
      (ss_ent_tab ss) e ltac:(intros; apply zsum_map_nonneg; intros; apply zoverlap_nonneg) Hin) as L.
    fold (ents_sum (zoverlap q) (ss_ent_tab ss)) in L. cbn beta in L.
    pose proof (zoverlap_le q dom ltac:(congruence) Hv). lia. }
  unfold ents_sum. rewrite <- Hlen, <- (map_nth_seq _ (ss_ent_tab ss) (zero_place 0)).
  apply zsum_map_ext. intros r Hr%in_seq. unfold ssh_hash_elem_count_v2.
  change (ent_self (ssd_init ss r)) with (nth r (ss_ent_tab ss) (zero_place 0)).
  assert (Hin : In (nth r (ss_ent_tab ss) (zero_place 0)) (ss_ent_tab ss)) by (apply nth_In; lia).
  rewrite (fold_elem_count (num_dims dom)); [lia| |done|done|lia| |lia];
    [by apply Forall_forall; intros b Hb; eapply Hpieces|].
  specialize (Hle _ Hin). lia.
Qed.

Lemma ssh_hash_elem_count_v2_sum_witness :
  exists ss, ssd_alloc_v2 7 (box2 0 0 7 4) 3 0 = Some ss /\
  zsum (map (fun r => ssh_hash_elem_count_v2 (ssd_init ss r) (box2 3 2 9 6)) (seq 0 3)) = 15.
Proof.
  destruct (ssd_alloc_v2 7 (box2 0 0 7 4) 3 0) as [ss|] eqn:E.
  - exists ss. split; [reflexivity|].
    rewrite (ssh_hash_elem_count_v2_sum 7 (box2 0 0 7 4) 3 0 ss (box2 3 2 9 6));
      [vm_compute; reflexivity|apply box2_domain_ok; lia|lia|lia|exact E| |reflexivity|vm_compute; reflexivity].
    apply box2_domain_ok; lia.
  - vm_compute in E. discriminate E.
Defined.

(** C19: With a cache filled by lookups in the same space, [ssd_hash_v2]
    returns exactly the servers that hold a box meeting the query, whether
    it hits or misses the cache, and leaves a cache of the same kind; every
    point shared by the query and the domain belongs to a returned server. *)
Theorem ssd_hash_v2_complete id dom n dim0 ss c bb :
  domain_ok dom -> (0 < n)%nat -> Z.of_nat n <= 2 ^ 63 ->
  ssd_alloc_v2 id dom n dim0 = Some ss -> cache_ok ss c ->
  let '(de_tab, c') := ssd_hash_v2 ss bb c in
  cache_ok ss c' /\
  (forall p, In p de_tab <-> ptr_ss p = id /\ exists e, ss_ent_tab ss !! ptr_ent p = Some e /\
      Exists (fun b => bbox_does_intersect bb b = true) (de_bb_tab e)) /\
  (valid_box bb -> num_dims bb = num_dims dom -> forall x, in_box x bb -> in_box x dom ->
     exists r e, In (mkPtr id r) de_tab /\ ss_ent_tab ss !! r = Some e /\
       Exists (in_box x) (de_bb_tab e)).
Proof.
  intros Hdom Hn Hn' Ha Hc.
  destruct (ssd_alloc_v2_spec id dom n dim0 Hdom Hn Hn')
    as (ss' & j & bs & E & Hid & _ & _ & He & _ & _ & Hm).
  rewrite Ha in E. injection E as <-.
  destruct (ssd_hash_v2_ok ss bb c Hc) as [Hr Hc'].
  destruct (ssd_hash_v2 ss bb c) as [tab c'] eqn:Eh. simpl in Hr, Hc'. subst tab.
  assert (Hspec : forall p, In p (select_ents (place_hit_v2 bb) ss) <->
    ptr_ss p = id /\ exists e, ss_ent_tab ss !! ptr_ent p = Some e /\
      Exists (fun b => bbox_does_intersect bb b = true) (de_bb_tab e)).
  { intros p. rewrite elem_of_select_ents, Hid. setoid_rewrite Exists_exists.
    unfold place_hit_v2. setoid_rewrite existsb_exists. setoid_rewrite list_elem_of_In. done. }
  split; [done|]. split; [done|]. intros Hv Hnd x Hx Hxd.
  destruct (alloc_v2_cover _ _ _ _ _ Hdom Hn Hn' Ha x Hxd) as (r & e & _ & Hr & b & Hb & Hxb & Hnb).
  exists r, e. split; [|split; [done|apply Exists_exists; eauto]]. apply elem_of_select_ents.
  split; [done|]. exists e. split; [done|]. apply (place_hit_v2_point bb e b x); [congruence|done..].
Qed.

Lemma ssd_hash_v2_complete_witness :
  exists ss, ssd_alloc_v2 7 (box2 0 0 7 4) 3 0 = Some ss /\
    map ptr_ent (fst (ssd_hash_v2 ss (box2 6 3 9 6) [])) = [0]%nat /\
    exists r e, In (mkPtr 7 r) (fst (ssd_hash_v2 ss (box2 6 3 9 6) [])) /\
      ss_ent_tab ss !! r = Some e /\ Exists (in_box [7; 4]) (de_bb_tab e).
Proof.
  destruct (ssd_alloc_v2 7 (box2 0 0 7 4) 3 0) as [ss|] eqn:E.
  - exists ss. split; [reflexivity|]. split.
    + vm_compute in E. injection E as <-. vm_compute. reflexivity.
    + assert (Hd : domain_ok (box2 0 0 7 4)) by (apply box2_domain_ok; lia).
      assert (Hq : valid_box (box2 6 3 9 6)) by (apply box2_domain_ok; lia).
      pose proof (ssd_hash_v2_complete 7 (box2 0 0 7 4) 3 0 ss [] (box2 6 3 9 6) Hd
        ltac:(lia) ltac:(lia) E (Forall_nil_2 _)) as H.
      destruct (ssd_hash_v2 ss (box2 6 3 9 6) []) as [tab c'].
      destruct H as (_ & _ & H). apply (H Hq eq_refl [7; 4]).
      * apply in_boxb_spec. vm_compute. reflexivity.
      * apply in_boxb_spec. vm_compute. reflexivity.
  - vm_compute in E. discriminate E.
Defined.

Lemma bbox_equals_refl b : bbox_equals b b = true.
Proof. apply bbox_equals_spec. done. Qed.

Lemma sh_find_add bb tab c : sh_find bb c = None -> sh_find bb (sh_add bb tab c) = Some tab.
Proof.
  unfold sh_add. induction c as [|[b t] c IH]; simpl; intros H.
  - by rewrite bbox_equals_refl.
  - destruct (bbox_equals bb b); [done|by apply IH].
Qed.

(** The cache is keyed by the box alone: after a lookup in one space,
    the same lookup in any other space of the process returns the entries of
    the first space. *)
Theorem ssd_hash_cache_crosses_spaces ss1 ss2 bb c :
  sh_find bb c = None -> fst (ssd_hash_v2 ss1 bb c) <> [] ->
  fst (ssd_hash_v2 ss2 bb (snd (ssd_hash_v2 ss1 bb c))) = fst (ssd_hash_v2 ss1 bb c).
Proof.
  intros Hf Hne. unfold ssd_hash_v2, cached_hash in *. rewrite Hf in *. simpl in *.
  rewrite sh_find_add by done. destruct (select_ents (place_hit_v2 bb) ss1); done.
Qed.

Lemma ssd_hash_cache_crosses_spaces_witness :
  exists ss1 ss2, ssd_alloc_v2 1 (box2 0 0 7 4) 2 0 = Some ss1 /\
    ssd_alloc_v2 2 (box2 0 0 63 63) 4 0 = Some ss2 /\
    let bb := box2 0 0 7 4 in
    let '(tab1, c) := ssd_hash_v2 ss1 bb [] in
    tab1 = [mkPtr 1 0; mkPtr 1 1] /\ fst (ssd_hash_v2 ss2 bb []) = [mkPtr 2 0] /\
    fst (ssd_hash_v2 ss2 bb c) = tab1.
Proof.
  destruct (ssd_alloc_v2 1 (box2 0 0 7 4) 2 0) as [ss1|] eqn:E1; [|vm_compute in E1; discriminate E1].
  destruct (ssd_alloc_v2 2 (box2 0 0 63 63) 4 0) as [ss2|] eqn:E2; [|vm_compute in E2; discriminate E2].
  exists ss1, ss2. split; [reflexivity|]. split; [reflexivity|].
  pose proof (ssd_hash_cache_crosses_spaces ss1 ss2 (box2 0 0 7 4) [] eq_refl) as H.
  vm_compute in E1. injection E1 as <-. vm_compute in E2. injection E2 as <-.
  cbv zeta. split; [vm_compute; reflexivity|]. split; [vm_compute; reflexivity|].
  apply H. vm_compute. discriminate.
Defined.

Lemma next_pow_2_loop_zero fuel n : 0 < n -> next_pow_2_loop fuel n 0 = None.
Proof.
  intros Hn. induction fuel as [|fuel IH]; [done|]. cbn [next_pow_2_loop].
  destruct (Z.ltb_spec 0 n); [|lia]. exact IH.
Qed.

Lemma next_pow_2_loop_big k : forall fuel i n,
  2 ^ 63 < n -> (i + k = 63)%nat -> next_pow_2_loop fuel n (2 ^ Z.of_nat i) = None.
Proof.
  induction k as [|k IH]; intros fuel i n Hn Hk; (destruct fuel as [|fuel]; [done|]);
    cbn [next_pow_2_loop].
  - replace i with 63%nat by lia. change (Z.of_nat 63) with 63.
    destruct (Z.ltb_spec (2 ^ 63) n); [|lia].
    change (u64 (Z.shiftl (2 ^ 63) 1)) with 0. apply next_pow_2_loop_zero. lia.
  - assert (2 ^ Z.of_nat i < 2 ^ 63) by (apply Z.pow_lt_mono_r; lia).
    destruct (Z.ltb_spec (2 ^ Z.of_nat i) n); [|lia].
    rewrite Z.shiftl_mul_pow2 by lia. change (2 ^ 1) with 2. rewrite u64_small by lia.
    replace (2 ^ Z.of_nat i * 2) with (2 ^ Z.of_nat (S i)); [apply IH; lia|].
    rewrite Nat2Z.inj_succ, Z.pow_succ_r by lia. lia.
Qed.

(** [next_pow_2_v2] returns the least power of two not below its
    argument when the argument is at most [2^63]; above that the shifted
    counter wraps to 0 and the loop never ends, however many iterations it
    is given. *)
Theorem next_pow_2_v2_least n :
  0 <= n < 2 ^ 64 ->
  (n <= 2 ^ 63 -> exists j, next_pow_2_v2 n = Some (2 ^ Z.of_nat j) /\
     n <= 2 ^ Z.of_nat j /\ forall i, n <= 2 ^ Z.of_nat i -> (j <= i)%nat) /\
  (2 ^ 63 < n -> forall fuel, next_pow_2_loop fuel n 1 = None).
Proof.
  intros Hn. split.
  - intros Hle. destruct (next_pow_2_spec n ltac:(lia)) as (j & H1 & H2 & H3 & H4).
    exists j. split; [done|]. split; [done|]. intros i Hi.
    destruct (decide (j <= i)%nat); [done|exfalso]. specialize (H4 ltac:(lia)).
    assert (2 ^ Z.of_nat i <= 2 ^ Z.of_nat (j - 1)) by (apply Z.pow_le_mono_r; lia). lia.
  - intros Hgt fuel. apply (next_pow_2_loop_big 63 fuel 0); lia.
Qed.

Lemma next_pow_2_v2_least_witness :
  next_pow_2_v2 5 = Some 8 /\ next_pow_2_loop 1000 (2 ^ 63 + 1) 1 = None.
Proof.
  split.
  - destruct (next_pow_2_v2_least 5 ltac:(lia)) as [H _]. destruct (H ltac:(lia)) as (j & E & _).
    vm_compute. reflexivity.
  - destruct (next_pow_2_v2_least (2 ^ 63 + 1) ltac:(lia)) as [_ H]. apply H. lia.
Defined.
