(* ===== verification/DhtEntry.v ===== *)
(** * DhtEntry: one server's part of the distributed index

    The [dht_*] functions of [src/src/ss_data.c]: the hash bins of object
    descriptors by version, insertion with overwriting, exact and
    intersection lookup, and the subscriptions that make a query wait until
    enough elements have been published.  A descriptor cell of the heap has
    an identity ([cell] number), because results and subscriptions hold
    pointers to cells that later insertions overwrite.  [dht_add_entry] and
    the local part of [dht_find_entry_all] run under the bin's mutex and are
    one step each; a waiter resumes in a step of its own ([DhtWait] has the
    threads that sleep until the bin's condition is broadcast). *)

From S2P Require Import Prelude BBox ObjDesc Linear Sspace.

(** ** Interface: counting the elements a server owns *)

(** What the index calls: [ssh_hash_elem_count] of its shared space. *)
Class ElemCount := ec_count : bbox -> Z.

(** What [ssh_hash_elem_count] promises to the index: on boxes of the space's
    dimensionality it counts the points this server is responsible for. *)
Class ElemCounter := {
  ec_elem_count :: ElemCount;
  ec_dims : nat;
  ec_owned : coord -> bool;
  ec_spec : forall b, valid_box b -> num_dims b = ec_dims -> zvolume b < 2 ^ 63 ->
    ec_count b = Z.of_nat (length (List.filter ec_owned (box_points b)))
}.

(** ** State *)

(** [struct dht_sub_list_entry]; [s_id] identifies the waiting call whose
    stack holds it. *)
Record dht_sub := mkSub {
  s_id : nat;
  s_odsc : obj_descriptor;
  s_remaining : Z;
  s_pub_count : Z;
  s_recv : list nat
}.

(** [struct dht_entry]: bins of (cell, descriptor), head of the list first.
    [d_done] holds the subscriptions [dht_add_entry] has unlinked and whose
    waiters have not resumed yet. *)
Record dht_entry := mkDht {
  odsc_size : Z;
  odsc_num : Z;
  odsc_hash : list (list (nat * obj_descriptor));
  dht_subs : list (list dht_sub);
  d_done : list dht_sub;
  d_next : nat
}.

(** [dht_entry_alloc] (the index part of the structure). *)
Definition dht_entry_alloc (size_hash : Z) : dht_entry :=
  mkDht size_hash 0 (replicate (Z.to_nat size_hash) []) (replicate (Z.to_nat size_hash) []) [] 0.

(** [odsc->version % de->odsc_size]. *)
Definition bin_of (de : dht_entry) (o : obj_descriptor) : nat :=
  Z.to_nat (od_version o mod odsc_size de).

Definition bin (de : dht_entry) (n : nat) : list (nat * obj_descriptor) := nth n (odsc_hash de) [].
Definition subs_bin (de : dht_entry) (n : nat) : list dht_sub := nth n (dht_subs de) [].

(** ** Lookup *)

Definition dht_find_match (de : dht_entry) (odsc : obj_descriptor) : option (nat * obj_descriptor) :=
  if od_version odsc =? 2 ^ 32 - 1 then None
  else find (fun c => obj_desc_by_name_intersect odsc (snd c)) (bin de (bin_of de odsc)).

Definition dht_find_exact (de : dht_entry) (odsc : obj_descriptor) : option (nat * obj_descriptor) :=
  find (fun c => obj_desc_equals_no_owner odsc (snd c)) (bin de (bin_of de odsc)).

(** Replace the contents of a cell of a bin. *)
Definition set_cell (cell : nat) (f : obj_descriptor -> obj_descriptor)
    (l : list (nat * obj_descriptor)) : list (nat * obj_descriptor) :=
  map (fun c => if (fst c =? cell)%nat then (fst c, f (snd c)) else c) l.

Definition set_hash (n : nat) (f : list (nat * obj_descriptor) -> list (nat * obj_descriptor))
    (de : dht_entry) : dht_entry :=
  mkDht (odsc_size de) (odsc_num de) (alter f n (odsc_hash de)) (dht_subs de) (d_done de) (d_next de).

(** [-ENOENT] and [0] are the results. *)
Definition ENOENT : Z := 2.

Definition dht_update_owner (de : dht_entry) (odsc : obj_descriptor) (clear_flag : bool)
  : dht_entry * Z :=
  match dht_find_exact de odsc with
  | None => (de, - ENOENT)
  | Some (cell, _) =>
      let f o := let o := set_owner (od_owner odsc) o in
                 if clear_flag then set_flags (Z.land (od_flags o) (Z.lnot DS_CLIENT_STORAGE)) o
                 else o in
      (set_hash (bin_of de odsc) (set_cell cell f) de, 0)
  end.

(** ** Insertion *)

(** The loop over the subscriptions of the bin: the ones kept and the ones
    that reached 0 and were unlinked. *)
Definition sub_matches (odsc : obj_descriptor) (sub : dht_sub) : bool :=
  bbox_does_intersect (od_bb odsc) (od_bb (s_odsc sub))
  && String.eqb (od_name odsc) (od_name (s_odsc sub))
  && (od_version odsc =? od_version (s_odsc sub)).

Definition sub_publish `{EC : ElemCount} (cell : nat) (odsc : obj_descriptor) (sub : dht_sub) : dht_sub :=
  let isect := bbox_intersect (od_bb odsc) (od_bb (s_odsc sub)) zero_bbox in
  mkSub (s_id sub) (s_odsc sub) (i64 (s_remaining sub - ec_count isect))
    (s_pub_count sub + 1) (cell :: s_recv sub).

Fixpoint publish `{EC : ElemCount} (cell : nat) (odsc : obj_descriptor) (subs : list dht_sub)
  : list dht_sub * list dht_sub :=
  match subs with
  | [] => ([], [])
  | sub :: subs' =>
      let '(kept, done) := publish cell odsc subs' in
      if sub_matches odsc sub then
        let sub := sub_publish cell odsc sub in
        if s_remaining sub =? 0 then (kept, sub :: done) else (sub :: kept, done)
      else (sub :: kept, done)
  end.

(** The new state and whether the bin's condition was broadcast. *)
Definition dht_add_entry `{EC : ElemCount} (de : dht_entry) (odsc : obj_descriptor)
  : dht_entry * bool :=
  let n := bin_of de odsc in
  let '(hash, num, cell, next) :=
    match dht_find_match de odsc with
    | Some (cell, _) =>
        (alter (set_cell cell (fun _ => odsc)) n (odsc_hash de), odsc_num de, cell, d_next de)
    | None =>
        (alter (cons (d_next de, odsc)) n (odsc_hash de), odsc_num de + 1, d_next de, S (d_next de))
    end in
  let '(kept, done) := publish cell odsc (subs_bin de n) in
  (mkDht (odsc_size de) num hash (alter (fun _ => kept) n (dht_subs de)) (done ++ d_done de) next,
   match done with [] => false | _ => true end).

(** ** Query *)

(** The scan of a bin: cells found and elements still missing. *)
Fixpoint scan_bin `{EC : ElemCount} (q_odsc : obj_descriptor) (l : list (nat * obj_descriptor))
    (tab : list nat) (num_elem : Z) : list nat * Z :=
  match l with
  | [] => (tab, num_elem)
  | (cell, o) :: l' =>
      if obj_desc_equals_intersect o q_odsc then
        let isect := bbox_intersect (od_bb q_odsc) (od_bb o) zero_bbox in
        scan_bin q_odsc l' (tab ++ [cell]) (i64 (num_elem - ec_count isect))
      else scan_bin q_odsc l' tab num_elem
  end.

(** The call returns a table, or waits with a subscription. *)
Inductive find_result :=
| FR_done (odsc_tab : list nat)
| FR_wait (odsc_tab : list nat) (sub : nat).

(** [id] is the identity of the calling thread; [sub] is
    [timeout == -1 && de == de->ss->ent_self]. *)
Definition dht_find_entry_all `{EC : ElemCount} (de : dht_entry) (q_odsc : obj_descriptor)
    (sub : bool) (id : nat) : dht_entry * find_result :=
  let n := bin_of de q_odsc in
  let '(tab, num_elem) := scan_bin q_odsc (bin de n) [] (ec_count (od_bb q_odsc)) in
  if sub then
    if 0 <? num_elem then
      (mkDht (odsc_size de) (odsc_num de) (odsc_hash de)
         (alter (cons (mkSub id q_odsc num_elem 0 [])) n (dht_subs de)) (d_done de) (d_next de),
       FR_wait tab id)
    else (de, FR_done tab)
  else if 0 <? num_elem then (de, FR_done []) else (de, FR_done tab).

(** A waiter of [dht_local_subscribe] woken by a broadcast: it goes on when
    its [remaining] is not positive, with the cells received appended. *)
Definition dht_sub_resume (de : dht_entry) (n : nat) (id : nat) (tab : list nat)
  : option (dht_entry * list nat) :=
  match find (fun s => (s_id s =? id)%nat) (d_done de ++ subs_bin de n) with
  | Some s =>
      if 0 <? s_remaining s then None
      else Some (mkDht (odsc_size de) (odsc_num de) (odsc_hash de) (dht_subs de)
                   (List.filter (fun s => negb (s_id s =? id)%nat) (d_done de)) (d_next de),
                 tab ++ s_recv s)
  | None => None
  end.

(** First match of every bin, in bin order. *)
Definition dht_find_versions (de : dht_entry) (q_odsc : obj_descriptor) : list Z :=
  flat_map (fun l =>
      match find (fun c => obj_desc_by_name_intersect (snd c) q_odsc) l with
      | Some c => [od_version (snd c)]
      | None => []
      end) (odsc_hash de).

(** ** Invariant *)

Definition cells (de : dht_entry) : list (nat * obj_descriptor) := concat (odsc_hash de).

(** Bins hold descriptors of their version class, cells are distinct and
    allocated, and the counter is the number of cells. *)
Record dht_inv (de : dht_entry) : Prop := {
  inv_size : 0 < odsc_size de;
  inv_hash : length (odsc_hash de) = Z.to_nat (odsc_size de);
  inv_subs : length (dht_subs de) = Z.to_nat (odsc_size de);
  inv_bins : forall n c, In c (bin de n) -> bin_of de (snd c) = n;
  inv_num : odsc_num de = Z.of_nat (length (cells de));
  inv_cells : NoDup (map fst (cells de));
  inv_next : Forall (fun c => (fst c < d_next de)%nat) (cells de)
}.

Lemma dht_inv_alloc s : 0 < s -> dht_inv (dht_entry_alloc s).
Proof.
  intros Hs. split; unfold cells, bin; cbn [dht_entry_alloc odsc_size odsc_num odsc_hash dht_subs];
    rewrite ?length_replicate, ?concat_replicate_nil; try done; try constructor.
  intros n c. by rewrite nth_replicate_same.
Qed.

Lemma bin_of_lt de o : dht_inv de -> (bin_of de o < length (odsc_hash de))%nat.
Proof.
  intros Hi. destruct Hi. unfold bin_of. rewrite inv_hash0.
  pose proof (Z.mod_pos_bound (od_version o) (odsc_size de) inv_size0). lia.
Qed.

Lemma map_fst_set_cell cell f l : map fst (set_cell cell f l) = map fst l.
Proof.
  unfold set_cell. rewrite map_map. apply map_ext. intros [c o]. simpl. by destruct (c =? cell)%nat.
Qed.

Lemma set_cell_in cell f l c :
  In c (set_cell cell f l) <->
  (In c l /\ fst c <> cell) \/ (fst c = cell /\ exists o, In (cell, o) l /\ snd c = f o).
Proof.
  unfold set_cell. rewrite in_map_iff. split.
  - intros ([c' o] & <- & Hin). simpl. destruct (Nat.eqb_spec c' cell) as [->|Hne]; simpl.
    + right. split; [done|]. eauto.
    + left. done.
  - intros [[Hin Hne]|(Hc & o & Hin & Ho)].
    + exists c. split; [|done]. by destruct (Nat.eqb_spec (fst c) cell).
    + exists (cell, o). simpl. rewrite Nat.eqb_refl. split; [|done]. destruct c. simpl in *. congruence.
Qed.

(** The invariant under replacing the bins: any change that keeps the bins'
    version classes and accounts for its cells. *)
Lemma dht_inv_set de num hash subs done next :
  dht_inv de -> length hash = length (odsc_hash de) -> length subs = length (dht_subs de) ->
  (forall n c, In c (nth n hash []) -> bin_of de (snd c) = n) ->
  num = Z.of_nat (length (concat hash)) -> NoDup (map fst (concat hash)) ->
  Forall (fun c => (fst c < next)%nat) (concat hash) ->
  dht_inv (mkDht (odsc_size de) num hash subs done next).
Proof.
  intros [] Hh Hs Hb Hn Hd Hx. split; unfold cells, bin; simpl; try done; congruence.
Qed.

Lemma dht_find_match_some de o cell o' :
  dht_find_match de o = Some (cell, o') ->
  In (cell, o') (bin de (bin_of de o)) /\ obj_desc_by_name_intersect o o' = true.
Proof.
  unfold dht_find_match. destruct (_ =? _); [done|]. intros H. by apply find_some in H.
Qed.

Lemma dht_add_entry_inv_aux `{EC : ElemCount} de o :
  dht_inv de -> dht_inv (fst (dht_add_entry de o)).
Proof.
  intros Hi. pose proof (bin_of_lt de o Hi) as Hlt. unfold dht_add_entry.
  destruct (dht_find_match de o) as [[cell o']|] eqn:Em;
    destruct (publish _ _ _) as [kept done]; cbn [fst].
  - apply dht_find_match_some in Em as [Hin _].
    destruct (concat_alter_split (set_cell cell (fun _ => o)) _ _ Hlt) as (l1 & l2 & E1 & E2).
    assert (Hfst : map fst (concat (alter (set_cell cell (fun _ => o)) (bin_of de o) (odsc_hash de)))
                   = map fst (cells de)).
    { unfold cells. rewrite E1, E2, !map_app. by rewrite map_fst_set_cell. }
    apply dht_inv_set; [done|by rewrite length_alter|by rewrite length_alter| | | |].
    + intros n c. rewrite nth_alter. case_decide as Hn.
      * intros [[Hc _]|(_ & ? & _ & ->)]%set_cell_in; [|by destruct Hn].
        destruct Hn as [-> _]. by apply Hi.
      * by apply (inv_bins _ Hi).
    + rewrite (inv_num _ Hi). f_equal. apply (f_equal length) in Hfst. by rewrite !length_map in Hfst.
    + rewrite Hfst. apply Hi.
    + pose proof (inv_next _ Hi) as Hnx.
      apply (List.Forall_map fst (fun x => (x < d_next de)%nat)). rewrite Hfst.
      by apply (List.Forall_map fst (fun x => (x < d_next de)%nat)).
  - destruct (concat_alter_split (cons (d_next de, o)) _ _ Hlt) as (l1 & l2 & E1 & E2).
    assert (Hp : concat (alter (cons (d_next de, o)) (bin_of de o) (odsc_hash de))
                 ≡ₚ (d_next de, o) :: cells de).
    { unfold cells. rewrite E1, E2. simpl. symmetry. apply Permutation_middle. }
    pose proof (inv_next _ Hi) as Hnx.
    apply dht_inv_set; [done|by rewrite length_alter|by rewrite length_alter| | | |].
    + intros n c. rewrite nth_alter. case_decide as Hn.
      * destruct Hn as [-> _]. intros [<-|Hc]; [done|]. by apply Hi.
      * by apply Hi.
    + rewrite Hp, (inv_num _ Hi). simpl. lia.
    + rewrite Hp. simpl. constructor; [|apply Hi]. intros (c & Hc & Hin)%list_elem_of_fmap.
      rewrite Forall_forall in Hnx. specialize (Hnx _ Hin). lia.
    + rewrite Hp. constructor; [simpl; lia|]. eapply Forall_impl; [exact Hnx|]. simpl. lia.
Qed.

(** A descriptor that overlaps none of its bin takes a fresh cell. *)
(** An insertion brings in no other contents. *)
Lemma cells_add_entry `{EC : ElemCount} de o c :
  In c (cells (fst (dht_add_entry de o))) -> In c (cells de) \/ snd c = o.
Proof.
  unfold dht_add_entry.
  assert (Halt : forall n (f : list (nat * obj_descriptor) -> list (nat * obj_descriptor)),
    (forall l x, In x (f l) -> In x l \/ snd x = o) ->
    In c (concat (alter f n (odsc_hash de))) -> In c (cells de) \/ snd c = o).
  { intros n f Hf (l & (m & Hm)%list_elem_of_In%list_elem_of_lookup & Hc)%in_concat.
    assert (Hin : forall l', odsc_hash de !! m = Some l' -> In c l' -> In c (cells de)).
    { intros l' Hl' Hc'. apply in_concat. exists l'. split; [|done]. apply list_elem_of_In. by eapply list_elem_of_lookup_2. }
    rewrite list_lookup_alter in Hm. case_decide; [|left; by apply (Hin l)].
    apply fmap_Some in Hm as (l' & El & ->). subst m.
    destruct (Hf l' c Hc) as [?|?]; [left; by apply (Hin l')|by right]. }
  destruct (dht_find_match de o) as [[cell x]|]; destruct (publish _ _ _) as [kept done];
    cbn [fst cells odsc_hash]; apply Halt.
  - intros l y (z & <- & Hz)%in_map_iff. destruct (fst z =? cell)%nat; [by right|by left].
  - intros l y [<-|Hy]; [by right|by left].
Qed.

Lemma cells_add_new `{EC : ElemCount} de o :
  dht_inv de -> dht_find_match de o = None ->
  cells (fst (dht_add_entry de o)) ≡ₚ (d_next de, o) :: cells de.
Proof.
  intros Hi Em. pose proof (bin_of_lt de o Hi) as Hlt. unfold dht_add_entry. rewrite Em.
  destruct (publish _ _ _) as [kept done]. unfold cells. cbn [fst odsc_hash].
  destruct (concat_alter_split (cons (d_next de, o)) _ _ Hlt) as (l1 & l2 & E1 & E2).
  rewrite E1, E2. simpl. symmetry. apply Permutation_middle.
Qed.

(** What [dht_update_owner] does to the descriptor it finds. *)
Definition new_owner (odsc : obj_descriptor) (clear_flag : bool) (o : obj_descriptor) : obj_descriptor :=
  let o := set_owner (od_owner odsc) o in
  if clear_flag then set_flags (Z.land (od_flags o) (Z.lnot DS_CLIENT_STORAGE)) o else o.

Lemma new_owner_bin de odsc clear o : bin_of de (new_owner odsc clear o) = bin_of de o.
Proof. unfold new_owner, bin_of. by destruct clear. Qed.

(** Changing the contents of a cell within its version class. *)
Lemma set_cell_hash_inv de n cell f :
  dht_inv de -> (n < length (odsc_hash de))%nat -> (forall o, bin_of de (f o) = bin_of de o) ->
  dht_inv (set_hash n (set_cell cell f) de) /\
  map fst (cells (set_hash n (set_cell cell f) de)) = map fst (cells de).
Proof.
  intros Hi Hlt Hf. destruct (concat_alter_split (set_cell cell f) _ _ Hlt) as (l1 & l2 & E1 & E2).
  assert (Hfst : map fst (concat (alter (set_cell cell f) n (odsc_hash de))) = map fst (cells de)).
  { unfold cells. rewrite E1, E2, !map_app. by rewrite map_fst_set_cell. }
  split; [|exact Hfst]. unfold set_hash.
  apply dht_inv_set; [done|by rewrite length_alter|done| | | |].
  + intros m c. rewrite nth_alter. case_decide as Hn; [|by apply (inv_bins _ Hi)].
    destruct Hn as [-> _]. intros [[Hc _]|(_ & x & Hx & Hcx)]%set_cell_in; [by apply (inv_bins _ Hi)|].
    rewrite <- (inv_bins _ Hi _ _ Hx). by rewrite Hcx, Hf.
  + rewrite (inv_num _ Hi). f_equal. apply (f_equal length) in Hfst. by rewrite !length_map in Hfst.
  + rewrite Hfst. apply Hi.
  + apply (List.Forall_map fst (fun x => (x < d_next de)%nat)). rewrite Hfst.
    apply (List.Forall_map fst (fun x => (x < d_next de)%nat)), Hi.
Qed.

Lemma dht_update_owner_eq de o clear :
  fst (dht_update_owner de o clear) =
  match dht_find_exact de o with
  | None => de
  | Some (cell, _) => set_hash (bin_of de o) (set_cell cell (new_owner o clear)) de
  end.
Proof. unfold dht_update_owner. by destruct (dht_find_exact de o) as [[cell x]|]. Qed.

Lemma dht_update_owner_inv_aux de o clear : dht_inv de -> dht_inv (fst (dht_update_owner de o clear)).
Proof.
  intros Hi. rewrite dht_update_owner_eq. destruct (dht_find_exact de o) as [[cell x]|]; [|done].
  apply set_cell_hash_inv; [done|by apply bin_of_lt|]. intros y. apply new_owner_bin.
Qed.

(** ** Insertion and lookup: lemmas *)

Lemma bin_of_set de num hash subs done next o :
  bin_of (mkDht (odsc_size de) num hash subs done next) o = bin_of de o.
Proof. done. Qed.

Lemma name_intersect_refl o : valid_box (od_bb o) -> obj_desc_by_name_intersect o o = true.
Proof.
  intros Hv. apply obj_desc_by_name_intersect_spec. split; [done|].
  apply does_intersect_common; [done..|]. exists (lb (od_bb o)). split; by apply in_box_lb.
Qed.

(** The bin of [o] after inserting it. *)
Definition bin_after (de : dht_entry) (o : obj_descriptor) : list (nat * obj_descriptor) :=
  match dht_find_match de o with
  | Some (cell, _) => set_cell cell (fun _ => o) (bin de (bin_of de o))
  | None => (d_next de, o) :: bin de (bin_of de o)
  end.

Lemma bin_add_entry `{EC : ElemCount} de o m :
  dht_inv de ->
  bin (fst (dht_add_entry de o)) m = if decide (m = bin_of de o) then bin_after de o else bin de m.
Proof.
  intros Hi. pose proof (bin_of_lt de o Hi) as Hlt. unfold dht_add_entry, bin_after, bin.
  destruct (dht_find_match de o) as [[cell o']|]; destruct (publish _ _ _);
    cbn [fst odsc_hash]; rewrite nth_alter; repeat case_decide; done || tauto.
Qed.

Lemma size_add_entry `{EC : ElemCount} de o : odsc_size (fst (dht_add_entry de o)) = odsc_size de.
Proof.
  unfold dht_add_entry. destruct (dht_find_match de o) as [[??]|]; by destruct (publish _ _ _).
Qed.

(** ** Counting uncovered elements *)

(** Points of [q] this server owns and no box of [l] contains. *)
Definition uncovered `{EC : ElemCounter} (q : bbox) (l : list bbox) : list (list Z) :=
  List.filter (fun p => ec_owned p && negb (existsb (in_boxb p) l)) (box_points q).

Lemma length_filter_perm {A} (f : A -> bool) l1 l2 :
  l1 ≡ₚ l2 -> length (List.filter f l1) = length (List.filter f l2).
Proof.
  induction 1 as [|x l1 l2 _ IH|x y l|l1 l2 l3 _ IH1 _ IH2]; simpl; [done| | |congruence].
  - destruct (f x); simpl; congruence.
  - destruct (f x), (f y); done.
Qed.

Lemma owned_intersect `{EC : ElemCounter} q e f :
  wf_box q -> num_dims e = num_dims q ->
  length (List.filter f (box_points (bbox_intersect q e zero_bbox)))
  = length (List.filter (fun p => f p && in_boxb p e) (box_points q)).
Proof.
  intros Hq Hd.
  assert (Hp : box_points (bbox_intersect q e zero_bbox) ≡ₚ List.filter (fun p => in_boxb p e) (box_points q)).
  { apply NoDup_Permutation.
    - apply NoDup_points_of.
    - apply NoDup_ListNoDup, List.NoDup_filter, NoDup_ListNoDup, NoDup_points_of.
    - intros p. rewrite !list_elem_of_In, filter_In, !elem_of_box_points, in_boxb_spec.
      rewrite in_box_intersect by auto with dspaces. simpl. tauto. }
  rewrite (length_filter_perm _ _ _ Hp). clear Hp.
  induction (box_points q) as [|p l IH]; simpl; [done|].
  destruct (in_boxb p e); simpl; [|by rewrite andb_false_r, IH].
  rewrite andb_true_r. destruct (f p); simpl; by rewrite IH.
Qed.

Lemma existsb_in_boxb p l : existsb (in_boxb p) l = true <-> Exists (in_box p) l.
Proof.
  rewrite existsb_exists, Exists_exists. setoid_rewrite list_elem_of_In.
  setoid_rewrite in_boxb_spec. done.
Qed.

Lemma zvolume_nonneg b : valid_box b -> 0 <= zvolume b.
Proof. intros Hv. rewrite zvolume_points by done. lia. Qed.

(** One more box, disjoint from the others inside [q], covers as many points
    as the counter counts in its intersection with [q]. *)
Lemma uncovered_step `{EC : ElemCounter} q e l :
  valid_box q -> valid_box e -> num_dims q = ec_dims -> num_dims e = ec_dims ->
  zvolume q < 2 ^ 63 -> bbox_does_intersect q e = true ->
  (forall p, in_box p q -> in_box p e -> Exists (in_box p) l -> False) ->
  Z.of_nat (length (uncovered q (e :: l)))
  = Z.of_nat (length (uncovered q l)) - ec_count (bbox_intersect q e zero_bbox).
Proof.
  intros Hq He Hdq Hde Hvol Hint Hdisj.
  assert (Hn : num_dims e = num_dims q) by congruence.
  assert (Hvi : valid_box (bbox_intersect q e zero_bbox)).
  { split; [apply wf_bbox_intersect; [apply Hq|apply He|apply wf_zero_bbox]|].
    intros i Hi. cbn [num_dims bbox_intersect] in Hi.
    rewrite lb_intersect, ub_intersect by (auto with dspaces; apply Hq).
    unfold bbox_does_intersect in Hint. rewrite for_all_true in Hint. specialize (Hint i Hi).
    apply bbox_intersect_ondim_spec in Hint. destruct Hq as [_ Hq], He as [_ He].
    specialize (Hq i Hi). specialize (He i ltac:(lia)). lia. }
  rewrite ec_spec; [|done|done|].
  - rewrite owned_intersect by (done || apply Hq). unfold uncovered.
    pose proof (filter_cover_step ec_owned (fun p => in_boxb p e) (fun p => existsb (in_boxb p) l)
      (box_points q)) as Hc. cbn [existsb]. unfold coord in *. rewrite <- Hc; [lia|].
    intros p [_ Hp]%elem_of_box_points _ E. apply not_true_is_false. intros E2.
    apply in_boxb_spec in E. apply existsb_in_boxb in E2. by eapply Hdisj.
  - assert (zvolume (bbox_intersect q e zero_bbox) <= zvolume q); [|lia].
    unfold zvolume. apply zprod_mono. intros i Hi. cbn [num_dims bbox_intersect] in Hi.
    unfold side. rewrite lb_intersect, ub_intersect by (auto with dspaces; apply Hq).
    destruct Hvi as [_ Hvi]. specialize (Hvi i Hi).
    rewrite lb_intersect, ub_intersect in Hvi by (auto with dspaces; apply Hq). lia.
Qed.

Lemma uncovered_nil `{EC : ElemCounter} q : uncovered q [] = List.filter ec_owned (box_points q).
Proof. apply filter_ext. intros p. apply andb_true_r. Qed.

Lemma length_uncovered_zero `{EC : ElemCounter} q l :
  length (uncovered q l) = 0%nat <->
  forall p, In p (box_points q) -> ec_owned p = true -> Exists (in_box p) l.
Proof.
  unfold uncovered. rewrite filter_zero_length. split; intros Hu p Hp.
  - intros Ho. specialize (Hu p Hp). rewrite Ho in Hu. simpl in Hu.
    apply negb_false_iff, existsb_in_boxb in Hu. done.
  - destruct (ec_owned p) eqn:Ho; [|done]. simpl. apply negb_false_iff, existsb_in_boxb. auto.
Qed.

Lemma length_uncovered_le `{EC : ElemCounter} q l :
  valid_box q -> Z.of_nat (length (uncovered q l)) <= zvolume q.
Proof.
  intros Hv. rewrite zvolume_points by done. unfold uncovered.
  pose proof (filter_length_le (fun p => ec_owned p && negb (existsb (in_boxb p) l)) (box_points q)) as Hl.
  unfold coord in *. lia.
Qed.

(** ** The scan of a bin *)

Definition disjoint_boxes (l : list bbox) : Prop := forall p, (count_boxes p l <= 1)%nat.

Lemma count_boxes_pos p l : (0 < count_boxes p l)%nat <-> Exists (in_box p) l.
Proof.
  induction l as [|b l IH].
  - rewrite count_boxes_nil, Exists_nil. lia.
  - rewrite count_boxes_cons, Exists_cons, <- IH. case_decide; intuition lia.
Qed.

(** Cells of a list whose descriptors answer the query. *)
Definition matching (q_odsc : obj_descriptor) (l : list (nat * obj_descriptor)) :=
  List.filter (fun c => obj_desc_equals_intersect (snd c) q_odsc) l.

Definition cell_boxes (l : list (nat * obj_descriptor)) : list bbox := map (fun c => od_bb (snd c)) l.

(** The query and the matching boxes live in the counter's space. *)
Definition queryable `{EC : ElemCounter} (q : bbox) : Prop :=
  valid_box q /\ num_dims q = ec_dims /\ zvolume q < 2 ^ 63.
Definition countable_box `{EC : ElemCounter} (b : bbox) : Prop := valid_box b /\ num_dims b = ec_dims.

Lemma does_intersect_comm b0 b1 :
  valid_box b0 -> valid_box b1 -> num_dims b1 = num_dims b0 ->
  bbox_does_intersect b1 b0 = bbox_does_intersect b0 b1.
Proof.
  intros H0 H1 Hd. apply eq_true_iff_eq. rewrite !does_intersect_common by done.
  split; intros (p & ? & ?); eauto.
Qed.

Lemma uncovered_take `{EC : ElemCounter} q e cov m :
  queryable q -> countable_box e -> bbox_does_intersect q e = true ->
  disjoint_boxes (e :: cov) -> m = Z.of_nat (length (uncovered q cov)) ->
  i64 (m - ec_count (bbox_intersect q e zero_bbox)) = Z.of_nat (length (uncovered q (e :: cov))).
Proof.
  intros (Hq & Hdq & Hvol) (He & Hde) Hint Hdis ->.
  rewrite <- uncovered_step; [|done..|].
  - pose proof (length_uncovered_le q (e :: cov) Hq). apply i64_small. lia.
  - intros p _ Hpe Hpc. specialize (Hdis p). rewrite count_boxes_cons in Hdis.
    apply count_boxes_pos in Hpc. case_decide; [lia|done].
Qed.

Lemma disjoint_boxes_perm l1 l2 : l1 ≡ₚ l2 -> disjoint_boxes l1 -> disjoint_boxes l2.
Proof.
  intros Hp Hd p. specialize (Hd p). unfold count_boxes in *. by rewrite <- Hp.
Qed.

Lemma scan_bin_spec `{EC : ElemCounter} q l : forall tab cov m,
  queryable (od_bb q) -> Forall countable_box (cell_boxes (matching q l)) ->
  disjoint_boxes (cell_boxes (matching q l) ++ cov) ->
  m = Z.of_nat (length (uncovered (od_bb q) cov)) ->
  scan_bin q l tab m =
    (tab ++ map fst (matching q l),
     Z.of_nat (length (uncovered (od_bb q) (rev_append (cell_boxes (matching q l)) cov)))).
Proof.
  induction l as [|[cell o] l IH]; intros tab cov m Hq Hc Hd ->; cbn [scan_bin matching List.filter snd].
  { by rewrite app_nil_r. }
  unfold matching in *. cbn [List.filter snd] in Hc, Hd.
  destruct (obj_desc_equals_intersect o q) eqn:E; [|by apply IH].
  cbn [cell_boxes map fst snd] in *. apply Forall_cons in Hc as [Ho Hc].
  apply obj_desc_equals_intersect_spec in E as (_ & _ & E).
  rewrite (uncovered_take (od_bb q) (od_bb o) cov _ Hq Ho); [| | |done].
  - rewrite (IH _ (od_bb o :: cov)); [by rewrite <- app_assoc|done|done| |done].
    eapply disjoint_boxes_perm; [|exact Hd]. apply Permutation_middle.
  - rewrite does_intersect_comm; [done|apply Ho|apply Hq|]. destruct Ho, Hq. intuition congruence.
  - intros p. specialize (Hd p). change (od_bb o :: cov) with ([od_bb o] ++ cov).
    cbn [app] in Hd. rewrite count_boxes_cons, count_boxes_app in Hd.
    rewrite count_boxes_app, count_boxes_cons, count_boxes_nil. lia.
Qed.

(** ** Exact lookup after an insertion *)

Lemma find_set_cell (f g : obj_descriptor -> bool) l cell o o1 :
  find (fun c => g (snd c)) l = Some (cell, o1) ->
  (forall x, g x = false -> f x = false) -> f o = true ->
  find (fun c => f (snd c)) (set_cell cell (fun _ => o) l) = Some (cell, o).
Proof.
  intros Hf Hgf Ho. induction l as [|[c x] l IH]; [done|].
  cbn [find snd] in Hf. unfold set_cell. cbn [map fst snd].
  destruct (Nat.eqb_spec c cell) as [->|Hne]; cbn [find snd]; [by rewrite Ho|].
  destruct (g x) eqn:Eg; [congruence|]. rewrite (Hgf x Eg). by apply IH.
Qed.

Lemma find_set_cell_other (f : obj_descriptor -> bool) l cell o :
  f o = false -> (forall x, In (cell, x) l -> f x = false) ->
  find (fun c => f (snd c)) (set_cell cell (fun _ => o) l) = find (fun c => f (snd c)) l.
Proof.
  intros Ho Hx. induction l as [|[c x] l IH]; [done|].
  unfold set_cell. cbn [map fst snd]. specialize (IH (fun y Hy => Hx y (or_intror Hy))).
  destruct (Nat.eqb_spec c cell) as [->|Hne]; cbn [find snd].
  - rewrite Ho, (Hx x (or_introl eq_refl)). exact IH.
  - destruct (f x); [done|exact IH].
Qed.

Lemma nodup_fst_inj {A} (l : list (nat * A)) c x y :
  NoDup (map fst l) -> In (c, x) l -> In (c, y) l -> x = y.
Proof.
  induction l as [|[c' z] l IH]; simpl; [done|]. intros [Hc Hn]%NoDup_cons Hx Hy.
  assert (Hnot : forall w, In (c', w) l -> False).
  { intros w Hw. apply Hc. apply list_elem_of_In, in_map_iff. by exists (c', w). }
  destruct Hx as [Hx|Hx], Hy as [Hy|Hy]; simplify_eq; try done.
  - by destruct (Hnot y).
  - by destruct (Hnot x).
  - by apply IH.
Qed.

Lemma equals_no_owner_intersect o x :
  valid_box (od_bb o) -> obj_desc_equals_no_owner o x = true ->
  obj_desc_by_name_intersect o x = true.
Proof.
  intros [_ Hv] (_ & Hn & Hb)%obj_desc_equals_no_owner_spec.
  apply obj_desc_by_name_intersect_spec. split; [done|].
  apply bbox_equals_spec in Hb as [Hd Hb]. unfold bbox_does_intersect. apply for_all_true.
  intros i Hi. apply bbox_intersect_ondim_spec. destruct (Hb i Hi) as [<- <-]. specialize (Hv i Hi). lia.
Qed.

Lemma name_intersect_equals o o' x :
  num_dims (od_bb o') = num_dims (od_bb o) -> obj_desc_equals_no_owner o' x = true ->
  obj_desc_by_name_intersect o x = obj_desc_by_name_intersect o o'.
Proof.
  intros Hd (_ & Hn & Hb)%obj_desc_equals_no_owner_spec. unfold obj_desc_by_name_intersect.
  rewrite Hn. f_equal. apply bbox_equals_spec in Hb as [_ Hb].
  apply eq_true_iff_eq. unfold bbox_does_intersect. rewrite !for_all_true. unfold bbox_intersect_ondim.
  split; intros H i Hi; specialize (H i Hi); destruct (Hb i ltac:(lia)) as [E1 E2];
    [by rewrite E1, E2|by rewrite <- E1, <- E2].
Qed.

Lemma equals_no_owner_refl o : obj_desc_equals_no_owner o o = true.
Proof. apply obj_desc_equals_no_owner_spec. split; [done|]. split; [done|]. apply bbox_equals_refl. Qed.

(** ** Subscriptions: lemmas *)

Definition all_subs (de : dht_entry) : list dht_sub := d_done de ++ concat (dht_subs de).

Definition pub `{EC : ElemCount} (cell : nat) (o : obj_descriptor) (s : dht_sub) : dht_sub :=
  if sub_matches o s then sub_publish cell o s else s.

Lemma pub_id `{EC : ElemCount} cell o s : s_id (pub cell o s) = s_id s.
Proof. unfold pub. by destruct (sub_matches o s). Qed.

Lemma publish_spec `{EC : ElemCount} cell o subs :
  let '(kept, done) := publish cell o subs in
  done ++ kept ≡ₚ map (pub cell o) subs /\
  (forall s, In s subs ->
     In (pub cell o s) done /\ sub_matches o s = true /\ s_remaining (pub cell o s) = 0 \/
     In (pub cell o s) kept /\ (sub_matches o s = true -> s_remaining (pub cell o s) <> 0)).
Proof.
  induction subs as [|s subs IH]; [done|]. cbn [publish map].
  destruct (publish cell o subs) as [kept done]. destruct IH as [IH1 IH2].
  assert (Hpub : pub cell o s = if sub_matches o s then sub_publish cell o s else s) by done.
  destruct (sub_matches o s) eqn:E;
    [rewrite <- Hpub; destruct (Z.eqb_spec (s_remaining (pub cell o s)) 0)|].
  - split; [simpl; by rewrite IH1|]. intros x [<-|Hx].
    + left. simpl. auto.
    + destruct (IH2 x Hx) as [(? & ? & ?)|?]; [left; simpl; auto|by right].
  - split; [rewrite <- IH1; symmetry; apply Permutation_middle|]. intros x [<-|Hx].
    + right. simpl. auto.
    + destruct (IH2 x Hx) as [?|(? & ?)]; [by left|right; simpl; auto].
  - rewrite Hpub. split; [rewrite <- IH1; symmetry; apply Permutation_middle|]. intros x [<-|Hx].
    + right. rewrite Hpub. split; [by left|]. intros Ht. congruence.
    + destruct (IH2 x Hx) as [?|(? & ?)]; [by left|right; simpl; auto].
Qed.

Lemma add_entry_subs `{EC : ElemCount} de o :
  dht_inv de -> exists cell kept done,
    publish cell o (subs_bin de (bin_of de o)) = (kept, done) /\
    d_done (fst (dht_add_entry de o)) = done ++ d_done de /\
    (forall m, subs_bin (fst (dht_add_entry de o)) m
               = if decide (m = bin_of de o) then kept else subs_bin de m) /\
    map s_id (all_subs (fst (dht_add_entry de o))) ≡ₚ map s_id (all_subs de).
Proof.
  intros Hi. assert (Hlt : (bin_of de o < length (dht_subs de))%nat).
  { rewrite (inv_subs _ Hi), <- (inv_hash _ Hi). by apply bin_of_lt. }
  assert (Hgen : forall cell, exists kept done,
    publish cell o (subs_bin de (bin_of de o)) = (kept, done) /\
    (forall m, nth m (alter (fun _ => kept) (bin_of de o) (dht_subs de)) []
               = if decide (m = bin_of de o) then kept else subs_bin de m) /\
    map s_id ((done ++ d_done de) ++ concat (alter (fun _ => kept) (bin_of de o) (dht_subs de)))
      ≡ₚ map s_id (all_subs de)).
  { intros cell. pose proof (publish_spec cell o (subs_bin de (bin_of de o))) as Hp.
    destruct (publish cell o (subs_bin de (bin_of de o))) as [kept done]. destruct Hp as [Hp _].
    exists kept, done. split; [done|]. split.
    - intros m. rewrite nth_alter. unfold subs_bin. repeat case_decide; done || tauto.
    - destruct (concat_alter_split (fun _ => kept) _ _ Hlt) as (l1 & l2 & E1 & E2).
      unfold all_subs. rewrite E1, E2. fold (subs_bin de (bin_of de o)).
      apply (Permutation_map s_id) in Hp. rewrite map_map, map_app in Hp.
      rewrite (map_ext _ s_id (fun s => pub_id cell o s)) in Hp.
      rewrite !map_app, <- Hp. solve_Permutation. }
  unfold dht_add_entry. destruct (dht_find_match de o) as [[cell o']|].
  - destruct (Hgen cell) as (kept & done & E & H1 & H2). exists cell, kept, done. rewrite E. done.
  - destruct (Hgen (d_next de)) as (kept & done & E & H1 & H2). exists (d_next de), kept, done.
    rewrite E. done.
Qed.

Lemma uncovered_mono `{EC : ElemCounter} q l1 l2 :
  (forall p, Exists (in_box p) l1 -> Exists (in_box p) l2) ->
  uncovered q l1 = [] -> uncovered q l2 = [].
Proof.
  intros Hsub H1. apply length_zero_iff_nil. apply length_uncovered_zero.
  intros p Hp Ho. apply Hsub. revert p Hp Ho. apply length_uncovered_zero. by rewrite H1.
Qed.

(** Where the subscription [id] is, given how much is covered: unlinked once
    nothing is missing, else waiting with the number of missing points. *)
Definition sub_state `{EC : ElemCounter} (de : dht_entry) (n id : nat) (q : obj_descriptor)
    (cov : list bbox) : Prop :=
  exists s, s_id s = id /\ s_odsc s = q /\
    (uncovered (od_bb q) cov = [] /\ In s (d_done de) /\ s_remaining s = 0 \/
     uncovered (od_bb q) cov <> [] /\ In s (subs_bin de n) /\
     s_remaining s = Z.of_nat (length (uncovered (od_bb q) cov))).

Lemma publish_remaining `{EC : ElemCounter} cell o s cov :
  queryable (od_bb (s_odsc s)) -> countable_box (od_bb o) -> sub_matches o s = true ->
  disjoint_boxes (od_bb o :: cov) ->
  s_remaining s = Z.of_nat (length (uncovered (od_bb (s_odsc s)) cov)) ->
  s_remaining (pub cell o s) = Z.of_nat (length (uncovered (od_bb (s_odsc s)) (od_bb o :: cov))).
Proof.
  intros Hq Ho Hm Hd Hr. unfold pub. rewrite Hm. cbn [sub_publish s_remaining].
  unfold sub_matches in Hm. rewrite !andb_true_iff in Hm. destruct Hm as [[Hm _] _].
  assert (Hdim : num_dims (od_bb o) = num_dims (od_bb (s_odsc s))).
  { destruct Ho, Hq. intuition congruence. }
  rewrite (bbox_intersect_comm (od_bb o)) by done.
  apply uncovered_take; [done|done| |done|done].
  rewrite does_intersect_comm; [done|apply Ho|apply Hq|done].
Qed.

Lemma sub_state_add `{EC : ElemCounter} de n id q cov o :
  dht_inv de -> bin_of de q = n -> queryable (od_bb q) ->
  (sub_matches o (mkSub id q 0 0 []) = true -> countable_box (od_bb o) /\ disjoint_boxes (od_bb o :: cov)) ->
  sub_state de n id q cov ->
  sub_state (fst (dht_add_entry de o)) n id q
    (if sub_matches o (mkSub id q 0 0 []) then od_bb o :: cov else cov).
Proof.
  intros Hi Hn Hq Hm (s & Hid & Hs & Hst).
  destruct (add_entry_subs de o Hi) as (cell & kept & done & Ep & Ed & Es & _).
  assert (Hms : sub_matches o s = sub_matches o (mkSub id q 0 0 [])).
  { unfold sub_matches. by rewrite Hs. }
  rewrite <- Hms in *. destruct Hst as [(Hu & Hin & Hr)|(Hu & Hin & Hr)].
  - exists s. split; [done|]. split; [done|]. left. rewrite Ed.
    split; [|split; [by apply in_or_app; right|done]].
    destruct (sub_matches o s); [|done]. eapply uncovered_mono; [|exact Hu].
    intros p Hp. by apply Exists_cons; right.
  - destruct (decide (n = bin_of de o)) as [Hb|Hb].
    + pose proof (publish_spec cell o (subs_bin de (bin_of de o))) as Hp. rewrite Ep in Hp.
      destruct Hp as [_ Hp]. rewrite <- Hb in Hp. specialize (Hp s Hin).
      exists (pub cell o s). split; [by rewrite pub_id|].
      split; [unfold pub; by destruct (sub_matches o s)|]. rewrite Ed, Es.
      destruct (decide (n = bin_of de o)); [|done]. destruct (sub_matches o s) eqn:E.
      * destruct (Hm eq_refl) as [Hc Hd]. rewrite <- Hs in *.
        pose proof (publish_remaining cell o s cov Hq Hc E Hd Hr) as Hrem.
        destruct Hp as [(Hin' & _ & Hz)|(Hin' & Hz)].
        -- left. split; [apply length_zero_iff_nil; lia|]. split; [by apply in_or_app; left|done].
        -- right. split; [|done]. intros Hnil. rewrite Hnil in Hrem. by apply Hz.
      * right. split; [done|]. destruct Hp as [(_ & ? & _)|(Hin' & _)]; [done|].
        split; [done|]. unfold pub. by rewrite E.
    + assert (E : sub_matches o s = false).
      { apply not_true_is_false. unfold sub_matches. rewrite !andb_true_iff, Z.eqb_eq.
        intros [_ Hv]. apply Hb. rewrite <- Hn, <- Hs. unfold bin_of. by rewrite Hv. }
      rewrite E. exists s. split; [done|]. split; [done|]. right. rewrite Es.
      destruct (decide (n = bin_of de o)); done.
Qed.

(** Boxes of the insertions that match a query. *)
Definition published (q : obj_descriptor) (os : list obj_descriptor) : list bbox :=
  map od_bb (List.filter (fun o => sub_matches o (mkSub 0 q 0 0 [])) os).

Lemma find_sub_unique l s :
  NoDup (map s_id l) -> In s l -> find (fun x => (s_id x =? s_id s)%nat) l = Some s.
Proof.
  induction l as [|x l IH]; simpl; [done|]. intros [Hx Hn]%NoDup_cons [->|Hin].
  - by rewrite Nat.eqb_refl.
  - destruct (Nat.eqb_spec (s_id x) (s_id s)) as [E|_]; [|by apply IH].
    destruct Hx. rewrite E. by apply list_elem_of_In, in_map.
Qed.

Lemma NoDup_subs_bin de n :
  NoDup (map s_id (all_subs de)) -> NoDup (map s_id (d_done de ++ subs_bin de n)).
Proof.
  unfold all_subs. intros Hnd. destruct (decide (n < length (dht_subs de))%nat) as [Hlt|Hge].
  - destruct (concat_alter_split id _ _ Hlt) as (l1 & l2 & E1 & _). unfold subs_bin.
    rewrite E1 in Hnd.
    assert (Hp : d_done de ++ l1 ++ nth n (dht_subs de) [] ++ l2
                 ≡ₚ (d_done de ++ nth n (dht_subs de) []) ++ l1 ++ l2) by solve_Permutation.
    apply (Permutation_map s_id) in Hp. rewrite Hp, map_app in Hnd. by apply NoDup_app in Hnd as [? _].
  - unfold subs_bin. rewrite nth_overflow, app_nil_r by lia.
    rewrite map_app in Hnd. by apply NoDup_app in Hnd as [? _].
Qed.


(** ** Instances of the counting interface *)

Lemma filter_existsb_sum q bs :
  (forall p, zsum (map (point_measure p) bs) <= 1) ->
  Z.of_nat (length (List.filter (fun p => existsb (in_boxb p) bs) (box_points q)))
  = zsum (map (fun b => Z.of_nat (length (List.filter (fun p => in_boxb p b) (box_points q)))) bs).
Proof.
  induction bs as [|b bs IH]; intros Hd; cbn [map existsb].
  - assert (H : length (List.filter (fun _ : coord => false) (box_points q)) = 0%nat).
    { by apply filter_zero_length. }
    unfold coord in *. rewrite H. done.
  - assert (Hpos : forall p l, 0 <= zsum (map (point_measure p) l)).
    { intros p l. apply zsum_map_nonneg. intros x _. unfold point_measure. case_decide; lia. }
    assert (Hd' : forall p, zsum (map (point_measure p) bs) <= 1).
    { intros p. specialize (Hd p). simpl in Hd.
      assert (0 <= point_measure p b) by (unfold point_measure; case_decide; lia). lia. }
    specialize (IH Hd').
    pose proof (filter_split_length (fun p => in_boxb p b || existsb (in_boxb p) bs)
      (fun p => in_boxb p b) (box_points q)) as Hs.
    rewrite (filter_ext_length (fun p => (in_boxb p b || existsb (in_boxb p) bs) && in_boxb p b)
      (fun p => in_boxb p b)) in Hs by (intros p _; by destruct (in_boxb p b), (existsb (in_boxb p) bs)).
    rewrite (filter_ext_length (fun p => (in_boxb p b || existsb (in_boxb p) bs) && negb (in_boxb p b))
      (fun p => existsb (in_boxb p) bs)) in Hs.
    + unfold coord in *. rewrite Hs. simpl. lia.
    + intros p _. destruct (in_boxb p b) eqn:E; simpl; [|by rewrite andb_true_r].
      destruct (existsb (in_boxb p) bs) eqn:E2; [|done]. exfalso.
      apply in_boxb_spec in E. apply existsb_exists in E2 as (x & Hx & Hpx).
      apply in_boxb_spec in Hpx.
      assert (H0 : 0 < zsum (map (point_measure p) bs)).
      { apply point_measure_sum, Exists_exists. exists x. split; [by apply list_elem_of_In|done]. }
      specialize (Hd p). simpl in Hd. unfold point_measure at 1 in Hd. case_decide; [lia|done].
Qed.

Lemma zoverlap_filter q b :
  valid_box q -> num_dims b = num_dims q ->
  zoverlap q b = Z.of_nat (length (List.filter (fun p => in_boxb p b) (box_points q))).
Proof.
  intros Hv Hd. rewrite zoverlap_points by done. f_equal.
  induction (box_points q) as [|p l IH]; [done|]. rewrite filter_cons. cbn [List.filter].
  destruct (decide (in_box p b)) as [Hin|Hin].
  - apply in_boxb_spec in Hin. rewrite Hin. cbn [length]. f_equal. exact IH.
  - rewrite <- in_boxb_spec in Hin. destruct (in_boxb p b); [done|]. exact IH.
Qed.

(** Version 2: server [r] owns the points of its boxes. *)
Lemma v2_elem_count id dom n dim0 ss r :
  domain_ok dom -> (0 < n)%nat -> Z.of_nat n <= 2 ^ 63 ->
  ssd_alloc_v2 id dom n dim0 = Some ss -> (r < n)%nat ->
  forall q, valid_box q -> num_dims q = num_dims dom -> zvolume q < 2 ^ 63 ->
  ssh_hash_elem_count_v2 (ssd_init ss r) q
  = Z.of_nat (length (List.filter
      (fun p => existsb (in_boxb p) (de_bb_tab (nth r (ss_ent_tab ss) (zero_place 0)))) (box_points q))).
Proof.
  intros Hdom Hn Hn' Ha Hr q Hv Hd Hvol.
  destruct (ssd_alloc_v2_spec id dom n dim0 Hdom Hn Hn')
    as (ss' & j & bs & E & _ & _ & _ & He & _ & _ & Hm).
  rewrite Ha in E. injection E as <-. set (e := nth r (ss_ent_tab ss) (zero_place 0)).
  assert (Hin : In e (ss_ent_tab ss)).
  { apply nth_In. by rewrite He, length_deal_boxes, length_map, length_seq. }
  assert (Hpc : forall b, In b (de_bb_tab e) -> piece (num_dims dom) b).
  { intros b Hb. eapply (alloc_v2_pieces _ _ _ _ _ Hdom Hn Hn' Ha); [exact Hin|by apply list_elem_of_In]. }
  assert (Hone : forall p, zsum (map (point_measure p) (de_bb_tab e)) <= 1).
  { intros p. pose proof (zsum_member_le (fun e => zsum (map (point_measure p) (de_bb_tab e)))
      (ss_ent_tab ss) e) as L. cbn beta in L. fold (ents_sum (point_measure p) (ss_ent_tab ss)) in L.
    rewrite He, deal_boxes_sum, ents_sum_place0, (Hm (point_measure p)), <- He in L;
      [|intros b d; apply point_measure_in2|by apply place0_seq_ne].
    assert (point_measure p dom <= 1) by (unfold point_measure; case_decide; lia).
    assert (0 + point_measure p dom >= zsum (map (point_measure p) (de_bb_tab e))); [|lia].
    apply Z.le_ge, L; [|done]. intros y _. apply zsum_map_nonneg. intros x _.
    unfold point_measure. case_decide; lia. }
  assert (Hsum : zsum (map (zoverlap q) (de_bb_tab e))
    = Z.of_nat (length (List.filter (fun p => existsb (in_boxb p) (de_bb_tab e)) (box_points q)))).
  { rewrite filter_existsb_sum by done. apply zsum_map_ext. intros b Hb.
    apply zoverlap_filter; [done|]. destruct (Hpc b Hb). congruence. }
  unfold ssh_hash_elem_count_v2. change (ent_self (ssd_init ss r)) with e.
  rewrite (fold_elem_count (num_dims dom)); [by rewrite Hsum| |done|done|lia| |lia].
  - apply Forall_forall. intros b Hb. apply Hpc. by apply list_elem_of_In.
  - rewrite Hsum, zvolume_points in * by done.
    pose proof (filter_length_le (fun p => existsb (in_boxb p) (de_bb_tab e)) (box_points q)) as Hl.
    unfold coord in *. lia.
Qed.

Definition v2_counter (id : nat) (dom : bbox) (n dim0 : nat) (ss : sspace) (r : nat)
    (Hdom : domain_ok dom) (Hn : (0 < n)%nat) (Hn' : Z.of_nat n <= 2 ^ 63)
    (Ha : ssd_alloc_v2 id dom n dim0 = Some ss) (Hr : (r < n)%nat) : ElemCounter := {|
  ec_elem_count := ssh_hash_elem_count_v2 (ssd_init ss r);
  ec_dims := num_dims dom;
  ec_owned p := existsb (in_boxb p) (de_bb_tab (nth r (ss_ent_tab ss) (zero_place 0)));
  ec_spec := v2_elem_count id dom n dim0 ss r Hdom Hn Hn' Ha Hr
|}.

(** Version 0: the single server owns every point. *)
Lemma v0_elem_count q :
  valid_box q -> zvolume q < 2 ^ 63 ->
  ssh_hash_elem_count_v0 q = Z.of_nat (length (List.filter (fun _ => true) (box_points q))).
Proof.
  intros Hv Hvol. unfold ssh_hash_elem_count_v0. rewrite bbox_volume_zvolume.
  assert (Hall : forall l : list coord, List.filter (fun _ => true) l = l).
  { induction l as [|a l IH]; simpl; congruence. }
  unfold coord in *. rewrite Hall, <- zvolume_points by done.
  rewrite zvolume_points in * by done. rewrite u64_small, i64_small; lia.
Qed.

Definition v0_count : ElemCount := ssh_hash_elem_count_v0.

Definition v0_counter (nd : nat) : ElemCounter := {|
  ec_elem_count := v0_count;
  ec_dims := nd;
  ec_owned _ := true;
  ec_spec q Hv _ Hvol := v0_elem_count q Hv Hvol
|}.

(** ** The scan of a query *)

Lemma find_scan `{EC : ElemCounter} de q :
  let found := matching q (bin de (bin_of de q)) in
  queryable (od_bb q) -> Forall countable_box (cell_boxes found) -> disjoint_boxes (cell_boxes found) ->
  scan_bin q (bin de (bin_of de q)) [] (ec_count (od_bb q))
  = (map fst found, Z.of_nat (length (uncovered (od_bb q) (cell_boxes found)))).
Proof.
  intros found Hq Hc Hd. pose proof Hq as (Hqv & Hqd & Hqvol).
  rewrite (scan_bin_spec q _ [] [] (ec_count (od_bb q)));
    [|done|done|by rewrite app_nil_r|by rewrite ec_spec, uncovered_nil by done].
  f_equal. f_equal. fold found. unfold uncovered. apply filter_ext_length.
  intros p _. f_equal. f_equal. apply eq_true_iff_eq. rewrite !existsb_in_boxb.
  rewrite rev_append_rev, app_nil_r, !Exists_exists.
  setoid_rewrite list_elem_of_In. setoid_rewrite <- in_rev. done.
Qed.

Lemma find_entry_all_covered `{EC : ElemCounter} de q sub id :
  let found := matching q (bin de (bin_of de q)) in
  queryable (od_bb q) -> Forall countable_box (cell_boxes found) -> disjoint_boxes (cell_boxes found) ->
  (forall p, In p (box_points (od_bb q)) -> ec_owned p = true -> Exists (in_box p) (cell_boxes found)) ->
  dht_find_entry_all de q sub id = (de, FR_done (map fst found)).
Proof.
  intros found Hq Hc Hd Hcov. unfold dht_find_entry_all. rewrite find_scan by done. fold found.
  apply length_uncovered_zero in Hcov. rewrite Hcov. by destruct sub.
Qed.

(** ** Properties *)

(** [dht_add_entry] and [dht_update_owner] keep the index well formed:
    every descriptor is in the bin of its version, cells are distinct, and
    [odsc_num] (the size of the result table [dht_find_entry_all] allocates)
    is the number of descriptors. *)
Theorem dht_ops_inv `{EC : ElemCount} de o clear :
  dht_inv de ->
  dht_inv (fst (dht_add_entry de o)) /\
  dht_inv (fst (dht_update_owner de o clear)) /\
  (length (bin de (bin_of de o)) <= Z.to_nat (odsc_num de))%nat.
Proof.
  intros Hi. pose proof (bin_of_lt de o Hi) as Hlt. split; [by apply dht_add_entry_inv_aux|]. split.
  - by apply dht_update_owner_inv_aux.
  - rewrite (inv_num _ Hi), Nat2Z.id. unfold cells.
    destruct (concat_alter_split id _ _ Hlt) as (l1 & l2 & E1 & _). unfold bin. rewrite E1, !length_app. lia.
Qed.

(** After [dht_add_entry] of a descriptor with a set version and a
    non-empty box, exact lookup of that descriptor finds it in its cell; an
    exact lookup in another version class, or of a descriptor that does not
    overlap the new one by name and box, gives what it gave before. *)
Theorem dht_add_entry_lookup `{EC : ElemCount} de o :
  dht_inv de -> valid_box (od_bb o) -> 0 <= od_version o < 2 ^ 32 - 1 ->
  (exists cell, dht_find_exact (fst (dht_add_entry de o)) o = Some (cell, o)) /\
  (forall o', num_dims (od_bb o') = num_dims (od_bb o) -> valid_box (od_bb o') ->
     bin_of de o' <> bin_of de o \/ obj_desc_by_name_intersect o o' = false ->
     dht_find_exact (fst (dht_add_entry de o)) o' = dht_find_exact de o').
Proof.
  intros Hi Hv Hver.
  assert (Hb : forall x, bin_of (fst (dht_add_entry de o)) x = bin_of de x).
  { intros x. unfold bin_of. by rewrite size_add_entry. }
  unfold dht_find_exact. split.
  - rewrite Hb, bin_add_entry by done. case_decide; [|done]. unfold bin_after.
    destruct (dht_find_match de o) as [[cell o1]|] eqn:E.
    + exists cell. unfold dht_find_match in E. destruct (_ =? _); [done|].
      apply (find_set_cell _ (obj_desc_by_name_intersect o) _ _ _ o1 E).
      * intros x Hx. apply not_true_is_false. intros Ht.
        apply (equals_no_owner_intersect o x Hv) in Ht. congruence.
      * apply equals_no_owner_refl.
    + exists (d_next de). cbn [find snd]. by rewrite equals_no_owner_refl.
  - intros o' Hd Hv' Hdis. rewrite Hb, bin_add_entry by done. case_decide as Hn; [|done].
    destruct Hdis as [?|Hdis]; [done|]. rewrite Hn.
    assert (Hoo : obj_desc_equals_no_owner o' o = false).
    { apply not_true_is_false. intros Ht. apply (name_intersect_equals o o' o Hd) in Ht.
      rewrite name_intersect_refl in Ht by done. congruence. }
    unfold bin_after. destruct (dht_find_match de o) as [[cell o1]|] eqn:E.
    + apply dht_find_match_some in E as [Hin Hint]. apply find_set_cell_other; [done|].
      intros x Hx. apply not_true_is_false. intros Ht.
      assert (x = o1) as ->.
      { apply (nodup_fst_inj (cells de) cell); [apply Hi|by apply (in_nth_concat (bin_of de o))..]. }
      apply (name_intersect_equals o o' o1 Hd) in Ht. congruence.
    + cbn [find snd]. by rewrite Hoo.
Qed.

(** C15: [dht_find_entry_all] answers a query exactly when it can be
    satisfied.  When the stored descriptors that match the query do not
    overlap, it returns all of them if they cover every point of the query
    this server owns; otherwise it returns none, or, if asked to wait,
    leaves a subscription whose [remaining] is the number of owned points
    not yet covered. *)
Theorem dht_find_entry_all_covers `{EC : ElemCounter} de q id :
  let found := matching q (bin de (bin_of de q)) in
  let missing := uncovered (od_bb q) (cell_boxes found) in
  queryable (od_bb q) -> Forall countable_box (cell_boxes found) ->
  disjoint_boxes (cell_boxes found) ->
  ((forall p, In p (box_points (od_bb q)) -> ec_owned p = true -> Exists (in_box p) (cell_boxes found)) ->
     forall sub, dht_find_entry_all de q sub id = (de, FR_done (map fst found))) /\
  (missing <> [] ->
     dht_find_entry_all de q false id = (de, FR_done []) /\
     dht_find_entry_all de q true id =
       (mkDht (odsc_size de) (odsc_num de) (odsc_hash de)
          (alter (cons (mkSub id q (Z.of_nat (length missing)) 0 [])) (bin_of de q) (dht_subs de))
          (d_done de) (d_next de), FR_wait (map fst found) id)).
Proof.
  intros found missing Hq Hc Hd. split; [intros; by apply find_entry_all_covered|].
  intros Hm. unfold dht_find_entry_all. rewrite find_scan by done. fold found missing.
  destruct missing as [|x l]; [done|]. cbn [length].
  destruct (Z.ltb_spec 0 (Z.of_nat (S (length l)))); [done|lia].
Qed.

(** An overlapping insertion can strand a waiter: once an insertion
    brings [remaining] below 0, or finds it there, the subscription stays
    linked with a negative [remaining], so it never equals 0 and is never
    unlinked; a waiter that another query's broadcast wakes then returns and
    leaves its stack record in the list. *)
Theorem dht_overshoot_stranded `{EC : ElemCount} de o s :
  let n := bin_of de o in
  let isect := bbox_intersect (od_bb o) (od_bb (s_odsc s)) zero_bbox in
  dht_inv de -> NoDup (map s_id (all_subs de)) -> In s (subs_bin de n) ->
  sub_matches o s = true -> - 2 ^ 62 <= s_remaining s < ec_count isect -> ec_count isect <= 2 ^ 62 ->
  let de' := fst (dht_add_entry de o) in
  exists s', In s' (subs_bin de' n) /\ s_id s' = s_id s /\ s_remaining s' < 0 /\
    forall tab, exists de'' more, dht_sub_resume de' n (s_id s) tab = Some (de'', tab ++ more) /\
      In s' (subs_bin de'' n).
Proof.
  intros n isect Hi Hnd Hin Hm Hr Hc de'.
  destruct (add_entry_subs de o Hi) as (cell & kept & done & Ep & Ed & Es & Hids).
  pose proof (publish_spec cell o (subs_bin de n)) as Hp. unfold n in Hp. rewrite Ep in Hp.
  destruct Hp as [_ Hp]. specialize (Hp s Hin).
  assert (Hrem : s_remaining (pub cell o s) = s_remaining s - ec_count isect).
  { unfold pub. rewrite Hm. cbn [sub_publish s_remaining]. fold isect. apply i64_small. lia. }
  destruct Hp as [(_ & _ & Hz)|(Hk & _)]; [lia|].
  assert (Hin' : In (pub cell o s) (subs_bin de' n)).
  { unfold de', n. rewrite Es. by case_decide. }
  exists (pub cell o s). split; [done|]. split; [apply pub_id|]. split; [lia|].
  intros tab. unfold dht_sub_resume. rewrite <- (pub_id cell o s).
  rewrite (find_sub_unique _ (pub cell o s)).
  - destruct (Z.ltb_spec 0 (s_remaining (pub cell o s))); [lia|]. eauto.
  - apply NoDup_subs_bin. unfold de'. by rewrite Hids.
  - by apply in_or_app; right.
Qed.

(** [dht_find_versions] lists one version per bin that holds a
    descriptor overlapping the query by name and box, each the version of a
    stored descriptor, in bin order and without repetition. *)
Theorem dht_find_versions_sound de q :
  dht_inv de ->
  NoDup (dht_find_versions de q) /\
  (forall v, In v (dht_find_versions de q) -> exists n c, In c (bin de n) /\
     obj_desc_by_name_intersect (snd c) q = true /\ od_version (snd c) = v) /\
  (forall n c, In c (bin de n) -> obj_desc_by_name_intersect (snd c) q = true ->
     exists v, In v (dht_find_versions de q) /\ Z.to_nat (v mod odsc_size de) = n).
Proof.
  intros Hi. set (hit := fun l => find (fun c : nat * obj_descriptor => obj_desc_by_name_intersect (snd c) q) l).
  assert (Hbin : forall n l, odsc_hash de !! n = Some l -> l = bin de n).
  { intros n l E. unfold bin. by rewrite nth_lookup, E. }
  assert (Hspec : forall v, In v (dht_find_versions de q) <->
    exists n c, hit (bin de n) = Some c /\ od_version (snd c) = v).
  { intros v. unfold dht_find_versions. rewrite in_flat_map. split.
    - intros (l & Hl & Hv). apply list_elem_of_In, list_elem_of_lookup in Hl as (n & Hn).
      rewrite (Hbin n l Hn) in Hv. fold (hit (bin de n)) in Hv.
      destruct (hit (bin de n)) as [c|] eqn:E; [|by destruct Hv].
      destruct Hv as [<-|[]]. eauto.
    - intros (n & c & Hh & <-). exists (bin de n). unfold bin in *. split.
      + destruct (nth_in_or_default n (odsc_hash de) []) as [?|E]; [done|]. by rewrite E in Hh.
      + fold (hit (nth n (odsc_hash de) [])). rewrite Hh. by left. }
  split; [|split].
  - unfold dht_find_versions.
    assert (Hgen : forall k l, (forall i, bin de (k + i) = nth i l []) ->
      NoDup (flat_map (fun l => match hit l with Some c => [od_version (snd c)] | None => [] end) l) /\
      forall v, In v (flat_map (fun l => match hit l with Some c => [od_version (snd c)] | None => [] end) l) ->
        (k <= Z.to_nat (v mod odsc_size de))%nat).
    { intros k l. revert k. induction l as [|b l IH]; intros k Hk; [split; [constructor|done]|].
      destruct (IH (S k)) as [IH1 IH2].
      { intros i. specialize (Hk (S i)). by replace (S k + i)%nat with (k + S i)%nat by lia. }
      cbn [flat_map]. specialize (Hk 0%nat). rewrite Nat.add_0_r in Hk. simpl in Hk.
      destruct (hit b) as [c|] eqn:E.
      - apply find_some in E as [Hin _]. rewrite <- Hk in Hin. apply (inv_bins _ Hi) in Hin.
        unfold bin_of in Hin. simpl. split.
        + constructor; [|done]. rewrite list_elem_of_In. intros Hv. specialize (IH2 _ Hv). lia.
        + intros v [<-|Hv]; [lia|]. specialize (IH2 _ Hv). lia.
      - simpl. split; [done|]. intros v Hv. specialize (IH2 _ Hv). lia. }
    apply (Hgen 0%nat). done.
  - intros v Hv. apply Hspec in Hv as (n & c & Hh & <-). apply find_some in Hh as [? ?]. eauto.
  - intros n c Hc Hq. destruct (hit (bin de n)) as [c'|] eqn:E.
    + exists (od_version (snd c')). split; [apply Hspec; eauto|].
      apply find_some in E as [Hin _]. by apply (inv_bins _ Hi) in Hin.
    + exfalso. pose proof (find_none _ _ E _ Hc) as Hf. simpl in Hf. congruence.
Qed.

(** ** Witnesses *)

Definition demo_odsc (name : string) (version : Z) (b : bbox) : obj_descriptor :=
  mkOdsc name row_major 0 0 0 "addr"%string version b 8.

(** An index with two bins that holds the left half of [0..3] x [0..1]. *)
Definition demo_dht : dht_entry :=
  fst (dht_add_entry (EC := v0_count) (dht_entry_alloc 2) (demo_odsc "t" 1 (box2 0 0 1 1))).

Lemma demo_dht_inv : dht_inv demo_dht.
Proof. apply dht_add_entry_inv_aux. apply dht_inv_alloc. lia. Qed.

Lemma box2_countable nd l0 l1 u0 u1 :
  nd = 2%nat -> 0 <= l0 <= u0 -> 0 <= l1 <= u1 -> u0 < 2 ^ 63 -> u1 < 2 ^ 63 ->
  countable_box (EC := v0_counter nd) (box2 l0 l1 u0 u1).
Proof. intros ->. split; [by apply box2_valid|done]. Qed.

Lemma dht_ops_inv_witness :
  dht_inv (fst (dht_add_entry (EC := v0_count) demo_dht (demo_odsc "t" 3 (box2 2 0 3 1)))) /\
  odsc_num (fst (dht_add_entry (EC := v0_count) demo_dht (demo_odsc "t" 3 (box2 2 0 3 1)))) = 2.
Proof.
  destruct (dht_ops_inv (EC := v0_count) demo_dht (demo_odsc "t" 3 (box2 2 0 3 1)) true)
    as (H & _ & _); [apply demo_dht_inv|].
  split; [exact H|vm_compute; reflexivity].
Defined.

Lemma dht_add_entry_lookup_witness :
  exists cell, dht_find_exact
    (fst (dht_add_entry (EC := v0_count) demo_dht (demo_odsc "t" 3 (box2 1 1 3 1))))
    (demo_odsc "t" 3 (box2 1 1 3 1)) = Some (cell, demo_odsc "t" 3 (box2 1 1 3 1)).
Proof.
  apply (dht_add_entry_lookup (EC := v0_count) demo_dht (demo_odsc "t" 3 (box2 1 1 3 1))).
  - apply demo_dht_inv.
  - apply box2_valid; lia.
  - simpl. lia.
Defined.

Lemma dht_find_entry_all_covers_witness :
  dht_find_entry_all (EC := v0_count) demo_dht (demo_odsc "t" 1 (box2 0 0 1 0)) false 7
    = (demo_dht, FR_done [0%nat]) /\
  dht_find_entry_all (EC := v0_count) demo_dht (demo_odsc "t" 1 (box2 0 0 3 1)) false 7
    = (demo_dht, FR_done []).
Proof.
  assert (Hq : forall u0 u1, 0 <= u0 < 100 -> 0 <= u1 < 100 ->
    queryable (EC := v0_counter 2) (box2 0 0 u0 u1)).
  { intros u0 u1 H0 H1. split; [apply box2_valid; lia|]. split; [reflexivity|].
    unfold zvolume, side, cget. simpl. nia. }
  assert (Hone : forall b : bbox, disjoint_boxes [b]).
  { intros b p. rewrite count_boxes_cons, count_boxes_nil. case_decide; lia. }
  split.
  - destruct (dht_find_entry_all_covers (EC := v0_counter 2) demo_dht (demo_odsc "t" 1 (box2 0 0 1 0)) 7)
      as [H _].
    + apply Hq; lia.
    + constructor; [apply box2_countable; lia|constructor].
    + apply Hone.
    + apply H. intros p Hp _. constructor. apply elem_of_box_points in Hp as [_ Hp].
      intros i Hi. specialize (Hp i Hi). destruct i as [|[|i]]; simpl in Hi; unfold cget in *; simpl in *; lia.
  - destruct (dht_find_entry_all_covers (EC := v0_counter 2) demo_dht (demo_odsc "t" 1 (box2 0 0 3 1)) 7)
      as [_ H].
    + apply Hq; lia.
    + constructor; [apply box2_countable; lia|constructor].
    + apply Hone.
    + apply H. vm_compute. discriminate.
Defined.

(** A waiter for [0..3] x [0..1] with 4 points missing; an insertion that
    repeats points already counted brings 8. *)
Lemma dht_overshoot_stranded_witness :
  let q := demo_odsc "t" 1 (box2 0 0 3 1) in
  let de := fst (dht_find_entry_all (EC := v0_count) demo_dht q true 7) in
  let o := demo_odsc "t" 1 (box2 0 0 3 1) in
  exists s', In s' (subs_bin (fst (dht_add_entry (EC := v0_count) de o)) 1) /\
    s_id s' = 7%nat /\ s_remaining s' < 0.
Proof.
  intros q de o.
  destruct (dht_overshoot_stranded (EC := v0_count) de o (mkSub 7 q 4 0 [])) as (s' & H1 & H2 & H3 & _).
  - pose proof demo_dht_inv as []. split; try assumption.
  - vm_compute. repeat constructor. intros H. apply elem_of_nil in H. exact H.
  - vm_compute. left. reflexivity.
  - vm_compute. reflexivity.
  - vm_compute. split; [discriminate|reflexivity].
  - vm_compute. discriminate.
  - exists s'. split; [exact H1|]. split; [exact H2|exact H3].
Defined.

Lemma dht_find_versions_sound_witness :
  dht_find_versions demo_dht (demo_odsc "t" 0 (box2 1 1 1 1)) = [1] /\
  NoDup (dht_find_versions demo_dht (demo_odsc "t" 0 (box2 1 1 1 1))).
Proof.
  split; [vm_compute; reflexivity|].
  apply (dht_find_versions_sound demo_dht (demo_odsc "t" 0 (box2 1 1 1 1)) demo_dht_inv).
Defined.
