(* ===== verification/DhtWait.v ===== *)
(** * DhtWait: the threads that wait in the index

    The queries that wait in [dht_local_subscribe] of [src/src/ss_data.c], as
    threads: a waiting query sleeps in [ABT_cond_wait] on the condition of its
    bin until [dht_add_entry] broadcasts it, or until the wait returns for no
    reason; a thread that is awake and gets the mutex looks at what it still
    misses, and returns or sleeps again.  The steps on the index are those of
    [DhtEntry], under the mutex of the bin. *)

From S2P Require Import Prelude BBox ObjDesc Linear Sspace DhtEntry.

(** ** State and steps *)

(** A server's index with its threads: [w_next] is the identity of the next
    one; [w_threads] has the bin and the table so far of each thread inside
    [dht_local_subscribe]; [w_asleep] those inside [ABT_cond_wait], with their
    bin; [w_returned] the tables of the calls that have returned. *)
Record dht_waiting := mkWaiting {
  w_de : dht_entry;
  w_next : nat;
  w_threads : list (nat * (nat * list nat));
  w_asleep : list (nat * nat);
  w_returned : list (nat * list nat)
}.

Definition waiter_of (s : dht_waiting) (id : nat) : option (nat * list nat) :=
  option_map snd (find (fun t => (fst t =? id)%nat) (w_threads s)).

Definition cond_asleep (s : dht_waiting) (n id : nat) : bool :=
  existsb (fun t => (fst t =? n)%nat && (snd t =? id)%nat) (w_asleep s).

(** An insertion, a query that is ready to wait, a wait that returns without a
    broadcast, and thread [id] given the processor. *)
Inductive dht_event :=
| D_add (o : obj_descriptor)
| D_query (q : obj_descriptor)
| D_spurious (id : nat)
| D_run (id : nat).

Section Steps.
Context `{EC : ElemCount}.

(** [dht_add_entry], with its broadcast. *)
Definition add_step (o : obj_descriptor) (s : dht_waiting) : dht_waiting :=
  let '(de, broadcast) := dht_add_entry (w_de s) o in
  let n := bin_of (w_de s) o in
  mkWaiting de (w_next s) (w_threads s)
    (if broadcast then List.filter (fun t => negb (fst t =? n)%nat) (w_asleep s) else w_asleep s)
    (w_returned s).

(** [dht_find_entry_all] up to its return or to its first [ABT_cond_wait]. *)
Definition query_step (q : obj_descriptor) (s : dht_waiting) : dht_waiting :=
  let id := w_next s in
  let n := bin_of (w_de s) q in
  let '(de, r) := dht_find_entry_all (w_de s) q true id in
  match r with
  | FR_done tab => mkWaiting de (S id) (w_threads s) (w_asleep s) ((id, tab) :: w_returned s)
  | FR_wait tab _ => mkWaiting de (S id) ((id, (n, tab)) :: w_threads s) ((n, id) :: w_asleep s) (w_returned s)
  end.

(** The loop of [dht_local_subscribe] from one [ABT_cond_wait] to the next. *)
Definition run_step (id : nat) (s : dht_waiting) : dht_waiting :=
  match waiter_of s id with
  | None => s
  | Some (n, tab) =>
      if cond_asleep s n id then s
      else match dht_sub_resume (w_de s) n id tab with
           | None => mkWaiting (w_de s) (w_next s) (w_threads s) ((n, id) :: w_asleep s) (w_returned s)
           | Some (de, tab) =>
               mkWaiting de (w_next s) (List.filter (fun t => negb (fst t =? id)%nat) (w_threads s)) (w_asleep s)
                 ((id, tab) :: w_returned s)
           end
  end.

Definition dht_wait_step (s : dht_waiting) (e : dht_event) : dht_waiting :=
  match e with
  | D_add o => add_step o s
  | D_query q => query_step q s
  | D_spurious id =>
      mkWaiting (w_de s) (w_next s) (w_threads s) (List.filter (fun t => negb (snd t =? id)%nat) (w_asleep s)) (w_returned s)
  | D_run id => run_step id s
  end.

Definition dht_wait_run (s : dht_waiting) (es : list dht_event) : dht_waiting := fold_left dht_wait_step es s.
End Steps.

(** An index without threads. *)
Definition waiting_start (size : Z) : dht_waiting := mkWaiting (dht_entry_alloc size) 0 [] [] [].

(** The insertions among the steps. *)
Definition added_by (es : list dht_event) : list obj_descriptor :=
  flat_map (fun e => match e with D_add o => [o] | _ => [] end) es.

(** ** Invariants *)

(** The index is well formed and new threads have new identities. *)
Record waiting_ok (s : dht_waiting) : Prop := {
  wo_inv : dht_inv (w_de s);
  wo_nodup : NoDup (map s_id (all_subs (w_de s)));
  wo_fresh : Forall (fun i => (i < w_next s)%nat) (map s_id (all_subs (w_de s)));
  wo_threads : Forall (fun i => (i < w_next s)%nat) (map fst (w_threads s));
  wo_returned : Forall (fun i => (i < w_next s)%nat) (map fst (w_returned s))
}.

Lemma waiting_start_ok size : 0 < size -> waiting_ok (waiting_start size).
Proof.
  intros Hs. assert (H : all_subs (dht_entry_alloc size) = []).
  { unfold all_subs. cbn. apply concat_replicate_nil. }
  split; cbn [waiting_start w_de w_returned]; [by apply dht_inv_alloc|..]; rewrite ?H; constructor.
Qed.

(** The index once thread [id] has resumed. *)
Definition done_dropped (id : nat) (de : dht_entry) : dht_entry :=
  mkDht (odsc_size de) (odsc_num de) (odsc_hash de) (dht_subs de)
    (List.filter (fun s => negb (s_id s =? id)%nat) (d_done de)) (d_next de).

Lemma sub_resume_cases de n id tab :
  dht_sub_resume de n id tab = None \/ exists more, dht_sub_resume de n id tab = Some (done_dropped id de, tab ++ more).
Proof.
  unfold dht_sub_resume. destruct (find _ _) as [s|]; [|by left]. destruct (0 <? s_remaining s); [by left|].
  right. by exists (s_recv s).
Qed.

Lemma all_subs_dropped id de : map s_id (all_subs (done_dropped id de)) `sublist_of` map s_id (all_subs de).
Proof.
  unfold all_subs, done_dropped. cbn [d_done dht_subs]. rewrite !map_app. apply sublist_app; [|done].
  induction (d_done de) as [|s l IH]; [done|]. cbn [List.filter map]. destruct (negb _); [by apply sublist_skip|by apply sublist_cons].
Qed.

(** A subscription that is added. *)
Definition subscribed (sub : dht_sub) (n : nat) (de : dht_entry) : dht_entry :=
  mkDht (odsc_size de) (odsc_num de) (odsc_hash de) (alter (cons sub) n (dht_subs de)) (d_done de) (d_next de).

Lemma all_subs_subscribed sub n de : (n < length (dht_subs de))%nat -> all_subs (subscribed sub n de) ≡ₚ sub :: all_subs de.
Proof.
  intros Hlt. destruct (concat_alter_split (cons sub) _ _ Hlt) as (l1 & l2 & E1 & E2).
  unfold all_subs, subscribed. cbn [d_done dht_subs]. rewrite E1, E2. solve_Permutation.
Qed.

Lemma dht_inv_subscribed sub n de : dht_inv de -> dht_inv (subscribed sub n de).
Proof. intros []. split; try done. unfold subscribed. cbn. by rewrite length_alter. Qed.

Lemma bin_of_subs de q : dht_inv de -> (bin_of de q < length (dht_subs de))%nat.
Proof. intros Hi. rewrite (inv_subs _ Hi), <- (inv_hash _ Hi). by apply bin_of_lt. Qed.

Section Lemmas.
Context `{EC : ElemCount}.

(** The condition is broadcast whenever a subscription is completed. *)
Lemma add_entry_flag de o : snd (dht_add_entry de o) = false -> d_done (fst (dht_add_entry de o)) = d_done de.
Proof.
  unfold dht_add_entry. destruct (dht_find_match de o) as [[cell o']|];
    destruct (publish _ _ _) as [kept done]; cbn [fst snd d_done]; by destruct done.
Qed.

(** The two outcomes of a query that may wait. *)
Lemma find_wait_cases de q id :
  (exists tab, dht_find_entry_all de q true id = (de, FR_done tab)) \/
  (exists tab m, 0 < m /\ scan_bin q (bin de (bin_of de q)) [] (ec_count (od_bb q)) = (tab, m) /\
     dht_find_entry_all de q true id = (subscribed (mkSub id q m 0 []) (bin_of de q) de, FR_wait tab id)).
Proof.
  unfold dht_find_entry_all. destruct (scan_bin _ _ _ _) as [tab m].
  destruct (Z.ltb_spec 0 m); [right; by exists tab, m|left; by exists tab].
Qed.

Lemma ids_fresh l k : Forall (fun i => (i < k)%nat) l -> ~ In k l.
Proof. rewrite Forall_forall. intros H Hk. apply list_elem_of_In in Hk. specialize (H k Hk). lia. Qed.

Lemma ids_later l k : Forall (fun i => (i < k)%nat) l -> Forall (fun i => (i < S k)%nat) l.
Proof. intros H. eapply Forall_impl; [exact H|]. cbn. lia. Qed.

Lemma waiter_of_in s id x : waiter_of s id = Some x -> In (id, x) (w_threads s).
Proof.
  unfold waiter_of. destruct (find _ _) as [[i y]|] eqn:E; [|done]. intros [= <-]. apply find_some in E as [E1 E2].
  by apply Nat.eqb_eq in E2 as <-.
Qed.

Lemma ids_sublist k (l l' : list nat) : l `sublist_of` l' -> Forall (fun i => (i < k)%nat) l' -> Forall (fun i => (i < k)%nat) l.
Proof. intros Hs H. rewrite Forall_forall in *. intros i Hi. apply H. eapply elem_of_submseteq; [exact Hi|by apply sublist_submseteq]. Qed.

Lemma filter_fst_sublist {A} (f : nat * A -> bool) l : map fst (List.filter f l) `sublist_of` map fst l.
Proof. induction l as [|x l IH]; [done|]. cbn. destruct (f x); [by apply sublist_skip|by apply sublist_cons]. Qed.

Lemma waiting_ok_step s e : waiting_ok s -> waiting_ok (dht_wait_step s e).
Proof.
  intros [Hi Hnd Hf Ht Hr]. destruct e as [o|q|i|i]; cbn [dht_wait_step]; [| |by split|].
  - unfold add_step. destruct (dht_add_entry (w_de s) o) as [de b] eqn:E.
    destruct (add_entry_subs (w_de s) o Hi) as (_ & _ & _ & _ & _ & _ & Hp). rewrite E in Hp. cbn [fst] in Hp.
    split; cbn [w_de w_next w_returned w_threads]; rewrite ?Hp; try done.
    replace de with (fst (dht_add_entry (w_de s) o)) by by rewrite E. by apply dht_add_entry_inv_aux.
  - unfold query_step. destruct (find_wait_cases (w_de s) q (w_next s)) as [(tab & ->)|(tab & m & _ & _ & ->)].
    + split; cbn [w_de w_next w_returned w_threads map fst]; try done; [by apply ids_later..|].
      constructor; [lia|by apply ids_later].
    + pose proof (all_subs_subscribed (mkSub (w_next s) q m 0 []) _ _ (bin_of_subs _ q Hi)) as Hp.
      apply (Permutation_map s_id) in Hp. cbn [map s_id] in Hp.
      split; cbn [w_de w_next w_returned w_threads map fst]; rewrite ?Hp;
        [by apply dht_inv_subscribed| |constructor; [lia|by apply ids_later]..|by apply ids_later].
      constructor; [|done]. rewrite list_elem_of_In. by apply ids_fresh.
  - unfold run_step. destruct (waiter_of s i) as [[n tab]|] eqn:Hw; [|by split]. destruct (cond_asleep s n i); [by split|].
    destruct (sub_resume_cases (w_de s) n i tab) as [->|(more & ->)]; [by split|].
    pose proof (all_subs_dropped i (w_de s)) as Hsub.
    split; cbn [w_de w_next w_returned w_threads map fst].
    + destruct Hi. by split.
    + eapply sublist_NoDup; [exact Hnd|exact Hsub].
    + by eapply ids_sublist.
    + eapply ids_sublist; [apply filter_fst_sublist|done].
    + constructor; [|done]. rewrite Forall_forall in Ht. apply Ht, list_elem_of_In, in_map_iff.
      exists (i, (n, tab)). split; [done|by apply waiter_of_in].
Qed.
End Lemmas.

(** ** One waiting query *)

Section Waiter.
Context `{EC : ElemCounter}.

(** The points of [q] this server owns all lie in [bs]. *)
Definition owned_covered (q : obj_descriptor) (bs : list bbox) : Prop :=
  forall p, In p (box_points (od_bb q)) -> ec_owned p = true -> Exists (in_box p) bs.

Lemma owned_covered_nil q bs : owned_covered q bs <-> uncovered (od_bb q) bs = [].
Proof. unfold owned_covered. by rewrite <- length_zero_iff_nil, length_uncovered_zero. Qed.

(** A waiter that looks goes on exactly when nothing is missing. *)
Lemma sub_state_resume de n id q cov tab : NoDup (map s_id (all_subs de)) -> sub_state de n id q cov ->
  (uncovered (od_bb q) cov = [] -> exists more, dht_sub_resume de n id tab = Some (done_dropped id de, tab ++ more)) /\
  (uncovered (od_bb q) cov <> [] -> dht_sub_resume de n id tab = None).
Proof.
  intros Hnd (s & Hs1 & Hs2 & Hst). apply (NoDup_subs_bin _ n) in Hnd. unfold dht_sub_resume. rewrite <- Hs1.
  rewrite (find_sub_unique _ s Hnd) by (apply in_or_app; destruct Hst as [(_ & ? & _)|(_ & ? & _)]; auto).
  destruct Hst as [(Hu & _ & Hr)|(Hu & _ & Hr)]; rewrite Hr.
  { split; [|done]. intros _. by exists (s_recv s). }
  split; [done|]. intros _. destruct (uncovered _ _); [done|]. cbn [length]. by destruct (Z.ltb_spec 0 (Z.of_nat (S (length l)))); [|lia].
Qed.

(** The insertion that brings the last missing point broadcasts. *)
Lemma last_one_broadcasts de n id q cov cov' o : dht_inv de -> NoDup (map s_id (all_subs de)) ->
  sub_state de n id q cov -> uncovered (od_bb q) cov <> [] ->
  sub_state (fst (dht_add_entry de o)) n id q cov' -> uncovered (od_bb q) cov' = [] ->
  snd (dht_add_entry de o) = true.
Proof.
  intros Hi Hnd (s & Hs1 & _ & Hst) Hu (s' & Hs1' & _ & Hst') Hu'. apply not_false_is_true. intros Hflag.
  apply add_entry_flag in Hflag. destruct Hst as [(? & _)|(_ & Hin & _)]; [done|]. destruct Hst' as [(_ & Hin' & _)|(? & _)]; [|done].
  rewrite Hflag in Hin'. apply (NoDup_subs_bin _ n) in Hnd. rewrite map_app in Hnd. apply NoDup_app in Hnd as (_ & Hd & _).
  apply (Hd id); rewrite list_elem_of_In, in_map_iff; [by exists s'|by exists s].
Qed.

(** The thread of [id] while the boxes [cov] are covered. *)
Definition waiter_state (s : dht_waiting) (n id : nat) (q : obj_descriptor) (tab : list nat) (cov : list bbox) : Prop :=
  waiting_ok s /\ bin_of (w_de s) q = n /\ (id < w_next s)%nat /\
  ((uncovered (od_bb q) cov = [] /\ waiter_of s id = None /\ (exists more, In (id, tab ++ more) (w_returned s)) /\
      forall m, In (id, m) (w_returned s) -> exists more, m = tab ++ more) \/
   (waiter_of s id = Some (n, tab) /\ ~ In id (map fst (w_returned s)) /\ sub_state (w_de s) n id q cov /\
      (uncovered (od_bb q) cov = [] -> cond_asleep s n id = false))).

Lemma waiter_of_filter s id i de k al rt :
  waiter_of (mkWaiting de k (List.filter (fun t => negb (fst t =? i)%nat) (w_threads s)) al rt) id
    = if (id =? i)%nat then None else waiter_of s id.
Proof.
  unfold waiter_of. cbn [w_threads]. induction (w_threads s) as [|[j x] l IH]; cbn; [by destruct (_ =? _)%nat|].
  destruct (Nat.eqb_spec j i) as [->|Hj]; cbn [negb].
  - rewrite IH. destruct (Nat.eqb_spec id i) as [->|Hne]; [done|]. by destruct (Nat.eqb_spec i id) as [->|].
  - cbn [find fst]. destruct (Nat.eqb_spec j id) as [->|Hj2]; [|done]. by destruct (Nat.eqb_spec id i).
Qed.

Lemma cond_asleep_filter s n id (f : nat * nat -> bool) de k th rt :
  cond_asleep s n id = false -> cond_asleep (mkWaiting de k th (List.filter f (w_asleep s)) rt) n id = false.
Proof.
  unfold cond_asleep. cbn [w_asleep]. intros H. apply not_true_is_false. intros (t & Ht & E)%existsb_exists.
  apply filter_In in Ht as [Ht _]. apply not_true_iff_false in H. apply H, existsb_exists. by exists t.
Qed.

Lemma sub_state_dropped de n id i q cov : id <> i -> sub_state de n id q cov -> sub_state (done_dropped i de) n id q cov.
Proof.
  intros Hne (s & Hs1 & Hs2 & Hst). exists s. split; [done|]. split; [done|].
  destruct Hst as [(Hu & Hin & Hr)|(Hu & Hin & Hr)]; [left|by right]. split; [done|]. split; [|done].
  apply filter_In. split; [done|]. apply negb_true_iff, Nat.eqb_neq. congruence.
Qed.

Lemma sub_state_subscribed de n id q cov sub k : sub_state de n id q cov -> sub_state (subscribed sub k de) n id q cov.
Proof.
  intros (s & Hs1 & Hs2 & Hst). exists s. split; [done|]. split; [done|].
  destruct Hst as [Hst|(Hu & Hin & Hr)]; [by left|right]. split; [done|]. split; [|done].
  unfold subs_bin, subscribed in *. cbn [dht_subs]. rewrite nth_alter. case_decide as Hk; [|done]. right. by destruct Hk as [-> _].
Qed.

(** What an event covers. *)
Definition covered_by (q : obj_descriptor) (e : dht_event) (cov : list bbox) : list bbox :=
  match e with
  | D_add o => if sub_matches o (mkSub 0 q 0 0 []) then od_bb o :: cov else cov
  | _ => cov
  end.

Lemma waiter_add_step s n id q tab cov o : queryable (od_bb q) ->
  (sub_matches o (mkSub 0 q 0 0 []) = true -> countable_box (od_bb o) /\ disjoint_boxes (od_bb o :: cov)) ->
  waiter_state s n id q tab cov -> waiter_state (add_step o s) n id q tab (covered_by q (D_add o) cov).
Proof.
  intros Hq Hm (Hok & Hn & Hid & H). pose proof (waiting_ok_step s (D_add o) Hok) as Hok'. cbn [dht_wait_step] in Hok'.
  assert (E : bin_of (w_de (add_step o s)) q = n /\ w_next (add_step o s) = w_next s /\ waiter_of (add_step o s) id = waiter_of s id
    /\ w_returned (add_step o s) = w_returned s /\ w_de (add_step o s) = fst (dht_add_entry (w_de s) o)).
  { pose proof (size_add_entry (w_de s) o) as Hs. unfold add_step. destruct (dht_add_entry (w_de s) o) as [de b].
    cbn [w_de w_next w_returned fst] in *. repeat split. unfold bin_of in *. by rewrite Hs. }
  destruct E as (E1 & E2 & E3 & E4 & E5). split; [done|]. split; [done|]. rewrite E2, E3, E4. split; [done|].
  cbn [covered_by]. set (cov' := if sub_matches _ _ then _ else _). destruct H as [(Hu & H)|(H1 & H2 & H3 & H4)].
  - left. split; [|done]. eapply uncovered_mono; [|exact Hu]. intros p Hp. unfold cov'.
    destruct (sub_matches _ _); [by apply Exists_cons; right|done].
  - right. split; [done|]. split; [done|]. destruct Hok as [Hi Hnd _ _ _].
    assert (Hst : sub_state (fst (dht_add_entry (w_de s) o)) n id q cov') by exact (sub_state_add _ n id q cov o Hi Hn Hq Hm H3).
    rewrite E5. split; [done|]. intros Hu'. unfold add_step.
    destruct (decide (uncovered (od_bb q) cov = [])) as [Hu|Hu].
    + specialize (H4 Hu). destruct (dht_add_entry (w_de s) o) as [de [|]]; [by apply cond_asleep_filter|done].
    + pose proof (last_one_broadcasts _ _ _ _ _ _ _ Hi Hnd H3 Hu Hst Hu') as Hflag.
      destruct (dht_add_entry (w_de s) o) as [de b]. cbn [snd] in Hflag. rewrite Hflag.
      assert (Hb : bin_of (w_de s) o = n).
      { unfold cov' in Hu'. destruct (sub_matches o _) eqn:Hsm; [|done]. unfold sub_matches in Hsm.
        rewrite !andb_true_iff, Z.eqb_eq in Hsm. destruct Hsm as [_ Hv]. rewrite <- Hn. unfold bin_of. by rewrite Hv. }
      rewrite Hb. apply not_true_is_false. unfold cond_asleep. cbn [w_asleep]. intros (t & Ht & E)%existsb_exists.
      apply filter_In in Ht as [_ Ht]. apply andb_true_iff in E as [E _]. by rewrite E in Ht.
Qed.

Lemma waiter_query_step s n id q tab cov q' :
  waiter_state s n id q tab cov -> waiter_state (query_step q' s) n id q tab cov.
Proof.
  intros (Hok & Hn & Hid & H). pose proof (waiting_ok_step s (D_query q') Hok) as Hok'. cbn [dht_wait_step] in Hok'.
  split; [done|]. clear Hok'. unfold query_step.
  assert (Hne : (w_next s =? id)%nat = false) by (apply Nat.eqb_neq; lia).
  destruct (find_wait_cases (w_de s) q' (w_next s)) as [(t & ->)|(t & m & _ & _ & ->)];
    (split; [done|]; split; [cbn; lia|]).
  - destruct H as [(Hu & H1 & (more & H2) & H3)|(H1 & H2 & H3)]; [left|right]; cbn [w_returned map fst] in *.
    + split; [done|]. split; [done|]. split; [exists more; by right|]. intros m [[= ? _]|Hm]; [lia|by apply H3].
    + split; [done|]. split; [|done]. intros [?|?]; [lia|done].
  - assert (Ew : forall de al rt, waiter_of (mkWaiting de (S (w_next s)) ((w_next s, (bin_of (w_de s) q', t)) :: w_threads s) al rt) id
      = waiter_of s id) by (intros; unfold waiter_of; cbn [w_threads find fst]; by rewrite Hne).
    rewrite Ew. destruct H as [H|(H1 & H2 & H3 & H4)]; [by left|right].
    split; [done|]. split; [done|]. split; [by apply sub_state_subscribed|]. intros Hu. unfold cond_asleep. cbn [w_asleep existsb].
    apply orb_false_iff. split; [|by apply H4]. cbn [fst snd]. by rewrite Hne, andb_false_r.
Qed.

Lemma waiter_run_step s n id q tab cov i :
  waiter_state s n id q tab cov -> waiter_state (run_step i s) n id q tab cov.
Proof.
  intros (Hok & Hn & Hid & H). pose proof (waiting_ok_step s (D_run i) Hok) as Hok'. cbn [dht_wait_step] in Hok'.
  split; [done|]. clear Hok'. unfold run_step. destruct (waiter_of s i) as [[n' tab']|] eqn:Hw; [|done].
  destruct (cond_asleep s n' i) eqn:Has; [done|].
  destruct (sub_resume_cases (w_de s) n' i tab') as [E|(more & E)]; rewrite E; (split; [done|]; split; [done|]).
  - destruct H as [H|(H1 & H2 & H3 & H4)]; [by left|right]. split; [done|]. split; [done|]. split; [done|].
    intros Hu. unfold cond_asleep. cbn [w_asleep existsb fst snd]. apply orb_false_iff. split; [|by apply H4].
    destruct (Nat.eqb_spec i id) as [->|]; [|by rewrite andb_false_r]. rewrite H1 in Hw. injection Hw as <- <-.
    destruct (sub_state_resume _ _ _ _ _ tab (wo_nodup _ Hok) H3) as [Hr _]. destruct (Hr Hu) as [m Hm]. congruence.
  - rewrite waiter_of_filter. cbn [w_returned map fst].
    destruct H as [(Hu & H1 & (more' & H2) & H3)|(H1 & H2 & H3 & H4)]; destruct (Nat.eqb_spec id i) as [->|Hne].
    + congruence.
    + left. split; [done|]. split; [done|]. split; [exists more'; by right|]. intros m [[= ? _]|Hm]; [done|by apply H3].
    + left. rewrite H1 in Hw. injection Hw as <- <-.
      destruct (sub_state_resume _ _ _ _ _ tab (wo_nodup _ Hok) H3) as [_ Hr].
      split; [destruct (uncovered (od_bb q) cov) eqn:Hu; [done|by rewrite Hr in E]|]. split; [done|].
      split; [exists more; by left|]. intros m [[= <-]|Hm]; [by exists more|]. destruct H2. apply in_map_iff. by exists (i, m).
    + right. split; [done|]. split; [intros [?|?]; done|]. split; [by apply sub_state_dropped|done].
Qed.

Lemma waiter_step s n id q tab cov e : queryable (od_bb q) ->
  (forall o, e = D_add o -> sub_matches o (mkSub 0 q 0 0 []) = true ->
     countable_box (od_bb o) /\ disjoint_boxes (od_bb o :: cov)) ->
  waiter_state s n id q tab cov -> waiter_state (dht_wait_step s e) n id q tab (covered_by q e cov).
Proof.
  intros Hq Hm H. destruct e as [o|q'|i|i]; cbn [dht_wait_step].
  - apply waiter_add_step; [done|by apply Hm|done].
  - by apply waiter_query_step.
  - destruct H as (Hok & Hn & Hid & H). split; [by apply (waiting_ok_step s (D_spurious i))|]. split; [done|]. split; [done|].
    destruct H as [H|(H1 & H2 & H3 & H4)]; [by left|right]. split; [done|]. split; [done|]. split; [done|].
    intros Hu. by apply cond_asleep_filter, H4.
  - by apply waiter_run_step.
Qed.

Lemma waiter_steps n id q tab es : forall s cov, queryable (od_bb q) -> Forall countable_box (published q (added_by es)) ->
  disjoint_boxes (published q (added_by es) ++ cov) -> waiter_state s n id q tab cov ->
  waiter_state (dht_wait_run s es) n id q tab (rev_append (published q (added_by es)) cov).
Proof.
  induction es as [|e es IH]; intros s cov Hq Hc Hd H; [done|]. cbn [dht_wait_run fold_left].
  change (fold_left dht_wait_step es ?s') with (dht_wait_run s' es).
  assert (E : published q (added_by (e :: es))
    = match e with D_add o => if sub_matches o (mkSub 0 q 0 0 []) then [od_bb o] else [] | _ => [] end ++ published q (added_by es)).
  { unfold published, added_by. destruct e as [o|q'|i|i]; try done. cbn. by destruct (sub_matches _ _). }
  rewrite E in *. apply Forall_app in Hc as [Hc1 Hc2].
  assert (Hstep : waiter_state (dht_wait_step s e) n id q tab (covered_by q e cov)).
  { apply waiter_step; [done| |done]. intros o -> Hm. rewrite Hm in *. split; [by apply Forall_inv in Hc1|].
    intros p. specialize (Hd p). cbn [app] in Hd. rewrite count_boxes_cons, count_boxes_app in Hd. rewrite count_boxes_cons. lia. }
  destruct e as [o|q'|i|i]; cbn [covered_by] in Hstep; cbn [app] in *; [|by apply IH..].
  destruct (sub_matches _ _); cbn [app rev_append] in *; [|by apply IH].
  apply IH; [done|done| |done]. eapply disjoint_boxes_perm; [|exact Hd]. apply Permutation_middle.
Qed.

(** The thread of a query that waits, when it goes to sleep. *)
Lemma waiter_start s q de' tab :
  let n := bin_of (w_de s) q in
  let found := cell_boxes (matching q (bin (w_de s) n)) in
  waiting_ok s -> queryable (od_bb q) -> Forall countable_box found -> disjoint_boxes found ->
  dht_find_entry_all (w_de s) q true (w_next s) = (de', FR_wait tab (w_next s)) ->
  waiter_state (query_step q s) n (w_next s) q tab found.
Proof.
  intros n found Hok Hq Hc Hd Hf. pose proof (waiting_ok_step s (D_query q) Hok) as Hok'. cbn [dht_wait_step] in Hok'.
  split; [done|]. clear Hok'. unfold query_step.
  destruct (find_wait_cases (w_de s) q (w_next s)) as [(t & E)|(t & m & Hm & Hscan & E)]; rewrite E in Hf |- *; [done|].
  injection Hf as _ ->. cbn [w_de w_next w_returned].
  rewrite find_scan in Hscan by done. injection Hscan as _ <-. fold n found in Hm |- *.
  assert (Hu : uncovered (od_bb q) found <> []) by (intros Hu; rewrite Hu in Hm; cbn in Hm; lia).
  split; [done|]. split; [lia|]. right. unfold waiter_of. cbn [w_threads find fst snd]. rewrite Nat.eqb_refl.
  split; [done|]. split; [apply ids_fresh, Hok|]. split; [|done]. exists (mkSub (w_next s) q (Z.of_nat (length (uncovered (od_bb q) found))) 0 []). split; [done|]. split; [done|]. right. split; [done|]. split; [|done].
  unfold subs_bin, subscribed. cbn [dht_subs]. rewrite nth_alter. case_decide as Hk; [by left|].
  destruct Hk. split; [done|]. apply bin_of_subs, Hok.
Qed.

Lemma returned_stays s es t : In t (w_returned s) -> In t (w_returned (dht_wait_run s es)).
Proof.
  revert s. induction es as [|e es IH]; intros s H; [done|]. cbn [dht_wait_run fold_left]. apply IH.
  destruct e as [o|q|i|i]; cbn [dht_wait_step].
  - unfold add_step. by destruct (dht_add_entry _ _).
  - unfold query_step. destruct (dht_find_entry_all _ _ _ _) as [de [t'|t' j]]; [by right|done].
  - done.
  - unfold run_step. destruct (waiter_of s i) as [[n tab]|]; [|done]. destruct (cond_asleep s n i); [done|].
    destruct (dht_sub_resume _ _ _ _) as [[de tab']|]; [by right|done].
Qed.

(** Given the processor, a thread whose points are covered returns. *)
Lemma waiter_returns s n id q tab cov : waiter_state s n id q tab cov -> uncovered (od_bb q) cov = [] ->
  exists more, In (id, tab ++ more) (w_returned (run_step id s)).
Proof.
  intros H Hu. apply (waiter_run_step s n id q tab cov id) in H as H'. destruct H' as (_ & _ & _ & [(_ & _ & H' & _)|(H1 & _)]); [done|].
  destruct H as (Hok & _ & _ & [(_ & E & _)|(E & _ & Hst & Ha)]); unfold run_step in *; rewrite E in *; [congruence|].
  rewrite (Ha Hu). destruct (sub_state_resume _ _ _ _ _ tab (wo_nodup _ Hok) Hst) as [Hr _]. destruct (Hr Hu) as [more ->].
  exists more. by left.
Qed.

Lemma published_app q l l' : published q (l ++ l') = published q l ++ published q l'.
Proof. unfold published. by rewrite List.filter_app, map_app. Qed.

Lemma added_by_app es es' : added_by (es ++ es') = added_by es ++ added_by es'.
Proof. unfold added_by. by rewrite flat_map_app. Qed.

Lemma owned_covered_rev q l l' : owned_covered q (l ++ l') <-> uncovered (od_bb q) (rev_append l l') = [].
Proof.
  rewrite <- owned_covered_nil. unfold owned_covered. setoid_rewrite rev_append_rev. setoid_rewrite Exists_app.
  setoid_rewrite Exists_exists. setoid_rewrite list_elem_of_In. setoid_rewrite <- in_rev. done.
Qed.

(** ** Properties *)

(** C14: A query that waits returns when it can be satisfied, and not before.
    Whatever other threads insert, ask and wait for, and however often waits
    return without a broadcast, when the matching descriptors inserted later do
    not overlap each other nor those found at the start: once the points of
    the query this server owns are covered, its thread is not asleep, so that it
    returns the next time it is given the processor, with a table that starts
    with the cells found first; and a call that has returned had its points
    covered. *)
Theorem dht_subscription_completes s q de' tab es es' :
  let id := w_next s in
  let found := cell_boxes (matching q (bin (w_de s) (bin_of (w_de s) q))) in
  waiting_ok s -> queryable (od_bb q) ->
  Forall countable_box (published q (added_by (es ++ es')) ++ found) ->
  disjoint_boxes (published q (added_by (es ++ es')) ++ found) ->
  dht_find_entry_all (w_de s) q true id = (de', FR_wait tab id) ->
  (owned_covered q (published q (added_by es) ++ found) -> In (D_run id) es' ->
     exists more, In (id, tab ++ more) (w_returned (dht_wait_run s (D_query q :: es ++ es')))) /\
  (forall t, In (id, t) (w_returned (dht_wait_run s (D_query q :: es))) ->
     owned_covered q (published q (added_by es) ++ found) /\ exists more, t = tab ++ more).
Proof.
  intros id found Hok Hq Hc Hd Hf. apply Forall_app in Hc as [Hc Hc0].
  assert (Hd0 : disjoint_boxes found) by (intros p; specialize (Hd p); rewrite count_boxes_app in Hd; lia).
  pose proof (waiter_start s q de' tab Hok Hq Hc0 Hd0 Hf) as H0. fold found id in H0.
  assert (Hrun : forall l, (exists l', es ++ es' = l ++ l') ->
    waiter_state (dht_wait_run s (D_query q :: l)) (bin_of (w_de s) q) id q tab (rev_append (published q (added_by l)) found)).
  { intros l (l' & El). rewrite El, added_by_app, published_app in Hc, Hd. apply Forall_app in Hc as [Hc _].
    change (dht_wait_run s (D_query q :: l)) with (dht_wait_run (query_step q s) l).
    apply waiter_steps; try done. intros p. specialize (Hd p). rewrite !count_boxes_app in Hd. rewrite count_boxes_app. lia. }
  split.
  - intros Hcov Hin. apply in_split in Hin as (l1 & l2 & E).
    assert (Hw : waiter_state (dht_wait_run s (D_query q :: es ++ l1)) (bin_of (w_de s) q) id q tab
      (rev_append (published q (added_by (es ++ l1))) found)).
    { apply Hrun. exists (D_run id :: l2). by rewrite E, app_assoc. }
    destruct (waiter_returns _ _ _ _ _ _ Hw) as [more Hmore].
    + apply owned_covered_rev. intros p Hp Ho. rewrite added_by_app, published_app, <- app_assoc.
      specialize (Hcov p Hp Ho). rewrite !Exists_app in *. tauto.
    + exists more. rewrite E. replace (D_query q :: es ++ l1 ++ D_run id :: l2) with ((D_query q :: es ++ l1) ++ (D_run id :: l2)).
      2: { cbn. by rewrite <- app_assoc. }
      unfold dht_wait_run. rewrite fold_left_app. cbn [fold_left]. apply returned_stays. exact Hmore.
  - intros t Ht. specialize (Hrun es ltac:(by exists es')). destruct Hrun as (_ & _ & _ & [(Hu & _ & _ & Hall)|(_ & Hno & _)]).
    + split; [by apply owned_covered_rev|by apply Hall].
    + destruct Hno. apply in_map_iff. by exists (id, t).
Qed.
End Waiter.

(** ** A concrete run *)

Lemma waiting_ok_run `{EC : ElemCount} es s : waiting_ok s -> waiting_ok (dht_wait_run s es).
Proof.
  revert s. induction es as [|e es IH]; intros s H; [done|]. cbn [dht_wait_run fold_left]. by apply IH, waiting_ok_step.
Qed.

(** An index of two bins that holds the left half of [0..3] x [0..1]. *)
Definition half_index : dht_waiting :=
  dht_wait_run (EC := v0_count) (waiting_start 2) [D_add (demo_odsc "t" 1 (box2 0 0 1 1))].

(** A query for the whole waits: woken for no reason it sleeps again, another
    query comes to wait, an object of another version is inserted, then the
    missing half. *)
Definition half_query : obj_descriptor := demo_odsc "t" 1 (box2 0 0 3 1).
Definition half_events : list dht_event :=
  [D_run 0; D_spurious 0; D_run 0; D_query (demo_odsc "u" 3 (box2 0 0 1 1)); D_add (demo_odsc "t" 3 (box2 2 0 3 1));
   D_run 1; D_add (demo_odsc "t" 1 (box2 2 0 3 1)); D_spurious 1].

Lemma dht_subscription_completes_witness :
  (exists more, In (0%nat, [0%nat] ++ more)
     (w_returned (dht_wait_run (EC := v0_count) half_index (D_query half_query :: half_events ++ [D_run 1; D_run 0])))) /\
  w_returned (dht_wait_run (EC := v0_count) half_index (D_query half_query :: half_events ++ [D_run 1; D_run 0])) = [(0%nat, [0; 1]%nat)].
Proof.
  split; [|vm_compute; reflexivity].
  destruct (dht_find_entry_all (EC := v0_count) (w_de half_index) half_query true 0) as [de1 r] eqn:E.
  destruct (dht_subscription_completes (EC := v0_counter 2) half_index half_query de1 [0%nat] half_events [D_run 1; D_run 0])
    as [H _].
  - apply waiting_ok_run, waiting_start_ok. lia.
  - split; [apply box2_valid; lia|]. split; [reflexivity|vm_compute; reflexivity].
  - change (Forall (countable_box (EC := v0_counter 2)) [box2 2 0 3 1; box2 0 0 1 1]).
    constructor; [apply box2_countable; lia|]. constructor; [apply box2_countable; lia|constructor].
  - intros p. change (count_boxes p [box2 2 0 3 1; box2 0 0 1 1] <= 1)%nat.
    rewrite !count_boxes_cons, count_boxes_nil.
    destruct (decide (in_box p (box2 2 0 3 1))) as [Ha|_], (decide (in_box p (box2 0 0 1 1))) as [Hb|_]; try lia.
    specialize (Ha 0%nat ltac:(simpl; lia)). specialize (Hb 0%nat ltac:(simpl; lia)).
    unfold cget in *. simpl in *. lia.
  - etransitivity; [exact E|]. vm_compute in E. injection E as <- <-. reflexivity.
  - apply H; [|right; left; reflexivity]. clear H E de1 r. intros p Hp _. apply elem_of_box_points in Hp as [_ Hp].
    pose proof (Hp 0%nat ltac:(simpl; lia)) as H0. pose proof (Hp 1%nat ltac:(simpl; lia)) as H1.
    change (Exists (in_box p) [box2 2 0 3 1; box2 0 0 1 1]).
    unfold cget in *. simpl in *. destruct (decide (2 <= nth 0 p 0)).
    + apply Exists_cons_hd. intros [|[|i]] Hi; simpl in Hi; unfold cget; simpl; lia.
    + apply Exists_cons_tl, Exists_cons_hd. intros [|[|i]] Hi; simpl in Hi; unfold cget; simpl; lia.
Defined.
