(* ===== verification/StrHash.v ===== *)
(** * StrHash: the string set of variable names

    [src/include/str_hash.h]: a table of 100 chains.  The refinement theorem
    relates the table to the finite set of its strings. *)

From Stdlib Require Import Ascii.
From S2P Require Import Prelude.

Definition DS_TABLE_SIZE : nat := 100.

(** A [char] is signed on the targets in use. *)
Definition char_val (a : ascii) : Z :=
  let n := Z.of_nat (nat_of_ascii a) in if 128 <=? n then n - 256 else n.

(** [while((c = *str++)) hash = ((hash << 5) + hash) + c;] *)
Fixpoint hash_loop (str : string) (h : Z) : Z :=
  match str with
  | EmptyString => h
  | String c str' => hash_loop str' (u64 (u64 (u64 (Z.shiftl h 5) + h) + char_val c))
  end.

Definition hash (str : string) : nat := Z.to_nat (hash_loop str 5381 mod Z.of_nat DS_TABLE_SIZE).

(** [ds_str_hash]; a chain from its first node on. *)
Record ds_str_hash := mkStrHash { table : list (list string); num_entries : Z }.

Definition ds_str_hash_init : ds_str_hash := mkStrHash (replicate DS_TABLE_SIZE []) 0.

(** The walk to the end of the chain: [None] for a duplicate. *)
Fixpoint chain_add (chain : list string) (str : string) : option (list string) :=
  match chain with
  | [] => Some [str]
  | k :: chain' => if String.eqb k str then None else option_map (cons k) (chain_add chain' str)
  end.

Definition ds_str_hash_add (set : ds_str_hash) (str : string) : ds_str_hash * Z :=
  let index := hash str in
  match chain_add (nth index (table set) []) str with
  | None => (set, 0)
  | Some chain => (mkStrHash (alter (fun _ => chain) index (table set)) (num_entries set + 1), 1)
  end.

Definition ds_str_hash_find (set : ds_str_hash) (str : string) : Z :=
  if existsb (fun k => String.eqb k str) (nth (hash str) (table set) []) then 1 else 0.

(** [num_entries] strings are announced; the loop writes one per node. *)
Definition ds_str_hash_get_all (set : ds_str_hash) : Z * list string :=
  (num_entries set, flat_map id (table set)).

(** ** Invariant and lemmas *)

Definition str_elems (set : ds_str_hash) : list string := concat (table set).

Record str_hash_inv (set : ds_str_hash) : Prop := {
  sh_len : length (table set) = DS_TABLE_SIZE;
  sh_bins : forall n k, In k (nth n (table set) []) -> hash k = n;
  sh_nodup : NoDup (str_elems set);
  sh_num : num_entries set = Z.of_nat (length (str_elems set))
}.

Lemma hash_lt str : (hash str < DS_TABLE_SIZE)%nat.
Proof.
  unfold hash. pose proof (Z.mod_pos_bound (hash_loop str 5381) (Z.of_nat DS_TABLE_SIZE)).
  unfold DS_TABLE_SIZE in *. lia.
Qed.

Lemma chain_add_spec chain str :
  match chain_add chain str with
  | None => In str chain
  | Some c => c = chain ++ [str] /\ ~ In str chain
  end.
Proof.
  induction chain as [|k chain IH]; simpl; [auto|].
  destruct (String.eqb_spec k str) as [->|Hne]; [by left|].
  destruct (chain_add chain str) as [c|]; simpl; [|by right].
  destruct IH as [-> Hn]. split; [done|]. intros [?|?]; done.
Qed.

Lemma in_chain_elems set str :
  str_hash_inv set -> In str (nth (hash str) (table set) []) <-> In str (str_elems set).
Proof.
  intros Hi. split; [apply in_nth_concat|].
  intros (chain & Hc & Hin)%in_concat. apply list_elem_of_In, list_elem_of_lookup in Hc as (n & Hn).
  assert (Hnth : nth n (table set) [] = chain) by by rewrite nth_lookup, Hn.
  rewrite <- Hnth in Hin. by rewrite (sh_bins _ Hi n str Hin).
Qed.

Lemma str_hash_inv_init : str_hash_inv ds_str_hash_init.
Proof.
  split; unfold str_elems; cbn [ds_str_hash_init table num_entries].
  - apply length_replicate.
  - intros n k. by rewrite nth_replicate_same.
  - rewrite concat_replicate_nil. constructor.
  - by rewrite concat_replicate_nil.
Qed.

Lemma ds_str_hash_add_spec set str :
  str_hash_inv set ->
  let '(set', added) := ds_str_hash_add set str in
  str_hash_inv set' /\
  (In str (str_elems set) -> set' = set /\ added = 0) /\
  (~ In str (str_elems set) -> added = 1 /\ str_elems set' ≡ₚ str :: str_elems set).
Proof.
  intros Hi. unfold ds_str_hash_add. pose proof (chain_add_spec (nth (hash str) (table set) []) str) as Hc.
  destruct (chain_add _ str) as [chain|]; rewrite in_chain_elems in Hc by done.
  - destruct Hc as [-> Hn].
    assert (Hlt : (hash str < length (table set))%nat) by (rewrite (sh_len _ Hi); apply hash_lt).
    destruct (concat_alter_split (fun _ => nth (hash str) (table set) [] ++ [str]) _ _ Hlt)
      as (l1 & l2 & E1 & E2).
    assert (Hp : concat (alter (fun _ => nth (hash str) (table set) [] ++ [str]) (hash str) (table set))
                 ≡ₚ str :: str_elems set).
    { unfold str_elems. rewrite E1, E2. solve_Permutation. }
    split; [|by split]. split; unfold str_elems; cbn [table num_entries].
    + rewrite length_alter. apply Hi.
    + intros n k. rewrite nth_alter. case_decide as H; [|by apply (sh_bins _ Hi)].
      destruct H as [-> _]. intros [Hk|[<-|[]]]%in_app_or; [by apply (sh_bins _ Hi)|done].
    + rewrite Hp. constructor; [by rewrite list_elem_of_In|apply Hi].
    + rewrite Hp, (sh_num _ Hi). simpl. lia.
  - split; [done|]. split; done.
Qed.

(** The set obtained by adding the strings of a list in order. *)
Definition add_strings (l : list string) : ds_str_hash :=
  fold_left (fun s k => fst (ds_str_hash_add s k)) l ds_str_hash_init.

Lemma add_strings_spec l :
  str_hash_inv (add_strings l) /\ forall k, In k (str_elems (add_strings l)) <-> In k l.
Proof.
  unfold add_strings. induction l as [|x l [IH1 IH2]] using rev_ind.
  - split; [apply str_hash_inv_init|]. intros k. vm_compute. done.
  - rewrite fold_left_app. cbn [fold_left]. set (s := fold_left _ l _) in *.
    pose proof (ds_str_hash_add_spec s x IH1) as H.
    destruct (ds_str_hash_add s x) as [s' r]. destruct H as (Hi & Hin & Hnin).
    split; [done|]. cbn [fst]. intros k. rewrite in_app_iff. cbn [In].
    destruct (in_dec String.string_dec x (str_elems s)) as [Hx|Hx].
    + destruct (Hin Hx) as [-> _]. rewrite IH2. apply IH2 in Hx. split; [auto|].
      intros [?|[<-|[]]]; done.
    + destruct (Hnin Hx) as [_ Hp]. rewrite <- list_elem_of_In, Hp, elem_of_cons, list_elem_of_In, IH2.
      split; [intros [->|?]; auto|]. intros [?|[<-|[]]]; auto.
Qed.

(** ** Property *)

(** The string table implements a set: after any sequence of additions,
    [ds_str_hash_find] reports exactly the strings added, an addition returns
    1 exactly when the string is new, and [ds_str_hash_get_all] returns each
    string once, as many as the [num_entries] cells it allocates. *)
Theorem ds_str_hash_is_set l str :
  let set := add_strings l in
  (ds_str_hash_find set str = 1 <-> In str l) /\
  (snd (ds_str_hash_add set str) = 1 <-> ~ In str l) /\
  let '(n, names) := ds_str_hash_get_all set in
  n = Z.of_nat (length names) /\ NoDup names /\ forall k, In k names <-> In k l.
Proof.
  intros set. destruct (add_strings_spec l) as [Hi Hin]. fold set in Hi, Hin.
  split; [|split].
  - unfold ds_str_hash_find. rewrite <- Hin, <- in_chain_elems by done.
    destruct (existsb _ _) eqn:E.
    + apply existsb_exists in E as (k & Hk & ->%String.eqb_eq). done.
    + split; [done|]. intros Hk. apply not_true_iff_false in E. exfalso. apply E.
      apply existsb_exists. exists str. by rewrite String.eqb_refl.
  - pose proof (ds_str_hash_add_spec set str Hi) as H. rewrite <- Hin.
    destruct (ds_str_hash_add set str) as [s' r]. destruct H as (_ & H1 & H2). cbn [snd].
    destruct (in_dec String.string_dec str (str_elems set)) as [Hx|Hx].
    + destruct (H1 Hx) as [_ ->]. split; [done|]. done.
    + destruct (H2 Hx) as [-> _]. done.
  - cbn [ds_str_hash_get_all]. rewrite flat_map_concat_map, map_id.
    split; [apply Hi|]. split; [apply Hi|done].
Qed.
