(* ===== verification/LocalStorage.v ===== *)
(** * LocalStorage: the objects and metadata a process holds

    The [ls_*] and [meta_*] functions of [src/src/ss_data.c] on [ss_storage]:
    versioned bins of data objects with eviction of overlapping ones, the
    name dictionary, and the metadata table with its two kinds of waiting
    readers.  Bins are lists, head first; an index outside the table makes a
    lookup undefined ([None] of the outer option). *)

From S2P Require Import Prelude BBox ObjDesc Linear Sspace DhtEntry StrHash.

(** ** State *)

(** [struct obj_data]; [ob_id] is its address. *)
Record obj_data := mkObj {
  ob_id : nat;
  obj_desc : obj_descriptor;
  ob_gdim : global_dimension;
  ob_data : list Z;
  refcnt : Z;
  f_free : bool
}.

(** [struct meta_data]. *)
Record meta_data := mkMeta {
  md_id : nat;
  md_name : string;
  md_version : Z;
  md_data : list Z
}.

(** [struct meta_sub_list_entry] of the waiting call [ms_id]. *)
Record meta_sub := mkMsub {
  ms_id : nat;
  ms_version : Z;
  ms_name : string;
  ms_mdata : option meta_data
}.

(** [ss_storage]; [meta_done] are the subscriptions unlinked with their
    [mdata] set whose readers have not resumed. *)
Record ss_storage := mkLs {
  num_obj : Z;
  size_hash : Z;
  var_dict : ds_str_hash;
  obj_hash : list (list obj_data);
  meta_hash : list (list meta_data);
  meta_subs : list (list meta_sub);
  meta_done : list meta_sub
}.

Definition ls_alloc (max_versions : Z) : ss_storage :=
  let n := Z.to_nat max_versions in
  mkLs 0 max_versions ds_str_hash_init (replicate n []) (replicate n []) (replicate (S n) []) [].

(** [table[i]] for a C [int] index. *)
Definition bin_at {A} (l : list A) (i : Z) : option A :=
  if 0 <=? i then l !! Z.to_nat i else None.

(** ** Objects *)

(** The unsigned [version % size_hash]. *)
Definition obj_index (ls : ss_storage) (odsc : obj_descriptor) : nat :=
  Z.to_nat (od_version odsc mod size_hash ls).

Definition obj_bin (ls : ss_storage) (n : nat) : list obj_data := nth n (obj_hash ls) [].

Definition set_objs (num : Z) (dict : ds_str_hash) (h : list (list obj_data)) (ls : ss_storage) : ss_storage :=
  mkLs num (size_hash ls) dict h (meta_hash ls) (meta_subs ls) (meta_done ls).

(** [list_del] of the object with this address from its bin. *)
Definition remove_id (id : nat) (l : list obj_data) : list obj_data :=
  List.filter (fun od => negb (ob_id od =? id)%nat) l.

Definition ls_remove (ls : ss_storage) (od : obj_data) : ss_storage :=
  set_objs (num_obj ls - 1) (var_dict ls)
    (alter (remove_id (ob_id od)) (obj_index ls (obj_desc od)) (obj_hash ls)) ls.

Definition ls_try_remove_free (ls : ss_storage) (od : obj_data) : ss_storage :=
  if refcnt od =? 0 then ls_remove ls od else ls.

Definition ls_find_no_version (ls : ss_storage) (odsc : obj_descriptor) : option obj_data :=
  find (fun od => obj_desc_by_name_intersect odsc (obj_desc od)) (obj_bin ls (obj_index ls odsc)).

(** [od_existing->f_free = 1] in place. *)
Definition mark_free (id : nat) (l : list obj_data) : list obj_data :=
  map (fun od => if (ob_id od =? id)%nat
                 then mkObj (ob_id od) (obj_desc od) (ob_gdim od) (ob_data od) (refcnt od) true
                 else od) l.

Definition ls_add_obj (ls : ss_storage) (od : obj_data) : ss_storage :=
  let dict := fst (ds_str_hash_add (var_dict ls) (od_name (obj_desc od))) in
  let index := obj_index ls (obj_desc od) in
  let '(num, h) :=
    match ls_find_no_version ls (obj_desc od) with
    | None => (num_obj ls, obj_hash ls)
    | Some od_existing =>
        if refcnt od_existing =? 0
        then (num_obj ls - 1, alter (remove_id (ob_id od_existing)) index (obj_hash ls))
        else (num_obj ls, alter (mark_free (ob_id od_existing)) index (obj_hash ls))
    end in
  set_objs (num + 1) dict (alter (cons od) index h) ls.

Definition ls_lookup (ls : ss_storage) (name : string) : option obj_data :=
  find (fun od => String.eqb (od_name (obj_desc od)) name) (concat (obj_hash ls)).

Definition ls_find (ls : ss_storage) (odsc : obj_descriptor) : option obj_data :=
  find (fun od => obj_desc_equals_intersect odsc (obj_desc od)) (obj_bin ls (obj_index ls odsc)).

Definition ls_find_all_no_version (ls : ss_storage) (var_name : string) : list obj_descriptor :=
  map obj_desc (List.filter (fun od => String.eqb (od_name (obj_desc od)) var_name) (concat (obj_hash ls))).

(** The scan of [ls_find_all]. *)
Fixpoint find_all_loop (odsc : obj_descriptor) (l : list obj_data) (ods : list obj_data) (num_elem : Z)
  : list obj_data * Z :=
  match l with
  | [] => (ods, num_elem)
  | od :: l' =>
      if obj_desc_equals_intersect odsc (obj_desc od) then
        let isect := bbox_intersect (od_bb odsc) (od_bb (obj_desc od)) zero_bbox in
        find_all_loop odsc l' (ods ++ [od]) (i64 (num_elem - bbox_volume isect))
      else find_all_loop odsc l' ods num_elem
  end.

(** [None] is the result [-1]. *)
Definition ls_find_all (ls : ss_storage) (odsc : obj_descriptor) : option (list obj_data) :=
  let '(ods, num_elem) :=
    find_all_loop odsc (obj_bin ls (obj_index ls odsc)) [] (i64 (bbox_volume (od_bb odsc))) in
  if num_elem =? 0 then Some ods else None.

(** Counts, allocates, then fills in the same order. *)
Definition ls_find_ods (ls : ss_storage) (odsc : obj_descriptor) : list obj_descriptor :=
  map obj_desc (List.filter (fun od => obj_desc_match odsc (obj_desc od))
                  (obj_bin ls (obj_index ls odsc))).

Definition ls_get_var_names (ls : ss_storage) : Z * list string := ds_str_hash_get_all (var_dict ls).

(** ** Metadata *)

Definition set_meta (h : list (list meta_data)) (subs : list (list meta_sub)) (done : list meta_sub)
    (ls : ss_storage) : ss_storage :=
  mkLs (num_obj ls) (size_hash ls) (var_dict ls) (obj_hash ls) h subs done.

(** [version] is an [int]: the remainder has its sign. *)
Definition ls_find_meta (ls : ss_storage) (name : string) (version : Z) : option (option meta_data) :=
  list ← bin_at (meta_hash ls) (Z.rem version (size_hash ls));
  Some (find (fun m => String.eqb name (md_name m) && (i32 (md_version m) =? version)) list).

Definition deliver (mdata : meta_data) (s : meta_sub) : meta_sub :=
  mkMsub (ms_id s) (ms_version s) (ms_name s) (Some mdata).

(** The two subscription loops: entries satisfying the test get the new
    metadata and are unlinked. *)
Definition notify (hit : meta_sub -> bool) (mdata : meta_data) (subs : list meta_sub)
  : list meta_sub * list meta_sub :=
  (List.filter (fun s => negb (hit s)) subs, map (deliver mdata) (List.filter hit subs)).

(** The two critical sections of [ls_add_meta], each with whether it
    broadcasts the condition of its list.  Under the mutex of the bin the entry
    is linked, and the readers of its version get it. *)
Definition meta_add (ls : ss_storage) (mdata : meta_data) : ss_storage * bool :=
  let index := Z.to_nat (md_version mdata mod size_hash ls) in
  let hit s := String.eqb (ms_name s) (md_name mdata) && (ms_version s =? i32 (md_version mdata)) in
  let '(keep, done) := notify hit mdata (nth index (meta_subs ls) []) in
  (set_meta (alter (cons mdata) index (meta_hash ls)) (alter (fun _ => keep) index (meta_subs ls)) (done ++ meta_done ls) ls,
   match done with [] => false | _ => true end).

(** Under the last mutex the readers of any version of its name get it. *)
Definition meta_announce (ls : ss_storage) (mdata : meta_data) : ss_storage * bool :=
  let last := Z.to_nat (size_hash ls) in
  let hit s := String.eqb (ms_name s) (md_name mdata) in
  let '(keep, done) := notify hit mdata (nth last (meta_subs ls) []) in
  (set_meta (meta_hash ls) (alter (fun _ => keep) last (meta_subs ls)) (done ++ meta_done ls) ls,
   match done with [] => false | _ => true end).

(** One after the other, after a check that relies on the caller's mutex
    ([MetaStore] has the readers that come in between). *)
Definition ls_add_meta (ls : ss_storage) (mdata : meta_data) : option ss_storage :=
  dup ← ls_find_meta ls (md_name mdata) (i32 (md_version mdata));
  match dup with
  | Some _ => Some ls
  | None => Some (fst (meta_announce (fst (meta_add ls mdata)) mdata))
  end.

(** [list_add] of the stack record, and the wait. *)
Definition ls_subscribe_meta (ls : ss_storage) (name : string) (version : Z) (id : nat) : option ss_storage :=
  let index := Z.rem version (size_hash ls) in
  _ ← bin_at (meta_subs ls) index;
  Some (set_meta (meta_hash ls)
          (alter (cons (mkMsub id version name None)) (Z.to_nat index) (meta_subs ls)) (meta_done ls) ls).

Definition ls_subscribe_meta_no_version (ls : ss_storage) (name : string) (id : nat) : ss_storage :=
  set_meta (meta_hash ls)
    (alter (cons (mkMsub id (-1) name None)) (Z.to_nat (size_hash ls)) (meta_subs ls)) (meta_done ls) ls.

(** A woken reader: [while(!msub.mdata)]. *)
Definition meta_resume (ls : ss_storage) (id : nat) : option meta_data :=
  s ← find (fun s => (ms_id s =? id)%nat) (meta_done ls ++ concat (meta_subs ls));
  ms_mdata s.

Inductive meta_result :=
| MR_done (m : option meta_data)
| MR_wait (id : nat).

Definition meta_find_entry (ls : ss_storage) (name : string) (version : Z) (wait : bool) (id : nat)
  : option (ss_storage * meta_result) :=
  mdata ← ls_find_meta ls name version;
  match mdata with
  | Some m => Some (ls, MR_done (Some m))
  | None =>
      if wait then ls' ← ls_subscribe_meta ls name version id; Some (ls', MR_wait id)
      else Some (ls, MR_done None)
  end.

(** The inner loop on one bin, with its early [break]. *)
Fixpoint next_in_bin (name : string) (curr size : Z) (list : list meta_data) (mdres : option meta_data)
  : option meta_data :=
  match list with
  | [] => mdres
  | m :: list' =>
      if String.eqb (md_name m) name && (curr <? i32 (md_version m))
         && match mdres with None => true | Some r => md_version m <? md_version r end
      then if i32 (md_version m) <? curr + size then Some m
           else next_in_bin name curr size list' (Some m)
      else next_in_bin name curr size list' mdres
  end.

(** [for(i = 0; i < size_hash; i++)]: bins from [curr + 1] on, cyclically;
    [curr + i + 1] is an [int]. *)
Fixpoint next_loop (name : string) (curr : Z) (ls : ss_storage) (n : nat) (i : Z) (mdres : option meta_data)
  : option (option meta_data) :=
  match n with
  | O => Some mdres
  | S n' =>
      if 2 ^ 31 <=? curr + i + 1 then None
      else
        list ← bin_at (meta_hash ls) (Z.rem (curr + i + 1) (size_hash ls));
        next_loop name curr ls n' (i + 1) (next_in_bin name curr (size_hash ls) list mdres)
  end.

Definition meta_find_next_entry (ls : ss_storage) (name : string) (curr : Z) (wait : bool) (id : nat)
  : option (ss_storage * meta_result) :=
  mdres ← next_loop name curr ls (Z.to_nat (size_hash ls)) 0 None;
  match mdres with
  | Some m => Some (ls, MR_done (Some m))
  | None => if wait then Some (ls_subscribe_meta_no_version ls name id, MR_wait id)
            else Some (ls, MR_done None)
  end.

(** ** Invariant *)

Definition all_objs (ls : ss_storage) : list obj_data := concat (obj_hash ls).
Definition all_meta (ls : ss_storage) : list meta_data := concat (meta_hash ls).
Definition meta_bin (ls : ss_storage) (n : nat) : list meta_data := nth n (meta_hash ls) [].

(** Versions that an [int] can hold. *)
Definition version_ok (v : Z) : Prop := 0 <= v < 2 ^ 31.

Record ls_inv (ls : ss_storage) : Prop := {
  li_size : 0 < size_hash ls;
  li_objs : length (obj_hash ls) = Z.to_nat (size_hash ls);
  li_meta : length (meta_hash ls) = Z.to_nat (size_hash ls);
  li_subs : length (meta_subs ls) = S (Z.to_nat (size_hash ls));
  li_obj_bins : forall n od, In od (obj_bin ls n) -> obj_index ls (obj_desc od) = n;
  li_num : num_obj ls = Z.of_nat (length (all_objs ls));
  li_ids : NoDup (map ob_id (all_objs ls));
  li_dict : str_hash_inv (var_dict ls);
  li_names : forall od, In od (all_objs ls) -> In (od_name (obj_desc od)) (str_elems (var_dict ls));
  li_meta_bins : forall n m, In m (meta_bin ls n) ->
    version_ok (md_version m) /\ Z.to_nat (md_version m mod size_hash ls) = n;
  li_meta_uniq : forall m m', In m (all_meta ls) -> In m' (all_meta ls) ->
    md_name m = md_name m' -> md_version m = md_version m' -> m = m'
}.

Lemma ls_inv_alloc n : 0 < n -> ls_inv (ls_alloc n).
Proof.
  intros Hn. split; unfold all_objs, all_meta, obj_bin, meta_bin;
    cbn [ls_alloc num_obj size_hash obj_hash meta_hash meta_subs var_dict];
    rewrite ?length_replicate, ?concat_replicate_nil; try done.
  - intros m od. by rewrite nth_replicate_same.
  - constructor.
  - apply str_hash_inv_init.
  - intros m x. by rewrite nth_replicate_same.
Qed.

(** ** Objects: lemmas *)

Lemma obj_index_lt ls o : ls_inv ls -> (obj_index ls o < length (obj_hash ls))%nat.
Proof.
  intros Hi. rewrite (li_objs _ Hi). unfold obj_index.
  pose proof (Z.mod_pos_bound (od_version o) (size_hash ls) (li_size _ Hi)). lia.
Qed.

Lemma remove_id_notin id l : ~ In id (map ob_id l) -> remove_id id l = l.
Proof.
  induction l as [|od l IH]; simpl; intros Hn; [done|].
  destruct (Nat.eqb_spec (ob_id od) id); [tauto|]. simpl. rewrite IH; [done|tauto].
Qed.

Lemma remove_id_perm od l :
  NoDup (map ob_id l) -> In od l -> l ≡ₚ od :: remove_id (ob_id od) l.
Proof.
  induction l as [|x l IH]; simpl; [done|]. intros [Hx Hnd]%NoDup_cons [->|Hin].
  - rewrite Nat.eqb_refl. simpl. rewrite remove_id_notin; [done|]. by rewrite <- list_elem_of_In.
  - destruct (Nat.eqb_spec (ob_id x) (ob_id od)) as [E|_].
    + destruct Hx. rewrite E. by apply list_elem_of_In, in_map.
    + simpl. rewrite (IH Hnd Hin) at 1. apply Permutation_swap.
Qed.

Lemma mark_free_desc id l : map obj_desc (mark_free id l) = map obj_desc l.
Proof. unfold mark_free. rewrite map_map. apply map_ext. intros od. by destruct (_ =? _)%nat. Qed.

Lemma mark_free_ids id l : map ob_id (mark_free id l) = map ob_id l.
Proof. unfold mark_free. rewrite map_map. apply map_ext. intros od. by destruct (_ =? _)%nat. Qed.

Lemma in_mark_free id l od :
  In od (mark_free id l) -> exists od', In od' l /\ obj_desc od' = obj_desc od /\ ob_id od' = ob_id od /\
    (ob_id od <> id -> od' = od).
Proof.
  unfold mark_free. intros (x & <- & Hx)%in_map_iff. exists x. split; [done|].
  destruct (Nat.eqb_spec (ob_id x) id); simpl; done.
Qed.

Lemma ls_find_no_version_in ls odsc od :
  ls_find_no_version ls odsc = Some od ->
  In od (obj_bin ls (obj_index ls odsc)) /\ obj_desc_by_name_intersect odsc (obj_desc od) = true.
Proof. apply find_some. Qed.

Lemma NoDup_bin_ids ls n : ls_inv ls -> NoDup (map ob_id (obj_bin ls n)).
Proof.
  intros Hi. pose proof (li_ids _ Hi) as Hnd. unfold all_objs in Hnd.
  destruct (decide (n < length (obj_hash ls))%nat) as [Hlt|Hge].
  - destruct (concat_alter_split id _ _ Hlt) as (l1 & l2 & E & _). rewrite E, !map_app in Hnd.
    apply NoDup_app in Hnd as (_ & _ & Hnd). by apply NoDup_app in Hnd as (Hnd & _).
  - unfold obj_bin. rewrite nth_overflow by lia. constructor.
Qed.

(** The bin of the new object and the others, after the eviction step. *)
Definition bin_evicted (ls : ss_storage) (od : obj_data) : list obj_data :=
  let b := obj_bin ls (obj_index ls (obj_desc od)) in
  match ls_find_no_version ls (obj_desc od) with
  | None => b
  | Some x => if refcnt x =? 0 then remove_id (ob_id x) b else mark_free (ob_id x) b
  end.

Lemma alter_compose_nth {A} (f g : list A -> list A) (n : nat) (l : list (list A)) :
  alter f n (alter g n l) = alter (fun x => f (g x)) n l.
Proof.
  apply list_eq. intros i. rewrite !list_lookup_alter. destruct (decide (n = i)) as [->|]; [|done].
  destruct (decide (i = i)); [|done]. by destruct (l !! i).
Qed.

Lemma alter_const_nth {A} (f : list A -> list A) (n : nat) (l : list (list A)) :
  (n < length l)%nat -> alter f n l = alter (fun _ => f (nth n l [])) n l.
Proof.
  intros Hn. apply list_eq. intros i. rewrite !list_lookup_alter.
  destruct (decide (n = i)) as [->|]; [|done].
  destruct (lookup_lt_is_Some_2 l i Hn) as [x Hx]. by rewrite nth_lookup, Hx.
Qed.

Lemma ls_add_obj_eq ls od :
  ls_inv ls ->
  ls_add_obj ls od = set_objs
    (Z.of_nat (length (bin_evicted ls od)) + 1
       + (num_obj ls - Z.of_nat (length (obj_bin ls (obj_index ls (obj_desc od))))))
    (fst (ds_str_hash_add (var_dict ls) (od_name (obj_desc od))))
    (alter (fun _ => od :: bin_evicted ls od) (obj_index ls (obj_desc od)) (obj_hash ls)) ls.
Proof.
  intros Hi. pose proof (obj_index_lt ls (obj_desc od) Hi) as Hlt.
  unfold ls_add_obj, bin_evicted. set (n := obj_index ls (obj_desc od)) in *.
  destruct (ls_find_no_version ls (obj_desc od)) as [x|] eqn:E.
  - apply ls_find_no_version_in in E as [Hin _]. fold n in Hin.
    pose proof (remove_id_perm x _ (NoDup_bin_ids ls n Hi) Hin) as Hp.
    apply Permutation_length in Hp. simpl in Hp.
    destruct (refcnt x =? 0); unfold set_objs; f_equal.
    + lia.
    + rewrite alter_compose_nth. by apply (alter_const_nth (fun l => od :: remove_id (ob_id x) l)).
    + unfold mark_free. rewrite length_map. lia.
    + rewrite alter_compose_nth. by apply (alter_const_nth (fun l => od :: mark_free (ob_id x) l)).
  - unfold set_objs. f_equal; [lia|]. by apply (alter_const_nth (cons od)).
Qed.

Lemma in_bin_evicted ls od x :
  In x (bin_evicted ls od) -> exists y, In y (obj_bin ls (obj_index ls (obj_desc od))) /\
    obj_desc y = obj_desc x /\ ob_id y = ob_id x.
Proof.
  unfold bin_evicted. destruct (ls_find_no_version ls (obj_desc od)) as [e|]; [|eauto].
  destruct (refcnt e =? 0).
  - intros [Hx _]%filter_In. eauto.
  - intros (y & ? & ? & ? & _)%in_mark_free. eauto.
Qed.

Lemma bin_evicted_ids ls od :
  ls_inv ls -> sublist (map ob_id (bin_evicted ls od)) (map ob_id (obj_bin ls (obj_index ls (obj_desc od)))).
Proof.
  intros Hi. unfold bin_evicted. destruct (ls_find_no_version ls (obj_desc od)) as [e|]; [|done].
  destruct (refcnt e =? 0); [|by rewrite mark_free_ids].
  induction (obj_bin ls (obj_index ls (obj_desc od))) as [|x l IH]; [done|]. simpl.
  destruct (ob_id x =? ob_id e)%nat; simpl; [by apply sublist_cons|by apply sublist_skip].
Qed.

Lemma ls_add_obj_inv ls od :
  ls_inv ls -> ~ In (ob_id od) (map ob_id (all_objs ls)) -> ls_inv (ls_add_obj ls od).
Proof.
  intros Hi Hfresh. pose proof (obj_index_lt ls (obj_desc od) Hi) as Hlt.
  rewrite ls_add_obj_eq by done. set (n := obj_index ls (obj_desc od)) in *.
  destruct (concat_alter_split (fun _ => od :: bin_evicted ls od) _ _ Hlt) as (l1 & l2 & E1 & E2).
  pose proof (ds_str_hash_add_spec (var_dict ls) (od_name (obj_desc od)) (li_dict _ Hi)) as Hdict.
  destruct (ds_str_hash_add (var_dict ls) (od_name (obj_desc od))) as [dict added]. cbn [fst].
  destruct Hdict as (Hd1 & Hd2 & Hd3).
  assert (Hd : forall k, In k (str_elems dict) <-> k = od_name (obj_desc od) \/ In k (str_elems (var_dict ls))).
  { intros k. destruct (in_dec String.string_dec (od_name (obj_desc od)) (str_elems (var_dict ls))) as [H|H].
    - destruct (Hd2 H) as [-> _]. split; [auto|]. by intros [->|?].
    - destruct (Hd3 H) as [_ Hp]. rewrite <- list_elem_of_In, Hp, elem_of_cons, list_elem_of_In. done. }
  destruct Hi. split; unfold all_objs, all_meta, obj_bin, meta_bin;
    cbn [set_objs num_obj size_hash obj_hash meta_hash meta_subs var_dict]; try done.
  - by rewrite length_alter.
  - intros m x. rewrite nth_alter. case_decide as Hm; [|apply li_obj_bins0].
    destruct Hm as [-> _]. intros [<-|Hx]; [done|].
    apply in_bin_evicted in Hx as (y & Hy & Hdesc & _). rewrite <- Hdesc. by apply li_obj_bins0.
  - rewrite E2, li_num0. unfold all_objs. rewrite E1. fold (obj_bin ls n).
    rewrite !length_app. simpl. lia.
  - rewrite E2. pose proof (bin_evicted_ids ls od) as Hsub.
    assert (Hsub' : sublist (map ob_id (l1 ++ bin_evicted ls od ++ l2)) (map ob_id (all_objs ls))).
    { unfold all_objs. rewrite E1, !map_app. repeat apply sublist_app; try done. apply Hsub. by split. }
    assert (Hp : l1 ++ (od :: bin_evicted ls od) ++ l2 ≡ₚ od :: l1 ++ bin_evicted ls od ++ l2) by solve_Permutation.
    rewrite Hp. cbn [map]. constructor; [|by eapply sublist_NoDup].
    rewrite <- list_elem_of_In in Hfresh. intros Hin. apply Hfresh.
    eapply elem_of_submseteq; [exact Hin|]. by apply sublist_submseteq.
  - intros x. rewrite E2, Hd. intros Hx. rewrite !in_app_iff in Hx.
    destruct Hx as [Hx|[[<-|Hx]|Hx]]; [|by left| |]; right.
    + apply li_names0. unfold all_objs. rewrite E1. apply in_or_app. auto.
    + apply in_bin_evicted in Hx as (y & Hy & Hdesc & _). rewrite <- Hdesc.
      apply li_names0. by apply (in_nth_concat n).
    + apply li_names0. unfold all_objs. rewrite E1. apply in_or_app. right. apply in_or_app. auto.
Qed.

Lemma all_objs_add ls od :
  ls_inv ls -> exists l1 l2,
    all_objs ls = l1 ++ obj_bin ls (obj_index ls (obj_desc od)) ++ l2 /\
    all_objs (ls_add_obj ls od) = l1 ++ (od :: bin_evicted ls od) ++ l2.
Proof.
  intros Hi. pose proof (obj_index_lt ls (obj_desc od) Hi) as Hlt.
  rewrite ls_add_obj_eq by done.
  destruct (concat_alter_split (fun _ => od :: bin_evicted ls od) _ _ Hlt) as (l1 & l2 & E1 & E2).
  exists l1, l2. done.
Qed.

Lemma obj_bin_add ls od :
  ls_inv ls -> obj_bin (ls_add_obj ls od) (obj_index ls (obj_desc od)) = od :: bin_evicted ls od.
Proof.
  intros Hi. pose proof (obj_index_lt ls (obj_desc od) Hi) as Hlt. rewrite ls_add_obj_eq by done.
  unfold obj_bin, set_objs. cbn [obj_hash]. rewrite nth_alter. case_decide; [done|tauto].
Qed.

Lemma index_add_obj ls od o : obj_index (ls_add_obj ls od) o = obj_index ls o.
Proof.
  unfold ls_add_obj. destruct (ls_find_no_version ls (obj_desc od)) as [x|]; [destruct (refcnt x =? 0)|]; done.
Qed.

Lemma in_bin_evicted_keep ls od x :
  ls_inv ls -> In x (obj_bin ls (obj_index ls (obj_desc od))) ->
  obj_desc_by_name_intersect (obj_desc od) (obj_desc x) = false -> In x (bin_evicted ls od).
Proof.
  intros Hi Hx Hn. unfold bin_evicted.
  destruct (ls_find_no_version ls (obj_desc od)) as [e|] eqn:E; [|done].
  apply ls_find_no_version_in in E as [He Hint].
  assert (Hne : ob_id x <> ob_id e).
  { intros Hid. assert (x = e) as ->; [|congruence].
    pose proof (NoDup_bin_ids ls (obj_index ls (obj_desc od)) Hi) as Hnd. revert Hnd Hx He Hid. clear.
    induction (obj_bin ls _) as [|y l IH]; simpl; [done|].
    intros [Hy Hnd]%NoDup_cons Hx He Hid.
    destruct Hx as [->|Hx], He as [->|He]; try done.
    - destruct Hy. rewrite Hid. by apply list_elem_of_In, in_map.
    - destruct Hy. rewrite <- Hid. by apply list_elem_of_In, in_map.
    - by apply IH. }
  destruct (refcnt e =? 0).
  - apply filter_In. split; [done|]. by destruct (Nat.eqb_spec (ob_id x) (ob_id e)).
  - unfold mark_free. apply in_map_iff. exists x. split; [|done].
    by destruct (Nat.eqb_spec (ob_id x) (ob_id e)).
Qed.

Lemma NoDup_ids_eq (l : list obj_data) x y :
  NoDup (map ob_id l) -> In x l -> In y l -> ob_id x = ob_id y -> x = y.
Proof.
  induction l as [|a l IH]; simpl; [done|]. intros [Ha Hnd]%NoDup_cons Hx Hy Eid.
  rewrite list_elem_of_In, in_map_iff in Ha.
  destruct Hx as [->|Hx], Hy as [->|Hy]; [done| | |by apply IH]; destruct Ha; eauto.
Qed.

(** Taking an object out. *)
Lemma ls_remove_inv ls od :
  ls_inv ls -> In od (all_objs ls) ->
  ls_inv (ls_remove ls od) /\ all_objs ls ≡ₚ od :: all_objs (ls_remove ls od).
Proof.
  intros Hi Hin. pose proof (obj_index_lt ls (obj_desc od) Hi) as Hlt. unfold ls_remove.
  set (n := obj_index ls (obj_desc od)) in *.
  assert (Hbin : In od (obj_bin ls n)).
  { apply in_concat in Hin as (b & (m & Hm)%list_elem_of_In%list_elem_of_lookup & Hb).
    assert (Hnth : obj_bin ls m = b) by (unfold obj_bin; by rewrite nth_lookup, Hm).
    rewrite <- Hnth in Hb. pose proof (li_obj_bins _ Hi m od Hb) as E. fold n in E. by rewrite E. }
  destruct (concat_alter_split (remove_id (ob_id od)) _ _ Hlt) as (l1 & l2 & E1 & E2).
  pose proof (remove_id_perm od _ (NoDup_bin_ids ls n Hi) Hbin) as Hp.
  assert (Hperm : all_objs ls ≡ₚ od :: l1 ++ remove_id (ob_id od) (obj_bin ls n) ++ l2).
  { unfold all_objs. rewrite E1. fold (obj_bin ls n). rewrite Hp at 1. solve_Permutation. }
  split; [|rewrite Hperm; unfold all_objs, set_objs; cbn [obj_hash]; by rewrite E2].
  pose proof (li_ids _ Hi) as Hids. rewrite Hperm in Hids. apply NoDup_cons in Hids as [_ Hids].
  destruct Hi. split; unfold all_objs, all_meta, obj_bin, meta_bin;
    cbn [set_objs num_obj size_hash obj_hash meta_hash meta_subs var_dict]; try done.
  - by rewrite length_alter.
  - intros m x. rewrite nth_alter. case_decide as Hm; [|apply li_obj_bins0].
    destruct Hm as [-> _]. intros [Hx _]%filter_In. by apply li_obj_bins0.
  - rewrite E2, li_num0. apply Permutation_length in Hperm. rewrite Hperm. simpl. fold (obj_bin ls n). lia.
  - rewrite E2. exact Hids.
  - intros x Hx. apply li_names0. rewrite <- list_elem_of_In, Hperm. right. rewrite E2 in Hx.
    by apply list_elem_of_In.
Qed.

Lemma i64_sub_r a b : i64 (a - i64 b) = i64 (a - b).
Proof.
  unfold i64. rewrite <- (Zplus_mod_idemp_l (a - _)), <- (Zplus_mod_idemp_l (a - b)).
  f_equal. f_equal. f_equal. rewrite Zminus_mod, (Zminus_mod a b). f_equal. f_equal.
  rewrite Zminus_mod, Z.mod_mod, <- Zminus_mod by lia. f_equal. lia.
Qed.

(** Boxes of a list of objects. *)
Definition obj_boxes (l : list obj_data) : list bbox := map (fun od => od_bb (obj_desc od)) l.

Definition obj_matching (odsc : obj_descriptor) (l : list obj_data) : list obj_data :=
  List.filter (fun od => obj_desc_equals_intersect odsc (obj_desc od)) l.

Lemma find_all_loop_spec nd odsc l : forall ods cov m,
  queryable (EC := v0_counter nd) (od_bb odsc) ->
  Forall (countable_box (EC := v0_counter nd)) (obj_boxes (obj_matching odsc l)) ->
  disjoint_boxes (obj_boxes (obj_matching odsc l) ++ cov) ->
  m = Z.of_nat (length (uncovered (EC := v0_counter nd) (od_bb odsc) cov)) ->
  find_all_loop odsc l ods m =
    (ods ++ obj_matching odsc l,
     Z.of_nat (length (uncovered (EC := v0_counter nd) (od_bb odsc)
       (rev_append (obj_boxes (obj_matching odsc l)) cov)))).
Proof.
  induction l as [|od l IH]; intros ods cov m Hq Hc Hd ->; cbn [find_all_loop].
  { unfold obj_matching. simpl. by rewrite app_nil_r. }
  unfold obj_matching in *. cbn [List.filter] in *.
  destruct (obj_desc_equals_intersect odsc (obj_desc od)) eqn:E; [|by apply IH].
  cbn [obj_boxes map] in *. apply Forall_cons in Hc as [Ho Hc].
  apply obj_desc_equals_intersect_spec in E as (_ & _ & E).
  pose proof (uncovered_take (EC := v0_counter nd) (od_bb odsc) (od_bb (obj_desc od)) cov
    (Z.of_nat (length (uncovered (EC := v0_counter nd) (od_bb odsc) cov))) Hq Ho E) as Ht.
  unfold ec_count in Ht. cbn [ec_elem_count v0_counter] in Ht. unfold v0_count, ssh_hash_elem_count_v0 in Ht.
  rewrite <- i64_sub_r, Ht; [|intros p; specialize (Hd p)|done].
  - rewrite (IH _ (od_bb (obj_desc od) :: cov)); [by rewrite <- app_assoc|done|done| |done].
    eapply disjoint_boxes_perm; [|exact Hd]. apply Permutation_middle.
  - cbn [app] in Hd. rewrite count_boxes_cons, count_boxes_app in Hd. rewrite count_boxes_cons. lia.
Qed.

(** ** Object properties *)

(** [ls_add_obj] keeps the storage well formed (bins by version class,
    object counter, name dictionary) and makes the new object the one
    [ls_find] returns for its descriptor; every object that does not overlap
    it in the same bin by name and box is kept; of the overlapping ones at
    most the first is touched: dropped when unreferenced, else marked. *)
Theorem ls_add_obj_correct ls od :
  ls_inv ls -> ~ In (ob_id od) (map ob_id (all_objs ls)) -> valid_box (od_bb (obj_desc od)) ->
  let ls' := ls_add_obj ls od in
  ls_inv ls' /\ ls_find ls' (obj_desc od) = Some od /\
  In (od_name (obj_desc od)) (snd (ls_get_var_names ls')) /\
  (forall x, In x (all_objs ls) ->
     obj_index ls (obj_desc x) <> obj_index ls (obj_desc od) \/
     obj_desc_by_name_intersect (obj_desc od) (obj_desc x) = false -> In x (all_objs ls')) /\
  (forall x, ls_find_no_version ls (obj_desc od) = Some x ->
     num_obj ls' = num_obj ls + (if refcnt x =? 0 then 0 else 1)) /\
  (ls_find_no_version ls (obj_desc od) = None -> num_obj ls' = num_obj ls + 1).
Proof.
  intros Hi Hf Hv ls'. pose proof (ls_add_obj_inv ls od Hi Hf) as Hi'. fold ls' in Hi'.
  destruct (all_objs_add ls od Hi) as (l1 & l2 & E1 & E2). fold ls' in E2.
  split; [done|]. split; [|split; [|split; [|split]]].
  - unfold ls_find. unfold ls'. rewrite index_add_obj, obj_bin_add by done. cbn [find].
    assert (E : obj_desc_equals_intersect (obj_desc od) (obj_desc od) = true).
    { apply obj_desc_equals_intersect_spec. split; [done|]. split; [done|].
      apply does_intersect_common; [done..|]. exists (lb (od_bb (obj_desc od))). split; by apply in_box_lb. }
    by rewrite E.
  - unfold ls_get_var_names, ds_str_hash_get_all. cbn [snd]. rewrite flat_map_concat_map, map_id.
    apply (li_names _ Hi'). rewrite E2. apply in_or_app. right. by left.
  - intros x Hx Hc. rewrite E1 in Hx. rewrite E2. rewrite !in_app_iff in Hx |- *. cbn [In].
    destruct Hx as [?|[Hx|?]]; [auto| |auto].
    destruct Hc as [Hc|Hc]; [by apply (li_obj_bins _ Hi) in Hx|].
    right. left. right. by apply in_bin_evicted_keep.
  - intros x Hx. rewrite (li_num _ Hi), (li_num _ Hi'), E1, E2, !length_app. simpl. unfold bin_evicted.
    rewrite Hx. apply ls_find_no_version_in in Hx as [Hin _].
    pose proof (remove_id_perm x _ (NoDup_bin_ids ls _ Hi) Hin) as Hp. apply Permutation_length in Hp.
    simpl in Hp. destruct (refcnt x =? 0); [lia|]. unfold mark_free. rewrite length_map. lia.
  - intros Hx. rewrite (li_num _ Hi), (li_num _ Hi'), E1, E2, !length_app. simpl. unfold bin_evicted.
    rewrite Hx. lia.
Qed.

(** The result in terms of the points no matching object has. *)
Lemma ls_find_all_eq nd ls odsc :
  let found := obj_matching odsc (obj_bin ls (obj_index ls odsc)) in
  queryable (EC := v0_counter nd) (od_bb odsc) ->
  Forall (countable_box (EC := v0_counter nd)) (obj_boxes found) -> disjoint_boxes (obj_boxes found) ->
  ls_find_all ls odsc =
  if (length (uncovered (EC := v0_counter nd) (od_bb odsc) (rev (obj_boxes found))) =? 0)%nat then Some found else None.
Proof.
  intros found Hq Hc Hd. pose proof Hq as (Hqv & Hqd & Hvol). unfold ls_find_all.
  rewrite (find_all_loop_spec nd odsc _ [] []); [|done|done|by rewrite app_nil_r|].
  - rewrite rev_append_rev, app_nil_r. fold found.
    destruct (Nat.eqb_spec (length (uncovered (EC := v0_counter nd) (od_bb odsc) (rev (obj_boxes found)))) 0) as [->|?]; [done|].
    by destruct (Z.eqb_spec (Z.of_nat (length (uncovered (EC := v0_counter nd) (od_bb odsc) (rev (obj_boxes found))))) 0); [lia|].
  - change (i64 (bbox_volume (od_bb odsc))) with (ec_count (ElemCount := ec_elem_count (ElemCounter := v0_counter nd)) (od_bb odsc)).
    by rewrite ec_spec, uncovered_nil.
Qed.

Lemma uncovered_rev_none nd q l :
  (length (uncovered (EC := v0_counter nd) q (rev l)) =? 0)%nat = true <->
  forall p, In p (box_points q) -> Exists (in_box p) l.
Proof.
  rewrite Nat.eqb_eq, length_uncovered_zero. split; intros H p Hp; [specialize (H p Hp eq_refl)|intros _; specialize (H p Hp)];
    apply Exists_exists in H as (b & Hb & Hpb); apply Exists_exists; exists b; rewrite list_elem_of_In, <- ?in_rev in *; done.
Qed.

(** C21: When the stored objects matching a descriptor do not overlap,
    [ls_find_all] returns all of them if they cover every point of the
    requested box and [-1] otherwise. *)
Theorem ls_find_all_covers nd ls odsc :
  let found := obj_matching odsc (obj_bin ls (obj_index ls odsc)) in
  queryable (EC := v0_counter nd) (od_bb odsc) ->
  Forall (countable_box (EC := v0_counter nd)) (obj_boxes found) -> disjoint_boxes (obj_boxes found) ->
  ((forall p, In p (box_points (od_bb odsc)) -> Exists (in_box p) (obj_boxes found)) ->
     ls_find_all ls odsc = Some found) /\
  ((exists p, In p (box_points (od_bb odsc)) /\ ~ Exists (in_box p) (obj_boxes found)) ->
     ls_find_all ls odsc = None).
Proof.
  intros found Hq Hc Hd. rewrite (ls_find_all_eq nd) by done. fold found. split.
  - intros Hcov. by rewrite (proj2 (uncovered_rev_none nd _ _) Hcov).
  - intros (p & Hp & Hn). destruct (_ =? 0)%nat eqn:E0; [|done]. destruct Hn. by apply (proj1 (uncovered_rev_none nd _ _) E0).
Qed.

(** ** Metadata: lemmas *)

Lemma version_ok_i32 v : version_ok v -> i32 v = v.
Proof. intros Hv. apply i32_small. unfold version_ok in Hv. lia. Qed.

Lemma bin_at_version {A} (l : list (list A)) size v :
  0 < size -> length l = Z.to_nat size -> 0 <= v ->
  bin_at l (Z.rem v size) = Some (nth (Z.to_nat (v mod size)) l []).
Proof.
  intros Hs Hl Hv. rewrite Z.rem_mod_nonneg by lia. unfold bin_at.
  pose proof (Z.mod_pos_bound v size Hs). destruct (Z.leb_spec 0 (v mod size)); [|lia].
  destruct (lookup_lt_is_Some_2 l (Z.to_nat (v mod size))) as [x Hx]; [lia|].
  by rewrite nth_lookup, Hx.
Qed.

Lemma meta_in_bin ls m :
  ls_inv ls -> In m (all_meta ls) <-> In m (meta_bin ls (Z.to_nat (md_version m mod size_hash ls))).
Proof.
  intros Hi. split; [|apply in_nth_concat].
  intros (b & Hb & Hin)%in_concat. apply list_elem_of_In, list_elem_of_lookup in Hb as (n & Hn).
  assert (Hb' : meta_bin ls n = b) by (unfold meta_bin; by rewrite nth_lookup, Hn).
  rewrite <- Hb' in Hin. destruct (li_meta_bins _ Hi n m Hin) as [_ <-]. done.
Qed.

Lemma ls_find_meta_spec ls name v :
  ls_inv ls -> version_ok v ->
  exists r, ls_find_meta ls name v = Some r /\
    (forall m, r = Some m -> In m (all_meta ls) /\ md_name m = name /\ md_version m = v) /\
    (r = None -> forall m, In m (all_meta ls) -> md_name m = name -> md_version m = v -> False).
Proof.
  intros Hi Hv. unfold ls_find_meta.
  rewrite bin_at_version by (apply Hi || apply Hv). cbn [mbind option_bind].
  eexists. split; [reflexivity|]. split.
  - intros m Hf. apply find_some in Hf as [Hin Hb]. zify_bool. destruct Hb as [->%String.eqb_eq Hb].
    split; [by apply (in_nth_concat (Z.to_nat (v mod size_hash ls)))|]. split; [done|].
    destruct (li_meta_bins _ Hi _ _ Hin) as [Hok _]. by rewrite version_ok_i32 in Hb.
  - intros Hn m Hin <- <-. apply meta_in_bin in Hin; [|done].
    pose proof (find_none _ _ Hn m Hin) as Hf. cbn beta in Hf.
    rewrite String.eqb_refl, version_ok_i32, Z.eqb_refl in Hf by done. done.
Qed.

(** [r] is the least version above [curr] of a variable among the entries
    that satisfy [P]. *)
Definition next_best (name : string) (curr : Z) (P : meta_data -> Prop) (r : option meta_data) : Prop :=
  match r with
  | None => forall m, P m -> md_name m = name -> curr < md_version m -> False
  | Some m => P m /\ md_name m = name /\ curr < md_version m /\
      forall m', P m' -> md_name m' = name -> curr < md_version m' -> md_version m <= md_version m'
  end.

Lemma next_best_ext name curr (P Q : meta_data -> Prop) r :
  (forall m, P m <-> Q m) -> next_best name curr P r -> next_best name curr Q r.
Proof.
  intros H. unfold next_best. destruct r as [m|].
  - intros (H1 & H2 & H3 & H4). split; [by apply H|]. split; [done|]. split; [done|].
    intros m' Hq. apply H4. by apply H.
  - intros Hn m Hq. apply Hn. by apply H.
Qed.

Lemma next_in_bin_best name curr size n list : forall P r,
  0 < size -> -1 <= curr ->
  (forall m, In m list -> version_ok (md_version m) /\ md_version m mod size = n) ->
  next_best name curr P r ->
  next_best name curr (fun m => P m \/ In m list) (next_in_bin name curr size list r).
Proof.
  induction list as [|m list IH]; intros P r Hs Hc Hl Hb; cbn [next_in_bin].
  { eapply next_best_ext; [|exact Hb]. simpl. tauto. }
  assert (Hl' : forall m', In m' list -> version_ok (md_version m') /\ md_version m' mod size = n).
  { intros m' Hm'. apply Hl. by right. }
  destruct (Hl m (or_introl eq_refl)) as [Hv Hn]. rewrite version_ok_i32 by done.
  assert (Hext : forall r', next_best name curr (fun x => (P x \/ x = m) \/ In x list) r' ->
                            next_best name curr (fun x => P x \/ In x (m :: list)) r').
  { intros r'. apply next_best_ext. intros x. simpl. intuition congruence. }
  destruct (String.eqb (md_name m) name && _ && _) eqn:E.
  - rewrite !andb_true_iff, String.eqb_eq, Z.ltb_lt in E. destruct E as [[Hname Hgt] Hr].
    assert (Hbm : next_best name curr (fun x => P x \/ x = m) (Some m)).
    { split; [by right|]. split; [done|]. split; [done|]. intros m' [Hp| ->] Hn' Hg'; [|lia].
      destruct r as [r|]; [|by destruct (Hb m')]. destruct Hb as (_ & _ & _ & Hmin).
      specialize (Hmin m' Hp Hn' Hg'). zify_bool. lia. }
    destruct (Z.ltb_spec (md_version m) (curr + size)) as [Hlt|Hge].
    + apply Hext. destruct Hbm as (H1 & H2 & H3 & H4).
      split; [by left|]. split; [done|]. split; [done|]. intros m' [Hp|Hin] Hn' Hg'; [by apply H4|].
      destruct (Hl' m' Hin) as [Hv' Hmod]. rewrite <- Hn in Hmod. apply Z.nlt_ge. intros Hlt'.
      pose proof (Z.div_mod (md_version m) size ltac:(lia)).
      pose proof (Z.div_mod (md_version m') size ltac:(lia)).
      assert (md_version m' `div` size < md_version m `div` size) by nia. nia.
    + apply Hext. by apply IH.
  - apply Hext. apply IH; [done..|]. destruct r as [r|].
    + destruct Hb as (H1 & H2 & H3 & H4). split; [by left|]. split; [done|]. split; [done|].
      intros m' [Hp| ->] Hn' Hg'; [by apply H4|]. apply Z.nlt_ge. intros Hlt.
      apply not_true_iff_false in E. apply E. rewrite !andb_true_iff, String.eqb_eq, !Z.ltb_lt. done.
    + intros m' [Hp| ->] Hn' Hg'; [by apply (Hb m')|].
      apply not_true_iff_false in E. apply E. rewrite !andb_true_iff, String.eqb_eq, Z.ltb_lt. done.
Qed.

Lemma next_loop_best name curr ls n : forall i r,
  ls_inv ls -> -1 <= curr -> 0 <= i -> curr + i + Z.of_nat n < 2 ^ 31 ->
  next_best name curr (fun m => In m (all_meta ls) /\
     exists j, 0 <= j < i /\ md_version m mod size_hash ls = (curr + j + 1) mod size_hash ls) r ->
  exists r', next_loop name curr ls n i r = Some r' /\
  next_best name curr (fun m => In m (all_meta ls) /\
     exists j, 0 <= j < i + Z.of_nat n /\
       md_version m mod size_hash ls = (curr + j + 1) mod size_hash ls) r'.
Proof.
  induction n as [|n IH]; intros i r Hi Hc H0 Hmax Hb; cbn [next_loop].
  { exists r. split; [done|]. by rewrite Z.add_0_r. }
  destruct (Z.leb_spec (2 ^ 31) (curr + i + 1)); [lia|].
  pose proof (li_size _ Hi) as Hs.
  rewrite bin_at_version by (done || apply Hi || lia). cbn [mbind option_bind].
  set (k := Z.to_nat ((curr + i + 1) mod size_hash ls)). fold (meta_bin ls k).
  destruct (IH (i + 1) (next_in_bin name curr (size_hash ls) (meta_bin ls k) r)) as (r' & E & Hr);
    [done|done|lia|lia| |].
  - pose proof (Z.mod_pos_bound (curr + i + 1) (size_hash ls) Hs) as Hk.
    assert (Hbin : forall m, In m (meta_bin ls k) ->
      version_ok (md_version m) /\ md_version m mod size_hash ls = (curr + i + 1) mod size_hash ls).
    { intros m Hin. destruct (li_meta_bins _ Hi _ _ Hin) as [Hv Hm]. split; [done|].
      pose proof (Z.mod_pos_bound (md_version m) (size_hash ls) Hs). lia. }
    pose proof (next_in_bin_best name curr _ _ _ _ r Hs Hc Hbin Hb) as Hnb.
    eapply next_best_ext; [|exact Hnb]. intros m. cbn beta. split.
      * intros [[Hin (j & Hj & Hm)]|Hin]; [split; [done|]; exists j; split; [lia|done]|].
        split; [by apply (in_nth_concat k)|]. exists i. split; [lia|]. by apply Hbin.
      * intros [Hin (j & Hj & Hm)]. destruct (decide (j = i)) as [->|].
        -- right. apply meta_in_bin in Hin; [|done]. by rewrite Hm in Hin.
        -- left. split; [done|]. exists j. split; [lia|done].
  - exists r'. split; [done|]. eapply next_best_ext; [|exact Hr]. intros m. cbn beta.
    split; intros (? & j & ? & ?); (split; [done|]); exists j; (split; [lia|done]).
Qed.

(** [meta_find_next_entry] on all bins: the best entry of the storage. *)
Lemma find_next_spec ls name curr wait id :
  ls_inv ls -> -1 <= curr -> curr + size_hash ls < 2 ^ 31 ->
  exists r, next_best name curr (fun m => In m (all_meta ls)) r /\
    meta_find_next_entry ls name curr wait id
    = Some match r with
      | Some m => (ls, MR_done (Some m))
      | None => if wait then (ls_subscribe_meta_no_version ls name id, MR_wait id)
                else (ls, MR_done None)
      end.
Proof.
  intros Hi Hc Hmax. pose proof (li_size _ Hi) as Hs. unfold meta_find_next_entry.
  destruct (next_loop_best name curr ls (Z.to_nat (size_hash ls)) 0 None) as (r & -> & Hr);
    [done|done|lia|lia|intros m [_ (j & Hj & _)]; lia|].
  exists r. split; [|by destruct r, wait].
  eapply next_best_ext; [|exact Hr]. intros m. cbn beta. split; [tauto|]. intros Hin.
  split; [done|]. exists ((md_version m - curr - 1) mod size_hash ls).
  pose proof (Z.mod_pos_bound (md_version m - curr - 1) (size_hash ls) Hs). split; [lia|].
  replace (curr + (md_version m - curr - 1) mod size_hash ls + 1)
    with ((md_version m - curr - 1) mod size_hash ls + (curr + 1)) by lia.
  rewrite Zplus_mod_idemp_l. f_equal. lia.
Qed.

(** The state [ls_add_meta] reaches when the entry is new. *)
Definition meta_added (ls : ss_storage) (m : meta_data) : ss_storage :=
  let index := Z.to_nat (md_version m mod size_hash ls) in
  let last := Z.to_nat (size_hash ls) in
  let hit_v s := String.eqb (ms_name s) (md_name m) && (ms_version s =? i32 (md_version m)) in
  let hit_n s := String.eqb (ms_name s) (md_name m) in
  let b_v := nth index (meta_subs ls) [] in
  let b_n := nth last (meta_subs ls) [] in
  set_meta (alter (cons m) index (meta_hash ls))
    (alter (fun _ => List.filter (fun s => negb (hit_n s)) b_n) last
       (alter (fun _ => List.filter (fun s => negb (hit_v s)) b_v) index (meta_subs ls)))
    (map (deliver m) (List.filter hit_n b_n) ++ map (deliver m) (List.filter hit_v b_v) ++ meta_done ls) ls.

Lemma meta_index_lt ls v :
  ls_inv ls -> (Z.to_nat (v mod size_hash ls) < Z.to_nat (size_hash ls))%nat.
Proof. intros Hi. pose proof (Z.mod_pos_bound v (size_hash ls) (li_size _ Hi)). lia. Qed.

Lemma ls_add_meta_spec ls m :
  ls_inv ls -> version_ok (md_version m) ->
  (exists m0, In m0 (all_meta ls) /\ md_name m0 = md_name m /\ md_version m0 = md_version m /\
     ls_add_meta ls m = Some ls) \/
  ((forall m0, In m0 (all_meta ls) -> md_name m0 = md_name m -> md_version m0 = md_version m -> False) /\
     ls_add_meta ls m = Some (meta_added ls m)).
Proof.
  intros Hi Hv. unfold ls_add_meta. rewrite version_ok_i32 by done.
  destruct (ls_find_meta_spec ls (md_name m) (md_version m) Hi Hv) as (r & -> & H1 & H2).
  cbn [mbind option_bind]. destruct r as [m0|].
  - left. destruct (H1 m0 eq_refl) as (? & ? & ?). eauto.
  - right. split; [by apply H2|]. unfold meta_added, meta_announce, meta_add, notify. cbn [fst set_meta size_hash meta_subs meta_hash meta_done].
    rewrite version_ok_i32 by done. pose proof (meta_index_lt ls (md_version m) Hi).
    assert (Hnth : forall keep, nth (Z.to_nat (size_hash ls))
      (alter (fun _ => keep) (Z.to_nat (md_version m mod size_hash ls)) (meta_subs ls)) []
      = nth (Z.to_nat (size_hash ls)) (meta_subs ls) []).
    { intros keep. rewrite nth_alter. case_decide; [lia|done]. }
    by rewrite !Hnth.
Qed.

Lemma all_meta_added ls m : ls_inv ls -> all_meta (meta_added ls m) ≡ₚ m :: all_meta ls.
Proof.
  intros Hi. pose proof (meta_index_lt ls (md_version m) Hi) as Hlt. rewrite <- (li_meta _ Hi) in Hlt.
  destruct (concat_alter_split (cons m) _ _ Hlt) as (l1 & l2 & E1 & E2).
  unfold all_meta, meta_added. cbn [set_meta meta_hash]. rewrite E1, E2. solve_Permutation.
Qed.

Lemma meta_added_inv ls m :
  ls_inv ls -> version_ok (md_version m) ->
  (forall m0, In m0 (all_meta ls) -> md_name m0 = md_name m -> md_version m0 = md_version m -> False) ->
  ls_inv (meta_added ls m).
Proof.
  intros Hi Hv Hnew. pose proof (all_meta_added ls m Hi) as Hp. destruct Hi.
  split; try done; unfold meta_added; cbn [set_meta meta_hash meta_subs]; rewrite ?length_alter; try done.
  - intros n x. unfold meta_bin, set_meta. cbn [meta_hash]. rewrite nth_alter.
    case_decide as Hn; [|apply li_meta_bins0].
    destruct Hn as [-> _]. intros [<-|Hx]; [done|]. by apply li_meta_bins0.
  - intros x y Hx Hy Hname Hver. fold (meta_added ls m) in Hx, Hy.
    rewrite <- list_elem_of_In, Hp, elem_of_cons, list_elem_of_In in Hx, Hy.
    destruct Hx as [->|Hx], Hy as [->|Hy]; [done| | |by apply li_meta_uniq0].
    + exfalso. by apply (Hnew y).
    + exfalso. by apply (Hnew x).
Qed.

(** The first critical section alone. *)
Lemma all_meta_add ls m : ls_inv ls -> all_meta (fst (meta_add ls m)) ≡ₚ m :: all_meta ls.
Proof. intros Hi. rewrite <- (all_meta_added ls m Hi). unfold meta_add. by destruct (notify _ _ _). Qed.

Lemma meta_add_inv ls m :
  ls_inv ls -> version_ok (md_version m) ->
  (forall m0, In m0 (all_meta ls) -> md_name m0 = md_name m -> md_version m0 = md_version m -> False) ->
  ls_inv (fst (meta_add ls m)).
Proof.
  intros Hi Hv Hnew. pose proof (meta_added_inv ls m Hi Hv Hnew) as [].
  unfold meta_add. destruct (notify _ _ _) as [keep done]. split; try done.
  cbn. rewrite length_alter. apply Hi.
Qed.

(** ** Metadata properties *)

(** [ls_add_meta] stores each (name, version) once: a repeated entry is
    ignored and leaves the storage unchanged; a new one keeps the storage
    well formed, is what [meta_find_entry] then returns for that name and
    version, changes no other entry, and is delivered to every reader that
    waits for that name and version. *)
Theorem ls_add_meta_correct ls m wait id :
  ls_inv ls -> version_ok (md_version m) ->
  exists ls', ls_add_meta ls m = Some ls' /\ ls_inv ls' /\
  ((exists m0, In m0 (all_meta ls) /\ md_name m0 = md_name m /\ md_version m0 = md_version m) -> ls' = ls) /\
  (~ (exists m0, In m0 (all_meta ls) /\ md_name m0 = md_name m /\ md_version m0 = md_version m) ->
     all_meta ls' ≡ₚ m :: all_meta ls /\
     meta_find_entry ls' (md_name m) (md_version m) wait id = Some (ls', MR_done (Some m)) /\
     forall s, In s (nth (Z.to_nat (md_version m mod size_hash ls)) (meta_subs ls) []) ->
       ms_name s = md_name m -> ms_version s = md_version m -> In (deliver m s) (meta_done ls')).
Proof.
  intros Hi Hv. destruct (ls_add_meta_spec ls m Hi Hv) as [(m0 & H1 & H2 & H3 & E)|[Hnew E]].
  - exists ls. split; [done|]. split; [done|]. split; [done|]. intros Hno. destruct Hno. eauto.
  - exists (meta_added ls m). pose proof (meta_added_inv ls m Hi Hv Hnew) as Hi'.
    pose proof (all_meta_added ls m Hi) as Hp.
    split; [done|]. split; [done|]. split; [intros (m0 & ? & ? & ?); exfalso; eauto|]. intros _.
    split; [done|]. split.
    + unfold meta_find_entry. destruct (ls_find_meta_spec _ (md_name m) (md_version m) Hi' Hv) as (r & -> & H1 & H2).
      assert (Hin : In m (all_meta (meta_added ls m))) by (rewrite <- list_elem_of_In, Hp; by left).
      cbn [mbind option_bind]. destruct r as [m'|]; [|by destruct (H2 eq_refl m Hin)].
      destruct (H1 m' eq_refl) as (Hin' & Hn & Hver).
      by rewrite (li_meta_uniq _ Hi' m' m Hin' Hin Hn Hver).
    + intros s Hs Hn Hver. unfold meta_added. cbn [set_meta meta_done]. apply in_or_app. right.
      apply in_or_app. left. apply in_map, filter_In. split; [done|].
      by rewrite Hn, Hver, String.eqb_refl, version_ok_i32, Z.eqb_refl.
Qed.

Lemma ls_add_meta_correct_witness :
  exists ls', ls_add_meta (ls_alloc 2) (mkMeta 0 "m" 3 [1; 2]) = Some ls' /\
    meta_find_entry ls' "m" 3 false 0 = Some (ls', MR_done (Some (mkMeta 0 "m" 3 [1; 2]))).
Proof.
  destruct (ls_add_meta_correct (ls_alloc 2) (mkMeta 0 "m" 3 [1; 2]) false 0) as (ls' & H1 & _ & _ & H).
  - apply ls_inv_alloc. lia.
  - unfold version_ok. simpl. lia.
  - exists ls'. split; [exact H1|]. apply H. intros (m0 & Hin & _). vm_compute in Hin. exact Hin.
Defined.

(** [meta_find_next_entry] finds the least stored version of a variable
    above the current one, although it scans the bins cyclically and leaves
    a bin at the first version within reach; without such a version it
    returns none, or waits. *)
Theorem meta_find_next_entry_least ls name curr id :
  ls_inv ls -> -1 <= curr -> curr + size_hash ls < 2 ^ 31 ->
  exists r, meta_find_next_entry ls name curr false id = Some (ls, MR_done r) /\
  match r with
  | Some m => In m (all_meta ls) /\ md_name m = name /\ curr < md_version m /\
      (forall m', In m' (all_meta ls) -> md_name m' = name -> curr < md_version m' ->
         md_version m <= md_version m') /\
      meta_find_next_entry ls name curr true id = Some (ls, MR_done (Some m))
  | None => (forall m, In m (all_meta ls) -> md_name m = name -> md_version m <= curr) /\
      meta_find_next_entry ls name curr true id
        = Some (ls_subscribe_meta_no_version ls name id, MR_wait id)
  end.
Proof.
  intros Hi Hc Hmax. destruct (find_next_spec ls name curr false id Hi Hc Hmax) as (r & Hb & ->).
  destruct (find_next_spec ls name curr true id Hi Hc Hmax) as (r' & Hb' & ->).
  exists r. destruct r as [m|]; (split; [done|]).
  - destruct Hb as (H1 & H2 & H3 & H4). split_and!; try done.
    destruct r' as [m'|]; [|by destruct (Hb' m)]. destruct Hb' as (H1' & H2' & H3' & H4').
    repeat f_equal. apply (li_meta_uniq _ Hi); [done|done|congruence|].
    pose proof (H4 m' H1' H2' H3'). pose proof (H4' m H1 H2 H3). lia.
  - split; [intros m Hin Hn; apply Z.nlt_ge; intros Hlt; by apply (Hb m)|].
    destruct r' as [m'|]; [|done]. destruct Hb' as (H1' & H2' & H3' & _). by destruct (Hb m').
Qed.

Lemma meta_find_next_entry_least_witness :
  exists ls, foldr (fun m acc => ls ← acc; ls_add_meta ls m) (Some (ls_alloc 3))
      [mkMeta 0 "m" 9 []; mkMeta 1 "m" 5 []; mkMeta 2 "n" 4 []; mkMeta 3 "m" 2 []] = Some ls /\
    meta_find_next_entry ls "m" 2 false 0 = Some (ls, MR_done (Some (mkMeta 1 "m" 5 []))).
Proof.
  destruct (ls_add_meta (ls_alloc 3) (mkMeta 3 "m" 2 [])) as [ls1|] eqn:E1; [|vm_compute in E1; discriminate E1].
  assert (Hgen : forall ls m ls', ls_inv ls -> version_ok (md_version m) -> ls_add_meta ls m = Some ls' -> ls_inv ls').
  { intros ls m ls' Hi Hv E. destruct (ls_add_meta_spec ls m Hi Hv) as [(? & _ & _ & _ & E')|[Hn E']];
      rewrite E' in E; injection E as <-; [assumption|apply meta_added_inv; assumption]. }
  assert (H0 : ls_inv (ls_alloc 3)) by (apply ls_inv_alloc; lia).
  assert (H1 : ls_inv ls1) by (refine (Hgen _ _ _ H0 _ E1); unfold version_ok; simpl; lia).
  destruct (ls_add_meta ls1 (mkMeta 2 "n" 4 [])) as [ls2|] eqn:E2; [|vm_compute in E1; injection E1 as <-; vm_compute in E2; discriminate E2].
  assert (H2 : ls_inv ls2) by (refine (Hgen _ _ _ H1 _ E2); unfold version_ok; simpl; lia).
  destruct (ls_add_meta ls2 (mkMeta 1 "m" 5 [])) as [ls3|] eqn:E3;
    [|vm_compute in E1; injection E1 as <-; vm_compute in E2; injection E2 as <-; vm_compute in E3; discriminate E3].
  assert (H3 : ls_inv ls3) by (refine (Hgen _ _ _ H2 _ E3); unfold version_ok; simpl; lia).
  destruct (ls_add_meta ls3 (mkMeta 0 "m" 9 [])) as [ls4|] eqn:E4;
    [|vm_compute in E1; injection E1 as <-; vm_compute in E2; injection E2 as <-; vm_compute in E3; injection E3 as <-; vm_compute in E4; discriminate E4].
  assert (H4 : ls_inv ls4) by (refine (Hgen _ _ _ H3 _ E4); unfold version_ok; simpl; lia).
  exists ls4. cbn [foldr mbind option_bind]. rewrite E1. cbn [mbind option_bind].
  rewrite E2. cbn [mbind option_bind]. rewrite E3. cbn [mbind option_bind]. split; [exact E4|].
  assert (Hsz : 2 + size_hash ls4 < 2 ^ 31).
  { vm_compute in E1; injection E1 as <-. vm_compute in E2; injection E2 as <-.
    vm_compute in E3; injection E3 as <-. vm_compute in E4; injection E4 as <-. reflexivity. }
  destruct (meta_find_next_entry_least ls4 "m" 2 0 H4 ltac:(lia) Hsz) as (r & Hr & _).
  rewrite Hr. vm_compute in E1; injection E1 as <-. vm_compute in E2; injection E2 as <-.
  vm_compute in E3; injection E3 as <-. vm_compute in E4; injection E4 as <-.
  vm_compute in Hr. rewrite <- Hr. vm_compute. reflexivity.
Defined.

(** A reader that waits for the next version of a variable is handed the
    first entry of that name that arrives, even one that is not after the
    version it has: the subscription does not record it. *)
Theorem meta_next_delivers_any_version ls name curr id m :
  ls_inv ls -> -1 <= curr -> curr + size_hash ls < 2 ^ 31 -> version_ok (md_version m) -> md_name m = name ->
  (forall m', In m' (all_meta ls) -> md_name m' = name -> md_version m' <= curr /\ md_version m' <> md_version m) ->
  exists ls' ls'', meta_find_next_entry ls name curr true id = Some (ls', MR_wait id) /\
    ls_add_meta ls' m = Some ls'' /\
    In (mkMsub id (-1) name (Some m)) (meta_done ls'').
Proof.
  intros Hi Hc Hmax Hv Hn Hall. pose proof (li_size _ Hi) as Hs.
  exists (ls_subscribe_meta_no_version ls name id).
  set (ls' := ls_subscribe_meta_no_version ls name id).
  assert (Hi' : ls_inv ls').
  { destruct Hi. split; try done. unfold ls', ls_subscribe_meta_no_version. simpl. by rewrite length_alter. }
  exists (meta_added ls' m). split; [|split].
  - unfold meta_find_next_entry.
    destruct (next_loop_best name curr ls (Z.to_nat (size_hash ls)) 0 None) as (r & -> & Hr);
      [done|done|lia|lia|intros m' [_ (j & Hj & _)]; lia|].
    cbn [mbind option_bind]. destruct r as [m'|]; [|done].
    destruct Hr as ((Hin & _) & Hn' & Hgt & _). destruct (Hall m' Hin Hn'). lia.
  - destruct (ls_add_meta_spec ls' m Hi' Hv) as [(m0 & H1 & H2 & H3 & _)|[_ E]]; [|done].
    exfalso. destruct (Hall m0 H1) as [_ ?]; [congruence|done].
  - unfold meta_added. cbn [set_meta meta_done]. apply in_or_app. left.
    apply in_map_iff. exists (mkMsub id (-1) name None). split; [done|]. apply filter_In. cbn [ms_name].
    rewrite Hn, String.eqb_refl. split; [|done]. unfold ls', ls_subscribe_meta_no_version, set_meta.
    cbn [meta_subs size_hash]. rewrite nth_alter. case_decide as Hd; [by left|].
    destruct Hd. split; [done|]. rewrite (li_subs _ Hi). lia.
Qed.

Lemma meta_next_delivers_any_version_witness :
  exists ls ls' ls'', ls_add_meta (ls_alloc 3) (mkMeta 0 "m" 9 []) = Some ls /\
    meta_find_next_entry ls "m" 9 true 7 = Some (ls', MR_wait 7) /\
    ls_add_meta ls' (mkMeta 1 "m" 2 []) = Some ls'' /\
    In (mkMsub 7 (-1) "m" (Some (mkMeta 1 "m" 2 []))) (meta_done ls'').
Proof.
  assert (H0 : ls_inv (ls_alloc 3)) by (apply ls_inv_alloc; lia).
  destruct (ls_add_meta_spec (ls_alloc 3) (mkMeta 0 "m" 9 []) H0 ltac:(unfold version_ok; simpl; lia))
    as [(m0 & Hin & _)|[Hnew E]]; [vm_compute in Hin; destruct Hin|].
  pose proof (meta_added_inv _ (mkMeta 0 "m" 9 []) H0 ltac:(unfold version_ok; simpl; lia) Hnew) as H1.
  destruct (meta_next_delivers_any_version _ "m" 9 7 (mkMeta 1 "m" 2 []) H1) as (ls' & ls'' & A & B & C).
  - lia.
  - reflexivity.
  - unfold version_ok. simpl. lia.
  - reflexivity.
  - intros m' Hin _. vm_compute in Hin. destruct Hin as [<-|[]]. simpl. lia.
  - exists (meta_added (ls_alloc 3) (mkMeta 0 "m" 9 [])), ls', ls''.
    split; [exact E|]. split; [exact A|]. split; [exact B|exact C].
Defined.

(** An object of [demo_odsc] with one byte of data. *)
Definition demo_obj (id : nat) (o : obj_descriptor) (refs : Z) : obj_data :=
  mkObj id o (mkGdim 0 zero_coord) [0] refs false.

Definition demo_ls : ss_storage :=
  ls_add_obj (ls_add_obj (ls_alloc 2) (demo_obj 0 (demo_odsc "t" 1 (box2 0 0 1 1)) 0))
    (demo_obj 1 (demo_odsc "t" 1 (box2 2 0 3 1)) 1).

Lemma demo_ls_inv : ls_inv demo_ls.
Proof.
  apply ls_add_obj_inv; [apply ls_add_obj_inv; [apply ls_inv_alloc; lia|]|].
  - vm_compute. intros [].
  - vm_compute. intros [H|[]]. discriminate H.
Qed.

Lemma ls_add_obj_correct_witness :
  let od := demo_obj 2 (demo_odsc "t" 3 (box2 0 0 0 0)) 0 in
  ls_find (ls_add_obj demo_ls od) (obj_desc od) = Some od /\ num_obj (ls_add_obj demo_ls od) = 2.
Proof.
  intros od. destruct (ls_add_obj_correct demo_ls od) as (_ & H & _).
  - apply demo_ls_inv.
  - vm_compute. intros [H|[H|[]]]; discriminate H.
  - apply box2_valid; lia.
  - split; [exact H|vm_compute; reflexivity].
Defined.

Lemma ls_find_all_covers_witness :
  exists ods, ls_find_all demo_ls (demo_odsc "t" 1 (box2 1 0 2 1)) = Some ods /\ length ods = 2%nat.
Proof.
  destruct (ls_find_all_covers 2 demo_ls (demo_odsc "t" 1 (box2 1 0 2 1))) as [H _].
  - split; [apply box2_valid; lia|]. split; [reflexivity|vm_compute; reflexivity].
  - constructor; [apply box2_countable; lia|]. constructor; [apply box2_countable; lia|constructor].
  - intros p. change (count_boxes p [box2 2 0 3 1; box2 0 0 1 1] <= 1)%nat.
    rewrite !count_boxes_cons, count_boxes_nil.
    destruct (decide (in_box p (box2 2 0 3 1))) as [Ha|_], (decide (in_box p (box2 0 0 1 1))) as [Hb|_]; try lia.
    specialize (Ha 0%nat ltac:(simpl; lia)). specialize (Hb 0%nat ltac:(simpl; lia)).
    unfold cget in *. simpl in *. lia.
  - eexists. split; [apply H|vm_compute; reflexivity].
    intros p Hp. apply elem_of_box_points in Hp as [_ Hp].
    pose proof (Hp 0%nat ltac:(simpl; lia)) as H0. pose proof (Hp 1%nat ltac:(simpl; lia)) as H1.
    change (Exists (in_box p) [box2 2 0 3 1; box2 0 0 1 1]).
    unfold cget in *. simpl in *. destruct (decide (2 <= nth 0 p 0)).
    + apply Exists_cons_hd. intros [|[|i]] Hi; simpl in Hi; unfold cget; simpl; lia.
    + apply Exists_cons_tl, Exists_cons_hd. intros [|[|i]] Hi; simpl in Hi; unfold cget; simpl; lia.
Defined.
