(* ===== verification/Matrix.v ===== *)
(** * Matrix: copying the common part of two data objects

    [matrix_init], [matrix_copy] and [ssd_copy] of [src/src/ss_data.c]: the
    nest of up to ten loops that copies, row by row, the elements two objects
    share.  Dimension 0 is the fastest; a data buffer is a list of bytes, and
    a [memcpy] outside a buffer makes the copy undefined ([None]). *)

From S2P Require Import Prelude BBox ObjDesc LocalStorage.

(** ** Data *)

(** [struct matrix] with its view inlined. *)
Record matrix := mkMatrix {
  mat_dist : coord;
  mat_lb : coord;
  mat_ub : coord;
  mat_num_dims : nat;
  mat_size_elem : Z;
  mat_storage : storage_type;
  mat_pdata : list Z
}.

Definition matrix_init (st : storage_type) (bb_glb bb_loc : bbox) (pdata : list Z) (se : Z) : matrix :=
  let ndims := num_dims bb_glb in
  mkMatrix
    (set_range ndims (fun i => bbox_dist bb_glb i) zero_coord)
    (set_range ndims (fun i => u64 (cget (lb bb_loc) i - cget (lb bb_glb) i)) zero_coord)
    (set_range ndims (fun i => u64 (cget (ub bb_loc) i - cget (lb bb_glb) i)) zero_coord)
    ndims se st pdata.

(** [memcpy(&dst[doff], &src[soff], n)]. *)
Definition memcpy (dst : list Z) (doff : Z) (src : list Z) (soff n : Z) : option (list Z) :=
  if (doff + n <=? Z.of_nat (length dst)) && (soff + n <=? Z.of_nat (length src))
  then Some (take (Z.to_nat doff) dst ++ take (Z.to_nat n) (drop (Z.to_nat soff) src)
             ++ drop (Z.to_nat (doff + n)) dst)
  else None.

(** [for(a = a0, b = b0; a <= ub; a++, b++) body]: [n] iterations. *)
Fixpoint copy_loop {S} (n : nat) (a b : Z) (body : Z -> Z -> S -> option S) (s : S) : option S :=
  match n with
  | O => Some s
  | Datatypes.S n' => s' ← body a b s; copy_loop n' (u64 (a + 1)) (u64 (b + 1)) body s'
  end.

(** Iterations of the loop over [lb..ub]; [ub] below [2^64 - 1]. *)
Definition loop_count (lb ub : Z) : nat := Z.to_nat (ub - lb + 1).

(** The loops of dimensions [k] down to 0, entered with [aloc], [bloc]: the
    state is the destination buffer and [num_copied_elem].  Level 9 computes
    [bloc9] from [a9]. *)
Fixpoint copy_levels (a b : matrix) (k : nat) (aloc bloc : Z) (st : list Z * Z) : option (list Z * Z) :=
  match k with
  | O =>
      let '(A, num) := st in
      let numelem := u64 (u64 (cget (mat_ub a) 0 - cget (mat_lb a) 0) + 1) in
      let aloc := u64 (aloc + cget (mat_lb a) 0) in
      let bloc := u64 (bloc + cget (mat_lb b) 0) in
      A' ← memcpy A (u64 (aloc * mat_size_elem a)) (mat_pdata b) (u64 (bloc * mat_size_elem a))
             (u64 (mat_size_elem a * numelem));
      Some (A', u64 (num + numelem))
  | S k' =>
      copy_loop (loop_count (cget (mat_lb a) k) (cget (mat_ub a) k))
        (cget (mat_lb a) k) (cget (mat_lb b) k)
        (fun ak bk st =>
           copy_levels a b k'
             (u64 (u64 (aloc + ak) * cget (mat_dist a) k'))
             (u64 (u64 (bloc + (if (k =? 9)%nat then ak else bk)) * cget (mat_dist b) k')) st)
        st
  end.

(** The entry label: [dim1] to [dim10]; other dimensionalities fall into
    [dim10] as well.  The count is returned as an [int]. *)
Definition entry_level (num_dims : nat) : nat :=
  if (1 <=? num_dims)%nat && (num_dims <=? 10)%nat then (num_dims - 1)%nat else 9%nat.

Definition matrix_copy (a b : matrix) : option (list Z * Z) :=
  '(A, num) ← copy_levels a b (entry_level (mat_num_dims a)) 0 0 (mat_pdata a, 0);
  Some (A, i32 num).

Definition ssd_copy (to_obj from_obj : obj_data) : option (obj_data * Z) :=
  let to_desc := set_tag_type (od_tag (obj_desc from_obj)) (od_type (obj_desc from_obj)) (obj_desc to_obj) in
  let bbcom := bbox_intersect (od_bb to_desc) (od_bb (obj_desc from_obj)) zero_bbox in
  let from_mat := matrix_init (od_st (obj_desc from_obj)) (od_bb (obj_desc from_obj)) bbcom
                    (ob_data from_obj) (od_size (obj_desc from_obj)) in
  let to_mat := matrix_init (od_st to_desc) (od_bb to_desc) bbcom (ob_data to_obj) (od_size to_desc) in
  '(data, copied_elems) ← matrix_copy to_mat from_mat;
  Some (mkObj (ob_id to_obj) to_desc (ob_gdim to_obj) data (refcnt to_obj) (f_free to_obj), copied_elems).

(** ** Linear positions *)

(** Position of the cell [x] of dimensions [0..k] in a buffer of sides
    [dist]. *)
Fixpoint lin (dist x : nat -> Z) (k : nat) : Z :=
  match k with
  | O => x 0%nat
  | S k' => x k * zprod k dist + lin dist x k'
  end.

Lemma lin_ext dist x y k : (forall i, (i <= k)%nat -> x i = y i) -> lin dist x k = lin dist y k.
Proof.
  induction k as [|k IH]; intros H; cbn [lin]; [by apply H|].
  rewrite (H (S k)), IH; [done| |lia]. intros. apply H. lia.
Qed.

Lemma lin_range dist x k :
  (forall i, (i <= k)%nat -> 0 <= x i < dist i) -> 0 <= lin dist x k < zprod (S k) dist.
Proof.
  induction k as [|k IH]; intros H.
  - specialize (H 0%nat ltac:(lia)). cbn [lin zprod]. lia.
  - specialize (IH ltac:(intros; apply H; lia)). specialize (H (S k) ltac:(lia)).
    cbn [lin]. cbn [zprod] in *. nia.
Qed.

Lemma memcpy_spec dst doff src soff n :
  0 <= doff -> 0 <= soff -> 0 <= n ->
  doff + n <= Z.of_nat (length dst) -> soff + n <= Z.of_nat (length src) ->
  exists r, memcpy dst doff src soff n = Some r /\ length r = length dst /\
    forall i : nat, r !! i =
      if decide (doff <= Z.of_nat i < doff + n) then src !! Z.to_nat (soff + (Z.of_nat i - doff))
      else dst !! i.
Proof.
  intros Hd Hs Hn Hl Hl'. unfold memcpy.
  destruct (Z.leb_spec (doff + n) (Z.of_nat (length dst))); [|lia].
  destruct (Z.leb_spec (soff + n) (Z.of_nat (length src))); [|lia]. cbn [andb].
  eexists. split; [done|]. split.
  - rewrite !length_app, length_drop, !length_take, length_drop. lia.
  - intros i. rewrite lookup_app. destruct (decide (Z.of_nat i < doff)) as [Hi|Hi].
    + rewrite lookup_take_lt by lia. destruct (dst !! i) eqn:E.
      * case_decide; [lia|done].
      * apply lookup_ge_None in E. lia.
    + rewrite lookup_take_ge by lia. rewrite length_take, lookup_app.
      replace (Z.to_nat doff `min` length dst)%nat with (Z.to_nat doff) by lia.
      case_decide as Hc.
      * rewrite lookup_take_lt, lookup_drop by lia.
        destruct (lookup_lt_is_Some_2 src (Z.to_nat soff + (i - Z.to_nat doff))) as [x Hx]; [lia|].
        rewrite Hx. rewrite <- Hx. f_equal. lia.
      * rewrite lookup_take_ge by lia. rewrite length_take, length_drop, lookup_drop. f_equal. lia.
Qed.

(** ** The loop nest *)

Section Levels.
Context (a b : matrix).

Let sz := mat_size_elem a.
Let lo := cget (mat_lb a).
Let hi := cget (mat_ub a).
Let lob := cget (mat_lb b).
Let dA := cget (mat_dist a).
Let dB := cget (mat_dist b).

(** The cell of the source that corresponds to [x]. *)
Definition shift (x : nat -> Z) (i : nat) : Z := x i - lo i + lob i.

(** Dimensions [0..k] of the views are non-empty, inside the sides below the
    top one, and away from the wrap-around of the loop counters. *)
Definition view_ok (k : nat) : Prop :=
  0 < sz /\
  (forall j, (j <= k)%nat -> 0 <= lo j <= hi j /\ hi j < 2 ^ 63 /\ 0 <= lob j /\ lob j + (hi j - lo j) < 2 ^ 63) /\
  (forall j, (j < k)%nat -> hi j < dA j /\ lob j + (hi j - lo j) < dB j).

(** The blocks reached from [aloc] and [bloc] are inside the buffers. *)
Definition fits (k : nat) (top aloc bloc lenA : Z) : Prop :=
  0 <= aloc /\ 0 <= bloc /\ lenA < 2 ^ 64 /\ Z.of_nat (length (mat_pdata b)) < 2 ^ 64 /\
  sz * ((aloc + top + 1) * zprod k dA) <= lenA /\
  sz * ((bloc + shift (fun _ => top) k + 1) * zprod k dB) <= Z.of_nat (length (mat_pdata b)).

Definition in_view (k : nat) (x : nat -> Z) : Prop := forall j, (j <= k)%nat -> lo j <= x j <= hi j.

(** Byte [t] of cell [x], entered with [aloc]. *)
Definition dst_pos (k : nat) (aloc : Z) (x : nat -> Z) (t : Z) : Z :=
  sz * (aloc * zprod k dA + lin dA x k) + t.
Definition src_pos (k : nat) (bloc : Z) (x : nat -> Z) (t : Z) : Z :=
  sz * (bloc * zprod k dB + lin dB (shift x) k) + t.

(** The buffer [A'] is [A] with the cells satisfying [P] copied. *)
Definition copied (k : nat) (aloc bloc : Z) (P : (nat -> Z) -> Prop) (A A' : list Z) : Prop :=
  length A' = length A /\
  (forall x t (i : nat), P x -> 0 <= t < sz -> Z.of_nat i = dst_pos k aloc x t ->
     A' !! i = mat_pdata b !! Z.to_nat (src_pos k bloc x t)) /\
  (forall i : nat, (forall x t, P x -> 0 <= t < sz -> Z.of_nat i <> dst_pos k aloc x t) -> A' !! i = A !! i).

Definition copied_count (k : nat) : Z := zprod (S k) (fun j => hi j - lo j + 1).

Lemma levels_zero aloc bloc A num :
  view_ok 0 -> fits 0 (hi 0%nat) aloc bloc (Z.of_nat (length A)) ->
  0 <= num -> num + copied_count 0 < 2 ^ 64 ->
  exists A', copy_levels a b 0 aloc bloc (A, num) = Some (A', num + copied_count 0) /\
    copied 0 aloc bloc (in_view 0) A A'.
Proof.
  intros (Hsz & Hv & _) (Ha & Hb & HlA & HlB & HfA & HfB) Hnum Hcnt.
  destruct (Hv 0%nat ltac:(lia)) as (Hlo & Hhi & Hlob & Hlob').
  unfold copied_count in *. cbn [zprod] in *. rewrite Z.mul_1_l in *.
  unfold shift in HfB. rewrite !Z.mul_1_r in HfA, HfB. cbn [copy_levels].
  fold (lo 0%nat) (hi 0%nat) (lob 0%nat) sz. autorewrite with cint.
  assert (Haloc : 0 <= aloc + lo 0%nat < 2 ^ 64) by nia.
  assert (Hbloc : 0 <= bloc + lob 0%nat < 2 ^ 64) by nia.
  assert (Hn : 0 <= hi 0%nat - lo 0%nat + 1 < 2 ^ 64) by lia.
  assert (Hd : 0 <= (aloc + lo 0%nat) * sz /\ (aloc + lo 0%nat) * sz + sz * (hi 0%nat - lo 0%nat + 1) <= Z.of_nat (length A)) by nia.
  assert (Hs : 0 <= (bloc + lob 0%nat) * sz /\ (bloc + lob 0%nat) * sz + sz * (hi 0%nat - lo 0%nat + 1) <= Z.of_nat (length (mat_pdata b))) by nia.
  assert (Hm : 0 <= sz * (hi 0%nat - lo 0%nat + 1) < 2 ^ 64) by nia.
  rewrite !(u64_small (hi 0%nat - lo 0%nat)) by lia.
  rewrite !(u64_small (_ * sz)), (u64_small (sz * _)), (u64_small (num + _)) by lia.
  destruct (memcpy_spec A ((aloc + lo 0%nat) * sz) (mat_pdata b) ((bloc + lob 0%nat) * sz)
    (sz * (hi 0%nat - lo 0%nat + 1))) as (r & -> & Hlen & Hr); [lia..|].
  exists r. split; [done|]. split; [done|]. unfold dst_pos, src_pos, shift. cbn [zprod lin]. split.
  - intros x t i Hx Ht Hi. specialize (Hx 0%nat ltac:(lia)). rewrite Hr. case_decide as Hc.
    + f_equal. f_equal. lia.
    + exfalso. apply Hc. rewrite Hi. unfold dst_pos. cbn [zprod lin].
      assert (0 <= sz * (x 0%nat - lo 0%nat) <= sz * (hi 0%nat - lo 0%nat)) by (clear - Hsz Hx; nia). lia.
  - intros i Hi. rewrite Hr. case_decide as Hc; [|done]. exfalso.
    set (q := (Z.of_nat i - (aloc + lo 0%nat) * sz) `div` sz).
    pose proof (Z.div_mod (Z.of_nat i - (aloc + lo 0%nat) * sz) sz ltac:(lia)) as Hq. fold q in Hq.
    pose proof (Z.mod_pos_bound (Z.of_nat i - (aloc + lo 0%nat) * sz) sz Hsz) as Hq'.
    apply (Hi (fun _ => lo 0%nat + q) ((Z.of_nat i - (aloc + lo 0%nat) * sz) mod sz)); [|lia|lia].
    intros j Hj. replace j with 0%nat by lia.
    assert (0 <= q) by (apply Z.div_pos; lia).
    assert (q < hi 0%nat - lo 0%nat + 1) by (apply Z.div_lt_upper_bound; lia). lia.
Qed.

Lemma zprod_dist_pos k (d : nat -> Z) : (forall j, (j < k)%nat -> 0 < d j) -> 1 <= zprod k d.
Proof. intros H. pose proof (zprod_pos k d H). lia. Qed.

(** The positions of one iteration [v] of dimension [S k]. *)
Lemma dst_pos_step k aloc x t v :
  x (S k) = v -> dst_pos (S k) aloc x t = dst_pos k ((aloc + v) * dA k) x t.
Proof. intros Hv. unfold dst_pos. cbn [lin zprod]. rewrite Hv. ring. Qed.

Lemma src_pos_step k bloc x t w :
  shift x (S k) = w -> src_pos (S k) bloc x t = src_pos k ((bloc + w) * dB k) x t.
Proof. intros Hv. unfold src_pos. cbn [lin zprod]. rewrite Hv. ring. Qed.

(** Cells of later iterations lie past those of iteration [v]. *)
Lemma dst_pos_order k aloc x y t u :
  view_ok (S k) -> in_view (S k) x -> in_view (S k) y -> 0 <= aloc ->
  x (S k) < y (S k) -> 0 <= t < sz -> 0 <= u ->
  dst_pos (S k) aloc x t < dst_pos (S k) aloc y u.
Proof.
  intros (Hsz & Hv & Hd) Hx Hy Ha Hlt Ht Hu.
  assert (Hr : forall z, in_view (S k) z -> 0 <= lin dA z k < zprod (S k) dA).
  { intros z Hz. apply lin_range. intros i Hi. destruct (Hv i ltac:(lia)) as (? & ? & _).
    destruct (Hd i ltac:(lia)) as [? _]. specialize (Hz i ltac:(lia)). lia. }
  pose proof (Hr x Hx). pose proof (Hr y Hy). unfold dst_pos. cbn [lin].
  set (D := zprod (S k) dA) in *. set (X := lin dA x k) in *. set (Y := lin dA y k) in *.
  assert (Hxy : x (S k) * D + X + 1 <= y (S k) * D + Y) by (clear - Hlt H H0; nia).
  clear - Hxy Hsz Ht Hu. nia.
Qed.

Lemma copied_trans k aloc bloc (P Q : (nat -> Z) -> Prop) A A1 A2 :
  copied k aloc bloc P A A1 -> copied k aloc bloc Q A1 A2 ->
  (forall x y t u, P x -> Q y -> 0 <= t < sz -> 0 <= u < sz -> dst_pos k aloc x t <> dst_pos k aloc y u) ->
  copied k aloc bloc (fun x => P x \/ Q x) A A2.
Proof.
  intros (L1 & C1 & K1) (L2 & C2 & K2) Hd. split; [congruence|]. split.
  - intros x t i [Hx|Hx] Ht Hi; [|by apply C2]. rewrite K2; [by apply C1|].
    intros y u Hy Hu E. apply (Hd x y t u); done || congruence.
  - intros i Hi. rewrite K2, K1; [done| |]; intros x t Hx Ht; apply Hi; auto.
Qed.

Lemma copied_ext k aloc bloc (P Q : (nat -> Z) -> Prop) A A' :
  (forall x t, 0 <= t < sz -> P x -> Q x) ->
  (forall x t, 0 <= t < sz -> Q x -> exists y, P y /\ dst_pos k aloc x t = dst_pos k aloc y t /\
     src_pos k bloc x t = src_pos k bloc y t) ->
  copied k aloc bloc P A A' -> copied k aloc bloc Q A A'.
Proof.
  intros H1 H2 (L & C & K). split; [done|]. split.
  - intros x t i Hx Ht Hi. destruct (H2 x t Ht Hx) as (y & Hy & Hd & Hs). rewrite Hs.
    apply C; [done|done|congruence].
  - intros i Hi. apply K. intros x t Hx Ht. apply Hi; [by eapply H1|done].
Qed.
(** The positions of a body iteration fit when the whole level does. *)
Lemma block_fits sz' c v top h d D len :
  0 < sz' -> 0 <= c -> 0 <= v <= top -> 0 <= h -> h < d -> 1 <= D ->
  sz' * ((c + top + 1) * (D * d)) <= len ->
  0 <= (c + v) * d /\ (c + v) * d <= len /\ sz' * (((c + v) * d + h + 1) * D) <= len.
Proof.
  intros Hs Hc Hv Hh Hd HD Hl.
  assert (H1 : (c + v) * d + h + 1 <= (c + top + 1) * d) by nia.
  assert (H2 : ((c + v) * d + h + 1) * D <= (c + top + 1) * d * D) by (apply Z.mul_le_mono_nonneg_r; lia).
  assert (H3 : 0 <= (c + v) * d) by nia.
  assert (H4 : (c + v) * d <= ((c + v) * d + h + 1) * D) by nia.
  assert (H5 : ((c + v) * d + h + 1) * D <= sz' * (((c + v) * d + h + 1) * D)) by nia.
  split; [done|]. assert (sz' * (((c + v) * d + h + 1) * D) <= len); [|lia].
  transitivity (sz' * ((c + top + 1) * (D * d))); [|done]. apply Z.mul_le_mono_nonneg_l; lia.
Qed.

Lemma view_ok_pred k : view_ok (S k) -> view_ok k.
Proof.
  intros (H1 & H2 & H3). split; [done|]. split; intros j Hj; [apply H2|apply H3]; lia.
Qed.

Lemma fits_body k aloc bloc v lenA :
  view_ok (S k) -> fits (S k) (hi (S k)) aloc bloc lenA -> lo (S k) <= v <= hi (S k) ->
  fits k (hi k) ((aloc + v) * dA k) ((bloc + (v - lo (S k) + lob (S k))) * dB k) lenA /\
  (aloc + v) * dA k < 2 ^ 64 /\ (bloc + (v - lo (S k) + lob (S k))) * dB k < 2 ^ 64 /\
  aloc + v < 2 ^ 64 /\ bloc + (v - lo (S k) + lob (S k)) < 2 ^ 64.
Proof.
  intros (Hsz & Hv & Hd) (Ha & Hb & HlA & HlB & HfA & HfB) Hvr.
  destruct (Hv (S k) ltac:(lia)) as (Hlo & Hhi & Hlob & Hlob').
  destruct (Hv k ltac:(lia)) as (Hlo' & Hhi' & Hlobk & Hlobk'). destruct (Hd k ltac:(lia)) as [HdA HdB].
  assert (HDA : 1 <= zprod k dA).
  { apply zprod_dist_pos. intros j Hj. destruct (Hd j ltac:(lia)), (Hv j ltac:(lia)). lia. }
  assert (HDB : 1 <= zprod k dB).
  { apply zprod_dist_pos. intros j Hj. destruct (Hd j ltac:(lia)), (Hv j ltac:(lia)). lia. }
  cbn [zprod] in HfA, HfB. unfold shift in HfB.
  destruct (block_fits sz aloc v (hi (S k)) (hi k) (dA k) (zprod k dA) lenA) as (A1 & A2 & A3);
    [done|done|lia|lia|done|done|done|].
  destruct (block_fits sz bloc (v - lo (S k) + lob (S k)) (hi (S k) - lo (S k) + lob (S k))
    (hi k - lo k + lob k) (dB k) (zprod k dB) (Z.of_nat (length (mat_pdata b)))) as (B1 & B2 & B3);
    [done|done|lia|lia|lia|done|done|].
  assert (aloc + v <= (aloc + v) * dA k) by nia.
  assert (bloc + (v - lo (S k) + lob (S k)) <= (bloc + (v - lo (S k) + lob (S k))) * dB k) by nia.
  split; [|lia]. unfold fits, shift. split; [lia|]. split; [lia|]. split; [lia|]. split; [lia|].
  split; [exact A3|exact B3].
Qed.

Lemma copied_body k aloc bloc v A A' :
  copied k ((aloc + v) * dA k) ((bloc + (v - lo (S k) + lob (S k))) * dB k) (in_view k) A A' ->
  lo (S k) <= v <= hi (S k) ->
  copied (S k) aloc bloc (fun x => in_view (S k) x /\ x (S k) = v) A A'.
Proof.
  intros (L & C & K) Hv. split; [done|]. split.
  - intros x t i [Hx Hxv] Ht Hi. rewrite (dst_pos_step _ _ _ _ v Hxv) in Hi.
    rewrite (src_pos_step _ _ _ _ (v - lo (S k) + lob (S k))) by (unfold shift; lia).
    apply C; [|done|done]. intros j Hj. apply Hx. lia.
  - intros i Hi. apply K. intros x t Hx Ht E.
    set (y := fun j => if decide (j = S k) then v else x j).
    assert (Hyv : y (S k) = v) by (unfold y; by case_decide).
    apply (Hi y t); [|done|].
    + split; [|done]. intros j Hj. unfold y. case_decide as Hjk; [rewrite Hjk; lia|]. apply Hx. lia.
    + rewrite (dst_pos_step _ _ _ _ v Hyv), E. unfold dst_pos. do 3 f_equal.
      apply lin_ext. intros j Hj. unfold y. case_decide; [lia|done].
Qed.

Definition levels_at (k : nat) : Prop := forall aloc bloc A num,
  view_ok k -> fits k (hi k) aloc bloc (Z.of_nat (length A)) ->
  0 <= num -> num + copied_count k < 2 ^ 64 ->
  exists A', copy_levels a b k aloc bloc (A, num) = Some (A', num + copied_count k) /\
    copied k aloc bloc (in_view k) A A'.

Lemma copied_count_pos k : view_ok k -> 0 <= copied_count k.
Proof.
  intros (_ & Hv & _). apply zprod_nonneg. intros j Hj. destruct (Hv j ltac:(lia)). lia.
Qed.

Lemma loop_spec k aloc bloc n : forall v A num,
  levels_at k -> (k < 8)%nat -> view_ok (S k) -> fits (S k) (hi (S k)) aloc bloc (Z.of_nat (length A)) ->
  lo (S k) <= v -> v + Z.of_nat n = hi (S k) + 1 ->
  0 <= num -> num + Z.of_nat n * copied_count k < 2 ^ 64 ->
  exists A', copy_loop n v (v - lo (S k) + lob (S k))
    (fun ak bk st => copy_levels a b k
       (u64 (u64 (aloc + ak) * cget (mat_dist a) k))
       (u64 (u64 (bloc + (if (S k =? 9)%nat then ak else bk)) * cget (mat_dist b) k)) st) (A, num)
    = Some (A', num + Z.of_nat n * copied_count k) /\
  copied (S k) aloc bloc (fun x => in_view (S k) x /\ v <= x (S k)) A A'.
Proof.
  induction n as [|n IH]; intros v A num HL Hk Hw Hf Hlo Hn Hnum Hcnt; cbn [copy_loop].
  { exists A. split; [f_equal; f_equal; lia|]. split; [done|]. split; [|done].
    intros x t i [Hx Hxv] _ _. specialize (Hx (S k) ltac:(lia)). lia. }
  assert (Hv : lo (S k) <= v <= hi (S k)) by lia.
  destruct (fits_body k aloc bloc v _ Hw Hf Hv) as (Hf' & Ha1 & Hb1 & Ha2 & Hb2).
  pose proof Hf as (Ha & Hb & _). pose proof Hf' as (Ha' & Hb' & _).
  pose proof Hw as (_ & Hview & _). destruct (Hview (S k) ltac:(lia)) as (? & ? & ? & ?).
  pose proof (copied_count_pos k (view_ok_pred _ Hw)) as Hcp.
  replace (S k =? 9)%nat with false in * by (symmetry; apply Nat.eqb_neq; lia).
  fold (dA k) (dB k). rewrite (u64_small (aloc + v)), (u64_small (bloc + _)) by lia.
  rewrite !u64_small by lia.
  destruct (HL ((aloc + v) * dA k) ((bloc + (v - lo (S k) + lob (S k))) * dB k) A num) as (A1 & E1 & C1);
    [by apply view_ok_pred|done|done|lia|].
  rewrite E1. cbn [mbind option_bind].
  replace (v - lo (S k) + lob (S k) + 1) with (v + 1 - lo (S k) + lob (S k)) by lia.
  destruct (IH (v + 1) A1 (num + copied_count k)) as (A2 & E2 & C2); [done|done|done| |lia|lia|lia|lia|].
  { destruct C1 as (HlA & _). by rewrite HlA. }
  exists A2. split; [etransitivity; [exact E2|]; f_equal; f_equal; lia|].
  apply copied_body in C1; [|done].
  eapply copied_ext; [| |eapply (copied_trans _ _ _ _ _ _ _ _ C1 C2)].
  - intros x t _ [[? ?]|[? ?]]; (split; [done|lia]).
  - intros x t _ [Hx Hxv]. exists x. split; [|done].
    destruct (decide (x (S k) = v)); [left; done|right; split; [done|lia]].
  - intros x y t u [Hx Hxv] [Hy Hyv] Ht Hu.
    pose proof (dst_pos_order k aloc x y t u Hw Hx Hy Ha ltac:(lia) Ht ltac:(lia)). lia.
Qed.

Lemma levels_spec k : (k <= 8)%nat -> levels_at k.
Proof.
  induction k as [|k IH]; intros Hk aloc bloc A num Hw Hf Hnum Hcnt.
  { by apply levels_zero. }
  cbn [copy_levels]. fold lo hi lob. pose proof Hw as (_ & Hview & _).
  destruct (Hview (S k) ltac:(lia)) as (? & ? & ? & ?).
  unfold copied_count in Hcnt. remember (S k) as m eqn:Em. cbn [zprod] in Hcnt. subst m.
  fold (copied_count k) in Hcnt.
  assert (Hn : Z.of_nat (loop_count (lo (S k)) (hi (S k))) = hi (S k) - lo (S k) + 1).
  { unfold loop_count. lia. }
  destruct (loop_spec k aloc bloc (loop_count (lo (S k)) (hi (S k))) (lo (S k)) A num)
    as (A' & E & C); [apply IH; lia|lia|done|done|lia|lia|done|rewrite Hn; lia|].
  replace (lo (S k) - lo (S k) + lob (S k)) with (lob (S k)) in E by lia.
  exists A'. split.
  - etransitivity; [exact E|]. f_equal. f_equal. rewrite Hn. unfold copied_count. cbn [zprod]. lia.
  - eapply copied_ext; [| |exact C].
    + intros x t _ [? _]. done.
    + intros x t _ Hx. exists x. split; [|done]. split; [done|]. apply (Hx (S k)). lia.
Qed.
End Levels.

(** ** Objects *)

(** Position of a point in the buffer of a box, in elements. *)
Definition box_pos (b : bbox) (p : coord) : Z :=
  lin (side b) (fun i => cget p i - cget (lb b) i) (num_dims b - 1).

Lemma lin_dist_ext d1 d2 x k : (forall i, (i < k)%nat -> d1 i = d2 i) -> lin d1 x k = lin d2 x k.
Proof.
  induction k as [|k IH]; intros H; cbn [lin]; [done|].
  rewrite IH by (intros; apply H; lia). f_equal. f_equal. apply zprod_ext. exact H.
Qed.

Lemma lin_inj d x y k :
  (forall i, (i <= k)%nat -> 0 <= x i < d i) -> (forall i, (i <= k)%nat -> 0 <= y i < d i) ->
  lin d x k = lin d y k -> forall i, (i <= k)%nat -> x i = y i.
Proof.
  induction k as [|k IH]; intros Hx Hy E i Hi.
  { replace i with 0%nat by lia. exact E. }
  pose proof (lin_range d x k ltac:(intros; apply Hx; lia)) as Rx.
  pose proof (lin_range d y k ltac:(intros; apply Hy; lia)) as Ry.
  cbn [lin] in E. set (D := zprod (S k) d) in *.
  assert (Hxy : x (S k) = y (S k)) by (clear - E Rx Ry; nia).
  destruct (decide (i = S k)) as [->|]; [done|].
  apply IH; [intros; apply Hx; lia|intros; apply Hy; lia| |lia]. rewrite Hxy in E. lia.
Qed.

(** What [ssd_copy] needs of an object: a box of at most nine dimensions
    with corners below [2^63] and a buffer of exactly its size. *)
Definition copyable (size : Z) (b : bbox) (data : list Z) : Prop :=
  valid_box b /\ (forall i, (i < num_dims b)%nat -> cget (ub b) i < 2 ^ 63) /\
  (1 <= num_dims b <= 9)%nat /\ 0 < size /\ Z.of_nat (length data) = size * zvolume b /\
  size * zvolume b < 2 ^ 64.

Section Init.
Context (st : storage_type) (bg bc : bbox) (data : list Z) (size : Z).
Hypothesis Hg : copyable size bg data.
Hypothesis Hin : forall i, (i < num_dims bg)%nat ->
  cget (lb bg) i <= cget (lb bc) i <= cget (ub bc) i /\ cget (ub bc) i <= cget (ub bg) i.

Lemma init_cells i :
  (i < num_dims bg)%nat ->
  let m := matrix_init st bg bc data size in
  cget (mat_dist m) i = side bg i /\
  cget (mat_lb m) i = cget (lb bc) i - cget (lb bg) i /\
  cget (mat_ub m) i = cget (ub bc) i - cget (lb bg) i.
Proof.
  intros Hi m. destruct Hg as (((Hn & Hl & Hu) & Hv) & Hub & _).
  specialize (Hin i Hi). specialize (Hub i Hi). pose proof (wf_coord_range (lb bg) i Hl).
  unfold m, matrix_init. cbn [mat_dist mat_lb mat_ub].
  rewrite !cget_set_range_lt by (done || (unfold zero_coord; rewrite length_replicate; done)).
  unfold bbox_dist. rewrite coord_dist_side. unfold side. rewrite !u64_small by lia. done.
Qed.
End Init.

Lemma zvolume_top b :
  (1 <= num_dims b)%nat ->
  zvolume b = (cget (ub b) (num_dims b - 1) - cget (lb b) (num_dims b - 1) + 1) * zprod (num_dims b - 1) (side b).
Proof.
  intros Hn. unfold zvolume. destruct (num_dims b) as [|n]; [lia|]. cbn [zprod].
  replace (S n - 1)%nat with n by lia. unfold side at 2. lia.
Qed.

Section Copy.
Context (to_obj from_obj : obj_data).

Let bt := od_bb (obj_desc to_obj).
Let bf := od_bb (obj_desc from_obj).
Let size := od_size (obj_desc to_obj).
Let bc := bbox_intersect bt bf zero_bbox.
Let n := num_dims bt.

Hypothesis Ht : copyable size bt (ob_data to_obj).
Hypothesis Hf : copyable size bf (ob_data from_obj).
Hypothesis Hsize : od_size (obj_desc from_obj) = size.
Hypothesis Hn : num_dims bf = num_dims bt.
Hypothesis Hint : bbox_does_intersect bt bf = true.

Let a := matrix_init (od_st (obj_desc to_obj)) bt bc (ob_data to_obj) size.
Let b := matrix_init (od_st (obj_desc from_obj)) bf bc (ob_data from_obj) size.

Lemma common_bounds i :
  (i < n)%nat ->
  cget (lb bc) i = Z.max (cget (lb bt) i) (cget (lb bf) i) /\
  cget (ub bc) i = Z.min (cget (ub bt) i) (cget (ub bf) i) /\
  cget (lb bc) i <= cget (ub bc) i.
Proof.
  intros Hi. destruct Ht as ((Hwt & Hvt) & _), Hf as ((Hwf & Hvf) & _).
  assert (E1 : cget (lb bc) i = Z.max (cget (lb bt) i) (cget (lb bf) i)).
  { unfold bc. rewrite lb_intersect by (auto with dspaces; apply Hwt). done. }
  assert (E2 : cget (ub bc) i = Z.min (cget (ub bt) i) (cget (ub bf) i)).
  { unfold bc. rewrite ub_intersect by (auto with dspaces; apply Hwt). done. }
  split; [done|]. split; [done|]. rewrite E1, E2.
  unfold bbox_does_intersect in Hint. rewrite for_all_true in Hint. specialize (Hint i Hi).
  rewrite bbox_intersect_ondim_spec in Hint. specialize (Hvt i Hi). specialize (Hvf i ltac:(lia)). lia.
Qed.

Lemma common_in_to i : (i < num_dims bt)%nat ->
  cget (lb bt) i <= cget (lb bc) i <= cget (ub bc) i /\ cget (ub bc) i <= cget (ub bt) i.
Proof. intros Hi. destruct (common_bounds i Hi) as (? & ? & ?). lia. Qed.

Lemma common_in_from i : (i < num_dims bf)%nat ->
  cget (lb bf) i <= cget (lb bc) i <= cget (ub bc) i /\ cget (ub bc) i <= cget (ub bf) i.
Proof. intros Hi. rewrite Hn in Hi. destruct (common_bounds i Hi) as (? & ? & ?). lia. Qed.

Lemma to_cells i : (i < n)%nat ->
  cget (mat_dist a) i = side bt i /\ cget (mat_lb a) i = cget (lb bc) i - cget (lb bt) i /\
  cget (mat_ub a) i = cget (ub bc) i - cget (lb bt) i.
Proof. intros Hi. by apply (init_cells _ bt bc (ob_data to_obj) size Ht common_in_to). Qed.

Lemma from_cells i : (i < n)%nat ->
  cget (mat_dist b) i = side bf i /\ cget (mat_lb b) i = cget (lb bc) i - cget (lb bf) i /\
  cget (mat_ub b) i = cget (ub bc) i - cget (lb bf) i.
Proof.
  intros Hi. apply (init_cells _ bf bc (ob_data from_obj) size Hf common_in_from). by rewrite Hn.
Qed.

Lemma coord_nonneg bx i data : copyable size bx data -> 0 <= cget (lb bx) i.
Proof. intros (((_ & Hl & _) & _) & _). by apply wf_coord_range. Qed.

Lemma copy_view_ok : view_ok a b (n - 1).
Proof.
  destruct Ht as (_ & Hub & Hdim & Hs & _). fold n in Hdim, Hub.
  split; [exact Hs|]. split; intros j Hj.
  - destruct (to_cells j ltac:(lia)) as (_ & -> & ->). destruct (from_cells j ltac:(lia)) as (_ & -> & _).
    destruct (common_in_to j) as [? ?]; [unfold n in *; lia|].
    destruct (common_in_from j) as [? ?]; [unfold n in *; lia|].
    pose proof (coord_nonneg bt j _ Ht). pose proof (coord_nonneg bf j _ Hf).
    specialize (Hub j ltac:(lia)). lia.
  - destruct (to_cells j ltac:(lia)) as (-> & -> & ->). destruct (from_cells j ltac:(lia)) as (-> & -> & _).
    destruct (common_in_to j) as [? ?]; [unfold n in *; lia|].
    destruct (common_in_from j) as [? ?]; [unfold n in *; lia|]. unfold side. lia.
Qed.

Lemma copy_fits : fits a b (n - 1) (cget (mat_ub a) (n - 1)) 0 0 (Z.of_nat (length (ob_data to_obj))).
Proof.
  pose proof Ht as (_ & _ & Hdim & Hs & Hlt & Hlt'). pose proof Hf as (_ & _ & _ & _ & Hlf & Hlf').
  fold n in Hdim. unfold fits. cbn [mat_pdata b matrix_init]. split; [lia|]. split; [lia|].
  split; [lia|]. split; [unfold b; cbn [mat_pdata matrix_init]; lia|]. unfold shift.
  destruct (to_cells (n - 1) ltac:(lia)) as (_ & -> & ->). destruct (from_cells (n - 1) ltac:(lia)) as (_ & -> & _).
  destruct (common_in_to (n - 1)) as [? ?]; [unfold n in *; lia|].
  destruct (common_in_from (n - 1)) as [? ?]; [unfold n in *; lia|].
  rewrite (zprod_ext _ (cget (mat_dist a)) (side bt)) by (intros i Hi; apply to_cells; lia).
  rewrite (zprod_ext _ (cget (mat_dist b)) (side bf)) by (intros i Hi; apply from_cells; lia).
  change (mat_size_elem a) with size.
  assert (Hpos : forall bx data, copyable size bx data -> num_dims bx = n -> 0 <= zprod (n - 1) (side bx)).
  { intros bx data ((_ & Hv) & _) Hd. apply zprod_nonneg. intros i Hi. specialize (Hv i ltac:(lia)). unfold side. lia. }
  pose proof (Hpos bt _ Ht eq_refl). pose proof (Hpos bf _ Hf Hn).
  unfold b. cbn [mat_pdata matrix_init]. rewrite Hlt, Hlf, (zvolume_top bt), (zvolume_top bf), Hn by lia.
  fold n. split; apply Z.mul_le_mono_nonneg_l; try lia; apply Z.mul_le_mono_nonneg_r; lia.
Qed.

Lemma copy_count_volume : copied_count a (n - 1) = zvolume bc.
Proof.
  destruct Ht as (_ & _ & Hdim & _). fold n in Hdim. unfold copied_count, zvolume.
  replace (S (n - 1)) with n by lia. change (num_dims bc) with n. apply zprod_ext.
  intros i Hi. destruct (to_cells i Hi) as (_ & -> & ->). unfold side. lia.
Qed.

Lemma copy_count_bound : 0 <= zvolume bc < 2 ^ 64.
Proof.
  pose proof Ht as ((_ & Hv) & _ & _ & Hs & _ & Hvol).
  assert (zvolume bc <= zvolume bt).
  { unfold zvolume. apply zprod_mono. intros i Hi. destruct (common_in_to i Hi). unfold side. lia. }
  assert (0 <= zvolume bc).
  { apply zprod_nonneg. intros i Hi. destruct (common_in_to i Hi). unfold side. lia. }
  split; [done|]. nia.
Qed.

(** Offsets of a point from the corner of a box. *)
Let off (bx : bbox) (p : coord) (i : nat) : Z := cget p i - cget (lb bx) i.

Lemma dst_pos_point p t : dst_pos a (n - 1) 0 (off bt p) t = size * box_pos bt p + t.
Proof.
  unfold dst_pos, box_pos. fold n. rewrite Z.mul_0_l, Z.add_0_l. change (mat_size_elem a) with size.
  do 2 f_equal. apply lin_dist_ext. intros i Hi. apply to_cells. lia.
Qed.

Lemma src_pos_point p t : src_pos a b (n - 1) 0 (off bt p) t = size * box_pos bf p + t.
Proof.
  destruct Ht as (_ & _ & Hdim & _). fold n in Hdim.
  unfold src_pos, box_pos. rewrite Hn. fold n. rewrite Z.mul_0_l, Z.add_0_l. change (mat_size_elem a) with size.
  do 2 f_equal. rewrite (lin_dist_ext _ (side bf)) by (intros i Hi; apply from_cells; lia).
  apply lin_ext. intros i Hi. unfold shift, off.
  destruct (to_cells i ltac:(lia)) as (_ & -> & _). destruct (from_cells i ltac:(lia)) as (_ & -> & _). lia.
Qed.

Lemma in_view_point p : in_box p bt -> in_view a (n - 1) (off bt p) <-> in_box p bf.
Proof.
  destruct Ht as (_ & _ & Hdim & _). fold n in Hdim. intros Hp. unfold in_view, in_box. rewrite Hn. fold n.
  split; intros H i Hi.
  - specialize (H i ltac:(lia)). destruct (to_cells i ltac:(lia)) as (_ & E1 & E2). rewrite E1, E2 in H.
    destruct (common_bounds i ltac:(lia)) as (E3 & E4 & _). unfold off in H. lia.
  - specialize (H i ltac:(lia)). destruct (to_cells i ltac:(lia)) as (_ & -> & ->).
    destruct (common_bounds i ltac:(lia)) as (-> & -> & _). specialize (Hp i ltac:(unfold n in *; lia)).
    unfold off. lia.
Qed.

Lemma dst_pos_unique p x t u :
  in_box p bt -> in_view a (n - 1) x -> 0 <= t < size -> 0 <= u < size ->
  size * box_pos bt p + t = dst_pos a (n - 1) 0 x u -> in_view a (n - 1) (off bt p).
Proof.
  intros Hp Hx Hti Hui E. rewrite <- dst_pos_point in E. unfold dst_pos in E.
  pose proof Ht as (_ & _ & Hdim & Hs & _). fold n in Hdim.
  change (mat_size_elem a) with size in E. rewrite !Z.mul_0_l, !Z.add_0_l in E.
  assert (EL : lin (cget (mat_dist a)) (off bt p) (n - 1) = lin (cget (mat_dist a)) x (n - 1)).
  { clear - E Hti Hui Hs. nia. }
  assert (Hxe : forall i, (i <= n - 1)%nat -> off bt p i = x i).
  { apply (lin_inj (cget (mat_dist a))); [| |exact EL]; intros i Hi;
      destruct (to_cells i ltac:(lia)) as (-> & E1 & E2).
    - specialize (Hp i ltac:(unfold n in *; lia)). unfold off, side. lia.
    - specialize (Hx i Hi). rewrite E1, E2 in Hx. destruct (common_in_to i); [unfold n in *; lia|].
      unfold side. lia. }
  intros i Hi. rewrite Hxe by done. by apply Hx.
Qed.

Lemma ssd_copy_spec :
  exists data, ssd_copy to_obj from_obj
      = Some (mkObj (ob_id to_obj)
                (set_tag_type (od_tag (obj_desc from_obj)) (od_type (obj_desc from_obj)) (obj_desc to_obj))
                (ob_gdim to_obj) data (refcnt to_obj) (f_free to_obj), i32 (zvolume bc)) /\
    length data = length (ob_data to_obj) /\
    forall p t, in_box p bt -> 0 <= t < size ->
      data !! Z.to_nat (size * box_pos bt p + t) =
      if decide (in_box p bf) then ob_data from_obj !! Z.to_nat (size * box_pos bf p + t)
      else ob_data to_obj !! Z.to_nat (size * box_pos bt p + t).
Proof.
  pose proof Ht as (_ & _ & Hdim & Hs & _). fold n in Hdim.
  pose proof copy_count_bound as Hcb.
  destruct (levels_spec a b (n - 1) ltac:(lia) 0 0 (ob_data to_obj) 0 copy_view_ok copy_fits
    ltac:(lia) ltac:(rewrite copy_count_volume; lia)) as (data & E & Hlen & HC & HK).
  rewrite copy_count_volume in E.
  exists data. split; [|split; [exact Hlen|]].
  - unfold ssd_copy. cbn [set_tag_type od_bb od_st od_size]. fold bt bf bc size. rewrite Hsize. fold a b.
    unfold matrix_copy.
    assert (Hel : entry_level (mat_num_dims a) = (n - 1)%nat).
    { unfold entry_level, a, matrix_init. cbn [mat_num_dims]. fold n.
      destruct (Nat.leb_spec 1 n), (Nat.leb_spec n 10); done || lia. }
    rewrite Hel. change (mat_pdata a) with (ob_data to_obj). rewrite E. done.
  - intros p t Hp Hti. assert (Hpos : 0 <= size * box_pos bt p + t).
    { assert (0 <= box_pos bt p); [|nia]. apply lin_range. intros i Hi.
      specialize (Hp i ltac:(fold n; unfold n in *; lia)). unfold side. lia. }
    case_decide as Hpf.
    + apply in_view_point in Hpf; [|done]. rewrite <- src_pos_point.
      apply HC; [done|done|]. rewrite dst_pos_point. lia.
    + apply HK. intros x u Hx Hu Ei. rewrite Z2Nat.id in Ei by done.
      apply Hpf, in_view_point; [done|]. exact (dst_pos_unique p x t u Hp Hx Hti Hu Ei).
Qed.
End Copy.

(** ** Buffers and cells *)

Lemma lin_surj d n : (forall i, (i <= n)%nat -> 0 < d i) -> forall k, 0 <= k < zprod (S n) d ->
  exists x, (forall i, (i <= n)%nat -> 0 <= x i < d i) /\ lin d x n = k.
Proof.
  induction n as [|n IH]; intros Hd k Hk.
  { exists (fun _ => k). cbn [lin zprod] in *. split; [|done]. intros i Hi. replace i with 0%nat by lia. lia. }
  cbn [lin]. set (D := zprod (S n) d) in *. change (zprod (S (S n)) d) with (zprod (S n) d * d (S n)) in Hk. fold D in Hk.
  assert (HD : 0 < D) by (apply zprod_pos; intros; apply Hd; lia).
  destruct (IH ltac:(intros; apply Hd; lia) (k mod D)) as (x & Hx & Hl); [by apply Z.mod_pos_bound|].
  pose proof (Z.div_mod k D ltac:(lia)) as Hdm. pose proof (Hd (S n) ltac:(lia)) as Hn.
  assert (Hq : 0 <= k / D < d (S n)) by (split; [apply Z.div_pos; lia|apply Z.div_lt_upper_bound; lia]).
  exists (fun i => if (i =? S n)%nat then k / D else x i). split.
  - intros i Hi. destruct (Nat.eqb_spec i (S n)) as [->|]; [done|]. apply Hx. lia.
  - rewrite Nat.eqb_refl. rewrite (lin_ext _ _ x); [lia|]. intros i Hi. by destruct (Nat.eqb_spec i (S n)); [lia|].
Qed.

(** A buffer is determined by its cells. *)
Lemma cells_determine size b data data' : copyable size b data -> length data' = length data ->
  (forall p t, in_box p b -> 0 <= t < size ->
     data' !! Z.to_nat (size * box_pos b p + t) = data !! Z.to_nat (size * box_pos b p + t)) -> data' = data.
Proof.
  intros (Hv & _ & Hdim & Hs & Hl & _) Hlen H. apply list_eq. intros i.
  destruct (decide (i < length data)%nat) as [Hi|Hi]; [|by rewrite !lookup_ge_None_2 by lia].
  set (k := Z.of_nat i / size). pose proof (Z.div_mod (Z.of_nat i) size ltac:(lia)) as Hdm. fold k in Hdm.
  pose proof (Z.mod_pos_bound (Z.of_nat i) size Hs) as Ht. set (n := (num_dims b - 1)%nat).
  assert (Hvol : zvolume b = zprod (S n) (side b)) by (unfold zvolume; f_equal; unfold n; lia).
  destruct (lin_surj (side b) n) with (k := k) as (x & Hx & Hk).
  { intros j Hj. destruct Hv as [_ Hv]. specialize (Hv j ltac:(unfold n in *; lia)). unfold side. lia. }
  { rewrite <- Hvol. split; [apply Z.div_pos; lia|apply Z.div_lt_upper_bound; lia]. }
  set (p := map (fun j => cget (lb b) j + x j) (seq 0 (num_dims b))).
  assert (Hp : forall j, (j < num_dims b)%nat -> cget p j = cget (lb b) j + x j).
  { intros j Hj. unfold p, cget. rewrite (nth_indep _ 0 (nth 0 (lb b) 0 + x 0%nat)) by (rewrite length_map, length_seq; lia).
    change (nth 0 (lb b) 0 + x 0%nat) with ((fun j => nth j (lb b) 0 + x j) 0%nat). by rewrite map_nth, seq_nth by lia. }
  assert (Hpos : box_pos b p = k).
  { rewrite <- Hk. unfold box_pos. fold n. apply lin_ext. intros j Hj. rewrite Hp by (unfold n in *; lia). lia. }
  specialize (H p (Z.of_nat i mod size)). rewrite Hpos, <- Hdm, Nat2Z.id in H. apply H; [|done].
  intros j Hj. rewrite Hp by done. specialize (Hx j ltac:(unfold n; lia)). unfold side in Hx. lia.
Qed.

(** ** Properties *)

(** C20: [ssd_copy] on objects of one to nine dimensions that intersect
    copies exactly the common elements: every element of the destination
    whose point the source has takes the source's bytes, every other element
    keeps its own, and the returned count is the number of common points (as
    an [int]). *)
Theorem ssd_copy_correct to_obj from_obj :
  let bt := od_bb (obj_desc to_obj) in
  let bf := od_bb (obj_desc from_obj) in
  let size := od_size (obj_desc to_obj) in
  copyable size bt (ob_data to_obj) -> copyable size bf (ob_data from_obj) ->
  od_size (obj_desc from_obj) = size ->
  num_dims bf = num_dims bt -> bbox_does_intersect bt bf = true ->
  exists res, ssd_copy to_obj from_obj
      = Some (res, i32 (zvolume (bbox_intersect bt bf zero_bbox))) /\
    obj_desc res = set_tag_type (od_tag (obj_desc from_obj)) (od_type (obj_desc from_obj)) (obj_desc to_obj) /\
    length (ob_data res) = length (ob_data to_obj) /\
    forall p t, in_box p bt -> 0 <= t < size ->
      ob_data res !! Z.to_nat (size * box_pos bt p + t) =
      if decide (in_box p bf) then ob_data from_obj !! Z.to_nat (size * box_pos bf p + t)
      else ob_data to_obj !! Z.to_nat (size * box_pos bt p + t).
Proof.
  intros bt bf size Ht Hf Hsize Hn Hint.
  destruct (ssd_copy_spec to_obj from_obj Ht Hf Hsize Hn Hint) as (data & E & Hl & H).
  eexists. split; [exact E|]. cbn [obj_desc ob_data]. done.
Qed.

Lemma box2_copyable size l0 l1 u0 u1 data :
  0 <= l0 <= u0 -> 0 <= l1 <= u1 -> u0 < 2 ^ 63 -> u1 < 2 ^ 63 -> 0 < size ->
  Z.of_nat (length data) = size * ((u0 - l0 + 1) * (u1 - l1 + 1)) ->
  size * ((u0 - l0 + 1) * (u1 - l1 + 1)) < 2 ^ 64 ->
  copyable size (box2 l0 l1 u0 u1) data.
Proof.
  intros H0 H1 H2 H3 Hs Hl Hv.
  assert (Hz : zvolume (box2 l0 l1 u0 u1) = (u0 - l0 + 1) * (u1 - l1 + 1)).
  { change (1 * (u0 - l0 + 1) * (u1 - l1 + 1) = (u0 - l0 + 1) * (u1 - l1 + 1)). ring. }
  split; [by apply box2_valid|]. split.
  - intros [|[|i]] Hi; simpl in Hi; unfold cget; simpl; lia.
  - rewrite Hz. simpl num_dims. split; [lia|]. done.
Qed.

Lemma ssd_copy_correct_witness :
  let dst := mkObj 0 (mkOdsc "t" row_major 0 0 0 "" 1 (box2 0 0 2 1) 2) (mkGdim 0 zero_coord)
               [0; 1; 2; 3; 4; 5; 6; 7; 8; 9; 10; 11] 0 false in
  let src := mkObj 1 (mkOdsc "t" row_major 0 5 6 "" 1 (box2 2 1 3 2) 2) (mkGdim 0 zero_coord)
               [20; 21; 22; 23; 24; 25; 26; 27] 0 false in
  exists res, ssd_copy dst src = Some (res, 1) /\
    ob_data res = [0; 1; 2; 3; 4; 5; 6; 7; 8; 9; 20; 21] /\
    ob_data res !! Z.to_nat (2 * box_pos (box2 0 0 2 1) [2; 1] + 1) = Some 21.
Proof.
  intros dst src.
  destruct (ssd_copy_correct dst src) as (res & E & _ & _ & H).
  - apply box2_copyable; simpl; lia.
  - apply box2_copyable; simpl; lia.
  - reflexivity.
  - reflexivity.
  - reflexivity.
  - exists res. split; [exact E|]. split; [vm_compute in E; injection E as <-; reflexivity|].
    etransitivity; [apply (H [2; 1] 1)|vm_compute; reflexivity]; [|vm_compute; split; discriminate || reflexivity].
    apply in_boxb_spec. vm_compute. reflexivity.
Defined.

(** Ten dimensions: the box of one cell with coordinate [z] in dimension 9,
    and the box of [n] such cells. *)
Definition box10 (l u : Z) : bbox :=
  mkBBox 10 (replicate 9 0 ++ [l]) (replicate 9 0 ++ [u]).

Definition obj10 (l u : Z) (data : list Z) : obj_data :=
  mkObj 0 (mkOdsc "t" row_major 0 0 0 "" 1 (box10 l u) 1) (mkGdim 0 zero_coord) data 0 false.

(** With ten dimensions [ssd_copy] takes the wrong source element: the
    outermost loop derives the source offset from the destination counter.
    A one-cell destination at coordinate [z] receives the source's first
    cell whatever [z] is. *)
Theorem ssd_copy_dim10_wrong x y z w :
  exists res, ssd_copy (obj10 1 1 [w]) (obj10 0 2 [x; y; z]) = Some (res, 1) /\
    ob_data res = [x] /\ [x; y; z] !! Z.to_nat (box_pos (box10 0 2) (replicate 9 0 ++ [1])) = Some y.
Proof. eexists. split; [vm_compute; reflexivity|]. split; vm_compute; reflexivity. Qed.
