(* ===== verification/Codec.v ===== *)
(** * Codec: the message encodings of the RPC arguments

    The [hg_proc_*] routines of [src/include/ss_data.h]: descriptor headers,
    byte buffers, name lists and typed dictionaries.  The primitives of the
    Mercury library ([hg_proc_hg_size_t], [hg_proc_raw],
    [hg_proc_hg_string_t], [hg_proc_hg_int8_t]) are the operations of a type
    class with the round-trip laws their documentation promises.  A routine
    called with [HG_ENCODE] is a function to the bytes written, one called
    with [HG_DECODE] consumes bytes; [None] is a return code other than
    [HG_SUCCESS]. *)

From S2P Require Import Prelude BBox ObjDesc.

(** ** Mercury primitives *)

Class HgProc := {
  size_enc : Z -> option (list Z);
  size_dec : list Z -> option (Z * list Z);
  int8_enc : Z -> option (list Z);
  int8_dec : list Z -> option (Z * list Z);
  raw_enc : list Z -> option (list Z);
  raw_dec : nat -> list Z -> option (list Z * list Z);
  string_enc : string -> option (list Z);
  string_dec : list Z -> option (string * list Z)
}.

(** What the codecs rely on: what is encoded is decoded, and the rest of the
    buffer is left. *)
Class HgProcLaws `{P : HgProc} : Prop := {
  size_law : forall n, in_u64 n -> exists bs, size_enc n = Some bs /\
    forall rest, size_dec (bs ++ rest) = Some (n, rest);
  int8_law : forall n, - 2 ^ 7 <= n < 2 ^ 7 -> exists bs, int8_enc n = Some bs /\
    forall rest, int8_dec (bs ++ rest) = Some (n, rest);
  raw_law : forall l, exists bs, raw_enc l = Some bs /\
    forall rest, raw_dec (length l) (bs ++ rest) = Some (l, rest);
  string_law : forall s, exists bs, string_enc s = Some bs /\
    forall rest, string_dec (bs ++ rest) = Some (s, rest)
}.

(** ** Types of dictionary values *)

Definition DSP_FLOAT : Z := -1.
Definition DSP_INT : Z := -2.
Definition DSP_LONG : Z := -3.
Definition DSP_DOUBLE : Z := -4.
Definition DSP_BOOL : Z := -5.
Definition DSP_CHAR : Z := -6.
Definition DSP_UINT : Z := -7.
Definition DSP_ULONG : Z := -8.
Definition DSP_BYTE : Z := -9.
Definition DSP_UINT8 : Z := -10.
Definition DSP_UINT16 : Z := -11.
Definition DSP_UINT32 : Z := -12.
Definition DSP_UINT64 : Z := -13.
Definition DSP_INT8 : Z := -14.
Definition DSP_INT16 : Z := -15.
Definition DSP_INT32 : Z := -16.
Definition DSP_INT64 : Z := -17.
Definition DSP_STR : Z := -18.
Definition DSP_JSON : Z := -19.

(** [type_to_size_map], and [type_to_size]: [None] for the two entries past
    the end of the table, [-1] for a type that is not negative. *)
Definition type_to_size_map : list Z :=
  [0; 4; 4; 8; 8; 1; 1; 4; 8; 1; 1; 2; 4; 8; 1; 2; 4; 8].

Definition type_to_size (type_id : Z) : option Z :=
  if 0 <=? type_id then Some (-1) else type_to_size_map !! Z.to_nat (- type_id).

(** The [case] labels of [dict_encode_val] and [dict_decode_val]. *)
Inductive val_class := VC_raw (n : nat) | VC_string | VC_invalid.

Definition one_of (type : Z) (l : list Z) : bool := existsb (Z.eqb type) l.

Definition classify (type : Z) : val_class :=
  if one_of type [DSP_BOOL; DSP_CHAR; DSP_BYTE; DSP_UINT8; DSP_INT8] then VC_raw 1
  else if one_of type [DSP_UINT16; DSP_INT16] then VC_raw 2
  else if one_of type [DSP_FLOAT; DSP_INT; DSP_UINT; DSP_UINT32; DSP_INT32] then VC_raw 4
  else if one_of type [DSP_LONG; DSP_DOUBLE; DSP_ULONG; DSP_UINT64; DSP_INT64] then VC_raw 8
  else if one_of type [DSP_STR; DSP_JSON] then VC_string
  else VC_invalid.

(** What [vals[i]] points to: a block of bytes or a C string. *)
Inductive dict_val := DV_raw (bytes : list Z) | DV_str (s : string).

Record dict_entry := mkEntry { de_type : Z; de_key : string; de_val : dict_val }.

(** [dsp_dict_t]; [len] is the length of the list. *)
Definition dsp_dict := list dict_entry.

Section Codecs.
Context `{P : HgProc}.

(** ** Dictionaries *)

(** [hg_proc_raw(proc, val, n)] reads [n] bytes of the block: [None] when the
    block is shorter, or the value is of the other kind. *)
Definition dict_encode_val (type : Z) (val : dict_val) : option (list Z) :=
  match classify type, val with
  | VC_raw n, DV_raw bytes => if (n <=? length bytes)%nat then raw_enc (take n bytes) else None
  | VC_string, DV_str s => string_enc s
  | _, _ => None
  end.

Definition dict_decode_val (type : Z) (buf : list Z) : option (dict_val * list Z) :=
  match classify type with
  | VC_raw n => '(bytes, buf) ← raw_dec n buf; Some (DV_raw bytes, buf)
  | VC_string => '(s, buf) ← string_dec buf; Some (DV_str s, buf)
  | VC_invalid => None
  end.

Fixpoint encode_entries (d : dsp_dict) : option (list Z) :=
  match d with
  | [] => Some []
  | e :: d' =>
      t ← int8_enc (de_type e);
      k ← string_enc (de_key e);
      v ← dict_encode_val (de_type e) (de_val e);
      rest ← encode_entries d';
      Some (t ++ k ++ v ++ rest)
  end.

Fixpoint decode_entries (n : nat) (buf : list Z) : option (dsp_dict * list Z) :=
  match n with
  | O => Some ([], buf)
  | S n' =>
      '(t, buf) ← int8_dec buf;
      '(k, buf) ← string_dec buf;
      '(v, buf) ← dict_decode_val t buf;
      '(rest, buf) ← decode_entries n' buf;
      Some (mkEntry t k v :: rest, buf)
  end.

Definition dsp_dict_encode (d : dsp_dict) : option (list Z) :=
  n ← size_enc (Z.of_nat (length d));
  body ← encode_entries d;
  Some (n ++ body).

Definition dsp_dict_decode (buf : list Z) : option (dsp_dict * list Z) :=
  '(n, buf) ← size_dec buf;
  decode_entries (Z.to_nat n) buf.

(** ** Name lists and buffers *)

Fixpoint encode_names (names : list string) : option (list Z) :=
  match names with
  | [] => Some []
  | s :: names' => b ← string_enc s; rest ← encode_names names'; Some (b ++ rest)
  end.

Fixpoint decode_names (n : nat) (buf : list Z) : option (list string * list Z) :=
  match n with
  | O => Some ([], buf)
  | S n' => '(s, buf) ← string_dec buf; '(rest, buf) ← decode_names n' buf; Some (s :: rest, buf)
  end.

Definition name_list_encode (names : list string) : option (list Z) :=
  n ← size_enc (Z.of_nat (length names));
  body ← encode_names names;
  Some (n ++ body).

Definition name_list_decode (buf : list Z) : option (list string * list Z) :=
  '(n, buf) ← size_dec buf;
  decode_names (Z.to_nat n) buf.

Definition dsp_buf_encode (b : list Z) : option (list Z) :=
  n ← size_enc (Z.of_nat (length b)); body ← raw_enc b; Some (n ++ body).

Definition dsp_buf_decode (buf : list Z) : option (list Z * list Z) :=
  '(n, buf) ← size_dec buf; raw_dec (Z.to_nat n) buf.

(** ** Descriptor headers *)

(** [odsc_hdr]: the bytes of [raw_odsc]; nothing follows a zero size. *)
Definition odsc_hdr_encode (raw_odsc : list Z) : option (list Z) :=
  n ← size_enc (Z.of_nat (length raw_odsc));
  match raw_odsc with
  | [] => Some n
  | _ => body ← raw_enc raw_odsc; Some (n ++ body)
  end.

Definition odsc_hdr_decode (buf : list Z) : option (list Z * list Z) :=
  '(n, buf) ← size_dec buf;
  if n =? 0 then Some ([], buf) else raw_dec (Z.to_nat n) buf.

(** [odsc_hdr_with_gdim]: two sizes, then both blocks unless the first is
    empty.  The return code of the first size is overwritten by the second,
    so an encoding that fails there goes on. *)
Definition odsc_hdr_with_gdim_encode (raw_odsc raw_gdim : list Z) : option (list Z) :=
  let n := default [] (size_enc (Z.of_nat (length raw_odsc))) in
  g ← size_enc (Z.of_nat (length raw_gdim));
  match raw_odsc with
  | [] => Some (n ++ g)
  | _ => o ← raw_enc raw_odsc; d ← raw_enc raw_gdim; Some (n ++ g ++ o ++ d)
  end.

(** [raw_gdim] is not assigned when the descriptor is empty. *)
Definition odsc_hdr_with_gdim_decode (buf : list Z) : option (list Z * option (list Z) * list Z) :=
  '(n, buf) ← size_dec buf;
  '(g, buf) ← size_dec buf;
  if n =? 0 then Some ([], None, buf)
  else '(o, buf) ← raw_dec (Z.to_nat n) buf;
       '(d, buf) ← raw_dec (Z.to_nat g) buf;
       Some (o, Some d, buf).

(** ** Well-formed values *)

(** A value of its type: [n] bytes for a fixed-width type, a string
    otherwise. *)
Definition entry_ok (e : dict_entry) : Prop :=
  match classify (de_type e), de_val e with
  | VC_raw n, DV_raw bytes => length bytes = n
  | VC_string, DV_str _ => True
  | _, _ => False
  end.

End Codecs.

(** ** Machine words in memory *)

(** Little-endian integers: what a block of bytes holds. *)
Fixpoint le_bytes (n : nat) (z : Z) : list Z :=
  match n with
  | O => []
  | S n' => z mod 256 :: le_bytes n' (z / 256)
  end.

Fixpoint of_le_bytes (l : list Z) : Z :=
  match l with
  | [] => 0
  | b :: l' => b + 256 * of_le_bytes l'
  end.

(** ** Lemmas *)

Lemma of_le_le_bytes n z : of_le_bytes (le_bytes n z) = z mod 256 ^ Z.of_nat n.
Proof.
  revert z. induction n as [|n IH]; intros z; cbn [le_bytes of_le_bytes].
  - by rewrite Z.mod_1_r.
  - rewrite IH, Nat2Z.inj_succ, Z.pow_succ_r by lia. by rewrite Z.rem_mul_r by lia.
Qed.

Lemma length_le_bytes n z : length (le_bytes n z) = n.
Proof. revert z. induction n as [|n IH]; intros z; simpl; [done|]. by rewrite IH. Qed.

Lemma classify_range t : classify t <> VC_invalid -> - 2 ^ 7 <= t < 2 ^ 7.
Proof.
  intros H. destruct (Z_lt_dec t (-19)) as [Hl|Hl], (Z_lt_dec (-1) t) as [Hg|Hg]; try lia;
    exfalso; apply H; unfold classify, one_of, DSP_BOOL, DSP_CHAR, DSP_BYTE, DSP_UINT8, DSP_INT8,
      DSP_UINT16, DSP_INT16, DSP_FLOAT, DSP_INT, DSP_UINT, DSP_UINT32, DSP_INT32, DSP_LONG,
      DSP_DOUBLE, DSP_ULONG, DSP_UINT64, DSP_INT64, DSP_STR, DSP_JSON; simpl;
    repeat match goal with |- context [t =? ?k] => destruct (Z.eqb_spec t k); [lia|] end; done.
Qed.

Lemma length_cons_eqb {A} (x : A) l : (Z.of_nat (length (x :: l)) =? 0) = false.
Proof. apply Z.eqb_neq. simpl. lia. Qed.

Section RoundTrips.
Context `{L : HgProcLaws}.

Lemma dict_val_roundtrip e :
  entry_ok e -> exists bs, dict_encode_val (de_type e) (de_val e) = Some bs /\
    forall rest, dict_decode_val (de_type e) (bs ++ rest) = Some (de_val e, rest).
Proof.
  unfold entry_ok, dict_encode_val, dict_decode_val.
  destruct (classify (de_type e)) as [n| |], (de_val e) as [bytes|s]; try done.
  - intros <-. rewrite Nat.leb_refl, take_ge by done.
    destruct (raw_law bytes) as (bs & -> & H). exists bs. split; [done|]. intros rest. by rewrite H.
  - intros _. destruct (string_law s) as (bs & -> & H). exists bs. split; [done|].
    intros rest. by rewrite H.
Qed.

Lemma entries_roundtrip d :
  Forall entry_ok d -> exists bs, encode_entries d = Some bs /\
    forall rest, decode_entries (length d) (bs ++ rest) = Some (d, rest).
Proof.
  induction 1 as [|e d He _ (bs & IH1 & IH2)]; [by exists []|].
  assert (Hc : classify (de_type e) <> VC_invalid).
  { unfold entry_ok in He. by destruct (classify (de_type e)). }
  destruct (int8_law _ (classify_range _ Hc)) as (t & Ht1 & Ht2).
  destruct (string_law (de_key e)) as (k & Hk1 & Hk2).
  destruct (dict_val_roundtrip e He) as (v & Hv1 & Hv2).
  exists (t ++ k ++ v ++ bs). split; simpl.
  - by rewrite Ht1, Hk1, Hv1, IH1.
  - intros rest. rewrite <- !app_assoc, Ht2. simpl. rewrite Hk2. simpl. rewrite Hv2. simpl.
    rewrite IH2. simpl. by destruct e.
Qed.

Lemma names_roundtrip l :
  exists bs, encode_names l = Some bs /\
    forall rest, decode_names (length l) (bs ++ rest) = Some (l, rest).
Proof.
  induction l as [|s l (bs & IH1 & IH2)]; [by exists []|].
  destruct (string_law s) as (b & Hb1 & Hb2). exists (b ++ bs). split; simpl.
  - by rewrite Hb1, IH1.
  - intros rest. by rewrite <- app_assoc, Hb2; simpl; rewrite IH2.
Qed.

Lemma raw_nat_roundtrip (l : list Z) : in_u64 (Z.of_nat (length l)) ->
  exists n b, size_enc (Z.of_nat (length l)) = Some n /\ raw_enc l = Some b /\
    (forall rest, size_dec (n ++ rest) = Some (Z.of_nat (length l), rest)) /\
    (forall rest, raw_dec (length l) (b ++ rest) = Some (l, rest)).
Proof.
  intros Hl. destruct (size_law _ Hl) as (n & Hn1 & Hn2). destruct (raw_law l) as (b & Hb1 & Hb2).
  by exists n, b.
Qed.

End RoundTrips.

(** ** Main results *)

Lemma dsp_dict_ok `{HgProcLaws} d e :
  in_u64 (Z.of_nat (length d)) -> Forall entry_ok d -> classify (de_type e) = VC_invalid ->
  (exists bs, dsp_dict_encode d = Some bs /\
     forall rest, dsp_dict_decode (bs ++ rest) = Some (d, rest)) /\
  dsp_dict_encode (d ++ [e]) = None /\
  (forall buf, dict_decode_val (de_type e) buf = None).
Proof.
  intros Hn Hd He. destruct (size_law _ Hn) as (n & Hn1 & Hn2).
  destruct (entries_roundtrip d Hd) as (bs & Hb1 & Hb2). split_and!.
  - exists (n ++ bs). unfold dsp_dict_encode, dsp_dict_decode. rewrite Hn1. simpl. rewrite Hb1.
    split; [done|]. intros rest. rewrite <- app_assoc, Hn2. simpl. by rewrite Nat2Z.id.
  - unfold dsp_dict_encode. enough (encode_entries (d ++ [e]) = None) as ->.
    { by destruct (size_enc (Z.of_nat (length (d ++ [e])))). }
    clear - He. induction d as [|x d IH]; simpl.
    + destruct (int8_enc _); [simpl|done]. destruct (string_enc _); [simpl|done].
      unfold dict_encode_val. by rewrite He.
    + destruct (int8_enc _); [simpl|done]. destruct (string_enc _); [simpl|done].
      destruct (dict_encode_val _ _); [simpl|done]. by rewrite IH.
  - intros buf. unfold dict_decode_val. by rewrite He.
Qed.

(** Encoding a dictionary of well-typed values succeeds and decoding its
    bytes gives the dictionary back with the rest of the buffer untouched; an
    entry with a type code that is none of the [DSP_*] constants makes both
    directions fail. *)
Theorem dsp_dict_roundtrip `{HgProcLaws} d e :
  in_u64 (Z.of_nat (length d)) -> Forall entry_ok d -> classify (de_type e) = VC_invalid ->
  (exists bs, dsp_dict_encode d = Some bs /\
     forall rest, dsp_dict_decode (bs ++ rest) = Some (d, rest)) /\
  dsp_dict_encode (d ++ [e]) = None /\
  (forall buf, dict_decode_val (de_type e) buf = None).
Proof. apply dsp_dict_ok. Qed.

Lemma headers_ok `{HgProcLaws} names b raw_odsc raw_gdim :
  in_u64 (Z.of_nat (length names)) -> in_u64 (Z.of_nat (length b)) ->
  in_u64 (Z.of_nat (length raw_odsc)) -> in_u64 (Z.of_nat (length raw_gdim)) ->
  (exists bs, name_list_encode names = Some bs /\
     forall rest, name_list_decode (bs ++ rest) = Some (names, rest)) /\
  (exists bs, dsp_buf_encode b = Some bs /\
     forall rest, dsp_buf_decode (bs ++ rest) = Some (b, rest)) /\
  (exists bs, odsc_hdr_encode raw_odsc = Some bs /\
     forall rest, odsc_hdr_decode (bs ++ rest) = Some (raw_odsc, rest)) /\
  (exists bs, odsc_hdr_with_gdim_encode raw_odsc raw_gdim = Some bs /\
     forall rest, odsc_hdr_with_gdim_decode (bs ++ rest) =
       Some (raw_odsc, match raw_odsc with [] => None | _ => Some raw_gdim end, rest)).
Proof.
  intros Hn Hb Ho Hg. destruct (size_law _ Hn) as (n & Hn1 & Hn2).
  destruct (names_roundtrip names) as (ns & Hs1 & Hs2).
  destruct (raw_nat_roundtrip b Hb) as (bn & bb & B1 & B2 & B3 & B4).
  destruct (raw_nat_roundtrip raw_odsc Ho) as (on & ob & O1 & O2 & O3 & O4).
  destruct (raw_nat_roundtrip raw_gdim Hg) as (gn & gb & G1 & G2 & G3 & G4). split_and!.
  - exists (n ++ ns). unfold name_list_encode, name_list_decode. rewrite Hn1. simpl. rewrite Hs1.
    split; [done|]. intros rest. rewrite <- app_assoc, Hn2. simpl. by rewrite Nat2Z.id.
  - exists (bn ++ bb). unfold dsp_buf_encode, dsp_buf_decode. rewrite B1. simpl. rewrite B2.
    split; [done|]. intros rest. rewrite <- app_assoc, B3. simpl. by rewrite Nat2Z.id.
  - unfold odsc_hdr_encode, odsc_hdr_decode. rewrite O1. simpl. destruct raw_odsc as [|z l].
    + exists on. split; [done|]. intros rest. by rewrite O3.
    + exists (on ++ ob). rewrite O2. split; [done|]. intros rest. rewrite <- app_assoc, O3.
      cbn [mbind option_bind]. by rewrite length_cons_eqb, Nat2Z.id.
  - unfold odsc_hdr_with_gdim_encode, odsc_hdr_with_gdim_decode. rewrite O1, G1. simpl.
    destruct raw_odsc as [|z l].
    + exists (on ++ gn). split; [done|]. intros rest. rewrite <- app_assoc, O3. simpl. by rewrite G3.
    + exists (on ++ gn ++ ob ++ gb). rewrite O2. simpl. rewrite G2. split; [done|]. intros rest.
      rewrite <- !app_assoc, O3. cbn [mbind option_bind]. rewrite G3. cbn [mbind option_bind].
      rewrite length_cons_eqb, (Nat2Z.id (length (z :: l))), O4. simpl. by rewrite Nat2Z.id, G4.
Qed.

(** Name lists, buffers and descriptor headers decode to what was
    encoded, except that [odsc_hdr_with_gdim] with an empty descriptor loses
    its dimension block. *)
Theorem headers_roundtrip `{HgProcLaws} names b raw_odsc raw_gdim :
  in_u64 (Z.of_nat (length names)) -> in_u64 (Z.of_nat (length b)) ->
  in_u64 (Z.of_nat (length raw_odsc)) -> in_u64 (Z.of_nat (length raw_gdim)) ->
  (exists bs, name_list_encode names = Some bs /\
     forall rest, name_list_decode (bs ++ rest) = Some (names, rest)) /\
  (exists bs, dsp_buf_encode b = Some bs /\
     forall rest, dsp_buf_decode (bs ++ rest) = Some (b, rest)) /\
  (exists bs, odsc_hdr_encode raw_odsc = Some bs /\
     forall rest, odsc_hdr_decode (bs ++ rest) = Some (raw_odsc, rest)) /\
  (exists bs, odsc_hdr_with_gdim_encode raw_odsc raw_gdim = Some bs /\
     forall rest, odsc_hdr_with_gdim_decode (bs ++ rest) =
       Some (raw_odsc, match raw_odsc with [] => None | _ => Some raw_gdim end, rest)).
Proof. apply headers_ok. Qed.

(** ** Concrete inputs *)

(** A concrete Mercury stand-in. *)
Definition take_exact (n : nat) (buf : list Z) : option (list Z * list Z) :=
  if (n <=? length buf)%nat then Some (take n buf, drop n buf) else None.

Lemma take_exact_app l rest : take_exact (length l) (l ++ rest) = Some (l, rest).
Proof.
  unfold take_exact. rewrite length_app.
  destruct (Nat.leb_spec (length l) (length l + length rest)); [|lia].
  by rewrite take_app_length, drop_app_length.
Qed.

Definition string_bytes (s : string) : list Z :=
  map (fun c => Z.of_nat (Ascii.nat_of_ascii c)) (String.list_ascii_of_string s).

Definition bytes_string (l : list Z) : string :=
  String.string_of_list_ascii (map (fun z => Ascii.ascii_of_nat (Z.to_nat z)) l).

Lemma bytes_string_bytes s : bytes_string (string_bytes s) = s.
Proof.
  unfold bytes_string, string_bytes. rewrite map_map.
  rewrite (map_ext _ id), map_id; [apply String.string_of_list_ascii_of_string|].
  intros c. by rewrite Nat2Z.id, Ascii.ascii_nat_embedding.
Qed.

#[local] Instance demo_proc : HgProc := {
  size_enc n := Some (le_bytes 8 n);
  size_dec buf := '(b, r) ← take_exact 8 buf; Some (of_le_bytes b, r);
  int8_enc n := Some [n];
  int8_dec buf := match buf with [] => None | n :: r => Some (n, r) end;
  raw_enc l := Some l;
  raw_dec := take_exact;
  string_enc s := Some (Z.of_nat (length (string_bytes s)) :: string_bytes s);
  string_dec buf :=
    match buf with
    | [] => None
    | n :: r => '(s, r) ← take_exact (Z.to_nat n) r; Some (bytes_string s, r)
    end
}.

#[local] Instance demo_laws : HgProcLaws.
Proof.
  split.
  - intros n Hn. exists (le_bytes 8 n). split; [done|]. intros rest. unfold size_dec, demo_proc.
    rewrite <- (length_le_bytes 8 n) at 1. rewrite take_exact_app. simpl.
    f_equal. f_equal. change (of_le_bytes (le_bytes 8 n) = n). rewrite of_le_le_bytes.
    apply Z.mod_small. exact Hn.
  - intros n _. by exists [n].
  - intros l. exists l. split; [done|]. intros rest. apply take_exact_app.
  - intros s. exists (Z.of_nat (length (string_bytes s)) :: string_bytes s). split; [done|].
    intros rest. cbn [string_dec demo_proc app]. rewrite Nat2Z.id, take_exact_app. simpl.
    by rewrite bytes_string_bytes.
Defined.

Definition demo_dict : dsp_dict :=
  [mkEntry DSP_STR "name" (DV_str "u"); mkEntry DSP_UINT "version" (DV_raw [7; 0; 0; 0])].

Lemma dsp_dict_roundtrip_witness :
  exists bs, dsp_dict_encode demo_dict = Some bs /\ dsp_dict_decode (bs ++ [5]) = Some (demo_dict, [5]) /\
    dsp_dict_encode (demo_dict ++ [mkEntry 3 "k" (DV_str "v")]) = None.
Proof.
  destruct (dsp_dict_roundtrip demo_dict (mkEntry 3 "k" (DV_str "v"))) as ((bs & H1 & H2) & H3 & _).
  - split; vm_compute; congruence.
  - repeat constructor.
  - reflexivity.
  - exists bs. split; [exact H1|]. split; [apply H2|exact H3].
Defined.

Lemma headers_roundtrip_witness :
  exists bs, odsc_hdr_with_gdim_encode [1; 2] [3] = Some bs /\
    odsc_hdr_with_gdim_decode (bs ++ [9]) = Some ([1; 2], Some [3], [9]) /\
    odsc_hdr_with_gdim_decode (default [] (odsc_hdr_with_gdim_encode [] [3])) = Some ([], None, []).
Proof.
  destruct (headers_roundtrip ["a"%string] [1] [1; 2] [3]) as (_ & _ & _ & bs & H1 & H2);
    [split; vm_compute; congruence..|].
  exists bs. split; [exact H1|]. split; [apply H2|reflexivity].
Defined.
