(* ===== verification/Modules.v ===== *)
(** * Modules: arguments and results of the server's plugin modules

    [src/src/dspaces-modules.c]: the argument lists handed to a module built
    from a descriptor, a registration or a dictionary, the module lookups,
    and the descriptor built from a module's result.  Running a module
    is a parameter of the server model, which [PyMods] instantiates with
    [dspaces_module_py_exec]. *)

From S2P Require Import Prelude BBox ObjDesc Codec.

(** ** Data *)

(** [struct dspaces_module]; [mod_type] is 0 for [DSPACES_MOD_PY]. *)
Record dspaces_module := mkModule {
  mod_name : string;
  mod_namespace : option string;
  mod_file : option string;
  mod_type : Z
}.

Inductive arg_type :=
| DSPACES_ARG_REAL | DSPACES_ARG_INT | DSPACES_ARG_BOOL
| DSPACES_ARG_STR | DSPACES_ARG_JSON | DSPACES_ARG_NONE.

(** The union of [struct dspaces_module_args]: one 8-byte word read as
    [rval] or [ival], an array of words, or a string. *)
Inductive arg_union :=
| AU_word (w : Z)
| AU_array (l : list Z)
| AU_str (s : string)
| AU_none.

Record module_arg := mkArg {
  arg_name : string;
  arg_ty : arg_type;
  arg_len : Z;
  arg_val : arg_union
}.

(** [struct dspaces_module_ret] of type [ARRAY], or of type [ERR]. *)
Record mod_array := mkRet {
  ret_len : Z;
  ret_dim : list Z;
  ret_ndim : nat;
  ret_tag : Z;
  ret_elem_size : Z;
  ret_st : storage_type;
  ret_data : list Z
}.

Inductive module_ret := MR_array (r : mod_array) | MR_err (err : Z).

(** [reg_in_t] of [include/ss_data.h]. *)
Record reg_in := mkReg {
  reg_type : string;
  reg_name : string;
  reg_data : string;
  reg_src : Z;
  reg_id : Z
}.

(** ** Floating-point words *)

(** [(double)f] on bit patterns, for a [float] that is not subnormal. *)
Definition double_of_float_bits (b : Z) : Z :=
  let s := Z.shiftr b 31 in
  let e := Z.land (Z.shiftr b 23) 255 in
  let m := Z.land b (2 ^ 23 - 1) in
  let e' := if e =? 0 then 0 else if e =? 255 then 2047 else e + 896 in
  s * 2 ^ 63 + e' * 2 ^ 52 + m * 2 ^ 29.

(** [(long)d] on a bit pattern: the magnitude is truncated; a value out of
    range is undefined in C and [-2^63] here, as the machine gives. *)
Definition long_of_double_bits (b : Z) : Z :=
  let e := Z.land (Z.shiftr b 52) 2047 in
  let m := Z.land b (2 ^ 52 - 1) + 2 ^ 52 in
  let mag := if e <? 1023 then 0
             else if e <? 1086 then
               (if e <? 1075 then Z.shiftr m (1075 - e) else Z.shiftl m (e - 1075))
             else 2 ^ 63 in
  if 2 ^ 63 <=? mag then - 2 ^ 63
  else if Z.testbit b 63 then - mag else mag.

(** ** Argument lists *)

Definition str_arg (name : string) (ty : arg_type) (s : string) : module_arg :=
  mkArg name ty (Z.of_nat (String.length s) + 1) (AU_str s).

Definition int_arg (name : string) (v : Z) : module_arg :=
  mkArg name DSPACES_ARG_INT (-1) (AU_word (i64 v)).

Definition build_module_arg_from_rank (rank : Z) : module_arg := int_arg "rank" rank.

Definition build_module_args_from_reg (reg : reg_in) : list module_arg :=
  [str_arg "type" DSPACES_ARG_STR (reg_type reg);
   str_arg "name" DSPACES_ARG_STR (reg_name reg);
   str_arg "data" DSPACES_ARG_STR (reg_data reg);
   int_arg "id" (reg_id reg)].

(** An integer of [n] bytes at the start of a block, little-endian;
    [None] when the block is shorter. *)
Definition word_of (n : nat) (v : dict_val) : option Z :=
  match v with
  | DV_raw bytes => if (n <=? length bytes)%nat then Some (of_le_bytes (take n bytes)) else None
  | DV_str _ => None
  end.

Definition string_of (v : dict_val) : option string :=
  match v with DV_str s => Some s | DV_raw _ => None end.

(** One iteration of [build_module_args_from_dict]; a [double] is stored
    through the [ival] member. *)
Definition module_arg_from_entry (e : dict_entry) : option module_arg :=
  let t := de_type e in
  let k := de_key e in
  if t =? DSP_FLOAT then
    w ← word_of 4 (de_val e); Some (mkArg k DSPACES_ARG_REAL (-1) (AU_word (double_of_float_bits w)))
  else if t =? DSP_INT then
    w ← word_of 4 (de_val e); Some (mkArg k DSPACES_ARG_INT (-1) (AU_word (i32 w)))
  else if t =? DSP_LONG then
    w ← word_of 8 (de_val e); Some (mkArg k DSPACES_ARG_INT (-1) (AU_word (i64 w)))
  else if t =? DSP_DOUBLE then
    w ← word_of 8 (de_val e); Some (mkArg k DSPACES_ARG_REAL (-1) (AU_word (long_of_double_bits w)))
  else if t =? DSP_BOOL then
    w ← word_of 1 (de_val e); Some (mkArg k DSPACES_ARG_BOOL (-1) (AU_word w))
  else if t =? DSP_STR then s ← string_of (de_val e); Some (str_arg k DSPACES_ARG_STR s)
  else if t =? DSP_JSON then s ← string_of (de_val e); Some (str_arg k DSPACES_ARG_JSON s)
  else Some (mkArg k DSPACES_ARG_NONE (-1) AU_none).

Definition build_module_args_from_dict (d : dsp_dict) : option (list module_arg) :=
  mapM module_arg_from_entry d.

(** The coordinate array: reversed for column-major storage. *)
Definition coord_array (st : storage_type) (c : coord) (ndims : nat) : list Z :=
  let l := map (fun i => i64 (cget c i)) (seq 0 ndims) in
  match st with row_major => l | column_major => reverse l end.

Definition coord_arg (name : string) (st : storage_type) (c : coord) (ndims : nat) : module_arg :=
  if (0 <? ndims)%nat
  then mkArg name DSPACES_ARG_INT (Z.of_nat ndims) (AU_array (coord_array st c ndims))
  else mkArg name DSPACES_ARG_NONE 0 AU_none.

Definition build_module_args_from_odsc (odsc : obj_descriptor) : list module_arg :=
  let ndims := num_dims (od_bb odsc) in
  [str_arg "name" DSPACES_ARG_STR (od_name odsc);
   int_arg "version" (od_version odsc);
   coord_arg "lb" (od_st odsc) (lb (od_bb odsc)) ndims;
   coord_arg "ub" (od_st odsc) (ub (od_bb odsc)) ndims].

(** ** Lookup *)

(** [find_mod] and [dspaces_mod_by_name]. *)
Definition dspaces_mod_by_name (mods : list dspaces_module) (name : string) : option dspaces_module :=
  find (fun m => String.eqb (mod_name m) name) mods.

(** [strstr(odsc->name, mod->namespace) == odsc->name]. *)
Definition dspaces_mod_by_od (mods : list dspaces_module) (odsc : obj_descriptor) : option dspaces_module :=
  find (fun m => match mod_namespace m with
                 | Some ns => String.prefix ns (od_name odsc)
                 | None => false
                 end) mods.

Definition dspaces_module_names (mods : list dspaces_module) : Z * list string :=
  (Z.of_nat (length mods), map mod_name mods).

(** ** Execution *)

Definition DS_MOD_ENOMOD : Z := -3.
Definition DS_MOD_ENOSYS : Z := -4.

(** [dspaces_module_exec] of a build with Python: [py_exec] runs the module
    and gives [None] for a result of [None]. *)
Definition dspaces_module_exec (py_exec : dspaces_module -> string -> list module_arg -> option module_ret)
    (m : dspaces_module) (operation : string) (args : list module_arg) : option module_ret :=
  if mod_type m =? 0 then py_exec m operation args else Some (MR_err DS_MOD_ENOSYS).

(** ** Results *)

Definition empty_odsc : obj_descriptor :=
  mkOdsc "" row_major 0 0 0 "" 0 zero_bbox 0.

(** A name in a buffer of [OD_MAX_NAME_LEN] bytes is copied as it is. *)
Definition set_name_version (name : string) (version : Z) (o : obj_descriptor) : obj_descriptor :=
  mkOdsc name (od_st o) (od_flags o) (od_tag o) (od_type o) (od_owner o) version (od_bb o) (od_size o).

Definition dim_at (l : list Z) (i : nat) : Z := nth i l 0.

(** [odsc_from_ret]: the box starts at the origin. *)
Definition odsc_from_ret (ret : module_ret) (name : string) (version : Z) : option obj_descriptor :=
  match ret with
  | MR_err _ => None
  | MR_array r =>
      let o := set_size (ret_elem_size r)
                 (set_bb (mkBBox (ret_ndim r) zero_coord zero_coord) empty_odsc) in
      let o := obj_data_resize o (dim_at (ret_dim r)) in
      Some (set_name_version name version (set_tag_type (ret_tag r) (od_type o) o))
  end.

(** ** Lemmas *)

Lemma prefix_app p s : String.prefix p s = true <-> exists t, s = (p ++ t)%string.
Proof.
  revert s. induction p as [|a p IH]; intros s; simpl.
  - split; [by exists s|by intros _; destruct s].
  - destruct s as [|b s]; simpl.
    + split; [done|]. intros [t Ht]. discriminate Ht.
    + destruct (Ascii.ascii_dec a b) as [->|Hne].
      * rewrite IH. split; intros [t Ht]; exists t; [by rewrite Ht|by injection Ht].
      * split; [done|]. intros [t Ht]. injection Ht as E _. by destruct Hne.
Qed.

(** The box of the descriptor built from a result. *)
Lemma ret_bounds r n v o i :
  odsc_from_ret (MR_array r) n v = Some o -> (i < ret_ndim r <= BBOX_MAX_NDIM)%nat ->
  0 < dim_at (ret_dim r) i < 2 ^ 64 ->
  cget (lb (od_bb o)) i = 0 /\ cget (ub (od_bb o)) i = dim_at (ret_dim r) i - 1.
Proof.
  intros [= <-] Hi Hd. simpl. rewrite cget_set_range_lt by (unfold zero_coord; rewrite ?length_replicate; lia).
  unfold zero_coord, cget. rewrite nth_replicate_same. split; [done|]. rewrite Z.add_0_l, u64_idemp.
  apply u64_small. lia.
Qed.

(** ** Main results *)

(** A module's array result gives a descriptor at the origin with the
    result's dimensions, whose data size is the element size times the number
    of elements, flagged as resized; an error result gives none. *)
Theorem odsc_from_ret_correct r name version err :
  (ret_ndim r <= BBOX_MAX_NDIM)%nat ->
  (forall i, (i < ret_ndim r)%nat -> 0 < dim_at (ret_dim r) i < 2 ^ 64) ->
  (exists o, odsc_from_ret (MR_array r) name version = Some o /\
     od_name o = name /\ od_version o = version /\ od_tag o = ret_tag r /\
     od_flags o = DS_OBJ_RESIZE /\ num_dims (od_bb o) = ret_ndim r /\
     (forall p, in_box p (od_bb o) <->
        forall i, (i < ret_ndim r)%nat -> 0 <= cget p i < dim_at (ret_dim r) i) /\
     obj_data_size o = u64 (ret_elem_size r * zprod (ret_ndim r) (dim_at (ret_dim r)))) /\
  odsc_from_ret (MR_err err) name version = None.
Proof.
  intros Hn Hd. split; [|done].
  destruct (odsc_from_ret (MR_array r) name version) as [o|] eqn:E; [|done].
  pose proof (fun i Hi => ret_bounds r name version o i E (conj Hi Hn) (Hd i Hi)) as Hb.
  exists o. split; [done|]. injection E as Eo. split_and!; try (by subst o).
  - assert (Hnd : num_dims (od_bb o) = ret_ndim r) by (by subst o).
    intros p. unfold in_box. rewrite Hnd. split; intros H i Hi; specialize (H i Hi);
      destruct (Hb i Hi) as [-> ->] || destruct (Hb i Hi); lia.
  - assert (Hnd : num_dims (od_bb o) = ret_ndim r) by (by subst o).
    assert (Hs : od_size o = ret_elem_size r) by (by subst o).
    unfold obj_data_size. rewrite Hs, bbox_volume_zvolume, u64_mul_r. unfold zvolume. rewrite Hnd.
    do 2 f_equal. apply zprod_ext. intros i Hi. unfold side. destruct (Hb i Hi) as [-> ->]. lia.
Qed.

Lemma odsc_from_ret_correct_witness :
  exists o, odsc_from_ret (MR_array (mkRet 6 [2; 3] 2 7 8 row_major [])) "m" 4 = Some o /\
    obj_data_size o = 48 /\ od_flags o = 2.
Proof.
  destruct (odsc_from_ret_correct (mkRet 6 [2; 3] 2 7 8 row_major []) "m" 4 0)
    as ((o & H1 & _ & _ & _ & H2 & _ & _ & H3) & _).
  - simpl. unfold BBOX_MAX_NDIM. lia.
  - intros [|[|i]] Hi; simpl in *; unfold dim_at; simpl; lia.
  - exists o. split; [exact H1|]. split; [exact H3|exact H2].
Defined.

(** A dictionary value of type [DSP_DOUBLE] does not reach the module:
    the real argument is the word holding the value truncated to an integer,
    so every value below 1 in magnitude arrives as the real whose bits are
    0, and 1.0 as the smallest subnormal. *)
Theorem module_double_arg_lost k bytes :
  (8 <= length bytes)%nat -> Z.land (Z.shiftr (of_le_bytes (take 8 bytes)) 52) 2047 < 1023 ->
  module_arg_from_entry (mkEntry DSP_DOUBLE k (DV_raw bytes))
    = Some (mkArg k DSPACES_ARG_REAL (-1) (AU_word 0)) /\
  module_arg_from_entry (mkEntry DSP_DOUBLE k (DV_raw [0; 0; 0; 0; 0; 0; 240; 63]))
    = Some (mkArg k DSPACES_ARG_REAL (-1) (AU_word 1)).
Proof.
  intros Hl He. split; [|reflexivity]. unfold module_arg_from_entry. cbn [de_type de_key de_val].
  change (DSP_DOUBLE =? DSP_FLOAT) with false. change (DSP_DOUBLE =? DSP_INT) with false.
  change (DSP_DOUBLE =? DSP_LONG) with false. change (DSP_DOUBLE =? DSP_DOUBLE) with true. cbv iota.
  unfold word_of. destruct (Nat.leb_spec 8 (length bytes)); [|lia]. cbn [mbind option_bind].
  do 3 f_equal. unfold long_of_double_bits. destruct (Z.ltb_spec (Z.land (Z.shiftr (of_le_bytes (take 8 bytes)) 52) 2047) 1023); [|lia].
  by destruct (Z.testbit (of_le_bytes (take 8 bytes)) 63).
Qed.

(** 0.5, [0x3FE0000000000000]. *)
Lemma module_double_arg_lost_witness :
  module_arg_from_entry (mkEntry DSP_DOUBLE "x" (DV_raw [0; 0; 0; 0; 0; 0; 224; 63]))
    = Some (mkArg "x" DSPACES_ARG_REAL (-1) (AU_word 0)).
Proof.
  destruct (module_double_arg_lost "x" [0; 0; 0; 0; 0; 0; 224; 63]) as [H _].
  - simpl. lia.
  - vm_compute. reflexivity.
  - exact H.
Defined.
