(* ===== verification/Server.v ===== *)
(** * Server: the request handlers of a staging server

    [src/src/dspaces-server.c] on [struct dspaces_provider] and
    [struct ds_gspace] ([src/include/gspace.h]): shared-space lookup, index
    updates, the put, query, get, drain and metadata handlers.  A handler is a
    function from the server state and the request to the new state, the
    messages it sends to other servers and its reply; [None] is an undefined
    execution (a null pointer followed, or the fuel of the Hilbert loops
    exhausted).  Mutexes bracket each access, so a handler's accesses to one
    table are one step. *)

From S2P Require Import Prelude BBox ObjDesc Linear Sspace DhtEntry StrHash LocalStorage Matrix Codec Modules.

(** ** Outside the server *)

(** What the handlers call that is not under [src/]: the Python modules, the
    data another system returns through a remote connection, LZ4, and what an
    uninitialised variable holds ([env_dim] in [ssd_alloc_v2], [env_coord] the
    sizes of the default dimensions past [ndim], [env_malloc n]
    for a fresh block of [n] bytes).  [env_fuel] bounds the Hilbert interval
    loops. *)
Class Env := {
  env_fuel : nat;
  env_dim : nat;
  env_coord : coord;
  env_malloc : nat -> list Z;
  env_py_exec : dspaces_module -> string -> list module_arg -> option module_ret;
  env_remote_get : string -> obj_descriptor -> global_dimension -> option (list Z);
  env_lz4_compress : list Z -> option (list Z)
}.

(** ** State *)

(** A shared space with the index this server keeps for it
    ([ssd->ent_self]). *)
Record space := mkSp { sp_ssd : sspace; sp_dht : dht_entry }.

(** [struct ds_conf], the fields the handlers read. *)
Record ds_conf := mkConf {
  conf_ndim : nat;
  conf_dims : coord;
  conf_max_versions : Z;
  conf_hash_version : sspace_hash_version
}.

Record server := mkServer {
  sv_rank : nat;
  sv_size_sp : nat;
  sv_addr : string;
  sv_pub_ip : option string;
  sv_priv_ip : option string;
  sv_conf : ds_conf;
  sv_default_gdim : global_dimension;
  sv_default : space;
  sv_spaces : list (global_dimension * space);
  sv_ls : ss_storage;
  sv_ps : ss_storage;
  sv_drain : list obj_descriptor;
  sv_cache : sh_cache;
  sv_mods : list dspaces_module;
  sv_remotes : list string;
  sv_f_kill : Z;
  sv_next : nat
}.

(** Field updates. *)
Definition set_spaces (d : space) (l : list (global_dimension * space)) (sv : server) : server :=
  mkServer (sv_rank sv) (sv_size_sp sv) (sv_addr sv) (sv_pub_ip sv) (sv_priv_ip sv) (sv_conf sv)
    (sv_default_gdim sv) d l (sv_ls sv) (sv_ps sv) (sv_drain sv) (sv_cache sv) (sv_mods sv)
    (sv_remotes sv) (sv_f_kill sv) (sv_next sv).
Definition set_stores (ls ps : ss_storage) (sv : server) : server :=
  mkServer (sv_rank sv) (sv_size_sp sv) (sv_addr sv) (sv_pub_ip sv) (sv_priv_ip sv) (sv_conf sv)
    (sv_default_gdim sv) (sv_default sv) (sv_spaces sv) ls ps (sv_drain sv) (sv_cache sv)
    (sv_mods sv) (sv_remotes sv) (sv_f_kill sv) (sv_next sv).
Definition set_drain (l : list obj_descriptor) (sv : server) : server :=
  mkServer (sv_rank sv) (sv_size_sp sv) (sv_addr sv) (sv_pub_ip sv) (sv_priv_ip sv) (sv_conf sv)
    (sv_default_gdim sv) (sv_default sv) (sv_spaces sv) (sv_ls sv) (sv_ps sv) l (sv_cache sv)
    (sv_mods sv) (sv_remotes sv) (sv_f_kill sv) (sv_next sv).
Definition set_cache (c : sh_cache) (sv : server) : server :=
  mkServer (sv_rank sv) (sv_size_sp sv) (sv_addr sv) (sv_pub_ip sv) (sv_priv_ip sv) (sv_conf sv)
    (sv_default_gdim sv) (sv_default sv) (sv_spaces sv) (sv_ls sv) (sv_ps sv) (sv_drain sv) c
    (sv_mods sv) (sv_remotes sv) (sv_f_kill sv) (sv_next sv).
Definition bump (sv : server) : server :=
  mkServer (sv_rank sv) (sv_size_sp sv) (sv_addr sv) (sv_pub_ip sv) (sv_priv_ip sv) (sv_conf sv)
    (sv_default_gdim sv) (sv_default sv) (sv_spaces sv) (sv_ls sv) (sv_ps sv) (sv_drain sv)
    (sv_cache sv) (sv_mods sv) (sv_remotes sv) (sv_f_kill sv) (S (sv_next sv)).

(** [obj_update_t]. *)
Inductive obj_update_type := DS_OBJ_NEW | DS_OBJ_OWNER.

(** An [obj_update] RPC on its way to server [u_dst]. *)
Record update := mkUpd {
  u_dst : nat;
  u_odsc : obj_descriptor;
  u_gdim : global_dimension;
  u_type : obj_update_type
}.

Definition dspaces_SUCCESS : Z := 0.
Definition dspaces_ERR_MERCURY : Z := -3.

Section Handlers.
Context `{E : Env}.

(** ** Shared spaces *)

(** The domain box of dimension sizes: [0 .. size - 1]. *)
Definition domain_box (ndim : nat) (sizes : coord) : bbox :=
  mkBBox ndim (set_range ndim (fun _ => 0) zero_coord)
    (set_range ndim (fun i => u64 (cget sizes i - 1)) zero_coord).

(** [ssd_alloc] and [ssd_init] for this server. *)
Definition make_space (sv_rank size_sp : nat) (conf : ds_conf) (id : nat) (domain : bbox) : option space :=
  ssd ← ssd_alloc env_fuel id domain size_sp (conf_hash_version conf) env_dim;
  Some (mkSp (ssd_init ssd sv_rank) (dht_entry_alloc (conf_max_versions conf))).

(** [init_sspace] with the stores of [dsg_alloc]: the initial state of server
    [rank]. *)
Definition dsg_alloc (rank size_sp : nat) (addr : string) (conf : ds_conf)
    (mods : list dspaces_module) (remotes : list string) (num_tokens : Z) : option server :=
  let conf := if (conf_ndim conf =? 0)%nat
              then mkConf 1 (cset (conf_dims conf) 0 1) (conf_max_versions conf) (conf_hash_version conf)
              else conf in
  if (BBOX_MAX_NDIM <? conf_ndim conf)%nat then None else
  sp ← make_space rank size_sp conf 0 (domain_box (conf_ndim conf) (conf_dims conf));
  let gdim := mkGdim (conf_ndim conf) (set_range (conf_ndim conf) (cget (conf_dims conf)) env_coord) in
  Some (mkServer rank size_sp addr None None conf gdim sp [] (ls_alloc (conf_max_versions conf))
          (ls_alloc (conf_max_versions conf)) [] [] mods remotes num_tokens 1).

(** A [struct sspace *] of this server. *)
Inductive space_ref := SR_default | SR_entry (n : nat).

Definition get_space (sv : server) (ref : space_ref) : option space :=
  match ref with
  | SR_default => Some (sv_default sv)
  | SR_entry n => option_map snd (sv_spaces sv !! n)
  end.

Definition set_space_dht (sv : server) (ref : space_ref) (de : dht_entry) : server :=
  match ref with
  | SR_default => set_spaces (mkSp (sp_ssd (sv_default sv)) de) (sv_spaces sv) sv
  | SR_entry n => set_spaces (sv_default sv)
                    (alter (fun e => (fst e, mkSp (sp_ssd (snd e)) de)) n (sv_spaces sv)) sv
  end.

(** Position of the first entry with as many dimensions and equal sizes. *)
Fixpoint find_space (gd : global_dimension) (l : list (global_dimension * space)) (n : nat) : option nat :=
  match l with
  | [] => None
  | (g, _) :: l' =>
      if (gd_ndim gd =? gd_ndim g)%nat && global_dimension_equal gd g then Some n
      else find_space gd l' (S n)
  end.

Definition lookup_sspace (sv : server) (gd : global_dimension) : option (server * space_ref) :=
  if global_dimension_equal gd (sv_default_gdim sv) then Some (sv, SR_default)
  else match find_space gd (sv_spaces sv) 0 with
       | Some n => Some (sv, SR_entry n)
       | None =>
           sp ← make_space (sv_rank sv) (sv_size_sp sv) (sv_conf sv) (sv_next sv)
                  (domain_box (gd_ndim gd) (gd_sizes gd));
           Some (bump (set_spaces (sv_default sv) ((gd, sp) :: sv_spaces sv) sv), SR_entry 0)
       end.

(** The element counter of a space. *)
#[local] Instance space_count (ss : sspace) : ElemCount :=
  fun bb => default 0 (ssh_hash_elem_count env_fuel ss bb).

(** Rank of an index entry: every allocation numbers its entries in order. *)
Definition ptr_rank (p : de_ptr) : nat := ptr_ent p.

(** ** Index updates *)

Definition obj_update_local_dht (sv : server) (ref : space_ref) (odsc : obj_descriptor)
    (type : obj_update_type) : option server :=
  sp ← get_space sv ref;
  Some (set_space_dht sv ref
    match type with
    | DS_OBJ_NEW => fst (@dht_add_entry (space_count (sp_ssd sp)) (sp_dht sp) odsc)
    | DS_OBJ_OWNER => fst (dht_update_owner (sp_dht sp) odsc true)
    end).

(** The loop over the servers responsible for the object. *)
Fixpoint update_peers (sv : server) (ref : space_ref) (odsc : obj_descriptor) (gdim : global_dimension)
    (type : obj_update_type) (de_tab : list de_ptr) : option (server * list update) :=
  match de_tab with
  | [] => Some (sv, [])
  | p :: tab =>
      if (ptr_rank p =? sv_rank sv)%nat then
        sv ← obj_update_local_dht sv ref odsc type;
        update_peers sv ref odsc gdim type tab
      else
        '(sv, out) ← update_peers sv ref odsc gdim type tab;
        Some (sv, mkUpd (ptr_rank p) odsc gdim type :: out)
  end.

Definition obj_update_dht (sv : server) (odsc : obj_descriptor) (gdim : global_dimension)
    (type : obj_update_type) : option (server * list update) :=
  '(sv, ref) ← lookup_sspace sv gdim;
  sp ← get_space sv ref;
  '(de_tab, c) ← ssd_hash env_fuel (sp_ssd sp) (od_bb odsc) (sv_cache sv);
  let sv := set_cache c sv in
  match de_tab with
  | [] => sv ← obj_update_local_dht sv ref odsc type; Some (sv, [])
  | _ => update_peers sv ref odsc gdim type de_tab
  end.

Definition obj_update_rpc (sv : server) (u : update) : option server :=
  '(sv, ref) ← lookup_sspace sv (u_gdim u);
  obj_update_local_dht sv ref (u_odsc u) (u_type u).

(** ** Storing *)

(** [strstr] and the splice of [address_translate]. *)
Definition address_translate (pub priv addr : string) : string :=
  match String.index 0 priv addr with
  | Some n => (String.substring 0 n addr ++ pub ++
               String.substring (n + String.length priv) (String.length addr) addr)%string
  | None => addr
  end.

Definition own_address (sv : server) : string :=
  match sv_pub_ip sv, sv_priv_ip sv with
  | Some pub, Some priv => address_translate pub priv (sv_addr sv)
  | _, _ => sv_addr sv
  end.

Definition odsc_take_ownership (sv : server) (odsc : obj_descriptor) : obj_descriptor :=
  set_owner (own_address sv) odsc.

(** A fresh block of [n] bytes. *)
Definition malloc (n : nat) : list Z := resize n 0 (env_malloc n).

Definition zero_gdim : global_dimension := mkGdim 0 zero_coord.

(** [obj_data_alloc] keeps the size in an [int]; a negative one makes [malloc]
    fail, and the callers use the null pointer. *)
Definition obj_data_alloc (id : nat) (odsc : obj_descriptor) : option obj_data :=
  let size := i32 (obj_data_size odsc) in
  if size <? 0 then None
  else Some (mkObj id odsc zero_gdim (malloc (Z.to_nat size)) 0 false).

(** A transfer through a bulk handle of [size] bytes on [buf]: no more than
    the handle's size arrives, and it has to fit the block. *)
Definition bulk_write (buf : list Z) (size : Z) (data : list Z) : option (list Z) :=
  let data := take (Z.to_nat size) data in
  if (length data <=? length buf)%nat then Some (data ++ drop (length data) buf) else None.

(** [ls_add_obj] to [dsg->ls] of a new object, whose identity is fresh. *)
Definition store_obj (sv : server) (odsc : obj_descriptor) (gdim : global_dimension) (data : list Z) : server :=
  bump (set_stores (ls_add_obj (sv_ls sv) (mkObj (sv_next sv) odsc gdim data 0 false)) (sv_ps sv) sv).

(** [data] is what the bulk transfer brought, [None] when it failed. *)
Definition put_rpc (sv : server) (odsc : obj_descriptor) (gdim : global_dimension) (data : option (list Z))
  : option (server * list update * Z) :=
  let odsc := odsc_take_ownership sv odsc in
  od ← obj_data_alloc (sv_next sv) odsc;
  match data with
  | None => Some (sv, [], dspaces_ERR_MERCURY)
  | Some data =>
      data ← bulk_write (ob_data od) (obj_data_size odsc) data;
      '(sv, out) ← obj_update_dht (store_obj sv odsc gdim data) odsc gdim DS_OBJ_NEW;
      Some (sv, out, dspaces_SUCCESS)
  end.

Definition put_local_rpc (sv : server) (odsc : obj_descriptor) (gdim : global_dimension)
  : option (server * list update * Z) :=
  '(sv, out) ← obj_update_dht sv odsc gdim DS_OBJ_NEW;
  Some (set_drain (sv_drain sv ++ [odsc]) sv, out, dspaces_SUCCESS).

(** [get_client_data]: the drained object's [gdim] stays zeroed by
    [obj_data_alloc]; [reply] is the client's answer with the data pushed. *)
Definition get_client_data (sv : server) (odsc : obj_descriptor) (reply : Z * list Z)
  : option (server * list update * Z) :=
  od ← obj_data_alloc (sv_next sv) odsc;
  data ← bulk_write (ob_data od) (obj_data_size odsc) (snd reply);
  let o := set_owner (sv_addr sv) odsc in
  let sv := if fst reply =? dspaces_SUCCESS then store_obj sv o zero_gdim data else sv in
  '(sv, out) ← obj_update_dht sv o zero_gdim DS_OBJ_OWNER;
  Some (sv, out, fst reply).

(** One iteration of the inner loop of [drain_thread], [None] of the inner
    option when the list is empty. *)
Definition drain_step (sv : server) (reply : Z * list Z) : option (option (server * list update)) :=
  match sv_drain sv with
  | [] => Some None
  | odsc :: l =>
      '(sv, out, ret) ← get_client_data (set_drain l sv) odsc reply;
      Some (Some (if ret =? dspaces_SUCCESS then sv else set_drain (sv_drain sv ++ [odsc]) sv, out))
  end.

(** ** Module routing *)

Definition route_request (sv : server) (odsc : obj_descriptor) (gdim : global_dimension)
  : option (server * obj_descriptor * list update) :=
  let res := m ← dspaces_mod_by_od (sv_mods sv) odsc;
             dspaces_module_exec env_py_exec m "query" (build_module_args_from_odsc odsc) in
  match res with
  | None => Some (sv, odsc, [])
  | Some (MR_err _) => Some (sv, odsc, [])
  | Some (MR_array r) =>
      if negb (od_size odsc =? 0) && negb (od_size odsc =? ret_elem_size r) then Some (sv, odsc, [])
      else
        let odsc := set_size (ret_elem_size r) odsc in
        let bb := od_bb odsc in
        let odsc :=
          if negb (num_dims bb =? ret_ndim r)%nat then
            obj_data_resize (set_bb (mkBBox (ret_ndim r) (lb bb) (ub bb)) odsc) (dim_at (ret_dim r))
          else if negb (u64 (od_size odsc * ret_len r) =? obj_data_size odsc) then
            obj_data_resize odsc (dim_at (ret_dim r))
          else odsc in
        let od_odsc := odsc_take_ownership sv odsc in
        let od_odsc := set_tag_type (ret_tag r) (od_type od_odsc) od_odsc in
        let odsc := if od_tag odsc =? 0 then set_tag_type (ret_tag r) (od_type odsc) odsc else odsc in
        '(sv, out) ← obj_update_dht (store_obj sv od_odsc gdim (ret_data r)) od_odsc gdim DS_OBJ_NEW;
        Some (sv, odsc, out)
  end.

(** ** Queries *)

(** The descriptor a pointer of a result table points to. *)
Definition cell_get (de : dht_entry) (cell : nat) : option obj_descriptor :=
  option_map snd (find (fun c => (fst c =? cell)%nat) (cells de)).

(** A result: the stored descriptor with the query's storage order and the
    common part of the boxes, written over the stored box. *)
Definition query_view (q o : obj_descriptor) : obj_descriptor :=
  set_bb (bbox_intersect (od_bb q) (od_bb o) (od_bb o)) (set_st (od_st q) o).

Definition deref_tab (de : dht_entry) (q : obj_descriptor) (tab : list nat) : option (list obj_descriptor) :=
  mapM (fun c => option_map (query_view q) (cell_get de c)) tab.

(** [dht_find_entry_all] on a space of the server; [timeout == -1] makes it
    subscribe. *)
Definition find_local (sv : server) (ref : space_ref) (q : obj_descriptor) (timeout : Z) (id : nat)
  : option (server * find_result) :=
  sp ← get_space sv ref;
  let '(de, r) := @dht_find_entry_all (space_count (sp_ssd sp)) (sp_dht sp) q (timeout =? -1) id in
  Some (set_space_dht sv ref de, r).

(** The answer of a server to a part of a query: its descriptors, or a wait
    with the table so far. *)
Inductive query_answer :=
| QA_done (odscs : list obj_descriptor)
| QA_wait (ref : space_ref) (q : obj_descriptor) (tab : list nat) (id : nat).

Definition answer_local (sv : server) (ref : space_ref) (q : obj_descriptor) (timeout : Z)
  : option (server * query_answer) :=
  '(sv, r) ← find_local sv ref q timeout (sv_next sv);
  match r with
  | FR_done tab => sp ← get_space sv ref; l ← deref_tab (sp_dht sp) q tab; Some (sv, QA_done l)
  | FR_wait tab id => Some (bump sv, QA_wait ref q tab id)
  end.

(** A waiting answer after a broadcast: [None] of the inner option while it
    keeps waiting. *)
Definition answer_resume (sv : server) (ref : space_ref) (q : obj_descriptor) (tab : list nat) (id : nat)
  : option (option (server * list obj_descriptor)) :=
  sp ← get_space sv ref;
  match dht_sub_resume (sp_dht sp) (bin_of (sp_dht sp) q) id tab with
  | None => Some None
  | Some (de, tab) => l ← deref_tab de q tab; Some (Some (set_space_dht sv ref de, l))
  end.

Definition odsc_internal_rpc (sv : server) (q : obj_descriptor) (gdim : global_dimension) (timeout : Z)
  : option (server * list update * query_answer) :=
  '(sv, ref) ← lookup_sspace sv gdim;
  '(sv, q, out) ← route_request sv q gdim;
  '(sv, a) ← answer_local sv ref q timeout;
  Some (sv, out, a).

(** [query_remotes]: the first remote with the data; the object stored in the
    proxy store has an empty name. *)
Definition query_remotes (sv : server) (q : obj_descriptor) (gdim : global_dimension)
  : server * list obj_descriptor :=
  match list_find (fun r => is_Some (env_remote_get r q gdim)) (sv_remotes sv) with
  | None => (sv, [])
  | Some (_, r) =>
      let odsc := mkOdsc "" (od_st q) 0 0 0 (sv_addr sv) (od_version q) (od_bb q) (od_size q) in
      let od := mkObj (sv_next sv) odsc zero_gdim (default [] (env_remote_get r q gdim)) 0 false in
      (bump (set_stores (sv_ls sv) (ls_add_obj (sv_ps sv) od) sv), [odsc])
  end.

Definition local_responsibility (sv : server) (odsc : obj_descriptor) : bool :=
  match sv_remotes sv with
  | [] => true
  | _ => match ls_lookup (sv_ls sv) (od_name odsc) with Some _ => true | None => false end
  end.

(** The peers of a query: position [self_id] of this server among them, and
    the ranks of the others by position. *)
Definition self_position (sv : server) (de_tab : list de_ptr) : option nat :=
  last (map fst (List.filter (fun ip => (ptr_rank (snd ip) =? sv_rank sv)%nat) (imap pair de_tab))).

(** Duplicates by name, version and box are dropped, the first is kept. *)
Fixpoint dedup_odscs (results tab : list obj_descriptor) : list obj_descriptor :=
  match tab with
  | [] => results
  | o :: tab' =>
      if existsb (fun r => obj_desc_equals_no_owner r o) results then dedup_odscs results tab'
      else dedup_odscs (results ++ [o]) tab'
  end.

(** First part of [get_query_odscs]: the remotes' answer, or the peers to ask
    with this server's own answer when it is one of them (always when there
    are none), at its position in the table. *)
Inductive query_start :=
| QS_remote (odscs : list obj_descriptor)
| QS_peers (peers : list nat) (self : option (nat * query_answer)).

Definition start_query (sv : server) (q : obj_descriptor) (gdim : global_dimension) (timeout : Z)
  : option (server * list update * query_start) :=
  if negb (local_responsibility sv q) then
    let '(sv, l) := query_remotes sv q gdim in Some (sv, [], QS_remote l)
  else
    '(sv, ref) ← lookup_sspace sv gdim;
    sp ← get_space sv ref;
    '(de_tab, c) ← ssd_hash env_fuel (sp_ssd sp) (od_bb q) (sv_cache sv);
    let sv := set_cache c sv in
    let peers := map ptr_rank de_tab in
    let self := match de_tab with [] => Some 0%nat | _ => self_position sv de_tab end in
    match self with
    | None => Some (sv, [], QS_peers peers None)
    | Some i =>
        '(sv, q, out) ← route_request sv q gdim;
        '(sv, a) ← answer_local sv ref q timeout;
        Some (sv, out, QS_peers peers (Some (i, a)))
    end.

(** Last part: the answers in peer order, deduplicated. *)
Definition finish_query (answers : list (list obj_descriptor)) : list obj_descriptor :=
  fold_left dedup_odscs answers [].

(** ** Reading *)

(** [csize] and the bytes pushed to the client. *)
Definition get_rpc (sv : server) (odsc : obj_descriptor) (suppress_compression : bool)
  : option (Z * list Z) :=
  from_obj ←
    match sv_remotes sv, ls_lookup (sv_ps sv) (od_name odsc) with
    | _ :: _, Some _ => ls_find (sv_ps sv) odsc
    | _, _ => ls_find (sv_ls sv) odsc
    end;
  od ← obj_data_alloc (sv_next sv) odsc;
  '(od, _) ← ssd_copy od from_obj;
  let size := Z.to_nat (obj_data_size odsc) in
  let buffer := take size (ob_data od) in
  if (length (ob_data od) <? size)%nat then None
  else if suppress_compression then Some (0, buffer)
  else match env_lz4_compress buffer with
       | Some c => Some (Z.of_nat (length c), c)
       | None => Some (0, buffer)
       end.

(** ** Metadata *)

Definition put_meta_rpc (sv : server) (name : string) (version : Z) (data : option (list Z))
  : option (server * Z) :=
  match data with
  | None => Some (sv, dspaces_ERR_MERCURY)
  | Some data =>
      ls ← ls_add_meta (sv_ls sv) (mkMeta (sv_next sv) name (u32 version) data);
      Some (bump (set_stores ls (sv_ps sv) sv), dspaces_SUCCESS)
  end.

(** [peek_meta_remotes]: [replies] are the remotes' answers in order of
    completion, each with the index [margo_wait_any] reports; the loop
    counter is returned. *)
Definition peek_meta_remotes (replies : list (nat * Z)) : Z :=
  fold_left (fun ret '(i, (_, res)) => if res =? 1 then Z.of_nat i else ret) (imap pair replies) (-1).

Definition peek_meta_rpc (sv : server) (name : string) (replies : list (nat * Z)) : option Z :=
  '(_, r) ← meta_find_next_entry (sv_ls sv) name (-1) false (sv_next sv);
  match r, sv_remotes sv with
  | MR_done (Some _), _ => Some 1
  | _, [] => Some 0
  | _, _ => Some (if -1 <? peek_meta_remotes replies then 1 else 0)
  end.

(** The loop of [META_MODE_LAST] after the first entry. *)
Fixpoint last_loop (fuel : nat) (ls : ss_storage) (name : string) (mdata : meta_data) : option meta_data :=
  match fuel with
  | O => None
  | S f =>
      '(_, r) ← meta_find_next_entry ls name (i32 (md_version mdata)) false 0;
      match r with
      | MR_done (Some m) => last_loop f ls name m
      | _ => Some mdata
      end
  end.

Inductive meta_mode := META_MODE_SPEC | META_MODE_NEXT | META_MODE_LAST.

(** The local part of [query_meta_rpc]; a [LAST] query that has to wait goes
    on with [last_loop] when it resumes. *)
Definition query_meta_local (fuel : nat) (sv : server) (mode : meta_mode) (name : string) (version : Z)
  : option (ss_storage * meta_result) :=
  match mode with
  | META_MODE_SPEC => meta_find_entry (sv_ls sv) name version false (sv_next sv)
  | META_MODE_NEXT => meta_find_next_entry (sv_ls sv) name version true (sv_next sv)
  | META_MODE_LAST =>
      '(ls, r) ← meta_find_next_entry (sv_ls sv) name version true (sv_next sv);
      match r with
      | MR_done (Some m) => m' ← last_loop fuel ls name m; Some (ls, MR_done (Some m'))
      | _ => Some (ls, r)
      end
  end.

(** ** Blocks and transfers *)

(** An object whose size the [int] of [obj_data_alloc] holds. *)
Definition small_obj (o : obj_descriptor) : Prop := obj_data_size o < 2 ^ 31.

Lemma length_malloc n : length (malloc n) = n.
Proof. apply length_resize. Qed.

Lemma obj_data_size_range o : 0 <= obj_data_size o.
Proof. apply u64_range. Qed.

Lemma obj_data_alloc_small id o :
  small_obj o ->
  obj_data_alloc id o = Some (mkObj id o zero_gdim (malloc (Z.to_nat (obj_data_size o))) 0 false).
Proof.
  intros Ho. unfold obj_data_alloc. pose proof (obj_data_size_range o). unfold small_obj in Ho.
  rewrite i32_small by lia. by destruct (Z.ltb_spec (obj_data_size o) 0); [lia|].
Qed.

Lemma bulk_write_small id o data od :
  small_obj o -> obj_data_alloc id o = Some od ->
  exists data', bulk_write (ob_data od) (obj_data_size o) data = Some data' /\
    length data' = Z.to_nat (obj_data_size o) /\
    (Z.of_nat (length data) = obj_data_size o -> data' = data).
Proof.
  intros Ho. rewrite obj_data_alloc_small by done. intros [= <-]. cbn [ob_data]. unfold bulk_write.
  rewrite length_take, length_malloc. set (n := Z.to_nat _).
  destruct (Nat.leb_spec (n `min` length data) n); [|lia]. eexists. split; [reflexivity|]. split.
  - rewrite length_app, length_take, length_drop, length_malloc. lia.
  - intros Hl. assert (length data = n) as Hn by (unfold n; lia).
    rewrite take_ge, Hn, Nat.min_id, drop_ge, app_nil_r by (rewrite ?length_malloc; lia). done.
Qed.

(** A whole object that was written had a size within [int]. *)
Lemma bulk_write_full id o data od data' :
  obj_data_alloc id o = Some od -> bulk_write (ob_data od) (obj_data_size o) data = Some data' ->
  Z.of_nat (length data) = obj_data_size o -> small_obj o /\ data' = data.
Proof.
  intros Ha Hb Hl. assert (Ho : small_obj o).
  { unfold obj_data_alloc in Ha. destruct (Z.ltb_spec (i32 (obj_data_size o)) 0); [done|].
    injection Ha as <-. unfold bulk_write in Hb. cbn [ob_data] in Hb. rewrite length_take, length_malloc in Hb.
    destruct (Nat.leb_spec (Z.to_nat (obj_data_size o) `min` length data) (Z.to_nat (i32 (obj_data_size o)))); [|done].
    unfold small_obj. pose proof (i32_range (obj_data_size o)). lia. }
  split; [done|]. destruct (bulk_write_small id o data od Ho Ha) as (d2 & E2 & _ & H). rewrite Hb in E2.
  injection E2 as <-. auto.
Qed.

End Handlers.
