(* ===== verification/Cluster.v ===== *)
(** * Cluster: the staging servers together

    The servers of one DataSpaces instance with the index updates in flight
    between them.  Puts, drains and queries arrive at any server and updates
    are delivered in any order; a query asks every responsible server and
    merges the answers ([get_query_odscs] of [src/src/dspaces-server.c]).
    The main results: whatever the order of delivery, the distributed index
    holds each published descriptor exactly at the servers responsible for
    it, and a query on any server then gets each of its points exactly
    once. *)

From S2P Require Import Prelude BBox ObjDesc Linear Sspace DhtEntry StrHash LocalStorage Matrix Codec Modules Server.

(** ** State and events *)

Record cluster := mkCluster { cl_servers : list server; cl_net : list update }.

(** A request arriving at a server, or the delivery of the [i]-th message in
    flight. *)
Inductive event :=
| E_put (r : nat) (odsc : obj_descriptor) (gdim : global_dimension) (data : list Z)
| E_put_local (r : nat) (odsc : obj_descriptor) (gdim : global_dimension)
| E_drain (r : nat) (reply : Z * list Z)
| E_deliver (i : nat)
| E_query (r : nat) (q : obj_descriptor) (gdim : global_dimension).

Section Cluster.
Context `{E : Env}.

(** The state after a handler of server [r] ran. *)
Definition replace_server (c : cluster) (r : nat) (sv : server) (out : list update) : cluster :=
  mkCluster (<[r := sv]> (cl_servers c)) (cl_net c ++ out).

(** ** Queries across servers *)

(** The answers of the peers from position [i] on; the query's own server
    answered at its position already. *)
Fixpoint ask_peers (c : cluster) (q : obj_descriptor) (gdim : global_dimension) (timeout : Z)
    (self : option (nat * query_answer)) (i : nat) (peers : list nat)
  : option (cluster * list (list obj_descriptor)) :=
  match peers with
  | [] => Some (c, [])
  | p :: peers' =>
      '(c, a) ←
        match self with
        | Some (j, a) => if (i =? j)%nat then Some (c, a) else
            sv ← cl_servers c !! p;
            '(sv, out, a) ← odsc_internal_rpc sv q gdim timeout;
            Some (replace_server c p sv out, a)
        | None =>
            sv ← cl_servers c !! p;
            '(sv, out, a) ← odsc_internal_rpc sv q gdim timeout;
            Some (replace_server c p sv out, a)
        end;
      match a with
      | QA_wait _ _ _ _ => None
      | QA_done l =>
          '(c, rest) ← ask_peers c q gdim timeout self (S i) peers';
          Some (c, l :: rest)
      end
  end.

(** [query_rpc] at server [r] up to its response, when no answer waits. *)
Definition query_rpc (c : cluster) (r : nat) (q : obj_descriptor) (gdim : global_dimension)
    (timeout : Z) : option (cluster * list obj_descriptor) :=
  sv ← cl_servers c !! r;
  '(sv, out, st) ← start_query sv q gdim timeout;
  let c := replace_server c r sv out in
  match st with
  | QS_remote l => Some (c, l)
  | QS_peers [] (Some (_, QA_done l)) => Some (c, finish_query [l])
  | QS_peers peers self =>
      '(c, answers) ← ask_peers c q gdim timeout self 0 peers;
      Some (c, finish_query answers)
  end.

(** ** Steps *)

(** A handler run at server [r]; nothing happens when there is no such
    server. *)
Definition at_server (c : cluster) (r : nat) (f : server -> option (server * list update)) : option cluster :=
  match cl_servers c !! r with
  | None => Some c
  | Some sv => '(sv, out) ← f sv; Some (replace_server c r sv out)
  end.

Definition step (c : cluster) (e : event) : option cluster :=
  match e with
  | E_put r odsc gdim data =>
      at_server c r (fun sv => '(sv, out, _) ← put_rpc sv odsc gdim (Some data); Some (sv, out))
  | E_put_local r odsc gdim =>
      at_server c r (fun sv => '(sv, out, _) ← put_local_rpc sv odsc gdim; Some (sv, out))
  | E_drain r reply =>
      at_server c r (fun sv => res ← drain_step sv reply; Some (default (sv, []) res))
  | E_deliver i =>
      match cl_net c !! i with
      | None => Some c
      | Some u =>
          at_server (mkCluster (cl_servers c) (delete i (cl_net c))) (u_dst u)
            (fun sv => sv ← obj_update_rpc sv u; Some (sv, []))
      end
  | E_query r q gdim =>
      match cl_servers c !! r with
      | None => Some c
      | Some _ => '(c, _) ← query_rpc c r q gdim 0; Some c
      end
  end.

Definition run (c : cluster) (es : list event) : option cluster :=
  foldl (fun c e => c ← c; step c e) (Some c) es.

(** [N] servers started with the same configuration. *)
Definition start (N : nat) (addr : nat -> string) (conf : ds_conf) (tokens : Z) : option cluster :=
  svs ← mapM (fun r => dsg_alloc r N (addr r) conf [] [] tokens) (seq 0 N);
  Some (mkCluster svs []).

(** The descriptors published by a sequence of events, with the server that
    took each. *)
Definition published_by (e : event) : list (nat * obj_descriptor) :=
  match e with
  | E_put r o _ _ => [(r, o)]
  | E_put_local r o _ => [(r, o)]
  | _ => []
  end.

Definition puts (es : list event) : list (nat * obj_descriptor) := flat_map published_by es.

(** ** Properties of the published descriptors *)

(** A descriptor up to its owner and flags. *)
Definition key (o : obj_descriptor) : obj_descriptor := set_flags 0 (set_owner "" o).

(** Server [r] is responsible for box [bb]; a box no server is responsible
    for is kept by the server [s] that published it. *)
Definition responsible (ss : sspace) (bb : bbox) (r : nat) : bool :=
  place_hit_v2 bb (nth r (ss_ent_tab ss) (zero_place 0)).

Definition holder (ss : sspace) (so : nat * obj_descriptor) (r : nat) : bool :=
  responsible ss (od_bb (snd so)) r
  || (negb (existsb (responsible ss (od_bb (snd so))) (seq 0 (length (ss_ent_tab ss)))) && (fst so =? r)%nat).

(** Server [r] owns point [p]. *)
Definition responsible_point (ss : sspace) (p : coord) (r : nat) : Prop :=
  existsb (in_boxb p) (de_bb_tab (nth r (ss_ent_tab ss) (zero_place 0))) = true.

(** Index contents and insertions in flight, up to owner and flags. *)
Definition index_keys (sv : server) : list obj_descriptor :=
  map (fun c => key (snd c)) (cells (sp_dht (sv_default sv))).

Definition is_new (u : update) : bool :=
  match u_type u with DS_OBJ_NEW => true | DS_OBJ_OWNER => false end.

Definition pending (r : nat) (net : list update) : list obj_descriptor :=
  map (fun u => key (u_odsc u)) (List.filter (fun u => (u_dst u =? r)%nat && is_new u) net).

(** ** Keys and compatibility *)

Lemma key_idemp o : key (key o) = key o.
Proof. done. Qed.

Lemma key_update odsc clear o : key (new_owner odsc clear o) = key o.
Proof. by destruct clear. Qed.

Lemma apart_key_r mv o x : apart mv o (key x) <-> apart mv o x.
Proof. done. Qed.

Lemma apart_key_l mv o x : apart mv (key o) x <-> apart mv o x.
Proof. done. Qed.

(** No stored descriptor of the bin is overwritten by one that is apart from
    all. *)
Lemma apart_find_match de o :
  dht_inv de -> Forall (apart (odsc_size de) o) (map (fun c => key (snd c)) (cells de)) ->
  dht_find_match de o = None.
Proof.
  intros Hi Ha. unfold dht_find_match. destruct (_ =? _); [done|].
  apply find_map_fst. intros c Hc. rewrite Forall_forall in Ha.
  destruct (Ha (key (snd c))) as [Hv|Hb]; [|destruct Hv|exact Hb].
  - apply list_elem_of_fmap. exists c. split; [done|]. apply list_elem_of_In.
    by apply (in_nth_concat (bin_of de o)).
  - pose proof (inv_bins _ Hi _ _ Hc) as Hbin. unfold bin_of in Hbin.
    pose proof (Z.mod_pos_bound (od_version (snd c)) _ (inv_size _ Hi)).
    pose proof (Z.mod_pos_bound (od_version o) _ (inv_size _ Hi)). cbn [key od_version set_flags set_owner].
    lia.
Qed.

(** ** One server *)

Section Servers.
Context (N : nat) (G : global_dimension) (ss : sspace) (mv : Z).
Context (Hss : ss_hash_version ss = ssd_hash_version_v2) (Hlen : length (ss_ent_tab ss) = N).

(** A server of the cluster that has used the default space only. *)
Record good (r : nat) (sv : server) : Prop := {
  g_rank : sv_rank sv = r;
  g_gdim : sv_default_gdim sv = G;
  g_ssd : sp_ssd (sv_default sv) = ssd_init ss r;
  g_inv : dht_inv (sp_dht (sv_default sv));
  g_size : odsc_size (sp_dht (sv_default sv)) = mv;
  g_cache : cache_ok ss (sv_cache sv);
  g_mods : sv_mods sv = [];
  g_remotes : sv_remotes sv = [];
  g_drain : Forall small_obj (sv_drain sv)
}.

Lemma good_set_dht r sv de :
  good r sv -> dht_inv de -> odsc_size de = mv -> good r (set_space_dht sv SR_default de).
Proof. intros [] Hi Hs. by split. Qed.

Lemma good_set_cache r sv c : good r sv -> cache_ok ss c -> good r (set_cache c sv).
Proof. intros [] Hc. by split. Qed.

Lemma good_store r sv o g d : good r sv -> good r (store_obj sv o g d).
Proof. intros []. by split. Qed.

Lemma good_set_drain r sv l : good r sv -> Forall small_obj l -> good r (set_drain l sv).
Proof. intros [] Hl. by split. Qed.

Lemma index_set_cell de n cell f :
  dht_inv de -> (n < length (odsc_hash de))%nat -> (forall o, key (f o) = key o) ->
  map (fun c => key (snd c)) (cells (set_hash n (set_cell cell f) de))
  = map (fun c => key (snd c)) (cells de).
Proof.
  intros Hi Hlt Hf. unfold cells, set_hash. cbn [odsc_hash].
  destruct (concat_alter_split (set_cell cell f) _ _ Hlt) as (l1 & l2 & -> & ->).
  rewrite !map_app. f_equal. f_equal. unfold set_cell. rewrite map_map. apply map_ext.
  intros [c o]. simpl. destruct (c =? cell)%nat; [apply Hf|done].
Qed.

(** The key an insertion adds. *)
Definition added (type : obj_update_type) (b : bool) (o : obj_descriptor) : list obj_descriptor :=
  match type with
  | DS_OBJ_NEW => if b then [key o] else []
  | DS_OBJ_OWNER => []
  end.

Definition may_add (type : obj_update_type) (o : obj_descriptor) (sv : server) : Prop :=
  match type with
  | DS_OBJ_NEW => Forall (apart mv o) (index_keys sv)
  | DS_OBJ_OWNER => True
  end.

Lemma local_update_ok r sv o type :
  good r sv -> may_add type o sv ->
  exists sv', obj_update_local_dht sv SR_default o type = Some sv' /\ good r sv' /\
    index_keys sv' ≡ₚ added type true o ++ index_keys sv.
Proof.
  intros Hg Ha. pose proof (g_inv _ _ Hg) as Hi. unfold obj_update_local_dht. cbn [get_space mbind option_bind].
  eexists. split; [reflexivity|]. destruct type; simpl in Ha |- *.
  - split; [apply good_set_dht; [done|by apply dht_add_entry_inv_aux|by rewrite size_add_entry, (g_size _ _ Hg)]|].
    unfold index_keys. simpl. rewrite (cells_add_new _ _ Hi); [done|].
    apply apart_find_match; [done|]. by rewrite (g_size _ _ Hg).
  - split.
    + apply good_set_dht; [done|by apply dht_update_owner_inv_aux|].
      rewrite dht_update_owner_eq. destruct (dht_find_exact _ _) as [[??]|]; exact (g_size _ _ Hg).
    + unfold index_keys. simpl. rewrite dht_update_owner_eq.
      destruct (dht_find_exact _ _) as [[cell x]|]; [|done].
      by rewrite index_set_cell by (done || by apply bin_of_lt).
Qed.

(** A tab without this server: messages only. *)
Lemma update_peers_remote o gd type tab : forall sv,
  sv_rank sv ∉ map ptr_rank tab ->
  update_peers sv SR_default o gd type tab = Some (sv, map (fun p => mkUpd (ptr_rank p) o gd type) tab) /\
  List.filter (fun p => negb (ptr_rank p =? sv_rank sv)%nat) tab = tab /\
  existsb (Nat.eqb (sv_rank sv)) (map ptr_rank tab) = false.
Proof.
  induction tab as [|p tab IH]; intros sv Hp; [done|]. simpl in *.
  apply not_elem_of_cons in Hp as [Hx Hp]. destruct (IH sv Hp) as (E1 & E2 & E3).
  rewrite (Nat.eqb_sym (sv_rank sv)). destruct (Nat.eqb_spec (ptr_rank p) (sv_rank sv)); [congruence|].
  by rewrite E1, E2, E3.
Qed.

Lemma update_peers_ok r o gd type tab : forall sv,
  good r sv -> may_add type o sv -> NoDup (map ptr_rank tab) ->
  exists sv', update_peers sv SR_default o gd type tab =
      Some (sv', map (fun p => mkUpd (ptr_rank p) o gd type)
                   (List.filter (fun p => negb (ptr_rank p =? r)%nat) tab)) /\
    good r sv' /\
    index_keys sv' ≡ₚ added type (existsb (Nat.eqb r) (map ptr_rank tab)) o ++ index_keys sv.
Proof.
  induction tab as [|p tab IH]; intros sv Hg Ha Hnd;
    cbn [update_peers List.filter map existsb].
  { exists sv. split; [done|]. split; [done|]. by destruct type. }
  cbn [map] in Hnd. apply NoDup_cons in Hnd as [Hp Hnd]. rewrite (g_rank _ _ Hg), (Nat.eqb_sym r).
  destruct (Nat.eqb_spec (ptr_rank p) r) as [Hr|Hr]; cbn [negb orb map].
  - destruct (local_update_ok r sv o type Hg Ha) as (sv1 & -> & Hg1 & Hx1). cbn [mbind option_bind].
    destruct (update_peers_remote o gd type tab sv1) as (-> & Hf & _).
    { rewrite (g_rank _ _ Hg1). congruence. }
    rewrite (g_rank _ _ Hg1) in Hf. exists sv1. by rewrite Hf.
  - destruct (IH sv Hg Ha Hnd) as (sv1 & -> & Hg1 & Hx1). by exists sv1.
Qed.

(** The servers of a box. *)
Definition ranks (bb : bbox) : list nat := List.filter (responsible ss bb) (seq 0 N).

Lemma ranks_tab bb : map ptr_rank (select_ents (place_hit_v2 bb) ss) = ranks bb.
Proof. unfold ptr_rank, ranks, responsible. by rewrite select_ents_ranks, Hlen. Qed.

Lemma NoDup_ranks bb : NoDup (ranks bb).
Proof. apply NoDup_ListNoDup, List.NoDup_filter, seq_NoDup. Qed.

Lemma in_ranks bb r : r ∈ ranks bb <-> (r < N)%nat /\ responsible ss bb r = true.
Proof. unfold ranks. rewrite list_elem_of_In, filter_In, in_seq. lia || intuition lia. Qed.

Lemma existsb_ranks bb r : (r < N)%nat -> existsb (Nat.eqb r) (ranks bb) = responsible ss bb r.
Proof.
  intros Hr. apply eq_true_iff_eq. rewrite existsb_exists. split.
  - intros (x & Hx & ->%Nat.eqb_eq). by apply list_elem_of_In, in_ranks in Hx as [_ Hx].
  - intros Hb. exists r. rewrite Nat.eqb_refl. split; [|done]. apply list_elem_of_In, in_ranks. done.
Qed.

Lemma holder_ranks so r : (r < N)%nat ->
  holder ss so r = match ranks (od_bb (snd so)) with
                   | [] => (fst so =? r)%nat
                   | _ => responsible ss (od_bb (snd so)) r
                   end.
Proof.
  intros Hr. unfold holder. rewrite Hlen. destruct (ranks (od_bb (snd so))) as [|x l] eqn:El.
  - assert (Hall : forall x, (x < N)%nat -> responsible ss (od_bb (snd so)) x = false).
    { intros x Hx. apply not_true_is_false. intros Hb.
      assert (Hin : x ∈ ranks (od_bb (snd so))) by (by apply in_ranks). rewrite El in Hin.
      by apply elem_of_nil in Hin. }
    rewrite (Hall r Hr). simpl.
    assert (existsb (responsible ss (od_bb (snd so))) (seq 0 N) = false) as ->; [|done].
    apply not_true_is_false. intros (x & [_ Hx]%in_seq & Hb)%existsb_exists. by rewrite (Hall x Hx) in Hb.
  - assert (Hin : x ∈ ranks (od_bb (snd so))) by (rewrite El; apply list_elem_of_here).
    apply in_ranks in Hin as [Hx Hb].
    assert (existsb (responsible ss (od_bb (snd so))) (seq 0 N) = true) as ->.
    { apply existsb_exists. exists x. split; [by apply in_seq; lia|done]. }
    by rewrite orb_false_r.
Qed.

Lemma hash_ok r sv bb :
  good r sv ->
  exists c, ssd_hash env_fuel (sp_ssd (sv_default sv)) bb (sv_cache sv)
            = Some (select_ents (place_hit_v2 bb) ss, c) /\ cache_ok ss c.
Proof.
  intros Hg. rewrite (g_ssd _ _ Hg). unfold ssd_hash. cbn [ssd_init ss_hash_version]. rewrite Hss.
  destruct (ssd_hash_v2_ok (ssd_init ss r) bb (sv_cache sv) (g_cache _ _ Hg)) as [H1 H2].
  destruct (ssd_hash_v2 (ssd_init ss r) bb (sv_cache sv)) as [tab c]. simpl in H1, H2. subst tab.
  by exists c.
Qed.

Lemma lookup_default r sv gd :
  good r sv -> global_dimension_equal gd G = true -> lookup_sspace sv gd = Some (sv, SR_default).
Proof. intros Hg Hgd. unfold lookup_sspace. by rewrite (g_gdim _ _ Hg), Hgd. Qed.

Lemma pending_app r l1 l2 : pending r (l1 ++ l2) = pending r l1 ++ pending r l2.
Proof. unfold pending. by rewrite List.filter_app, map_app. Qed.

Lemma pending_messages r o gd type tab :
  NoDup (map ptr_rank tab) ->
  pending r (map (fun p => mkUpd (ptr_rank p) o gd type) tab)
  = added type (existsb (Nat.eqb r) (map ptr_rank tab)) o.
Proof.
  unfold pending. induction tab as [|p tab IH]; intros Hnd; [by destruct type|].
  cbn [map] in Hnd. apply NoDup_cons in Hnd as [Hp Hnd]. specialize (IH Hnd).
  cbn [map List.filter u_dst existsb]. rewrite (Nat.eqb_sym r).
  destruct (Nat.eqb_spec (ptr_rank p) r) as [Hr|_]; cbn [andb orb].
  - assert (existsb (Nat.eqb r) (map ptr_rank tab) = false) as Hnone.
    { apply not_true_is_false. intros (x & Hx & ->%Nat.eqb_eq)%existsb_exists.
      destruct Hp. rewrite Hr. by apply list_elem_of_In. }
    rewrite Hnone in IH. destruct type; simpl in *; [by rewrite IH|done].
  - exact IH.
Qed.

Lemma existsb_without r r' tab :
  existsb (Nat.eqb r') (map ptr_rank (List.filter (fun p => negb (ptr_rank p =? r)%nat) tab))
  = negb (r' =? r)%nat && existsb (Nat.eqb r') (map ptr_rank tab).
Proof.
  induction tab as [|x l IH]; cbn [List.filter map existsb]; [by rewrite andb_false_r|].
  destruct (Nat.eqb_spec (ptr_rank x) r) as [Hx|Hx]; cbn [negb map existsb]; rewrite IH.
  - destruct (Nat.eqb_spec r' r) as [|Hn]; [done|]. subst r. by rewrite (proj2 (Nat.eqb_neq _ _) Hn).
  - destruct (Nat.eqb_spec r' (ptr_rank x)) as [->|Hn]; simpl; [|done].
    by rewrite (proj2 (Nat.eqb_neq _ _) Hx).
Qed.

Lemma obj_update_dht_ok r sv o gd type :
  good r sv -> (r < N)%nat -> global_dimension_equal gd G = true -> may_add type o sv ->
  exists sv' out, obj_update_dht sv o gd type = Some (sv', out) /\ good r sv' /\
    index_keys sv' ≡ₚ added type (holder ss (r, o) r) o ++ index_keys sv /\
    Forall (fun u => u_gdim u = gd /\ (u_dst u < N)%nat) out /\
    forall r', (r' < N)%nat ->
      pending r' out = added type (negb (r' =? r)%nat && holder ss (r, o) r') o.
Proof.
  intros Hg Hr Hgd Ha. unfold obj_update_dht. rewrite (lookup_default r sv gd Hg Hgd).
  cbn [mbind option_bind get_space]. destruct (hash_ok r sv (od_bb o) Hg) as (c & -> & Hc).
  cbn [mbind option_bind]. pose proof (good_set_cache r sv c Hg Hc) as Hg'.
  pose proof (ranks_tab (od_bb o)) as Ht. pose proof (NoDup_ranks (od_bb o)) as Hnd.
  set (tab := select_ents (place_hit_v2 (od_bb o)) ss) in *.
  assert (Hh : forall r', (r' < N)%nat -> holder ss (r, o) r' =
    match tab with [] => (r =? r')%nat | _ => existsb (Nat.eqb r') (map ptr_rank tab) end).
  { intros r' Hr'. rewrite holder_ranks by done. cbn [fst snd]. rewrite <- (existsb_ranks _ _ Hr'), <- Ht.
    by destruct tab. }
  destruct tab as [|p tab'] eqn:Et.
  - destruct (local_update_ok r (set_cache c sv) o type Hg' Ha) as (sv' & -> & Hgs & Hx).
    exists sv', []. split; [done|]. split; [done|]. split; [|split; [done|]].
    + rewrite (Hh r Hr), Nat.eqb_refl. exact Hx.
    + intros r' Hr'. rewrite (Hh r' Hr'), (Nat.eqb_sym r'). by destruct type, (r =? r')%nat.
  - rewrite <- Et in *. rewrite <- Ht in Hnd.
    destruct (update_peers_ok r o gd type tab (set_cache c sv) Hg' Ha Hnd) as (sv' & -> & Hgs & Hx).
    eexists sv', _. split; [done|]. split; [done|]. split; [|split].
    + rewrite (Hh r Hr). rewrite Et in Hx |- *. exact Hx.
    + apply Forall_forall. intros u (p' & -> & Hp')%list_elem_of_fmap. split; [done|].
      apply list_elem_of_In, filter_In in Hp' as [Hp' _].
      assert (Hin : ptr_rank p' ∈ ranks (od_bb o)).
      { rewrite <- Ht. apply list_elem_of_fmap. exists p'. split; [done|]. by apply list_elem_of_In. }
      by apply in_ranks in Hin as [? _].
    + intros r' Hr'. rewrite pending_messages by by apply NoDup_map_filter.
      rewrite (Hh r' Hr'), existsb_without. by rewrite Et.
Qed.

(** ** Answers *)

(** What a server answers at once to its part of a query. *)
Definition local_answer (sv : server) (q : obj_descriptor) : list obj_descriptor :=
  let de := sp_dht (sv_default sv) in
  match snd (@dht_find_entry_all (space_count (sp_ssd (sv_default sv))) de q false (sv_next sv)) with
  | FR_done tab => default [] (deref_tab de q tab)
  | FR_wait _ _ => []
  end.

Lemma set_default_dht_id sv : set_space_dht sv SR_default (sp_dht (sv_default sv)) = sv.
Proof. by destruct sv as [? ? ? ? ? ? ? [] ? ? ? ? ? ? ? ? ?]. Qed.

Lemma cell_get_in de c : dht_inv de -> In c (cells de) -> cell_get de (fst c) = Some (snd c).
Proof.
  intros Hi Hin. unfold cell_get. destruct (find _ _) as [[c' o]|] eqn:Ef.
  - apply find_some in Ef as [Hc Heq]. simpl in *. apply Nat.eqb_eq in Heq. subst c'.
    f_equal. destruct c as [c x]. apply (nodup_fst_inj (cells de) c); [apply Hi|done|done].
  - exfalso. pose proof (find_none _ _ Ef c Hin) as Hc. simpl in Hc. by rewrite Nat.eqb_refl in Hc.
Qed.

Lemma deref_cells de q l :
  dht_inv de -> (forall c, In c l -> In c (cells de)) ->
  deref_tab de q (map fst l) = Some (map (fun c => query_view q (snd c)) l).
Proof.
  intros Hi. induction l as [|c l IH]; intros Hin; [done|]. unfold deref_tab in *.
  cbn [map mapM]. rewrite (cell_get_in de c Hi) by (apply Hin; by left). cbn [option_map mbind option_bind].
  rewrite IH by (intros; apply Hin; by right). done.
Qed.

Lemma scan_bin_tab `{EC : ElemCount} q l : forall tab m,
  fst (scan_bin q l tab m) = tab ++ map fst (matching q l).
Proof.
  unfold matching. induction l as [|[cell o] l IH]; intros tab m; simpl; [by rewrite app_nil_r|].
  destruct (obj_desc_equals_intersect o q); rewrite IH; [by rewrite <- app_assoc|done].
Qed.

(** The cells of this server a query matches. *)
Definition found (sv : server) (q : obj_descriptor) : list (nat * obj_descriptor) :=
  let de := sp_dht (sv_default sv) in matching q (bin de (bin_of de q)).

Lemma found_cells sv q c :
  In c (found sv q) -> In c (cells (sp_dht (sv_default sv))) /\ obj_desc_equals_intersect (snd c) q = true.
Proof.
  unfold found, matching. intros [Hc Hm]%filter_In. split; [|done].
  by apply (in_nth_concat (bin_of (sp_dht (sv_default sv)) q)).
Qed.

Lemma find_now `{EC : ElemCount} de q id :
  exists tab, dht_find_entry_all de q false id = (de, FR_done tab) /\
    (tab = [] \/ tab = map fst (matching q (bin de (bin_of de q)))).
Proof.
  unfold dht_find_entry_all.
  pose proof (scan_bin_tab q (bin de (bin_of de q)) [] (ec_count (od_bb q))) as Hs.
  destruct (scan_bin _ _ _ _) as [tab m]. simpl in Hs. subst tab.
  destruct (0 <? m); [exists []; auto|eauto].
Qed.

Lemma answer_local_ok r sv q :
  good r sv -> answer_local sv SR_default q 0 = Some (sv, QA_done (local_answer sv q)).
Proof.
  intros Hg. unfold answer_local, find_local, local_answer. cbn [get_space mbind option_bind].
  change (0 =? -1) with false.
  destruct (@find_now (space_count (sp_ssd (sv_default sv))) (sp_dht (sv_default sv)) q (sv_next sv))
    as (tab & -> & Ht). cbn [snd mbind option_bind]. rewrite set_default_dht_id. cbn [get_space mbind option_bind].
  destruct Ht as [->| ->]; [done|].
  rewrite (deref_cells _ _ (found sv q)); [done|apply Hg|]. intros c Hc. by apply (found_cells sv q c).
Qed.

Lemma route_none r sv q gd : good r sv -> route_request sv q gd = Some (sv, q, []).
Proof. intros Hg. unfold route_request. by rewrite (g_mods _ _ Hg). Qed.

Lemma internal_ok r sv q gd :
  good r sv -> global_dimension_equal gd G = true ->
  odsc_internal_rpc sv q gd 0 = Some (sv, [], QA_done (local_answer sv q)).
Proof.
  intros Hg Hgd. unfold odsc_internal_rpc. rewrite (lookup_default r sv gd Hg Hgd).
  cbn [mbind option_bind]. rewrite (route_none r sv q gd Hg). cbn [mbind option_bind].
  by rewrite (answer_local_ok r sv q Hg).
Qed.

Lemma self_position_spec r sv tab :
  sv_rank sv = r ->
  match self_position sv tab with
  | Some i => map ptr_rank tab !! i = Some r
  | None => r ∉ map ptr_rank tab
  end.
Proof.
  intros Hr. unfold self_position. rewrite Hr.
  assert (Hin : forall i p, In (i, p) (List.filter (fun ip => (ptr_rank (snd ip) =? r)%nat) (imap pair tab))
                <-> tab !! i = Some p /\ ptr_rank p = r).
  { intros i p. rewrite filter_In, <- list_elem_of_In, elem_of_lookup_imap. cbn [snd].
    rewrite Nat.eqb_eq. split.
    - intros [(j & x & Hj & Hx) Hp]. by simplify_eq.
    - intros [Hi Hp]. split; [|done]. by exists i, p. }
  destruct (last _) as [i|] eqn:El.
  - apply last_Some_elem_of in El. apply list_elem_of_fmap in El as ([i' p] & -> & Hp).
    apply list_elem_of_In, Hin in Hp as [Hi Hp]. cbn [fst].
    by rewrite list_lookup_fmap, Hi, <- Hp.
  - apply last_None in El. intros (p & Hp & Hpt)%list_elem_of_fmap.
    apply list_elem_of_lookup in Hpt as [i Hi].
    assert (Hx : In (i, p) (List.filter (fun ip => (ptr_rank (snd ip) =? r)%nat) (imap pair tab))) by (by apply Hin).
    apply map_eq_nil in El. by rewrite El in Hx.
Qed.

(** The query's own part, with the other servers to ask. *)
Lemma start_query_ok r sv q gd :
  good r sv -> (r < N)%nat -> global_dimension_equal gd G = true ->
  exists c self, cache_ok ss c /\
    start_query sv q gd 0 = Some (set_cache c sv, [], QS_peers (ranks (od_bb q)) self) /\
    match self with
    | None => ranks (od_bb q) <> []
    | Some (i, QA_done l) => l = local_answer sv q /\
        (ranks (od_bb q) <> [] -> ranks (od_bb q) !! i = Some r)
    | Some (_, QA_wait _ _ _ _) => False
    end.
Proof.
  intros Hg Hr Hgd. unfold start_query, local_responsibility. rewrite (g_remotes _ _ Hg). cbn [negb].
  rewrite (lookup_default r sv gd Hg Hgd). cbn [mbind option_bind get_space].
  destruct (hash_ok r sv (od_bb q) Hg) as (c & -> & Hc). cbn [mbind option_bind].
  pose proof (good_set_cache r sv c Hg Hc) as Hg'. exists c. rewrite ranks_tab.
  pose proof (ranks_tab (od_bb q)) as Ht.
  pose proof (self_position_spec r (set_cache c sv) (select_ents (place_hit_v2 (od_bb q)) ss) (g_rank _ _ Hg')) as Hs.
  rewrite Ht in Hs.
  assert (Hans : forall i : nat, ('(sv0, q0, out) ← route_request (set_cache c sv) q gd;
            '(sv1, a) ← answer_local sv0 SR_default q0 0;
            Some (sv1, out, QS_peers (ranks (od_bb q)) (Some (i, a))))
          = Some (set_cache c sv, [], QS_peers (ranks (od_bb q)) (Some (i, QA_done (local_answer sv q))))).
  { intros i. rewrite (route_none r _ q gd Hg'). cbn [mbind option_bind].
    by rewrite (answer_local_ok r _ q Hg'). }
  destruct (select_ents (place_hit_v2 (od_bb q)) ss) as [|p tab] eqn:Et.
  - eexists. split; [done|]. split; [apply Hans|]. split; [done|]. rewrite <- Ht. done.
  - rewrite <- Et in *. destruct (self_position _ _) as [i|].
    + eexists. split; [done|]. split; [apply Hans|]. by split.
    + exists None. split; [done|]. split; [done|]. rewrite <- Ht, Et. done.
Qed.

(** ** The cluster invariant *)

(** [H] is the history of publications: every server holds or will receive
    exactly the descriptors it is responsible for. *)
Record cl_inv (H : list (nat * obj_descriptor)) (c : cluster) : Prop := {
  ci_length : length (cl_servers c) = N;
  ci_good : forall r sv, cl_servers c !! r = Some sv -> good r sv;
  ci_index : forall r sv, cl_servers c !! r = Some sv ->
    index_keys sv ++ pending r (cl_net c)
    ≡ₚ map (fun so => key (snd so)) (List.filter (fun so => holder ss so r) H);
  ci_net : Forall (fun u => global_dimension_equal (u_gdim u) G = true /\ (u_dst u < N)%nat) (cl_net c)
}.

Lemma inv_lt H c r sv : cl_inv H c -> cl_servers c !! r = Some sv -> (r < N)%nat.
Proof. intros Hi Hr. rewrite <- (ci_length _ _ Hi). by eapply lookup_lt_Some. Qed.

(** A handler that publishes the descriptors [H'] (none or one). *)
Lemma inv_replace H H' c r sv sv' out :
  cl_inv H c -> cl_servers c !! r = Some sv -> good r sv' ->
  Forall (fun u => global_dimension_equal (u_gdim u) G = true /\ (u_dst u < N)%nat) out ->
  index_keys sv' ++ pending r out
    ≡ₚ index_keys sv ++ map (fun so => key (snd so)) (List.filter (fun so => holder ss so r) H') ->
  (forall r', (r' < N)%nat -> r' <> r ->
     pending r' out ≡ₚ map (fun so => key (snd so)) (List.filter (fun so => holder ss so r') H')) ->
  cl_inv (H ++ H') (replace_server c r sv' out).
Proof.
  intros Hi Hr Hg Ho Hx Hp. pose proof (inv_lt _ _ _ _ Hi Hr) as Hlt. split; cbn [cl_servers cl_net replace_server].
  - rewrite length_insert. apply Hi.
  - intros r' sv2. rewrite list_lookup_insert_Some. intros [(<- & <- & _)|[_ H2]]; [done|].
    by apply (ci_good _ _ Hi).
  - intros r' sv2. rewrite list_lookup_insert_Some, pending_app, List.filter_app, map_app.
    intros [(<- & <- & _)|[Hne H2]].
    + rewrite <- (ci_index _ _ Hi r sv Hr).
      transitivity ((index_keys sv' ++ pending r out) ++ pending r (cl_net c)); [solve_Permutation|].
      rewrite Hx. solve_Permutation.
    + rewrite app_assoc, (ci_index _ _ Hi r' sv2 H2), Hp; [done| |done]. by eapply inv_lt.
  - apply Forall_app. split; [apply Hi|done].
Qed.

(** What an index update does to the cluster. *)
Lemma inv_update H c r sv sv0 o gd type :
  cl_inv H c -> cl_servers c !! r = Some sv -> good r sv0 -> index_keys sv0 = index_keys sv ->
  global_dimension_equal gd G = true -> may_add type o sv ->
  exists sv' out, obj_update_dht sv0 o gd type = Some (sv', out) /\ good r sv' /\
    forall sv2, good r sv2 -> index_keys sv2 = index_keys sv' ->
      cl_inv (H ++ match type with DS_OBJ_NEW => [(r, o)] | DS_OBJ_OWNER => [] end)
        (replace_server c r sv2 out).
Proof.
  intros Hi Hr Hg Hk Hgd Ha. pose proof (inv_lt _ _ _ _ Hi Hr) as Hlt.
  assert (Ha0 : may_add type o sv0) by (unfold may_add in *; by rewrite Hk).
  destruct (obj_update_dht_ok r sv0 o gd type Hg Hlt Hgd Ha0) as (sv' & out & -> & Hg' & Hx & Ho & Hp).
  eexists _, _. split; [done|]. split; [done|]. intros sv2 Hg2 Hk2.
  assert (Hadd : forall r', (r' < N)%nat -> added type (holder ss (r, o) r') o =
    map (fun so => key (snd so)) (List.filter (fun so => holder ss so r')
      match type with DS_OBJ_NEW => [(r, o)] | DS_OBJ_OWNER => [] end)).
  { intros r' _. destruct type; [|done]. simpl. by destruct (holder ss (r, o) r'). }
  apply (inv_replace _ _ _ _ sv); [done..| | |].
  - eapply Forall_impl; [exact Ho|]. intros u [-> ?]. done.
  - rewrite Hk2, Hx, (Hp r Hlt), Nat.eqb_refl, Hk, <- (Hadd r Hlt). simpl.
    destruct type; simpl; rewrite ?app_nil_r; [apply Permutation_app_comm|done].
  - intros r' Hr' Hne. rewrite (Hp r' Hr'), (proj2 (Nat.eqb_neq _ _) Hne). simpl. by rewrite <- Hadd.
Qed.

Lemma inv_may_add H c r sv o s :
  cl_inv H c -> cl_servers c !! r = Some sv ->
  compatible mv (map (fun so => key (snd so)) (H ++ [(s, o)])) -> may_add DS_OBJ_NEW o sv.
Proof.
  intros Hi Hr Hc. simpl. rewrite map_app in Hc.
  eapply compatible_perm in Hc; [|apply Permutation_app_comm]. cbn [map snd app] in Hc.
  apply compatible_cons in Hc as [Hc _]. apply Forall_forall. intros x Hx.
  rewrite Forall_forall in Hc. apply (apart_key_l mv o x), Hc.
  assert (Hin : x ∈ map (fun so => key (snd so)) (List.filter (fun so => holder ss so r) H)).
  { rewrite <- (ci_index _ _ Hi r sv Hr). apply elem_of_app. by left. }
  apply list_elem_of_fmap in Hin as (y & -> & Hy). apply list_elem_of_fmap. exists y. split; [done|].
  apply list_elem_of_In in Hy. apply filter_In in Hy as [Hy _]. by apply list_elem_of_In.
Qed.

(** The initial state of the messages after taking one out. *)
Lemma pending_delete r net i u :
  net !! i = Some u ->
  pending r net ≡ₚ (if (u_dst u =? r)%nat && is_new u then [key (u_odsc u)] else []) ++ pending r (delete i net).
Proof.
  intros Hu. rewrite <- (take_drop_middle net i u Hu) at 1. rewrite delete_take_drop, !pending_app.
  change (u :: drop (S i) net) with ([u] ++ drop (S i) net). rewrite pending_app.
  unfold pending at 2. simpl. destruct (_ && _); simpl; solve_Permutation.
Qed.

(** ** Steps keep the invariant *)

Lemma put_step H c r o gd data :
  cl_inv H c -> (r < N)%nat -> global_dimension_equal gd G = true -> small_obj o ->
  compatible mv (map (fun so => key (snd so)) (H ++ [(r, o)])) ->
  exists c', step c (E_put r o gd data) = Some c' /\ cl_inv (H ++ [(r, o)]) c'.
Proof.
  intros Hi Hr Hgd Hsm Hc. cbn [step]. unfold at_server.
  destruct (cl_servers c !! r) as [sv|] eqn:Esv; [|rewrite <- (ci_length _ _ Hi) in Hr;
    by apply lookup_ge_None in Esv; lia].
  pose proof (ci_good _ _ Hi r sv Esv) as Hg. unfold put_rpc. set (o' := odsc_take_ownership sv o).
  pose proof (inv_may_add H c r sv o r Hi Esv Hc) as Ha.
  assert (Hsm' : small_obj o') by exact Hsm.
  destruct (bulk_write_small (sv_next sv) o' data _ Hsm' (obj_data_alloc_small _ _ Hsm')) as (data' & Hw & _).
  rewrite (obj_data_alloc_small _ o' Hsm'). cbn [mbind option_bind]. rewrite Hw. cbn [mbind option_bind].
  clear Hw. clear data. rename data' into data.
  destruct (inv_update H c r sv (store_obj sv o' gd data) o' gd DS_OBJ_NEW Hi Esv)
    as (sv' & out & Eu & Hg' & Hinv); [by apply good_store|done|done|exact Ha|].
  rewrite Eu. cbn [mbind option_bind]. eexists. split; [reflexivity|].
  specialize (Hinv sv' Hg' eq_refl). destruct Hinv as [I1 I2 I3 I4]. split; [done|done| |done].
  intros r' sv2 H2. rewrite (I3 r' sv2 H2), !List.filter_app, !map_app. f_equiv. cbn [List.filter].
  change (holder ss (r, o') r') with (holder ss (r, o) r'). by destruct (holder ss (r, o) r').
Qed.

Lemma put_local_step H c r o gd :
  cl_inv H c -> (r < N)%nat -> global_dimension_equal gd G = true -> small_obj o ->
  compatible mv (map (fun so => key (snd so)) (H ++ [(r, o)])) ->
  exists c', step c (E_put_local r o gd) = Some c' /\ cl_inv (H ++ [(r, o)]) c'.
Proof.
  intros Hi Hr Hgd Hsm Hc. cbn [step]. unfold at_server.
  destruct (cl_servers c !! r) as [sv|] eqn:Esv; [|rewrite <- (ci_length _ _ Hi) in Hr;
    by apply lookup_ge_None in Esv; lia].
  pose proof (ci_good _ _ Hi r sv Esv) as Hg. unfold put_local_rpc.
  destruct (inv_update H c r sv sv o gd DS_OBJ_NEW Hi Esv Hg eq_refl Hgd (inv_may_add H c r sv o r Hi Esv Hc))
    as (sv' & out & Eu & Hg' & Hinv).
  rewrite Eu. cbn [mbind option_bind]. eexists. split; [reflexivity|].
  apply Hinv; [|done]. apply good_set_drain; [done|].
  apply Forall_app_2; [apply Hg'|by apply Forall_singleton].
Qed.

Lemma drain_ok H c r reply :
  cl_inv H c -> exists c', step c (E_drain r reply) = Some c' /\ cl_inv H c'.
Proof.
  intros Hi. cbn [step]. unfold at_server.
  destruct (cl_servers c !! r) as [sv|] eqn:Esv; [|by exists c].
  pose proof (ci_good _ _ Hi r sv Esv) as Hg. unfold drain_step.
  destruct (sv_drain sv) as [|odsc l] eqn:Ed.
  - eexists. split; [reflexivity|]. rewrite <- (app_nil_r H).
    by apply (inv_replace _ _ _ _ sv).
  - pose proof (g_drain _ _ Hg) as Hdr. rewrite Ed in Hdr. apply Forall_cons in Hdr as [Hsm Hl].
    unfold get_client_data. rewrite (obj_data_alloc_small _ odsc Hsm). cbn [mbind option_bind].
    edestruct (bulk_write_small (sv_next (set_drain l sv)) odsc (snd reply) _ Hsm (obj_data_alloc_small _ _ Hsm))
      as (data & Hw & _).
    setoid_rewrite Hw. cbn [mbind option_bind]. clear Hw. set (o' := set_owner (sv_addr (set_drain l sv)) odsc).
    set (sv0 := if fst reply =? dspaces_SUCCESS then _ else _).
    assert (Hg0 : good r sv0).
    { unfold sv0. destruct (_ =? _); [apply good_store|]; by apply good_set_drain. }
    assert (Hk0 : index_keys sv0 = index_keys sv) by (unfold sv0; by destruct (_ =? _)).
    destruct (inv_update H c r sv sv0 o' zero_gdim DS_OBJ_OWNER Hi Esv Hg0 Hk0 eq_refl I)
      as (sv' & out & Eu & Hg' & Hinv).
    rewrite Eu. cbn [mbind option_bind default]. eexists. split; [reflexivity|].
    rewrite app_nil_r in Hinv.
    destruct (fst reply =? dspaces_SUCCESS); apply Hinv; try done. apply good_set_drain; [done|].
    apply Forall_app_2; [apply Hg'|by apply Forall_singleton].
Qed.

(** An insertion on its way is apart from what its server holds. *)
Lemma deliver_may_add H c i u sv :
  cl_inv H c -> compatible mv (map (fun so => key (snd so)) H) ->
  cl_net c !! i = Some u -> cl_servers c !! u_dst u = Some sv -> may_add (u_type u) (u_odsc u) sv.
Proof.
  intros Hi Hc Eu Esv. destruct (u_type u) eqn:Et; [|done]. simpl.
  pose proof (ci_index _ _ Hi _ sv Esv) as Hx. rewrite (pending_delete _ _ i u Eu), Nat.eqb_refl in Hx.
  unfold is_new in Hx. rewrite Et in Hx. cbn [andb] in Hx.
  apply (compatible_filter mv _ (fun so => holder ss so (u_dst u))) in Hc.
  eapply compatible_perm in Hc; [|symmetry; exact Hx].
  eapply compatible_perm in Hc; [|symmetry; apply Permutation_middle].
  apply compatible_cons in Hc as [Hc _]. by apply Forall_app in Hc as [Hc _].
Qed.

Lemma deliver_ok H c i :
  cl_inv H c -> compatible mv (map (fun so => key (snd so)) H) ->
  exists c', step c (E_deliver i) = Some c' /\ cl_inv H c'.
Proof.
  intros Hi Hc. cbn [step]. destruct (cl_net c !! i) as [u|] eqn:Eu; [|by exists c].
  pose proof (proj1 (Forall_lookup _ _) (ci_net _ _ Hi) i u Eu) as [Hgd Hd].
  unfold at_server. cbn [cl_servers].
  destruct (cl_servers c !! u_dst u) as [sv|] eqn:Esv; [|rewrite <- (ci_length _ _ Hi) in Hd;
    by apply lookup_ge_None in Esv; lia].
  pose proof (ci_good _ _ Hi _ sv Esv) as Hg. unfold obj_update_rpc.
  rewrite (lookup_default _ sv _ Hg Hgd). cbn [mbind option_bind].
  pose proof (fun r => pending_delete r (cl_net c) i u Eu) as Hp.
  pose proof (deliver_may_add H c i u sv Hi Hc Eu Esv) as Ha.
  destruct (local_update_ok _ sv (u_odsc u) (u_type u) Hg Ha) as (sv' & -> & Hg' & Hx').
  cbn [mbind option_bind]. eexists. split; [reflexivity|].
  split; cbn [cl_servers cl_net replace_server].
  - rewrite length_insert. apply Hi.
  - intros r sv2. rewrite list_lookup_insert_Some. intros [(<- & <- & _)|[_ H2]]; [done|].
    by apply (ci_good _ _ Hi).
  - intros r sv2. rewrite app_nil_r, list_lookup_insert_Some. intros [(<- & <- & _)|[Hne H2]].
    + rewrite <- (ci_index _ _ Hi _ sv Esv), Hx', (Hp (u_dst u)), Nat.eqb_refl.
      unfold is_new. destruct (u_type u); simpl; solve_Permutation.
    + rewrite <- (ci_index _ _ Hi r sv2 H2), (Hp r), (proj2 (Nat.eqb_neq _ _) Hne). done.
  - rewrite app_nil_r. apply Forall_delete, Hi.
Qed.

(** ** Queries on a cluster *)

(** Server [p]'s answer. *)
Definition answer_of (c : cluster) (q : obj_descriptor) (p : nat) : list obj_descriptor :=
  match cl_servers c !! p with Some sv => local_answer sv q | None => [] end.

Lemma replace_same c r sv : cl_servers c !! r = Some sv -> replace_server c r sv [] = c.
Proof.
  intros Hr. unfold replace_server. rewrite list_insert_id by done. rewrite app_nil_r. by destruct c.
Qed.

Lemma ask_peers_ok H c q gd self : forall peers i,
  cl_inv H c -> global_dimension_equal gd G = true -> Forall (fun p => (p < N)%nat) peers ->
  match self with
  | None => True
  | Some (j, QA_done l) => forall p, (i <= j)%nat -> peers !! (j - i)%nat = Some p -> l = answer_of c q p
  | Some (_, QA_wait _ _ _ _) => False
  end ->
  ask_peers c q gd 0 self i peers = Some (c, map (answer_of c q) peers).
Proof.
  induction peers as [|p peers IH]; intros i Hi Hgd Hp Hs; [done|].
  apply Forall_cons in Hp as [Hlt Hp].
  destruct (cl_servers c !! p) as [sv|] eqn:Esv; [|rewrite <- (ci_length _ _ Hi) in Hlt;
    by apply lookup_ge_None in Esv; lia].
  pose proof (ci_good _ _ Hi p sv Esv) as Hg.
  assert (Hone : answer_of c q p = local_answer sv q) by (unfold answer_of; by rewrite Esv).
  assert (Hrest : ask_peers c q gd 0 self (S i) peers = Some (c, map (answer_of c q) peers)).
  { apply IH; [done..|]. destruct self as [[j [l|]]|]; [|done..]. intros x Hj Hx. apply Hs; [lia|].
    replace (j - i)%nat with (S (j - S i)) by lia. exact Hx. }
  cbn [ask_peers map]. rewrite Esv. cbn [mbind option_bind]. rewrite (internal_ok p sv q gd Hg Hgd).
  cbn [mbind option_bind]. rewrite (replace_same c p sv Esv).
  destruct self as [[j [l|]]|]; [|done|].
  - destruct (Nat.eqb_spec i j) as [->|Hne]; cbn [mbind option_bind]; rewrite Hrest; cbn [mbind option_bind].
    + rewrite (Hs p); [done|lia|]. by rewrite Nat.sub_diag.
    + by rewrite Hone.
  - cbn [mbind option_bind]. rewrite Hrest. cbn [mbind option_bind]. by rewrite Hone.
Qed.

Lemma query_ok H c r q gd :
  cl_inv H c -> (r < N)%nat -> global_dimension_equal gd G = true ->
  exists c', cl_inv H c' /\ cl_net c' = cl_net c /\
    (exists sv ca, cl_servers c !! r = Some sv /\ c' = replace_server c r (set_cache ca sv) []) /\
    query_rpc c r q gd 0 = Some (c', finish_query (map (answer_of c q)
      match ranks (od_bb q) with [] => [r] | l => l end)).
Proof.
  intros Hi Hr Hgd. unfold query_rpc.
  destruct (cl_servers c !! r) as [sv|] eqn:Esv; [|rewrite <- (ci_length _ _ Hi) in Hr;
    by apply lookup_ge_None in Esv; lia]. cbn [mbind option_bind].
  pose proof (ci_good _ _ Hi r sv Esv) as Hg.
  destruct (start_query_ok r sv q gd Hg Hr Hgd) as (ca & self & Hca & -> & Hself).
  cbn [mbind option_bind]. set (c1 := replace_server c r (set_cache ca sv) []).
  assert (Hi1 : cl_inv H c1).
  { rewrite <- (app_nil_r H). apply (inv_replace _ _ _ _ sv); try done. by apply good_set_cache. }
  assert (Hans : forall p, answer_of c1 q p = answer_of c q p).
  { intros p. unfold answer_of, c1, replace_server. cbn [cl_servers].
    destruct (decide (r = p)) as [<-|Hne].
    - rewrite list_lookup_insert_eq by (by eapply lookup_lt_Some). by rewrite Esv.
    - by rewrite list_lookup_insert_ne. }
  assert (Hr1 : answer_of c q r = local_answer sv q) by (unfold answer_of; by rewrite Esv).
  exists c1. split; [done|]. split; [apply app_nil_r|]. split; [by exists sv, ca|].
  destruct (ranks (od_bb q)) as [|p0 l0] eqn:Er.
  - destruct self as [[i [l|]]|]; [|done..]. destruct Hself as [-> _]. cbn [map]. by rewrite Hr1.
  - rewrite <- Er. rewrite <- Er in Hself.
    assert (Hask : ask_peers c1 q gd 0 self 0 (ranks (od_bb q)) = Some (c1, map (answer_of c1 q) (ranks (od_bb q)))).
    { apply (ask_peers_ok H); [done..| |].
      - apply Forall_forall. intros x Hx. by apply in_ranks in Hx as [? _].
      - destruct self as [[i [l|]]|]; [|done..]. destruct Hself as [-> Hi0].
        intros p _. rewrite Nat.sub_0_r, Hi0 by (by rewrite Er). intros [= <-]. by rewrite Hans, Hr1. }
    rewrite Hask. rewrite (map_ext _ _ Hans). rewrite Er. destruct self as [[i [l|]]|]; done.
Qed.

(** ** Runs *)

(** Requests address a server of the cluster and use the default space; an
    object has less than two gigabytes. *)
Definition event_ok (e : event) : Prop :=
  match e with
  | E_put r o gd _ | E_put_local r o gd => (r < N)%nat /\ global_dimension_equal gd G = true /\ small_obj o
  | E_query r _ gd => (r < N)%nat /\ global_dimension_equal gd G = true
  | E_drain _ _ | E_deliver _ => True
  end.

Lemma step_ok H c e :
  cl_inv H c -> event_ok e -> compatible mv (map (fun so => key (snd so)) (H ++ published_by e)) ->
  exists c', step c e = Some c' /\ cl_inv (H ++ published_by e) c'.
Proof.
  intros Hi He Hc. destruct e as [r o gd data|r o gd|r reply|i|r q gd]; cbn [published_by] in *;
    rewrite ?app_nil_r in *.
  - destruct He as (? & ? & ?). by apply put_step.
  - destruct He as (? & ? & ?). by apply put_local_step.
  - by apply drain_ok.
  - by apply deliver_ok.
  - destruct He as [Hr Hgd]. destruct (query_ok H c r q gd Hi Hr Hgd) as (c' & Hi' & _ & _ & Hq).
    exists c'. split; [|done]. cbn [step].
    destruct (cl_servers c !! r) eqn:Esv; [by rewrite Hq|].
    apply lookup_ge_None in Esv. rewrite (ci_length _ _ Hi) in Esv. lia.
Qed.

Lemma run_none es : foldl (fun c e => c ← c; step c e) None es = None.
Proof. induction es as [|e es IH]; [done|]. exact IH. Qed.

Lemma run_ok es : forall H c,
  cl_inv H c -> Forall event_ok es -> compatible mv (map (fun so => key (snd so)) (H ++ puts es)) ->
  exists c', run c es = Some c' /\ cl_inv (H ++ puts es) c'.
Proof.
  unfold run. induction es as [|e es IH]; intros H c Hi He Hc.
  { exists c. split; [done|]. by rewrite app_nil_r. }
  apply Forall_cons in He as [He1 He]. cbn [puts flat_map] in *. fold (puts es) in *.
  rewrite app_assoc in *. destruct (step_ok H c e Hi He1) as (c1 & Hs & Hi1).
  { rewrite map_app in Hc. by apply compatible_app_l in Hc. }
  cbn [foldl mbind option_bind]. rewrite Hs. by apply IH.
Qed.

(** ** Answers at rest *)

Lemma compatible_disjoint l p :
  compatible mv (map (fun c : nat * obj_descriptor => key (snd c)) l) ->
  (forall c c', In c l -> In c' l -> od_name (snd c) = od_name (snd c') /\
     od_version (snd c) = od_version (snd c') /\ num_dims (od_bb (snd c)) = num_dims (od_bb (snd c'))) ->
  (count_boxes p (cell_boxes l) <= 1)%nat.
Proof.
  induction l as [|c l IH]; intros Hc Hs; [rewrite count_boxes_nil; lia|].
  cbn [map] in Hc. apply compatible_cons in Hc as [Ha Hc].
  assert (IHl : (count_boxes p (cell_boxes l) <= 1)%nat).
  { apply IH; [done|]. intros x y Hx Hy. apply Hs; by right. }
  change (cell_boxes (c :: l)) with (od_bb (snd c) :: cell_boxes l).
  rewrite count_boxes_cons. case_decide as Hp; [|lia].
  assert (Hz : ~ (0 < count_boxes p (cell_boxes l))%nat); [|lia].
  rewrite count_boxes_pos, Exists_exists. intros (b & Hb & Hpb).
  apply list_elem_of_fmap in Hb as (c' & -> & Hin). cbn beta in Hpb. rewrite Forall_forall in Ha.
  destruct (Hs c c') as (Hn & Hv & Hd); [by left|right; by apply list_elem_of_In|].
  destruct (Ha (key (snd c'))) as [Hne|Hne].
  - apply list_elem_of_fmap. eauto.
  - destruct Hne. cbn [key od_version set_flags set_owner]. by rewrite Hv.
  - assert (obj_desc_by_name_intersect (snd c) (snd c') = true) as Ht;
      [|change (obj_desc_by_name_intersect (snd c) (snd c') = false) in Hne; congruence].
    apply obj_desc_by_name_intersect_spec. split; [done|]. unfold bbox_does_intersect.
    apply for_all_true. intros i Hi. apply bbox_intersect_ondim_spec.
    specialize (Hp i Hi). specialize (Hpb i ltac:(lia)). lia.
Qed.

Section Rest.
Context (dom : bbox) (Hdom : domain_ok dom) (HN : (0 < N)%nat) (HN' : Z.of_nat N <= 2 ^ 63).
Context (Halloc : ssd_alloc_v2 0 dom N env_dim = Some ss).

(** The counter of server [r]'s default space. *)
Lemma space_spec r : (r < N)%nat ->
  forall b, valid_box b -> num_dims b = num_dims dom -> zvolume b < 2 ^ 63 ->
  space_count (ssd_init ss r) b = Z.of_nat (length (List.filter
    (fun p => existsb (in_boxb p) (de_bb_tab (nth r (ss_ent_tab ss) (zero_place 0)))) (box_points b))).
Proof.
  intros Hr b Hv Hd Hvol. unfold space_count, ssh_hash_elem_count. cbn [ssd_init ss_hash_version].
  rewrite Hss. cbn [default]. by apply (v2_elem_count 0 dom N env_dim).
Qed.

Definition space_counter (r : nat) (Hr : (r < N)%nat) : ElemCounter := {|
  ec_elem_count := space_count (ssd_init ss r);
  ec_dims := num_dims dom;
  ec_owned p := existsb (in_boxb p) (de_bb_tab (nth r (ss_ent_tab ss) (zero_place 0)));
  ec_spec := space_spec r Hr
|}.

Definition publishable (o : obj_descriptor) : Prop :=
  valid_box (od_bb o) /\ num_dims (od_bb o) = num_dims dom.

Definition query_box (q : obj_descriptor) : Prop :=
  valid_box (od_bb q) /\ num_dims (od_bb q) = num_dims dom /\ zvolume (od_bb q) < 2 ^ 63.

(** A server some of whose updates may still be on their way. *)
Definition holding (H : list (nat * obj_descriptor)) (r : nat) (sv : server) : Prop :=
  good r sv /\ exists pend,
  index_keys sv ++ pend ≡ₚ map (fun so => key (snd so)) (List.filter (fun so => holder ss so r) H).

(** A server all of whose updates have arrived. *)
Definition at_rest (H : list (nat * obj_descriptor)) (r : nat) (sv : server) : Prop :=
  good r sv /\
  index_keys sv ≡ₚ map (fun so => key (snd so)) (List.filter (fun so => holder ss so r) H).

Lemma at_rest_holding H r sv : at_rest H r sv -> holding H r sv.
Proof. intros [Hg Hx]. split; [done|]. exists []. by rewrite app_nil_r. Qed.

Lemma found_history H r sv q c :
  holding H r sv -> In c (found sv q) ->
  exists so, so ∈ H /\ holder ss so r = true /\ key (snd c) = key (snd so) /\
    obj_desc_equals_intersect (snd so) q = true.
Proof.
  intros [Hg [pend Hx]] [Hc Hm]%found_cells.
  assert (Hin : key (snd c) ∈ index_keys sv ++ pend).
  { apply elem_of_app. left. apply list_elem_of_fmap. exists c. split; [done|]. by apply list_elem_of_In. }
  rewrite Hx in Hin. apply list_elem_of_fmap in Hin as (so & Hk & Hso).
  apply list_elem_of_In, filter_In in Hso as [Hso Hh]. exists so. split; [by apply list_elem_of_In|].
  split; [done|]. split; [done|].
  change (obj_desc_equals_intersect (key (snd so)) q = true). by rewrite <- Hk.
Qed.

Lemma history_found H r sv q so :
  at_rest H r sv -> so ∈ H -> holder ss so r = true -> obj_desc_equals_intersect (snd so) q = true ->
  exists c, In c (found sv q) /\ key (snd c) = key (snd so).
Proof.
  intros [Hg Hx] Hso Hh Hm.
  assert (Hin : key (snd so) ∈ index_keys sv).
  { rewrite Hx. apply list_elem_of_fmap. exists so. split; [done|].
    apply list_elem_of_In, filter_In. split; [by apply list_elem_of_In|done]. }
  apply list_elem_of_fmap in Hin as (c & Hk & Hc). exists c. split; [|done].
  apply list_elem_of_In, in_concat in Hc as (l & Hl & Hc).
  apply list_elem_of_In, list_elem_of_lookup in Hl as (n & Hl).
  assert (Hn : In c (bin (sp_dht (sv_default sv)) n)) by (unfold bin; by rewrite nth_lookup, Hl).
  assert (Hmc : obj_desc_equals_intersect (snd c) q = true).
  { change (obj_desc_equals_intersect (key (snd c)) q = true). by rewrite <- Hk. }
  unfold found, matching. apply filter_In. split; [|done].
  pose proof (inv_bins _ (g_inv _ _ Hg) _ _ Hn) as Hb. apply obj_desc_equals_intersect_spec in Hmc as (_ & Hv & _).
  unfold bin_of in *. by rewrite <- Hv, Hb.
Qed.

Lemma found_compatible H r sv q :
  holding H r sv -> compatible mv (map (fun so => key (snd so)) H) ->
  compatible mv (map (fun c => key (snd c)) (found sv q)).
Proof.
  intros [Hg [pend Hx]] Hc. apply (compatible_filter mv _ (fun so => holder ss so r)) in Hc.
  eapply compatible_perm in Hc; [|symmetry; exact Hx]. apply compatible_app_l in Hc. unfold index_keys, found, matching in *.
  apply compatible_filter. pose proof (bin_of_lt _ q (g_inv _ _ Hg)) as Hlt.
  destruct (concat_alter_split id _ _ Hlt) as (l1 & l2 & E1 & _). unfold cells in Hc.
  rewrite E1, !map_app in Hc. unfold bin.
  eapply compatible_perm in Hc; [|rewrite Permutation_app_comm, <- app_assoc; reflexivity].
  by apply compatible_app_l in Hc.
Qed.

(** The descriptors a server finds lie in the space and do not overlap. *)
Lemma found_boxes H r sv q :
  holding H r sv -> compatible mv (map (fun so => key (snd so)) H) ->
  Forall (fun so => publishable (snd so)) H ->
  Forall (fun b => valid_box b /\ num_dims b = num_dims dom) (cell_boxes (found sv q)) /\
  disjoint_boxes (cell_boxes (found sv q)).
Proof.
  intros Hh Hc Hpub.
  assert (Hf : forall c, In c (found sv q) -> publishable (snd c) /\ od_name (snd c) = od_name q /\
                 od_version (snd c) = od_version q).
  { intros c Hin. destruct (found_history _ _ _ _ _ Hh Hin) as (so & Hso & _ & Hk & _).
    rewrite Forall_forall in Hpub. specialize (Hpub so Hso).
    apply found_cells in Hin as [_ Hm]. apply obj_desc_equals_intersect_spec in Hm as (Hn & Hv & _).
    split; [|done]. change (publishable (key (snd c))). by rewrite Hk. }
  split.
  - apply Forall_forall. intros b (c & -> & Hin)%list_elem_of_fmap.
    apply list_elem_of_In in Hin. by apply Hf in Hin as [Hin _].
  - intros p. apply (compatible_disjoint _ p); [by apply (found_compatible H r)|].
    intros c c' (Hp1 & Hn1 & Hv1)%Hf (Hp2 & Hn2 & Hv2)%Hf. destruct Hp1, Hp2. intuition congruence.
Qed.

(** What a server finds at rest covers what the publications cover. *)
Lemma found_points H r sv q :
  at_rest H r sv ->
  (forall p, in_box p (od_bb q) -> responsible_point ss p r -> exists so, so ∈ H /\
     holder ss so r = true /\ obj_desc_equals_intersect (snd so) q = true /\ in_box p (od_bb (snd so))) ->
  forall p, In p (box_points (od_bb q)) -> responsible_point ss p r -> Exists (in_box p) (cell_boxes (found sv q)).
Proof.
  intros Hrest Hcov p Hp Ho. apply elem_of_box_points in Hp as [_ Hp].
  destruct (Hcov p Hp Ho) as (so & Hso & Hh & Hm & Hps).
  destruct (history_found _ _ _ _ _ Hrest Hso Hh Hm) as (c & Hin & Hk).
  apply Exists_exists. exists (od_bb (snd c)). split.
  - apply list_elem_of_fmap. exists c. split; [done|]. by apply list_elem_of_In.
  - change (in_box p (od_bb (key (snd c)))). by rewrite Hk.
Qed.

(** A server answers with everything it holds for the query when that covers
    what it owns of it. *)
Lemma answer_covered H r sv q :
  at_rest H r sv -> (r < N)%nat -> compatible mv (map (fun so => key (snd so)) H) ->
  Forall (fun so => publishable (snd so)) H -> query_box q ->
  (forall p, in_box p (od_bb q) -> responsible_point ss p r -> exists so, so ∈ H /\
     holder ss so r = true /\ obj_desc_equals_intersect (snd so) q = true /\ in_box p (od_bb (snd so))) ->
  local_answer sv q = map (fun c => query_view q (snd c)) (found sv q).
Proof.
  intros Hrest Hr Hc Hpub Hq Hcov. pose proof Hrest as [Hg Hx]. unfold local_answer.
  rewrite (g_ssd _ _ Hg). destruct (found_boxes H r sv q (at_rest_holding _ _ _ Hrest) Hc Hpub) as [Hb1 Hb2].
  pose proof (@find_entry_all_covered (space_counter r Hr) (sp_dht (sv_default sv)) q false (sv_next sv)) as Hfind.
  cbn [ec_elem_count space_counter] in Hfind. rewrite Hfind; [|done..|]; clear Hfind.
  - cbn [snd]. rewrite (deref_cells _ _ (found sv q)); [done|apply Hg|].
    intros c Hin. by apply (found_cells sv q c).
  - exact (found_points H r sv q Hrest Hcov).
Qed.

End Rest.

End Servers.

(** ** Start *)

Definition conf_domain (conf : ds_conf) : bbox := domain_box (conf_ndim conf) (conf_dims conf).

Definition conf_gdim (conf : ds_conf) : global_dimension :=
  mkGdim (conf_ndim conf) (set_range (conf_ndim conf) (cget (conf_dims conf)) env_coord).

(** A configuration for the recursive-bisection hash on [N] servers. *)
Definition conf_ok (N : nat) (conf : ds_conf) : Prop :=
  conf_hash_version conf = ssd_hash_version_v2 /\ domain_ok (conf_domain conf) /\
  (0 < N)%nat /\ Z.of_nat N <= 2 ^ 63 /\ 0 < conf_max_versions conf.

Definition first_server (N : nat) (addr : nat -> string) (conf : ds_conf) (tokens : Z) (ss : sspace)
    (r : nat) : server :=
  mkServer r N (addr r) None None conf (conf_gdim conf)
    (mkSp (ssd_init ss r) (dht_entry_alloc (conf_max_versions conf))) []
    (ls_alloc (conf_max_versions conf)) (ls_alloc (conf_max_versions conf)) [] [] [] [] tokens 1.

Lemma dsg_alloc_ok N conf ss r addr mods remotes tokens :
  conf_ok N conf -> ssd_alloc_v2 0 (conf_domain conf) N env_dim = Some ss ->
  dsg_alloc r N addr conf mods remotes tokens
    = Some (mkServer r N addr None None conf (conf_gdim conf)
        (mkSp (ssd_init ss r) (dht_entry_alloc (conf_max_versions conf))) []
        (ls_alloc (conf_max_versions conf)) (ls_alloc (conf_max_versions conf)) [] [] mods remotes tokens 1).
Proof.
  intros (Hv & Hd & HN & HN' & Hmv) Ea.
  unfold dsg_alloc. destruct Hd as ((Hw & _) & _ & Hnd). cbn [conf_domain num_dims domain_box] in Hnd.
  destruct (Nat.eqb_spec (conf_ndim conf) 0); [lia|]. destruct Hw as (Hw & _).
  cbn [conf_domain num_dims domain_box] in Hw. destruct (Nat.ltb_spec BBOX_MAX_NDIM (conf_ndim conf)); [lia|].
  unfold make_space, ssd_alloc. rewrite Hv. case_decide as Hdec; [done|]. fold (conf_domain conf). by rewrite Ea.
Qed.

Lemma start_ok N addr conf tokens :
  conf_ok N conf ->
  exists ss, ssd_alloc_v2 0 (conf_domain conf) N env_dim = Some ss /\
    start N addr conf tokens = Some (mkCluster (map (first_server N addr conf tokens ss) (seq 0 N)) []).
Proof.
  intros Hc. pose proof Hc as (Hv & Hd & HN & HN' & Hmv).
  destruct (ssd_alloc_v2_spec 0 (conf_domain conf) N env_dim Hd HN HN') as (ss & _ & _ & Ea & _).
  exists ss. split; [done|]. unfold start.
  assert (mapM (fun r => dsg_alloc r N (addr r) conf [] [] tokens) (seq 0 N)
          = Some (map (first_server N addr conf tokens ss) (seq 0 N))) as ->; [|done].
  apply mapM_Some_2. apply Forall2_fmap_r, Forall_Forall2_diag, Forall_forall. intros r _.
  by apply dsg_alloc_ok.
Qed.

Lemma start_inv N addr conf tokens ss :
  conf_ok N conf -> ssd_alloc_v2 0 (conf_domain conf) N env_dim = Some ss ->
  cl_inv N (conf_gdim conf) ss (conf_max_versions conf) []
    (mkCluster (map (first_server N addr conf tokens ss) (seq 0 N)) []).
Proof.
  intros (Hv & Hd & HN & HN' & Hmv) Ha. pose proof (dht_inv_alloc _ Hmv) as Hinv.
  split; cbn [cl_servers cl_net].
  - by rewrite length_map, length_seq.
  - intros r sv. rewrite list_lookup_fmap. intros (r' & Hr & ->)%fmap_Some.
    apply lookup_seq in Hr as [-> _]. by split; try apply Forall_nil.
  - intros r sv. rewrite list_lookup_fmap. intros (r' & Hr & ->)%fmap_Some.
    unfold index_keys, cells. cbn [first_server sv_default sp_dht dht_entry_alloc odsc_hash].
    by rewrite concat_replicate_nil.
  - done.
Qed.

(** ** Merging answers *)

Lemma equals_no_owner_sym a b : obj_desc_equals_no_owner a b = obj_desc_equals_no_owner b a.
Proof.
  apply eq_true_iff_eq. rewrite !obj_desc_equals_no_owner_spec, !bbox_equals_spec.
  split; intros (? & ? & Hd & Hb); (split_and!; [congruence..|]); intros i Hi;
    (destruct (Hb i) as [? ?]; [congruence|by split]).
Qed.

Lemma equals_no_owner_trans a b c :
  obj_desc_equals_no_owner a b = true -> obj_desc_equals_no_owner b c = true ->
  obj_desc_equals_no_owner a c = true.
Proof.
  rewrite !obj_desc_equals_no_owner_spec, !bbox_equals_spec. intros (? & ? & F3 & F4) (? & ? & E3 & E4).
  split_and!; [congruence..|]. intros i Hi. destruct (F4 i Hi) as [-> ->]. apply E4. congruence.
Qed.

Lemma equals_no_owner_in_box a b p :
  obj_desc_equals_no_owner a b = true -> in_box p (od_bb a) -> in_box p (od_bb b).
Proof.
  intros (_ & _ & [Hd Hb]%bbox_equals_spec)%obj_desc_equals_no_owner_spec Hp i Hi.
  rewrite <- Hd in Hi. specialize (Hp i Hi). destruct (Hb i Hi). lia.
Qed.

(** Positions hold different results. *)
Definition distinct (l : list obj_descriptor) : Prop :=
  forall i j a b, l !! i = Some a -> l !! j = Some b -> obj_desc_equals_no_owner a b = true -> i = j.

Lemma distinct_snoc l o :
  distinct l -> existsb (fun r => obj_desc_equals_no_owner r o) l = false -> distinct (l ++ [o]).
Proof.
  intros Hd He i j a b Hi Hj Hab.
  assert (Hno : forall k x, l !! k = Some x -> obj_desc_equals_no_owner x o = false).
  { intros k x Hx. apply not_true_is_false. intros Ht. apply not_true_iff_false in He. apply He.
    apply existsb_exists. exists x. split; [|done]. apply list_elem_of_In. by eapply list_elem_of_lookup_2. }
  apply lookup_app_Some in Hi as [Hi|[Hi0 Hi]], Hj as [Hj|[Hj0 Hj]].
  - by eapply Hd.
  - apply list_lookup_singleton_Some in Hj as [_ <-]. by rewrite (Hno i a Hi) in Hab.
  - apply list_lookup_singleton_Some in Hi as [_ <-].
    rewrite equals_no_owner_sym in Hab. by rewrite (Hno j b Hj) in Hab.
  - apply list_lookup_singleton_Some in Hi as [? _]. apply list_lookup_singleton_Some in Hj as [? _]. lia.
Qed.

Lemma dedup_spec tab : forall res,
  distinct res ->
  distinct (dedup_odscs res tab) /\
  (forall d, d ∈ dedup_odscs res tab -> d ∈ res \/ d ∈ tab) /\
  (forall d, d ∈ res \/ d ∈ tab -> exists d', d' ∈ dedup_odscs res tab /\ obj_desc_equals_no_owner d' d = true).
Proof.
  induction tab as [|o tab IH]; intros res Hd; cbn [dedup_odscs].
  { split; [done|]. split; [tauto|]. intros d [H|H]; [|by apply elem_of_nil in H].
    exists d. split; [done|]. apply equals_no_owner_refl. }
  destruct (existsb _ res) eqn:Ex.
  - destruct (IH res Hd) as (I1 & I2 & I3). split; [done|]. split.
    + intros d Hin. apply I2 in Hin as [?|?]; [by left|right; by apply list_elem_of_further].
    + intros d [Hin|[->|Hin]%elem_of_cons]; [by apply I3; left| |by apply I3; right].
      apply existsb_exists in Ex as (x & Hx & Heq). destruct (I3 x) as (d' & Hd' & Heq').
      { left. by apply list_elem_of_In. }
      exists d'. split; [done|]. by apply (equals_no_owner_trans d' x o).
  - destruct (IH (res ++ [o]) (distinct_snoc _ _ Hd Ex)) as (I1 & I2 & I3). split; [done|]. split.
    + intros d Hin. apply I2 in Hin as [[?| ->%list_elem_of_singleton]%elem_of_app|?];
        [by left|right; by apply list_elem_of_here|right; by apply list_elem_of_further].
    + intros d Hin. apply I3. rewrite elem_of_app, list_elem_of_singleton.
      rewrite elem_of_cons in Hin. tauto.
Qed.

Lemma finish_query_spec answers :
  distinct (finish_query answers) /\
  (forall d, d ∈ finish_query answers -> exists a, a ∈ answers /\ d ∈ a) /\
  (forall a d, a ∈ answers -> d ∈ a ->
     exists d', d' ∈ finish_query answers /\ obj_desc_equals_no_owner d' d = true).
Proof.
  unfold finish_query.
  assert (Hgen : forall answers res, distinct res ->
    distinct (fold_left dedup_odscs answers res) /\
    (forall d, d ∈ fold_left dedup_odscs answers res -> d ∈ res \/ exists a, a ∈ answers /\ d ∈ a) /\
    (forall d, (d ∈ res \/ exists a, a ∈ answers /\ d ∈ a) ->
       exists d', d' ∈ fold_left dedup_odscs answers res /\ obj_desc_equals_no_owner d' d = true)).
  { clear answers. induction answers as [|a answers IH]; intros res Hd; cbn [fold_left].
    - split; [done|]. split; [by left|]. intros d [H|(a & H & _)]; [|by apply elem_of_nil in H].
      exists d. split; [done|]. apply equals_no_owner_refl.
    - destruct (dedup_spec a res Hd) as (D1 & D2 & D3). destruct (IH _ D1) as (I1 & I2 & I3).
      split; [done|]. setoid_rewrite elem_of_cons. split.
      + intros d [Hd'|(x & Hx & Hxd)]%I2; [apply D2 in Hd' as [?|?]; eauto|eauto].
      + assert (Hback : forall d, d ∈ res \/ d ∈ a -> exists d', d' ∈ fold_left dedup_odscs answers (dedup_odscs res a) /\
            obj_desc_equals_no_owner d' d = true).
        { intros d Hin. destruct (D3 d Hin) as (d1 & Hd1 & E1). destruct (I3 d1) as (d2 & Hd2 & E2); [by left|].
          exists d2. split; [done|]. by apply (equals_no_owner_trans d2 d1 d). }
        intros d [Hin|(x & [->|Hx] & Hxd)]; [by apply Hback; left|by apply Hback; right|].
        apply I3. right. eauto. }
  destruct (Hgen answers []) as (H1 & H2 & H3); [by intros i j a b Hi|].
  split; [done|]. split.
  - intros d [H|H]%H2; [by apply elem_of_nil in H|done].
  - intros a d Ha Hd. apply H3. eauto.
Qed.

(** ** Delivering everything *)

Lemma deliver_net N G ss mv H c i c' :
  cl_inv N G ss mv H c -> step c (E_deliver i) = Some c' -> cl_net c' = delete i (cl_net c).
Proof.
  intros Hi. cbn [step]. destruct (cl_net c !! i) as [u|] eqn:Eu.
  - unfold at_server. cbn [cl_servers]. destruct (cl_servers c !! u_dst u) as [sv|]; [|by intros [= <-]].
    destruct (obj_update_rpc sv u) as [sv'|]; [|done]. intros [= <-]. apply app_nil_r.
  - intros [= <-]. apply lookup_ge_None in Eu. by rewrite delete_take_drop, take_ge, drop_ge, app_nil_r by lia.
Qed.

Lemma deliver_all N G ss mv H :
  length (ss_ent_tab ss) = N ->
  compatible mv (map (fun so => key (snd so)) H) -> forall n c,
  cl_inv N G ss mv H c -> length (cl_net c) = n ->
  exists c', run c (replicate n (E_deliver 0)) = Some c' /\ cl_inv N G ss mv H c' /\ cl_net c' = [].
Proof.
  intros Hlen Hc. unfold run. induction n as [|n IH]; intros c Hi Hn.
  - exists c. split; [done|]. split; [done|]. by apply nil_length_inv.
  - destruct (deliver_ok N G ss mv Hlen H c 0 Hi Hc) as (c1 & Hs & Hi1).
    cbn [replicate foldl mbind option_bind]. rewrite Hs. apply IH; [done|].
    rewrite (deliver_net _ _ _ _ _ _ _ _ Hi Hs). destruct (cl_net c) as [|u l]; [done|]. simpl in *. lia.
Qed.

(** ** A query at rest *)

Definition quiet (c : cluster) : Prop := Forall (fun u => is_new u = false) (cl_net c).

Lemma pending_quiet c r : quiet c -> pending r (cl_net c) = [].
Proof.
  unfold quiet, pending. intros Hq. induction Hq as [|u l Hu _ IH]; [done|]. cbn [List.filter].
  by rewrite Hu, andb_false_r.
Qed.

(** The stored part of the published descriptor [o] that answers [q]. *)
Definition is_view (q d o : obj_descriptor) : Prop :=
  obj_desc_equals_intersect o q = true /\ key d = query_view q (key o).

Lemma view_box q d o p :
  wf_box (od_bb q) -> wf_box (od_bb o) -> num_dims (od_bb o) = num_dims (od_bb q) -> is_view q d o ->
  in_box p (od_bb d) <-> in_box p (od_bb q) /\ in_box p (od_bb o).
Proof.
  intros Hq Ho Hd [_ Hk]. apply (f_equal od_bb) in Hk. cbn [key od_bb set_flags set_owner] in Hk.
  rewrite Hk. unfold query_view. cbn [od_bb set_bb key set_flags set_owner]. by apply in_box_intersect.
Qed.

Section QueryAtRest.
Context (N : nat) (G : global_dimension) (ss : sspace) (mv : Z) (dom : bbox)
  (H : list (nat * obj_descriptor)) (c : cluster) (q : obj_descriptor).
Context (Hdom : domain_ok dom) (HN : (0 < N)%nat) (HN' : Z.of_nat N <= 2 ^ 63)
  (Halloc : ssd_alloc_v2 0 dom N env_dim = Some ss).
Context (Hinv : cl_inv N G ss mv H c) (Hquiet : quiet c)
  (Hcomp : compatible mv (map (fun so => key (snd so)) H))
  (Hpub : Forall (fun so => publishable dom (snd so)) H) (Hq : query_box dom q).
Context (Hcov : forall p, in_box p (od_bb q) -> in_box p dom -> exists so, so ∈ H /\
  obj_desc_equals_intersect (snd so) q = true /\ in_box p (od_bb (snd so))).

Lemma rest_shape : length (ss_ent_tab ss) = N /\ ss_hash_version ss = ssd_hash_version_v2.
Proof. by apply (alloc_v2_shape 0 dom N env_dim). Qed.

Lemma entry_piece r b : b ∈ de_bb_tab (nth r (ss_ent_tab ss) (zero_place 0)) -> num_dims b = num_dims dom.
Proof.
  intros Hb. destruct (decide (r < length (ss_ent_tab ss))%nat) as [Hlt|Hge].
  - eapply (alloc_v2_pieces 0 dom N env_dim ss Hdom HN HN' Halloc); [by apply nth_In|done].
  - rewrite nth_overflow in Hb by lia. by apply elem_of_nil in Hb.
Qed.

(** The server owning a point is responsible for every box with it. *)
Lemma owner_responsible p r bb :
  responsible_point ss p r -> in_box p bb -> num_dims bb = num_dims dom -> responsible ss bb r = true.
Proof.
  unfold responsible_point. rewrite existsb_exists. intros (b & Hb & Hp) Hpb Hd.
  apply list_elem_of_In in Hb. apply in_boxb_spec in Hp.
  apply (place_hit_v2_point bb _ b p); [|done..]. rewrite Hd. by rewrite (entry_piece r b Hb).
Qed.

Lemma owned_in_domain p r : responsible_point ss p r -> in_box p dom.
Proof.
  unfold responsible_point. rewrite existsb_exists. intros (b & Hb & Hp).
  apply in_boxb_spec in Hp. destruct (decide (r < length (ss_ent_tab ss))%nat) as [Hlt|Hge].
  - apply (alloc_v2_inside 0 dom N env_dim ss Hdom HN HN' Halloc p (nth r (ss_ent_tab ss) (zero_place 0)) b);
      [by apply nth_In|done|done].
  - by rewrite nth_overflow in Hb by lia.
Qed.

Lemma answers_at_rest r sv :
  cl_servers c !! r = Some sv ->
  answer_of c q r = map (fun x => query_view q (snd x)) (found sv q) /\ at_rest G ss mv H r sv.
Proof.
  intros Hr. destruct rest_shape as [Hlen Hss].
  assert (Hrest : at_rest G ss mv H r sv).
  { split; [by eapply ci_good|]. pose proof (ci_index _ _ _ _ _ _ Hinv r sv Hr) as Hx.
    by rewrite (pending_quiet c r Hquiet), app_nil_r in Hx. }
  split; [|done]. unfold answer_of. rewrite Hr.
  apply (answer_covered N G ss mv Hss Hlen dom Hdom HN HN' Halloc H r); try done.
  - by eapply inv_lt.
  - intros p Hp Ho. destruct (Hcov p Hp) as (so & Hso & Hm & Hps); [by apply (owned_in_domain p r)|].
    exists so. split; [done|]. split; [|done]. unfold holder.
    rewrite Forall_forall in Hpub. destruct (Hpub so Hso) as [_ Hd].
    by rewrite (owner_responsible p r _ Ho Hps Hd).
Qed.

(** Every result is the view of a published descriptor. *)
Lemma answer_view r d :
  d ∈ answer_of c q r -> exists so, so ∈ H /\ is_view q d (snd so).
Proof.
  intros Hd. destruct (cl_servers c !! r) as [sv|] eqn:Er.
  - destruct (answers_at_rest r sv Er) as [Ha Hrest]. rewrite Ha in Hd.
    apply list_elem_of_fmap in Hd as (x & -> & Hx). apply list_elem_of_In in Hx.
    destruct (found_history _ _ _ _ _ _ _ _ (at_rest_holding _ _ _ _ _ _ Hrest) Hx) as (so & Hso & _ & Hk & Hm).
    exists so. split; [done|]. split; [done|].
    change (query_view q (key (snd x)) = query_view q (key (snd so))). by rewrite Hk.
  - unfold answer_of in Hd. rewrite Er in Hd. by apply elem_of_nil in Hd.
Qed.

(** Every point is in a result of the server that owns it. *)
Lemma answer_point p :
  in_box p (od_bb q) -> in_box p dom ->
  exists r d, r ∈ ranks N ss (od_bb q) /\ d ∈ answer_of c q r /\ in_box p (od_bb d).
Proof.
  intros Hp Hpd. destruct rest_shape as [Hlen Hss].
  destruct (alloc_v2_cover 0 dom N env_dim ss Hdom HN HN' Halloc p Hpd) as (r & e & Hr & He & b & Hb & Hpb & _).
  assert (Hown : responsible_point ss p r).
  { unfold responsible_point. apply existsb_exists. exists b. rewrite (nth_lookup_Some _ _ _ _ He).
    split; [by apply list_elem_of_In|by apply in_boxb_spec]. }
  destruct (Hcov p Hp Hpd) as (so & Hso & Hm & Hps).
  destruct (proj1 (Forall_forall _ _) Hpub so Hso) as [Hvo Hdo]. destruct Hq as (Hvq & Hdq & _).
  destruct (cl_servers c !! r) as [sv|] eqn:Er;
    [|apply lookup_ge_None in Er; rewrite (ci_length _ _ _ _ _ _ Hinv) in Er; lia].
  destruct (answers_at_rest r sv Er) as [Ha Hrest].
  destruct (history_found _ _ _ _ _ _ q so Hrest Hso) as (x & Hx & Hk); [|done|].
  { unfold holder. by rewrite (owner_responsible p r _ Hown Hps Hdo). }
  exists r, (query_view q (snd x)). split; [|split].
  - apply (in_ranks N ss Hlen). split; [done|]. by apply (owner_responsible p r _ Hown Hp Hdq).
  - rewrite Ha. apply list_elem_of_fmap. exists x. split; [done|]. by apply list_elem_of_In.
  - apply (view_box q _ (snd so)); [apply Hvq|apply Hvo|congruence| |done]. split; [done|].
    change (query_view q (key (snd x)) = query_view q (key (snd so))). by rewrite Hk.
Qed.

(** Views of published descriptors that share a point are equal up to owner
    and flags. *)
Lemma views_agree d1 d2 so1 so2 p :
  so1 ∈ H -> so2 ∈ H -> is_view q d1 (snd so1) -> is_view q d2 (snd so2) ->
  in_box p (od_bb d1) -> in_box p (od_bb d2) -> obj_desc_equals_no_owner d1 d2 = true.
Proof.
  intros H1 H2 V1 V2 P1 P2. destruct Hq as (Hvq & Hdq & _).
  destruct (proj1 (Forall_forall _ _) Hpub so1 H1) as [Ho1 Hd1].
  destruct (proj1 (Forall_forall _ _) Hpub so2 H2) as [Ho2 Hd2].
  apply (view_box q d1 (snd so1) p (proj1 Hvq) (proj1 Ho1)) in P1 as [_ P1]; [|congruence|done].
  apply (view_box q d2 (snd so2) p (proj1 Hvq) (proj1 Ho2)) in P2 as [_ P2]; [|congruence|done].
  assert (Hk : key (snd so1) = key (snd so2)).
  { apply (compatible_unique mv (map (fun so => key (snd so)) H)); [done| | |].
    - apply list_elem_of_fmap. eauto.
    - apply list_elem_of_fmap. eauto.
    - destruct V1 as [(N1 & W1 & _)%obj_desc_equals_intersect_spec _].
      destruct V2 as [(N2 & W2 & _)%obj_desc_equals_intersect_spec _].
      intros [Hne|Hne]; [destruct Hne; cbn; congruence|].
      change (obj_desc_by_name_intersect (snd so1) (snd so2) = false) in Hne.
      apply not_true_iff_false in Hne. apply Hne, obj_desc_by_name_intersect_spec. split; [congruence|].
      apply does_intersect_common; [done..|congruence|]. eauto. }
  destruct V1 as [_ V1], V2 as [_ V2]. rewrite Hk in V1.
  change (obj_desc_equals_no_owner (key d1) (key d2) = true). rewrite V1, V2. apply equals_no_owner_refl.
Qed.

(** The result of a query: views of indexed descriptors, every point in one
    of them. *)
Lemma query_result r gd :
  (r < N)%nat -> global_dimension_equal gd G = true ->
  exists c' res, query_rpc c r q gd 0 = Some (c', res) /\ cl_inv N G ss mv H c' /\
    (exists sv ca, cl_servers c !! r = Some sv /\ c' = replace_server c r (set_cache ca sv) []) /\
    (forall d, d ∈ res -> exists r' sv x, cl_servers c !! r' = Some sv /\ In x (found sv q) /\
       d = query_view q (snd x)) /\
    (forall p, in_box p (od_bb q) -> in_box p dom -> exists d, d ∈ res /\ in_box p (od_bb d)).
Proof.
  intros Hr Hgd. destruct rest_shape as [Hlen Hss].
  destruct (query_ok N G ss mv Hss Hlen H c r q gd Hinv Hr Hgd) as (c' & Hi' & _ & Hc' & Hquery).
  set (peers := match ranks N ss (od_bb q) with [] => [r] | l => l end) in Hquery.
  set (res := finish_query (map (answer_of c q) peers)) in Hquery.
  destruct (finish_query_spec (map (answer_of c q) peers)) as (_ & F2 & F3). fold res in F2, F3.
  exists c', res. split; [done|]. split; [done|]. split; [done|]. split.
  - intros d (a & (p & -> & _)%list_elem_of_fmap & Hda)%F2.
    destruct (cl_servers c !! p) as [sv|] eqn:Er; [|unfold answer_of in Hda; rewrite Er in Hda; by apply elem_of_nil in Hda].
    destruct (answers_at_rest p sv Er) as [Ha _]. rewrite Ha in Hda.
    apply list_elem_of_fmap in Hda as (x & -> & Hx). apply list_elem_of_In in Hx. by exists p, sv, x.
  - intros p Hp Hpd. destruct (answer_point p Hp Hpd) as (x & d & Hx & Hda & Hpx).
    destruct (F3 (answer_of c q x) d) as (d' & Hd' & Heq); [|done|].
    { apply list_elem_of_fmap. exists x. split; [done|]. unfold peers.
      destruct (ranks N ss (od_bb q)); [by apply elem_of_nil in Hx|exact Hx]. }
    exists d'. split; [done|]. apply (equals_no_owner_in_box d d'); [by rewrite equals_no_owner_sym|done].
Qed.

End QueryAtRest.

(** ** Main results *)

(** C5: The distributed index follows the publications whatever the order of
    delivery.  [N] servers are started on one configuration and take puts,
    local puts, drains, deliveries and queries in any order; if no two
    published descriptors compete for a place (same name, version in the same
    bin, overlapping boxes), no handler fails, and for every server the
    descriptors in its index and in the messages on their way to it are
    exactly the published ones it is responsible for, each once; delivering
    the messages in flight empties the network. *)
Theorem index_follows_publications N addr conf tokens es :
  conf_ok N conf -> Forall (event_ok N (conf_gdim conf)) es ->
  compatible (conf_max_versions conf) (map (fun so => key (snd so)) (puts es)) ->
  exists ss c0 c c', ssd_alloc_v2 0 (conf_domain conf) N env_dim = Some ss /\
    start N addr conf tokens = Some c0 /\ run c0 es = Some c /\
    (forall r sv, cl_servers c !! r = Some sv ->
       index_keys sv ++ pending r (cl_net c)
       ≡ₚ map (fun so => key (snd so)) (List.filter (fun so => holder ss so r) (puts es))) /\
    run c (replicate (length (cl_net c)) (E_deliver 0)) = Some c' /\ cl_net c' = [] /\
    (forall r sv, cl_servers c' !! r = Some sv ->
       index_keys sv
       ≡ₚ map (fun so => key (snd so)) (List.filter (fun so => holder ss so r) (puts es))).
Proof.
  intros Hconf He Hc. destruct (start_ok N addr conf tokens Hconf) as (ss & Ha & Hstart).
  pose proof (start_inv N addr conf tokens ss Hconf Ha) as Hi.
  destruct Hconf as (_ & Hd & HN & HN' & _).
  destruct (alloc_v2_shape 0 _ N env_dim ss Hd HN HN' Ha) as [Hlen Hss].
  destruct (run_ok N _ ss _ Hss Hlen es [] _ Hi He Hc) as (c & Hrun & Hci).
  destruct (deliver_all N _ ss _ (puts es) Hlen Hc _ c Hci eq_refl) as (c' & Hrun' & Hci' & Hnil).
  exists ss. eexists _, c, c'. split; [done|]. split; [exact Hstart|]. split; [exact Hrun|].
  split; [apply Hci|]. split; [done|]. split; [done|]. intros r sv Hr.
  rewrite <- (ci_index _ _ _ _ _ _ Hci' r sv Hr), Hnil. by rewrite app_nil_r.
Qed.

(** C2: A query on any server gets every point exactly once.  After any such
    run, once no insertion is in flight, a query (without waiting) whose
    points inside the domain are all covered by published descriptors of its
    name and version succeeds on every server; each result is the part of a
    published descriptor inside the query, and every point of the query
    inside the domain is in exactly one result. *)
Theorem query_covers_published N addr conf tokens es c0 c r q gd :
  conf_ok N conf -> Forall (event_ok N (conf_gdim conf)) es ->
  compatible (conf_max_versions conf) (map (fun so => key (snd so)) (puts es)) ->
  Forall (fun so => publishable (conf_domain conf) (snd so)) (puts es) ->
  start N addr conf tokens = Some c0 -> run c0 es = Some c -> quiet c ->
  (r < N)%nat -> global_dimension_equal gd (conf_gdim conf) = true -> query_box (conf_domain conf) q ->
  (forall p, in_box p (od_bb q) -> in_box p (conf_domain conf) -> exists so, so ∈ puts es /\
     obj_desc_equals_intersect (snd so) q = true /\ in_box p (od_bb (snd so))) ->
  exists c' res, query_rpc c r q gd 0 = Some (c', res) /\
    (forall d, d ∈ res -> exists so, so ∈ puts es /\ is_view q d (snd so)) /\
    (forall p, in_box p (od_bb q) -> in_box p (conf_domain conf) ->
       exists! i, exists d, res !! i = Some d /\ in_box p (od_bb d)).
Proof.
  intros Hconf He Hc Hpub Hstart Hrun Hquiet Hr Hgd Hq Hcov.
  destruct (start_ok N addr conf tokens Hconf) as (ss & Ha & Hstart').
  pose proof (start_inv N addr conf tokens ss Hconf Ha) as Hi.
  rewrite Hstart in Hstart'. injection Hstart' as ->.
  destruct Hconf as (_ & Hd & HN & HN' & _).
  destruct (alloc_v2_shape 0 _ N env_dim ss Hd HN HN' Ha) as [Hlen Hss].
  destruct (run_ok N _ ss _ Hss Hlen es [] _ Hi He Hc) as (c2 & Hrun2 & Hci).
  rewrite Hrun in Hrun2. injection Hrun2 as <-.
  destruct (query_ok N _ ss _ Hss Hlen (puts es) c r q gd Hci Hr Hgd) as (c' & _ & _ & _ & Hquery).
  set (peers := match ranks N ss (od_bb q) with [] => [r] | l => l end) in Hquery.
  set (res := finish_query (map (answer_of c q) peers)) in Hquery.
  destruct (finish_query_spec (map (answer_of c q) peers)) as (F1 & F2 & F3). fold res in F1, F2, F3.
  assert (Hview : forall d, d ∈ res -> exists so, so ∈ puts es /\ is_view q d (snd so)).
  { intros d (a & (p & -> & _)%list_elem_of_fmap & Hda)%F2.
    by apply (answer_view N (conf_gdim conf) ss (conf_max_versions conf) (conf_domain conf) (puts es) c q Hd HN HN' Ha Hci Hquiet Hc Hpub Hq Hcov p). }
  exists c', res. split; [done|]. split; [done|]. intros p Hp Hpd.
  destruct (answer_point N (conf_gdim conf) ss (conf_max_versions conf) (conf_domain conf) (puts es) c q Hd HN HN' Ha Hci Hquiet Hc Hpub Hq Hcov p Hp Hpd) as (x & d & Hx & Hda & Hpx).
  destruct (F3 (answer_of c q x) d) as (d' & Hd' & Heq); [|done|].
  { apply list_elem_of_fmap. exists x. split; [done|]. unfold peers.
    destruct (ranks N ss (od_bb q)); [by apply elem_of_nil in Hx|exact Hx]. }
  apply list_elem_of_lookup in Hd' as (i & Hi').
  assert (Hpd' : in_box p (od_bb d')).
  { apply (equals_no_owner_in_box d d'); [by rewrite equals_no_owner_sym|done]. }
  exists i. split; [by exists d'|]. intros j (d2 & Hj & Hp2).
  destruct (Hview d') as (so1 & S1 & V1); [by eapply list_elem_of_lookup_2|].
  destruct (Hview d2) as (so2 & S2 & V2); [by eapply list_elem_of_lookup_2|].
  apply (F1 i j d' d2 Hi' Hj).
  by apply (views_agree (conf_max_versions conf) (conf_domain conf) (puts es) q Hc Hpub Hq d' d2 so1 so2 p).
Qed.

End Cluster.

(** ** Concrete inputs *)

#[local] Instance demo_env : Env := {
  env_fuel := 0;
  env_dim := 0;
  env_coord := zero_coord;
  env_malloc n := replicate n 0;
  env_py_exec _ _ _ := None;
  env_remote_get _ _ _ := None;
  env_lz4_compress _ := None
}.

Definition demo_conf : ds_conf := mkConf 2 (8 :: 5 :: replicate 8 0) 4 ssd_hash_version_v2.

Definition demo_gdim : global_dimension := mkGdim 2 (8 :: 5 :: replicate 8 0).

(** Two halves of an 8 by 5 domain, put on different servers. *)
Definition demo_events : list event :=
  [E_put 0 (demo_odsc "u" 3 (box2 0 0 3 4)) demo_gdim [];
   E_put_local 1 (demo_odsc "u" 3 (box2 4 0 7 4)) demo_gdim;
   E_query 2 (demo_odsc "u" 3 (box2 0 0 7 4)) demo_gdim;
   E_deliver 1; E_deliver 0; E_drain 1 (0, []); E_deliver 0; E_deliver 0; E_deliver 0].

Lemma demo_conf_ok : conf_ok 3 demo_conf.
Proof.
  split; [reflexivity|]. split; [|split; [lia|split; [lia|reflexivity]]].
  change (conf_domain demo_conf) with (box2 0 0 7 4). apply box2_domain_ok; lia.
Qed.

Lemma demo_events_ok : Forall (event_ok 3 (conf_gdim demo_conf)) demo_events.
Proof. repeat (apply Forall_cons; split; [cbn; repeat split; lia || reflexivity|]). apply Forall_nil_2. Qed.

Lemma demo_compatible :
  compatible (conf_max_versions demo_conf) (map (fun so => key (snd so)) (puts demo_events)).
Proof.
  apply compatible_pairs. apply FOP_cons.
  - apply Forall_cons. split; [|apply Forall_nil_2]. split; right; vm_compute; reflexivity.
  - apply FOP_cons; [apply Forall_nil_2|apply FOP_nil].
Qed.

Lemma index_follows_publications_witness :
  exists ss c0 c, ssd_alloc_v2 0 (conf_domain demo_conf) 3 env_dim = Some ss /\
    start 3 (fun _ => "addr"%string) demo_conf 1 = Some c0 /\ run c0 demo_events = Some c /\
    forall r sv, cl_servers c !! r = Some sv ->
      index_keys sv ++ pending r (cl_net c)
      ≡ₚ map (fun so => key (snd so)) (List.filter (fun so => holder ss so r) (puts demo_events)).
Proof.
  destruct (index_follows_publications 3 (fun _ => "addr"%string) demo_conf 1 demo_events
              demo_conf_ok demo_events_ok demo_compatible) as (ss & c0 & c & c' & H1 & H2 & H3 & H4 & _).
  exists ss, c0, c. split; [exact H1|]. split; [exact H2|]. split; [exact H3|exact H4].
Defined.

(** The left and right parts of the query. *)
Lemma demo_cover p q0 q1 :
  in_box p (box2 q0 0 q1 4) -> in_box p (box2 0 0 7 4) ->
  in_box p (box2 0 0 3 4) \/ in_box p (box2 4 0 7 4).
Proof.
  intros _ Hd. pose proof (Hd 0%nat ltac:(cbn; lia)) as H0. pose proof (Hd 1%nat ltac:(cbn; lia)) as H1.
  unfold cget, in_box, cget in *. cbn in H0, H1.
  destruct (Z_le_dec (nth 0 p 0) 3); [left|right]; intros [|[|i]] Hi; cbn in *; lia.
Qed.

Lemma query_covers_published_witness :
  exists c0 c c' res, start 3 (fun _ => "addr"%string) demo_conf 1 = Some c0 /\
    run c0 demo_events = Some c /\
    query_rpc c 2 (demo_odsc "u" 3 (box2 1 0 6 4)) demo_gdim 0 = Some (c', res) /\
    forall p, in_box p (box2 1 0 6 4) -> in_box p (box2 0 0 7 4) ->
      exists! i, exists d, res !! i = Some d /\ in_box p (od_bb d).
Proof.
  destruct (start 3 (fun _ => "addr"%string) demo_conf 1) as [c0|] eqn:E0;
    [|vm_compute in E0; discriminate E0].
  destruct (run c0 demo_events) as [c|] eqn:E1;
    [|vm_compute in E0; injection E0 as <-; vm_compute in E1; discriminate E1].
  destruct (query_covers_published 3 (fun _ => "addr"%string) demo_conf 1 demo_events c0 c 2
    (demo_odsc "u" 3 (box2 1 0 6 4)) demo_gdim) as (c' & res & H1 & _ & H2).
  - exact demo_conf_ok.
  - exact demo_events_ok.
  - exact demo_compatible.
  - apply Forall_cons. split; [|apply Forall_cons; split; [|apply Forall_nil_2]];
      (split; [apply box2_domain_ok; lia|reflexivity]).
  - exact E0.
  - exact E1.
  - assert (H : forallb (fun u => negb (is_new u)) (cl_net c) = true).
    { vm_compute in E0. injection E0 as <-. vm_compute in E1. injection E1 as <-. reflexivity. }
    apply Forall_forall. intros u Hu. rewrite forallb_forall in H.
    apply negb_true_iff, H, list_elem_of_In, Hu.
  - lia.
  - reflexivity.
  - split; [apply box2_domain_ok; lia|]. split; [reflexivity|vm_compute; reflexivity].
  - intros p Hp Hd. destruct (demo_cover p 1 6 Hp Hd) as [H|H];
      [exists (0%nat, demo_odsc "u" 3 (box2 0 0 3 4))|exists (1%nat, demo_odsc "u" 3 (box2 4 0 7 4))];
      (split; [apply list_elem_of_In; cbn; tauto|split; [vm_compute; reflexivity|exact H]]).
  - exists c0, c, c', res. split; [reflexivity|]. split; [exact E1|]. split; [exact H1|exact H2].
Defined.
