(* ===== verification/WaitQuery.v ===== *)
(** * WaitQuery: queries that wait, across the servers

    [get_query_odscs] with timeout -1 as [query_rpc] and [sub_rpc] of
    [src/src/dspaces-server.c] call it, together with [odsc_internal_rpc] at
    the servers asked and the waiting part of [dht_find_entry_all]
    ([src/src/ss_data.c]).  A call has one part per responsible server; a part
    is on its way, waits at its server for publications, or is answered.  The
    parts of all the calls in progress advance in any order between the other
    requests of [Cluster].  The main results: a call that is answered gets
    every point exactly once, and a call whose points have been published is
    answered. *)

From S2P Require Import Prelude BBox ObjDesc Linear Sspace DhtEntry StrHash LocalStorage Matrix Codec Modules Server Cluster.

(** ** State and steps *)

(** A part of a call: sent to server [pt_peer], waiting there with what
    [answer_local] left, or answered. *)
Inductive part_state :=
| P_sent
| P_wait (ref : space_ref) (q : obj_descriptor) (tab : list nat) (id : nat)
| P_done (odscs : list obj_descriptor).

Record part := mkPart { pt_call : nat; pt_peer : nat; pt_state : part_state }.

(** Who gets the answer: the client that called [query_rpc], or the
    subscriber named by the owner of the descriptor, with its [sub_id]. *)
Inductive call_kind := CK_query | CK_sub (sub_id : Z).

Record call := mkCall {
  ca_kind : call_kind;
  ca_q : obj_descriptor;
  ca_gdim : global_dimension;
  ca_result : option (list obj_descriptor)
}.

(** A [notify_rpc] on its way to a subscriber. *)
Record notice := mkNotice { no_dest : string; no_sub : Z; no_odscs : list obj_descriptor }.

(** The servers, the calls in the order they arrived, their parts (the parts
    of a call in the order of its peers), the notices sent. *)
Record wstate := mkW {
  w_cl : cluster;
  w_calls : list call;
  w_parts : list part;
  w_notices : list notice
}.

Inductive action :=
| W_event (e : event)
| W_ask (r : nat) (kind : call_kind) (q : obj_descriptor) (gdim : global_dimension)
| W_serve (j : nat)
| W_resume (j : nat)
| W_finish (k : nat).

Section Waiting.
Context `{E : Env}.

Definition answer_state (a : query_answer) : part_state :=
  match a with
  | QA_done l => P_done l
  | QA_wait ref q tab id => P_wait ref q tab id
  end.

(** The part at position [i] once the requests are sent: the server's own one
    is answered at once or waits. *)
Definition own_state (self : option (nat * query_answer)) (i : nat) : part_state :=
  match self with
  | Some (j, a) => if (i =? j)%nat then answer_state a else P_sent
  | None => P_sent
  end.

Definition set_part (j : nat) (ps : part_state) (st : wstate) : wstate :=
  mkW (w_cl st) (w_calls st) (alter (fun p => mkPart (pt_call p) (pt_peer p) ps) j (w_parts st)) (w_notices st).

Definition set_cl (c : cluster) (st : wstate) : wstate :=
  mkW c (w_calls st) (w_parts st) (w_notices st).

(** The end of [query_rpc] or of [sub_rpc]: the answer goes to the client or
    in a notice to the owner of the descriptor. *)
Definition respond (k : nat) (res : list obj_descriptor) (st : wstate) : wstate :=
  match w_calls st !! k with
  | None => st
  | Some ca =>
      mkW (w_cl st) (alter (fun ca => mkCall (ca_kind ca) (ca_q ca) (ca_gdim ca) (Some res)) k (w_calls st))
        (w_parts st)
        (w_notices st ++
          match ca_kind ca with
          | CK_query => []
          | CK_sub sub_id => [mkNotice (od_owner (ca_q ca)) sub_id res]
          end)
  end.

(** First part of [get_query_odscs] at server [r]: the parts of the call, its
    own part answered or waiting. *)
Definition ask (st : wstate) (r : nat) (kind : call_kind) (q : obj_descriptor) (gdim : global_dimension)
  : option wstate :=
  match cl_servers (w_cl st) !! r with
  | None => Some st
  | Some sv =>
      '(sv, out, qs) ← start_query sv q gdim (-1);
      let k := length (w_calls st) in
      let c := replace_server (w_cl st) r sv out in
      let calls := w_calls st ++ [mkCall kind q gdim None] in
      match qs with
      | QS_remote l => Some (respond k l (mkW c calls (w_parts st) (w_notices st)))
      | QS_peers peers self =>
          let parts := match peers with
                       | [] => [mkPart k r (own_state self 0)]
                       | _ => imap (fun i p => mkPart k p (own_state self i)) peers
                       end in
          Some (mkW c calls (w_parts st ++ parts) (w_notices st))
      end
  end.

(** [odsc_internal_rpc] of part [j] at its server. *)
Definition serve (st : wstate) (j : nat) : option wstate :=
  match w_parts st !! j with
  | Some (mkPart k p P_sent) =>
      ca ← w_calls st !! k;
      sv ← cl_servers (w_cl st) !! p;
      '(sv, out, a) ← odsc_internal_rpc sv (ca_q ca) (ca_gdim ca) (-1);
      Some (set_part j (answer_state a) (set_cl (replace_server (w_cl st) p sv out) st))
  | _ => Some st
  end.

(** The waiter of part [j] looks at its subscription, after a broadcast. *)
Definition resume (st : wstate) (j : nat) : option wstate :=
  match w_parts st !! j with
  | Some (mkPart k p (P_wait ref q tab id)) =>
      sv ← cl_servers (w_cl st) !! p;
      res ← answer_resume sv ref q tab id;
      match res with
      | None => Some st
      | Some (sv, l) => Some (set_part j (P_done l) (set_cl (replace_server (w_cl st) p sv []) st))
      end
  | _ => Some st
  end.

(** The answers of call [k] in the order of its peers, [None] while one is
    missing. *)
Definition call_answers (st : wstate) (k : nat) : option (list (list obj_descriptor)) :=
  mapM (fun p => match pt_state p with P_done l => Some l | _ => None end)
    (List.filter (fun p => (pt_call p =? k)%nat) (w_parts st)).

(** Last part of [get_query_odscs] for call [k]. *)
Definition finish (st : wstate) (k : nat) : wstate :=
  match w_calls st !! k with
  | Some (mkCall _ _ _ None) =>
      match call_answers st k with
      | Some answers => respond k (finish_query answers) st
      | None => st
      end
  | _ => st
  end.

Definition wstep (st : wstate) (a : action) : option wstate :=
  match a with
  | W_event e => c ← step (w_cl st) e; Some (set_cl c st)
  | W_ask r kind q gdim => ask st r kind q gdim
  | W_serve j => serve st j
  | W_resume j => resume st j
  | W_finish k => Some (finish st k)
  end.

Definition wrun (st : wstate) (acts : list action) : option wstate :=
  foldl (fun st a => st ← st; wstep st a) (Some st) acts.

(** The publications of a sequence of actions. *)
Definition wputs (acts : list action) : list (nat * obj_descriptor) :=
  flat_map (fun a => match a with W_event e => published_by e | _ => [] end) acts.

(** The calls of a sequence of actions. *)
Definition asks (acts : list action) : list (call_kind * obj_descriptor) :=
  flat_map (fun a => match a with W_ask _ kind q _ => [(kind, q)] | _ => [] end) acts.

(** The notice of an answered subscription. *)
Definition notice_of (ca : call) : option notice :=
  match ca_kind ca, ca_result ca with
  | CK_sub sub_id, Some res => Some (mkNotice (od_owner (ca_q ca)) sub_id res)
  | _, _ => None
  end.

(** What is left to do for call [k] when nothing new arrives: deliver the
    messages in flight, serve every part, look at every waiter, finish. *)
Definition advance (j : nat) : list action := [W_serve j; W_resume j].

Definition settle (k : nat) (st : wstate) : list action :=
  map W_event (replicate (length (cl_net (w_cl st))) (E_deliver 0)) ++
  flat_map advance (seq 0 (length (w_parts st))) ++ [W_finish k].

End Waiting.

Lemma sublist_map_filter {A B} (g : A -> B) (f : A -> bool) l : sublist (map g (List.filter f l)) (map g l).
Proof. induction l as [|x l IH]; [done|]. cbn [List.filter map]. destruct (f x); cbn [map]; by constructor. Qed.

(** ** A waiter of one index *)

Section Waiter.
Context `{EC : ElemCounter}.

(** The cells of an index that match a query. *)
Definition hits (de : dht_entry) (q : obj_descriptor) : list (nat * obj_descriptor) :=
  matching q (bin de (bin_of de q)).

(** The hits of a query in a countable space, apart from each other. *)
Definition hits_ok (de : dht_entry) (q : obj_descriptor) : Prop :=
  Forall countable_box (cell_boxes (hits de q)) /\ disjoint_boxes (cell_boxes (hits de q)).

(** The call [id] waits for [q] with the cells [h1] it found and [h2] it
    received, all matching: unlinked once they cover the points this server
    owns, else linked with all the matching cells and the number of points
    missing. *)
Definition waiter (de : dht_entry) (id : nat) (q : obj_descriptor) (tab : list nat) : Prop :=
  exists s h1 h2, s_id s = id /\ s_odsc s = q /\ tab = map fst h1 /\ s_recv s = map fst h2 /\
    Forall (fun c => In c (hits de q)) (h1 ++ h2) /\
    (uncovered (od_bb q) (cell_boxes (h1 ++ h2)) = [] /\ In s (d_done de) /\ s_remaining s = 0 \/
     h1 ++ h2 ≡ₚ hits de q /\ uncovered (od_bb q) (cell_boxes (hits de q)) <> [] /\
     In s (subs_bin de (bin_of de q)) /\
     s_remaining s = Z.of_nat (length (uncovered (od_bb q) (cell_boxes (hits de q))))).

Definition sub_ids (de : dht_entry) : list nat := map s_id (all_subs de).

Lemma sub_matches_query o s : sub_matches o s = obj_desc_equals_intersect o (s_odsc s).
Proof.
  unfold sub_matches, obj_desc_equals_intersect.
  destruct (bbox_does_intersect _ _), (String.eqb _ _), (_ =? _); done.
Qed.

Lemma hits_add_new de o q :
  dht_inv de -> dht_find_match de o = None ->
  hits (fst (dht_add_entry de o)) q
  = (if obj_desc_equals_intersect o q then [(d_next de, o)] else []) ++ hits de q.
Proof.
  intros Hi Em. unfold hits.
  assert (Hb : bin_of (fst (dht_add_entry de o)) q = bin_of de q) by (unfold bin_of; by rewrite size_add_entry).
  rewrite Hb, bin_add_entry by done. unfold bin_after. rewrite Em.
  destruct (obj_desc_equals_intersect o q) eqn:Eo.
  - apply obj_desc_equals_intersect_spec in Eo as Ho. destruct Ho as (_ & Hv & _).
    assert (bin_of de q = bin_of de o) as -> by (unfold bin_of; by rewrite Hv).
    case_decide; [|done]. unfold matching. cbn [List.filter snd]. by rewrite Eo.
  - case_decide as Hbo; [|done]. rewrite Hbo. unfold matching. cbn [List.filter snd]. by rewrite Eo.
Qed.

Lemma add_new_subs de o :
  dht_inv de -> dht_find_match de o = None -> exists kept done,
    publish (d_next de) o (subs_bin de (bin_of de o)) = (kept, done) /\
    d_done (fst (dht_add_entry de o)) = done ++ d_done de /\
    forall m, subs_bin (fst (dht_add_entry de o)) m = if decide (m = bin_of de o) then kept else subs_bin de m.
Proof.
  intros Hi Em. assert (Hlt : (bin_of de o < length (dht_subs de))%nat).
  { rewrite (inv_subs _ Hi), <- (inv_hash _ Hi). by apply bin_of_lt. }
  unfold dht_add_entry. rewrite Em.
  destruct (publish _ _ _) as [kept done]. exists kept, done. split; [done|]. split; [done|].
  intros m. unfold subs_bin. cbn [fst dht_subs]. rewrite nth_alter. repeat case_decide; done || tauto.
Qed.

Lemma uncovered_perm q l1 l2 : l1 ≡ₚ l2 -> uncovered q l1 = [] -> uncovered q l2 = [].
Proof. intros Hp. apply uncovered_mono. intros p. by rewrite Hp. Qed.

(** One more matching cell, received. *)
Lemma waiter_receive de o q cell h1 h2 s :
  queryable (od_bb q) -> countable_box (od_bb o) ->
  disjoint_boxes (cell_boxes ((cell, o) :: hits de q)) -> s_odsc s = q ->
  obj_desc_equals_intersect o q = true ->
  h1 ++ h2 ≡ₚ hits de q ->
  s_remaining s = Z.of_nat (length (uncovered (od_bb q) (cell_boxes (hits de q)))) ->
  h1 ++ (cell, o) :: h2 ≡ₚ (cell, o) :: hits de q /\
  s_remaining (pub cell o s) = Z.of_nat (length (uncovered (od_bb q) (cell_boxes ((cell, o) :: hits de q)))).
Proof.
  intros Hq Ho Hd <- Eo Hp Hr. split; [by rewrite <- Permutation_middle, Hp|].
  apply publish_remaining; try done. by rewrite sub_matches_query.
Qed.

(** An insertion apart from the bin advances every waiter. *)
Lemma waiter_add de o id q tab :
  dht_inv de -> dht_find_match de o = None -> queryable (od_bb q) ->
  hits_ok (fst (dht_add_entry de o)) q -> waiter de id q tab ->
  waiter (fst (dht_add_entry de o)) id q tab.
Proof.
  intros Hi Em Hq [Hc Hd] (s & h1 & h2 & Hid & Hs & Ht & Hrv & Hf & Hst).
  rewrite (hits_add_new de o q Hi Em) in Hc, Hd. unfold waiter. rewrite (hits_add_new de o q Hi Em).
  destruct (add_new_subs de o Hi Em) as (kept & done & Ep & Ed & Es).
  assert (Hb : bin_of (fst (dht_add_entry de o)) q = bin_of de q) by (unfold bin_of; by rewrite size_add_entry).
  rewrite Hb, Ed, Es. assert (Hsm : sub_matches o s = obj_desc_equals_intersect o q) by (by rewrite sub_matches_query, Hs).
  assert (Hin : forall h, Forall (fun c => In c (hits de q)) h -> Forall (fun c => In c
    ((if obj_desc_equals_intersect o q then [(d_next de, o)] else []) ++ hits de q)) h).
  { intros h Hh. eapply Forall_impl; [exact Hh|]. intros c Hcin. apply in_or_app. by right. }
  destruct Hst as [(Hu & Hdn & Hr)|(Hp & Hu & Hsub & Hr)].
  { exists s, h1, h2. split_and!; try done; [by apply Hin|]. left. split; [done|]. split; [|done].
    apply in_or_app. by right. }
  pose proof (publish_spec (d_next de) o (subs_bin de (bin_of de o))) as Hpub.
  rewrite Ep in Hpub. destruct Hpub as [_ Hpub].
  destruct (obj_desc_equals_intersect o q) eqn:Eo.
  - assert (Hbo : bin_of de q = bin_of de o).
    { apply obj_desc_equals_intersect_spec in Eo as (_ & Hv & _). unfold bin_of. by rewrite Hv. }
    cbn [app] in *. cbn [cell_boxes map snd] in Hc. apply Forall_cons in Hc as [Ho _]. rewrite Hbo in Hsub. specialize (Hpub s Hsub).
    destruct (waiter_receive de o q (d_next de) h1 h2 s Hq Ho Hd Hs Eo Hp Hr) as [Hp' Hr'].
    exists (pub (d_next de) o s), h1, ((d_next de, o) :: h2). rewrite pub_id. split_and!; [done| |done| | |].
    + unfold pub. by rewrite Hsm.
    + unfold pub. rewrite Hsm. cbn [sub_publish s_recv map fst]. by rewrite Hrv.
    + apply Forall_forall. intros c Hcin. rewrite Hp' in Hcin. by apply list_elem_of_In in Hcin.
    + destruct Hpub as [(Hin' & _ & Hz)|(Hin' & Hz)].
      * left. split; [|split; [by apply in_or_app; left|done]]. apply length_zero_iff_nil.
        rewrite Hz in Hr'. apply length_zero_iff_nil, (uncovered_perm _ (cell_boxes ((d_next de, o) :: hits de q))).
        -- apply Permutation_map. by symmetry.
        -- apply length_zero_iff_nil. lia.
      * right. split; [done|]. split; [|split; [by case_decide|done]].
        intros Hnil. rewrite Hnil in Hr'. by apply Hz.
  - cbn [app]. exists s, h1, h2. split_and!; try done. right. split; [done|]. split; [done|]. split; [|done].
    case_decide as Hbo; [|done]. rewrite Hbo in Hsub. destruct (Hpub s Hsub) as [(_ & ? & _)|(Hin' & _)]; [congruence|].
    unfold pub in Hin'. by rewrite Hsm in Hin'.
Qed.

(** A change of owner keeps the matching cells and their boxes. *)
Definition same_boxes (g : nat * obj_descriptor -> nat * obj_descriptor) : Prop :=
  forall c, fst (g c) = fst c /\ od_bb (snd (g c)) = od_bb (snd c).

Lemma matching_map q g l :
  (forall c, obj_desc_equals_intersect (snd (g c)) q = obj_desc_equals_intersect (snd c) q) ->
  matching q (map g l) = map g (matching q l).
Proof.
  intros Hg. unfold matching. induction l as [|c l IH]; [done|]. cbn [map List.filter]. rewrite Hg.
  destruct (obj_desc_equals_intersect _ _); cbn [map]; by rewrite IH.
Qed.

Lemma hits_owner de o clear q :
  dht_inv de -> let de' := fst (dht_update_owner de o clear) in
  exists g, same_boxes g /\ hits de' q = map g (hits de q) /\
    d_done de' = d_done de /\ dht_subs de' = dht_subs de /\ bin_of de' q = bin_of de q.
Proof.
  intros Hi. cbn zeta. rewrite dht_update_owner_eq.
  destruct (dht_find_exact de o) as [[cell x]|]; [|exists id; rewrite map_id; by split_and!].
  set (g := fun c : nat * obj_descriptor => if (fst c =? cell)%nat then (fst c, new_owner o clear (snd c)) else c).
  assert (Hg : forall c, fst (g c) = fst c /\ key (snd (g c)) = key (snd c)).
  { intros c. unfold g. destruct (_ =? _)%nat; [split; [done|apply key_update]|done]. }
  destruct (decide (bin_of de q = bin_of de o)) as [Hb|Hb].
  - exists g. split; [|split_and!; try done].
    + intros c. destruct (Hg c) as [H1 H2]. split; [done|]. exact (f_equal od_bb H2).
    + unfold hits, bin, set_hash. cbn [odsc_hash]. rewrite bin_of_set, nth_alter. pose proof (bin_of_lt de o Hi).
      rewrite decide_True by done. unfold set_cell. fold g. rewrite Hb. apply matching_map. intros c.
      change (obj_desc_equals_intersect (key (snd (g c))) q = obj_desc_equals_intersect (key (snd c)) q).
      by rewrite (proj2 (Hg c)).
  - exists id. rewrite map_id. split_and!; try done. unfold hits, bin, set_hash. cbn [odsc_hash].
    rewrite bin_of_set, nth_alter, decide_False; [done|tauto].
Qed.

Lemma cell_boxes_map g l : same_boxes g -> cell_boxes (map g l) = cell_boxes l.
Proof. intros Hg. unfold cell_boxes. rewrite map_map. apply map_ext. intros c. apply Hg. Qed.

Lemma map_fst_same g l : same_boxes g -> map fst (map g l) = map fst l.
Proof. intros Hg. rewrite map_map. apply map_ext. intros c. apply Hg. Qed.

Lemma waiter_owner de o clear id q tab :
  dht_inv de -> waiter de id q tab -> waiter (fst (dht_update_owner de o clear)) id q tab.
Proof.
  intros Hi (s & h1 & h2 & Hid & Hs & Ht & Hrv & Hf & Hst).
  destruct (hits_owner de o clear q Hi) as (g & Hg & Eh & Ed & Es & Eb).
  exists s, (map g h1), (map g h2). rewrite !map_fst_same by done. rewrite <- map_app, Eh.
  unfold subs_bin. rewrite Es, Eb, Ed, !cell_boxes_map by done. split_and!; try done.
  - apply List.Forall_map. eapply Forall_impl; [exact Hf|]. intros c. apply in_map.
  - destruct Hst as [?|(Hp & ? & ?)]; [by left|right]. split; [by apply Permutation_map|done].
Qed.

(** Another call that starts to wait. *)
Definition add_sub (s : dht_sub) (n : nat) (de : dht_entry) : dht_entry :=
  mkDht (odsc_size de) (odsc_num de) (odsc_hash de) (alter (cons s) n (dht_subs de)) (d_done de) (d_next de).

Lemma waiter_add_sub de s n id q tab : waiter de id q tab -> waiter (add_sub s n de) id q tab.
Proof.
  intros (s' & h1 & h2 & Hid & Hs & Ht & Hrv & Hf & Hst). exists s', h1, h2. split_and!; try done.
  destruct Hst as [?|(? & ? & Hin & ?)]; [by left|right]. split_and!; try done.
  unfold subs_bin, add_sub. cbn [dht_subs]. rewrite bin_of_set, nth_alter.
  fold (subs_bin de (bin_of de q)). case_decide as Hn; [|done]. destruct Hn as [<- _]. by right.
Qed.

Lemma add_sub_inv de s n : dht_inv de -> dht_inv (add_sub s n de).
Proof. intros []. split; try done. cbn [add_sub dht_subs odsc_size]. by rewrite length_alter. Qed.

Lemma sub_ids_add de s q :
  dht_inv de -> sub_ids (add_sub s (bin_of de q) de) ≡ₚ s_id s :: sub_ids de.
Proof.
  intros Hi. assert (Hlt : (bin_of de q < length (dht_subs de))%nat).
  { rewrite (inv_subs _ Hi), <- (inv_hash _ Hi). by apply bin_of_lt. }
  unfold sub_ids, all_subs, add_sub. cbn [d_done dht_subs].
  destruct (concat_alter_split (cons s) _ _ Hlt) as (l1 & l2 & E1 & E2). rewrite E1, E2, !map_app.
  cbn [map app]. solve_Permutation.
Qed.

(** What [dht_find_entry_all] does for a call that may wait. *)
Lemma find_or_wait de q id :
  dht_inv de -> queryable (od_bb q) -> hits_ok de q ->
  (uncovered (od_bb q) (cell_boxes (hits de q)) = [] /\
   dht_find_entry_all de q true id = (de, FR_done (map fst (hits de q)))) \/
  exists s, s_id s = id /\
    dht_find_entry_all de q true id = (add_sub s (bin_of de q) de, FR_wait (map fst (hits de q)) id) /\
    waiter (add_sub s (bin_of de q) de) id q (map fst (hits de q)).
Proof.
  intros Hi Hq [Hc Hd]. unfold dht_find_entry_all. rewrite find_scan by done. fold (hits de q).
  destruct (uncovered (od_bb q) (cell_boxes (hits de q))) as [|x l] eqn:Eu; [by left|right].
  destruct (Z.ltb_spec 0 (Z.of_nat (length (x :: l)))) as [_|Hle]; [|cbn [length] in Hle; lia].
  exists (mkSub id q (Z.of_nat (length (x :: l))) 0 []). split; [done|]. split; [reflexivity|].
  exists (mkSub id q (Z.of_nat (length (x :: l))) 0 []), (hits de q), []. split_and!; [done..| |].
  - rewrite app_nil_r. apply Forall_forall. intros c. by rewrite list_elem_of_In.
  - right. rewrite app_nil_r. split; [done|].
    change (hits (add_sub (mkSub id q (Z.of_nat (length (x :: l))) 0 []) (bin_of de q) de) q) with (hits de q).
    rewrite Eu. split; [done|]. split; [|done]. unfold subs_bin, add_sub. cbn [dht_subs].
    rewrite bin_of_set, nth_alter. rewrite decide_True; [by left|]. split; [done|].
    rewrite (inv_subs _ Hi), <- (inv_hash _ Hi). by apply bin_of_lt.
Qed.

(** A waiter that resumes leaves the others where they are. *)
Definition drop_sub (id : nat) (de : dht_entry) : dht_entry :=
  mkDht (odsc_size de) (odsc_num de) (odsc_hash de) (dht_subs de)
    (List.filter (fun s => negb (s_id s =? id)%nat) (d_done de)) (d_next de).

Lemma waiter_drop_sub de id' id q tab : id <> id' -> waiter de id q tab -> waiter (drop_sub id' de) id q tab.
Proof.
  intros Hne (s & h1 & h2 & Hid & Hs & Ht & Hrv & Hf & Hst). exists s, h1, h2. split_and!; try done.
  destruct Hst as [(? & Hin & ?)|?]; [left|by right]. split_and!; try done. cbn [drop_sub d_done].
  apply filter_In. split; [done|]. rewrite Hid. by apply negb_true_iff, Nat.eqb_neq.
Qed.

(** A waiter resumes exactly when its server has all of its points, with
    cells that cover them. *)
Lemma waiter_resume de id q tab :
  NoDup (sub_ids de) -> waiter de id q tab ->
  (uncovered (od_bb q) (cell_boxes (hits de q)) <> [] /\ dht_sub_resume de (bin_of de q) id tab = None) \/
  exists h, Forall (fun c => In c (hits de q)) h /\ uncovered (od_bb q) (cell_boxes h) = [] /\
    dht_sub_resume de (bin_of de q) id tab = Some (drop_sub id de, map fst h).
Proof.
  intros Hnd (s & h1 & h2 & Hid & Hs & Ht & Hrv & Hf & Hst). unfold dht_sub_resume.
  apply (NoDup_subs_bin _ (bin_of de q)) in Hnd.
  assert (Hin : In s (d_done de ++ subs_bin de (bin_of de q))).
  { apply in_or_app. destruct Hst as [(_ & ? & _)|(_ & _ & ? & _)]; auto. }
  rewrite <- Hid, (find_sub_unique _ s Hnd Hin). destruct Hst as [(Hu & _ & Hr)|(_ & Hu & _ & Hr)].
  - right. exists (h1 ++ h2). rewrite Hr, Ht, Hrv, map_app. done.
  - left. split; [done|]. rewrite Hr. destruct (uncovered _ _) as [|x l]; [done|].
    destruct (Z.ltb_spec 0 (Z.of_nat (length (x :: l)))) as [|Hle]; [done|cbn [length] in Hle; lia].
Qed.

End Waiter.

(** ** The index of a server under the requests of the cluster *)

Section Servers.
Context `{E : Env} (N : nat) (G : global_dimension) (ss : sspace) (mv : Z) (dom : bbox).
Context (Hdom : domain_ok dom) (HN : (0 < N)%nat) (HN' : Z.of_nat N <= 2 ^ 63)
  (Halloc : ssd_alloc_v2 0 dom N env_dim = Some ss)
  (Hlen : length (ss_ent_tab ss) = N) (Hss : ss_hash_version ss = ssd_hash_version_v2).

Definition de_of (sv : server) : dht_entry := sp_dht (sv_default sv).

(** What an index update does to the index. *)
Definition update_de (type : obj_update_type) (o : obj_descriptor) (sv : server) : dht_entry :=
  match type with
  | DS_OBJ_NEW => fst (@dht_add_entry (space_count (sp_ssd (sv_default sv))) (de_of sv) o)
  | DS_OBJ_OWNER => fst (dht_update_owner (de_of sv) o true)
  end.

(** A request moved the index of a server: not at all, or by one update apart
    from what it holds. *)
Definition moved (sv sv' : server) : Prop :=
  (sv_next sv <= sv_next sv')%nat /\
  (de_of sv' = de_of sv \/ exists type o, may_add mv type o sv /\ de_of sv' = update_de type o sv).

Lemma local_update_de sv o type sv' :
  obj_update_local_dht sv SR_default o type = Some sv' ->
  sv_rank sv' = sv_rank sv /\ sv_next sv' = sv_next sv /\ de_of sv' = update_de type o sv.
Proof. unfold obj_update_local_dht. cbn [get_space mbind option_bind]. intros [= <-]. by destruct type. Qed.

Lemma update_peers_once o gd type tab : forall sv sv' out,
  NoDup (map ptr_rank tab) -> update_peers sv SR_default o gd type tab = Some (sv', out) ->
  sv' = sv \/ obj_update_local_dht sv SR_default o type = Some sv'.
Proof.
  induction tab as [|p tab IH]; intros sv sv' out Hnd; cbn [update_peers]; [intros [= <- _]; by left|].
  cbn [map] in Hnd. apply NoDup_cons in Hnd as [Hp Hnd].
  destruct (Nat.eqb_spec (ptr_rank p) (sv_rank sv)) as [Hr|_].
  - destruct (obj_update_local_dht sv SR_default o type) as [sv1|] eqn:E1; [|done]. cbn [mbind option_bind].
    destruct (local_update_de _ _ _ _ E1) as (Hrk & _). destruct (update_peers_remote o gd type tab sv1) as (-> & _).
    { by rewrite Hrk, <- Hr. }
    intros [= <- _]. by right.
  - destruct (update_peers sv SR_default o gd type tab) as [[sv1 out1]|] eqn:E1; [|done]. cbn [mbind option_bind].
    intros [= <- _]. by apply (IH sv sv1 out1).
Qed.

Lemma update_dht_de r sv o gd type sv' out :
  good G ss mv r sv -> global_dimension_equal gd G = true ->
  obj_update_dht sv o gd type = Some (sv', out) ->
  sv_next sv' = sv_next sv /\ (de_of sv' = de_of sv \/ de_of sv' = update_de type o sv).
Proof.
  intros Hg Hgd. unfold obj_update_dht. rewrite (lookup_default G ss mv r sv gd Hg Hgd).
  cbn [mbind option_bind get_space]. destruct (hash_ok G ss mv Hss r sv (od_bb o) Hg) as (c & -> & _).
  cbn [mbind option_bind]. set (tab := select_ents _ _).
  assert (Hloc : forall sv', obj_update_local_dht (set_cache c sv) SR_default o type = Some sv' ->
    sv_next sv' = sv_next sv /\ (de_of sv' = de_of sv \/ de_of sv' = update_de type o sv)).
  { intros sv1 E1. destruct (local_update_de _ _ _ _ E1) as (_ & Hn & Hd). split; [exact Hn|]. right. exact Hd. }
  assert (Hnd : NoDup (map ptr_rank tab)).
  { unfold tab. rewrite (ranks_tab N ss Hlen). apply NoDup_ranks. }
  destruct tab as [|p l].
  - destruct (obj_update_local_dht _ _ _ _) as [sv1|] eqn:E1; [|done]. cbn [mbind option_bind].
    intros [= <- _]. by apply Hloc.
  - intros Eu. destruct (update_peers_once _ _ _ _ _ _ _ Hnd Eu) as [->|E1]; [|by apply Hloc].
    split; [done|]. by left.
Qed.

Lemma update_moved r sv sv0 o gd type sv' sv2 out :
  good G ss mv r sv0 -> global_dimension_equal gd G = true -> may_add mv type o sv ->
  de_of sv0 = de_of sv -> sp_ssd (sv_default sv0) = sp_ssd (sv_default sv) -> (sv_next sv <= sv_next sv0)%nat ->
  obj_update_dht sv0 o gd type = Some (sv', out) -> de_of sv2 = de_of sv' -> (sv_next sv' <= sv_next sv2)%nat ->
  moved sv sv2.
Proof.
  intros Hg Hgd Ha Hd Hs Hn Eu Hd2 Hn2. destruct (update_dht_de r sv0 o gd type sv' out Hg Hgd Eu) as [Hnx Hde].
  split; [lia|]. rewrite Hd2. destruct Hde as [->| ->]; [left; done|right]. exists type, o. split; [done|].
  unfold update_de. by rewrite Hd, Hs.
Qed.

Lemma moved_refl sv : moved sv sv.
Proof. split; [lia|by left]. Qed.

(** Every server moves at most one update in a request. *)
Lemma at_server_moved c r f c' :
  (forall sv sv' out, cl_servers c !! r = Some sv -> f sv = Some (sv', out) -> moved sv sv') ->
  at_server c r f = Some c' ->
  forall r' sv, cl_servers c !! r' = Some sv -> exists sv', cl_servers c' !! r' = Some sv' /\ moved sv sv'.
Proof.
  intros Hf. unfold at_server. destruct (cl_servers c !! r) as [sv0|] eqn:E0.
  - destruct (f sv0) as [[sv1 out]|] eqn:Ef; [|done]. cbn [mbind option_bind]. intros [= <-] r' sv Hr.
    cbn [replace_server cl_servers]. destruct (decide (r' = r)) as [->|Hne].
    + exists sv1. rewrite list_lookup_insert_eq by (by eapply lookup_lt_Some). split; [done|].
      rewrite E0 in Hr. injection Hr as <-. by apply (Hf sv0 sv1 out).
    + exists sv. rewrite list_lookup_insert_ne by done. split; [done|apply moved_refl].
  - intros [= <-] r' sv Hr. exists sv. split; [done|apply moved_refl].
Qed.

Lemma put_moved r sv o gd data sv' out ret :
  good G ss mv r sv -> global_dimension_equal gd G = true -> may_add mv DS_OBJ_NEW o sv ->
  put_rpc sv o gd (Some data) = Some (sv', out, ret) -> moved sv sv'.
Proof.
  intros Hg Hgd Ha. unfold put_rpc. destruct (obj_data_alloc _ _) as [od|]; [|done]. cbn [mbind option_bind].
  destruct (bulk_write _ _ _) as [d|]; [|done]. cbn [mbind option_bind].
  destruct (obj_update_dht _ _ _ _) as [[sv1 out1]|] eqn:Eu; [|done]. cbn [mbind option_bind]. intros [= <- <- <-].
  eapply (update_moved r sv _ (odsc_take_ownership sv o) gd DS_OBJ_NEW);
    [by apply good_store|done|exact Ha|done|done| |exact Eu|done|lia].
  cbn [store_obj bump sv_next set_stores]. lia.
Qed.

Lemma put_local_moved r sv o gd sv' out ret :
  good G ss mv r sv -> global_dimension_equal gd G = true -> may_add mv DS_OBJ_NEW o sv ->
  put_local_rpc sv o gd = Some (sv', out, ret) -> moved sv sv'.
Proof.
  intros Hg Hgd Ha. unfold put_local_rpc.
  destruct (obj_update_dht _ _ _ _) as [[sv1 out1]|] eqn:Eu; [|done]. cbn [mbind option_bind]. intros [= <- <- <-].
  eapply (update_moved r sv _ _ gd DS_OBJ_NEW); [exact Hg|done|exact Ha|done|done|done|exact Eu|done|done].
Qed.

Lemma drain_moved r sv reply res :
  good G ss mv r sv -> drain_step sv reply = Some res -> moved sv (fst (default (sv, []) res)).
Proof.
  intros Hg. unfold drain_step. destruct (sv_drain sv) as [|o l] eqn:Ed; [intros [= <-]; apply moved_refl|].
  pose proof (g_drain _ _ _ _ _ Hg) as Hdr. rewrite Ed in Hdr. apply Forall_cons in Hdr as [_ Hl].
  unfold get_client_data. destruct (obj_data_alloc _ _) as [od|]; [|done]. cbn [mbind option_bind].
  destruct (bulk_write _ _ _) as [d|]; [|done]. cbn [mbind option_bind].
  set (sv0 := if fst reply =? dspaces_SUCCESS then _ else _).
  destruct (obj_update_dht sv0 _ _ _) as [[sv1 out1]|] eqn:Eu; [|done]. cbn [mbind option_bind]. intros [= <-].
  cbn [default]. eapply (update_moved r sv sv0 _ zero_gdim DS_OBJ_OWNER _ _ _); [|done|done| | | |exact Eu| |].
  - unfold sv0. destruct (_ =? _); [apply good_store|]; by apply good_set_drain.
  - unfold sv0. by destruct (_ =? _).
  - unfold sv0. by destruct (_ =? _).
  - unfold sv0. destruct (_ =? _); cbn [store_obj bump sv_next set_stores set_drain]; lia.
  - by destruct (_ =? _).
  - by destruct (_ =? _).
Qed.

Lemma step_moved H c e c' :
  cl_inv N G ss mv H c -> event_ok N G e ->
  compatible mv (map (fun so => key (snd so)) (H ++ published_by e)) -> step c e = Some c' ->
  forall r sv, cl_servers c !! r = Some sv -> exists sv', cl_servers c' !! r = Some sv' /\ moved sv sv'.
Proof.
  intros Hi He Hc. destruct e as [r o gd data|r o gd|r reply|i|r q gd]; cbn [step published_by] in *.
  - destruct He as (_ & Hgd & _). apply at_server_moved. intros sv sv' out Hr.
    destruct (put_rpc sv o gd (Some data)) as [[[sv1 out1] ret]|] eqn:Ep; [|done]. intros [= <- <-].
    eapply (put_moved r); [by eapply ci_good|exact Hgd|by eapply inv_may_add|exact Ep].
  - destruct He as (_ & Hgd & _). apply at_server_moved. intros sv sv' out Hr.
    destruct (put_local_rpc sv o gd) as [[[sv1 out1] ret]|] eqn:Ep; [|done]. intros [= <- <-].
    eapply (put_local_moved r); [by eapply ci_good|exact Hgd|by eapply inv_may_add|exact Ep].
  - apply at_server_moved. intros sv sv' out Hr.
    destruct (drain_step sv reply) as [res|] eqn:Ep; [|done]. cbn [mbind option_bind]. intros [= Heq].
    pose proof (drain_moved r sv reply res) as Hd. rewrite Heq in Hd. apply Hd; [by eapply ci_good|exact Ep].
  - rewrite app_nil_r in Hc. destruct (cl_net c !! i) as [u|] eqn:Eu; [|intros [= <-]; eauto using moved_refl].
    pose proof (proj1 (Forall_lookup _ _) (ci_net _ _ _ _ _ _ Hi) i u Eu) as [Hgd _].
    intros Hs r sv Hr. refine (at_server_moved _ _ _ c' _ Hs r sv Hr).
    intros sv0 sv' out Hr0. unfold obj_update_rpc. cbn [cl_servers] in Hr0.
    rewrite (lookup_default G ss mv (u_dst u) sv0 _ (ci_good _ _ _ _ _ _ Hi _ _ Hr0) Hgd). cbn [mbind option_bind].
    destruct (obj_update_local_dht _ _ _ _) as [sv1|] eqn:E1; [|done]. intros [= <- <-].
    destruct (local_update_de _ _ _ _ E1) as (_ & Hn & Hd). split; [lia|]. right. exists (u_type u), (u_odsc u).
    split; [|done]. by apply (deliver_may_add N G ss mv H c i).
  - destruct He as [Hr Hgd]. destruct (query_ok N G ss mv Hss Hlen H c r q gd Hi Hr Hgd) as (c1 & _ & _ & (sv & ca & Esv & ->) & ->).
    rewrite Esv. cbn [mbind option_bind]. intros [= <-] r' sv' Hr'. cbn [replace_server cl_servers].
    destruct (decide (r' = r)) as [->|Hne].
    + exists (set_cache ca sv). rewrite list_lookup_insert_eq by (by eapply lookup_lt_Some).
      split; [done|]. rewrite Esv in Hr'. injection Hr' as <-. split; [done|by left].
    + exists sv'. rewrite list_lookup_insert_ne by done. split; [done|apply moved_refl].
Qed.

(** ** Waiters of a server *)

Definition counter (r : nat) (Hr : (r < N)%nat) : ElemCounter :=
  space_counter N ss Hss dom Hdom HN HN' Halloc r Hr.

Definition waits (r : nat) (sv : server) (id : nat) (q : obj_descriptor) (tab : list nat) : Prop :=
  exists Hr, @waiter (counter r Hr) (de_of sv) id q tab.

Definition subs_ok (sv : server) : Prop :=
  NoDup (sub_ids (de_of sv)) /\ Forall (fun id => (id < sv_next sv)%nat) (sub_ids (de_of sv)).

(** The waiters stay, except those that [gone] names. *)
Definition evolves (r : nat) (gone : nat -> Prop) (sv sv' : server) : Prop :=
  (subs_ok sv -> subs_ok sv') /\ (sv_next sv <= sv_next sv')%nat /\
  forall id q tab, ~ gone id -> query_box dom q -> waits r sv id q tab -> waits r sv' id q tab.

Lemma waits_de r sv sv' id q tab : de_of sv' = de_of sv -> waits r sv id q tab -> waits r sv' id q tab.
Proof. unfold waits. by intros ->. Qed.

Lemma waits_id r sv id q tab : waits r sv id q tab -> In id (sub_ids (de_of sv)).
Proof.
  intros (Hr & s & h1 & h2 & <- & _ & _ & _ & _ & Hst). unfold sub_ids, all_subs. apply in_map, in_or_app.
  destruct Hst as [(_ & ? & _)|(_ & _ & Hin & _)]; [by left|right]. by apply (in_nth_concat (bin_of (de_of sv) q)).
Qed.

Lemma evolves_same r gone sv sv' :
  de_of sv' = de_of sv -> (sv_next sv <= sv_next sv')%nat -> evolves r gone sv sv'.
Proof.
  intros Hd Hn. split; [|split; [done|]].
  - unfold subs_ok. rewrite Hd. intros [? Hf]. split; [done|]. eapply Forall_impl; [exact Hf|]. simpl. lia.
  - intros id q tab _ _. by apply waits_de.
Qed.

Lemma hits_found sv q : hits (de_of sv) q = found sv q.
Proof. done. Qed.

(** The hits of a query are fit for counting. *)
Lemma found_ok H r Hr sv q :
  holding G ss mv H r sv -> compatible mv (map (fun so => key (snd so)) H) ->
  Forall (fun so => publishable dom (snd so)) H -> @hits_ok (counter r Hr) (de_of sv) q.
Proof. intros Hh Hc Hp. exact (found_boxes N G ss mv Hlen dom H r sv q Hh Hc Hp). Qed.

Lemma moved_evolves H r sv sv' :
  good G ss mv r sv -> moved sv sv' -> holding G ss mv H r sv' ->
  compatible mv (map (fun so => key (snd so)) H) -> Forall (fun so => publishable dom (snd so)) H ->
  evolves r (fun _ => False) sv sv'.
Proof.
  intros Hg [Hn [Hd|(type & o & Ha & Hd)]] Hh Hc Hp; [by apply evolves_same|].
  pose proof (g_inv _ _ _ _ _ Hg) as Hi. pose proof (g_ssd _ _ _ _ _ Hg) as Hssd.
  unfold update_de in Hd. fold (de_of sv) in Hi. destruct type.
  - rewrite Hssd in Hd.
    assert (Em : dht_find_match (de_of sv) o = None).
    { apply apart_find_match; [done|]. unfold de_of. by rewrite (g_size _ _ _ _ _ Hg). }
    split; [|split; [done|]].
    + destruct (@add_entry_subs (space_count (ssd_init ss r)) (de_of sv) o Hi) as (_ & _ & _ & _ & _ & _ & Hids).
      unfold subs_ok, sub_ids. rewrite Hd, Hids. intros [? Hf]. split; [done|].
      eapply Forall_impl; [exact Hf|]. simpl. lia.
    + intros id q tab _ Hq (Hr & Hw). exists Hr. pose proof (found_ok H r Hr sv' q Hh Hc Hp) as Hok.
      rewrite Hd in Hok |- *. exact (@waiter_add (counter r Hr) (de_of sv) o id q tab Hi Em Hq Hok Hw).
  - assert (Hsub : d_done (de_of sv') = d_done (de_of sv) /\ dht_subs (de_of sv') = dht_subs (de_of sv)).
    { rewrite Hd. destruct (hits_owner (de_of sv) o true o Hi) as (_ & _ & _ & ? & ? & _). done. }
    destruct Hsub as [E1 E2]. split; [|split; [done|]].
    + unfold subs_ok, sub_ids, all_subs. rewrite E1, E2. intros [? Hf]. split; [done|].
      eapply Forall_impl; [exact Hf|]. simpl. lia.
    + intros id q tab _ _ (Hr & Hw). exists Hr. rewrite Hd. by apply waiter_owner.
Qed.

(** ** What a part promises *)

(** The answer [l] of server [r] to [q]: views of publications that cover
    the points the server owns. *)
Definition answered (H : list (nat * obj_descriptor)) (r : nat) (q : obj_descriptor)
    (l : list obj_descriptor) : Prop :=
  (forall d, d ∈ l -> exists so, so ∈ H /\ is_view q d (snd so)) /\
  (forall p, in_box p (od_bb q) -> responsible_point ss p r -> exists d, d ∈ l /\ in_box p (od_bb d)).

Definition part_ok (H : list (nat * obj_descriptor)) (r : nat) (sv : server) (q : obj_descriptor)
    (ps : part_state) : Prop :=
  match ps with
  | P_sent => True
  | P_wait ref q' tab id => ref = SR_default /\ q' = q /\ waits r sv id q tab
  | P_done l => answered H r q l
  end.

(** A point cut to the dimensions of the space. *)
Definition cut (p : coord) : coord := map (cget p) (seq 0 (num_dims dom)).

Lemma cut_box p b : num_dims b = num_dims dom -> in_box (cut p) b <-> in_box p b.
Proof.
  intros Hd. unfold in_box, cut. rewrite Hd.
  assert (Hc : forall i, (i < num_dims dom)%nat -> cget (map (cget p) (seq 0 (num_dims dom))) i = cget p i).
  { intros i Hi. unfold cget at 1. rewrite nth_lookup, list_lookup_fmap, lookup_seq_lt by done. done. }
  split; intros Hp i Hi; specialize (Hp i Hi); rewrite Hc in * by done; done.
Qed.

Lemma cut_points p q : num_dims q = num_dims dom -> in_box p q -> In (cut p) (box_points q).
Proof.
  intros Hd Hp. apply elem_of_box_points. split; [|by apply cut_box].
  unfold cut. by rewrite length_map, length_seq, Hd.
Qed.

Lemma cut_owned p r : responsible_point ss (cut p) r <-> responsible_point ss p r.
Proof.
  unfold responsible_point. rewrite !existsb_exists.
  assert (Hb : forall b, In b (de_bb_tab (nth r (ss_ent_tab ss) (zero_place 0))) ->
    in_boxb (cut p) b = true <-> in_boxb p b = true).
  { intros b Hb%list_elem_of_In. rewrite !in_boxb_spec. apply cut_box.
    by apply (entry_piece N ss dom Hdom HN HN' Halloc r). }
  split; intros (b & Hin & Hp); exists b; (split; [done|]); by apply (Hb b Hin).
Qed.

(** Cells that cover the points a server owns make an answer. *)
Lemma cells_answer H r Hr sv q h :
  holding G ss mv H r sv -> Forall (fun so => publishable dom (snd so)) H -> query_box dom q ->
  Forall (fun c => In c (found sv q)) h ->
  @uncovered (counter r Hr) (od_bb q) (cell_boxes h) = [] ->
  answered H r q (map (fun c => query_view q (snd c)) h).
Proof.
  intros Hh Hpub Hq Hf Hu. rewrite Forall_forall in Hf.
  assert (Hview : forall c, c ∈ h -> exists so, so ∈ H /\ is_view q (query_view q (snd c)) (snd so) /\
    od_bb (snd c) = od_bb (snd so)).
  { intros c Hc. destruct (found_history _ _ _ _ _ _ _ _ Hh (Hf c Hc)) as (so & Hso & _ & Hk & Hm).
    exists so. split; [done|]. split; [|exact (f_equal od_bb Hk)]. split; [done|].
    change (query_view q (key (snd c)) = query_view q (key (snd so))). by rewrite Hk. }
  split.
  - intros d (c & -> & Hc)%list_elem_of_fmap. destruct (Hview c Hc) as (so & ? & ? & _). by exists so.
  - intros p Hp Ho. pose proof Hq as (Hvq & Hdq & _).
    assert (Hex : Exists (in_box (cut p)) (cell_boxes h)).
    { apply length_zero_iff_nil in Hu.
      apply (proj1 (@length_uncovered_zero (counter r Hr) (od_bb q) (cell_boxes h))); [done| |].
      - by apply cut_points.
      - cbn [ec_owned counter space_counter]. by apply cut_owned. }
    apply Exists_exists in Hex as (b & (c & -> & Hc)%list_elem_of_fmap & Hpb).
    exists (query_view q (snd c)). split; [by apply list_elem_of_fmap; exists c|].
    destruct (Hview c Hc) as (so & Hso & Hv & Hbb). rewrite Forall_forall in Hpub.
    destruct (Hpub so Hso) as [Hvo Hdo].
    apply (view_box q _ (snd so)); [apply Hvq|apply Hvo|congruence|exact Hv|]. split; [done|].
    cbn beta in Hpb. rewrite Hbb in Hpb. by apply cut_box.
Qed.

(** The part of [get_query_odscs] and [odsc_internal_rpc] that may wait. *)
Lemma answer_local_waits H r sv q :
  good G ss mv r sv -> (r < N)%nat -> holding G ss mv H r sv ->
  compatible mv (map (fun so => key (snd so)) H) -> Forall (fun so => publishable dom (snd so)) H ->
  query_box dom q -> subs_ok sv ->
  exists sv' a, answer_local sv SR_default q (-1) = Some (sv', a) /\ good G ss mv r sv' /\
    index_keys sv' = index_keys sv /\ evolves r (fun _ => False) sv sv' /\
    part_ok H r sv' q (answer_state a) /\
    (forall ref q' tab id, a = QA_wait ref q' tab id -> id = sv_next sv).
Proof.
  intros Hg Hr Hh Hc Hpub Hq Hsub. unfold answer_local, find_local. cbn [get_space mbind option_bind].
  rewrite Z.eqb_refl, (g_ssd _ _ _ _ _ Hg). pose proof (g_inv _ _ _ _ _ Hg) as Hi.
  pose proof (found_ok H r Hr sv q Hh Hc Hpub) as Hok.
  destruct (@find_or_wait (counter r Hr) (de_of sv) q (sv_next sv) Hi Hq Hok) as [[Hu Hfind]|(s & Hid & Hfind & Hw)];
    change (@dht_find_entry_all (space_count (ssd_init ss r)) (sp_dht (sv_default sv)) q true (sv_next sv))
      with (@dht_find_entry_all (@ec_elem_count (counter r Hr)) (de_of sv) q true (sv_next sv)); rewrite Hfind;
    cbn [mbind option_bind].
  - unfold de_of. rewrite set_default_dht_id. cbn [get_space mbind option_bind].
    rewrite (deref_cells _ _ (found sv q)); [|apply Hg|intros c Hin; by apply (found_cells sv q c)].
    cbn [mbind option_bind]. eexists _, _. split; [reflexivity|]. split; [done|]. split; [done|].
    split; [by apply evolves_same|]. split; [|done]. cbn [answer_state part_ok].
    apply (cells_answer H r Hr sv q (found sv q)); try done. apply Forall_forall. intros c. by rewrite list_elem_of_In.
  - eexists _, _. split; [reflexivity|]. set (sv' := bump _).
    assert (Hde : de_of sv' = add_sub s (bin_of (de_of sv) q) (de_of sv)) by done.
    split; [|split; [done|split; [|split; [|by intros ? ? ? ? [= _ _ _ <-]]]]].
    + apply (good_set_dht G ss mv r sv (add_sub s (bin_of (de_of sv) q) (de_of sv))) in Hg;
        [|by apply add_sub_inv|apply Hg].
      destruct Hg. by split.
    + split; [|split; [cbn; lia|]].
      * unfold subs_ok. rewrite Hde, sub_ids_add by done. intros [Hnd Hf]. rewrite Hid. split.
        -- constructor; [|done]. intros Hin. rewrite Forall_forall in Hf. specialize (Hf _ Hin). simpl in Hf. lia.
        -- constructor; [cbn; lia|]. eapply Forall_impl; [exact Hf|]. cbn. lia.
      * intros id q' tab _ _ (Hr' & Hw'). exists Hr'. rewrite Hde. by apply waiter_add_sub.
    + cbn [answer_state part_ok]. split; [done|]. split; [done|]. exists Hr. rewrite Hde. exact Hw.
Qed.

(** A waiter that is looked at. *)
Lemma resume_waits H r sv q id tab :
  good G ss mv r sv -> holding G ss mv H r sv -> Forall (fun so => publishable dom (snd so)) H ->
  query_box dom q -> subs_ok sv -> waits r sv id q tab ->
  ((exists Hr, @uncovered (counter r Hr) (od_bb q) (cell_boxes (found sv q)) <> []) /\
   answer_resume sv SR_default q tab id = Some None) \/
  exists sv' l, answer_resume sv SR_default q tab id = Some (Some (sv', l)) /\ good G ss mv r sv' /\
    index_keys sv' = index_keys sv /\ evolves r (eq id) sv sv' /\ answered H r q l.
Proof.
  intros Hg Hh Hpub Hq [Hnd Hlt] (Hr & Hw). unfold answer_resume. cbn [get_space mbind option_bind].
  fold (de_of sv). pose proof (g_inv _ _ _ _ _ Hg) as Hi.
  destruct (@waiter_resume (counter r Hr) _ _ _ _ Hnd Hw) as [[Hu ->]|(h & Hf & Hu & ->)].
  { left. split; [by exists Hr|done]. }
  right. rewrite (deref_cells _ _ h).
  - cbn [mbind option_bind]. eexists _, _. split; [reflexivity|]. set (sv' := set_space_dht _ _ _).
    assert (Hde : de_of sv' = drop_sub id (de_of sv)) by done.
    split; [|split; [done|split]].
    + apply good_set_dht; [done|by destruct Hi|apply Hg].
    + split; [|split; [done|]].
      * assert (Hsub : sublist (sub_ids (de_of sv')) (sub_ids (de_of sv))).
        { rewrite Hde. unfold sub_ids, all_subs. cbn [drop_sub d_done dht_subs]. rewrite !map_app.
          apply sublist_app; [|done]. by apply sublist_map_filter. }
        intros _. split; [by eapply sublist_NoDup|]. apply Forall_forall. intros x Hx.
        rewrite Forall_forall in Hlt. by apply Hlt, (elem_of_sublist _ _ _ Hx).
      * intros id' q' tab' Hne _ (Hr' & Hw'). exists Hr'. rewrite Hde. apply waiter_drop_sub; [|done]. congruence.
    + by apply (cells_answer H r Hr sv q h).
  - by destruct Hi.
  - intros c Hin. rewrite Forall_forall in Hf. apply (found_cells sv q c), Hf. by apply list_elem_of_In.
Qed.

(** ** The invariant of the calls in progress *)

(** The answer of a call: parts of publications that contain every point of
    the query once. *)
Definition right_result (H : list (nat * obj_descriptor)) (q : obj_descriptor) (res : list obj_descriptor) : Prop :=
  (forall d, d ∈ res -> exists so, so ∈ H /\ is_view q d (snd so)) /\
  (forall p, in_box p (od_bb q) -> in_box p dom -> exists! i, exists d, res !! i = Some d /\ in_box p (od_bb d)).

(** Part [j] waits at server [r] as [id]. *)
Definition waiting (ps : list part) (j r id : nat) : Prop :=
  exists k ref q tab, ps !! j = Some (mkPart k r (P_wait ref q tab id)).

Record winv (H : list (nat * obj_descriptor)) (st : wstate) : Prop := {
  wi_cl : cl_inv N G ss mv H (w_cl st);
  wi_subs : forall r sv, cl_servers (w_cl st) !! r = Some sv -> subs_ok sv;
  wi_parts : forall j k r ps, w_parts st !! j = Some (mkPart k r ps) -> exists ca sv,
    w_calls st !! k = Some ca /\ cl_servers (w_cl st) !! r = Some sv /\ part_ok H r sv (ca_q ca) ps;
  wi_ids : forall j j' r id, waiting (w_parts st) j r id -> waiting (w_parts st) j' r id -> j = j';
  wi_calls : forall k ca, w_calls st !! k = Some ca ->
    query_box dom (ca_q ca) /\ global_dimension_equal (ca_gdim ca) G = true /\
    (forall r, r ∈ ranks N ss (od_bb (ca_q ca)) -> exists j ps, w_parts st !! j = Some (mkPart k r ps)) /\
    (forall res, ca_result ca = Some res -> right_result H (ca_q ca) res)
}.

Lemma inv_holding H c r sv : cl_inv N G ss mv H c -> cl_servers c !! r = Some sv -> holding G ss mv H r sv.
Proof. intros Hi Hr. split; [by eapply ci_good|]. exists (pending r (cl_net c)). by apply (ci_index _ _ _ _ _ _ Hi). Qed.

(** A handler that leaves the descriptors of its server as they are. *)
Lemma inv_same H c r sv sv' :
  cl_inv N G ss mv H c -> cl_servers c !! r = Some sv -> good G ss mv r sv' -> index_keys sv' = index_keys sv ->
  cl_inv N G ss mv H (replace_server c r sv' []).
Proof.
  intros Hi Hr Hg Hk. rewrite <- (app_nil_r H). apply (inv_replace N G ss mv H [] c r sv); try done.
  cbn [pending List.filter map]. by rewrite Hk.
Qed.

Lemma part_ok_mono H H' r sv q ps : part_ok H r sv q ps -> part_ok (H ++ H') r sv q ps.
Proof.
  destruct ps; [done..|]. intros [Hv Hp]. split; [|done]. intros d Hd.
  destruct (Hv d Hd) as (so & Hso & ?). exists so. split; [|done]. apply elem_of_app. by left.
Qed.

Lemma right_result_mono H H' q res : right_result H q res -> right_result (H ++ H') q res.
Proof.
  intros [Hv Hp]. split; [|done]. intros d Hd.
  destruct (Hv d Hd) as (so & Hso & ?). exists so. split; [|done]. apply elem_of_app. by left.
Qed.

Lemma part_ok_evolves H r gone sv sv' q ps :
  evolves r gone sv sv' -> query_box dom q ->
  (forall ref q' tab id, ps = P_wait ref q' tab id -> ~ gone id) ->
  part_ok H r sv q ps -> part_ok H r sv' q ps.
Proof.
  intros (_ & _ & Hev) Hq Hgone. destruct ps as [|ref q' tab id|l]; [done| |done].
  intros (-> & -> & Hw). split; [done|]. split; [done|]. apply Hev; [by eapply Hgone|done|done].
Qed.

(** The servers change, and their waiters stay. *)
Lemma cluster_winv H H' st c' :
  winv H st -> cl_inv N G ss mv (H ++ H') c' ->
  (forall r sv, cl_servers (w_cl st) !! r = Some sv ->
     exists sv', cl_servers c' !! r = Some sv' /\ evolves r (fun _ => False) sv sv') ->
  winv (H ++ H') (set_cl c' st).
Proof.
  intros [Hcl Hsubs Hparts Hids Hcalls] Hcl' Hev.
  split; cbn [set_cl w_cl w_calls w_parts]; [done| | |done|].
  - intros r sv' Hr'. destruct (cl_servers (w_cl st) !! r) as [sv|] eqn:Er.
    + destruct (Hev r sv Er) as (sv2 & Hr2 & Hsub & _). rewrite Hr' in Hr2. injection Hr2 as <-. by apply Hsub, (Hsubs r).
    + apply lookup_ge_None in Er. apply lookup_lt_Some in Hr'.
      rewrite (ci_length _ _ _ _ _ _ Hcl) in Er. rewrite (ci_length _ _ _ _ _ _ Hcl') in Hr'. lia.
  - intros j k r ps Hj. destruct (Hparts j k r ps Hj) as (ca & sv & Hca & Hr & Hok).
    destruct (Hev r sv Hr) as (sv' & Hr' & Hev'). exists ca, sv'. split; [done|]. split; [done|].
    apply part_ok_mono. eapply part_ok_evolves; [exact Hev'|by apply (Hcalls k ca)|by intros ? ? ? ? _ []|done].
  - intros k ca Hca. destruct (Hcalls k ca Hca) as (? & ? & ? & Hres). split_and!; try done.
    intros res Hr. by apply right_result_mono, Hres.
Qed.

(** A request of the cluster. *)
Lemma event_winv H st e :
  winv H st -> event_ok N G e ->
  compatible mv (map (fun so => key (snd so)) (H ++ published_by e)) ->
  Forall (fun so => publishable dom (snd so)) (H ++ published_by e) ->
  exists c', step (w_cl st) e = Some c' /\ winv (H ++ published_by e) (set_cl c' st).
Proof.
  intros Hw He Hc Hpub. pose proof (wi_cl _ _ Hw) as Hcl.
  destruct (step_ok N G ss mv Hss Hlen H _ e Hcl He Hc) as (c' & Hs & Hcl').
  exists c'. split; [done|]. apply cluster_winv; [done..|]. intros r sv Hr.
  destruct (step_moved H _ e c' Hcl He Hc Hs r sv Hr) as (sv' & Hr' & Hm).
  exists sv'. split; [done|]. apply (moved_evolves (H ++ published_by e)); try done.
  - by apply (ci_good _ _ _ _ _ _ Hcl).
  - by apply (inv_holding _ c').
Qed.

Lemma lookup_set_part j ps (l : list part) j' p :
  alter (fun p => mkPart (pt_call p) (pt_peer p) ps) j l !! j' = Some p ->
  (j' = j /\ exists p0, l !! j = Some p0 /\ p = mkPart (pt_call p0) (pt_peer p0) ps) \/ (j' <> j /\ l !! j' = Some p).
Proof.
  rewrite list_lookup_alter. case_decide as Hj; [|by right].
  intros (p0 & Hp0 & ->)%fmap_Some. left. subst j'. eauto.
Qed.

(** Waiting parts have identities their server has given. *)
Lemma waiting_old H st j r id sv :
  winv H st -> waiting (w_parts st) j r id -> cl_servers (w_cl st) !! r = Some sv -> (id < sv_next sv)%nat.
Proof.
  intros Hw (k & ref & q & tab & Hj) Hr. destruct (wi_parts _ _ Hw _ _ _ _ Hj) as (ca & sv' & _ & Hr' & _ & _ & Hwt).
  rewrite Hr in Hr'. injection Hr' as <-. apply waits_id in Hwt.
  destruct (wi_subs _ _ Hw r sv Hr) as [_ Hf]. rewrite Forall_forall in Hf. by apply Hf, list_elem_of_In.
Qed.

(** A part that advances at its server. *)
Lemma part_winv H st j k r ca sv sv' old ps gone :
  winv H st -> w_parts st !! j = Some (mkPart k r old) -> w_calls st !! k = Some ca ->
  cl_servers (w_cl st) !! r = Some sv -> good G ss mv r sv' -> index_keys sv' = index_keys sv ->
  evolves r gone sv sv' -> (forall j' id, j' <> j -> waiting (w_parts st) j' r id -> ~ gone id) ->
  part_ok H r sv' (ca_q ca) ps ->
  (forall ref q tab id, ps = P_wait ref q tab id -> (sv_next sv <= id)%nat) ->
  winv H (set_part j ps (set_cl (replace_server (w_cl st) r sv' []) st)).
Proof.
  intros Hw Hj Hca Hr Hg Hk Hev Hgone Hok Hnew. pose proof (lookup_lt_Some _ _ _ Hr) as Hlt.
  split; cbn [set_part set_cl w_cl w_calls w_parts].
  - by apply (inv_same H _ r sv), Hk; [apply Hw|..].
  - intros r' sv2. cbn [replace_server cl_servers]. rewrite list_lookup_insert_Some.
    intros [(<- & <- & _)|[_ H2]]; [by apply Hev, (wi_subs _ _ Hw r)|by apply (wi_subs _ _ Hw r')].
  - intros j' k' r' ps' [(-> & p0 & Hp0 & Heq)|(Hne & Hj')]%lookup_set_part; cbn [replace_server cl_servers].
    + rewrite Hj in Hp0. injection Hp0 as <-. injection Heq as -> -> ->. exists ca, sv'.
      split; [done|]. split; [by apply list_lookup_insert_eq|done].
    + destruct (wi_parts _ _ Hw _ _ _ _ Hj') as (ca' & sv2 & Hca' & Hr' & Hok').
      destruct (decide (r' = r)) as [->|Hner].
      * rewrite Hr in Hr'. injection Hr' as <-. exists ca', sv'. split; [done|].
        split; [by apply list_lookup_insert_eq|]. eapply part_ok_evolves; [exact Hev|by apply (wi_calls _ _ Hw k')| |done].
        intros ref q' tab id ->. apply (Hgone j'); [done|]. by exists k', ref, q', tab.
      * exists ca', sv2. split; [done|]. by rewrite list_lookup_insert_ne.
  - assert (Hone : forall j1 r1 id, waiting (alter (fun p => mkPart (pt_call p) (pt_peer p) ps) j (w_parts st)) j1 r1 id ->
      (j1 = j /\ r1 = r /\ (sv_next sv <= id)%nat) \/ (j1 <> j /\ waiting (w_parts st) j1 r1 id)).
    { intros j1 r1 id (k1 & ref & q & tab & [(-> & p0 & Hp0 & Heq)|(Hne & Hj1)]%lookup_set_part).
      - left. rewrite Hj in Hp0. injection Hp0 as <-. injection Heq as -> -> <-. split; [done|]. split; [done|]. by eapply Hnew.
      - right. split; [done|]. by exists k1, ref, q, tab. }
    intros j1 j2 r1 id [(-> & -> & Hle)|(H1 & W1)]%Hone [(-> & Hr1 & Hle2)|(H2 & W2)]%Hone; [done| | |].
    + pose proof (waiting_old H st j2 r id sv Hw W2 Hr). lia.
    + subst r1. pose proof (waiting_old H st j1 r id sv Hw W1 Hr). lia.
    + by apply (wi_ids _ _ Hw j1 j2 r1 id).
  - intros k' ca' Hca'. destruct (wi_calls _ _ Hw k' ca' Hca') as (? & ? & Hcov & ?). split_and!; try done.
    intros r' (j' & ps' & Hj')%Hcov. destruct (decide (j' = j)) as [->|Hne].
    + exists j, ps. rewrite list_lookup_alter_eq, Hj'. done.
    + exists j', ps'. by rewrite list_lookup_alter_ne.
Qed.

(** ** Parts advance *)

(** Nothing is published, and every part goes on: sent, waiting, answered. *)
Definition sent (ps : part_state) : Prop := match ps with P_sent => True | _ => False end.

Definition progress (st st' : wstate) : Prop :=
  cl_net (w_cl st') = cl_net (w_cl st) /\ w_calls st' = w_calls st /\
  (length (w_parts st') = length (w_parts st) /\ w_notices st' = w_notices st) /\
  forall j k r ps, w_parts st !! j = Some (mkPart k r ps) -> exists ps', w_parts st' !! j = Some (mkPart k r ps') /\
    (~ sent ps -> ~ sent ps') /\ forall l, ps = P_done l -> ps' = P_done l.

Lemma progress_refl st : progress st st.
Proof. split_and!; [done..|]. intros j k r ps Hj. by exists ps. Qed.

Lemma progress_trans st1 st2 st3 : progress st1 st2 -> progress st2 st3 -> progress st1 st3.
Proof.
  intros (A1 & A2 & [A3 A5] & A4) (B1 & B2 & [B3 B5] & B4). split_and!; [congruence..|].
  intros j k r ps Hj. destruct (A4 _ _ _ _ Hj) as (ps1 & Hj1 & Hs1 & Hd1).
  destruct (B4 _ _ _ _ Hj1) as (ps2 & Hj2 & Hs2 & Hd2). exists ps2. split; [done|]. split; [auto|].
  intros l Hl. by apply Hd2, Hd1.
Qed.

Lemma progress_part st j k r old ps c :
  w_parts st !! j = Some (mkPart k r old) -> ~ sent ps -> (forall l, old = P_done l -> ps = P_done l) ->
  cl_net c = cl_net (w_cl st) -> progress st (set_part j ps (set_cl c st)).
Proof.
  intros Hj Hs Hd Hn. split_and!; [done|done|apply length_alter|done|]. intros j' k' r' ps' Hj'. cbn [set_part set_cl w_parts].
  destruct (decide (j' = j)) as [->|Hne].
  - rewrite Hj in Hj'. injection Hj' as <- <- <-. exists ps. rewrite list_lookup_alter_eq, Hj. done.
  - exists ps'. rewrite list_lookup_alter_ne by done. done.
Qed.

Lemma answer_not_sent a : ~ sent (answer_state a).
Proof. destruct a; intros []. Qed.

Section Published.
Context (H : list (nat * obj_descriptor)).
Context (Hcomp : compatible mv (map (fun so => key (snd so)) H))
  (Hpub : Forall (fun so => publishable dom (snd so)) H).

Lemma serve_winv st j :
  winv H st -> exists st', serve st j = Some st' /\ winv H st' /\ progress st st' /\
    forall k r ps, w_parts st' !! j = Some (mkPart k r ps) -> ~ sent ps.
Proof.
  intros Hw. unfold serve.
  destruct (w_parts st !! j) as [[k r [|ref q tab id|l]]|] eqn:Ej;
    [|exists st; split; [done|]; split; [done|]; split; [apply progress_refl|]; intros k' r' ps Hj;
      rewrite Ej in Hj; injection Hj as _ _ <-; by intros []..|].
  2: { exists st; split; [done|]; split; [done|]; split; [apply progress_refl|]. intros k' r' ps Hj. congruence. }
  destruct (wi_parts _ _ Hw _ _ _ _ Ej) as (ca & sv & Hca & Hr & _). rewrite Hca, Hr. cbn [mbind option_bind].
  destruct (wi_calls _ _ Hw _ _ Hca) as (Hq & Hgd & _). pose proof (ci_good _ _ _ _ _ _ (wi_cl _ _ Hw) _ _ Hr) as Hg.
  assert (Hlt : (r < N)%nat) by (rewrite <- (ci_length _ _ _ _ _ _ (wi_cl _ _ Hw)); by eapply lookup_lt_Some).
  unfold odsc_internal_rpc. rewrite (lookup_default G ss mv r sv _ Hg Hgd). cbn [mbind option_bind].
  rewrite (route_none G ss mv r sv _ _ Hg). cbn [mbind option_bind].
  destruct (answer_local_waits H r sv (ca_q ca) Hg Hlt (inv_holding H _ r sv (wi_cl _ _ Hw) Hr) Hcomp Hpub Hq (wi_subs _ _ Hw r sv Hr))
    as (sv' & a & -> & Hg' & Hk & Hev & Hok & Hid). cbn [mbind option_bind].
  eexists. split; [reflexivity|]. split; [|split].
  - apply (part_winv H st j k r ca sv sv' P_sent _ (fun _ => False)); try done; [by intros ? ? _ _ []|].
    intros ref q tab id Ha. destruct a as [l|ref' q' tab' id']; [done|]. injection Ha as -> -> -> ->.
    by rewrite (Hid _ _ _ _ eq_refl).
  - apply (progress_part st j k r P_sent); [done|apply answer_not_sent|done|apply app_nil_r].
  - intros k' r' ps [(_ & p0 & _ & Heq)|(Hne & _)]%lookup_set_part; [|done].
    injection Heq as _ _ ->. apply answer_not_sent.
Qed.

(** Every point of the query has been published. *)
Definition covered (q : obj_descriptor) : Prop :=
  forall p, in_box p (od_bb q) -> in_box p dom -> exists so, so ∈ H /\
    obj_desc_equals_intersect (snd so) q = true /\ in_box p (od_bb (snd so)).

Lemma covered_found c r Hr sv q :
  cl_inv N G ss mv H c -> cl_servers c !! r = Some sv -> quiet c -> covered q ->
  @uncovered (counter r Hr) (od_bb q) (cell_boxes (found sv q)) = [].
Proof.
  intros Hi Hsv Hquiet Hcov.
  assert (Hrest : at_rest G ss mv H r sv).
  { split; [by eapply ci_good|]. pose proof (ci_index _ _ _ _ _ _ Hi r sv Hsv) as Hx.
    by rewrite (pending_quiet c r Hquiet), app_nil_r in Hx. }
  apply length_zero_iff_nil, (proj2 (@length_uncovered_zero (counter r Hr) _ _)).
  apply (found_points G ss mv H r sv q Hrest). intros p Hp Ho.
  destruct (Hcov p Hp) as (so & Hso & Hm & Hps); [by apply (owned_in_domain N ss dom Hdom HN HN' Halloc p r)|].
  exists so. split; [done|]. split; [|done]. unfold holder. rewrite Forall_forall in Hpub. destruct (Hpub so Hso) as [_ Hd].
  by rewrite (owner_responsible N ss dom Hdom HN HN' Halloc p r _ Ho Hps Hd).
Qed.

Lemma resume_winv st j :
  winv H st -> exists st', resume st j = Some st' /\ winv H st' /\ progress st st' /\
    forall k r ps ca, w_parts st !! j = Some (mkPart k r ps) -> ~ sent ps -> w_calls st !! k = Some ca ->
      quiet (w_cl st) -> covered (ca_q ca) -> exists l, w_parts st' !! j = Some (mkPart k r (P_done l)).
Proof.
  intros Hw. unfold resume.
  destruct (w_parts st !! j) as [[k r [|ref q tab id|l]]|] eqn:Ej;
    [| |exists st; split; [done|]; split; [done|]; split; [apply progress_refl|]..].
  - exists st; split; [done|]; split; [done|]; split; [apply progress_refl|].
    intros k' r' ps ca [= <- <- <-] Hs. by destruct Hs.
  - destruct (wi_parts _ _ Hw _ _ _ _ Ej) as (ca & sv & Hca & Hr & -> & -> & Hwt). rewrite Hr. cbn [mbind option_bind].
    destruct (wi_calls _ _ Hw _ _ Hca) as (Hq & _). pose proof (ci_good _ _ _ _ _ _ (wi_cl _ _ Hw) _ _ Hr) as Hg.
    destruct (resume_waits H r sv (ca_q ca) id tab Hg (inv_holding H _ r sv (wi_cl _ _ Hw) Hr) Hpub Hq (wi_subs _ _ Hw r sv Hr) Hwt)
      as [((Hlt & Hu) & ->)|(sv' & l & -> & Hg' & Hk & Hev & Hans)]; cbn [mbind option_bind].
    + exists st. split; [done|]. split; [done|]. split; [apply progress_refl|].
      intros k' r' ps ca' [= <- <- <-] _ Hca' Hquiet Hcov. rewrite Hca in Hca'. injection Hca' as <-.
      destruct Hu. by apply (covered_found (w_cl st)); [apply Hw|..].
    + eexists. split; [reflexivity|]. split; [|split].
      * apply (part_winv H st j k r ca sv sv' (P_wait SR_default (ca_q ca) tab id) _ (eq id)); try done.
        intros j' id' Hne Hwait <-. apply Hne, (wi_ids _ _ Hw j' j r id Hwait). by exists k, SR_default, (ca_q ca), tab.
      * apply (progress_part st j k r (P_wait SR_default (ca_q ca) tab id)); [done|by intros []|done|apply app_nil_r].
      * intros k' r' ps ca' [= <- <- <-] _ _ _ _. exists l. cbn [set_part w_parts set_cl].
        by rewrite list_lookup_alter_eq, Ej.
  - intros k' r' ps ca [= <- <- <-] _ _ _ _. by exists l.
  - done.
Qed.

(** ** A call is finished *)

Lemma call_parts st k p :
  p ∈ List.filter (fun p => (pt_call p =? k)%nat) (w_parts st) <-> p ∈ w_parts st /\ pt_call p = k.
Proof. by rewrite list_elem_of_In, filter_In, <- list_elem_of_In, Nat.eqb_eq. Qed.

Lemma call_answers_spec st k answers :
  call_answers st k = Some answers ->
  (forall a, a ∈ answers -> exists j r, w_parts st !! j = Some (mkPart k r (P_done a))) /\
  (forall j r ps, w_parts st !! j = Some (mkPart k r ps) -> exists a, ps = P_done a /\ a ∈ answers).
Proof.
  unfold call_answers. intros Hm%mapM_Some_1. split.
  - intros a (i & Hi)%list_elem_of_lookup. destruct (Forall2_lookup_r _ _ _ _ _ Hm Hi) as ([k' r ps] & Hp & Ha).
    apply list_elem_of_lookup_2, call_parts in Hp as [(j & Hj)%list_elem_of_lookup Hk]. cbn in Hk, Ha. subst k'.
    exists j, r. destruct ps; try done. by injection Ha as ->.
  - intros j r ps Hj. assert (Hp : mkPart k r ps ∈ List.filter (fun p => (pt_call p =? k)%nat) (w_parts st)).
    { apply call_parts. split; [by eapply list_elem_of_lookup_2|done]. }
    apply list_elem_of_lookup in Hp as (i & Hi). destruct (Forall2_lookup_l _ _ _ _ _ Hm Hi) as (a & Ha & Hs).
    exists a. cbn in Hs. destruct ps; try done. injection Hs as ->. split; [done|]. by eapply list_elem_of_lookup_2.
Qed.

Lemma answers_right st k ca answers :
  winv H st -> w_calls st !! k = Some ca -> call_answers st k = Some answers ->
  right_result H (ca_q ca) (finish_query answers).
Proof.
  intros Hw Hca [Hfrom Hto]%call_answers_spec. destruct (wi_calls _ _ Hw _ _ Hca) as (Hq & _ & Hcov & _).
  destruct (finish_query_spec answers) as (F1 & F2 & F3).
  assert (Hans : forall j r a, w_parts st !! j = Some (mkPart k r (P_done a)) -> answered H r (ca_q ca) a).
  { intros j r a Hj. destruct (wi_parts _ _ Hw _ _ _ _ Hj) as (ca' & sv & Hca' & _ & Hok).
    rewrite Hca in Hca'. by injection Hca' as <-. }
  assert (Hview : forall d, d ∈ finish_query answers -> exists so, so ∈ H /\ is_view (ca_q ca) d (snd so)).
  { intros d (a & Ha & Hd)%F2. destruct (Hfrom a Ha) as (j & r & Hj). by apply (Hans j r a Hj). }
  split; [done|]. intros p Hp Hpd.
  destruct (alloc_v2_cover 0 dom N env_dim ss Hdom HN HN' Halloc p Hpd) as (r & e & Hr & He & b & Hb & Hpb & _).
  assert (Hown : responsible_point ss p r).
  { unfold responsible_point. apply existsb_exists. exists b. rewrite (nth_lookup_Some _ _ _ _ He).
    split; [by apply list_elem_of_In|by apply in_boxb_spec]. }
  destruct (Hcov r) as (j & ps & Hj).
  { apply (in_ranks N ss Hlen). split; [done|]. apply (owner_responsible N ss dom Hdom HN HN' Halloc p r _ Hown Hp). apply Hq. }
  destruct (Hto j r ps Hj) as (a & -> & Ha). destruct (proj2 (Hans j r a Hj) p Hp Hown) as (d & Hd & Hpd').
  destruct (F3 a d Ha Hd) as (d' & (i & Hi)%list_elem_of_lookup & Heq).
  assert (Hp' : in_box p (od_bb d')) by (apply (equals_no_owner_in_box d d'); [by rewrite equals_no_owner_sym|done]).
  exists i. split; [by exists d'|]. intros i2 (d2 & Hi2 & Hp2). apply (F1 i i2 d' d2 Hi Hi2).
  destruct (Hview d') as (so1 & S1 & V1); [by eapply list_elem_of_lookup_2|].
  destruct (Hview d2) as (so2 & S2 & V2); [by eapply list_elem_of_lookup_2|].
  by apply (views_agree mv dom H (ca_q ca) Hcomp Hpub Hq d' d2 so1 so2 p).
Qed.

Lemma respond_winv st k ca res :
  winv H st -> w_calls st !! k = Some ca -> right_result H (ca_q ca) res ->
  winv H (respond k res st) /\
  exists ca', w_calls (respond k res st) !! k = Some ca' /\ ca_q ca' = ca_q ca /\ ca_result ca' = Some res.
Proof.
  intros Hw Hca Hres. unfold respond. rewrite Hca.
  set (f := fun ca => mkCall (ca_kind ca) (ca_q ca) (ca_gdim ca) (Some res)).
  assert (Hl : forall k' ca', alter f k (w_calls st) !! k' = Some ca' -> exists ca0, w_calls st !! k' = Some ca0 /\
    ca_q ca' = ca_q ca0 /\ ca_gdim ca' = ca_gdim ca0 /\ (ca_result ca' = ca_result ca0 \/ k' = k /\ ca_result ca' = Some res)).
  { intros k' ca'. rewrite list_lookup_alter. case_decide as Hk; [|by eauto 10].
    intros (ca0 & H0 & ->)%fmap_Some. subst k'. exists ca0. split_and!; [done..|]. by right. }
  split.
  - split; cbn [w_cl w_calls w_parts]; [apply Hw|apply Hw| |apply Hw|].
    + intros j k' r ps Hj. destruct (wi_parts _ _ Hw _ _ _ _ Hj) as (ca0 & sv & Hca0 & Hr & Hok).
      destruct (decide (k' = k)) as [->|Hne].
      * exists (f ca0), sv. rewrite list_lookup_alter_eq, Hca0. done.
      * exists ca0, sv. by rewrite list_lookup_alter_ne.
    + intros k' ca' (ca0 & H0 & -> & -> & Hr)%Hl. destruct (wi_calls _ _ Hw _ _ H0) as (? & ? & ? & Hr0).
      split_and!; try done. intros res' Hres'. destruct Hr as [Hr|[-> Hr]].
      * apply Hr0. by rewrite <- Hr.
      * rewrite Hca in H0. injection H0 as <-. rewrite Hr in Hres'. by injection Hres' as <-.
  - exists (f ca). cbn [w_calls]. by rewrite list_lookup_alter_eq, Hca.
Qed.

Lemma finish_winv st k :
  winv H st -> winv H (finish st k) /\
  forall ca, w_calls st !! k = Some ca -> call_answers st k <> None ->
    exists ca' res, w_calls (finish st k) !! k = Some ca' /\ ca_q ca' = ca_q ca /\ ca_result ca' = Some res.
Proof.
  intros Hw. unfold finish. destruct (w_calls st !! k) as [ca|] eqn:Ek; [|done].
  destruct ca as [kind q gd [res|]].
  { split; [done|]. intros ca [= <-] _. eexists _, res. by rewrite Ek. }
  destruct (call_answers st k) as [answers|] eqn:Ea; [|by split].
  destruct (respond_winv st k _ (finish_query answers) Hw Ek (answers_right st k _ answers Hw Ek Ea)) as [Hw' (ca' & H1 & H2 & H3)].
  split; [done|]. intros ca [= <-] _. by exists ca', (finish_query answers).
Qed.

(** ** A call arrives *)

(** What [ask] finds at its own server. *)
Lemma start_query_waits r sv q gd :
  good G ss mv r sv -> (r < N)%nat -> holding G ss mv H r sv -> query_box dom q ->
  global_dimension_equal gd G = true -> subs_ok sv ->
  exists sv' self, start_query sv q gd (-1) = Some (sv', [], QS_peers (ranks N ss (od_bb q)) self) /\
    good G ss mv r sv' /\ index_keys sv' = index_keys sv /\ evolves r (fun _ => False) sv sv' /\
    match self with
    | None => ranks N ss (od_bb q) <> []
    | Some (i, a) => part_ok H r sv' q (answer_state a) /\
        (forall ref q' tab id, a = QA_wait ref q' tab id -> id = sv_next sv) /\
        match ranks N ss (od_bb q) with [] => i = 0%nat | l => l !! i = Some r end
    end.
Proof.
  intros Hg Hr Hh Hq Hgd Hsub. unfold start_query, local_responsibility. rewrite (g_remotes _ _ _ _ _ Hg). cbn [negb].
  rewrite (lookup_default G ss mv r sv gd Hg Hgd). cbn [mbind option_bind get_space].
  destruct (hash_ok G ss mv Hss r sv (od_bb q) Hg) as (c & -> & Hc). cbn [mbind option_bind].
  pose proof (good_set_cache G ss mv r sv c Hg Hc) as Hg'. rewrite (ranks_tab N ss Hlen).
  pose proof (ranks_tab N ss Hlen (od_bb q)) as Ht.
  pose proof (self_position_spec r (set_cache c sv) (select_ents (place_hit_v2 (od_bb q)) ss) (g_rank _ _ _ _ _ Hg')) as Hs.
  rewrite Ht in Hs. assert (Hh' : holding G ss mv H r (set_cache c sv)) by (split; [done|apply Hh]).
  destruct (answer_local_waits H r (set_cache c sv) q Hg' Hr Hh' Hcomp Hpub Hq Hsub)
    as (sv' & a & Ha & Hga & Hka & Heva & Hoka & Hida).
  assert (Hans : forall i : nat, ('(sv0, q0, out) ← route_request (set_cache c sv) q gd;
            '(sv1, a) ← answer_local sv0 SR_default q0 (-1);
            Some (sv1, out, QS_peers (ranks N ss (od_bb q)) (Some (i, a))))
          = Some (sv', [], QS_peers (ranks N ss (od_bb q)) (Some (i, a)))).
  { intros i. rewrite (route_none G ss mv r _ q gd Hg'). cbn [mbind option_bind]. by rewrite Ha. }
  destruct (select_ents (place_hit_v2 (od_bb q)) ss) as [|p tab] eqn:Et.
  - eexists _, _. split; [apply Hans|]. split_and!; try done. by rewrite <- Ht.
  - rewrite <- Et in *. destruct (self_position _ _) as [i|].
    + eexists _, _. split; [apply Hans|]. split_and!; try done. destruct (ranks N ss (od_bb q)); [done|exact Hs].
    + eexists _, None. split; [done|]. split; [done|]. split; [done|]. split; [by apply evolves_same|]. by rewrite <- Ht, Et.
Qed.

(** The parts of a call when all are on their way. *)
Definition sent_parts (k r : nat) (peers : list nat) : list part :=
  match peers with
  | [] => [mkPart k r P_sent]
  | _ => map (fun p => mkPart k p P_sent) peers
  end.

Definition new_call (st : wstate) (r : nat) (kind : call_kind) (q : obj_descriptor) (gd : global_dimension) : wstate :=
  mkW (w_cl st) (w_calls st ++ [mkCall kind q gd None])
    (w_parts st ++ sent_parts (length (w_calls st)) r (ranks N ss (od_bb q))) (w_notices st).

Lemma sent_parts_lookup k r peers i p :
  sent_parts k r peers !! i = Some p -> exists r', p = mkPart k r' P_sent /\ (r' = r \/ r' ∈ peers).
Proof.
  unfold sent_parts. destruct peers as [|x l].
  - destruct i; [|done]. intros [= <-]. exists r. auto.
  - intros (r' & -> & Hp)%list_elem_of_lookup_2%list_elem_of_fmap. exists r'. auto.
Qed.

Lemma new_call_winv st r kind q gd :
  winv H st -> (r < N)%nat -> query_box dom q -> global_dimension_equal gd G = true ->
  winv H (new_call st r kind q gd).
Proof.
  intros Hw Hr Hq Hgd. set (k := length (w_calls st)). set (new := sent_parts k r (ranks N ss (od_bb q))).
  assert (Hsplit : forall j p, (w_parts st ++ new) !! j = Some p -> w_parts st !! j = Some p \/
    exists r', p = mkPart k r' P_sent /\ (r' < N)%nat).
  { intros j p [Hj|[_ Hj]]%lookup_app_Some; [by left|right]. apply sent_parts_lookup in Hj as (r' & -> & Hr').
    exists r'. split; [done|]. destruct Hr' as [->|Hr']; [done|]. by apply (in_ranks N ss Hlen) in Hr' as [? _]. }
  split; cbn [new_call w_cl w_calls w_parts]; [apply Hw|apply Hw| | |].
  - intros j k' r' ps [Hj|(r2 & Heq & Hr2)]%Hsplit.
    + destruct (wi_parts _ _ Hw _ _ _ _ Hj) as (ca & sv & Hca & ?). exists ca, sv.
      split; [by apply lookup_app_l_Some|done].
    + injection Heq as -> -> ->. destruct (cl_servers (w_cl st) !! r2) as [sv|] eqn:Er;
        [|apply lookup_ge_None in Er; rewrite (ci_length _ _ _ _ _ _ (wi_cl _ _ Hw)) in Er; lia].
      exists (mkCall kind q gd None), sv. split; [by apply list_lookup_middle|done].
  - assert (Hold : forall j r' id, waiting (w_parts st ++ new) j r' id -> waiting (w_parts st) j r' id).
    { intros j r' id (k' & ref & q' & tab & [Hj|(r2 & Heq & _)]%Hsplit); [by exists k', ref, q', tab|done]. }
    intros j j' r' id H1%Hold H2%Hold. by apply (wi_ids _ _ Hw j j' r' id).
  - intros k' ca [Hca|[Hk Hca]]%lookup_app_Some.
    + destruct (wi_calls _ _ Hw _ _ Hca) as (? & ? & Hcov & ?). split_and!; try done.
      intros r' (j & ps & Hj)%Hcov. exists j, ps. by apply lookup_app_l_Some.
    + apply list_lookup_singleton_Some in Hca as [Hk0 <-]. split_and!; try done. intros r' Hr'.
      apply list_elem_of_lookup in Hr' as (i & Hi). exists (length (w_parts st) + i)%nat, P_sent.
      replace k' with k by (unfold k; lia). rewrite lookup_app_r, Nat.add_comm, Nat.add_sub by lia.
      unfold new, sent_parts. destruct (ranks N ss (od_bb (ca_q (mkCall kind q gd None)))) as [|x l] eqn:El; [done|].
      cbn [ca_q] in El. rewrite El. by rewrite list_lookup_fmap, Hi.
Qed.

(** The parts [ask] makes: all on their way, then its own one advances. *)
Lemma own_parts k peers self :
  imap (fun i p => mkPart k p (own_state self i)) peers
  = match self with
    | Some (i, a) => alter (fun p => mkPart (pt_call p) (pt_peer p) (answer_state a)) i (map (fun p => mkPart k p P_sent) peers)
    | None => map (fun p => mkPart k p P_sent) peers
    end.
Proof.
  apply list_eq. intros j. rewrite list_lookup_imap. destruct self as [[i a]|]; cbn [own_state].
  - rewrite list_lookup_alter. case_decide as Hj; rewrite list_lookup_fmap.
    + subst j. rewrite Nat.eqb_refl. by destruct (peers !! i).
    + rewrite (proj2 (Nat.eqb_neq j i)) by congruence. by destruct (peers !! j).
  - rewrite list_lookup_fmap. by destruct (peers !! j).
Qed.

Lemma ask_winv st r kind q gd :
  winv H st -> (r < N)%nat -> query_box dom q -> global_dimension_equal gd G = true ->
  exists st', ask st r kind q gd = Some st' /\ winv H st' /\ w_notices st' = w_notices st /\
    w_calls st' = w_calls st ++ [mkCall kind q gd None].
Proof.
  intros Hw Hr Hq Hgd. unfold ask.
  destruct (cl_servers (w_cl st) !! r) as [sv|] eqn:Er;
    [|apply lookup_ge_None in Er; rewrite (ci_length _ _ _ _ _ _ (wi_cl _ _ Hw)) in Er; lia].
  destruct (start_query_waits r sv q gd (ci_good _ _ _ _ _ _ (wi_cl _ _ Hw) _ _ Er) Hr (inv_holding H _ r sv (wi_cl _ _ Hw) Er)
    Hq Hgd (wi_subs _ _ Hw r sv Er)) as (sv' & self & -> & Hg' & Hk & Hev & Hself). cbn [mbind option_bind].
  eexists. split; [reflexivity|]. split; [|done].
  pose proof (new_call_winv st r kind q gd Hw Hr Hq Hgd) as Hn. set (k := length (w_calls st)) in *.
  rewrite own_parts. destruct self as [[i a]|].
  - assert (Hnew : forall parts, alter (fun p => mkPart (pt_call p) (pt_peer p) (answer_state a)) i (sent_parts k r (ranks N ss (od_bb q))) = parts ->
      sent_parts k r (ranks N ss (od_bb q)) !! i = Some (mkPart k r P_sent) ->
      winv H (mkW (replace_server (w_cl st) r sv' []) (w_calls st ++ [mkCall kind q gd None]) (w_parts st ++ parts) (w_notices st))).
    { intros parts <- Hi. destruct Hself as (Hok & Hid & _).
      pose proof (part_winv H (new_call st r kind q gd) (length (w_parts st) + i) k r (mkCall kind q gd None) sv sv'
        P_sent (answer_state a) (fun _ => False) Hn) as Hpw.
      unfold set_part, set_cl, new_call in Hpw. cbn [w_cl w_calls w_parts w_notices] in Hpw. fold k in Hpw.
      rewrite alter_app_r in Hpw. apply Hpw; try done.
      - rewrite lookup_app_r, Nat.add_comm, Nat.add_sub by lia. exact Hi.
      - by apply list_lookup_middle.
      - by intros ? ? _ _ [].
      - intros ref q' tab id Ha. destruct a as [l|ref' q2 tab' id']; [done|]. injection Ha as -> -> -> ->.
        by rewrite (Hid _ _ _ _ eq_refl). }
    destruct Hself as (_ & _ & Hi). destruct (ranks N ss (od_bb q)) as [|x l] eqn:El.
    + subst i. by apply Hnew.
    + apply Hnew; [done|]. unfold sent_parts. rewrite list_lookup_fmap, Hi. done.
  - assert (Hp : sent_parts k r (ranks N ss (od_bb q)) = map (fun p => mkPart k p P_sent) (ranks N ss (od_bb q))).
    { by destruct (ranks N ss (od_bb q)). }
    pose proof (cluster_winv H [] _ (replace_server (w_cl st) r sv' []) Hn) as Hcw. rewrite app_nil_r in Hcw.
    destruct (ranks N ss (od_bb q)) as [|x l] eqn:El; [done|]. rewrite <- Hp, <- El.
    apply Hcw; [by apply (inv_same H _ r sv), Hk; [apply Hw|..]|].
    intros r2 sv2 Hr2. cbn [replace_server cl_servers]. destruct (decide (r2 = r)) as [->|Hne].
    + exists sv'. cbn [new_call w_cl] in Hr2. rewrite Er in Hr2. injection Hr2 as <-.
      split; [apply list_lookup_insert_eq; by eapply lookup_lt_Some|done].
    + exists sv2. rewrite list_lookup_insert_ne by done. split; [done|]. by apply evolves_same.
Qed.

(** ** Settling *)

Lemma wrun_app st acts1 acts2 : wrun st (acts1 ++ acts2) = st' ← wrun st acts1; wrun st' acts2.
Proof.
  unfold wrun. rewrite foldl_app.
  assert (Hn : forall acts, foldl (fun st a => st ← st; wstep st a) None acts = None) by (by induction acts).
  destruct (foldl _ (Some st) acts1); [done|apply Hn].
Qed.

Lemma wrun_cons st a acts : wrun st (a :: acts) = st' ← wstep st a; wrun st' acts.
Proof. apply (wrun_app st [a] acts). Qed.

Lemma progress_done st st' j k r l :
  progress st st' -> w_parts st !! j = Some (mkPart k r (P_done l)) -> w_parts st' !! j = Some (mkPart k r (P_done l)).
Proof. intros (_ & _ & _ & Hp) Hj. destruct (Hp _ _ _ _ Hj) as (ps' & Hj' & _ & Hd). by rewrite (Hd l eq_refl) in Hj'. Qed.

Lemma advance_winv st j :
  winv H st -> exists st', wrun st (advance j) = Some st' /\ winv H st' /\ progress st st' /\
    forall k r ps ca, w_parts st !! j = Some (mkPart k r ps) -> w_calls st !! k = Some ca ->
      quiet (w_cl st) -> covered (ca_q ca) -> exists l, w_parts st' !! j = Some (mkPart k r (P_done l)).
Proof.
  intros Hw. destruct (serve_winv st j Hw) as (st1 & E1 & Hw1 & Hp1 & Hs1).
  destruct (resume_winv st1 j Hw1) as (st2 & E2 & Hw2 & Hp2 & Hs2).
  exists st2. unfold advance. rewrite wrun_cons. cbn [wstep]. rewrite E1. cbn [mbind option_bind].
  rewrite wrun_cons. cbn [wstep]. rewrite E2. split; [done|]. split; [done|]. split; [by eapply progress_trans|].
  intros k r ps ca Hj Hca Hquiet Hcov. destruct Hp1 as (Hn1 & Hc1 & _ & Hl1). destruct (Hl1 _ _ _ _ Hj) as (ps1 & Hj1 & _).
  apply (Hs2 k r ps1 ca); [done|by apply (Hs1 k r)|by rewrite Hc1|unfold quiet in *; by rewrite Hn1|done].
Qed.

Lemma advance_all js : forall st,
  winv H st -> quiet (w_cl st) -> exists st', wrun st (flat_map advance js) = Some st' /\ winv H st' /\ progress st st' /\
    forall j k r ps ca, In j js -> w_parts st !! j = Some (mkPart k r ps) -> w_calls st !! k = Some ca ->
      covered (ca_q ca) -> exists l, w_parts st' !! j = Some (mkPart k r (P_done l)).
Proof.
  induction js as [|j js IH]; intros st Hw Hquiet.
  { exists st. split; [done|]. split; [done|]. split; [apply progress_refl|done]. }
  destruct (advance_winv st j Hw) as (st1 & E1 & Hw1 & Hp1 & Hd1).
  destruct (IH st1 Hw1) as (st2 & E2 & Hw2 & Hp2 & Hd2).
  { unfold quiet in *. destruct Hp1 as (-> & _). done. }
  exists st2. cbn [flat_map]. rewrite wrun_app, E1. cbn [mbind option_bind]. split; [done|]. split; [done|].
  split; [by eapply progress_trans|]. intros j' k r ps ca [<-|Hin] Hj Hca Hcov.
  - destruct (Hd1 k r ps ca Hj Hca Hquiet Hcov) as (l & Hl). exists l. by eapply progress_done.
  - destruct Hp1 as (_ & Hc1 & _ & Hl1). destruct (Hl1 _ _ _ _ Hj) as (ps1 & Hj1 & _).
    apply (Hd2 j' k r ps1 ca); [done..|by rewrite Hc1|done].
Qed.

Lemma call_answers_done st k :
  (forall j r ps, w_parts st !! j = Some (mkPart k r ps) -> exists l, ps = P_done l) -> call_answers st k <> None.
Proof.
  intros Hd. unfold call_answers. apply not_eq_None_Some, mapM_is_Some_2, Forall_forall.
  intros [k' r ps] [(j & Hj)%list_elem_of_lookup Hk]%call_parts. cbn in Hk. subst k'.
  destruct (Hd j r ps Hj) as (l & ->). by exists l.
Qed.

Lemma deliver_winv n : forall st,
  winv H st -> length (cl_net (w_cl st)) = n ->
  exists st', wrun st (map W_event (replicate n (E_deliver 0))) = Some st' /\ winv H st' /\
    cl_net (w_cl st') = [] /\ w_calls st' = w_calls st /\ w_parts st' = w_parts st.
Proof.
  induction n as [|n IH]; intros st Hw Hn.
  { exists st. split; [done|]. split; [done|]. split; [by apply nil_length_inv|done]. }
  destruct (event_winv H st (E_deliver 0) Hw I) as (c' & Hs & Hw'); [by cbn; rewrite app_nil_r..|].
  cbn [published_by] in Hw'. rewrite app_nil_r in Hw'.
  destruct (IH (set_cl c' st) Hw') as (st' & Hrun & Hres).
  { cbn [set_cl w_cl]. rewrite (deliver_net _ _ _ _ _ _ _ _ (wi_cl _ _ Hw) Hs).
    destruct (cl_net (w_cl st)); [done|]. simpl in *. lia. }
  exists st'. cbn [replicate map]. rewrite wrun_cons. cbn [wstep]. rewrite Hs. split; [exact Hrun|exact Hres].
Qed.

Lemma settle_winv st k ca :
  winv H st -> w_calls st !! k = Some ca -> covered (ca_q ca) ->
  exists st' ca' res, wrun st (settle k st) = Some st' /\ w_calls st' !! k = Some ca' /\
    ca_q ca' = ca_q ca /\ ca_result ca' = Some res /\ right_result H (ca_q ca) res.
Proof.
  intros Hw Hca Hcov. unfold settle. rewrite wrun_app.
  destruct (deliver_winv _ st Hw eq_refl) as (st1 & -> & Hw1 & Hnil & Hc1 & Hp1). cbn [mbind option_bind].
  rewrite wrun_app. destruct (advance_all (seq 0 (length (w_parts st))) st1 Hw1) as (st2 & -> & Hw2 & Hp2 & Hd2).
  { unfold quiet. by rewrite Hnil. }
  cbn [mbind option_bind]. rewrite wrun_cons. cbn [wstep mbind option_bind].
  pose proof Hp2 as (_ & Hc2 & [Hlen2 _] & Hl2). rewrite <- Hc1, <- Hc2 in Hca.
  destruct (finish_winv st2 k Hw2) as [Hw3 Hres]. destruct (Hres ca Hca) as (ca' & res & Hca' & Hq & Hr).
  - apply call_answers_done. intros j r ps Hj. pose proof (lookup_lt_Some _ _ _ Hj) as Hlt.
    rewrite Hlen2 in Hlt. destruct (lookup_lt_is_Some_2 (w_parts st1) j Hlt) as [[k0 r0 ps0] Hj1].
    destruct (Hl2 _ _ _ _ Hj1) as (ps1 & Hj2 & _). rewrite Hj in Hj2. injection Hj2 as -> -> ->.
    rewrite Hc2 in Hca. destruct (Hd2 j k0 r0 ps0 ca) as (l & Hl); [|done..|].
    + apply in_seq. rewrite <- Hp1. lia.
    + rewrite Hj in Hl. injection Hl as ->. by exists l.
  - exists (finish st2 k), ca', res. split_and!; try done. rewrite <- Hq. by apply (wi_calls _ _ Hw3 k ca' Hca').
Qed.

End Published.

(** ** Runs with calls *)

(** The calls, too, address a server and ask in the default space. *)
Definition action_ok (a : action) : Prop :=
  match a with
  | W_event e => event_ok N G e
  | W_ask r _ q gd => (r < N)%nat /\ query_box dom q /\ global_dimension_equal gd G = true
  | _ => True
  end.

Definition call_key (ca : call) : call_kind * obj_descriptor := (ca_kind ca, ca_q ca).

(** The books: a call for every request, a notice for every answered
    subscription. *)
Definition books_ok (acts : list action) (st : wstate) : Prop :=
  map call_key (w_calls st) = asks acts /\ w_notices st ≡ₚ omap notice_of (w_calls st).

Lemma respond_books acts st k ca res :
  w_calls st !! k = Some ca -> ca_result ca = None -> books_ok acts st -> books_ok acts (respond k res st).
Proof.
  intros Hca Hnone [Hk Hn]. unfold respond. rewrite Hca. set (f := fun ca => mkCall _ _ _ _).
  assert (Hs : w_calls st = take k (w_calls st) ++ ca :: drop (S k) (w_calls st)) by (symmetry; by apply take_drop_middle).
  assert (Ha : alter f k (w_calls st) = take k (w_calls st) ++ f ca :: drop (S k) (w_calls st)).
  { pose proof (lookup_lt_Some _ _ _ Hca). rewrite Hs at 1.
    rewrite alter_app_r_alt by (rewrite length_take; lia).
    by replace (k - length (take k (w_calls st)))%nat with 0%nat by (rewrite length_take; lia). }
  split; cbn [w_calls w_notices].
  - rewrite Ha, map_app. cbn [map]. change (call_key (f ca)) with (call_key ca).
    rewrite <- Hk. rewrite Hs at 3. by rewrite map_app.
  - assert (H1 : notice_of ca = None) by (unfold notice_of; rewrite Hnone; by destruct (ca_kind ca)).
    assert (Hcons : forall x l, omap notice_of (x :: l) = match notice_of x with Some y => [y] | None => [] end ++ omap notice_of l).
    { intros x l. cbn. by destruct (notice_of x). }
    rewrite Hn, Ha. rewrite Hs at 1. rewrite !omap_app, !Hcons, H1. unfold notice_of at 4. cbn [f ca_kind ca_q ca_result].
    destruct (ca_kind ca); cbn [app]; [by rewrite app_nil_r|solve_Permutation].
Qed.

Lemma finish_books acts st k : books_ok acts st -> books_ok acts (finish st k).
Proof.
  intros Hb. unfold finish. destruct (w_calls st !! k) as [[kind q gd [res|]]|] eqn:Ek; [done| |done].
  destruct (call_answers st k); [|done]. by eapply respond_books.
Qed.

(** Every step is defined and keeps the invariant. *)
Lemma wstep_winv H st a acts :
  winv H st -> books_ok acts st -> action_ok a ->
  compatible mv (map (fun so => key (snd so)) (H ++ wputs [a])) ->
  Forall (fun so => publishable dom (snd so)) (H ++ wputs [a]) ->
  exists st', wstep st a = Some st' /\ winv (H ++ wputs [a]) st' /\ books_ok (acts ++ [a]) st'.
Proof.
  intros Hw Hb Ha. unfold books_ok, asks, wputs. cbn [flat_map]. rewrite !flat_map_app, !app_nil_r. fold (asks acts).
  destruct a as [e|r kind q gd|j|j|k]; cbn [wstep flat_map app]; rewrite ?app_nil_r; intros Hc Hp.
  - destruct (event_winv H st e Hw Ha Hc Hp) as (c' & -> & Hw'). cbn [mbind option_bind]. eexists. split; [done|]. by split.
  - destruct Ha as (Hr & Hq & Hgd). destruct (ask_winv H Hc Hp st r kind q gd Hw Hr Hq Hgd) as (st' & -> & Hw' & Hno & Hca).
    exists st'. split; [done|]. split; [done|]. destruct Hb as [Hk Hn]. rewrite Hno, Hca, map_app, Hk, omap_app.
    split; [done|]. rewrite Hn. unfold notice_of at 3. cbn. destruct kind; cbn; by rewrite app_nil_r.
  - destruct (serve_winv H Hc Hp st j Hw) as (st' & Hs & Hw' & (_ & Hcalls & [_ Hno] & _) & _). rewrite Hs. exists st'.
    split; [done|]. split; [done|]. by rewrite Hno, Hcalls.
  - destruct (resume_winv H Hp st j Hw) as (st' & Hs & Hw' & (_ & Hcalls & [_ Hno] & _) & _). rewrite Hs. exists st'.
    split; [done|]. split; [done|]. by rewrite Hno, Hcalls.
  - eexists. split; [done|]. split; [by apply finish_winv|]. destruct (finish_books acts st k Hb). by split.
Qed.

Lemma wrun_winv acts : forall H done st,
  winv H st -> books_ok done st -> Forall action_ok acts ->
  compatible mv (map (fun so => key (snd so)) (H ++ wputs acts)) ->
  Forall (fun so => publishable dom (snd so)) (H ++ wputs acts) ->
  exists st', wrun st acts = Some st' /\ winv (H ++ wputs acts) st' /\ books_ok (done ++ acts) st'.
Proof.
  induction acts as [|a acts IH]; intros H done st Hw Hb Ha Hc Hp.
  { exists st. rewrite !app_nil_r. done. }
  apply Forall_cons in Ha as [Ha1 Ha].
  assert (Hcons : wputs (a :: acts) = wputs [a] ++ wputs acts) by (unfold wputs; by rewrite <- flat_map_app).
  rewrite Hcons, app_assoc in *. destruct (wstep_winv H st a done Hw Hb Ha1) as (st1 & Hs & Hw1 & Hb1).
  { rewrite map_app in Hc. by apply compatible_app_l in Hc. }
  { by apply Forall_app in Hp as [Hp _]. }
  rewrite wrun_cons, Hs. cbn [mbind option_bind]. destruct (IH _ _ st1 Hw1 Hb1 Ha Hc Hp) as (st2 & Hr & Hw2 & Hb2).
  exists st2. split; [done|]. split; [done|]. by rewrite <- app_assoc in Hb2.
Qed.

End Servers.

(** ** Main results *)

Section Main.
Context `{E : Env} (N : nat) (addr : nat -> string) (conf : ds_conf) (tokens : Z).

Definition wstart (c : cluster) : wstate := mkW c [] [] [].

Lemma wstart_winv ss :
  conf_ok N conf -> ssd_alloc_v2 0 (conf_domain conf) N env_dim = Some ss ->
  forall Hdom HN HN' Halloc Hss,
  winv N (conf_gdim conf) ss (conf_max_versions conf) (conf_domain conf) Hdom HN HN' Halloc Hss []
    (wstart (mkCluster (map (first_server N addr conf tokens ss) (seq 0 N)) [])).
Proof.
  intros Hconf Ha Hdom HN HN' Halloc Hss. split; cbn [wstart w_cl w_calls w_parts].
  - by apply start_inv.
  - intros r sv. cbn [cl_servers]. rewrite list_lookup_fmap. intros (r' & _ & ->)%fmap_Some.
    unfold subs_ok, sub_ids, all_subs, de_of. cbn [first_server sv_default sp_dht dht_entry_alloc d_done dht_subs].
    rewrite concat_replicate_nil. split; constructor.
  - intros j k r ps Hj. by rewrite lookup_nil in Hj.
  - intros j j' r id (k & ref & q & tab & Hj). by rewrite lookup_nil in Hj.
  - intros k ca Hk. by rewrite lookup_nil in Hk.
Qed.

(** C4: A query that waits, or a subscription, is never answered wrongly.
    [N] servers are started and take requests, deliveries, waiting calls and
    the steps of the calls in progress in any order, with publications that do
    not compete.  No handler fails; every answer given consists of the parts
    of published descriptors inside the query and contains every point of the
    query inside the domain exactly once, so a call is not answered before
    all of its points have been published; and the notices sent are one per
    answered subscription, to its owner, with its identifier and its
    answer. *)
Theorem waiting_calls_sound c0 acts :
  conf_ok N conf -> start N addr conf tokens = Some c0 ->
  Forall (action_ok N (conf_gdim conf) (conf_domain conf)) acts ->
  compatible (conf_max_versions conf) (map (fun so => key (snd so)) (wputs acts)) ->
  Forall (fun so => publishable (conf_domain conf) (snd so)) (wputs acts) ->
  exists st, wrun (wstart c0) acts = Some st /\
    map call_key (w_calls st) = asks acts /\
    (forall k ca res, w_calls st !! k = Some ca -> ca_result ca = Some res ->
       right_result (conf_domain conf) (wputs acts) (ca_q ca) res) /\
    w_notices st ≡ₚ omap notice_of (w_calls st).
Proof.
  intros Hconf Hstart Ha Hc Hp. destruct (start_ok N addr conf tokens Hconf) as (ss & Halloc & Hstart').
  rewrite Hstart in Hstart'. injection Hstart' as ->. pose proof Hconf as (_ & Hd & HN & HN' & _).
  destruct (rest_shape N ss _ Hd HN HN' Halloc) as [Hlen Hss].
  destruct (wrun_winv N (conf_gdim conf) ss _ _ Hd HN HN' Halloc Hlen Hss acts [] [] _
    (wstart_winv ss Hconf Halloc Hd HN HN' Halloc Hss)) as (st & Hrun & Hw & Hk & Hn); [done..|].
  exists st. split; [exact Hrun|]. split; [done|]. split; [|done]. intros k ca res Hca Hres.
  by apply (wi_calls _ _ _ _ _ _ _ _ _ _ _ _ Hw k ca Hca).
Qed.

(** C3: A waiting call whose points have been published is answered.  In every
    state such a run reaches, for every call all of whose points inside the
    domain are covered by descriptors published so far with its name and
    version, delivering the messages in flight, serving the requests on their
    way and looking at each waiter once answers it, with every point exactly
    once; waiting never loses a publication that arrived before, during or
    after the request. *)
Theorem waiting_calls_complete c0 acts st k ca :
  conf_ok N conf -> start N addr conf tokens = Some c0 ->
  Forall (action_ok N (conf_gdim conf) (conf_domain conf)) acts ->
  compatible (conf_max_versions conf) (map (fun so => key (snd so)) (wputs acts)) ->
  Forall (fun so => publishable (conf_domain conf) (snd so)) (wputs acts) ->
  wrun (wstart c0) acts = Some st -> w_calls st !! k = Some ca ->
  (forall p, in_box p (od_bb (ca_q ca)) -> in_box p (conf_domain conf) -> exists so, so ∈ wputs acts /\
     obj_desc_equals_intersect (snd so) (ca_q ca) = true /\ in_box p (od_bb (snd so))) ->
  exists st' ca' res, wrun st (settle k st) = Some st' /\ w_calls st' !! k = Some ca' /\
    ca_q ca' = ca_q ca /\ ca_result ca' = Some res /\
    right_result (conf_domain conf) (wputs acts) (ca_q ca) res.
Proof.
  intros Hconf Hstart Ha Hc Hp Hrun Hca Hcov. destruct (start_ok N addr conf tokens Hconf) as (ss & Halloc & Hstart').
  rewrite Hstart in Hstart'. injection Hstart' as ->. pose proof Hconf as (_ & Hd & HN & HN' & _).
  destruct (rest_shape N ss _ Hd HN HN' Halloc) as [Hlen Hss].
  destruct (wrun_winv N (conf_gdim conf) ss _ _ Hd HN HN' Halloc Hlen Hss acts [] [] _
    (wstart_winv ss Hconf Halloc Hd HN HN' Halloc Hss)) as (st2 & Hrun2 & Hw & _); [done..|].
  rewrite Hrun in Hrun2. injection Hrun2 as <-.
  by apply (settle_winv N (conf_gdim conf) ss _ _ Hd HN HN' Halloc Hlen Hss (wputs acts) Hc Hp).
Qed.

End Main.

(** ** Concrete inputs *)

#[local] Existing Instance demo_env.

Definition demo_addr (r : nat) : string := "addr".

(** A query and a subscription arrive before the two halves are put. *)
Definition demo_actions : list action :=
  [W_ask 2 CK_query (demo_odsc "u" 3 (box2 1 0 6 4)) demo_gdim;
   W_serve 1;
   W_event (E_put 0 (demo_odsc "u" 3 (box2 0 0 3 4)) demo_gdim []);
   W_ask 0 (CK_sub 7) (demo_odsc "u" 3 (box2 2 0 5 4)) demo_gdim;
   W_event (E_deliver 0);
   W_serve 0; W_resume 1;
   W_event (E_put_local 1 (demo_odsc "u" 3 (box2 4 0 7 4)) demo_gdim);
   W_finish 0].

(** What has been answered, and the notices. *)
Definition demo_view (st : wstate) : list (option nat) * nat :=
  (map (fun ca => option_map length (ca_result ca)) (w_calls st), length (w_notices st)).

(** Both calls wait, and settle with two results each and one notice. *)
Example demo_waits :
  (c0 ← start 3 demo_addr demo_conf 1; st ← wrun (wstart c0) demo_actions; Some (demo_view st))
  = Some ([None; None], 0%nat).
Proof. vm_compute. reflexivity. Qed.

Example demo_settles :
  (c0 ← start 3 demo_addr demo_conf 1; st ← wrun (wstart c0) demo_actions;
   st ← wrun st (settle 0 st); st ← wrun st (settle 1 st); Some (demo_view st))
  = Some ([Some 2; Some 2], 1)%nat.
Proof. vm_compute. reflexivity. Qed.

Lemma demo_actions_ok : Forall (action_ok 3 (conf_gdim demo_conf) (conf_domain demo_conf)) demo_actions.
Proof.
  assert (Hq1 : query_box (conf_domain demo_conf) (demo_odsc "u" 3 (box2 1 0 6 4))).
  { split; [apply box2_valid; lia|]. split; [reflexivity|vm_compute; reflexivity]. }
  assert (Hq2 : query_box (conf_domain demo_conf) (demo_odsc "u" 3 (box2 2 0 5 4))).
  { split; [apply box2_valid; lia|]. split; [reflexivity|vm_compute; reflexivity]. }
  repeat (apply Forall_cons; split); try apply Forall_nil_2; cbn [action_ok event_ok]; try exact I;
    (split; [lia|]); (split; [exact Hq1 || exact Hq2 || reflexivity|reflexivity]).
Qed.

Lemma demo_wputs : wputs demo_actions = puts demo_events.
Proof. reflexivity. Qed.

Lemma demo_publishable : Forall (fun so => publishable (conf_domain demo_conf) (snd so)) (wputs demo_actions).
Proof.
  apply Forall_cons. split; [|apply Forall_cons; split; [|apply Forall_nil_2]];
    (split; [apply box2_domain_ok; lia|reflexivity]).
Qed.

Lemma waiting_calls_sound_witness :
  exists c0 st, start 3 demo_addr demo_conf 1 = Some c0 /\ wrun (wstart c0) demo_actions = Some st /\
    map call_key (w_calls st) = asks demo_actions /\ w_notices st ≡ₚ omap notice_of (w_calls st).
Proof.
  destruct (start 3 demo_addr demo_conf 1) as [c0|] eqn:E0; [|vm_compute in E0; discriminate E0].
  destruct (waiting_calls_sound 3 demo_addr demo_conf 1 c0 demo_actions demo_conf_ok E0 demo_actions_ok
              demo_compatible demo_publishable) as (st & H1 & H2 & _ & H3).
  exists c0, st. split; [reflexivity|]. split; [exact H1|]. split; [exact H2|exact H3].
Defined.

Lemma waiting_calls_complete_witness :
  exists c0 st st' ca' res, start 3 demo_addr demo_conf 1 = Some c0 /\ wrun (wstart c0) demo_actions = Some st /\
    wrun st (settle 0 st) = Some st' /\ w_calls st' !! 0%nat = Some ca' /\ ca_result ca' = Some res /\
    right_result (conf_domain demo_conf) (wputs demo_actions) (demo_odsc "u" 3 (box2 1 0 6 4)) res.
Proof.
  destruct (start 3 demo_addr demo_conf 1) as [c0|] eqn:E0; [|vm_compute in E0; discriminate E0].
  destruct (wrun (wstart c0) demo_actions) as [st|] eqn:E1;
    [|vm_compute in E0; injection E0 as <-; vm_compute in E1; discriminate E1].
  destruct (waiting_calls_complete 3 demo_addr demo_conf 1 c0 demo_actions st 0
      (mkCall CK_query (demo_odsc "u" 3 (box2 1 0 6 4)) demo_gdim None)) as (st' & ca' & res & H1 & H2 & H3 & H4 & H5).
  - exact demo_conf_ok.
  - exact E0.
  - exact demo_actions_ok.
  - exact demo_compatible.
  - exact demo_publishable.
  - exact E1.
  - vm_compute in E0. injection E0 as <-. vm_compute in E1. injection E1 as <-. reflexivity.
  - intros p Hp Hd. destruct (demo_cover p 1 6 Hp Hd) as [H|H];
      [exists (0%nat, demo_odsc "u" 3 (box2 0 0 3 4))|exists (1%nat, demo_odsc "u" 3 (box2 4 0 7 4))];
      (split; [apply list_elem_of_In; cbn; tauto|split; [vm_compute; reflexivity|exact H]]).
  - exists c0, st, st', ca', res. split; [reflexivity|]. split; [exact E1|]. split; [exact H1|].
    split; [exact H2|]. split; [exact H4|exact H5].
Defined.
