(* ===== verification/Client.v ===== *)
(** * Client: the client library, puts and gets

    [src/src/dspaces-client.c]: choosing a server, naming variables, the
    descriptors a put or a get sends, the objects a client keeps in its own
    storage until the servers drain them, and the collection of the pieces of
    a query result into the caller's buffer.  Requests in flight and
    subscriptions have files of their own ([PutReqs], [Subs]).

    A call to a server is a parameter of the function that makes it (its
    reply, or how a descriptor is answered); [None] is an undefined
    execution: an access outside an array, a null pointer followed. *)

From Stdlib Require Import Ascii.
From S2P Require Import Prelude BBox ObjDesc Linear Sspace DhtEntry StrHash LocalStorage Matrix Codec Modules Server.

(** ** Outside the client *)

(** [LZ4_decompress_safe]: what it writes to the destination and its result;
    and what uninitialised variables hold: a descriptor with its name array,
    the variable [type] of [dspaces_put_tag]. *)
Class ClientEnv := {
  lz4_decompress : list Z -> Z -> list Z * Z;
  uninit_odsc : obj_descriptor;
  uninit_name : list ascii;
  uninit_type : Z
}.

(** ** Names *)

Definition NUL : ascii := Ascii.zero.
Definition backslash : ascii := Ascii.ascii_of_nat 92.

(** The string an array holds: its bytes before the first terminator. *)
Fixpoint cstr (buf : list ascii) : string :=
  match buf with
  | [] => EmptyString
  | c :: buf => if Ascii.eqb c NUL then EmptyString else String c (cstr buf)
  end.

(** [strncpy(&buf[off], src, n)]: at most [n] bytes, padded to [n]. *)
Definition strncpy (buf : list ascii) (off n : nat) (src : string) : option (list ascii) :=
  if (off + n <=? length buf)%nat
  then Some (take off buf ++ resize n NUL (String.list_ascii_of_string src) ++ drop (off + n) buf)
  else None.

Definition set_char (buf : list ascii) (i : nat) (c : ascii) : option (list ascii) :=
  if (i <? length buf)%nat then Some (<[i := c]> buf) else None.

(** [copy_var_name_to_odsc] on the array [odsc->name]. *)
Definition copy_var_name (nspace : option string) (var_name : string) (buf : list ascii) : option (list ascii) :=
  buf ← match nspace with
        | Some ns =>
            buf ← strncpy buf 0 (OD_MAX_NAME_LEN - 1) ns;
            buf ← set_char buf (String.length ns) backslash;
            strncpy buf (String.length ns + 1) (OD_MAX_NAME_LEN - String.length ns - 1) var_name
        | None => strncpy buf 0 (OD_MAX_NAME_LEN - 1) var_name
        end;
  set_char buf (OD_MAX_NAME_LEN - 1) NUL.

Definition set_name (name : string) (o : obj_descriptor) : obj_descriptor :=
  mkOdsc name (od_st o) (od_flags o) (od_tag o) (od_type o) (od_owner o) (od_version o) (od_bb o) (od_size o).

Definition copy_var_name_to_odsc (nspace : option string) (var_name : string) (raw : list ascii)
    (o : obj_descriptor) : option obj_descriptor :=
  buf ← copy_var_name nspace var_name (resize OD_MAX_NAME_LEN NUL raw);
  Some (set_name (cstr buf) o).

(** The name a variable is meant to have. *)
Definition full_name (nspace : option string) (var_name : string) : string :=
  match nspace with Some ns => (ns ++ String backslash var_name)%string | None => var_name end.

(** ** State *)

(** [struct dspaces_client]: the parts that operations read or change.
    [cl_node] and [cl_nodes] are [my_node_name] and [node_names]; [cl_next]
    numbers the objects it allocates. *)
Record client := mkClient {
  cl_rank : Z;
  cl_node : string;
  cl_nodes : list string;
  cl_my_server : Z;
  cl_addr : string;
  cl_nspace : option string;
  cl_gdims : list gdim_entry;
  cl_default_gdim : global_dimension;
  cl_ls : ss_storage;
  cl_put_count : Z;
  cl_final : bool;
  cl_next : nat
}.

Definition set_local (ls : ss_storage) (count : Z) (next : nat) (c : client) : client :=
  mkClient (cl_rank c) (cl_node c) (cl_nodes c) (cl_my_server c) (cl_addr c) (cl_nspace c) (cl_gdims c)
    (cl_default_gdim c) ls count (cl_final c) next.
Definition set_gdims (l : list gdim_entry) (c : client) : client :=
  mkClient (cl_rank c) (cl_node c) (cl_nodes c) (cl_my_server c) (cl_addr c) (cl_nspace c) l
    (cl_default_gdim c) (cl_ls c) (cl_put_count c) (cl_final c) (cl_next c).
Definition set_final (c : client) : client :=
  mkClient (cl_rank c) (cl_node c) (cl_nodes c) (cl_my_server c) (cl_addr c) (cl_nspace c) (cl_gdims c)
    (cl_default_gdim c) (cl_ls c) (cl_put_count c) true (cl_next c).
Definition set_my_server (i : Z) (c : client) : client :=
  mkClient (cl_rank c) (cl_node c) (cl_nodes c) i (cl_addr c) (cl_nspace c) (cl_gdims c)
    (cl_default_gdim c) (cl_ls c) (cl_put_count c) (cl_final c) (cl_next c).

(** ** Choosing a server *)

(** The second loop: the server reached with [match_count] at zero, else the
    value [my_server] had. *)
Fixpoint attach_loop (node : string) (nodes : list string) (i match_count my_server : Z) : Z :=
  match nodes with
  | [] => my_server
  | x :: nodes =>
      if String.eqb node x then
        if match_count =? 0 then i
        else attach_loop node nodes (i + 1) (match_count - 1) my_server
      else attach_loop node nodes (i + 1) match_count my_server
  end.

(** [None] is the remainder by zero when there is no server. *)
Definition choose_server (c : client) : option client :=
  let match_count := Z.of_nat (length (List.filter (String.eqb (cl_node c)) (cl_nodes c))) in
  if negb (match_count =? 0) then
    Some (set_my_server (attach_loop (cl_node c) (cl_nodes c) 0 (Z.rem (cl_rank c) match_count) (cl_my_server c)) c)
  else
    let size_sp := Z.of_nat (length (cl_nodes c)) in
    if size_sp =? 0 then None else Some (set_my_server (Z.rem (cl_rank c) size_sp) c).

(** ** Global dimensions *)

(** The qualified name of [dspaces_define_gdim] and [dspaces_get_gdim].  The
    buffer has [strlen(nspace + strlen(var_name) + 2)] bytes, a string that
    begins inside [nspace] or past its end; [sprintf] then writes the
    namespace, the backslash, the name and the terminator. *)
Definition gdim_name (c : client) (var_name : string) : option string :=
  match cl_nspace c with
  | None => Some var_name
  | Some ns =>
      let off := (String.length var_name + 2)%nat in
      if (String.length ns <? off)%nat then None
      else
        let size := (String.length ns - off)%nat in
        if (size <? String.length ns + 1 + String.length var_name + 1)%nat then None
        else Some (full_name (Some ns) var_name)
  end.

Definition dspaces_define_gdim (c : client) (var_name : string) (ndim : nat) (gdim : nat -> Z) : option client :=
  fq ← gdim_name c var_name;
  if (BBOX_MAX_NDIM <? ndim)%nat then Some c
  else Some (set_gdims (update_gdim_list (cl_gdims c) fq ndim gdim) c).

Definition dspaces_get_gdim (c : client) (var_name : string) : option (nat * list Z) :=
  fq ← gdim_name c var_name;
  Some (get_global_dimensions (set_global_dimension (cl_gdims c) fq (cl_default_gdim c))).

(** ** Descriptors *)

(** [memset] and [memcpy] of a corner: [ndim] coordinates of the caller's
    array into one of ten. *)
Definition copy_coord (ndim : nat) (l : list Z) : option coord :=
  if (ndim <=? BBOX_MAX_NDIM)%nat && (ndim <=? length l)%nat
  then Some (take ndim l ++ replicate (BBOX_MAX_NDIM - ndim) 0) else None.

(** [static enum storage_type st = column_major]. *)
Definition st : storage_type := column_major.

Definition user_box (ndim : nat) (lb ub : list Z) : option bbox :=
  lb ← copy_coord ndim lb; ub ← copy_coord ndim ub; Some (mkBBox ndim lb ub).

Section Requests.
Context `{E : Env} `{CE : ClientEnv}.

(** [fill_odsc]; [raw] is what the name array held. *)
Definition fill_odsc (c : client) (var_name : string) (ver elem_size : Z) (ndim : nat) (lb ub : list Z)
    (raw : list ascii) (odsc : obj_descriptor) : option obj_descriptor :=
  bb ← user_box ndim lb ub;
  copy_var_name_to_odsc (cl_nspace c) var_name raw
    (mkOdsc "" st (od_flags odsc) (od_tag odsc) (od_type odsc) "" ver bb (u64 elem_size)).

(** The descriptor initialised in place by the puts. *)
Definition put_odsc (c : client) (var_name : string) (ver elem_size : Z) (flags tag type : Z) (owner : string)
    (ndim : nat) (lb ub : list Z) : option obj_descriptor :=
  bb ← user_box ndim lb ub;
  copy_var_name_to_odsc (cl_nspace c) var_name [] (mkOdsc "" st flags tag type owner ver bb (u64 elem_size)).

Definition client_gdim (c : client) (odsc : obj_descriptor) : global_dimension :=
  set_global_dimension (cl_gdims c) (od_name odsc) (cl_default_gdim c).

(** The bytes of a caller's buffer behind a bulk handle of [size] bytes. *)
Definition expose (data : list Z) (size : Z) : option (list Z) :=
  if (Z.to_nat size <=? length data)%nat then Some (take (Z.to_nat size) data) else None.

(** ** Puts *)

(** What a put asks of a server: descriptor, dimensions and data. *)
Definition put_request : Type := obj_descriptor * global_dimension * list Z.

Definition make_put (c : client) (odsc : obj_descriptor) (data : list Z) : option put_request :=
  data ← expose data (obj_data_size odsc); Some (odsc, client_gdim c odsc, data).

(** [dspaces_put_tag] up to its call: a negative element size is a type. *)
Definition dspaces_put_tag (c : client) (var_name : string) (ver elem_size tag : Z) (ndim : nat)
    (lb ub : list Z) (data : list Z) : option put_request :=
  '(type, elem_size) ←
    (if elem_size <? 0 then size ← type_to_size elem_size; Some (elem_size, size)
     else Some (uninit_type, elem_size));
  odsc ← put_odsc c var_name ver elem_size 0 tag type "" ndim lb ub;
  make_put c odsc data.

Definition dspaces_put (c : client) (var_name : string) (ver elem_size : Z) (ndim : nat)
    (lb ub : list Z) (data : list Z) : option put_request :=
  dspaces_put_tag c var_name ver elem_size 0 ndim lb ub data.

(** [setup_put], and the request [dspaces_iput] builds: no type, no tag. *)
Definition setup_put (c : client) (var_name : string) (ver elem_size : Z) (ndim : nat)
    (lb ub : list Z) (data : list Z) : option put_request :=
  odsc ← put_odsc c var_name ver elem_size 0 0 0 "" ndim lb ub;
  make_put c odsc data.

(** ** Storing in the client *)

Definition obj_data_alloc_with_data (id : nat) (odsc : obj_descriptor) (data : list Z) : option obj_data :=
  od ← obj_data_alloc id odsc;
  data ← memcpy (ob_data od) 0 data 0 (obj_data_size odsc);
  Some (mkObj id odsc (ob_gdim od) data 0 false).

(** [dspaces_put_local] with the server's reply, [None] when the call fails.
    The count and the store have changed by then. *)
Definition dspaces_put_local (c : client) (var_name : string) (ver elem_size : Z) (ndim : nat)
    (lb ub : list Z) (data : list Z) (reply : option Z)
  : option (client * (obj_descriptor * global_dimension) * Z) :=
  odsc ← put_odsc c var_name ver elem_size DS_CLIENT_STORAGE 0 0 (cl_addr c) ndim lb ub;
  od ← obj_data_alloc_with_data (cl_next c) odsc data;
  let gd := client_gdim c odsc in
  let od := mkObj (ob_id od) odsc gd (ob_data od) 0 false in
  let c := set_local (ls_add_obj (cl_ls c) od) (cl_put_count c + 1) (S (cl_next c)) c in
  Some (c, (odsc, gd), default dspaces_ERR_MERCURY reply).

(** The bytes pushed by [get_local_rpc]. *)
Definition get_local_rpc (c : client) (in_odsc : obj_descriptor) : option (list Z) :=
  from_obj ← ls_find (cl_ls c) in_odsc;
  od ← obj_data_alloc (cl_next c) in_odsc;
  '(od, _) ← ssd_copy od from_obj;
  expose (ob_data od) (obj_data_size in_odsc).

(** The pieces in which [get_local_rpc] pushes [size] bytes, as offset and
    length. *)
Definition BULK_TRANSFER_MAX : Z := 128 * (1024 * 1024).

Fixpoint transfer_loop (fuel : nat) (size remaining : Z) : option (list (Z * Z)) :=
  if remaining =? 0 then Some []
  else match fuel with
       | O => None
       | S f =>
           let xfer_size := if BULK_TRANSFER_MAX <? remaining then BULK_TRANSFER_MAX else remaining in
           l ← transfer_loop f size (remaining - xfer_size);
           Some ((size - remaining, xfer_size) :: l)
       end.

(** [num_reqs], the length of the array the loop fills. *)
Definition num_reqs (size : Z) : Z := i32 (u64 (size + BULK_TRANSFER_MAX - 1) / BULK_TRANSFER_MAX).

(** [drain_rpc]: the reply and the bytes pushed; [xfer] is the success of
    the transfer. *)
Definition drain_rpc (c : client) (in_odsc : obj_descriptor) (xfer : bool)
  : option (client * (Z * list Z)) :=
  match ls_find (cl_ls c) in_odsc with
  | None => Some (c, (dspaces_ERR_MERCURY, []))
  | Some from_obj =>
      data ← expose (ob_data from_obj) (obj_data_size in_odsc);
      if xfer then
        Some (set_local (ls_try_remove_free (cl_ls c) from_obj) (cl_put_count c - 1) (cl_next c) c,
              (dspaces_SUCCESS, data))
      else Some (c, (dspaces_ERR_MERCURY, []))
  end.

Definition kill_client_rpc (c : client) : client := set_local (cl_ls c) 0 (cl_next c) c.

(** The wait of [dspaces_fini] for the servers: it goes on once the count is
    not positive. *)
Definition fini_waits (c : client) : bool := 0 <? cl_put_count (set_final c).

(** ** Collecting a result *)

(** One object of the loops of [get_data]: the reply is [resp.len] and the
    bytes pushed; the bytes wanted are what the handle registers.  [ucbuffer]
    is shared by the pieces. *)
Definition rdma_size (req_size : Z) (o : obj_descriptor) : Z := u64 (req_size * bbox_volume (od_bb o)).

Definition receive_piece (req_size : Z) (o : obj_descriptor) (reply : Z * list Z) (ucbuffer : list Z)
  : option (obj_data * list Z) :=
  od ← obj_data_alloc 0 o;
  let size := rdma_size req_size o in
  let '(len, bytes) := reply in
  data ← bulk_write (ob_data od) size bytes;
  '(data, ucbuffer) ←
    (if (Z.land (od_flags o) DS_CLIENT_STORAGE =? 0) && negb (len =? 0) then
       src ← expose data len;
       ucbuffer ← bulk_write ucbuffer size (fst (lz4_decompress src size));
       data ← memcpy data 0 ucbuffer 0 size;
       Some (data, ucbuffer)
     else Some (data, ucbuffer));
  Some (mkObj 0 o (ob_gdim od) data 0 false, ucbuffer).

Fixpoint copy_pieces (req_size : Z) (pieces : list (obj_descriptor * (Z * list Z))) (ucbuffer : list Z)
    (return_od : obj_data) : option obj_data :=
  match pieces with
  | [] => Some return_od
  | (o, reply) :: pieces =>
      '(od, ucbuffer) ← receive_piece req_size o reply ucbuffer;
      '(return_od, _) ← ssd_copy return_od od;
      copy_pieces req_size pieces ucbuffer return_od
  end.

(** [fetch] is how a descriptor is answered by its owner: [get_rpc], or
    [get_local_rpc] for an object in client storage. *)
Definition get_data (fetch : obj_descriptor -> option (Z * list Z)) (req_obj : obj_descriptor)
    (odsc_tab : list obj_descriptor) (data : list Z) : option (list Z) :=
  pieces ← mapM (fun o => option_map (pair o) (fetch o)) odsc_tab;
  let max_size := foldr Z.max 0 (map (rdma_size (od_size req_obj)) odsc_tab) in
  od ← copy_pieces (od_size req_obj) pieces (malloc (Z.to_nat max_size)) (mkObj 0 req_obj zero_gdim data 0 false);
  Some (ob_data od).

(** ** Gets *)

(** The answer of [query_rpc]: [None] when the call fails. *)
Definition get_odscs (query : obj_descriptor -> global_dimension -> Z -> option (list obj_descriptor))
    (c : client) (odsc : obj_descriptor) (timeout : Z) : list obj_descriptor :=
  default [] (query odsc (client_gdim c odsc) timeout).

Definition dspaces_get query fetch (c : client) (var_name : string) (ver elem_size : Z) (ndim : nat)
    (lb ub : list Z) (data : list Z) (timeout : Z) : option (Z * list Z) :=
  odsc ← fill_odsc c var_name ver elem_size ndim lb ub uninit_name uninit_odsc;
  match get_odscs query c odsc timeout with
  | [] => Some (-1, data)
  | tab => data ← get_data fetch odsc tab data; Some (dspaces_SUCCESS, data)
  end.

(** A result of a module is not the box asked for: its descriptor carries the
    box of the answer. *)
Definition resize_to (odsc o : obj_descriptor) : obj_descriptor :=
  if Z.land (od_flags o) DS_OBJ_RESIZE =? 0 then odsc else set_bb (od_bb o) odsc.

(** [num_elem], an [int], over the dimensions. *)
Definition num_elem (lo hi : nat -> Z) (ndim : nat) : Z :=
  fold_left (fun n i => i32 (u64 (n * (u64 (hi i - lo i) + 1)))) (seq 0 ndim) 1.

(** [malloc(num_elem * elem_size)]: the product of two [int]s overflows
    outside their range, and a negative size is refused. *)
Definition result_buffer (n elem_size : Z) : option (list Z) :=
  if (0 <=? n * elem_size) && (n * elem_size <? 2 ^ 31) then Some (malloc (Z.to_nat (n * elem_size))) else None.

(** The first [n] coordinates written to a caller's array. *)
Definition write_corner (n : nat) (c : coord) (l : list Z) : option (list Z) :=
  if (n <=? length l)%nat then Some (map (cget c) (seq 0 n) ++ drop n l) else None.

(** The loop of [dspaces_aget] over the results: the caller's corners follow
    the resized box. *)
Fixpoint aget_resize (tab : list obj_descriptor) (odsc : obj_descriptor) (lb ub : list Z)
  : option (obj_descriptor * list Z * list Z) :=
  match tab with
  | [] => Some (odsc, lb, ub)
  | o :: tab =>
      if Z.land (od_flags o) DS_OBJ_RESIZE =? 0 then aget_resize tab odsc lb ub
      else
        let bb := od_bb o in
        lb ← write_corner (num_dims bb) (BBox.lb bb) lb;
        ub ← write_corner (num_dims bb) (BBox.ub bb) ub;
        aget_resize tab (set_bb bb odsc) lb ub
  end.

(** [dspaces_aget]: the corners, the tag and the buffer of the answer; no
    buffer when nothing was found. *)
Definition dspaces_aget query fetch (c : client) (var_name : string) (ver : Z) (ndim : nat)
    (lb ub : list Z) (timeout : Z) : option (list Z * list Z * option (Z * list Z)) :=
  odsc ← fill_odsc c var_name ver 0 ndim lb ub [] (mkOdsc "" row_major 0 0 0 "" 0 zero_bbox 0);
  let tab := get_odscs query c odsc timeout in
  '(odsc, lb, ub) ← aget_resize tab odsc lb ub;
  match tab with
  | [] => Some (lb, ub, None)
  | o :: _ =>
      let elem_size := i32 (od_size o) in
      data ← result_buffer (num_elem (cget lb) (cget ub) ndim) elem_size;
      data ← get_data fetch (set_size (u64 elem_size) odsc) tab data;
      Some (lb, ub, Some (od_tag o, data))
  end.

(** [struct dspaces_req]. *)
Record ds_req := mkReq {
  req_var_name : string;
  req_ver : Z;
  req_elem_size : Z;
  req_ndim : nat;
  req_lb : list Z;
  req_ub : list Z;
  req_buf : option (list Z);
  req_tag : Z
}.

(** [&odsc->name[i]] of an array padded with terminators. *)
Definition name_from (name : string) (i : nat) : option string :=
  if (i <? OD_MAX_NAME_LEN)%nat then Some (String.substring i OD_MAX_NAME_LEN name) else None.

Definition fill_req (c : client) (odsc : obj_descriptor) (data : list Z) : option ds_req :=
  name ← match cl_nspace c with
         | Some ns => name_from (od_name odsc) (String.length ns + 2)
         | None => Some (od_name odsc)
         end;
  let bb := od_bb odsc in
  Some (mkReq name (od_version odsc) (i32 (od_size odsc)) (num_dims bb)
          (map (cget (lb bb)) (seq 0 (num_dims bb))) (map (cget (ub bb)) (seq 0 (num_dims bb)))
          (Some data) (od_tag odsc)).

(** [dspaces_get_req] with an output request; [None] inside when nothing was
    found, which leaves it as it was. *)
Definition dspaces_get_req query fetch (c : client) (in_req : ds_req) (timeout : Z) : option (option ds_req) :=
  odsc ← fill_odsc c (req_var_name in_req) (req_ver in_req) (req_elem_size in_req) (req_ndim in_req)
           (req_lb in_req) (req_ub in_req) [] (mkOdsc "" row_major 0 0 0 "" 0 zero_bbox 0);
  let tab := get_odscs query c odsc timeout in
  let odsc := fold_left resize_to tab odsc in
  match tab with
  | [] => Some None
  | o :: _ =>
      let elem_size := i32 (od_size o) in
      let odsc := set_size (u64 elem_size) odsc in
      let odsc := set_tag_type (od_tag o) (od_type odsc) odsc in
      data ← match req_buf in_req with
             | Some data => Some data
             | None =>
                 let bb := od_bb odsc in
                 result_buffer (num_elem (cget (lb bb)) (cget (ub bb)) (num_dims bb)) elem_size
             end;
      data ← get_data fetch odsc tab data;
      req ← fill_req c odsc data;
      Some (Some req)
  end.
End Requests.

(** ** Names: lemmas *)

(** A C string has no terminator inside. *)
Definition c_string (s : string) : Prop := ~ In NUL (String.list_ascii_of_string s).

Lemma cstr_pad s n : c_string s -> cstr (resize n NUL (String.list_ascii_of_string s)) = String.substring 0 n s.
Proof.
  revert n. induction s as [|a s IH]; intros n Hs.
  - cbn [String.list_ascii_of_string]. rewrite resize_nil. by destruct n.
  - destruct n as [|n]; [done|]. cbn [String.list_ascii_of_string resize cstr String.substring].
    destruct (Ascii.eqb_spec a NUL) as [->|_]; [destruct Hs; by left|].
    rewrite IH; [done|]. intros H. apply Hs. by right.
Qed.

Lemma length_list_ascii s : length (String.list_ascii_of_string s) = String.length s.
Proof. by induction s as [|a s IH]; simpl; [|rewrite IH]. Qed.

Lemma list_ascii_app s1 s2 :
  String.list_ascii_of_string (s1 ++ s2) = String.list_ascii_of_string s1 ++ String.list_ascii_of_string s2.
Proof. induction s1 as [|a s1 IH]; simpl; [done|]. by rewrite IH. Qed.

(** Padding past the first terminator does not show. *)
Lemma cstr_cut l l' : cstr (l ++ NUL :: l') = cstr l.
Proof. induction l as [|a l IH]; simpl; [done|]. destruct (Ascii.eqb a NUL); [done|]. by rewrite IH. Qed.

Lemma cstr_nul_end l : cstr (l ++ [NUL]) = cstr l.
Proof. apply cstr_cut. Qed.

Lemma name_end buf l : length buf = OD_MAX_NAME_LEN -> take (OD_MAX_NAME_LEN - 1) buf = l ->
  exists buf', set_char buf (OD_MAX_NAME_LEN - 1) NUL = Some buf' /\ cstr buf' = cstr l.
Proof.
  intros Hl <-. unfold set_char. rewrite Hl. eexists. split; [reflexivity|].
  rewrite insert_take_drop by (rewrite Hl; unfold OD_MAX_NAME_LEN; lia).
  rewrite (drop_ge buf) by (rewrite Hl; unfold OD_MAX_NAME_LEN; lia). apply cstr_nul_end.
Qed.

Lemma strncpy_some buf off n src : (off + n <= length buf)%nat ->
  strncpy buf off n src = Some (take off buf ++ resize n NUL (String.list_ascii_of_string src) ++ drop (off + n) buf).
Proof. intros H. unfold strncpy. by destruct (Nat.leb_spec (off + n) (length buf)); [|lia]. Qed.

Lemma copy_var_name_spec nspace var_name buf :
  length buf = OD_MAX_NAME_LEN -> c_string var_name ->
  (forall ns, nspace = Some ns -> c_string ns /\ (String.length ns < OD_MAX_NAME_LEN)%nat) ->
  exists buf', copy_var_name nspace var_name buf = Some buf' /\
    cstr buf' = String.substring 0 (OD_MAX_NAME_LEN - 1) (full_name nspace var_name).
Proof.
  intros Hl Hv Hns. unfold copy_var_name. destruct nspace as [ns|]; cbn [full_name].
  - destruct (Hns ns eq_refl) as [Hc Hlen].
    rewrite strncpy_some by (rewrite Hl; unfold OD_MAX_NAME_LEN; lia). cbn [mbind option_bind].
    set (cs := String.list_ascii_of_string ns). assert (Hcs : length cs = String.length ns) by apply length_list_ascii.
    set (buf1 := _ ++ _). assert (Hl1 : length buf1 = OD_MAX_NAME_LEN).
    { unfold buf1. rewrite take_0, !length_app, length_resize, length_drop, Hl. unfold OD_MAX_NAME_LEN. simpl. lia. }
    unfold set_char at 2. rewrite Hl1.
    destruct (Nat.ltb_spec (String.length ns) OD_MAX_NAME_LEN); [|lia]. cbn [mbind option_bind].
    assert (Ht : take (String.length ns) buf1 = cs).
    { unfold buf1. rewrite take_0. cbn [app]. rewrite take_app_le by (rewrite length_resize; unfold OD_MAX_NAME_LEN in *; lia).
      rewrite take_resize_le by (unfold OD_MAX_NAME_LEN in *; lia). fold cs. rewrite <- Hcs. apply resize_all. }
    rewrite strncpy_some by (rewrite length_insert, Hl1; unfold OD_MAX_NAME_LEN in *; lia). cbn [mbind option_bind].
    rewrite insert_take_drop by (rewrite Hl1; unfold OD_MAX_NAME_LEN in *; lia). rewrite Ht.
    set (full := cs ++ backslash :: String.list_ascii_of_string var_name).
    rewrite (drop_ge (_ ++ _ :: drop _ _)) by (rewrite length_app, length_cons, length_drop, Hcs, Hl1;
      unfold OD_MAX_NAME_LEN in *; lia).
    assert (E1 : take (String.length ns + 1) (cs ++ backslash :: drop (S (String.length ns)) buf1) = cs ++ [backslash]).
    { rewrite <- Hcs, take_app_add. done. }
    rewrite E1, app_nil_r.
    assert (E2 : (cs ++ [backslash]) ++ resize (OD_MAX_NAME_LEN - String.length ns - 1) NUL (String.list_ascii_of_string var_name)
      = resize OD_MAX_NAME_LEN NUL full).
    { replace full with ((cs ++ [backslash]) ++ String.list_ascii_of_string var_name)
        by (unfold full; by rewrite <- app_assoc).
      rewrite (resize_app_ge (cs ++ [backslash])) by (rewrite length_app, Hcs; simpl; unfold OD_MAX_NAME_LEN in *; lia).
      rewrite length_app, Hcs. simpl length. do 2 f_equal. lia. }
    rewrite E2.
    destruct (name_end (resize OD_MAX_NAME_LEN NUL full) _ (length_resize _ _ _) eq_refl) as (buf' & -> & Hb).
    eexists. split; [reflexivity|]. rewrite Hb, take_resize_le by lia.
    assert (Ef : full = String.list_ascii_of_string (ns ++ String backslash var_name)) by (unfold full; by rewrite list_ascii_app).
    rewrite Ef. apply cstr_pad. unfold c_string. rewrite <- Ef. unfold full. rewrite in_app_iff.
    intros [H1|[H1|H1]]; [by apply Hc|discriminate H1|by apply Hv].
  - rewrite strncpy_some by (rewrite Hl; unfold OD_MAX_NAME_LEN; lia). cbn [mbind option_bind]. rewrite take_0.
    set (buf1 := _ ++ _). destruct (name_end buf1 (resize (OD_MAX_NAME_LEN - 1) NUL (String.list_ascii_of_string var_name)))
      as (buf' & -> & Hb).
    + unfold buf1. rewrite !length_app, length_resize, length_drop, Hl. unfold OD_MAX_NAME_LEN. simpl. lia.
    + unfold buf1. cbn [app]. rewrite take_app_le by (rewrite length_resize; lia). rewrite take_ge; [done|].
      rewrite length_resize. lia.
    + eexists. split; [reflexivity|]. rewrite Hb. by apply cstr_pad.
Qed.

Lemma copy_var_name_long ns var_name buf :
  length buf = OD_MAX_NAME_LEN -> (OD_MAX_NAME_LEN <= String.length ns)%nat ->
  copy_var_name (Some ns) var_name buf = None.
Proof.
  intros Hl Hns. unfold copy_var_name.
  rewrite strncpy_some by (rewrite Hl; unfold OD_MAX_NAME_LEN; lia). cbn [mbind option_bind].
  unfold set_char at 2. rewrite take_0. cbn [app]. rewrite length_app, length_resize, length_drop, Hl.
  match goal with |- context [(?a <? ?b)%nat] => destruct (Nat.ltb_spec a b) end; [|done].
  unfold OD_MAX_NAME_LEN in *. lia.
Qed.

(** ** Collecting: lemmas *)

Section Collect.
Context `{E : Env} `{CE : ClientEnv}.
Context (size : Z) (bt : bbox) (bytes : obj_descriptor -> list Z).

(** A reply that brings [data] for [o]: as it is, or compressed. *)
Inductive carries (o : obj_descriptor) (data : list Z) : Z * list Z -> Prop :=
| carries_raw len :
    len = 0 \/ Z.land (od_flags o) DS_CLIENT_STORAGE <> 0 -> carries o data (len, data)
| carries_lz4 c :
    Z.land (od_flags o) DS_CLIENT_STORAGE = 0 -> (0 < length c <= length data)%nat ->
    fst (lz4_decompress c (Z.of_nat (length data))) = data -> carries o data (Z.of_nat (length c), c).

(** A piece of a result for the box [bt], with elements of [size] bytes. *)
Record piece_ok (o : obj_descriptor) : Prop := {
  pk_small : small_obj o;
  pk_size : od_size o = size;
  pk_copy : copyable size (od_bb o) (bytes o);
  pk_dims : num_dims (od_bb o) = num_dims bt;
  pk_meets : bbox_does_intersect bt (od_bb o) = true
}.

Lemma piece_length o : piece_ok o -> Z.of_nat (length (bytes o)) = obj_data_size o /\ rdma_size size o = obj_data_size o.
Proof.
  intros [_ Hs (_ & _ & _ & H0 & Hl & Hb) _ _]. unfold rdma_size, obj_data_size.
  rewrite Hs, bbox_volume_zvolume, u64_mul_r, u64_small; lia.
Qed.

Lemma bulk_write_le buf n data : (length data <= n)%nat -> (length data <= length buf)%nat ->
  bulk_write buf (Z.of_nat n) data = Some (data ++ drop (length data) buf).
Proof.
  intros Hn Hb. unfold bulk_write. rewrite Nat2Z.id, take_ge by done.
  by destruct (Nat.leb_spec (length data) (length buf)); [|lia].
Qed.

Lemma bulk_write_exact buf n data : length buf = length data -> n = Z.of_nat (length data) ->
  bulk_write buf n data = Some data.
Proof. intros Hl ->. rewrite bulk_write_le by lia. by rewrite drop_ge, app_nil_r by lia. Qed.

Lemma expose_prefix (l : list Z) (n : nat) : (n <= length l)%nat -> expose l (Z.of_nat n) = Some (take n l).
Proof. intros H. unfold expose. rewrite Nat2Z.id. by destruct (Nat.leb_spec n (length l)); [|lia]. Qed.

Lemma memcpy_whole (dst src : list Z) (n : Z) :
  n = Z.of_nat (length dst) -> (length dst <= length src)%nat ->
  memcpy dst 0 src 0 n = Some (take (length dst) src).
Proof.
  intros -> Hl. unfold memcpy. rewrite Nat2Z.id. cbn [Z.to_nat].
  repeat match goal with |- context [?a <=? ?b] => destruct (Z.leb_spec a b); [|lia] end. cbn [andb].
  rewrite take_0, drop_0. cbn [app]. by rewrite drop_ge, app_nil_r by lia.
Qed.

Lemma receive_piece_spec o reply uc :
  piece_ok o -> carries o (bytes o) reply -> (length (bytes o) <= length uc)%nat ->
  exists uc', receive_piece size o reply uc = Some (mkObj 0 o zero_gdim (bytes o) 0 false, uc') /\
    length uc' = length uc.
Proof.
  intros Hp Hc Huc. destruct (piece_length o Hp) as [Hl Hr]. unfold receive_piece.
  rewrite obj_data_alloc_small by apply Hp. cbn [mbind option_bind ob_data ob_gdim]. rewrite Hr, <- Hl.
  set (n := length (bytes o)) in *.
  destruct Hc as [len Hraw|c Hf [Hc0 Hcl] Hd].
  - rewrite bulk_write_exact by (rewrite ?length_malloc; lia). cbn [mbind option_bind].
    destruct (Z.eqb_spec (Z.land (od_flags o) DS_CLIENT_STORAGE) 0) as [E1|E1]; cbn [andb].
    + destruct Hraw as [->|]; [|done]. cbn. exists uc. done.
    + cbn. exists uc. done.
  - rewrite bulk_write_le by (rewrite ?length_malloc; lia). cbn [mbind option_bind].
    rewrite Hf. destruct (Z.eqb_spec (Z.of_nat (length c)) 0); [lia|]. cbn [Z.eqb andb negb].
    rewrite expose_prefix by (rewrite length_app; lia). rewrite take_app_length. cbn [mbind option_bind].
    fold n in Hd. rewrite Hd, bulk_write_le by lia. cbn [mbind option_bind].
    assert (Hlen : length (c ++ drop (length c) (malloc (Z.to_nat (Z.of_nat n)))) = n)
      by (rewrite length_app, length_drop, length_malloc; lia).
    rewrite memcpy_whole; [|by rewrite Hlen|rewrite Hlen, length_app, length_drop; lia].
    cbn [mbind option_bind]. rewrite Hlen. unfold n at 1. rewrite take_app_length.
    eexists. split; [reflexivity|]. rewrite length_app, length_drop. fold n. lia.
Qed.

(** What the pieces leave in a buffer. *)
Definition collected (tab : list obj_descriptor) (data data' : list Z) : Prop :=
  length data' = length data /\
  forall p t, in_box p bt -> 0 <= t < size ->
    (exists o, o ∈ tab /\ in_box p (od_bb o) /\
       data' !! Z.to_nat (size * box_pos bt p + t) = bytes o !! Z.to_nat (size * box_pos (od_bb o) p + t)) \/
    (forall o, o ∈ tab -> ~ in_box p (od_bb o)) /\
       data' !! Z.to_nat (size * box_pos bt p + t) = data !! Z.to_nat (size * box_pos bt p + t).

Lemma copy_pieces_spec pieces : forall uc ret,
  Forall (fun orp => piece_ok (fst orp) /\ carries (fst orp) (bytes (fst orp)) (snd orp) /\
            (length (bytes (fst orp)) <= length uc)%nat) pieces ->
  od_bb (obj_desc ret) = bt -> od_size (obj_desc ret) = size -> copyable size bt (ob_data ret) ->
  exists ret', copy_pieces size pieces uc ret = Some ret' /\
    collected (map fst pieces) (ob_data ret) (ob_data ret').
Proof.
  induction pieces as [|[o reply] pieces IH]; intros uc ret Hps Hbt Hsz Hto.
  { exists ret. split; [done|]. split; [done|]. intros p t Hp Ht. right. split; [|done].
    intros o Ho. by apply elem_of_nil in Ho. }
  apply Forall_cons in Hps as [(Hp & Hc & Hl) Hps]. cbn [fst snd] in *. cbn [copy_pieces].
  destruct (receive_piece_spec o reply uc Hp Hc Hl) as (uc' & -> & Huc). cbn [mbind option_bind].
  set (from := mkObj 0 o zero_gdim (bytes o) 0 false).
  destruct (ssd_copy_spec ret from) as (data & -> & Hlen & Hdata); cbn [from obj_desc ob_data]; rewrite ?Hsz, ?Hbt;
    [done|apply Hp..|]. cbn [mbind option_bind]. set (ret1 := mkObj _ _ _ data _ _).
  destruct (IH uc' ret1) as (ret' & E' & Hlen' & Hcol).
  { rewrite Huc. done. } { exact Hbt. } { exact Hsz. }
  { destruct Hto as (H1 & H2 & H3 & H4 & H5 & H6). split_and!; try done; try apply H3. cbn [ret1 ob_data]. lia. }
  exists ret'. split; [exact E'|]. cbn [ret1 ob_data map fst] in *. split; [congruence|].
  intros p t Hpt Ht. rewrite Hbt, Hsz in Hdata. specialize (Hdata p t Hpt Ht).
  cbn [from obj_desc ob_data] in Hdata. destruct (Hcol p t Hpt Ht) as [(o' & Ho' & Hin & Heq)|[Hno Heq]].
  - left. exists o'. split; [by apply list_elem_of_further|done].
  - rewrite Heq. case_decide as Hin.
    + left. exists o. split; [by left|]. done.
    + right. split; [|done]. intros o' [->|Ho']%elem_of_cons; auto.
Qed.

Lemma get_data_spec (fetch : obj_descriptor -> option (Z * list Z)) (req : obj_descriptor) tab data :
  od_bb req = bt -> od_size req = size -> copyable size bt data ->
  (forall o, o ∈ tab -> piece_ok o /\ exists reply, fetch o = Some reply /\ carries o (bytes o) reply) ->
  exists data', get_data fetch req tab data = Some data' /\ collected tab data data'.
Proof.
  intros Hbt Hsz Hto Htab. unfold get_data.
  assert (Hm : exists pieces, mapM (fun o => option_map (pair o) (fetch o)) tab = Some pieces /\ map fst pieces = tab /\
    Forall (fun orp => piece_ok (fst orp) /\ carries (fst orp) (bytes (fst orp)) (snd orp)) pieces).
  { clear Hto. induction tab as [|o tab IH]; [by exists []|].
    destruct (Htab o) as (Hp & reply & Hf & Hc); [by left|].
    destruct IH as (pieces & E1 & E2 & E3); [intros o' Ho'; apply Htab; by right|].
    exists ((o, reply) :: pieces). cbn [mapM]. rewrite Hf. cbn [option_map mbind option_bind].
    split; [|split].
    - change (mapM (fun o => option_map (pair o) (fetch o)) tab ≫= (fun k => mret ((o, reply) :: k))
        = Some ((o, reply) :: pieces)). by rewrite E1.
    - simpl. by f_equal.
    - by constructor. }
  destruct Hm as (pieces & -> & Hfst & Hps). cbn [mbind option_bind]. rewrite Hsz.
  set (uc := malloc _).
  destruct (copy_pieces_spec pieces uc (mkObj 0 req zero_gdim data 0 false)) as (ret' & -> & Hcol); try done.
  - apply Forall_forall. intros [o reply] Hin. rewrite Forall_forall in Hps. destruct (Hps _ Hin) as [Hp Hc].
    split; [done|]. split; [done|]. cbn [fst] in *. unfold uc. rewrite length_malloc.
    destruct (piece_length o Hp) as [Hl Hr]. rewrite <- Hr in Hl.
    assert (Hmax : rdma_size size o <= foldr Z.max 0 (map (rdma_size size) tab)).
    { assert (Ho : In o tab) by (rewrite <- Hfst; apply in_map_iff; exists (o, reply);
        split; [done|by apply list_elem_of_In]).
      clear - Ho. induction tab as [|x l IH]; [done|]. cbn [map foldr]. destruct Ho as [->|Ho]; [lia|].
      specialize (IH Ho). lia. }
    lia.
  - cbn [mbind option_bind ob_data]. rewrite Hfst in Hcol. eexists. split; [reflexivity|]. exact Hcol.
Qed.
End Collect.

(** ** Choosing a server: lemmas *)

Definition same_node (node : string) (nodes : list string) : list string := List.filter (String.eqb node) nodes.

Lemma attach_loop_spec node nodes : forall i k my,
  (Z.to_nat k < length (same_node node nodes))%nat -> 0 <= k ->
  exists n, attach_loop node nodes i k my = i + Z.of_nat n /\ nodes !! n = Some node /\
    length (same_node node (take n nodes)) = Z.to_nat k.
Proof.
  induction nodes as [|x nodes IH]; intros i k my Hk Hk0; cbn [same_node List.filter length] in Hk; [lia|].
  cbn [attach_loop]. fold (same_node node nodes) in Hk. destruct (String.eqb_spec node x) as [<-|Hx].
  - cbn [length] in Hk. destruct (Z.eqb_spec k 0) as [->|Hk1].
    + exists 0%nat. split; [lia|done].
    + destruct (IH (i + 1) (k - 1) my) as (n & E1 & E2 & E3); [lia..|].
      exists (S n). split; [lia|]. split; [done|]. cbn [take same_node List.filter].
      rewrite String.eqb_refl. cbn [length]. fold (same_node node (take n nodes)). lia.
  - destruct (IH (i + 1) k my) as (n & E1 & E2 & E3); [lia..|].
    exists (S n). split; [lia|]. split; [done|]. cbn [take same_node List.filter].
    destruct (String.eqb_spec node x); [done|]. exact E3.
Qed.

Lemma choose_server_some c :
  cl_nodes c <> [] -> 0 <= cl_rank c ->
  exists n, choose_server c = Some (set_my_server (Z.of_nat n) c) /\ (n < length (cl_nodes c))%nat /\
    let k := length (same_node (cl_node c) (cl_nodes c)) in
    match k with
    | O => n = Z.to_nat (cl_rank c mod Z.of_nat (length (cl_nodes c)))
    | _ => cl_nodes c !! n = Some (cl_node c) /\
        length (same_node (cl_node c) (take n (cl_nodes c))) = Z.to_nat (cl_rank c mod Z.of_nat k)
    end.
Proof.
  intros Hn Hr. unfold choose_server. fold (same_node (cl_node c) (cl_nodes c)).
  destruct (length (same_node (cl_node c) (cl_nodes c))) as [|k] eqn:Ek.
  - change (Z.of_nat 0 =? 0) with true. cbn [negb]. destruct (cl_nodes c) as [|x l] eqn:El; [done|].
    set (len := Z.of_nat (length (x :: l))). assert (Hlen : 0 < len) by (unfold len; simpl; lia).
    destruct (Z.eqb_spec len 0) as [|_]; [lia|]. rewrite Z.rem_mod_nonneg by lia.
    pose proof (Z.mod_pos_bound (cl_rank c) len Hlen).
    exists (Z.to_nat (cl_rank c mod len)). rewrite Z2Nat.id by lia. split; [done|]. split; [unfold len in *; lia|done].
  - destruct (Z.eqb_spec (Z.of_nat (S k)) 0) as [|_]; [lia|]. cbn [negb]. rewrite Z.rem_mod_nonneg by lia.
    pose proof (Z.mod_pos_bound (cl_rank c) (Z.of_nat (S k)) ltac:(lia)).
    destruct (attach_loop_spec (cl_node c) (cl_nodes c) 0 (cl_rank c mod Z.of_nat (S k)) (cl_my_server c))
      as (n & E1 & E2 & E3); [lia..|].
    exists n. rewrite E1, Z.add_0_l. split; [done|]. split; [by eapply lookup_lt_Some|]. done.
Qed.

(** [choose_server] attaches a client to an existing server.  When some
    servers run on its node it is one of them, and the ranks are dealt to them
    in turn: the servers of the node listed before it number the rank modulo
    their count.  Otherwise the ranks are dealt to all servers in turn. *)
Theorem choose_server_correct c :
  cl_nodes c <> [] -> 0 <= cl_rank c ->
  exists n c', choose_server c = Some c' /\ cl_my_server c' = Z.of_nat n /\ (n < length (cl_nodes c))%nat /\
    let k := length (same_node (cl_node c) (cl_nodes c)) in
    match k with
    | O => n = Z.to_nat (cl_rank c mod Z.of_nat (length (cl_nodes c)))
    | _ => cl_nodes c !! n = Some (cl_node c) /\
        length (same_node (cl_node c) (take n (cl_nodes c))) = Z.to_nat (cl_rank c mod Z.of_nat k)
    end.
Proof.
  intros Hn Hr. destruct (choose_server_some c Hn Hr) as (n & E1 & E2 & E3). exists n, (set_my_server (Z.of_nat n) c). done.
Qed.

(** ** Pushing in steps: lemmas *)

(** The chunks follow each other from [off] up to [size]. *)
Fixpoint tiles (off size : Z) (l : list (Z * Z)) : Prop :=
  match l with
  | [] => off = size
  | (o, n) :: l => o = off /\ 0 < n <= BULK_TRANSFER_MAX /\ tiles (off + n) size l
  end.

Lemma transfer_loop_spec size fuel : forall remaining,
  0 <= remaining <= BULK_TRANSFER_MAX * Z.of_nat fuel -> BULK_TRANSFER_MAX * (Z.of_nat fuel - 1) < remaining ->
  exists l, transfer_loop fuel size remaining = Some l /\ length l = fuel /\ tiles (size - remaining) size l.
Proof.
  induction fuel as [|f IH]; intros r Hr Hlo; cbn [transfer_loop].
  - replace r with 0 by lia. exists []. split; [done|]. split; [done|]. simpl. lia.
  - assert (HB : 0 < BULK_TRANSFER_MAX) by done. destruct (Z.eqb_spec r 0); [lia|].
    set (x := if BULK_TRANSFER_MAX <? r then BULK_TRANSFER_MAX else r).
    assert (Hx : x = Z.min BULK_TRANSFER_MAX r) by (unfold x; destruct (Z.ltb_spec BULK_TRANSFER_MAX r); lia).
    destruct f as [|f].
    + assert (Hr0 : r - x = 0) by lia. cbn [transfer_loop]. rewrite Hr0. cbn. eexists. split; [reflexivity|].
      split; [done|]. cbn [tiles]. lia.
    + destruct (IH (r - x)) as (l & -> & Hl & Ht); [lia..|]. cbn [mbind option_bind]. eexists. split; [reflexivity|].
      split; [simpl; lia|]. cbn [tiles]. split; [done|]. split; [lia|].
      by replace (size - r + x) with (size - (r - x)) by lia.
Qed.

(** The push of a large object ends, in exactly the number of requests
    its array was allocated for, and the pieces follow each other from the
    first byte to the last, none longer than [BULK_TRANSFER_MAX]. *)
Theorem transfer_loop_correct size :
  0 < size < 2 ^ 57 ->
  exists l, transfer_loop (Z.to_nat (num_reqs size)) size size = Some l /\
    Z.of_nat (length l) = num_reqs size /\ tiles 0 size l.
Proof.
  intros Hs. unfold num_reqs. assert (HB : BULK_TRANSFER_MAX = 2 ^ 27) by done. rewrite HB.
  rewrite u64_small by lia. set (n := (size + 2 ^ 27 - 1) / 2 ^ 27).
  assert (Hn : 2 ^ 27 * (n - 1) < size <= 2 ^ 27 * n) by (unfold n; dlia).
  rewrite i32_small by lia.
  destruct (transfer_loop_spec size (Z.to_nat n) size) as (l & E1 & E2 & E3); [rewrite HB; lia..|].
  exists l. split; [done|]. split; [lia|]. by replace 0 with (size - size) by lia.
Qed.

(** ** Names of requests *)

Lemma substring_all s n : (String.length s <= n)%nat -> String.substring 0 n s = s.
Proof.
  revert n. induction s as [|a s IH]; intros [|n] Hn; simpl in *; try done; [lia|]. by rewrite IH by lia.
Qed.

Lemma substring_skip s1 s2 n m : String.substring (String.length s1 + n) m (s1 ++ s2) = String.substring n m s2.
Proof. induction s1 as [|a s1 IH]; [done|]. exact IH. Qed.

Lemma string_length_app s1 s2 : String.length (s1 ++ s2) = (String.length s1 + String.length s2)%nat.
Proof. induction s1 as [|a s1 IH]; simpl; [done|]. by rewrite IH. Qed.

(** The descriptor of a request carries the namespace, a backslash and
    the variable's name, cut at 149 characters, whatever the name array held
    before; a namespace of 150 characters or more is written past the end of
    the array. *)
Theorem copy_var_name_correct nspace var_name raw o :
  c_string var_name -> (forall ns, nspace = Some ns -> c_string ns) ->
  copy_var_name_to_odsc nspace var_name raw o
  = match nspace with
    | Some ns => if (OD_MAX_NAME_LEN <=? String.length ns)%nat then None
                 else Some (set_name (String.substring 0 (OD_MAX_NAME_LEN - 1) (full_name nspace var_name)) o)
    | None => Some (set_name (String.substring 0 (OD_MAX_NAME_LEN - 1) var_name) o)
    end.
Proof.
  intros Hv Hns. unfold copy_var_name_to_odsc. set (buf := resize _ _ _).
  assert (Hl : length buf = OD_MAX_NAME_LEN) by apply length_resize.
  destruct nspace as [ns|].
  - destruct (Nat.leb_spec OD_MAX_NAME_LEN (String.length ns)); [by rewrite copy_var_name_long|].
    destruct (copy_var_name_spec (Some ns) var_name buf Hl Hv) as (buf' & -> & Hb); [|by cbn [mbind option_bind]; rewrite Hb].
    intros ns' [= <-]. split; [by apply Hns|lia].
  - destruct (copy_var_name_spec None var_name buf Hl Hv) as (buf' & -> & Hb); [done|]. by cbn [mbind option_bind]; rewrite Hb.
Qed.

(** Within a namespace no dimensions can be defined or read: both calls
    always overrun the buffer of the qualified name, whose size counts the
    variable's name in the wrong place.  Without one, what is defined for a
    variable of at most ten dimensions is what is read, and the other
    variables keep theirs. *)
Theorem define_gdim_correct c var_name ndim gdim other :
  match cl_nspace c with
  | Some _ => dspaces_define_gdim c var_name ndim gdim = None /\ dspaces_get_gdim c var_name = None
  | None => (ndim <= BBOX_MAX_NDIM)%nat ->
      exists c', dspaces_define_gdim c var_name ndim gdim = Some c' /\
        dspaces_get_gdim c' other =
          if String.eqb var_name other then Some (ndim, map gdim (seq 0 ndim)) else dspaces_get_gdim c other
  end.
Proof.
  unfold dspaces_define_gdim, dspaces_get_gdim, gdim_name. destruct (cl_nspace c) as [ns|] eqn:En.
  - destruct (Nat.ltb_spec (String.length ns) (String.length var_name + 2)); [done|].
    match goal with |- context [(?a <? ?b)%nat] => destruct (Nat.ltb_spec a b); [done|lia] end.
  - intros Hn. cbn [mbind option_bind]. destruct (Nat.ltb_spec BBOX_MAX_NDIM ndim); [lia|].
    eexists. split; [reflexivity|]. cbn [set_gdims cl_nspace cl_gdims cl_default_gdim]. rewrite En. cbn [mbind option_bind].
    pose proof (lookup_update_gdim_list (cl_gdims c) var_name other ndim gdim) as Hl.
    unfold set_global_dimension. destruct (String.eqb var_name other).
    + destruct (lookup_gdim_list _ other) as [e|]; [|done]. cbn [option_map] in Hl. injection Hl as ->.
      unfold get_global_dimensions, copy_global_dimension. cbn [gd_ndim gd_sizes]. do 2 f_equal.
      apply map_ext_in. intros i Hi%in_seq. apply cget_set_range_lt;
        unfold zero_coord; rewrite ?length_replicate; unfold BBOX_MAX_NDIM in *; lia.
    + destruct (lookup_gdim_list (update_gdim_list _ _ _ _) other), (lookup_gdim_list (cl_gdims c) other);
        cbn [option_map] in Hl; try discriminate Hl; [by injection Hl as ->|done].
Qed.

(** Within a namespace [dspaces_get_req] hands back a request whose
    variable lost its first character. *)
Theorem get_req_drops_character `{E : Env} `{CE : ClientEnv} query fetch c ns in_req timeout out a var :
  cl_nspace c = Some ns -> c_string ns -> c_string (req_var_name in_req) ->
  req_var_name in_req = String a var -> (String.length ns + String.length var + 2 < OD_MAX_NAME_LEN)%nat ->
  dspaces_get_req query fetch c in_req timeout = Some (Some out) ->
  req_var_name out = var.
Proof.
  intros Hns Hc Hcv Hvar Hlen. unfold dspaces_get_req, fill_odsc. destruct (user_box _ _ _) as [bb|]; [|done].
  cbn [mbind option_bind]. rewrite Hns, copy_var_name_correct; [|done|by intros ? [= <-]].
  destruct (Nat.leb_spec OD_MAX_NAME_LEN (String.length ns)); [lia|]. cbn [mbind option_bind full_name].
  rewrite Hvar. rewrite substring_all by (rewrite string_length_app; simpl; unfold OD_MAX_NAME_LEN in *; lia).
  set (odsc := set_name _ _). set (tab := get_odscs _ _ _ _).
  assert (Hname : forall l o, od_name (fold_left resize_to l o) = od_name o).
  { induction l as [|x l IH]; intros o; [done|]. cbn [fold_left]. rewrite IH. unfold resize_to. by destruct (_ =? _). }
  specialize (Hname tab odsc). set (odsc' := fold_left resize_to tab odsc) in *. destruct tab as [|o tab']; [done|].
  intros Hr.
  match type of Hr with (?b ≫= _) = _ => destruct b as [data|]; [|discriminate Hr] end. cbn [mbind option_bind] in Hr.
  match type of Hr with (?b ≫= _) = _ => destruct b as [data'|]; [|discriminate Hr] end. cbn [mbind option_bind] in Hr.
  unfold fill_req in Hr. rewrite Hns in Hr. cbn [set_tag_type set_size od_name] in Hr. rewrite Hname in Hr.
  cbn [odsc set_name od_name] in Hr. unfold name_from in Hr.
  destruct (Nat.ltb_spec (String.length ns + 2) OD_MAX_NAME_LEN); [|lia]. rewrite substring_skip in Hr.
  cbn [String.substring] in Hr. rewrite substring_all in Hr by lia. cbn [mbind option_bind] in Hr. by injection Hr as <-.
Qed.

(** ** Concrete inputs *)

#[local] Instance client_env : Env := {
  env_fuel := 0;
  env_dim := 0;
  env_coord := zero_coord;
  env_malloc n := replicate n 0;
  env_py_exec _ _ _ := None;
  env_remote_get _ _ _ := None;
  env_lz4_compress _ := None
}.

#[local] Instance client_client_env : ClientEnv := {
  lz4_decompress _ _ := ([], -1);
  uninit_odsc := mkOdsc "junk" row_major 0 7 7 "junk" 9 zero_bbox 3;
  uninit_name := [];
  uninit_type := 5
}.

Definition demo_client (rank : Z) (nspace : option string) : client :=
  mkClient rank "n" ["x"; "n"; "y"; "n"]%string 0 "cl" nspace [] (mkGdim 2 (8 :: 5 :: replicate 8 0))
    (ls_alloc 2) 0 false 1.

Lemma choose_server_correct_witness :
  exists n c', choose_server (demo_client 5 None) = Some c' /\ cl_my_server c' = Z.of_nat n /\
    cl_nodes c' !! n = Some "n"%string /\ n = 3%nat.
Proof.
  destruct (choose_server_correct (demo_client 5 None)) as (n & c' & H1 & H2 & H3 & H4); [discriminate|vm_compute; discriminate|].
  exists n, c'. split; [exact H1|]. split; [exact H2|]. vm_compute in H1. injection H1 as <-. change (3 = Z.of_nat n) in H2.
  assert (n = 3%nat) as -> by lia. split; reflexivity.
Defined.

Lemma transfer_loop_correct_witness :
  exists l, transfer_loop 3 (300 * 2 ^ 20) (300 * 2 ^ 20) = Some l /\ length l = 3%nat /\ tiles 0 (300 * 2 ^ 20) l.
Proof.
  destruct (transfer_loop_correct (300 * 2 ^ 20)) as (l & H1 & H2 & H3); [lia|].
  exists l. split; [exact H1|]. split; [|exact H3]. change (num_reqs (300 * 2 ^ 20)) with 3 in H2. lia.
Defined.

Lemma copy_var_name_correct_witness :
  copy_var_name_to_odsc (Some "ns"%string) "var" [] (mkOdsc "" row_major 0 0 0 "" 0 zero_bbox 1)
  = Some (mkOdsc "ns\var" row_major 0 0 0 "" 0 zero_bbox 1).
Proof.
  rewrite (copy_var_name_correct (Some "ns"%string) "var" [] _); [reflexivity| |].
  - intros H. repeat (destruct H as [H|H]; [discriminate H|]). destruct H.
  - intros ns [= <-] H. repeat (destruct H as [H|H]; [discriminate H|]). destruct H.
Defined.

Lemma define_gdim_correct_witness :
  exists c', dspaces_define_gdim (demo_client 0 None) "v" 2 (fun i => Z.of_nat i + 3) = Some c' /\
    dspaces_get_gdim c' "v" = Some (2%nat, [3; 4]) /\ dspaces_get_gdim c' "w" = Some (2%nat, [8; 5]).
Proof.
  destruct (define_gdim_correct (demo_client 0 None) "v" 2 (fun i => Z.of_nat i + 3) "v") as (c' & H1 & H2);
    [vm_compute; lia|].
  exists c'. split; [exact H1|]. split; [exact H2|]. vm_compute in H1. injection H1 as <-. reflexivity.
Defined.

Lemma get_req_drops_character_witness :
  let o := mkOdsc "ns\abc" column_major 0 4 0 "s" 1 (mkBBox 1 (2 :: replicate 9 0) (3 :: replicate 9 0)) 1 in
  exists out, dspaces_get_req (fun _ _ _ => Some [o]) (fun _ => Some (0, [8; 9])) (demo_client 0 (Some "ns"%string))
      (mkReq "abc" 1 1 1 [2] [3] None 0) 0 = Some (Some out) /\
    req_buf out = Some [8; 9] /\ req_var_name out = "bc"%string.
Proof.
  intros o. set (out := mkReq "bc" 1 1 1 [2] [3] (Some [8; 9]) 4).
  assert (H : dspaces_get_req (fun _ _ _ => Some [o]) (fun _ => Some (0, [8; 9])) (demo_client 0 (Some "ns"%string))
      (mkReq "abc" 1 1 1 [2] [3] None 0) 0 = Some (Some out)) by (vm_compute; reflexivity).
  exists out. split; [exact H|]. split; [reflexivity|].
  apply (get_req_drops_character _ _ (demo_client 0 (Some "ns"%string)) "ns" _ 0 out "a" "bc") with (6 := H);
    try reflexivity.
  - intros F. repeat (destruct F as [F|F]; [discriminate F|]). destruct F.
  - intros F. repeat (destruct F as [F|F]; [discriminate F|]). destruct F.
  - vm_compute. lia.
Defined.
