(* ===== verification/ClientStore.v ===== *)
(** * ClientStore: the objects a client keeps until they are drained

    [dspaces_put_local], [drain_rpc] and the wait of [dspaces_fini] of
    [src/src/dspaces-client.c] as a refinement of a list of outstanding
    objects, and what happens when a put overwrites one of them. *)

From Stdlib Require Import Ascii.
From S2P Require Import Prelude BBox ObjDesc Linear Sspace DhtEntry StrHash LocalStorage Matrix Codec Modules Server Client.

(** ** The objects of a client *)

Section Local.
Context `{E : Env}.

(** The client keeps exactly the objects [l], which do not compete, and
    counts them. *)
Record keeps (mv : Z) (c : client) (l : list (obj_descriptor * list Z)) : Prop := {
  kp_inv : ls_inv (cl_ls c);
  kp_mv : size_hash (cl_ls c) = mv;
  kp_ids : forall x, In x (all_objs (cl_ls c)) -> (ob_id x < cl_next c)%nat;
  kp_refs : forall x, In x (all_objs (cl_ls c)) -> refcnt x = 0;
  kp_objs : map (fun x => (obj_desc x, ob_data x)) (all_objs (cl_ls c)) ≡ₚ l;
  kp_count : cl_put_count c = Z.of_nat (length l);
  kp_valid : Forall (fun od => valid_box (od_bb (fst od)) /\
               Z.of_nat (length (snd od)) = obj_data_size (fst od)) l;
  kp_apart : compatible mv (map fst l)
}.

Lemma obj_index_eq ls a b : ls_inv ls ->
  obj_index ls a = obj_index ls b <-> od_version a mod size_hash ls = od_version b mod size_hash ls.
Proof.
  intros Hi. unfold obj_index. pose proof (li_size _ Hi).
  pose proof (Z.mod_pos_bound (od_version a) (size_hash ls)). pose proof (Z.mod_pos_bound (od_version b) (size_hash ls)).
  split; [|by intros ->]. intros. lia.
Qed.

Lemma keeps_object mv c l o data : keeps mv c l -> (o, data) ∈ l ->
  exists x, In x (all_objs (cl_ls c)) /\ obj_desc x = o /\ ob_data x = data.
Proof.
  intros Hk Hin. rewrite <- (kp_objs _ _ _ Hk) in Hin. apply list_elem_of_fmap in Hin as (x & [= -> ->] & Hx).
  exists x. by rewrite <- list_elem_of_In.
Qed.

Lemma in_all_objs_bin ls x : ls_inv ls -> In x (all_objs ls) <-> In x (obj_bin ls (obj_index ls (obj_desc x))).
Proof.
  intros Hi. split; [|by apply in_nth_concat].
  intros (b & (m & Hm)%list_elem_of_In%list_elem_of_lookup & Hb)%in_concat.
  assert (Hnth : obj_bin ls m = b) by (unfold obj_bin; by rewrite nth_lookup, Hm).
  rewrite <- Hnth in Hb. by rewrite (li_obj_bins _ Hi m x Hb).
Qed.

(** Only the object itself answers for its descriptor. *)
Lemma keeps_find mv c l x : keeps mv c l -> In x (all_objs (cl_ls c)) -> ls_find (cl_ls c) (obj_desc x) = Some x.
Proof.
  intros Hk Hx. pose proof (kp_inv _ _ _ Hk) as Hi.
  assert (Hdl : (obj_desc x, ob_data x) ∈ l).
  { rewrite <- (kp_objs _ _ _ Hk). apply list_elem_of_fmap. exists x. split; [done|]. by apply list_elem_of_In. }
  unfold ls_find. destruct (find _ _) as [y|] eqn:Ef.
  - apply find_some in Ef as [Hy Hm]. apply in_nth_concat in Hy. fold (all_objs (cl_ls c)) in Hy.
    destruct (decide (ob_id x = ob_id y)) as [Hid|Hid].
    { by rewrite (NoDup_ids_eq _ x y (li_ids _ Hi) Hx Hy Hid). }
    assert (Hne : x <> y) by congruence. exfalso.
    apply list_elem_of_In, elem_of_Permutation in Hx as [l1 H1].
    apply list_elem_of_In in Hy. rewrite H1 in Hy. apply elem_of_cons in Hy as [?|Hy]; [congruence|].
    apply elem_of_Permutation in Hy as [l2 H2]. rewrite H2 in H1.
    pose proof (kp_objs _ _ _ Hk) as Ho. rewrite H1 in Ho. cbn [map] in Ho.
    apply obj_desc_equals_intersect_spec in Hm as (Hn & Hv & Hb).
    pose proof (kp_apart _ _ _ Hk (obj_desc x) (obj_desc y :: map fst (map (fun x => (obj_desc x, ob_data x)) l2))) as Ha.
    rewrite <- Ho in Ha. specialize (Ha ltac:(done)). apply Forall_cons in Ha as [[Ha|Ha] _].
    + apply Ha. by rewrite Hv.
    + unfold obj_desc_by_name_intersect in Ha. by rewrite Hn, String.eqb_refl, Hb in Ha.
  - exfalso. assert (Hin : In x (obj_bin (cl_ls c) (obj_index (cl_ls c) (obj_desc x)))) by (by apply in_all_objs_bin).
    pose proof (find_none _ _ Ef x Hin) as Hn. cbv beta in Hn. apply not_true_iff_false in Hn. apply Hn.
    apply obj_desc_equals_intersect_spec. split; [done|]. split; [done|].
    pose proof (kp_valid _ _ _ Hk) as Hv. rewrite Forall_forall in Hv. apply Hv in Hdl as [Hv' _]. cbn [fst] in Hv'.
    apply does_intersect_common; [done..|]. exists (lb (od_bb (obj_desc x))). split; by apply in_box_lb.
Qed.

(** A drain of a kept object hands over its data and drops it. *)
Lemma drain_kept mv c l o data :
  keeps mv c ((o, data) :: l) ->
  drain_rpc c o false = Some (c, (dspaces_ERR_MERCURY, [])) /\
  exists c', drain_rpc c o true = Some (c', (dspaces_SUCCESS, data)) /\ keeps mv c' l.
Proof.
  intros Hk. destruct (keeps_object mv c _ o data Hk) as (x & Hx & <- & <-); [by left|].
  pose proof (kp_valid _ _ _ Hk) as Hval. apply Forall_cons in Hval as [[Hv Hlen] Hval]. cbn [fst snd] in *.
  assert (Hexp : expose (ob_data x) (obj_data_size (obj_desc x)) = Some (ob_data x)).
  { rewrite <- Hlen, expose_prefix by done. by rewrite firstn_all. }
  unfold drain_rpc. rewrite (keeps_find mv c _ x Hk Hx), Hexp. cbn [mbind option_bind]. split; [done|].
  eexists. split; [reflexivity|]. unfold ls_try_remove_free. rewrite (kp_refs _ _ _ Hk x Hx). cbn [Z.eqb].
  destruct (ls_remove_inv (cl_ls c) x (kp_inv _ _ _ Hk) Hx) as [Hi' Hp].
  assert (Hsub : forall y, In y (all_objs (ls_remove (cl_ls c) x)) -> In y (all_objs (cl_ls c))).
  { intros y Hy. apply list_elem_of_In. rewrite Hp. right. by apply list_elem_of_In. }
  pose proof (kp_objs _ _ _ Hk) as Ho. rewrite Hp in Ho. cbn [map] in Ho. apply Permutation_cons_inv in Ho.
  split; cbn [set_local cl_ls cl_next cl_put_count]; try done.
  - apply Hk.
  - intros y Hy. by apply (kp_ids _ _ _ Hk), Hsub.
  - intros y Hy. by apply (kp_refs _ _ _ Hk), Hsub.
  - rewrite (kp_count _ _ _ Hk). simpl. lia.
  - by apply (compatible_cons _ _ _ (kp_apart _ _ _ Hk)).
Qed.

(** A put of an object that competes with none kept. *)
Lemma add_kept mv c l o gd data :
  keeps mv c l -> valid_box (od_bb o) -> Z.of_nat (length data) = obj_data_size o ->
  compatible mv (map fst ((o, data) :: l)) ->
  keeps mv (set_local (ls_add_obj (cl_ls c) (mkObj (cl_next c) o gd data 0 false)) (cl_put_count c + 1)
              (S (cl_next c)) c) ((o, data) :: l).
Proof.
  intros Hk Hv Hlen Hc. set (x := mkObj _ _ _ _ _ _). pose proof (kp_inv _ _ _ Hk) as Hi.
  assert (Hfresh : ~ In (ob_id x) (map ob_id (all_objs (cl_ls c)))).
  { intros (y & Hid & Hy)%in_map_iff. pose proof (kp_ids _ _ _ Hk y Hy). cbn [x ob_id] in Hid. lia. }
  assert (Hbin : bin_evicted (cl_ls c) x = obj_bin (cl_ls c) (obj_index (cl_ls c) o)).
  { unfold bin_evicted. destruct (ls_find_no_version _ _) as [y|] eqn:Ef; [|done]. exfalso.
    apply ls_find_no_version_in in Ef as [Hy Hm]. cbn [x obj_desc] in *.
    pose proof (li_obj_bins _ Hi _ _ Hy) as Hix. apply in_nth_concat in Hy. fold (all_objs (cl_ls c)) in Hy.
    assert (Hin : obj_desc y ∈ map fst l).
    { rewrite <- (kp_objs _ _ _ Hk), map_map. apply list_elem_of_fmap. exists y. split; [done|by apply list_elem_of_In]. }
    apply compatible_cons in Hc as [Hc _]. rewrite Forall_forall in Hc. destruct (Hc _ Hin) as [Ha|Ha].
    - apply obj_index_eq in Hix; [|done]. rewrite (kp_mv _ _ _ Hk) in Hix. cbn [fst] in Ha. congruence.
    - cbn [fst] in Ha. congruence. }
  destruct (all_objs_add (cl_ls c) x Hi) as (l1 & l2 & E1 & E2). rewrite Hbin in E2. cbn [x obj_desc] in E1, E2.
  assert (Hp : all_objs (ls_add_obj (cl_ls c) x) ≡ₚ x :: all_objs (cl_ls c)).
  { rewrite E2, E1. solve_Permutation. }
  assert (Hcase : forall y, In y (all_objs (ls_add_obj (cl_ls c) x)) -> y = x \/ In y (all_objs (cl_ls c))).
  { intros y Hy%list_elem_of_In. rewrite Hp in Hy. apply elem_of_cons in Hy as [?|?]; [auto|].
    right. by apply list_elem_of_In. }
  split; cbn [set_local cl_ls cl_next cl_put_count]; try done.
  - by apply ls_add_obj_inv.
  - rewrite ls_add_obj_eq by done. apply Hk.
  - intros y [->|Hy]%Hcase; [simpl; lia|]. pose proof (kp_ids _ _ _ Hk y Hy). lia.
  - intros y [->|Hy]%Hcase; [done|]. by apply (kp_refs _ _ _ Hk).
  - rewrite Hp. cbn [map x obj_desc ob_data]. by rewrite (kp_objs _ _ _ Hk).
  - rewrite (kp_count _ _ _ Hk). simpl. lia.
  - constructor; [done|]. apply Hk.
Qed.
End Local.

(** ** Histories of a client's storage *)

(** The arguments of a [dspaces_put_local] and the server's reply. *)
Record put_args := mkArgs {
  a_name : string;
  a_ver : Z;
  a_size : Z;
  a_ndim : nat;
  a_lb : list Z;
  a_ub : list Z;
  a_data : list Z;
  a_reply : option Z
}.

Inductive local_event :=
| LE_put (a : put_args)
| LE_drain (o : obj_descriptor) (xfer : bool).

Definition args_odsc (c : client) (a : put_args) : option obj_descriptor :=
  put_odsc c (a_name a) (a_ver a) (a_size a) DS_CLIENT_STORAGE 0 0 (cl_addr c) (a_ndim a) (a_lb a) (a_ub a).

Section History.
Context `{E : Env}.

(** One event at a client: its new state and what it answers. *)
Definition client_step (c : client) (e : local_event) : option (client * (Z * list Z)) :=
  match e with
  | LE_put a =>
      '(c, _, ret) ← dspaces_put_local c (a_name a) (a_ver a) (a_size a) (a_ndim a) (a_lb a) (a_ub a) (a_data a) (a_reply a);
      Some (c, (ret, []))
  | LE_drain o xfer => drain_rpc c o xfer
  end.

Fixpoint client_run (c : client) (es : list local_event) : option (client * list (Z * list Z)) :=
  match es with
  | [] => Some (c, [])
  | e :: es =>
      '(c, r) ← client_step c e;
      '(c, rs) ← client_run c es;
      Some (c, r :: rs)
  end.

Lemma client_run_cons c e es c2 rs :
  client_run c (e :: es) = Some (c2, rs) ->
  exists c1 r rs', client_step c e = Some (c1, r) /\ client_run c1 es = Some (c2, rs') /\ rs = r :: rs'.
Proof.
  cbn [client_run]. destruct (client_step c e) as [[c1 r]|]; [|done]. cbn [mbind option_bind].
  destruct (client_run c1 es) as [[c3 rs']|] eqn:Er; [|done]. cbn [mbind option_bind]. intros [= <- <-]. by exists c1, r, rs'.
Qed.

(** The abstract storage: the objects put and not drained yet. *)
Definition outstanding : Type := list (obj_descriptor * list Z).

Definition stored_data (a : put_args) (o : obj_descriptor) : list Z := take (Z.to_nat (obj_data_size o)) (a_data a).

Definition spec_step (c : client) (l : outstanding) (e : local_event) : outstanding * (Z * list Z) :=
  match e with
  | LE_put a =>
      (match args_odsc c a with Some o => (o, stored_data a o) :: l | None => l end,
       (default dspaces_ERR_MERCURY (a_reply a), []))
  | LE_drain o true =>
      match List.filter (fun od => bool_decide (fst od = o)) l with
      | [] => (l, (dspaces_ERR_MERCURY, []))
      | (_, data) :: _ => (List.filter (fun od => negb (bool_decide (fst od = o))) l, (dspaces_SUCCESS, data))
      end
  | LE_drain _ false => (l, (dspaces_ERR_MERCURY, []))
  end.

Fixpoint spec_run (c : client) (l : outstanding) (es : list local_event) : outstanding * list (Z * list Z) :=
  match es with
  | [] => (l, [])
  | e :: es =>
      let '(l, r) := spec_step c l e in
      let '(l, rs) := spec_run c l es in (l, r :: rs)
  end.

(** An object put is valid, fits a block, and competes with none outstanding;
    a server drains descriptors it was sent. *)
Definition event_fits (mv : Z) (c : client) (l : outstanding) (e : local_event) : Prop :=
  match e with
  | LE_put a => exists o, args_odsc c a = Some o /\ valid_box (od_bb o) /\ small_obj o /\
      obj_data_size o <= Z.of_nat (length (a_data a)) /\ compatible mv (o :: map fst l)
  | LE_drain o _ => o ∈ map fst l \/
      Forall (fun x => obj_desc_equals_intersect o (fst x) = false) l
  end.

Fixpoint run_fits (mv : Z) (c : client) (l : outstanding) (es : list local_event) : Prop :=
  match es with
  | [] => True
  | e :: es => event_fits mv c l e /\ run_fits mv c (fst (spec_step c l e)) es
  end.

(** What no local event changes. *)
Definition same_identity (c c' : client) : Prop :=
  cl_nspace c' = cl_nspace c /\ cl_gdims c' = cl_gdims c /\ cl_default_gdim c' = cl_default_gdim c /\
  cl_addr c' = cl_addr c.

Lemma args_odsc_same c c' a : same_identity c c' -> args_odsc c' a = args_odsc c a.
Proof. intros (En & _ & _ & Ea). unfold args_odsc, put_odsc. by rewrite En, Ea. Qed.

Lemma spec_step_same c c' l e : same_identity c c' -> spec_step c' l e = spec_step c l e.
Proof. intros Hs. destruct e as [a|o []]; cbn [spec_step]; try done. by rewrite (args_odsc_same c c'). Qed.

Lemma spec_run_same c c' es : forall l, same_identity c c' -> spec_run c' l es = spec_run c l es.
Proof.
  induction es as [|e es IH]; intros l Hs; cbn [spec_run]; [done|]. rewrite (spec_step_same c c' l e Hs).
  destruct (spec_step c l e) as [l' r]. by rewrite IH.
Qed.

Lemma run_fits_same mv c c' es : forall l, same_identity c c' -> run_fits mv c l es -> run_fits mv c' l es.
Proof.
  induction es as [|e es IH]; intros l Hs; cbn [run_fits]; [done|]. intros [He Hr]. split.
  - destruct e as [a|o x]; cbn [event_fits] in *; [|done]. by rewrite (args_odsc_same c c').
  - rewrite (spec_step_same c c' l e Hs). by apply IH.
Qed.

Lemma put_local_spec c a o : args_odsc c a = Some o -> small_obj o ->
  obj_data_size o <= Z.of_nat (length (a_data a)) ->
  client_step c (LE_put a)
  = Some (set_local (ls_add_obj (cl_ls c) (mkObj (cl_next c) o (client_gdim c o) (stored_data a o) 0 false))
            (cl_put_count c + 1) (S (cl_next c)) c, (default dspaces_ERR_MERCURY (a_reply a), [])).
Proof.
  intros Ho Hsm Hlen. cbn [client_step]. unfold dspaces_put_local. unfold args_odsc in Ho. rewrite Ho.
  cbn [mbind option_bind]. unfold obj_data_alloc_with_data. rewrite obj_data_alloc_small by done.
  cbn [mbind option_bind ob_data]. pose proof (obj_data_size_range o) as H0.
  rewrite memcpy_whole by (rewrite length_malloc; lia). cbn [mbind option_bind ob_id ob_data].
  rewrite length_malloc. done.
Qed.

Lemma filter_named (l : outstanding) o :
  NoDup (map fst l) -> o ∈ map fst l -> exists data,
    List.filter (fun od => bool_decide (fst od = o)) l = [(o, data)] /\
    l ≡ₚ (o, data) :: List.filter (fun od => negb (bool_decide (fst od = o))) l.
Proof.
  induction l as [|[o' d] l IH]; cbn [map fst List.filter]; intros Hnd Ho; [by apply elem_of_nil in Ho|].
  apply NoDup_cons in Hnd as [Hn Hnd]. case_bool_decide as Eo.
  - subst o'. exists d. cbn [negb].
    assert (E1 : List.filter (fun od => bool_decide (fst od = o)) l = []).
    { clear - Hn. induction l as [|[o2 d2] l IH]; [done|]. cbn [map fst List.filter] in *.
      apply not_elem_of_cons in Hn as [Hne Hn]. rewrite bool_decide_false by congruence. by apply IH. }
    assert (E2 : List.filter (fun od => negb (bool_decide (fst od = o))) l = l).
    { clear - Hn. induction l as [|[o2 d2] l IH]; [done|]. cbn [map fst List.filter] in *.
      apply not_elem_of_cons in Hn as [Hne Hn]. rewrite bool_decide_false by congruence. cbn [negb]. by rewrite IH. }
    by rewrite E1, E2.
  - apply elem_of_cons in Ho as [?|Ho]; [congruence|]. destruct (IH Hnd Ho) as (data & E1 & E2).
    exists data. split; [done|]. cbn [negb]. rewrite E2 at 1. apply Permutation_swap.
Qed.
End History.

Section Refinement.
Context `{E : Env}.

Lemma self_meets o : valid_box (od_bb o) -> bbox_does_intersect (od_bb o) (od_bb o) = true.
Proof.
  intros Hv. apply does_intersect_common; [done..|]. exists (lb (od_bb o)). split; by apply in_box_lb.
Qed.

Lemma not_apart_self mv o : valid_box (od_bb o) -> ~ apart mv o o.
Proof.
  intros Hv [H|H]; [done|]. unfold obj_desc_by_name_intersect in H.
  by rewrite String.eqb_refl, self_meets in H.
Qed.

Lemma compatible_NoDup mv (l : outstanding) :
  compatible mv (map fst l) -> Forall (fun od => valid_box (od_bb (fst od))) l -> NoDup (map fst l).
Proof.
  induction l as [|[o d] l IH]; cbn [map fst]; intros Hc Hv; [constructor|].
  apply compatible_cons in Hc as [Ho Hc]. apply Forall_cons in Hv as [Hvo Hv]. constructor; [|by apply IH].
  intros Hin. rewrite Forall_forall in Ho. by apply (not_apart_self mv o Hvo), Ho.
Qed.

Lemma keeps_perm mv c l l' : l ≡ₚ l' -> keeps mv c l -> keeps mv c l'.
Proof.
  intros Hp []. split; try done; try by rewrite <- Hp.
  eapply compatible_perm; [|exact kp_apart0]. by apply Permutation_map.
Qed.

Lemma client_step_refines mv c l e :
  keeps mv c l -> event_fits mv c l e ->
  exists c', client_step c e = Some (c', snd (spec_step c l e)) /\ keeps mv c' (fst (spec_step c l e)) /\
    same_identity c c'.
Proof.
  intros Hk Hf. destruct e as [a|o xfer]; cbn [event_fits] in Hf.
  - destruct Hf as (o & Ho & Hv & Hsm & Hlen & Hc). rewrite (put_local_spec c a o Ho Hsm Hlen).
    eexists. split; [reflexivity|]. cbn [spec_step fst]. rewrite Ho. split; [|done].
    apply add_kept; try done. unfold stored_data. rewrite length_take. pose proof (obj_data_size_range o). lia.
  - cbn [client_step]. destruct Hf as [Ho|Hno].
    + pose proof (kp_valid _ _ _ Hk) as Hval.
      assert (Hnd : NoDup (map fst l)).
      { apply (compatible_NoDup mv); [apply Hk|]. eapply Forall_impl; [exact Hval|]. by intros x [? _]. }
      destruct (filter_named l o Hnd Ho) as (data & Ef & Hp).
      pose proof (keeps_perm _ _ _ _ Hp Hk) as Hk'. destruct (drain_kept _ _ _ _ _ Hk') as [H0 (c' & H1 & Hk1)].
      destruct xfer; cbn [spec_step]; rewrite ?Ef; cbn [fst snd].
      * exists c'. split; [done|]. split; [done|]. unfold drain_rpc in H1.
        destruct (ls_find _ _); [|discriminate H1]. destruct (expose _ _); [|discriminate H1].
        cbn [mbind option_bind] in H1. injection H1 as <- _. done.
      * exists c. done.
    + assert (Hn : ls_find (cl_ls c) o = None).
      { unfold ls_find. destruct (find _ _) as [y|] eqn:Ef; [|done]. exfalso. apply find_some in Ef as [Hy Hm].
        apply in_nth_concat in Hy. rewrite Forall_forall in Hno. specialize (Hno (obj_desc y, ob_data y)).
        cbn [fst] in Hno. rewrite Hm in Hno. discriminate Hno. rewrite <- (kp_objs _ _ _ Hk).
        apply list_elem_of_fmap. exists y. split; [done|]. by apply list_elem_of_In. }
      unfold drain_rpc. rewrite Hn. destruct xfer; cbn [spec_step]; [|by exists c].
      assert (Ef : List.filter (fun od => bool_decide (fst od = o)) l = []).
      { pose proof (kp_valid _ _ _ Hk) as Hval. clear - Hno Hval. induction l as [|[o' d] l IH]; [done|].
        apply Forall_cons in Hno as [H1 Hno]. apply Forall_cons in Hval as [[H2 _] Hval]. cbn [List.filter fst] in *.
        rewrite bool_decide_false; [by apply IH|]. intros ->. apply not_true_iff_false in H1. apply H1.
        apply obj_desc_equals_intersect_spec. split; [done|]. split; [done|]. by apply self_meets. }
      rewrite Ef. by exists c.
Qed.

(** C6: A client's storage is the list of its outstanding objects.  From a
    client that keeps [l], any sequence of local puts that do not compete with
    what is outstanding and of drains, successful or not, runs without error,
    answers each request as the list does (the bytes that were put, an error
    for a descriptor already drained) and ends keeping the list's end state;
    [dspaces_fini] waits exactly as long as an object is outstanding. *)
Theorem client_storage_refines mv es : forall c l,
  keeps mv c l -> run_fits mv c l es ->
  exists c', client_run c es = Some (c', snd (spec_run c l es)) /\ keeps mv c' (fst (spec_run c l es)) /\
    fini_waits c' = match fst (spec_run c l es) with [] => false | _ => true end.
Proof.
  induction es as [|e es IH]; intros c l Hk Hf; cbn [client_run spec_run].
  - exists c. split; [done|]. split; [done|]. unfold fini_waits. cbn [set_final cl_put_count].
    rewrite (kp_count _ _ _ Hk). destruct l; [done|]. simpl length. by destruct (Z.ltb_spec 0 (Z.of_nat (S (length l)))); [|lia].
  - destruct Hf as [He Hr]. destruct (client_step_refines mv c l e Hk He) as (c1 & -> & Hk1 & Hs).
    cbn [mbind option_bind]. destruct (IH c1 (fst (spec_step c l e)) Hk1 (run_fits_same _ _ _ _ _ Hs Hr))
      as (c' & -> & Hk' & Hw).
    cbn [mbind option_bind]. rewrite (spec_run_same c c1 es _ Hs) in *.
    destruct (spec_step c l e) as [l1 r]. cbn [fst snd] in *. destruct (spec_run c l1 es) as [l2 rs]. by exists c'.
Qed.

(** ** Overwriting an object that was not drained *)

(** More objects counted than kept. *)
Record overcounts (c : client) : Prop := {
  oc_inv : ls_inv (cl_ls c);
  oc_ids : forall x, In x (all_objs (cl_ls c)) -> (ob_id x < cl_next c)%nat;
  oc_refs : forall x, In x (all_objs (cl_ls c)) -> refcnt x = 0;
  oc_count : num_obj (cl_ls c) < cl_put_count c
}.

Lemma num_obj_nonneg ls : ls_inv ls -> 0 <= num_obj ls.
Proof. intros Hi. rewrite (li_num _ Hi). lia. Qed.

Lemma add_overcounts c o gd data :
  ls_inv (cl_ls c) -> (forall x, In x (all_objs (cl_ls c)) -> (ob_id x < cl_next c)%nat) ->
  (forall x, In x (all_objs (cl_ls c)) -> refcnt x = 0) ->
  num_obj (cl_ls c) <= cl_put_count c ->
  (num_obj (cl_ls c) < cl_put_count c \/ is_Some (ls_find_no_version (cl_ls c) o)) ->
  overcounts (set_local (ls_add_obj (cl_ls c) (mkObj (cl_next c) o gd data 0 false)) (cl_put_count c + 1)
                (S (cl_next c)) c).
Proof.
  intros Hi Hids Hrefs Hle Hov. set (x := mkObj _ _ _ _ _ _).
  assert (Hfresh : ~ In (ob_id x) (map ob_id (all_objs (cl_ls c)))).
  { intros (y & Hid & Hy)%in_map_iff. pose proof (Hids y Hy). cbn [x ob_id] in Hid. lia. }
  pose proof (ls_add_obj_inv _ x Hi Hfresh) as Hi'.
  destruct (all_objs_add (cl_ls c) x Hi) as (l1 & l2 & E1 & E2).
  assert (Hcase : forall y, In y (all_objs (ls_add_obj (cl_ls c) x)) -> y = x \/ In y (all_objs (cl_ls c))).
  { intros y Hy. rewrite E2 in Hy. rewrite E1. rewrite !in_app_iff in *. cbn [In] in Hy.
    destruct Hy as [?|[[<-|Hy]|?]]; auto. right. right. left. unfold bin_evicted in Hy.
    destruct (ls_find_no_version (cl_ls c) (obj_desc x)) as [e|] eqn:Ee; [|done].
    apply ls_find_no_version_in in Ee as [He _]. rewrite Hrefs in Hy by (by eapply in_nth_concat).
    cbn [Z.eqb] in Hy. by apply filter_In in Hy as [? _]. }
  split; cbn [set_local cl_ls cl_next cl_put_count]; try done.
  - intros y [->|Hy]%Hcase; [simpl; lia|]. pose proof (Hids y Hy). lia.
  - intros y [->|Hy]%Hcase; [done|auto].
  - unfold ls_add_obj. cbn [x obj_desc]. destruct (ls_find_no_version (cl_ls c) o) as [e|] eqn:Ee.
    + apply ls_find_no_version_in in Ee as [He _]. rewrite Hrefs by (by eapply in_nth_concat).
      cbn [Z.eqb set_objs num_obj]. lia.
    + cbn [set_objs num_obj]. destruct Hov as [?|[? ?]]; [lia|done].
Qed.

Lemma client_step_overcounts c e c' r : overcounts c -> client_step c e = Some (c', r) -> overcounts c'.
Proof.
  intros [Hi Hids Hrefs Hc] Hs. destruct e as [a|o xfer]; cbn [client_step] in Hs.
  - unfold dspaces_put_local in Hs. destruct (put_odsc _ _ _ _ _ _ _ _ _ _ _) as [o|]; [|done]. cbn [mbind option_bind] in Hs.
    destruct (obj_data_alloc_with_data _ _ _) as [od|] eqn:Eo; [|done]. cbn [mbind option_bind] in Hs. simplify_eq.
    assert (Hid : ob_id od = cl_next c).
    { unfold obj_data_alloc_with_data in Eo. destruct (obj_data_alloc _ _); [|done]. cbn [mbind option_bind] in Eo.
      destruct (memcpy _ _ _ _ _); [|done]. cbn [mbind option_bind] in Eo. by simplify_eq. }
    rewrite Hid. apply add_overcounts; try done; [lia|by left].
  - unfold drain_rpc in Hs. destruct (ls_find _ _) as [x|] eqn:Ef; [|by simplify_eq].
    destruct (expose _ _); [|done]. cbn [mbind option_bind] in Hs. destruct xfer; simplify_eq; [|done].
    apply find_some in Ef as [Hx _]. apply in_nth_concat in Hx. fold (all_objs (cl_ls c)) in Hx.
    unfold ls_try_remove_free. rewrite (Hrefs x Hx). cbn [Z.eqb].
    destruct (ls_remove_inv (cl_ls c) x Hi Hx) as [Hi' Hp].
    assert (Hsub : forall y, In y (all_objs (ls_remove (cl_ls c) x)) -> In y (all_objs (cl_ls c))).
    { intros y Hy. apply list_elem_of_In. rewrite Hp. right. by apply list_elem_of_In. }
    split; cbn [set_local cl_ls cl_next cl_put_count]; auto. unfold ls_remove. cbn [set_objs num_obj]. lia.
Qed.

(** A local put over an object that was not drained is counted but
    replaces it: whatever is put and drained afterwards, [dspaces_fini] keeps
    waiting for a drain that cannot come (until the servers kill the
    client). *)
Theorem overwrite_blocks_fini mv c l a o c1 r es c2 rs :
  keeps mv c l -> args_odsc c a = Some o ->
  (exists x, x ∈ map fst l /\ od_version x mod mv = od_version o mod mv /\
     obj_desc_by_name_intersect o x = true) ->
  client_step c (LE_put a) = Some (c1, r) -> client_run c1 es = Some (c2, rs) ->
  fini_waits c2 = true.
Proof.
  intros Hk Ho (x & Hx & Hv & Hb) Hs Hr.
  assert (H1 : overcounts c1).
  { cbn [client_step] in Hs. unfold dspaces_put_local in Hs. unfold args_odsc in Ho. rewrite Ho in Hs. cbn [mbind option_bind] in Hs.
    destruct (obj_data_alloc_with_data _ _ _) as [od|] eqn:Eo; [|done]. cbn [mbind option_bind] in Hs. simplify_eq.
    assert (Hid : ob_id od = cl_next c).
    { unfold obj_data_alloc_with_data in Eo. destruct (obj_data_alloc _ _); [|done]. cbn [mbind option_bind] in Eo.
      destruct (memcpy _ _ _ _ _); [|done]. cbn [mbind option_bind] in Eo. by simplify_eq. }
    rewrite Hid. pose proof (kp_inv _ _ _ Hk) as Hi. apply add_overcounts; try apply Hk.
    - rewrite (li_num _ Hi), (kp_count _ _ _ Hk). apply Nat2Z.inj_le. pose proof (kp_objs _ _ _ Hk) as Hp.
      apply Permutation_length in Hp. rewrite length_map in Hp. lia.
    - right. unfold ls_find_no_version. destruct (find _ _) eqn:Ef; [by eexists|]. exfalso.
      apply list_elem_of_fmap in Hx as ([x' d] & -> & Hx).
      destruct (keeps_object _ _ _ _ _ Hk Hx) as (y & Hy & Hd & _). cbn [fst] in *.
      apply (in_all_objs_bin _ _ Hi) in Hy. rewrite Hd in Hy.
      assert (Ei : obj_index (cl_ls c) x' = obj_index (cl_ls c) o)
        by (apply obj_index_eq; [done|]; by rewrite (kp_mv _ _ _ Hk)).
      rewrite Ei in Hy. pose proof (find_none _ _ Ef y Hy) as Hn. cbv beta in Hn. rewrite Hd in Hn. congruence. }
  clear - H1 Hr. revert c1 rs H1 Hr. induction es as [|e es IH]; intros c1 rs H1 Hr.
  - cbn [client_run] in Hr. simplify_eq. unfold fini_waits. cbn [set_final cl_put_count].
    pose proof (num_obj_nonneg _ (oc_inv _ H1)). pose proof (oc_count _ H1). by apply Z.ltb_lt; lia.
  - destruct (client_run_cons _ _ _ _ _ Hr) as (c3 & r3 & rs' & Es & Er & _).
    eapply IH; [|exact Er]. by eapply client_step_overcounts.
Qed.
End Refinement.

(** ** Concrete inputs *)

#[local] Instance store_env : Env := {
  env_fuel := 0;
  env_dim := 0;
  env_coord := zero_coord;
  env_malloc n := replicate n 0;
  env_py_exec _ _ _ := None;
  env_remote_get _ _ _ := None;
  env_lz4_compress _ := None
}.

Definition store_client : client :=
  mkClient 0 "n" ["n"%string] 0 "cl" None [] (mkGdim 2 (8 :: 5 :: replicate 8 0)) (ls_alloc 2) 0 false 1.

Lemma store_client_keeps : keeps 2 store_client [].
Proof.
  split; try done.
  - apply ls_inv_alloc. lia.
  - intros o l H. by apply Permutation_nil_cons in H.
Qed.

Definition store_put (ver l u : Z) (data : list Z) : put_args := mkArgs "v" ver 1 1 [l] [u] data (Some 0).
Definition store_odsc (ver l u : Z) : obj_descriptor :=
  mkOdsc "v" column_major 1 0 0 "cl" ver (mkBBox 1 (l :: replicate 9 0) (u :: replicate 9 0)) 1.

Definition store_events : list local_event :=
  [LE_put (store_put 1 0 1 [10; 11]); LE_put (store_put 1 2 3 [12; 13; 14]);
   LE_drain (store_odsc 1 2 3) false; LE_drain (store_odsc 1 2 3) true; LE_drain (store_odsc 1 0 1) true;
   LE_drain (store_odsc 1 0 1) true].

Lemma store_box_valid l u : 0 <= l <= u -> u < 2 ^ 64 -> valid_box (od_bb (store_odsc 1 l u)).
Proof.
  intros Hl Hu. split; [split; [vm_compute; lia|]|].
  - split; (split; [reflexivity|]); apply Forall_cons; (split; [unfold in_u64; lia|]);
      apply Forall_replicate; unfold in_u64; lia.
  - intros [|i] Hi; [unfold cget; simpl; lia|simpl in Hi; lia].
Qed.

Lemma client_storage_refines_witness :
  exists c', client_run store_client store_events
      = Some (c', [(0, []); (0, []); (-3, []); (0, [12; 13]); (0, [10; 11]); (-3, [])]) /\
    fini_waits c' = false.
Proof.
  destruct (client_storage_refines 2 store_events store_client [] store_client_keeps) as (c' & H1 & _ & H2).
  - unfold store_events, store_put. cbn [run_fits].
    split; [|split; [|split; [|split; [|split; [|split; [|exact I]]]]]].
    + exists (store_odsc 1 0 1). split; [reflexivity|]. split; [apply store_box_valid; lia|].
      split; [vm_compute; reflexivity|]. split; [vm_compute; discriminate|].
      apply compatible_pairs. repeat constructor.
    + exists (store_odsc 1 2 3). split; [reflexivity|]. split; [apply store_box_valid; lia|].
      split; [vm_compute; reflexivity|]. split; [vm_compute; discriminate|].
      apply compatible_pairs. repeat first [apply FOP_nil | apply FOP_cons | apply Forall_nil_2 | apply Forall_cons; split];
      split; right; vm_compute; reflexivity.
    + left. vm_compute. left.
    + left. vm_compute. left.
    + left. vm_compute. left.
    + right. vm_compute. constructor.
  - exists c'. split; [rewrite H1; vm_compute; reflexivity|]. rewrite H2. vm_compute. reflexivity.
Defined.

Lemma overwrite_blocks_fini_witness :
  exists c1 c2 rs, client_run store_client [LE_put (store_put 1 0 1 [10; 11])] = Some (c1, [(0, [])]) /\
    client_run c1 [LE_put (store_put 3 1 2 [20; 21]); LE_drain (store_odsc 3 1 2) true; LE_drain (store_odsc 1 0 1) true]
      = Some (c2, rs) /\ fini_waits c2 = true.
Proof.
  assert (Hfit : run_fits 2 store_client [] [LE_put (store_put 1 0 1 [10; 11])]).
  { split; [|exact I]. exists (store_odsc 1 0 1). split; [reflexivity|]. split; [apply store_box_valid; lia|].
    split; [vm_compute; reflexivity|]. split; [vm_compute; discriminate|]. apply compatible_pairs. repeat constructor. }
  assert (H0 : exists c1, client_run store_client [LE_put (store_put 1 0 1 [10; 11])] = Some (c1, [(0, [])]) /\
    keeps 2 c1 [(store_odsc 1 0 1, [10; 11])]).
  { assert (He : event_fits 2 store_client [] (LE_put (store_put 1 0 1 [10; 11]))) by apply Hfit.
    destruct (client_step_refines 2 store_client [] _ store_client_keeps He) as (c1 & E1 & E2 & _).
    exists c1. split; [|exact E2]. cbn [client_run]. rewrite E1. reflexivity. }
  destruct H0 as (c1 & E1 & Hk).
  destruct (client_run c1 [LE_put (store_put 3 1 2 [20; 21]); LE_drain (store_odsc 3 1 2) true; LE_drain (store_odsc 1 0 1) true])
    as [[c2 rs]|] eqn:E2; [|vm_compute in E1; injection E1 as <-; vm_compute in E2; discriminate E2].
  exists c1, c2, rs. split; [exact E1|]. split; [exact E2|].
  destruct (client_run_cons _ _ _ _ _ E2) as (c3 & r3 & rs' & E3 & E4 & _).
  apply (overwrite_blocks_fini 2 c1 [(store_odsc 1 0 1, [10; 11])] (store_put 3 1 2 [20; 21]) (store_odsc 3 1 2)
    c3 r3 [LE_drain (store_odsc 3 1 2) true; LE_drain (store_odsc 1 0 1) true] c2 rs' Hk).
  - vm_compute in E1. injection E1 as <-. reflexivity.
  - exists (store_odsc 1 0 1). split; [left|]. split; vm_compute; reflexivity.
  - exact E3.
  - exact E4.
Defined.
