(* ===== verification/Conf.v ===== *)
(** * Conf: the configuration file of the servers

    [parse_conf] of [src/src/dspaces-conf.c] on the text of the file, the
    defaults and checks of [dsg_alloc] of [src/src/dspaces-server.c] around
    it, and a printer the parser inverts.  A text is a list of characters; a C
    string is the part before the terminator. *)

From Stdlib Require Import Ascii.
From S2P Require Import Prelude BBox ObjDesc Linear Sspace DhtEntry StrHash LocalStorage Matrix Codec Modules Server.

(** ** Text *)

Definition text : Type := list ascii.
Definition txt (s : string) : text := String.list_ascii_of_string s.

Definition chr (n : nat) : ascii := Ascii.ascii_of_nat n.
Definition TAB : ascii := chr 9.
Definition NEWLINE : ascii := chr 10.

Definition text_eqb (a b : text) : bool := bool_decide (a = b).

(** [' '], ['\t'] and ['\n'], and the other characters of [isspace]. *)
Definition is_blank (c : ascii) : bool := Ascii.eqb c " " || Ascii.eqb c TAB || Ascii.eqb c NEWLINE.
Definition isspace (c : ascii) : bool :=
  is_blank c || Ascii.eqb c (chr 11) || Ascii.eqb c (chr 12) || Ascii.eqb c (chr 13).

Fixpoint drop_while (f : ascii -> bool) (l : text) : text :=
  match l with c :: l' => if f c then drop_while f l' else l | [] => [] end.
Fixpoint take_while (f : ascii -> bool) (l : text) : text :=
  match l with c :: l' => if f c then c :: take_while f l' else [] | [] => [] end.

(** ** Numbers *)

Definition digit_val (c : ascii) : Z := Z.of_nat (Ascii.nat_of_ascii c) - 48.
Definition is_digit (c : ascii) : bool := (0 <=? digit_val c) && (digit_val c <=? 9).

Definition digits_val (l : text) : Z := fold_left (fun n c => n * 10 + digit_val c) l 0.

(** [strtoll] in base ten, without its range. *)
Definition scan_number (l : text) : Z :=
  match drop_while isspace l with
  | c :: l' =>
      if Ascii.eqb c "-" then - digits_val (take_while is_digit l')
      else if Ascii.eqb c "+" then digits_val (take_while is_digit l')
      else digits_val (take_while is_digit (c :: l'))
  | [] => 0
  end.

(** [atoi], [atoll]: undefined outside the range of the type. *)
Definition atoi (l : text) : option Z :=
  let n := scan_number l in if (- 2 ^ 31 <=? n) && (n <? 2 ^ 31) then Some n else None.
Definition atoll (l : text) : option Z :=
  let n := scan_number l in if (- 2 ^ 63 <=? n) && (n <? 2 ^ 63) then Some n else None.

(** [%d]. *)
Definition digit_char (d : Z) : ascii := chr (Z.to_nat (d + 48)).
Fixpoint print_digits (fuel : nat) (n : Z) : text :=
  match fuel with
  | O => []
  | S f => if n <? 10 then [digit_char n] else print_digits f (n / 10) ++ [digit_char (n mod 10)]
  end.
Definition print_int (n : Z) : text := if n <? 0 then "-"%char :: print_digits 20 (- n) else print_digits 20 n.

(** ** The options *)

(** The numeric fields of [struct ds_conf]. *)
Record raw_conf := mkRawConf {
  rc_ndim : Z;
  rc_dims : coord;
  rc_max_versions : Z;
  rc_hash_version : Z;
  rc_num_apps : Z
}.

Definition EINVAL : Z := 22.

Definition eat_spaces (line : text) : text := List.filter (fun c => negb (is_blank c)) line.

(** The tokens of [strtok]. *)
Fixpoint strtok (sep : ascii) (l : text) : list text :=
  match l with
  | [] => []
  | c :: l' =>
      if Ascii.eqb c sep then strtok sep l'
      else match l' with
           | [] => [[c]]
           | c' :: _ =>
               if Ascii.eqb c' sep then [c] :: strtok sep l'
               else match strtok sep l' with t :: ts => (c :: t) :: ts | [] => [[c]] end
           end
  end.

(** The loop over the coordinates: the array has ten. *)
Fixpoint read_dims (idx : nat) (toks : list text) (dims : coord) : option (nat * coord) :=
  match toks with
  | [] => Some (idx, dims)
  | crd :: toks =>
      n ← atoll crd;
      if (idx <? BBOX_MAX_NDIM)%nat then read_dims (S idx) toks (cset dims idx (u64 n)) else None
  end.

Definition set_dims (d : coord) (c : raw_conf) : raw_conf :=
  mkRawConf (rc_ndim c) d (rc_max_versions c) (rc_hash_version c) (rc_num_apps c).

(** The field of an option other than [dims]. *)
Definition set_option (opt : text) (v : Z) (c : raw_conf) : option raw_conf :=
  if text_eqb opt (txt "ndim") then Some (mkRawConf v (rc_dims c) (rc_max_versions c) (rc_hash_version c) (rc_num_apps c))
  else if text_eqb opt (txt "max_versions") then Some (mkRawConf (rc_ndim c) (rc_dims c) v (rc_hash_version c) (rc_num_apps c))
  else if text_eqb opt (txt "hash_version") then Some (mkRawConf (rc_ndim c) (rc_dims c) (rc_max_versions c) v (rc_num_apps c))
  else if text_eqb opt (txt "num_apps") then Some (mkRawConf (rc_ndim c) (rc_dims c) (rc_max_versions c) (rc_hash_version c) v)
  else None.

Definition is_option (opt : text) : bool :=
  existsb (text_eqb opt) [txt "ndim"; txt "max_versions"; txt "hash_version"; txt "num_apps"].

(** [strstr(line, "=")]. *)
Fixpoint split_at (sep : ascii) (l : text) : option (text * text) :=
  match l with
  | [] => None
  | c :: l' => if Ascii.eqb c sep then Some ([], l') else '(a, b) ← split_at sep l'; Some (c :: a, b)
  end.

Definition parse_line (line : text) (conf : raw_conf) : option (raw_conf * Z) :=
  match line with
  | c :: _ =>
      if Ascii.eqb c "#" then Some (conf, 0) else
      match split_at "=" line with
      | None => Some (conf, match eat_spaces line with [] => 0 | _ => - EINVAL end)
      | Some (name, t) =>
          let name := eat_spaces name in
          if text_eqb name (txt "dims") then
            '(idx, dims) ← read_dims 0 (strtok "," t) (rc_dims conf);
            Some (set_dims dims conf, if Z.of_nat idx =? rc_ndim conf then 0 else - EINVAL)
          else if is_option name then
            v ← atoi t; conf ← set_option name v conf; Some (conf, 0)
          else Some (conf, 0)
      end
  | [] => Some (conf, 0)
  end.

(** ** The file *)

(** The lines [fgets] reads into [n] more bytes of a buffer of [size]. *)
Fixpoint fgets_lines (size n : nat) (cur s : text) : list text :=
  match s with
  | [] => match cur with [] => [] | _ => [rev cur] end
  | c :: s' =>
      match n with
      | O | 1%nat => rev (c :: cur) :: fgets_lines size (size - 1) [] s'
      | S n' => if Ascii.eqb c NEWLINE then rev (c :: cur) :: fgets_lines size (size - 1) [] s'
                else fgets_lines size n' (c :: cur) s'
      end
  end.

(** The part of a buffer that is its C string. *)
Definition c_text (l : text) : text := take_while (fun c => negb (Ascii.eqb c Ascii.zero)) l.

Fixpoint parse_lines (lines : list text) (conf : raw_conf) : option (raw_conf * Z) :=
  match lines with
  | [] => Some (conf, 0)
  | line :: lines =>
      '(conf, err) ← parse_line (c_text line) conf;
      if err <? 0 then Some (conf, err) else parse_lines lines conf
  end.

(** [inl] is the [errno] of a file that cannot be opened. *)
Definition parse_conf (file : Z + text) (conf : raw_conf) : option (raw_conf * Z) :=
  match file with
  | inl errno => Some (conf, - errno)
  | inr s => parse_lines (fgets_lines 1024 1023 [] s) conf
  end.

(** ** What [dsg_alloc] makes of it *)

(** The fields as [dspaces_server_init] and [dsg_alloc] set them first. *)
Definition default_conf : raw_conf := mkRawConf 0 zero_coord 255 0 (-1).

Definition hash_version_of (n : Z) : option sspace_hash_version :=
  match n with
  | 0 => Some ssd_hash_version_auto
  | 1 => Some ssd_hash_version_v0
  | 2 => Some ssd_hash_version_v1
  | 3 => Some ssd_hash_version_v2
  | _ => None
  end.

(** The checks on the fields, and the configuration with [num_apps], or the
    error; a negative [ndim] passes the checks and is left undefined here. *)
Definition check_conf (c : raw_conf) : option (Z + ds_conf * Z) :=
  if Z.of_nat BBOX_MAX_NDIM <? rc_ndim c then Some (inl (- EINVAL))
  else
    let '(ndim, dims) := if rc_ndim c =? 0 then (1, cset (rc_dims c) 0 1) else (rc_ndim c, rc_dims c) in
    match hash_version_of (rc_hash_version c) with
    | None => Some (inl (- EINVAL))
    | Some h => if ndim <? 0 then None else Some (inr (mkConf (Z.to_nat ndim) dims (rc_max_versions c) h, rc_num_apps c))
    end.

Definition load_conf (file : Z + text) : option (Z + ds_conf * Z) :=
  '(c, err) ← parse_conf file default_conf; if err <? 0 then Some (inl err) else check_conf c.

(** ** Printed numbers *)

Lemma digit_char_val d : 0 <= d <= 9 -> digit_val (digit_char d) = d.
Proof.
  intros Hd. unfold digit_val, digit_char, chr. rewrite Ascii.nat_ascii_embedding by lia. lia.
Qed.

Lemma digit_char_digit d : 0 <= d <= 9 -> is_digit (digit_char d) = true.
Proof. intros Hd. unfold is_digit. rewrite digit_char_val by done. lia. Qed.

Lemma digits_val_snoc l c : digits_val (l ++ [c]) = digits_val l * 10 + digit_val c.
Proof. unfold digits_val. by rewrite fold_left_app. Qed.

Lemma print_digits_spec f : forall n, 0 <= n < 10 ^ Z.of_nat f ->
  digits_val (print_digits f n) = n /\ Forall (fun c => is_digit c = true) (print_digits f n) /\
  print_digits f n <> [] /\ (length (print_digits f n) <= f)%nat \/ f = O.
Proof.
  induction f as [|f IH]; intros n Hn; [by right|]. left. cbn [print_digits]. destruct (Z.ltb_spec n 10).
  - unfold digits_val. cbn [fold_left]. rewrite digit_char_val by lia. split; [lia|]. split; [|split; [done|simpl; lia]].
    by apply Forall_singleton, digit_char_digit; lia.
  - rewrite Nat2Z.inj_succ, Z.pow_succ_r in Hn by lia.
    assert (Hq : 0 <= n / 10 < 10 ^ Z.of_nat f) by (split; [apply Z.div_pos|apply Z.div_lt_upper_bound]; lia).
    pose proof (Z.mod_pos_bound n 10). destruct (IH (n / 10) Hq) as [(H1 & H2 & H3 & H4)| ->].
    + rewrite digits_val_snoc, H1, digit_char_val by lia. split; [pose proof (Z.div_mod n 10 ltac:(done)); lia|].
      split; [|split; [by destruct (print_digits f (n / 10))|rewrite length_app; simpl; lia]].
      apply Forall_app. split; [done|]. by apply Forall_singleton, digit_char_digit; lia.
    + simpl in Hn. lia.
Qed.

Lemma print_digits_20 n : 0 <= n < 10 ^ 20 ->
  digits_val (print_digits 20 n) = n /\ Forall (fun c => is_digit c = true) (print_digits 20 n) /\
  print_digits 20 n <> [] /\ (length (print_digits 20 n) <= 20)%nat.
Proof. intros Hn. destruct (print_digits_spec 20 n) as [H|H]; [done|done|done]. Qed.

(** A text that does not begin with a digit. *)
Definition no_digit (l : text) : Prop := match l with c :: _ => is_digit c = false | [] => True end.

Lemma take_digits l rest : Forall (fun c => is_digit c = true) l -> no_digit rest -> take_while is_digit (l ++ rest) = l.
Proof.
  intros Hl Hr. induction Hl as [|c l Hc _ IH]; cbn [app take_while].
  - destruct rest as [|c rest]; [done|]. cbn [take_while no_digit] in *. by rewrite Hr.
  - by rewrite Hc, IH.
Qed.

Lemma digit_not_special c : is_digit c = true ->
  isspace c = false /\ Ascii.eqb c "-" = false /\ Ascii.eqb c "+" = false /\ Ascii.eqb c "," = false /\
  Ascii.eqb c NEWLINE = false /\ Ascii.eqb c Ascii.zero = false /\ is_blank c = false.
Proof. destruct c as [[] [] [] [] [] [] [] []]; vm_compute; intros; repeat split; congruence. Qed.

Lemma drop_spaces_digits l rest : Forall (fun c => is_digit c = true) l -> l <> [] ->
  drop_while isspace (l ++ rest) = l ++ rest.
Proof.
  intros Hl Hne. destruct Hl as [|c l Hc _]; [done|]. cbn [app drop_while].
  by destruct (digit_not_special c Hc) as [-> _].
Qed.

Lemma scan_print n rest : - 2 ^ 63 <= n < 2 ^ 63 -> no_digit rest -> scan_number (print_int n ++ rest) = n.
Proof.
  intros Hn Hr. unfold print_int, scan_number. destruct (Z.ltb_spec n 0).
  - cbn [app drop_while]. destruct (print_digits_20 (- n)) as (H1 & H2 & _); [lia|].
    change (isspace "-") with false. cbn iota. rewrite take_digits by done. change (Ascii.eqb "-" "-") with true. cbn iota. lia.
  - destruct (print_digits_20 n) as (H1 & H2 & H3 & _); [lia|]. rewrite drop_spaces_digits by done.
    assert (Ht : take_while is_digit (print_digits 20 n ++ rest) = print_digits 20 n) by (by apply take_digits).
    destruct (print_digits 20 n) as [|c l] eqn:Ep; [done|]. cbn [app] in *. apply Forall_cons in H2 as [Hc _].
    destruct (digit_not_special c Hc) as (_ & -> & -> & _). by rewrite Ht.
Qed.

Lemma scan_space l : scan_number (" "%char :: l) = scan_number l.
Proof. done. Qed.

Lemma atoi_print n rest : - 2 ^ 31 <= n < 2 ^ 31 -> no_digit rest -> atoi (" "%char :: print_int n ++ rest) = Some n.
Proof.
  intros Hn Hr. unfold atoi. rewrite scan_space, scan_print by (done || lia).
  destruct (Z.leb_spec (- 2 ^ 31) n); [|lia]. destruct (Z.ltb_spec n (2 ^ 31)); [done|lia].
Qed.

Lemma atoll_print n rest : - 2 ^ 63 <= n < 2 ^ 63 -> no_digit rest ->
  atoll (print_int n ++ rest) = Some n /\ atoll (" "%char :: print_int n ++ rest) = Some n.
Proof.
  intros Hn Hr. unfold atoll. rewrite scan_space, scan_print by (done || lia).
  destruct (Z.leb_spec (- 2 ^ 63) n); [|lia]. by destruct (Z.ltb_spec n (2 ^ 63)); [|lia].
Qed.

(** ** Tokens and lines *)

Definition no_char (c : ascii) (l : text) : Prop := Forall (fun x => Ascii.eqb x c = false) l.

Fixpoint join (sep : ascii) (toks : list text) : text :=
  match toks with
  | [] => []
  | [t] => t
  | t :: toks => t ++ sep :: join sep toks
  end.

Lemma strtok_step sep c c' l : Ascii.eqb c sep = false -> strtok sep (c :: c' :: l) =
  if Ascii.eqb c' sep then [c] :: strtok sep (c' :: l)
  else match strtok sep (c' :: l) with t :: ts => (c :: t) :: ts | [] => [[c]] end.
Proof.
  intros Hc. remember (c' :: l) as l' eqn:El. cbn [strtok]. rewrite Hc. by rewrite El.
Qed.

Lemma strtok_one sep t : no_char sep t -> t <> [] -> strtok sep t = [t].
Proof.
  intros Ht. induction Ht as [|c t Hc Ht IH]; intros Hne; [done|].
  destruct t as [|c' t]; [cbn [strtok]; by rewrite Hc|]. rewrite strtok_step by done.
  pose proof (Forall_inv Ht) as Hc'. cbv beta in Hc'. by rewrite Hc', IH.
Qed.

Lemma strtok_cons sep t l : no_char sep t -> t <> [] -> strtok sep (t ++ sep :: l) = t :: strtok sep l.
Proof.
  intros Ht. induction Ht as [|c t Hc Ht IH]; intros Hne; [done|].
  assert (Hs : strtok sep (sep :: l) = strtok sep l) by (cbn [strtok]; by rewrite Ascii.eqb_refl).
  destruct t as [|c' t]; cbn [app].
  - rewrite strtok_step, Ascii.eqb_refl by done. by rewrite Hs.
  - cbn [app] in IH. rewrite strtok_step by done. pose proof (Forall_inv Ht) as Hc'. cbv beta in Hc'. by rewrite Hc', IH.
Qed.

Lemma strtok_join sep toks : Forall (fun t => no_char sep t /\ t <> []) toks -> strtok sep (join sep toks) = toks.
Proof.
  induction toks as [|t toks IH]; intros H; [done|]. apply Forall_cons in H as [[Ht Hne] H].
  destruct toks as [|t' toks]; [by apply strtok_one|].
  change (join sep (t :: t' :: toks)) with (t ++ sep :: join sep (t' :: toks)). rewrite strtok_cons by done. by rewrite IH.
Qed.

Lemma fgets_line size n cur l s : (length l < n)%nat -> no_char NEWLINE l ->
  fgets_lines size n cur (l ++ NEWLINE :: s) = (rev cur ++ l ++ [NEWLINE]) :: fgets_lines size (size - 1) [] s.
Proof.
  revert n cur. induction l as [|c l IH]; intros n cur Hn Hl; cbn [app length] in *.
  - cbn [fgets_lines]. destruct n as [|[|n]]; [lia|by cbn [rev]|]. change (Ascii.eqb NEWLINE NEWLINE) with true. by cbn [rev].
  - destruct n as [|[|n]]; [lia|lia|]. cbn [fgets_lines]. apply Forall_cons in Hl as [-> Hl].
    rewrite IH by (done || lia). cbn [rev]. by rewrite <- !app_assoc.
Qed.

Lemma fgets_all ls : Forall (fun l => (length l < 1023)%nat /\ no_char NEWLINE l) ls ->
  fgets_lines 1024 1023 [] (concat (map (fun l => l ++ [NEWLINE]) ls)) = map (fun l => l ++ [NEWLINE]) ls.
Proof.
  intros H. induction H as [|l ls [Hl Hn] _ IH]; [done|]. cbn [map concat].
  replace ((l ++ [NEWLINE]) ++ concat (map (fun l => l ++ [NEWLINE]) ls))
    with (l ++ NEWLINE :: concat (map (fun l => l ++ [NEWLINE]) ls)) by (by rewrite <- app_assoc).
  rewrite fgets_line by done. change (1024 - 1)%nat with 1023%nat. cbn [rev app]. by rewrite IH.
Qed.

Lemma split_at_first sep a b : no_char sep a -> split_at sep (a ++ sep :: b) = Some (a, b).
Proof.
  intros Ha. induction Ha as [|c a Hc _ IH]; cbn [app split_at]; [by rewrite Ascii.eqb_refl|]. by rewrite Hc, IH.
Qed.

(** The digits and sign of a number are no separators. *)
Lemma print_int_plain n : - 2 ^ 63 <= n < 2 ^ 63 ->
  Forall (fun c => is_digit c = true \/ c = "-"%char) (print_int n) /\ print_int n <> [] /\ (length (print_int n) <= 21)%nat.
Proof.
  intros Hn. unfold print_int. destruct (Z.ltb_spec n 0).
  - destruct (print_digits_20 (- n)) as (_ & H2 & _ & H4); [lia|]. split; [|split; [done|cbn [length]; lia]].
    constructor; [by right|]. eapply Forall_impl; [exact H2|]. by left.
  - destruct (print_digits_20 n) as (_ & H2 & H3 & H4); [lia|]. split; [|split; [done|lia]].
    eapply Forall_impl; [exact H2|]. by left.
Qed.

Lemma print_no_char n c : - 2 ^ 63 <= n < 2 ^ 63 -> is_digit c = false -> c <> "-"%char -> no_char c (print_int n).
Proof.
  intros Hn Hc Hm. destruct (print_int_plain n Hn) as [H _]. eapply Forall_impl; [exact H|].
  intros x Hx. apply Ascii.eqb_neq. intros ->. destruct Hx; congruence.
Qed.

(** ** Printing a configuration *)

Definition option_line (name : string) (v : text) : text := txt name ++ txt " =" ++ " "%char :: v.

Definition conf_lines (c : raw_conf) (n : nat) : list text :=
  [option_line "ndim" (print_int (Z.of_nat n));
   option_line "dims" (join "," (map print_int (take n (rc_dims c))));
   option_line "max_versions" (print_int (rc_max_versions c));
   option_line "hash_version" (print_int (rc_hash_version c));
   option_line "num_apps" (print_int (rc_num_apps c))].

Definition conf_text (c : raw_conf) (n : nat) : text := concat (map (fun l => l ++ [NEWLINE]) (conf_lines c n)).

(** The fields within their types; a size is below [2^63], which is what
    [atoll] reads. *)
Record conf_range (c : raw_conf) : Prop := {
  cr_dims : length (rc_dims c) = BBOX_MAX_NDIM /\ Forall (fun d => 0 <= d < 2 ^ 63) (rc_dims c);
  cr_mv : - 2 ^ 31 <= rc_max_versions c < 2 ^ 31;
  cr_hv : - 2 ^ 31 <= rc_hash_version c < 2 ^ 31;
  cr_na : - 2 ^ 31 <= rc_num_apps c < 2 ^ 31
}.

(** The sizes after one more is stored. *)
Lemma cset_next idx (dims : coord) d ds : (idx + S (length ds) <= BBOX_MAX_NDIM)%nat -> length dims = BBOX_MAX_NDIM ->
  take (S idx) (cset dims idx (u64 d)) ++ map u64 ds ++ drop (S idx + length ds) (cset dims idx (u64 d))
    = take idx dims ++ map u64 (d :: ds) ++ drop (idx + S (length ds)) dims.
Proof.
  intros Hn Hl. unfold cset. rewrite drop_insert_lt by lia. rewrite insert_take_drop by (unfold coord in *; lia).
  rewrite take_app_ge, length_take_le by (rewrite ?length_take_le; unfold coord in *; lia).
  replace (S idx - idx)%nat with 1%nat by lia. cbn [take]. rewrite take_0, <- app_assoc. cbn [map app].
  by replace (S idx + length ds)%nat with (idx + S (length ds))%nat by lia.
Qed.

Lemma read_dims_spec toks ds :
  Forall2 (fun t d => atoll t = Some d) toks ds -> forall idx dims,
  (idx + length ds <= BBOX_MAX_NDIM)%nat -> length dims = BBOX_MAX_NDIM ->
  read_dims idx toks dims = Some ((idx + length ds)%nat, take idx dims ++ map u64 ds ++ drop (idx + length ds) dims).
Proof.
  induction 1 as [|t d toks ds Ht _ IH]; intros idx dims Hn Hl; cbn [read_dims length] in *.
  - rewrite Nat.add_0_r. cbn [map app]. by rewrite take_drop.
  - rewrite Ht. cbn [mbind option_bind]. destruct (Nat.ltb_spec idx BBOX_MAX_NDIM); [|lia].
    rewrite (IH (S idx)) by (rewrite ?length_cset; lia). do 2 f_equal; [lia|]. by apply cset_next.
Qed.

(** An eleventh size is written past the array. *)
Lemma read_dims_overflow toks : forall idx dims, (idx <= BBOX_MAX_NDIM < idx + length toks)%nat ->
  read_dims idx toks dims = None.
Proof.
  induction toks as [|t toks IH]; intros idx dims H; cbn [length read_dims] in *; [lia|].
  destruct (atoll t); [|done]. cbn [mbind option_bind]. destruct (Nat.ltb_spec idx BBOX_MAX_NDIM); [|done]. apply IH. lia.
Qed.

Lemma c_text_id l : no_char Ascii.zero l -> c_text l = l.
Proof. intros H. unfold c_text. induction H as [|c l Hc _ IH]; cbn [take_while]; [done|]. by rewrite Hc, IH. Qed.

Lemma no_char_app c a b : no_char c a -> no_char c b -> no_char c (a ++ b).
Proof. intros. by apply Forall_app. Qed.

Lemma eat_spaces_app a b : eat_spaces (a ++ b) = eat_spaces a ++ eat_spaces b.
Proof. apply List.filter_app. Qed.

(** The lines a printed configuration has. *)
Lemma parse_option_line name v conf :
  In name ["ndim"; "dims"; "max_versions"; "hash_version"; "num_apps"]%string -> no_char Ascii.zero v ->
  parse_line (c_text (option_line name v ++ [NEWLINE])) conf =
    let t := " "%char :: v ++ [NEWLINE] in
    if String.eqb name "dims" then
      '(idx, dims) ← read_dims 0 (strtok "," t) (rc_dims conf);
      Some (set_dims dims conf, if Z.of_nat idx =? rc_ndim conf then 0 else - EINVAL)
    else v ← atoi t; conf ← set_option (txt name) v conf; Some (conf, 0).
Proof.
  intros Hin Hz. rewrite c_text_id.
  - cbn [In] in Hin. repeat (destruct Hin as [<-|Hin]; [reflexivity|]). destruct Hin.
  - unfold option_line. repeat apply no_char_app; try (by repeat constructor).
    + cbn [In] in Hin. repeat (destruct Hin as [<-|Hin]; [by repeat constructor|]). destruct Hin.
Qed.

Lemma parse_number_line name v conf :
  In name ["ndim"; "max_versions"; "hash_version"; "num_apps"]%string -> - 2 ^ 31 <= v < 2 ^ 31 ->
  parse_line (c_text (option_line name (print_int v) ++ [NEWLINE])) conf =
    c ← set_option (txt name) v conf; Some (c, 0).
Proof.
  intros Hin Hv. rewrite parse_option_line; [|simpl in *; tauto|apply print_no_char; (done || lia)].
  cbv zeta. rewrite atoi_print by done. cbn [In] in Hin. repeat (destruct Hin as [<-|Hin]; [reflexivity|]). destruct Hin.
Qed.

Lemma parse_number_next name v conf c lines :
  In name ["ndim"; "max_versions"; "hash_version"; "num_apps"]%string -> - 2 ^ 31 <= v < 2 ^ 31 ->
  set_option (txt name) v conf = Some c ->
  parse_lines ((option_line name (print_int v) ++ [NEWLINE]) :: lines) conf = parse_lines lines c.
Proof. intros Hin Hv Hs. cbn [parse_lines]. by rewrite parse_number_line, Hs. Qed.

(** The tokens of a printed list of sizes, the last with the end of line. *)
Fixpoint dim_tokens (ds : list Z) : list text :=
  match ds with
  | [] => []
  | [d] => [print_int d ++ [NEWLINE]]
  | d :: ds => print_int d :: dim_tokens ds
  end.

Lemma dim_tokens_join ds : ds <> [] ->
  join "," (map print_int ds) ++ [NEWLINE] = join "," (dim_tokens ds).
Proof.
  induction ds as [|d [|d' ds] IH]; intros Hne; [done|done|]. specialize (IH ltac:(done)).
  change (join "," (map print_int (d :: d' :: ds))) with (print_int d ++ ","%char :: join "," (map print_int (d' :: ds))).
  rewrite <- app_assoc. cbn [app]. rewrite IH. cbn [dim_tokens]. by destruct ds.
Qed.

Lemma dim_tokens_spec ds : Forall (fun d => 0 <= d < 2 ^ 63) ds ->
  Forall (fun t => no_char "," t /\ t <> []) (dim_tokens ds) /\
  Forall2 (fun t d => atoll t = Some d /\ atoll (" "%char :: t) = Some d) (dim_tokens ds) ds.
Proof.
  assert (Hp : forall d, 0 <= d < 2 ^ 63 -> no_char "," (print_int d) /\ print_int d <> []).
  { intros d Hd. split; [apply print_no_char; (done || lia)|]. apply print_int_plain. lia. }
  induction 1 as [|d ds Hd Hds [IH1 IH2]]; [by repeat constructor|]. destruct (Hp d Hd) as [H1 H2].
  destruct ds as [|d' ds]; cbn [dim_tokens].
  - split; repeat constructor.
    + apply no_char_app; [done|]. by repeat constructor.
    + by destruct (print_int d).
    + apply atoll_print; [lia|done].
    + apply atoll_print; [lia|done].
  - split; constructor; try done. rewrite <- (app_nil_r (print_int d)). apply atoll_print; [lia|done].
Qed.

Lemma parse_dims_line ds conf : Forall (fun d => 0 <= d < 2 ^ 63) ds ->
  (length ds <= BBOX_MAX_NDIM)%nat -> length (rc_dims conf) = BBOX_MAX_NDIM -> ds <> [] ->
  parse_line (c_text (option_line "dims" (join "," (map print_int ds)) ++ [NEWLINE])) conf =
    Some (set_dims (ds ++ drop (length ds) (rc_dims conf)) conf,
          if Z.of_nat (length ds) =? rc_ndim conf then 0 else - EINVAL).
Proof.
  intros Hd Hn Hl Hne. destruct (dim_tokens_spec ds Hd) as [H1 H2].
  rewrite parse_option_line; [|simpl; tauto|].
  2: { clear -Hd. induction Hd as [|d [|d' ds] Hd _ IH]; [constructor| |].
       - apply print_no_char; (done || lia).
       - change (join "," (map print_int (d :: d' :: ds))) with (print_int d ++ ","%char :: join "," (map print_int (d' :: ds))).
         apply no_char_app; [apply print_no_char; (done || lia)|]. by constructor. }
  cbv zeta. change (String.eqb "dims" "dims") with true. cbn iota. rewrite dim_tokens_join by done.
  assert (Ht : exists toks, strtok "," (" "%char :: join "," (dim_tokens ds)) = toks /\ Forall2 (fun t d => atoll t = Some d) toks ds).
  { destruct ds as [|d ds]; [done|]. clear Hne. destruct (dim_tokens (d :: ds)) as [|t toks]; [by inversion H2|].
    apply Forall2_cons in H2 as [[_ Ht] H2'].
    apply Forall_cons in H1 as [[Hc Hnil] H1].
    assert (Ej : " "%char :: join "," (t :: toks) = join "," ((" "%char :: t) :: toks)) by (by destruct toks).
    rewrite Ej, strtok_join; [|constructor; [split; [by constructor|done]|done]].
    eexists. split; [reflexivity|]. constructor; [done|]. eapply Forall2_impl; [exact H2'|]. by intros ? ? [? _]. }
  destruct Ht as (toks & -> & Ht). rewrite (read_dims_spec toks ds Ht 0) by done. cbn [mbind option_bind].
  rewrite take_0. cbn [app Nat.add]. replace (map u64 ds) with ds; [done|].
  clear -Hd. induction Hd as [|d ds Hd _ IH]; cbn [map]; [done|]. rewrite u64_small by lia. by rewrite <- IH.
Qed.

Lemma parse_dims_next ds conf lines : Forall (fun d => 0 <= d < 2 ^ 63) ds ->
  (length ds <= BBOX_MAX_NDIM)%nat -> length (rc_dims conf) = BBOX_MAX_NDIM -> ds <> [] ->
  rc_ndim conf = Z.of_nat (length ds) ->
  parse_lines ((option_line "dims" (join "," (map print_int ds)) ++ [NEWLINE]) :: lines) conf =
    parse_lines lines (set_dims (ds ++ drop (length ds) (rc_dims conf)) conf).
Proof. intros Hd Hn Hl Hne Hr. cbn [parse_lines]. rewrite parse_dims_line by done. by rewrite Hr, Z.eqb_refl. Qed.

Lemma join_numbers ds : Forall (fun d => 0 <= d < 2 ^ 63) ds ->
  no_char NEWLINE (join "," (map print_int ds)) /\ (length (join "," (map print_int ds)) <= 22 * length ds)%nat.
Proof.
  induction 1 as [|d [|d' ds] Hd _ IH]; [by split; [constructor|]| |];
    (assert (Hp : no_char NEWLINE (print_int d)) by (apply print_no_char; (done || lia)));
    destruct (print_int_plain d) as (_ & _ & Hlen); try lia.
  - split; [done|]. cbn [map join length]. lia.
  - change (join "," (map print_int (d :: d' :: ds))) with (print_int d ++ ","%char :: join "," (map print_int (d' :: ds))).
    destruct IH as [H1 H2]. split; [apply no_char_app; [done|by constructor]|]. rewrite length_app. cbn [length] in *. lia.
Qed.

Lemma option_line_ok name v : In name ["ndim"; "dims"; "max_versions"; "hash_version"; "num_apps"]%string ->
  no_char NEWLINE v -> (length v <= 1000)%nat ->
  (length (option_line name v) < 1023)%nat /\ no_char NEWLINE (option_line name v).
Proof.
  intros Hin Hv Hl. unfold option_line. rewrite !length_app. cbn [length]. split.
  - cbn [In] in Hin. repeat (destruct Hin as [<-|Hin]; [cbn; lia|]). destruct Hin.
  - repeat apply no_char_app; try (by repeat constructor).
    cbn [In] in Hin. repeat (destruct Hin as [<-|Hin]; [by repeat constructor|]). destruct Hin.
Qed.

Lemma print_line_ok name v : In name ["ndim"; "dims"; "max_versions"; "hash_version"; "num_apps"]%string ->
  - 2 ^ 63 <= v < 2 ^ 63 ->
  (length (option_line name (print_int v)) < 1023)%nat /\ no_char NEWLINE (option_line name (print_int v)).
Proof.
  intros Hin Hv. apply option_line_ok; [done|apply print_no_char; done|].
  destruct (print_int_plain v Hv) as (_ & _ & H). lia.
Qed.

Lemma conf_lines_ok c n : conf_range c -> (n <= BBOX_MAX_NDIM)%nat ->
  Forall (fun l => (length l < 1023)%nat /\ no_char NEWLINE l) (conf_lines c n).
Proof.
  intros Hr Hn. destruct (cr_dims _ Hr) as [Hld Hds]. pose proof (cr_mv _ Hr). pose proof (cr_hv _ Hr). pose proof (cr_na _ Hr).
  destruct (join_numbers (take n (rc_dims c))) as [J1 J2]; [by apply Forall_take|].
  pose proof (length_take (rc_dims c) n). unfold BBOX_MAX_NDIM, coord in *.
  repeat apply Forall_cons_2; try apply Forall_nil_2; try (apply print_line_ok; [simpl; tauto|lia]).
  apply option_line_ok; [simpl; tauto|done|lia].
Qed.

(** The parser inverts the printer, from any fields before. *)
Lemma parse_conf_roundtrip c n c0 :
  conf_range c -> rc_ndim c = Z.of_nat n -> (0 < n <= BBOX_MAX_NDIM)%nat -> length (rc_dims c0) = BBOX_MAX_NDIM ->
  parse_conf (inr (conf_text c n)) c0 =
    Some (set_dims (take n (rc_dims c) ++ drop n (rc_dims c0)) c, 0).
Proof.
  intros Hr Hnd Hn Hl. destruct (cr_dims _ Hr) as [Hld Hds]. pose proof (cr_mv _ Hr). pose proof (cr_hv _ Hr). pose proof (cr_na _ Hr).
  assert (Hlt : length (take n (rc_dims c)) = n) by (rewrite length_take_le; unfold coord in *; lia).
  assert (Hne : take n (rc_dims c) <> []) by (intros E; rewrite E in Hlt; simpl in Hlt; lia).
  unfold parse_conf, conf_text. rewrite fgets_all by (apply conf_lines_ok; (done || lia)). unfold conf_lines. cbn [map].
  erewrite parse_number_next; [|by left|unfold BBOX_MAX_NDIM in *; lia|reflexivity].
  rewrite parse_dims_next; [|by apply Forall_take|rewrite Hlt; lia|done|done|by rewrite Hlt]. rewrite Hlt. cbn [rc_dims].
  erewrite !parse_number_next; [|simpl; tauto|lia|reflexivity|simpl; tauto|lia|reflexivity|simpl; tauto|lia|reflexivity].
  unfold set_dims. by rewrite Hnd.
Qed.

(** Starting from a printed configuration: the parser and the checks give
    back the dimensions, their sizes, the versions kept, the hashing and the
    number of applications, and a version of hashing that does not exist is
    refused. *)
Theorem load_conf_roundtrip c n :
  conf_range c -> rc_ndim c = Z.of_nat n -> (0 < n <= BBOX_MAX_NDIM)%nat ->
  load_conf (inr (conf_text c n)) =
    Some (match hash_version_of (rc_hash_version c) with
          | Some h => inr (mkConf n (take n (rc_dims c) ++ replicate (BBOX_MAX_NDIM - n) 0) (rc_max_versions c) h, rc_num_apps c)
          | None => inl (- EINVAL)
          end).
Proof.
  intros Hr Hnd Hn. unfold load_conf, check_conf. rewrite (parse_conf_roundtrip c n default_conf Hr Hnd Hn) by done.
  cbn [mbind option_bind set_dims rc_ndim rc_hash_version rc_dims rc_max_versions rc_num_apps]. change (0 <? 0) with false. cbn iota.
  rewrite Hnd. destruct (Z.ltb_spec (Z.of_nat BBOX_MAX_NDIM) (Z.of_nat n)); [lia|].
  destruct (Z.eqb_spec (Z.of_nat n) 0); [lia|]. destruct (hash_version_of _); [|done].
  destruct (Z.ltb_spec (Z.of_nat n) 0); [lia|]. rewrite Nat2Z.id. cbn [default_conf rc_dims].
  unfold zero_coord. rewrite drop_replicate. done.
Qed.

(** C32: a line of sizes, however it is written: up to ten numbers become the
    first sizes, and the line is accepted when their count is the dimension
    given before it and refused otherwise, although the sizes are changed; an
    eleventh number is written past the array. *)
Theorem parse_dims_correct pre t vs conf :
  eat_spaces pre = txt "dims" -> no_char "=" pre -> (forall l, pre <> "#"%char :: l) -> no_char Ascii.zero (pre ++ t) ->
  Forall2 (fun tok v => atoll tok = Some v) (strtok "," t) vs -> length (rc_dims conf) = BBOX_MAX_NDIM ->
  parse_line (c_text (pre ++ "="%char :: t)) conf =
    if (BBOX_MAX_NDIM <? length vs)%nat then None
    else Some (set_dims (map u64 vs ++ drop (length vs) (rc_dims conf)) conf,
               if Z.of_nat (length vs) =? rc_ndim conf then 0 else - EINVAL).
Proof.
  intros Hpre Heq Hc Hz Ht Hl. apply Forall_app in Hz as [Hz1 Hz2].
  rewrite c_text_id by (apply no_char_app; [done|by constructor]).
  assert (Hparse : parse_line (pre ++ "="%char :: t) conf =
    '(idx, dims) ← read_dims 0 (strtok "," t) (rc_dims conf);
    Some (set_dims dims conf, if Z.of_nat idx =? rc_ndim conf then 0 else - EINVAL)).
  { destruct pre as [|c pre]; [done|]. unfold parse_line. rewrite split_at_first by done. rewrite Hpre. cbn [app].
    destruct (Ascii.eqb_spec c "#") as [->|]; [by destruct (Hc pre)|]. done. }
  rewrite Hparse. pose proof (Forall2_length _ _ _ Ht) as Hlen.
  destruct (Nat.ltb_spec BBOX_MAX_NDIM (length vs)).
  - rewrite read_dims_overflow by lia. done.
  - rewrite (read_dims_spec _ vs Ht 0) by (done || lia). cbn [mbind option_bind]. by rewrite take_0.
Qed.

(** ** Concrete inputs *)

Definition demo_raw : raw_conf := mkRawConf 2 (64 :: 32 :: replicate 8 7) 3 3 2.

Lemma demo_raw_range : conf_range demo_raw.
Proof. split; cbn [demo_raw rc_dims rc_max_versions rc_hash_version rc_num_apps]; try lia. split; [done|]. repeat constructor; lia. Qed.

Lemma load_conf_roundtrip_witness :
  String.string_of_list_ascii (conf_text demo_raw 2) =
    ("ndim = 2" ++ String NEWLINE "dims = 64,32" ++ String NEWLINE "max_versions = 3" ++
     String NEWLINE "hash_version = 3" ++ String NEWLINE "num_apps = 2" ++ String NEWLINE "")%string /\
  load_conf (inr (conf_text demo_raw 2)) = Some (inr (mkConf 2 (64 :: 32 :: replicate 8 0) 3 ssd_hash_version_v2, 2)).
Proof.
  split; [vm_compute; reflexivity|]. rewrite (load_conf_roundtrip demo_raw 2 demo_raw_range); [reflexivity|reflexivity|].
  unfold BBOX_MAX_NDIM. lia.
Defined.

Lemma parse_dims_correct_witness :
  parse_line (c_text (txt " dims " ++ "="%char :: txt "1,2,3,4,5,6,7,8,9,10,11")) default_conf = None.
Proof.
  rewrite (parse_dims_correct (txt " dims ") (txt "1,2,3,4,5,6,7,8,9,10,11") [1; 2; 3; 4; 5; 6; 7; 8; 9; 10; 11] default_conf).
  - reflexivity.
  - reflexivity.
  - vm_compute. repeat constructor.
  - intros l. discriminate.
  - vm_compute. repeat constructor.
  - change (strtok "," (txt "1,2,3,4,5,6,7,8,9,10,11")) with (map txt ["1"; "2"; "3"; "4"; "5"; "6"; "7"; "8"; "9"; "10"; "11"]%string).
    cbn [map]. repeat (constructor; [vm_compute; reflexivity|]). constructor.
  - reflexivity.
Defined.
