(* ===== verification/Toml.v ===== *)
(** * Toml: the values of a TOML document

    The conversions of [src/src/toml.c] between the raw text of a value and
    what it means: UTF-8 ([toml_utf8_to_ucs], [toml_ucs_to_utf8]), strings
    with their escapes ([norm_lit_str], [norm_basic_str], [toml_rtos]),
    integers ([toml_rtoi]), booleans, floating-point numbers and times.  A
    pointer into a text is the text from there on, and reading at its end
    gives the terminator.  Error messages and failures of [malloc] are left
    out. *)

From Stdlib Require Import Ascii SpecFloat.
From S2P Require Import Prelude BBox ObjDesc Linear Sspace DhtEntry StrHash LocalStorage Matrix Codec Modules Server Conf.

(** ** Characters *)

Definition NUL : ascii := Ascii.zero.
Definition QUOTE : ascii := chr 34.
Definition APOS : ascii := chr 39.
Definition BACKSLASH : ascii := chr 92.
Definition CR : ascii := chr 13.

(** [p[n]]. *)
Definition at_ptr (p : text) (n : nat) : ascii := nth n p NUL.

(** A [char] as an unsigned number, and back. *)
Definition char_code (c : ascii) : Z := Z.of_nat (Ascii.nat_of_ascii c).
Definition code_char (z : Z) : ascii := chr (Z.to_nat (z mod 256)).

Definition one_of_chars (s : string) (c : ascii) : bool := existsb (Ascii.eqb c) (txt s).

(** [strspn] with the characters [f] accepts, as the text skipped. *)
Definition spn (f : ascii -> bool) (p : text) : nat := length (take_while f p).

(** ** UTF-8 *)

(** The continuation bytes: [n] more, [v] so far, [k] bytes consumed. *)
Fixpoint utf8_more (n : nat) (v : Z) (buf : text) (k : nat) : option (option (Z * nat)) :=
  match n with
  | O => Some (Some (v, k))
  | S n =>
      match buf with
      | [] => None
      | c :: buf =>
          let i := char_code c in
          if Z.shiftr i 6 =? 2 then utf8_more n (Z.lor (Z.shiftl v 6) (Z.land i 63)) buf (S k)
          else Some None
      end
  end.

(** The code and the number of bytes, the inner [None] for [-1]. *)
Definition toml_utf8_to_ucs (buf : text) (len : Z) : option (option (Z * nat)) :=
  match buf with
  | [] => None
  | c :: rest =>
      let i := char_code c in
      let case n v := if len <? Z.of_nat (S n) then Some None else utf8_more n v rest 1 in
      if Z.shiftr i 7 =? 0 then case 0%nat i
      else if Z.shiftr i 5 =? 6 then case 1%nat (Z.land i 31)
      else if Z.shiftr i 4 =? 14 then case 2%nat (Z.land i 15)
      else if Z.shiftr i 3 =? 30 then case 3%nat (Z.land i 7)
      else if Z.shiftr i 2 =? 62 then case 4%nat (Z.land i 3)
      else if Z.shiftr i 1 =? 126 then case 5%nat (Z.land i 1)
      else Some None
  end.

(** The bytes [0x80 | ((code >> s) & 0x3f)] for the shifts [ss]. *)
Definition utf8_tail (code : Z) (ss : list Z) : text :=
  map (fun s => code_char (Z.lor 128 (Z.land (Z.shiftr code s) 63))) ss.

Definition toml_ucs_to_utf8 (code : Z) : option text :=
  if (55296 <=? code) && (code <=? 57343) then None
  else if (65534 <=? code) && (code <=? 65535) then None
  else if code <? 0 then None
  else if code <=? 127 then Some [code_char code]
  else if code <=? 2047 then Some (code_char (Z.lor 192 (Z.shiftr code 6)) :: utf8_tail code [0])
  else if code <=? 65535 then Some (code_char (Z.lor 224 (Z.shiftr code 12)) :: utf8_tail code [6; 0])
  else if code <=? 2097151 then Some (code_char (Z.lor 240 (Z.shiftr code 18)) :: utf8_tail code [12; 6; 0])
  else if code <=? 67108863 then Some (code_char (Z.lor 248 (Z.shiftr code 24)) :: utf8_tail code [18; 12; 6; 0])
  else if code <=? 2147483647 then Some (code_char (Z.lor 252 (Z.shiftr code 30)) :: utf8_tail code [24; 18; 12; 6; 0])
  else None.

(** ** Strings *)

(** A control character that has to be escaped. *)
Definition is_control (c : ascii) : bool :=
  let n := char_code c in (n <=? 8) || ((10 <=? n) && (n <=? 31)) || (n =? 127).

(** A character copied as it is. *)
Definition plain_char (multiline : bool) (c : ascii) : bool :=
  negb (is_control c) || (multiline && (Ascii.eqb c CR || Ascii.eqb c NEWLINE)).

Definition norm_lit_str (src : text) (multiline : bool) : option text :=
  if forallb (plain_char multiline) src then Some src else None.

(** A digit of [\u]: upper case only. *)
Definition hex_val (c : ascii) : option Z :=
  let n := char_code c in
  if (48 <=? n) && (n <=? 57) then Some (n - 48)
  else if (65 <=? n) && (n <=? 70) then Some (n - 65 + 10)
  else None.

Fixpoint scan_hex (n : nat) (ucs : Z) (sp : text) : option (Z * text) :=
  match n with
  | O => Some (ucs, sp)
  | S n =>
      match sp with
      | [] => None
      | c :: sp => v ← hex_val c; scan_hex n (ucs * 16 + v) sp
      end
  end.

(** The character of a short escape. *)
Definition escape_char (c : ascii) : option ascii :=
  if Ascii.eqb c "b" then Some (chr 8)
  else if Ascii.eqb c "t" then Some TAB
  else if Ascii.eqb c "n" then Some NEWLINE
  else if Ascii.eqb c "f" then Some (chr 12)
  else if Ascii.eqb c "r" then Some CR
  else if Ascii.eqb c QUOTE then Some QUOTE
  else if Ascii.eqb c BACKSLASH then Some BACKSLASH
  else None.

Definition line_space (c : ascii) : bool := Ascii.eqb c " " || Ascii.eqb c TAB || Ascii.eqb c CR.

(** The loop of [norm_basic_str]: every round takes a character, so the
    length of the text bounds it. *)
Fixpoint norm_basic_loop (fuel : nat) (src : text) (multiline : bool) : option text :=
  match fuel with
  | O => None
  | S fuel =>
      match src with
      | [] => Some []
      | ch :: sp =>
          if negb (Ascii.eqb ch BACKSLASH) then
            if plain_char multiline ch then dst ← norm_basic_loop fuel sp multiline; Some (ch :: dst) else None
          else
            match sp with
            | [] => None
            | e :: sp' =>
                if multiline && Ascii.eqb (at_ptr sp (spn line_space sp)) NEWLINE then
                  norm_basic_loop fuel (drop_while (fun c => line_space c || Ascii.eqb c NEWLINE) sp) multiline
                else if Ascii.eqb e "u" || Ascii.eqb e "U" then
                  '(ucs, sp) ← scan_hex (if Ascii.eqb e "u" then 4 else 8) 0 sp';
                  bytes ← toml_ucs_to_utf8 ucs;
                  dst ← norm_basic_loop fuel sp multiline; Some (bytes ++ dst)
                else
                  ch ← escape_char e; dst ← norm_basic_loop fuel sp' multiline; Some (ch :: dst)
            end
      end
  end.

Definition norm_basic_str (src : text) (multiline : bool) : option text :=
  norm_basic_loop (S (length src)) src multiline.

Definition is_quote (c : ascii) : bool := Ascii.eqb c APOS || Ascii.eqb c QUOTE.

(** The text between positions [a] and [b]. *)
Definition slice (a b : nat) (p : text) : text := take (b - a) (drop a p).

(** [None] is the result [-1], with a null string. *)
Definition toml_rtos (src : option text) : option text :=
  src ← src;
  let qchar := at_ptr src 0 in
  let n := length src in
  let norm sp sq multiline :=
    (if Ascii.eqb qchar APOS then norm_lit_str else norm_basic_str) (slice sp sq src) multiline in
  if negb (is_quote qchar) then None
  else if Ascii.eqb qchar (at_ptr src 1) && Ascii.eqb qchar (at_ptr src 2) then
    if (6 <=? n)%nat && forallb (Ascii.eqb qchar) (drop (n - 3) src) then
      let sp := if Ascii.eqb (at_ptr src 3) NEWLINE then 4%nat
                else if Ascii.eqb (at_ptr src 3) CR && Ascii.eqb (at_ptr src 4) NEWLINE then 5%nat else 3%nat in
      norm sp (n - 3)%nat true
    else None
  else if (2 <=? n)%nat && Ascii.eqb (at_ptr src (n - 1)) qchar then norm 1%nat (n - 1)%nat false
  else None.

(** ** Numbers *)

(** The value of a digit in any base up to 36. *)
Definition base_digit (c : ascii) : Z :=
  let n := char_code c in
  if (48 <=? n) && (n <=? 57) then n - 48
  else if (97 <=? n) && (n <=? 122) then n - 97 + 10
  else if (65 <=? n) && (n <=? 90) then n - 65 + 10
  else 36.

Definition is_base_digit (base : Z) (c : ascii) : bool := base_digit c <? base.

Definition base_val (base : Z) (l : text) : Z := fold_left (fun n c => n * base + base_digit c) l 0.

(** [strtoll]: the value, where it stopped, and whether [errno] was set. *)
Definition strtoll (s : text) (base : Z) : Z * text * bool :=
  let s1 := drop_while isspace s in
  let neg := Ascii.eqb (at_ptr s1 0) "-" in
  let s2 := if neg || Ascii.eqb (at_ptr s1 0) "+" then drop 1 s1 else s1 in
  let hex := ((base =? 0) || (base =? 16)) && Ascii.eqb (at_ptr s2 0) "0"
             && (Ascii.eqb (at_ptr s2 1) "x" || Ascii.eqb (at_ptr s2 1) "X") && is_base_digit 16 (at_ptr s2 2) in
  let b := if hex then 16 else if base =? 0 then if Ascii.eqb (at_ptr s2 0) "0" then 8 else 10 else base in
  let s3 := if hex then drop 2 s2 else s2 in
  match take_while (is_base_digit b) s3 with
  | [] => (0, s, false)
  | digits =>
      let v := base_val b digits in
      let v := if neg then - v else v in
      let rest := drop_while (is_base_digit b) s3 in
      if v <? - 2 ^ 63 then (- 2 ^ 63, rest, true)
      else if 2 ^ 63 <=? v then (2 ^ 63 - 1, rest, true)
      else (v, rest, false)
  end.

(** Copy without underscores into a buffer with [room] bytes left. *)
Fixpoint strip_underscores (room : nat) (s : text) : option text :=
  match s with
  | [] => match room with O => None | _ => Some [] end
  | c :: s' =>
      match room with
      | O => None
      | S r =>
          if Ascii.eqb c "_" then
            if Ascii.eqb (at_ptr s' 0) "_" || Ascii.eqb (at_ptr s' 0) NUL then None else strip_underscores room s'
          else l ← strip_underscores r s'; Some (c :: l)
      end
  end.

Definition toml_rtob (src : option text) : option Z :=
  src ← src;
  if text_eqb src (txt "true") then Some 1 else if text_eqb src (txt "false") then Some 0 else None.

(** Whether the result is 0, and what [*ret] holds: it is written by
    [strtoll] even when the call fails, and stays 0 as the callers set it
    when it is not reached. *)
Definition toml_rtoi (src : option text) : bool * Z :=
  match src with
  | None => (false, 0)
  | Some src =>
      let signed := Ascii.eqb (at_ptr src 0) "+" || Ascii.eqb (at_ptr src 0) "-" in
      let sign := if signed then take 1 src else [] in
      let s := if signed then drop 1 src else src in
      let run base s :=
        match strip_underscores (100 - length sign) s with
        | None => (false, 0)
        | Some buf =>
            let '(v, endp, errno) := strtoll (sign ++ buf) base in
            (negb errno && match endp with [] => true | _ => false end, v)
        end in
      if Ascii.eqb (at_ptr s 0) "_" then (false, 0)
      else if Ascii.eqb (at_ptr s 0) "0" then
        if Ascii.eqb (at_ptr s 1) "x" then run 16 (drop 2 s)
        else if Ascii.eqb (at_ptr s 1) "o" then run 8 (drop 2 s)
        else if Ascii.eqb (at_ptr s 1) "b" then run 2 (drop 2 s)
        else (Ascii.eqb (at_ptr s 1) NUL, 0)
      else run 0 s
  end.

(** [strtod] of the C library: the value, where it stopped, [errno]. *)
Class Strtod := strtod : text -> spec_float * text * bool.

Section Doubles.
Context `{D : Strtod}.

(** A decimal point has a digit on each side. *)
Definition dot_ok (s : text) : bool :=
  match list_find (fun c => Ascii.eqb c "." = true) s with
  | None => true
  | Some (O, _) => false
  | Some (S n, _) => is_digit (at_ptr s n) && is_digit (at_ptr s (S (S n)))
  end.

(** [toml_rtod_ex] with a buffer of [buflen] bytes; [u.d] as above. *)
Definition toml_rtod_ex (src : option text) (buflen : nat) : bool * spec_float :=
  match src with
  | None => (false, S754_zero false)
  | Some src =>
      let signed := Ascii.eqb (at_ptr src 0) "+" || Ascii.eqb (at_ptr src 0) "-" in
      let sign := if signed then take 1 src else [] in
      let s := if signed then drop 1 src else src in
      if Ascii.eqb (at_ptr s 0) "_" || negb (dot_ok s)
         || (Ascii.eqb (at_ptr s 0) "0" && negb (Ascii.eqb (at_ptr s 1) NUL) && negb (one_of_chars "eE." (at_ptr s 1)))
      then (false, S754_zero false)
      else
        match strip_underscores (buflen - length sign) s with
        | None => (false, S754_zero false)
        | Some buf =>
            let '(v, endp, errno) := strtod (sign ++ buf) in
            (negb errno && match endp with [] => true | _ => false end, v)
        end
  end.

Definition toml_rtod (src : option text) : bool * spec_float := toml_rtod_ex src 100.

End Doubles.

(** ** Times *)

(** [scan_digits]: [None] for [-1]. *)
Fixpoint scan_digits_loop (n : nat) (ret : Z) (p : text) : option Z :=
  match n with
  | O => Some ret
  | S n =>
      match p with
      | c :: p => if is_digit c then scan_digits_loop n (10 * ret + digit_val c) p else None
      | [] => None
      end
  end.

Definition scan_digits (p : text) (n : nat) : option Z := scan_digits_loop n 0 p.

Definition scan_date (p : text) : option (Z * Z * Z) :=
  year ← scan_digits p 4;
  if negb (Ascii.eqb (at_ptr p 4) "-") then None else
  month ← scan_digits (drop 5 p) 2;
  if negb (Ascii.eqb (at_ptr p 7) "-") then None else
  day ← scan_digits (drop 8 p) 2;
  Some (year, month, day).

Definition scan_time (p : text) : option (Z * Z * Z) :=
  hour ← scan_digits p 2;
  if negb (Ascii.eqb (at_ptr p 2) ":") then None else
  minute ← scan_digits (drop 3 p) 2;
  if negb (Ascii.eqb (at_ptr p 5) ":") then None else
  second ← scan_digits (drop 6 p) 2;
  Some (hour, minute, second).

(** [parse_millisec]: the digits after the third are worth nothing. *)
Fixpoint parse_millisec_loop (p : text) (unit ret : Z) : Z * text :=
  match p with
  | c :: p' => if is_digit c then parse_millisec_loop p' (unit / 10) (ret + digit_val c * unit) else (ret, p)
  | [] => (ret, [])
  end.

Definition parse_millisec (p : text) : Z * text := parse_millisec_loop p 100 0.

(** [toml_timestamp_t]: the fields that are present. *)
Record toml_timestamp := mkTs {
  ts_date : option (Z * Z * Z);
  ts_time : option (Z * Z * Z);
  ts_millisec : option Z;
  ts_z : option text
}.

(** The zone and what follows it, [None] for [-1]. *)
Definition parse_zone (p : text) : option (option text * text) :=
  match p with
  | [] => Some (None, [])
  | c :: p' =>
      if Ascii.eqb c "Z" || Ascii.eqb c "z" then Some (Some ["Z"%char], p')
      else if Ascii.eqb c "+" || Ascii.eqb c "-" then
        if negb (is_digit (at_ptr p' 0) && is_digit (at_ptr p' 1)) then None
        else if Ascii.eqb (at_ptr p' 2) ":" then
          if negb (is_digit (at_ptr p' 3) && is_digit (at_ptr p' 4)) then None
          else Some (Some (take 6 p), drop 5 p')
        else Some (Some (take 3 p), drop 2 p')
      else Some (Some [], p)
  end.

Definition toml_rtots (src : option text) : option toml_timestamp :=
  src ← src;
  let date := scan_date src in
  let after : option (text * bool) :=
    match date with
    | None => Some (src, false)
    | Some _ =>
        match drop 10 src with
        | [] => Some ([], false)
        | c :: p => if Ascii.eqb c "T" || Ascii.eqb c " " then Some (p, true) else None
        end
    end in
  match after with None => None | Some (p, must_parse_time) =>
  match scan_time p with
  | None => if must_parse_time then None else match p with [] => Some (mkTs date None None None) | _ => None end
  | Some time =>
      let p := drop 8 p in
      let '(ms, p) := match p with
                      | c :: p' => if Ascii.eqb c "." then let '(m, q) := parse_millisec p' in (Some m, q) else (None, p)
                      | [] => (None, p)
                      end in
      '(z, p) ← parse_zone p;
      match p with [] => Some (mkTs date (Some time) ms z) | _ => None end
  end
  end.

(** ** Printing strings *)

Definition hex_char (d : Z) : ascii := if d <? 10 then chr (Z.to_nat (48 + d)) else chr (Z.to_nat (55 + d)).

(** A character of a basic string: quotes, apostrophes (three in a row end
    the token), backslashes and control characters are escaped. *)
Definition escape (c : ascii) : text :=
  if Ascii.eqb c QUOTE then [BACKSLASH; QUOTE]
  else if Ascii.eqb c BACKSLASH then [BACKSLASH; BACKSLASH]
  else if is_control c || Ascii.eqb c APOS then
    let n := char_code c in
    [BACKSLASH; "u"%char; "0"%char; "0"%char; hex_char (n / 16); hex_char (n mod 16)]
  else [c].

Definition quote (s : text) : text := QUOTE :: flat_map escape s ++ [QUOTE].

Example rtots_full : toml_rtots (Some (txt "1979-05-27T07:32:00.999-07:00")) =
  Some (mkTs (Some (1979, 5, 27)) (Some (7, 32, 0)) (Some 999) (Some (txt "-07:00"))).
Proof. reflexivity. Qed.

Example rtoi_cases :
  (toml_rtoi (Some (txt "-1_000")), toml_rtoi (Some (txt "0xFF")), toml_rtoi (Some (txt "3.5")), toml_rtoi (Some (txt "99999999999999999999")))
  = ((true, -1000), (true, 255), (false, 3), (false, 2 ^ 63 - 1)).
Proof. reflexivity. Qed.

Example rtos_cases :
  (toml_rtos (Some (quote (txt "it's"))), toml_rtos (Some (txt "'a\b'")))
  = (Some (txt "it's"), Some (txt "a\b")).
Proof. reflexivity. Qed.

(** ** UTF-8: the round trip *)

(** [lia] with division by constants. *)
Ltac div_lia := Z.to_euclidean_division_equations; lia.

Lemma below_check (P : Z -> bool) (n : nat) :
  forallb P (map Z.of_nat (seq 0 n)) = true -> forall x, 0 <= x < Z.of_nat n -> P x = true.
Proof.
  intros H x Hx. rewrite forallb_forall in H. apply H. apply in_map_iff. exists (Z.to_nat x).
  split; [lia|]. apply in_seq. lia.
Qed.

Lemma char_code_char z : 0 <= z < 256 -> char_code (code_char z) = z.
Proof.
  intros Hz. unfold char_code, code_char, chr. rewrite Z.mod_small by lia.
  rewrite Ascii.nat_ascii_embedding by lia. lia.
Qed.

(** A continuation byte. *)
Lemma tail_byte d : 0 <= d < 64 ->
  char_code (code_char (Z.lor 128 d)) = 128 + d /\ Z.shiftr (128 + d) 6 = 2 /\ Z.land (128 + d) 63 = d.
Proof.
  intros Hd. pose proof (below_check (fun d => (Z.lor 128 d =? 128 + d) && (Z.shiftr (128 + d) 6 =? 2) && (Z.land (128 + d) 63 =? d)) 64
    ltac:(vm_compute; reflexivity) d Hd) as H. cbn beta in H. rewrite !andb_true_iff, !Z.eqb_eq in H.
  destruct H as [[H1 H2] H3]. rewrite H1, char_code_char by lia. done.
Qed.

Lemma lor_shift v d : 0 <= d < 64 -> Z.lor (Z.shiftl v 6) d = v * 64 + d.
Proof.
  intros Hd. rewrite <- Z.add_nocarry_lor; [by rewrite Z.shiftl_mul_pow2 by lia|].
  apply Z.bits_inj'. intros i Hi. rewrite Z.land_spec, Z.bits_0.
  destruct (Z.lt_ge_cases i 6); [by rewrite Z.shiftl_spec_low by lia|].
  rewrite (testbit_high d 6 i) by lia. apply andb_false_r.
Qed.

(** The continuation bytes add their six bits each. *)
Lemma utf8_more_step code s n v buf k :
  0 <= s -> utf8_more (S n) v (utf8_tail code [s] ++ buf) k
  = utf8_more n (v * 64 + Z.shiftr code s mod 64) buf (S k).
Proof.
  intros Hs. cbn [utf8_tail map app utf8_more].
  assert (Hd : Z.land (Z.shiftr code s) 63 = Z.shiftr code s mod 64) by (change 63 with (Z.ones 6); by rewrite Z.land_ones).
  rewrite Hd. pose proof (Z.mod_pos_bound (Z.shiftr code s) 64 ltac:(lia)).
  destruct (tail_byte (Z.shiftr code s mod 64)) as (-> & -> & ->); [lia|]. cbn [Z.eqb Pos.eqb].
  by rewrite lor_shift by lia.
Qed.

(** The first byte of a sequence: [b] is its prefix, [x] its [m] bits. *)
Lemma lead_byte b m x :
  In (b, m) [(192, 5); (224, 4); (240, 3); (248, 2); (252, 1)] -> 0 <= x < 2 ^ m ->
  char_code (code_char (Z.lor b x)) = b + x /\ Z.land (b + x) (2 ^ m - 1) = x /\ b + x < 256.
Proof.
  intros Hb Hx.
  assert (Hc : forall c k, forallb (fun x => (Z.lor c x =? c + x) && (Z.land (c + x) (2 ^ k - 1) =? x) && (c + x <? 256) && (0 <=? c + x))
                 (map Z.of_nat (seq 0 (Z.to_nat (2 ^ k)))) = true -> 0 <= k -> 0 <= x < 2 ^ k ->
    char_code (code_char (Z.lor c x)) = c + x /\ Z.land (c + x) (2 ^ k - 1) = x /\ c + x < 256).
  { intros c k Hall Hk Hxk. pose proof (below_check _ _ Hall x ltac:(lia)) as H. cbn beta in H.
    rewrite !andb_true_iff, !Z.eqb_eq, Z.ltb_lt, Z.leb_le in H. destruct H as [[[H1 H2] H3] H4].
    rewrite H1, char_code_char by lia. done. }
  simpl in Hb. repeat (destruct Hb as [[= <- <-]|Hb]; [apply Hc; [vm_compute; reflexivity|lia|done]|]). destruct Hb.
Qed.

Lemma decode_lead b m n x rest len :
  In (b, m, n) [(192, 5, 1%nat); (224, 4, 2%nat); (240, 3, 3%nat); (248, 2, 4%nat); (252, 1, 5%nat)] -> 0 <= x < 2 ^ m ->
  toml_utf8_to_ucs (code_char (Z.lor b x) :: rest) len
  = if len <? Z.of_nat (S n) then Some None else utf8_more n x rest 1.
Proof.
  intros Hb Hx. unfold toml_utf8_to_ucs. cbv zeta.
  destruct (lead_byte b m x) as (-> & Hl & Hlt); [|done|].
  { simpl in Hb |- *. repeat (destruct Hb as [[= <- <- <-]|Hb]; [tauto|]). destruct Hb. }
  rewrite !Z.shiftr_div_pow2 by lia. simpl in Hb.
  destruct Hb as [[= <- <- <-]|[[= <- <- <-]|[[= <- <- <-]|[[= <- <- <-]|[[= <- <- <-]|[]]]]]];
    change (2 ^ 7) with 128; change (2 ^ 5) with 32 in *; change (2 ^ 4) with 16 in *; change (2 ^ 3) with 8 in *;
    change (2 ^ 2) with 4 in *; change (2 ^ 1) with 2 in *;
    try change (32 - 1) with 31 in Hl; try change (16 - 1) with 15 in Hl; try change (8 - 1) with 7 in Hl;
    try change (4 - 1) with 3 in Hl; try change (2 - 1) with 1 in Hl;
    repeat (match goal with |- context [?a =? ?b] => destruct (Z.eqb_spec a b); try (exfalso; div_lia) end);
    by rewrite Hl.
Qed.

(** A sequence of one lead and [n] continuation bytes. *)
Lemma decode_sequence code b m n ss rest v :
  In (b, m, n) [(192, 5, 1%nat); (224, 4, 2%nat); (240, 3, 3%nat); (248, 2, 4%nat); (252, 1, 5%nat)] ->
  0 <= v < 2 ^ m -> length ss = n -> Forall (Z.le 0) ss ->
  fold_left (fun v s => v * 64 + Z.shiftr code s mod 64) ss v = code ->
  let bs := code_char (Z.lor b v) :: utf8_tail code ss in
  toml_utf8_to_ucs (bs ++ rest) (Z.of_nat (length (bs ++ rest))) = Some (Some (code, length bs)).
Proof.
  intros Hb Hv Hn Hss Hc bs. unfold bs. cbn [app]. rewrite (decode_lead b m n) by done.
  cbn [length]. rewrite length_app. unfold utf8_tail at 1. rewrite length_map.
  destruct (Z.ltb_spec (Z.of_nat (S (length ss + length rest))) (Z.of_nat (S n))); [lia|].
  assert (Hgen : forall ss v k, Forall (Z.le 0) ss -> utf8_more (length ss) v (utf8_tail code ss ++ rest) k
    = Some (Some (fold_left (fun v s => v * 64 + Z.shiftr code s mod 64) ss v, (k + length ss)%nat))).
  { clear. induction ss as [|s ss IH]; intros v k Hs; cbn [length fold_left]; [by rewrite Nat.add_0_r|].
    apply Forall_cons in Hs as [Hs0 Hs].
    change (utf8_tail code (s :: ss) ++ rest) with (utf8_tail code [s] ++ (utf8_tail code ss ++ rest)).
    rewrite utf8_more_step, IH by done. f_equal. f_equal. f_equal. lia. }
  rewrite <- Hn, Hgen, Hc by done. unfold utf8_tail. rewrite length_map. done.
Qed.

(** UTF-8 round trip.  Every code point the encoder accepts (up to
    [0x7fffffff], not a surrogate nor [0xfffe], [0xffff]) is encoded, and
    the decoder reads it back from its bytes whatever follows, reporting as
    many bytes as were written; the other codes are refused. *)
Theorem utf8_roundtrip code rest :
  match toml_ucs_to_utf8 code with
  | Some bs => 0 <= code <= 2147483647 /\ (1 <= length bs <= 6)%nat /\
      toml_utf8_to_ucs (bs ++ rest) (Z.of_nat (length (bs ++ rest))) = Some (Some (code, length bs))
  | None => code < 0 \/ 2147483647 < code \/ 55296 <= code <= 57343 \/ 65534 <= code <= 65535
  end.
Proof.
  unfold toml_ucs_to_utf8.
  destruct ((55296 <=? code) && (code <=? 57343)) eqn:E1; [lia|].
  destruct ((65534 <=? code) && (code <=? 65535)) eqn:E2; [lia|].
  destruct (Z.ltb_spec code 0); [lia|].
  assert (Hs : forall x, 0 <= x -> 0 <= Z.shiftr code x) by (intros; by apply Z.shiftr_nonneg).
  destruct (Z.leb_spec code 127).
  { split; [lia|]. split; [cbn; lia|]. cbn [app toml_utf8_to_ucs]. rewrite char_code_char by lia.
    rewrite Z.shiftr_div_pow2 by lia. destruct (Z.eqb_spec (code / 2 ^ 7) 0) as [_|Hn]; [|change (2 ^ 7) with 128 in Hn; div_lia].
    destruct (Z.ltb_spec (Z.of_nat (length (code_char code :: rest))) (Z.of_nat 1)); [cbn [length] in *; lia|done]. }
  destruct (Z.leb_spec code 2047); [|destruct (Z.leb_spec code 65535); [|destruct (Z.leb_spec code 2097151);
    [|destruct (Z.leb_spec code 67108863); [|destruct (Z.leb_spec code 2147483647); [|lia]]]]];
    (split; [lia|]; split; [cbn; lia|]).
  - apply (decode_sequence code 192 5 1 [0]); try done; [cbn; tauto|rewrite Z.shiftr_div_pow2 by lia; div_lia|by repeat constructor|].
    cbn [fold_left]. rewrite !Z.shiftr_div_pow2 by lia. div_lia.
  - apply (decode_sequence code 224 4 2 [6; 0]); try done; [cbn; tauto|rewrite Z.shiftr_div_pow2 by lia; div_lia|by repeat constructor|].
    cbn [fold_left]. rewrite !Z.shiftr_div_pow2 by lia. div_lia.
  - apply (decode_sequence code 240 3 3 [12; 6; 0]); try done; [cbn; tauto|rewrite Z.shiftr_div_pow2 by lia; div_lia|by repeat constructor|].
    cbn [fold_left]. rewrite !Z.shiftr_div_pow2 by lia. div_lia.
  - apply (decode_sequence code 248 2 4 [18; 12; 6; 0]); try done; [cbn; tauto|rewrite Z.shiftr_div_pow2 by lia; div_lia|by repeat constructor|].
    cbn [fold_left]. rewrite !Z.shiftr_div_pow2 by lia. div_lia.
  - apply (decode_sequence code 252 1 5 [24; 18; 12; 6; 0]); try done; [cbn; tauto|rewrite Z.shiftr_div_pow2 by lia; div_lia|by repeat constructor|].
    cbn [fold_left]. rewrite !Z.shiftr_div_pow2 by lia. div_lia.
Qed.

(** ** Strings: the round trip *)

Lemma norm_escape c fuel rest :
  norm_basic_loop (S fuel) (escape c ++ rest) false = dst ← norm_basic_loop fuel rest false; Some (c :: dst).
Proof. destruct c as [[] [] [] [] [] [] [] []]; reflexivity. Qed.

Lemma length_escape c : (1 <= length (escape c))%nat.
Proof. unfold escape. repeat case_match; cbn [length]; lia. Qed.

Lemma norm_flat_map s : forall fuel, (length (flat_map escape s) < fuel)%nat ->
  norm_basic_loop fuel (flat_map escape s) false = Some s.
Proof.
  induction s as [|c s IH]; intros [|fuel] Hf; try lia; [done|]. cbn [flat_map] in *.
  rewrite length_app in Hf. pose proof (length_escape c). rewrite norm_escape, IH by lia. done.
Qed.

(** The first character of an escaped text is no quote. *)
Lemma escape_head c rest : at_ptr (escape c ++ rest) 0 <> QUOTE.
Proof. destruct c as [[] [] [] [] [] [] [] []]; discriminate. Qed.

Lemma rtos_quote s : toml_rtos (Some (quote s)) = Some s.
Proof.
  unfold toml_rtos, quote. cbn [mbind option_bind]. set (body := flat_map escape s).
  change (at_ptr (QUOTE :: body ++ [QUOTE]) 0) with QUOTE. change (is_quote QUOTE) with true. cbn [negb].
  assert (Hnt : Ascii.eqb QUOTE (at_ptr (QUOTE :: body ++ [QUOTE]) 1) && Ascii.eqb QUOTE (at_ptr (QUOTE :: body ++ [QUOTE]) 2) = false).
  { apply not_true_is_false. rewrite andb_true_iff, !Ascii.eqb_eq. intros [H1 H2]. unfold body in *.
    destruct s as [|c s]; [discriminate|]. cbn [flat_map] in H1. rewrite <- app_assoc in H1.
    by apply (escape_head c (flat_map escape s ++ [QUOTE])). }
  rewrite Hnt. cbn [length]. rewrite length_app. cbn [length].
  replace (at_ptr (QUOTE :: body ++ [QUOTE]) (S (length body + 1) - 1)) with QUOTE
    by (unfold at_ptr; replace (S (length body + 1) - 1)%nat with (S (length body)) by lia; cbn [nth];
        rewrite app_nth2, Nat.sub_diag by lia; done).
  change (Ascii.eqb QUOTE QUOTE) with true. change (Ascii.eqb QUOTE APOS) with false.
  destruct (Nat.leb_spec 2 (S (length body + 1))); [|lia]. cbn [andb]. unfold slice.
  replace (S (length body + 1) - 1 - 1)%nat with (length body) by lia. cbn [drop]. rewrite drop_0, take_app_length.
  unfold norm_basic_str. apply norm_flat_map. unfold body. lia.
Qed.

(** ** Integers: the round trip *)

Lemma strip_plain room s :
  (length s < room)%nat -> Forall (fun c => Ascii.eqb c "_" = false) s -> strip_underscores room s = Some s.
Proof.
  revert room. induction s as [|c s IH]; intros [|room] Hr Hs; cbn [length] in Hr; try lia; [done|].
  apply Forall_cons in Hs as [Hc Hs]. cbn [strip_underscores]. rewrite Hc, IH by (done || lia). done.
Qed.

(** Decimal digits, read in base ten. *)
Lemma decimal_digit c : is_digit c = true ->
  is_base_digit 10 c = true /\ base_digit c = digit_val c /\ Ascii.eqb c "_" = false.
Proof. destruct c as [[] [] [] [] [] [] [] []]; vm_compute; intros; repeat split; congruence. Qed.

Lemma decimal_digits l : Forall (fun c => is_digit c = true) l ->
  take_while (is_base_digit 10) l = l /\ drop_while (is_base_digit 10) l = [] /\ base_val 10 l = digits_val l.
Proof.
  intros Hl. unfold base_val, digits_val.
  assert (Hg : take_while (is_base_digit 10) l = l /\ drop_while (is_base_digit 10) l = [] /\
    forall n, fold_left (fun n c => n * 10 + base_digit c) l n = fold_left (fun n c => n * 10 + digit_val c) l n).
  { induction Hl as [|c l Hc _ (IH1 & IH2 & IH3)]; [done|]. destruct (decimal_digit c Hc) as (H1 & H2 & _).
    cbn [take_while drop_while fold_left]. rewrite H1, H2, IH1. done. }
  destruct Hg as (? & ? & Hf). split; [done|split; [done|apply Hf]].
Qed.

(** The first digit of a positive number is not zero. *)
Lemma print_digits_head f : forall n, 0 < n < 10 ^ Z.of_nat f ->
  exists c l, print_digits f n = c :: l /\ Ascii.eqb c "0" = false.
Proof.
  induction f as [|f IH]; intros n Hn; [simpl in Hn; lia|]. cbn [print_digits]. destruct (Z.ltb_spec n 10).
  - exists (digit_char n), []. split; [done|].
    assert (Hc : n = 1 \/ n = 2 \/ n = 3 \/ n = 4 \/ n = 5 \/ n = 6 \/ n = 7 \/ n = 8 \/ n = 9) by lia.
    by repeat destruct Hc as [->|Hc]; try rewrite Hc.
  - rewrite Nat2Z.inj_succ, Z.pow_succ_r in Hn by lia.
    destruct (IH (n / 10)) as (c & l & -> & Hc); [split; [apply Z.div_str_pos|apply Z.div_lt_upper_bound]; lia|].
    by exists c, (l ++ [digit_char (n mod 10)]).
Qed.

(** [strtoll] on digits that do not begin with 0. *)
Lemma strtoll_digits sign c l v : sign = [] \/ sign = ["-"%char] ->
  Forall (fun c => is_digit c = true) (c :: l) -> Ascii.eqb c "0" = false -> digits_val (c :: l) = v ->
  - 2 ^ 63 <= match sign with [] => v | _ => - v end < 2 ^ 63 ->
  strtoll (sign ++ c :: l) 0 = (match sign with [] => v | _ => - v end, [], false).
Proof.
  intros Hs Hd H0 Hv Hr. destruct (decimal_digits _ Hd) as (Ht & Hw & Hb). apply Forall_cons in Hd as [Hc _].
  destruct (digit_not_special c Hc) as (Hsp & Hm & Hp & _). unfold strtoll. change (0 =? 0) with true. cbn [orb].
  assert (Hone : forall neg : bool, - 2 ^ 63 <= (if neg then - v else v) < 2 ^ 63 ->
    match take_while (is_base_digit 10) (c :: l) with
    | [] => (0, sign ++ c :: l, false)
    | digits =>
        let v := base_val 10 digits in
        let v := if neg then - v else v in
        let rest := drop_while (is_base_digit 10) (c :: l) in
        if v <? - 2 ^ 63 then (- 2 ^ 63, rest, true)
        else if 2 ^ 63 <=? v then (2 ^ 63 - 1, rest, true) else (v, rest, false)
    end = (if neg then - v else v, [], false)).
  { intros neg Hneg. rewrite Ht, Hw. cbv zeta. rewrite Hb, Hv.
    destruct (Z.ltb_spec (if neg then - v else v) (- 2 ^ 63)); [lia|].
    by destruct (Z.leb_spec (2 ^ 63) (if neg then - v else v)); [lia|]. }
  destruct Hs as [-> | ->]; cbn [app drop_while].
  - rewrite Hsp. unfold at_ptr. cbn [nth]. rewrite Hm, Hp. cbn [orb]. cbn [nth]. rewrite H0. cbn [andb]. apply (Hone false Hr).
  - change (isspace "-") with false. unfold at_ptr. cbn [nth]. change (Ascii.eqb "-" "-") with true. cbn [orb].
    change (drop 1 ("-"%char :: c :: l)) with (c :: l). cbn [nth]. rewrite H0. cbn [andb]. apply (Hone true Hr).
Qed.

Lemma rtoi_print n : - 2 ^ 63 <= n < 2 ^ 63 -> toml_rtoi (Some (print_int n)) = (true, n).
Proof.
  intros Hn. destruct (Z.eq_dec n 0) as [->|Hnz]; [done|].
  destruct (print_digits_head 20 (Z.abs n)) as (c & l & Hp & H0); [lia|].
  destruct (print_digits_20 (Z.abs n)) as (Hv & Hd & _ & Hl); [lia|]. rewrite Hp in Hv, Hd, Hl.
  pose proof Hd as Hd'. apply Forall_cons in Hd' as [Hc _].
  destruct (digit_not_special c Hc) as (_ & Hm & Hpl & _). destruct (decimal_digit c Hc) as (_ & _ & Hu).
  assert (Hstrip : forall k, (length (c :: l) < 100 - k)%nat -> strip_underscores (100 - k) (c :: l) = Some (c :: l)).
  { intros k Hk. apply strip_plain; [done|]. eapply Forall_impl; [exact Hd|]. intros x Hx. by apply decimal_digit. }
  unfold print_int, toml_rtoi. destruct (Z.ltb_spec n 0).
  - replace (- n) with (Z.abs n) by lia. rewrite Hp. unfold at_ptr. cbn [nth].
    change (Ascii.eqb "-" "+" || Ascii.eqb "-" "-") with true. cbn iota.
    change (drop 1 ("-"%char :: c :: l)) with (c :: l). change (take 1 ("-"%char :: c :: l)) with ["-"%char].
    cbn [nth]. rewrite Hu, H0. cbn [length] in Hl, Hstrip |- *. rewrite (Hstrip 1%nat) by lia.
    rewrite (strtoll_digits ["-"%char] c l (Z.abs n)) by (auto || lia). cbn. f_equal. lia.
  - rewrite Z.abs_eq in Hp, Hv by lia. rewrite Hp. unfold at_ptr. cbn [nth]. rewrite Hm, Hpl. cbn [orb].
    cbn [nth]. rewrite Hu, H0. cbn [length] in Hl, Hstrip |- *. rewrite (Hstrip 0%nat) by lia.
    by rewrite (strtoll_digits [] c l n) by (auto || lia).
Qed.
