(* ===== verification/TomlLex.v ===== *)
(** * TomlLex: the tokens of a TOML document

    [scan_string], [next_token] and [normalize_key] of [src/src/toml.c].  A
    token keeps the text from its first character to the end of the
    document, as the pointers of the code do; line numbers, which only
    appear in messages, are left out. *)

From Stdlib Require Import Ascii.
From S2P Require Import Prelude BBox ObjDesc Linear Sspace DhtEntry StrHash LocalStorage Matrix Codec Modules Server Conf Toml.

(** ** Tokens *)

Inductive tokentype := INVALID | DOT | COMMA | EQUAL | LBRACE | RBRACE | NEWLINE_TOK | LBRACKET | RBRACKET | STRING.

#[global] Instance tokentype_eq_dec : EqDecision tokentype.
Proof. solve_decision. Defined.

Record token := mkTok {
  tok_kind : tokentype;
  tok_ptr : text;
  tok_len : nat;
  tok_eof : bool
}.

(** ** Searching *)

Fixpoint starts_with (pat p : text) : bool :=
  match pat, p with
  | [], _ => true
  | a :: pat, c :: p => Ascii.eqb a c && starts_with pat p
  | _ :: _, [] => false
  end.

Fixpoint strstr (pat p : text) : option nat :=
  if starts_with pat p then Some 0%nat
  else match p with [] => None | _ :: p => S <$> strstr pat p end.

Definition triple (c : ascii) : text := [c; c; c].

(** The end of a multi-line basic string: three quotes, the first not after
    a backslash ([prev] is the character before). *)
Fixpoint find_triple (prev : ascii) (q : text) : option nat :=
  if starts_with (triple QUOTE) q && negb (Ascii.eqb prev BACKSLASH) then Some 0%nat
  else match q with [] => None | c :: q => S <$> find_triple c q end.

(** ** Strings *)

(** The characters of the short escapes. *)
Definition short_escape (c : ascii) : bool := match escape_char c with Some _ => true | None => false end.
Definition upper_hex (c : ascii) : bool := one_of_chars "0123456789ABCDEF" c.

(** The check of the [n] characters between triple quotes. *)
Fixpoint triple_escapes (n : nat) (escape : bool) (hexreq : nat) (p : text) : bool :=
  match n, p with
  | O, _ => negb escape && (hexreq =? 0)%nat
  | S _, [] => false
  | S n, c :: p' =>
      if escape then
        if short_escape c then triple_escapes n false hexreq p'
        else if Ascii.eqb c "u" then triple_escapes n false 4 p'
        else if Ascii.eqb c "U" then triple_escapes n false 8 p'
        else if Ascii.eqb (at_ptr p (spn line_space p)) NEWLINE then triple_escapes n false hexreq p'
        else false
      else
        match hexreq with
        | S h => if upper_hex c then triple_escapes n false h p' else false
        | O => triple_escapes n (Ascii.eqb c BACKSLASH) 0 p'
        end
  end.

(** The place of the closing quote of a basic string, [None] for an error. *)
Fixpoint basic_end (escape : bool) (hexreq : nat) (p : text) : option nat :=
  match p with
  | [] => None
  | c :: p' =>
      if escape then
        if short_escape c then S <$> basic_end false hexreq p'
        else if Ascii.eqb c "u" then S <$> basic_end false 4 p'
        else if Ascii.eqb c "U" then S <$> basic_end false 8 p'
        else None
      else
        match hexreq with
        | S h => if upper_hex c then S <$> basic_end false h p' else None
        | O =>
            if Ascii.eqb c BACKSLASH then S <$> basic_end true 0 p'
            else if Ascii.eqb c APOS then
              if Ascii.eqb (at_ptr p 1) APOS && Ascii.eqb (at_ptr p 2) APOS then None else S <$> basic_end false 0 p'
            else if Ascii.eqb c NEWLINE then None
            else if Ascii.eqb c QUOTE then Some 0%nat
            else S <$> basic_end false 0 p'
        end
  end.

Definition is_upper (c : ascii) : bool := (65 <=? char_code c) && (char_code c <=? 90).
Definition is_lower (c : ascii) : bool := (97 <=? char_code c) && (char_code c <=? 122).

Definition time_char (c : ascii) : bool := one_of_chars "0123456789.:+-T Z" c.

(** A character of a literal. *)
Definition literal_char (dotisspecial : bool) (c : ascii) : bool :=
  negb (Ascii.eqb c NEWLINE) && negb (Ascii.eqb c "." && dotisspecial)
  && (is_upper c || is_lower c || one_of_chars "0123456789+-_." c).

Definition set_string (p : text) (len : nat) : option token := Some (mkTok STRING p len false).

Definition scan_string (p : text) (dotisspecial : bool) : option token :=
  if starts_with (triple APOS) p then
    k ← strstr (triple APOS) (drop 3 p);
    let q := (3 + k)%nat in
    set_string p (q + spn (Ascii.eqb APOS) (drop (q + 3) p) + 3)
  else if starts_with (triple QUOTE) p then
    k ← find_triple QUOTE (drop 3 p);
    let q := (3 + k)%nat in
    let q := (q + spn (Ascii.eqb QUOTE) (drop (q + 3) p))%nat in
    if triple_escapes (q - 3) false 0 (drop 3 p) then set_string p (q + 3) else None
  else if Ascii.eqb (at_ptr p 0) APOS then
    let k := spn (fun c => negb (Ascii.eqb c NEWLINE) && negb (Ascii.eqb c APOS)) (drop 1 p) in
    if Ascii.eqb (at_ptr p (1 + k)) APOS then set_string p (k + 2) else None
  else if Ascii.eqb (at_ptr p 0) QUOTE then
    k ← basic_end false 0 (drop 1 p); set_string p (k + 2)
  else if match scan_date p with Some _ => true | None => false end
          || match scan_time p with Some _ => true | None => false end then
    set_string p (length (drop_while (Ascii.eqb " ") (rev (take_while time_char p))))
  else set_string p (spn (literal_char dotisspecial) p).

(** ** The next token *)

(** [comment]: skipping up to the end of the line. *)
Fixpoint scan_token (dotisspecial comment : bool) (p : text) : option token :=
  match p with
  | [] => Some (mkTok NEWLINE_TOK [] 0 true)
  | c :: p' =>
      let single k := Some (mkTok k p 1 false) in
      if comment && negb (Ascii.eqb c NEWLINE) then scan_token dotisspecial true p'
      else if Ascii.eqb c "#" then scan_token dotisspecial true p'
      else if dotisspecial && Ascii.eqb c "." then single DOT
      else if Ascii.eqb c "," then single COMMA
      else if Ascii.eqb c "=" then single EQUAL
      else if Ascii.eqb c "{" then single LBRACE
      else if Ascii.eqb c "}" then single RBRACE
      else if Ascii.eqb c "[" then single LBRACKET
      else if Ascii.eqb c "]" then single RBRACKET
      else if Ascii.eqb c NEWLINE then single NEWLINE_TOK
      else if line_space c then scan_token dotisspecial false p'
      else scan_string p dotisspecial
  end.

Definition next_token (t : token) (dotisspecial : bool) : option token :=
  scan_token dotisspecial false (drop (tok_len t) (tok_ptr t)).

(** ** Keys *)

Definition is_alnum (c : ascii) : bool := is_digit c || is_upper c || is_lower c.

Definition normalize_key (strtok : token) : option text :=
  let sp := tok_ptr strtok in
  let ch := at_ptr sp 0 in
  if is_quote ch then
    let multiline := Ascii.eqb (at_ptr sp 1) ch && Ascii.eqb (at_ptr sp 2) ch in
    let k := if multiline then 3%nat else 1%nat in
    let body := slice k (tok_len strtok - k) sp in
    ret ← (if Ascii.eqb ch APOS then Some body else norm_basic_str body multiline);
    let ret := c_text ret in
    if existsb (Ascii.eqb NEWLINE) ret then None else Some ret
  else
    let key := take (tok_len strtok) sp in
    if forallb (fun c => is_alnum c || Ascii.eqb c "_" || Ascii.eqb c "-") key then Some key else None.

Example tokens_of_line :
  let t0 := mkTok NEWLINE_TOK (txt "a.b = '''x'''' # c") 0 false in
  let next t := match t with Some t => next_token t true | None => None end in
  let t1 := next (Some t0) in let t2 := next t1 in let t3 := next t2 in let t4 := next t3 in let t5 := next t4 in
  let show (t : option token) := match t with Some t => Some (tok_kind t, tok_len t) | None => None end in
  (map show [t1; t2; t3; t4; t5], show (next t5)) =
  ([Some (STRING, 1%nat); Some (DOT, 1%nat); Some (STRING, 1%nat); Some (EQUAL, 1%nat); Some (STRING, 8%nat)],
   Some (NEWLINE_TOK, 0%nat)).
Proof. reflexivity. Qed.

(** ** Tokens lie in the text *)

Lemma spn_le f p : (spn f p <= length p)%nat.
Proof. unfold spn. induction p as [|c p IH]; cbn; [lia|]. destruct (f c); cbn; lia. Qed.

Lemma drop_while_le f p : (length (drop_while f p) <= length p)%nat.
Proof. induction p as [|c p IH]; cbn; [lia|]. destruct (f c); cbn; lia. Qed.

Lemma starts_with_le pat p : starts_with pat p = true -> (length pat <= length p)%nat.
Proof.
  revert p. induction pat as [|a pat IH]; intros [|c p]; cbn; try lia; try done.
  rewrite andb_true_iff. intros [_ H]. specialize (IH _ H). lia.
Qed.

Lemma strstr_le pat p k : strstr pat p = Some k -> (k + length pat <= length p)%nat.
Proof.
  revert k. induction p as [|c p IH]; intros k; cbn [strstr]; destruct (starts_with pat _) eqn:E; try done;
    try (intros [= <-]; apply starts_with_le in E; lia).
  destruct (strstr pat p) as [j|]; [|done]. intros [= <-]. specialize (IH j eq_refl). cbn [length]. lia.
Qed.

Lemma find_triple_le prev q k : find_triple prev q = Some k -> (k + 3 <= length q)%nat.
Proof.
  revert prev k. induction q as [|c q IH]; intros prev k; cbn [find_triple]; destruct (starts_with _ _ && _) eqn:E; try done;
    try (intros [= <-]; apply andb_true_iff in E as [E _]; apply starts_with_le in E; cbn [length triple] in *; lia).
  destruct (find_triple c q) as [j|] eqn:Ej; [|done]. intros [= <-]. apply IH in Ej. cbn [length]. lia.
Qed.

Lemma basic_end_le p : forall escape hexreq k, basic_end escape hexreq p = Some k -> (k < length p)%nat.
Proof.
  induction p as [|c p IH]; intros escape hexreq k; [done|]. cbn [basic_end length].
  assert (Hs : forall e h, S <$> basic_end e h p = Some k -> (k < S (length p))%nat).
  { intros e h. destruct (basic_end e h p) as [j|] eqn:Ej; [|done]. intros [= <-]. apply IH in Ej. lia. }
  repeat case_match; try done; try apply Hs. intros [= <-]. lia.
Qed.

(** A character that is not the terminator lies before the end. *)
Lemma at_ptr_lt p n c : Ascii.eqb (at_ptr p n) c = true -> c <> NUL -> (n < length p)%nat.
Proof.
  intros H%Ascii.eqb_eq Hc. destruct (Nat.lt_ge_cases n (length p)) as [|Hn]; [done|].
  unfold at_ptr in H. rewrite nth_overflow in H by done. by subst.
Qed.

Lemma scan_string_ok p d t : scan_string p d = Some t ->
  tok_kind t = STRING /\ tok_ptr t = p /\ (tok_len t <= length p)%nat /\ tok_eof t = false.
Proof.
  unfold scan_string, set_string. intros H.
  assert (Hlen : forall k, (k <= length p)%nat -> Some (mkTok STRING p k false) = Some t ->
    tok_kind t = STRING /\ tok_ptr t = p /\ (tok_len t <= length p)%nat /\ tok_eof t = false).
  { by intros k Hk [= <-]. }
  destruct (starts_with (triple APOS) p) eqn:E1; [|destruct (starts_with (triple QUOTE) p) eqn:E2].
  - destruct (strstr (triple APOS) (drop 3 p)) as [k|] eqn:Ek; [|done]. apply strstr_le in Ek. apply starts_with_le in E1.
    rewrite length_drop in Ek. cbn [length triple] in *.
    pose proof (spn_le (Ascii.eqb APOS) (drop (3 + k + 3) p)) as Hs. rewrite length_drop in Hs. eapply Hlen, H. lia.
  - destruct (find_triple QUOTE (drop 3 p)) as [k|] eqn:Ek; [|done]. apply find_triple_le in Ek. apply starts_with_le in E2.
    rewrite length_drop in Ek. cbn [length triple] in *.
    pose proof (spn_le (Ascii.eqb QUOTE) (drop (3 + k + 3) p)) as Hs. rewrite length_drop in Hs.
    cbn [mbind option_bind] in H. destruct (triple_escapes _ _ _ _); [|done]. eapply Hlen, H. lia.
  - destruct (Ascii.eqb (at_ptr p 0) APOS) eqn:E3.
    + destruct (Ascii.eqb (at_ptr p (1 + _)) APOS) eqn:E4; [|done]. apply at_ptr_lt in E4; [|done]. eapply Hlen, H. lia.
    + destruct (Ascii.eqb (at_ptr p 0) QUOTE) eqn:E5.
      * apply at_ptr_lt in E5; [|done]. destruct (basic_end false 0 (drop 1 p)) as [k|] eqn:Ek; [|done].
        apply basic_end_le in Ek. rewrite length_drop in Ek. eapply Hlen, H. lia.
      * destruct (_ || _); eapply Hlen, H; [|apply spn_le].
        etrans; [apply drop_while_le|]. rewrite length_rev. apply spn_le.
Qed.

(** A token of the scanner: the end of the text, or a token within it; only
    strings can be empty. *)
Definition tok_ok (t : token) : Prop :=
  if tok_eof t then tok_kind t = NEWLINE_TOK /\ tok_ptr t = [] /\ tok_len t = 0%nat
  else tok_kind t <> INVALID /\ (tok_len t <= length (tok_ptr t))%nat /\ (tok_kind t <> STRING -> tok_len t = 1%nat).

Lemma scan_token_ok d : forall p comment t, scan_token d comment p = Some t ->
  tok_ok t /\ (length (tok_ptr t) <= length p)%nat.
Proof.
  induction p as [|c p IH]; intros comment t; cbn [scan_token]; [intros [= <-]; by repeat split; cbn|].
  assert (Hone : forall k, k <> INVALID -> Some (mkTok k (c :: p) 1 false) = Some t ->
    tok_ok t /\ (length (tok_ptr t) <= length (c :: p))%nat).
  { intros k Hk [= <-]. unfold tok_ok. cbn. split; [split; [done|]; split; [lia|done]|lia]. }
  assert (Hskip : forall b, scan_token d b p = Some t -> tok_ok t /\ (length (tok_ptr t) <= length (c :: p))%nat).
  { intros b H. apply IH in H as [? ?]. split; [done|]. cbn [length]. lia. }
  repeat (match goal with |- (if ?b then _ else _) = _ -> _ => destruct b; [by (apply Hskip || apply Hone)|] end).
  intros (H1 & H2 & H3 & H4)%scan_string_ok. unfold tok_ok. rewrite H4, H1, H2. split; [|done]. by split; [|split].
Qed.

(** The text left at a token. *)
Definition text_left (t : token) : nat := length (tok_ptr t).

Lemma next_token_ok t d t' :
  next_token t d = Some t' -> tok_ok t' /\ (text_left t' <= text_left t - tok_len t)%nat.
Proof. unfold next_token, text_left. intros [? H]%scan_token_ok. by rewrite length_drop in H. Qed.
