(* ===== verification/TomlDoc.v ===== *)
(** * TomlDoc: the tables and arrays of a TOML document

    The data structures of [src/src/toml.c]: tables and arrays point to each
    other, so a document is a memory of nodes, in the order of their
    creation; node 0 is the root table.  A result is [None] for undefined
    behaviour or for want of fuel, [Some None] for the error [-1], and
    [Some (Some r)] otherwise. *)

From Stdlib Require Import Ascii SpecFloat.
From S2P Require Import Prelude BBox ObjDesc Linear Sspace DhtEntry StrHash LocalStorage Matrix Codec Modules Server Conf Toml TomlLex.

(** ** Results *)

Declare Scope toml_scope.
Open Scope toml_scope.

Definition res (A : Type) : Type := option (option A).
Definition ok {A} (a : A) : res A := Some (Some a).
Definition fail {A} : res A := Some None.

Definition rbind {A B} (m : res A) (f : A -> res B) : res B :=
  match m with None => None | Some None => fail | Some (Some a) => f a end.

Notation "x <~ m ; f" := (rbind m (fun x => f)) (at level 20, m at level 100, f at level 200) : toml_scope.
Notation "' p <~ m ; f" := (rbind m (fun x => let p := x in f))
  (at level 20, p pattern, m at level 100, f at level 200) : toml_scope.

(** A pointer that has to be there. *)
Definition deref {A} (o : option A) : res A := match o with Some a => ok a | None => None end.

(** A function that returns 0 or [-1] for an error. *)
Definition check {A} (o : option A) : res A := Some o.

(** ** Nodes *)

Record toml_keyval := mkKv { kv_key : text; kv_val : text }.

(** [toml_arritem_t]: which of the three pointers is set. *)
Inductive toml_arritem :=
  | IVal (valtype : ascii) (val : text)
  | IArr (arr : nat)
  | ITab (tab : nat).

Record toml_array := mkArr {
  a_key : option text;
  a_kind : ascii;
  a_type : ascii;
  a_item : list toml_arritem
}.

Record toml_table := mkTab {
  t_key : option text;
  t_implicit : bool;
  t_readonly : bool;
  t_kval : list toml_keyval;
  t_arr : list nat;
  t_tab : list nat
}.

Inductive node := NTab (t : toml_table) | NArr (a : toml_array).

Abbreviation doc := (list node).

Definition get_tab (d : doc) (i : nat) : option toml_table :=
  match d !! i with Some (NTab t) => Some t | _ => None end.
Definition get_arr (d : doc) (i : nat) : option toml_array :=
  match d !! i with Some (NArr a) => Some a | _ => None end.

Definition node_key (n : node) : option text := match n with NTab t => t_key t | NArr a => a_key a end.

(** ** Searching a table *)

Definition find_kval (l : list toml_keyval) (key : text) : option text :=
  match list_find (fun kv => kv_key kv = key) l with Some (_, kv) => Some (kv_val kv) | None => None end.

(** The child of that key among [ids]; [None] outside when a pointer or a
    key is missing. *)
Fixpoint find_child (d : doc) (ids : list nat) (key : text) : option (option nat) :=
  match ids with
  | [] => Some None
  | i :: ids => n ← d !! i; k ← node_key n; if text_eqb key k then Some (Some i) else find_child d ids key
  end.

(** What [check_key] returns, with what it finds. *)
Inductive found := FVal (val : text) | FArr (i : nat) | FTab (i : nat) | FNone.

Definition check_key (d : doc) (t : toml_table) (key : text) : option found :=
  match find_kval (t_kval t) key with
  | Some v => Some (FVal v)
  | None =>
      a ← find_child d (t_arr t) key;
      match a with
      | Some i => Some (FArr i)
      | None => b ← find_child d (t_tab t) key; Some (match b with Some i => FTab i | None => FNone end)
      end
  end.

Definition toml_table_in (d : doc) (t : toml_table) (key : text) : option (option nat) := find_child d (t_tab t) key.
Definition toml_array_in (d : doc) (t : toml_table) (key : text) : option (option nat) := find_child d (t_arr t) key.
Definition toml_raw_in (t : toml_table) (key : text) : option text := find_kval (t_kval t) key.

Definition toml_key_exists (d : doc) (t : toml_table) (key : text) : option bool :=
  f ← check_key d t key; Some (match f with FNone => false | _ => true end).

(** The inner [None] is the null pointer. *)
Definition toml_key_in (d : doc) (t : toml_table) (keyidx : nat) : option (option text) :=
  match t_kval t !! keyidx with
  | Some kv => Some (Some (kv_key kv))
  | None =>
      let keyidx := (keyidx - length (t_kval t))%nat in
      match t_arr t !! keyidx with
      | Some i => n ← d !! i; Some (node_key n)
      | None =>
          match t_tab t !! (keyidx - length (t_arr t))%nat with
          | Some i => n ← d !! i; Some (node_key n)
          | None => Some None
          end
      end
  end.

Definition toml_raw_at (a : toml_array) (idx : nat) : option text :=
  match a_item a !! idx with Some (IVal _ v) => Some v | _ => None end.

Definition toml_array_at (a : toml_array) (idx : nat) : option nat :=
  match a_item a !! idx with Some (IArr i) => Some i | _ => None end.
Definition toml_table_at (a : toml_array) (idx : nat) : option nat :=
  match a_item a !! idx with Some (ITab i) => Some i | _ => None end.

Definition toml_array_kind (a : toml_array) : ascii := a_kind a.
Definition toml_array_type (a : toml_array) : ascii :=
  if negb (Ascii.eqb (a_kind a) "v") then NUL else match a_item a with [] => NUL | _ => a_type a end.

Definition toml_array_nelem (a : toml_array) : nat := length (a_item a).
Definition toml_table_nkval (t : toml_table) : nat := length (t_kval t).
Definition toml_table_narr (t : toml_table) : nat := length (t_arr t).
Definition toml_table_ntab (t : toml_table) : nat := length (t_tab t).

(** [toml_datum_t]: whether the value is there, with what it is set to;
    strings as C reads them. *)
Definition toml_int_in (t : toml_table) (key : text) : bool * Z := toml_rtoi (toml_raw_in t key).
Definition toml_int_at (a : toml_array) (idx : nat) : bool * Z := toml_rtoi (toml_raw_at a idx).
Definition toml_bool_in (t : toml_table) (key : text) : option Z := toml_rtob (toml_raw_in t key).
Definition toml_bool_at (a : toml_array) (idx : nat) : option Z := toml_rtob (toml_raw_at a idx).
Definition toml_string_in (t : toml_table) (key : text) : option text := s ← toml_rtos (toml_raw_in t key); Some (c_text s).
Definition toml_string_at (a : toml_array) (idx : nat) : option text := s ← toml_rtos (toml_raw_at a idx); Some (c_text s).
Definition toml_timestamp_in (t : toml_table) (key : text) : option toml_timestamp := toml_rtots (toml_raw_in t key).
Definition toml_timestamp_at (a : toml_array) (idx : nat) : option toml_timestamp := toml_rtots (toml_raw_at a idx).

Section DoubleValues.
Context `{D : Strtod}.
Definition toml_double_in (t : toml_table) (key : text) : bool * spec_float := toml_rtod (toml_raw_in t key).
Definition toml_double_at (a : toml_array) (idx : nat) : bool * spec_float := toml_rtod (toml_raw_at a idx).
End DoubleValues.

(** ** Creating *)

Definition with_kvals (t : toml_table) (l : list toml_keyval) : toml_table :=
  mkTab (t_key t) (t_implicit t) (t_readonly t) l (t_arr t) (t_tab t).
Definition with_arrs (t : toml_table) (l : list nat) : toml_table :=
  mkTab (t_key t) (t_implicit t) (t_readonly t) (t_kval t) l (t_tab t).
Definition with_tabs (t : toml_table) (l : list nat) : toml_table :=
  mkTab (t_key t) (t_implicit t) (t_readonly t) (t_kval t) (t_arr t) l.
Definition with_flags (t : toml_table) (implicit readonly : bool) : toml_table :=
  mkTab (t_key t) implicit readonly (t_kval t) (t_arr t) (t_tab t).

(** A new table or array, all zero but its key. *)
Definition new_tab (key : option text) (implicit : bool) : node := NTab (mkTab key implicit false [] [] []).
Definition new_arr (key : option text) (kind : ascii) : node := NArr (mkArr key kind NUL []).

(** The value is stored with the key; the code stores it right after. *)
Definition create_keyval_in_table (d : doc) (tab : nat) (keytok : token) (val : text) : res doc :=
  newkey <~ check (normalize_key keytok);
  t <~ deref (get_tab d tab);
  f <~ deref (check_key d t newkey);
  match f with
  | FNone => ok (<[tab := NTab (with_kvals t (t_kval t ++ [mkKv newkey val]))]> d)
  | _ => fail
  end.

Definition create_keytable_in_table (d : doc) (tab : nat) (keytok : token) : res (nat * doc) :=
  newkey <~ check (normalize_key keytok);
  t <~ deref (get_tab d tab);
  f <~ deref (check_key d t newkey);
  match f with
  | FNone => ok (length d, <[tab := NTab (with_tabs t (t_tab t ++ [length d]))]> d ++ [new_tab (Some newkey) false])
  | FTab i =>
      dest <~ deref (get_tab d i);
      if t_implicit dest then ok (i, <[i := NTab (with_flags dest false (t_readonly dest))]> d) else fail
  | _ => fail
  end.

Definition create_keyarray_in_table (d : doc) (tab : nat) (keytok : token) (kind : ascii) : res (nat * doc) :=
  newkey <~ check (normalize_key keytok);
  t <~ deref (get_tab d tab);
  f <~ deref (check_key d t newkey);
  match f with
  | FNone => ok (length d, <[tab := NTab (with_arrs t (t_arr t ++ [length d]))]> d ++ [new_arr (Some newkey) kind])
  | _ => fail
  end.

(** The kind of an array after an element of kind [k]. *)
Definition next_kind (kind k : ascii) : ascii :=
  if Ascii.eqb kind NUL then k else if Ascii.eqb kind k then kind else "m"%char.

Definition create_value_in_array (d : doc) (arr : nat) (valtype : ascii) (val : text) : res doc :=
  a <~ deref (get_arr d arr);
  let type := match a_item a with
              | [] => valtype
              | _ => if Ascii.eqb (a_type a) valtype then a_type a else "m"%char
              end in
  ok (<[arr := NArr (mkArr (a_key a) (next_kind (a_kind a) "v") type (a_item a ++ [IVal valtype val]))]> d).

Definition create_array_in_array (d : doc) (arr : nat) : res (nat * doc) :=
  a <~ deref (get_arr d arr);
  ok (length d, <[arr := NArr (mkArr (a_key a) (next_kind (a_kind a) "a") (a_type a) (a_item a ++ [IArr (length d)]))]> d
                ++ [new_arr None NUL]).

(** [key] is set by [[[x]]] only. *)
Definition create_table_in_array (d : doc) (arr : nat) (key : option text) : res (nat * doc) :=
  a <~ deref (get_arr d arr);
  ok (length d, <[arr := NArr (mkArr (a_key a) (next_kind (a_kind a) "t") (a_type a) (a_item a ++ [ITab (length d)]))]> d
                ++ [new_tab key false]).

(** ** Well-formed documents *)

Definition shape (n : node) : bool * option text :=
  match n with NTab t => (true, t_key t) | NArr a => (false, a_key a) end.

Definition item_ids (it : toml_arritem) : list nat :=
  match it with IVal _ _ => [] | IArr i => [i] | ITab i => [i] end.

Definition children (n : node) : list nat :=
  match n with NTab t => t_arr t ++ t_tab t | NArr a => flat_map item_ids (a_item a) end.

Section Shapes.
Context (S : list (bool * option text)).

(** Node [j] is a table ([b]) or an array with a key, created after [i]. *)
Definition keyed (b : bool) (i j : nat) : Prop := (i < j)%nat /\ exists k, S !! j = Some (b, Some k).

Definition item_ok (i : nat) (it : toml_arritem) : Prop :=
  match it with
  | IVal _ _ => True
  | IArr j => (i < j)%nat /\ exists k, S !! j = Some (false, k)
  | ITab j => (i < j)%nat /\ exists k, S !! j = Some (true, k)
  end.

Definition is_ITab (it : toml_arritem) : bool := match it with ITab _ => true | _ => false end.

Definition child_key (j : nat) : option text := x ← S !! j; x.2.

(** All keys of a table. *)
Definition table_keys (t : toml_table) : list (option text) :=
  map (fun kv => Some (kv_key kv)) (t_kval t) ++ map child_key (t_arr t) ++ map child_key (t_tab t).

Definition node_ok (i : nat) (n : node) : Prop :=
  match n with
  | NTab t => Forall (keyed false i) (t_arr t) /\ Forall (keyed true i) (t_tab t) /\ NoDup (table_keys t)
  | NArr a => Forall (item_ok i) (a_item a) /\ (a_kind a = "t"%char -> Forall (fun it => is_ITab it = true) (a_item a)) /\
              (a_kind a = NUL -> a_item a = [])
  end.
End Shapes.

(** The pointers of every node lead to later nodes of the right sort, keys
    within a table differ, an array of kind ['t'] holds tables only, and
    every node but the root is pointed to exactly once: the document is a
    tree. *)
Record doc_ok (d : doc) : Prop := {
  ok_nodes : forall i n, d !! i = Some n -> node_ok (shape <$> d) i n;
  ok_tree : flat_map children d ≡ₚ seq 1 (length d - 1);
  ok_root : exists t, d !! 0%nat = Some (NTab t)
}.

(** What a step of the parser does to a document: nodes stay, with their
    sort and key. *)
Definition grows (d d' : doc) : Prop := (shape <$> d) `prefix_of` (shape <$> d').

#[global] Instance grows_preorder : PreOrder grows.
Proof. split; [intros d; unfold grows; done|intros a b c; unfold grows; apply transitivity]. Qed.

Lemma grows_tab d d' i t : grows d d' -> get_tab d i = Some t -> exists t', get_tab d' i = Some t' /\ t_key t' = t_key t.
Proof.
  unfold get_tab. intros Hg Ht. destruct (d !! i) as [[t0|]|] eqn:E; simplify_eq.
  assert (Hs : (shape <$> d) !! i = Some (true, t_key t)) by (by rewrite list_lookup_fmap, E).
  apply (prefix_lookup_Some _ _ _ _ Hs) in Hg. rewrite list_lookup_fmap in Hg.
  destruct (d' !! i) as [[t'|]|]; try done. cbn in Hg. simplify_eq. eauto.
Qed.

Lemma grows_arr d d' i a : grows d d' -> get_arr d i = Some a -> exists a', get_arr d' i = Some a' /\ a_key a' = a_key a.
Proof.
  unfold get_arr. intros Hg Ht. destruct (d !! i) as [[|a0]|] eqn:E; simplify_eq.
  assert (Hs : (shape <$> d) !! i = Some (false, a_key a)) by (by rewrite list_lookup_fmap, E).
  apply (prefix_lookup_Some _ _ _ _ Hs) in Hg. rewrite list_lookup_fmap in Hg.
  destruct (d' !! i) as [[|a']|]; try done. cbn in Hg. simplify_eq. eauto.
Qed.

Lemma keyed_prefix S S' b i j : S `prefix_of` S' -> keyed S b i j -> keyed S' b i j.
Proof. intros Hp (Hij & k & Hk). split; [done|]. exists k. by eapply prefix_lookup_Some. Qed.

Lemma item_ok_prefix S S' i it : S `prefix_of` S' -> item_ok S i it -> item_ok S' i it.
Proof.
  intros Hp. destruct it; [done|..]; intros (Hij & k & Hk); (split; [done|]; exists k; by eapply prefix_lookup_Some).
Qed.

Lemma child_keys_prefix S S' b i l : S `prefix_of` S' -> Forall (keyed S b i) l -> map (child_key S') l = map (child_key S) l.
Proof.
  intros Hp. induction 1 as [|j l (_ & k & Hk) _ IH]; [done|]. cbn [map]. rewrite IH. f_equal.
  unfold child_key. by rewrite Hk, (prefix_lookup_Some _ _ _ _ Hk Hp).
Qed.

Lemma node_ok_prefix S S' i n : S `prefix_of` S' -> node_ok S i n -> node_ok S' i n.
Proof.
  intros Hp. destruct n as [t|a]; cbn.
  - intros (H1 & H2 & H3). unfold table_keys in *.
    rewrite (child_keys_prefix S S' false i), (child_keys_prefix S S' true i) by done.
    split; [|split]; [eapply Forall_impl; [done|]; intros; by eapply keyed_prefix..|done].
  - intros (H1 & H2). split; [|done]. eapply Forall_impl; [done|]. intros. by eapply item_ok_prefix.
Qed.

Lemma shape_insert (d : doc) i n n' : d !! i = Some n -> shape n' = shape n -> shape <$> <[i:=n']> d = shape <$> d.
Proof.
  intros Hi Hs. rewrite list_fmap_insert, Hs.
  apply list_insert_id. by rewrite list_lookup_fmap, Hi.
Qed.

Lemma flat_map_insert (d : doc) i n n' : d !! i = Some n ->
  exists l1 l2, flat_map children d = l1 ++ children n ++ l2 /\ flat_map children (<[i:=n']> d) = l1 ++ children n' ++ l2.
Proof.
  intros Hi. assert (Hlt : (i < length d)%nat) by (by eapply lookup_lt_Some).
  exists (flat_map children (take i d)), (flat_map children (drop (S i) d)). split.
  - rewrite <- (take_drop_middle d i n Hi) at 1. by rewrite flat_map_app.
  - rewrite insert_take_drop by done. by rewrite flat_map_app.
Qed.

(** A node changed in place: same key, same pointers. *)
Lemma doc_update (d : doc) i n n' : doc_ok d -> d !! i = Some n -> shape n' = shape n -> children n' = children n ->
  node_ok (shape <$> d) i n' -> doc_ok (<[i:=n']> d) /\ grows d (<[i:=n']> d).
Proof.
  intros [H1 H2 (t & H3)] Hi Hs Hc Hn. unfold grows. rewrite (shape_insert d i n n') by done. split; [|done].
  split; rewrite ?(shape_insert d i n n') by done.
  - intros j m. rewrite list_lookup_insert_Some. intros [(<- & <- & _)|[_ Hj]]; [done|by apply H1].
  - destruct (flat_map_insert d i n n' Hi) as (l1 & l2 & E1 & ->). rewrite length_insert, Hc, <- E1. done.
  - destruct (decide (i = 0%nat)) as [->|]; [|exists t; by rewrite list_lookup_insert_ne].
    rewrite list_lookup_insert_eq by (by eapply lookup_lt_Some). rewrite H3 in Hi. simplify_eq. destruct n'; [eauto|done].
Qed.

(** A new node, and its parent pointing to it. *)
Lemma doc_extend (d : doc) i n n' m : doc_ok d -> d !! i = Some n -> shape n' = shape n ->
  children n' ≡ₚ children n ++ [length d] -> children m = [] ->
  node_ok ((shape <$> d) ++ [shape m]) i n' -> node_ok ((shape <$> d) ++ [shape m]) (length d) m ->
  doc_ok (<[i:=n']> d ++ [m]) /\ grows d (<[i:=n']> d ++ [m]).
Proof.
  intros [H1 H2 (t & H3)] Hi Hs Hc Hm Hn Hm'. assert (Hlt : (i < length d)%nat) by (by eapply lookup_lt_Some).
  assert (Hsh : shape <$> (<[i:=n']> d ++ [m]) = (shape <$> d) ++ [shape m])
    by (by rewrite fmap_app, (shape_insert d i n n')).
  unfold grows. rewrite Hsh. split; [|by apply prefix_app_r].
  split; rewrite ?Hsh.
  - intros j x Hx. destruct (decide (j = length d)) as [->|].
    + rewrite lookup_app_r, length_insert, Nat.sub_diag in Hx by (rewrite length_insert; lia). by simplify_eq/=.
    + rewrite lookup_app_l in Hx by (apply lookup_lt_Some in Hx; rewrite length_app, length_insert in *; simpl in *; lia).
      rewrite list_lookup_insert_Some in Hx. destruct Hx as [(<- & <- & _)|[_ Hx]]; [done|].
      eapply node_ok_prefix; [|by apply H1]. by apply prefix_app_r.
  - rewrite flat_map_app. cbn [flat_map]. rewrite Hm, !app_nil_r.
    destruct (flat_map_insert d i n n' Hi) as (l1 & l2 & E1 & ->). rewrite E1 in H2.
    rewrite Hc, length_app, length_insert. cbn [length]. replace (length d + 1 - 1)%nat with (length d - 1 + 1)%nat by lia.
    rewrite seq_app, <- H2. replace (1 + (length d - 1))%nat with (length d) by lia. cbn [seq].
    rewrite <- !(assoc_L (++)). do 2 f_equiv. apply Permutation_app_comm.
  - destruct (decide (i = 0%nat)) as [->|].
    + rewrite H3 in Hi. simplify_eq. destruct n' as [t'|]; [|done]. exists t'.
      rewrite lookup_app_l, list_lookup_insert_eq by (rewrite ?length_insert; done). done.
    + exists t. rewrite lookup_app_l, list_lookup_insert_ne by (rewrite ?length_insert; (done || lia)). done.
Qed.

(** ** Reasoning about results *)

(** [m] is defined, and [P] holds of what it returns unless it fails. *)
Definition wp {A} (m : res A) (P : A -> Prop) : Prop :=
  match m with None => False | Some None => True | Some (Some a) => P a end.

Lemma wp_bind {A B} (m : res A) (f : A -> res B) P Q : wp m P -> (forall a, P a -> wp (f a) Q) -> wp (rbind m f) Q.
Proof. destruct m as [[a|]|]; cbn; auto. Qed.

Lemma wp_mono {A} (m : res A) (P Q : A -> Prop) : wp m P -> (forall a, P a -> Q a) -> wp m Q.
Proof. destruct m as [[a|]|]; cbn; auto. Qed.

Lemma wp_deref {A B} (o : option A) a (f : A -> res B) Q : o = Some a -> wp (f a) Q -> wp (rbind (deref o) f) Q.
Proof. by intros ->. Qed.

Lemma wp_check {A B} (o : option A) (f : A -> res B) Q : (forall a, o = Some a -> wp (f a) Q) -> wp (rbind (check o) f) Q.
Proof. destruct o; cbn; auto. Qed.

Lemma find_child_spec (d : doc) b i ids key : Forall (keyed (shape <$> d) b i) ids ->
  exists r, find_child d ids key = Some r /\
    match r with
    | Some j => j ∈ ids /\ child_key (shape <$> d) j = Some key
    | None => Some key ∉ map (child_key (shape <$> d)) ids
    end.
Proof.
  induction 1 as [|j ids (Hij & k & Hk) _ (r & Hr & IH)]; [exists None; split; [done|apply not_elem_of_nil]|].
  assert (Hck : child_key (shape <$> d) j = Some k) by (unfold child_key; by rewrite Hk).
  rewrite list_lookup_fmap in Hk. destruct (d !! j) as [n|] eqn:Hj; [|done]. cbn [find_child map]. rewrite Hj, Hr, Hck.
  assert (Hnk : node_key n = Some k) by (by destruct n; simpl in *; simplify_eq).
  cbn [mbind option_bind]. rewrite Hnk. cbn [mbind option_bind]. unfold text_eqb. case_bool_decide as Heq; [subst k|].
  - exists (Some j). split; [done|]. split; [rewrite elem_of_cons; by left|done].
  - exists r. split; [done|]. destruct r as [j'|]; [destruct IH; split; [rewrite elem_of_cons; by right|done]|].
    rewrite elem_of_cons. intros [?|?]; [simplify_eq|done].
Qed.

Lemma check_key_spec (d : doc) i t key : node_ok (shape <$> d) i (NTab t) ->
  exists f, check_key d t key = Some f /\
    match f with
    | FVal _ => True
    | FArr j => keyed (shape <$> d) false i j
    | FTab j => keyed (shape <$> d) true i j
    | FNone => Some key ∉ table_keys (shape <$> d) t
    end.
Proof.
  intros (Ha & Ht & _). unfold check_key, find_kval.
  destruct (list_find _ (t_kval t)) as [[? kv]|] eqn:Ev; [by eexists|].
  destruct (find_child_spec d false i (t_arr t) key Ha) as (r & -> & Hr). cbn [mbind option_bind].
  destruct r as [j|]; [eexists; split; [done|]; rewrite Forall_forall in Ha; apply Ha, Hr|].
  destruct (find_child_spec d true i (t_tab t) key Ht) as (r & -> & Hr'). cbn [mbind option_bind].
  eexists. split; [done|]. destruct r as [j|]; [rewrite Forall_forall in Ht; apply Ht, Hr'|].
  unfold table_keys. rewrite !elem_of_app. intros [Hv|[?|?]]; [|done|done].
  apply list_elem_of_fmap in Hv as (kv & [= ->] & Hkv). apply list_find_None in Ev.
  rewrite Forall_forall in Ev. by apply (Ev kv Hkv).
Qed.

Lemma get_tab_node d i t : get_tab d i = Some t <-> d !! i = Some (NTab t).
Proof. unfold get_tab. destruct (d !! i) as [[?|?]|]; naive_solver. Qed.
Lemma get_arr_node d i a : get_arr d i = Some a <-> d !! i = Some (NArr a).
Proof. unfold get_arr. destruct (d !! i) as [[?|?]|]; naive_solver. Qed.

Definition is_tab (d : doc) (i : nat) : Prop := exists t, get_tab d i = Some t.
Definition is_arr (d : doc) (i : nat) : Prop := exists a, get_arr d i = Some a.

Lemma is_tab_grows d d' i : grows d d' -> is_tab d i -> is_tab d' i.
Proof. intros Hg (t & Ht). destruct (grows_tab _ _ _ _ Hg Ht) as (t' & ? & _). by exists t'. Qed.
Lemma is_arr_grows d d' i : grows d d' -> is_arr d i -> is_arr d' i.
Proof. intros Hg (t & Ht). destruct (grows_arr _ _ _ _ Hg Ht) as (t' & ? & _). by exists t'. Qed.

Lemma shape_tab (d : doc) j k : (shape <$> d) !! j = Some (true, k) -> is_tab d j.
Proof. rewrite list_lookup_fmap. destruct (d !! j) as [[t|]|] eqn:E; [|done..]. intros _. exists t. by apply get_tab_node. Qed.
Lemma shape_arr (d : doc) j k : (shape <$> d) !! j = Some (false, k) -> is_arr d j.
Proof. rewrite list_lookup_fmap. destruct (d !! j) as [[|a]|] eqn:E; [done| |done]. intros _. exists a. by apply get_arr_node. Qed.

Lemma tab_node_ok d i t : doc_ok d -> get_tab d i = Some t -> node_ok (shape <$> d) i (NTab t).
Proof. intros Hd Ht%get_tab_node. by apply Hd. Qed.
Lemma arr_node_ok d i a : doc_ok d -> get_arr d i = Some a -> node_ok (shape <$> d) i (NArr a).
Proof. intros Hd Ht%get_arr_node. by apply Hd. Qed.

(** A new child with a key the table does not have. *)
Lemma child_key_new (d : doc) b k : child_key ((shape <$> d) ++ [(b, k)]) (length d) = k.
Proof. unfold child_key. by rewrite lookup_app_r, length_fmap, Nat.sub_diag by (by rewrite length_fmap). Qed.

Lemma keyed_new (d : doc) b i k : (i < length d)%nat -> keyed ((shape <$> d) ++ [(b, Some k)]) b i (length d).
Proof.
  intros Hi. split; [done|]. exists k. by rewrite lookup_app_r, length_fmap, Nat.sub_diag by (by rewrite length_fmap).
Qed.

Lemma keyed_extend S x b i l : Forall (keyed S b i) l -> Forall (keyed (S ++ [x]) b i) l.
Proof. intros H. eapply Forall_impl; [done|]. intros j. apply keyed_prefix. by apply prefix_app_r. Qed.

Lemma item_ok_extend S x i l : Forall (item_ok S i) l -> Forall (item_ok (S ++ [x]) i) l.
Proof. intros H. eapply Forall_impl; [done|]. intros j. apply item_ok_prefix. by apply prefix_app_r. Qed.

Lemma add_tab_ok (d : doc) i t k : (i < length d)%nat -> node_ok (shape <$> d) i (NTab t) ->
  Some k ∉ table_keys (shape <$> d) t ->
  node_ok ((shape <$> d) ++ [(true, Some k)]) i (NTab (with_tabs t (t_tab t ++ [length d]))).
Proof.
  intros Hi (H1 & H2 & H3) Hk. split; [by apply keyed_extend|]. split.
  - cbn [t_tab with_tabs]. apply Forall_app. split; [by apply keyed_extend|]. apply Forall_singleton. by apply keyed_new.
  - unfold table_keys in *. cbn [t_kval t_arr t_tab with_tabs]. rewrite map_app. cbn [map]. rewrite child_key_new.
    rewrite (child_keys_prefix _ _ false i _ (prefix_app_r _ _ _ (reflexivity _)) H1).
    rewrite (child_keys_prefix _ _ true i _ (prefix_app_r _ _ _ (reflexivity _)) H2).
    rewrite !(assoc_L (++)). rewrite !(assoc_L (++)) in H3, Hk. apply NoDup_app. split; [done|].
    split; [|apply NoDup_singleton]. intros x Hx ->%list_elem_of_singleton. done.
Qed.

Lemma add_arr_ok (d : doc) i t k : (i < length d)%nat -> node_ok (shape <$> d) i (NTab t) ->
  Some k ∉ table_keys (shape <$> d) t ->
  node_ok ((shape <$> d) ++ [(false, Some k)]) i (NTab (with_arrs t (t_arr t ++ [length d]))).
Proof.
  intros Hi (H1 & H2 & H3) Hk. split; [|split].
  - cbn [t_arr with_arrs]. apply Forall_app. split; [by apply keyed_extend|]. apply Forall_singleton. by apply keyed_new.
  - by apply keyed_extend.
  - unfold table_keys in *. cbn [t_kval t_arr t_tab with_arrs]. rewrite map_app. cbn [map]. rewrite child_key_new.
    rewrite (child_keys_prefix _ _ false i _ (prefix_app_r _ _ _ (reflexivity _)) H1).
    rewrite (child_keys_prefix _ _ true i _ (prefix_app_r _ _ _ (reflexivity _)) H2).
    rewrite <- (assoc_L (++) _ [_]). cbn [app].
    rewrite <- !Permutation_middle. by apply NoDup_cons.
Qed.

Lemma create_keyval_ok d tab keytok val : doc_ok d -> is_tab d tab ->
  wp (create_keyval_in_table d tab keytok val) (fun d' => doc_ok d' /\ grows d d').
Proof.
  intros Hd (t & Ht). unfold create_keyval_in_table. apply wp_check. intros key Hkey.
  apply (wp_deref _ t); [done|]. pose proof (tab_node_ok _ _ _ Hd Ht) as Hok.
  destruct (check_key_spec d tab t key Hok) as (f & Hf & Hspec). apply (wp_deref _ f); [done|].
  destruct f; try done. apply get_tab_node in Ht. cbn [wp ok]. eapply doc_update; try done.
  destruct Hok as (H1 & H2 & H3). split; [done|split; [done|]]. unfold table_keys in *. cbn [t_kval t_arr t_tab with_kvals] in *.
  rewrite map_app. cbn [map kv_key]. rewrite <- (assoc_L (++) _ [_]). cbn [app].
  rewrite <- Permutation_middle. by apply NoDup_cons.
Qed.

(** A new table in a table. *)
Lemma add_table_ok (d : doc) tab t key implicit : doc_ok d -> get_tab d tab = Some t ->
  Some key ∉ table_keys (shape <$> d) t ->
  let d' := <[tab := NTab (with_tabs t (t_tab t ++ [length d]))]> d ++ [new_tab (Some key) implicit] in
  doc_ok d' /\ grows d d' /\ is_tab d' (length d).
Proof.
  intros Hd Ht Hk d'. pose proof (tab_node_ok _ _ _ Hd Ht) as Hok. apply get_tab_node in Ht.
  assert (Hlt : (tab < length d)%nat) by (by eapply lookup_lt_Some).
  destruct (doc_extend d tab (NTab t) (NTab (with_tabs t (t_tab t ++ [length d]))) (new_tab (Some key) implicit)) as [? Hg];
    try done.
  - cbn [children with_tabs t_arr t_tab]. by rewrite (assoc_L (++)).
  - by apply add_tab_ok.
  - split; [constructor|split; [constructor|apply NoDup_nil_2]].
  - split; [done|]. split; [done|]. eexists. apply get_tab_node. unfold d'.
    rewrite lookup_app_r, length_insert, Nat.sub_diag by (by rewrite length_insert). done.
Qed.

Lemma create_keytable_ok d tab keytok : doc_ok d -> is_tab d tab ->
  wp (create_keytable_in_table d tab keytok) (fun r => doc_ok r.2 /\ grows d r.2 /\ is_tab r.2 r.1).
Proof.
  intros Hd (t & Ht). unfold create_keytable_in_table. apply wp_check. intros key Hkey.
  apply (wp_deref _ t); [done|]. pose proof (tab_node_ok _ _ _ Hd Ht) as Hok.
  destruct (check_key_spec d tab t key Hok) as (f & Hf & Hspec). apply (wp_deref _ f); [done|].
  destruct f as [| |i|]; try done.
  - destruct Hspec as (_ & k & Hk%shape_tab). destruct Hk as (dest & Hdest). apply (wp_deref _ dest); [done|].
    destruct (t_implicit dest); [|done]. cbn [wp ok fst snd]. pose proof (tab_node_ok _ _ _ Hd Hdest) as Hdok.
    apply get_tab_node in Hdest.
    destruct (doc_update d i (NTab dest) (NTab (with_flags dest false (t_readonly dest)))) as [? Hg]; try done.
    split; [done|]. split; [done|]. apply (is_tab_grows d); [done|]. exists dest. by apply get_tab_node.
  - by apply add_table_ok.
Qed.

Lemma create_keyarray_ok d tab keytok kind : doc_ok d -> is_tab d tab ->
  wp (create_keyarray_in_table d tab keytok kind) (fun r => doc_ok r.2 /\ grows d r.2 /\ is_arr r.2 r.1).
Proof.
  intros Hd (t & Ht). unfold create_keyarray_in_table. apply wp_check. intros key Hkey.
  apply (wp_deref _ t); [done|]. pose proof (tab_node_ok _ _ _ Hd Ht) as Hok.
  destruct (check_key_spec d tab t key Hok) as (f & Hf & Hspec). apply (wp_deref _ f); [done|].
  destruct f; try done. apply get_tab_node in Ht.
  assert (Hlt : (tab < length d)%nat) by (by eapply lookup_lt_Some). cbn [wp ok fst snd].
  destruct (doc_extend d tab (NTab t) (NTab (with_arrs t (t_arr t ++ [length d]))) (new_arr (Some key) kind)) as [? Hg];
    try done.
  - cbn [children with_arrs t_arr t_tab]. rewrite <- !(assoc_L (++)). f_equiv. apply Permutation_app_comm.
  - by apply add_arr_ok.
  - split; [done|]. split; [done|]. eexists. apply get_arr_node.
    rewrite lookup_app_r, length_insert, Nat.sub_diag by (by rewrite length_insert). done.
Qed.

(** What [node_ok] says of an array with one element more. *)
Lemma add_item_ok S i a it type k :
  node_ok S i (NArr a) -> item_ok S i it -> k <> NUL -> (k = "t"%char -> is_ITab it = true) ->
  node_ok S i (NArr (mkArr (a_key a) (next_kind (a_kind a) k) type (a_item a ++ [it]))).
Proof.
  intros (H1 & H2 & H3) Hit Hk Ht. unfold next_kind. cbn [node_ok a_item a_kind].
  split; [apply Forall_app; split; [done|by apply Forall_singleton]|].
  destruct (Ascii.eqb_spec (a_kind a) NUL) as [Hn|Hn]; [|destruct (Ascii.eqb_spec (a_kind a) k) as [<-|]].
  - rewrite (H3 Hn). split; [|done]. intros ->. by apply Forall_singleton, Ht.
  - split; [|done]. intros Hkt. apply Forall_app. split; [by apply H2|]. by apply Forall_singleton, Ht.
  - by split.
Qed.

Lemma children_add_item a kind type it :
  children (NArr (mkArr (a_key a) kind type (a_item a ++ [it]))) = children (NArr a) ++ item_ids it.
Proof. cbn [children a_item]. rewrite flat_map_app. cbn. by rewrite app_nil_r. Qed.

Lemma create_value_ok d arr vt v : doc_ok d -> is_arr d arr ->
  wp (create_value_in_array d arr vt v) (fun d' => doc_ok d' /\ grows d d').
Proof.
  intros Hd (a & Ha). unfold create_value_in_array. apply (wp_deref _ a); [done|]. cbn [wp ok].
  pose proof (arr_node_ok _ _ _ Hd Ha) as Hok. apply get_arr_node in Ha. eapply doc_update; try done.
  - rewrite children_add_item. by rewrite app_nil_r.
  - by apply add_item_ok.
Qed.

(** A new node as the last element of an array. *)
Lemma extend_array d arr a k it m :
  doc_ok d -> get_arr d arr = Some a -> k <> NUL -> (k = "t"%char -> is_ITab it = true) -> item_ids it = [length d] ->
  item_ok ((shape <$> d) ++ [shape m]) arr it -> children m = [] -> node_ok ((shape <$> d) ++ [shape m]) (length d) m ->
  let d' := <[arr := NArr (mkArr (a_key a) (next_kind (a_kind a) k) (a_type a) (a_item a ++ [it]))]> d ++ [m] in
  doc_ok d' /\ grows d d' /\ d' !! length d = Some m.
Proof.
  intros Hd Ha Hk Ht Hids Hit Hm Hmok d'. pose proof (arr_node_ok _ _ _ Hd Ha) as Hok. apply get_arr_node in Ha.
  assert (Hl : d' !! length d = Some m)
    by (unfold d'; by rewrite lookup_app_r, length_insert, Nat.sub_diag by (by rewrite length_insert)).
  destruct (doc_extend d arr (NArr a)
    (NArr (mkArr (a_key a) (next_kind (a_kind a) k) (a_type a) (a_item a ++ [it]))) m) as [? Hg]; try done.
  - by rewrite children_add_item, Hids.
  - apply add_item_ok; try done. eapply node_ok_prefix; [|done]. by apply prefix_app_r.
Qed.

Lemma create_array_ok d arr : doc_ok d -> is_arr d arr ->
  wp (create_array_in_array d arr) (fun r => doc_ok r.2 /\ grows d r.2 /\ is_arr r.2 r.1).
Proof.
  intros Hd (a & Ha). unfold create_array_in_array. apply (wp_deref _ a); [done|]. cbn [wp ok fst snd].
  pose proof Ha as Hlt%get_arr_node%lookup_lt_Some.
  destruct (extend_array d arr a "a" (IArr (length d)) (new_arr None NUL)) as (? & ? & Hl); try done.
  - split; [done|]. exists None. by rewrite lookup_app_r, length_fmap, Nat.sub_diag by (by rewrite length_fmap).
  - split; [done|split; [done|]]. eexists. by apply get_arr_node.
Qed.

Lemma create_table_ok d arr key : doc_ok d -> is_arr d arr ->
  wp (create_table_in_array d arr key) (fun r => doc_ok r.2 /\ grows d r.2 /\ is_tab r.2 r.1).
Proof.
  intros Hd (a & Ha). unfold create_table_in_array. apply (wp_deref _ a); [done|]. cbn [wp ok fst snd].
  pose proof Ha as Hlt%get_arr_node%lookup_lt_Some.
  destruct (extend_array d arr a "t" (ITab (length d)) (new_tab key false)) as (? & ? & Hl); try done.
  - split; [done|]. exists key. by rewrite lookup_app_r, length_fmap, Nat.sub_diag by (by rewrite length_fmap).
  - split; [constructor|split; [constructor|apply NoDup_nil_2]].
  - split; [done|split; [done|]]. eexists. by apply get_tab_node.
Qed.

(** ** Releasing a document *)

(** [xfree_tab], [xfree_arr]: the nodes in the order they are freed. *)
Fixpoint xfree (fuel : nat) (d : doc) (i : nat) : option (list nat) :=
  match fuel with
  | O => None
  | S fuel => n ← d !! i; ls ← mapM (xfree fuel d) (children n); Some (concat ls ++ [i])
  end.

Definition toml_free (d : doc) (tab : nat) : option (list nat) := xfree (length d) d tab.

Lemma children_later (d : doc) i n : doc_ok d -> d !! i = Some n -> Forall (fun j => (i < j < length d)%nat) (children n).
Proof.
  intros Hd Hn. pose proof (ok_nodes _ Hd _ _ Hn) as Hok.
  assert (Hlt : forall j x, (shape <$> d) !! j = Some x -> (j < length d)%nat).
  { intros j x Hx%lookup_lt_Some. by rewrite length_fmap in Hx. }
  destruct n as [t|a]; cbn [children node_ok] in *.
  - destruct Hok as (H1 & H2 & _). apply Forall_app.
    split; (eapply Forall_impl; [done|]; intros j (Hj & k & Hk); split; [done|by eapply Hlt]).
  - destruct Hok as (H1 & _). induction H1 as [|it its Hit _ IH]; cbn [flat_map]; [constructor|].
    apply Forall_app. split; [|done]. destruct it; cbn [item_ids]; [constructor|..];
      (destruct Hit as (Hj & k & Hk); apply Forall_singleton; split; [done|by eapply Hlt]).
Qed.

Lemma xfree_mono f : forall f' d i l, xfree f d i = Some l -> (f <= f')%nat -> xfree f' d i = Some l.
Proof.
  induction f as [|f IH]; intros [|f'] d i l H Hf; try done; [lia|]. cbn [xfree] in *.
  destruct (d !! i) as [n|]; [|done]. cbn [mbind option_bind] in *.
  destruct (mapM (xfree f d) (children n)) as [ls|] eqn:Em; [|done]. apply mapM_Some in Em.
  assert (Em' : mapM (xfree f' d) (children n) = Some ls); [|by rewrite Em'].
  apply mapM_Some. eapply Forall2_impl; [exact Em|]. intros j l' Hj. cbn in *. apply IH; [done|lia].
Qed.

Lemma xfree_defined (d : doc) : doc_ok d -> forall m i, (i < length d)%nat -> (length d - i <= m)%nat ->
  exists l, xfree m d i = Some l.
Proof.
  intros Hd. induction m as [|m IH]; intros i Hi Hm; [lia|]. cbn [xfree].
  destruct (lookup_lt_is_Some_2 d i Hi) as [n Hn]. rewrite Hn. cbn [mbind option_bind].
  rewrite (mapM_total _ (fun j => default [] (xfree m d j))); [by eexists|].
  eapply Forall_impl; [by eapply children_later|]. intros j Hj. cbn in Hj.
  destruct (IH j) as [l Hl]; [lia|lia|]. cbn. by rewrite Hl.
Qed.

(** What is freed with a node: what is freed with its children, and it. *)
Lemma xfree_node (d : doc) i n : doc_ok d -> d !! i = Some n ->
  let F := fun j => default [] (toml_free d j) in
  toml_free d i = Some (concat (map F (children n)) ++ [i]).
Proof.
  intros Hd Hn F. pose proof (lookup_lt_Some _ _ _ Hn) as Hi. unfold toml_free in *.
  destruct (length d) as [|m] eqn:El; [lia|]. cbn [xfree]. rewrite Hn. cbn [mbind option_bind].
  rewrite (mapM_total _ F); [done|]. eapply Forall_impl; [by eapply children_later|]. intros j Hj. cbn in Hj.
  destruct (xfree_defined d Hd m j) as [l Hl]; [lia|lia|]. unfold F. rewrite Hl. by rewrite (xfree_mono m (S m) d j l Hl) by lia.
Qed.

(** What is freed with the nodes [fr], when these and the children of the
    nodes from [k] on are the nodes from [k] on. *)
Lemma xfree_frontier (d : doc) : doc_ok d -> forall m k fr, (k + m = length d)%nat ->
  fr ++ flat_map children (drop k d) ≡ₚ seq k m ->
  concat (map (fun j => default [] (toml_free d j)) fr) ≡ₚ seq k m.
Proof.
  intros Hd. induction m as [|m IH]; intros k fr Hk Hp.
  - rewrite drop_ge in Hp by lia. cbn in Hp. rewrite app_nil_r in Hp. apply Permutation_sym, Permutation_nil_l in Hp. by subst.
  - assert (Hlt : (k < length d)%nat) by lia. destruct (lookup_lt_is_Some_2 d k Hlt) as [n Hn].
    rewrite (drop_S d n k Hn) in Hp. cbn [flat_map] in Hp.
    assert (Hin : k ∈ fr).
    { assert (Hk' : k ∈ fr ++ children n ++ flat_map children (drop (S k) d)) by (rewrite Hp; apply elem_of_seq; lia).
      rewrite elem_of_app in Hk'. destruct Hk' as [|Hc]; [done|exfalso].
      assert (Hl : Forall (fun j => (k < j)%nat) (children n ++ flat_map children (drop (S k) d))).
      { change (children n ++ flat_map children (drop (S k) d)) with (flat_map children (n :: drop (S k) d)).
        rewrite <- (drop_S d n k Hn). apply Forall_forall. intros j Hj. apply list_elem_of_In, in_flat_map in Hj as (x & Hx & Hj).
        apply list_elem_of_In, list_elem_of_lookup in Hx as [p Hx]. rewrite lookup_drop in Hx.
        pose proof (children_later d _ _ Hd Hx) as Hc'. rewrite Forall_forall in Hc'.
        apply list_elem_of_In in Hj. specialize (Hc' j Hj). cbn in Hc'. lia. }
      rewrite Forall_forall in Hl. specialize (Hl k Hc). cbn in Hl. lia. }
    apply elem_of_Permutation in Hin as (fr' & Hfr). rewrite Hfr in Hp |- *. cbn [seq map concat app] in *.
    apply Permutation_cons_inv in Hp. rewrite (xfree_node d k n Hd Hn). cbn [from_option id].
    rewrite <- (IH (S k) (fr' ++ children n)); [|lia|by rewrite <- (assoc_L (++))].
    rewrite map_app, concat_app. rewrite <- (assoc_L (++)). cbn [app]. rewrite <- Permutation_middle. f_equiv.
    apply Permutation_app_comm.
Qed.

Lemma free_all (d : doc) : doc_ok d -> exists l, toml_free d 0 = Some l /\ l ≡ₚ seq 0 (length d).
Proof.
  intros Hd. destruct (ok_root d Hd) as (t & Hr). pose proof (lookup_lt_Some _ _ _ Hr) as Hl.
  eexists. split; [by eapply xfree_node|].
  rewrite (xfree_frontier d Hd (length d - 1) 1); [|lia|].
  - rewrite Permutation_app_comm. cbn [app]. destruct (length d); [lia|]. cbn [seq Nat.sub]. by rewrite Nat.sub_0_r.
  - destruct d as [|x d]; [done|]. cbn in Hr. simplify_eq. pose proof (ok_tree _ Hd) as Ht.
    cbn [flat_map drop] in *. exact Ht.
Qed.
