(* ===== verification/TomlParse.v ===== *)
(** * TomlParse: the parser of TOML documents

    [toml_parse] of [src/src/toml.c] with the functions it is made of, and
    the release of a document.  The functions that call each other take a
    fuel; [toml_parse] gives twice the length of the text and a little more,
    which is proved to be enough for every text. *)

From Stdlib Require Import Ascii.
From S2P Require Import Prelude BBox ObjDesc Linear Sspace DhtEntry StrHash LocalStorage Matrix Codec Modules Server Conf Toml TomlLex TomlDoc.

Section Parser.
Context `{D : Strtod}.

(** [context_t]: the token, the document (its root is node 0), the current
    table.  [tpath] is the result of [fill_tabpath]. *)
Record context := mkCtx { ctx_tok : token; ctx_doc : doc; ctx_curtab : nat }.

Definition kind (c : context) : tokentype := tok_kind (ctx_tok c).
Definition with_tok (c : context) (t : token) : context := mkCtx t (ctx_doc c) (ctx_curtab c).
Definition with_doc (c : context) (d : doc) : context := mkCtx (ctx_tok c) d (ctx_curtab c).
Definition with_curtab (c : context) (i : nat) : context := mkCtx (ctx_tok c) (ctx_doc c) i.

(** [next_token], from a context. *)
Definition advance (c : context) (dot : bool) : res context :=
  t <~ check (next_token (ctx_tok c) dot); ok (with_tok c t).

Definition eat_token (c : context) (typ : tokentype) (dot : bool) : res context :=
  if decide (kind c = typ) then advance c dot else fail.

(** The loop of [skip_newlines]; a newline that is not the end of the text
    has a character. *)
Fixpoint skip_loop (fuel : nat) (c : context) (dot : bool) : res context :=
  match fuel with
  | O => None
  | S fuel =>
      if decide (kind c = NEWLINE_TOK) then
        c <~ advance c dot;
        if tok_eof (ctx_tok c) then ok c else skip_loop fuel c dot
      else ok c
  end.

Definition skip_newlines (c : context) (dot : bool) : res context :=
  skip_loop (S (text_left (ctx_tok c))) c dot.

Definition valtype (val : text) : ascii :=
  if is_quote (at_ptr val 0) then "s"%char
  else
    match toml_rtob (Some val) with
    | Some _ => "b"%char
    | None =>
        if fst (toml_rtoi (Some val)) then "i"%char
        else if fst (toml_rtod (Some val)) then "d"%char
        else
          match toml_rtots (Some val) with
          | Some ts =>
              match ts_date ts, ts_time ts with
              | Some _, Some _ => "T"%char
              | Some _, None => "D"%char
              | None, _ => "t"%char
              end
          | None => "u"%char
          end
    end.

(** The text of a token. *)
Definition tok_text (t : token) : text := take (tok_len t) (tok_ptr t).

Fixpoint parse_keyval (fuel : nat) (c : context) (tab : nat) {struct fuel} : res context :=
  match fuel with
  | O => None
  | S fuel =>
      t <~ deref (get_tab (ctx_doc c) tab);
      if t_readonly t then fail else
      let key := ctx_tok c in
      c <~ eat_token c STRING true;
      match kind c with
      | DOT =>
          subtabstr <~ check (normalize_key key);
          t <~ deref (get_tab (ctx_doc c) tab);
          sub <~ deref (toml_table_in (ctx_doc c) t subtabstr);
          '(subtab, d) <~ (match sub with
                           | Some i => ok (i, ctx_doc c)
                           | None => create_keytable_in_table (ctx_doc c) tab key
                           end);
          c <~ advance (with_doc c d) true;
          parse_keyval fuel c subtab
      | EQUAL =>
          c <~ advance c false;
          match kind c with
          | STRING =>
              d <~ create_keyval_in_table (ctx_doc c) tab key (tok_text (ctx_tok c));
              advance (with_doc c d) true
          | LBRACKET =>
              '(arr, d) <~ create_keyarray_in_table (ctx_doc c) tab key NUL;
              parse_array fuel (with_doc c d) arr
          | LBRACE =>
              '(nxttab, d) <~ create_keytable_in_table (ctx_doc c) tab key;
              parse_inline_table fuel (with_doc c d) nxttab
          | _ => fail
          end
      | _ => fail
      end
  end
with parse_array (fuel : nat) (c : context) (arr : nat) {struct fuel} : res context :=
  match fuel with
  | O => None
  | S fuel => c <~ eat_token c LBRACKET false; parse_array_loop fuel c arr
  end
with parse_array_loop (fuel : nat) (c : context) (arr : nat) {struct fuel} : res context :=
  match fuel with
  | O => None
  | S fuel =>
      c <~ skip_newlines c false;
      if decide (kind c = RBRACKET) then eat_token c RBRACKET true else
      c <~ (match kind c with
            | STRING =>
                d <~ create_value_in_array (ctx_doc c) arr (valtype (tok_text (ctx_tok c))) (tok_text (ctx_tok c));
                eat_token (with_doc c d) STRING false
            | LBRACKET =>
                '(subarr, d) <~ create_array_in_array (ctx_doc c) arr;
                parse_array fuel (with_doc c d) subarr
            | LBRACE =>
                '(subtab, d) <~ create_table_in_array (ctx_doc c) arr None;
                parse_inline_table fuel (with_doc c d) subtab
            | _ => fail
            end);
      c <~ skip_newlines c false;
      if decide (kind c = COMMA) then c <~ eat_token c COMMA false; parse_array_loop fuel c arr
      else eat_token c RBRACKET true
  end
with parse_inline_table (fuel : nat) (c : context) (tab : nat) {struct fuel} : res context :=
  match fuel with
  | O => None
  | S fuel =>
      c <~ eat_token c LBRACE true;
      c <~ parse_inline_loop fuel c tab;
      t <~ deref (get_tab (ctx_doc c) tab);
      ok (with_doc c (<[tab := NTab (with_flags t (t_implicit t) true)]> (ctx_doc c)))
  end
with parse_inline_loop (fuel : nat) (c : context) (tab : nat) {struct fuel} : res context :=
  match fuel with
  | O => None
  | S fuel =>
      if decide (kind c = RBRACE) then eat_token c RBRACE true else
      if decide (kind c <> STRING) then fail else
      c <~ parse_keyval fuel c tab;
      if decide (kind c = NEWLINE_TOK) then fail else
      if decide (kind c = COMMA) then c <~ eat_token c COMMA true; parse_inline_loop fuel c tab
      else eat_token c RBRACE true
  end.

(** [tpath]: the keys, with their tokens. *)
Fixpoint fill_loop (room : nat) (c : context) (tpath : list (text * token)) : res (list (text * token) * context) :=
  match room with
  | O => fail
  | S room =>
      if decide (kind c <> STRING) then fail else
      key <~ check (normalize_key (ctx_tok c));
      let tpath := tpath ++ [(key, ctx_tok c)] in
      c <~ advance c true;
      match kind c with
      | RBRACKET => ok (tpath, c)
      | DOT => c <~ advance c true; fill_loop room c tpath
      | _ => fail
      end
  end.

Definition fill_tabpath (c : context) : res (list (text * token) * context) := fill_loop 10 c [].

Fixpoint walk_tabpath (d : doc) (curtab : nat) (keys : list text) : res (nat * doc) :=
  match keys with
  | [] => ok (curtab, d)
  | key :: keys =>
      t <~ deref (get_tab d curtab);
      f <~ deref (check_key d t key);
      match f with
      | FTab i => walk_tabpath d i keys
      | FArr i =>
          a <~ deref (get_arr d i);
          if negb (Ascii.eqb (a_kind a) "t") then fail else
          match last (a_item a) with
          | None => fail
          | Some (ITab j) => walk_tabpath d j keys
          | Some _ => None
          end
      | FVal _ => fail
      | FNone =>
          walk_tabpath (<[curtab := NTab (with_tabs t (t_tab t ++ [length d]))]> d ++ [new_tab (Some key) true])
            (length d) keys
      end
  end.

(** [p + 1 < stop && p[1] == ch] for the pointer of the token. *)
Definition next_is (t : token) (ch : ascii) : bool :=
  match tok_ptr t with _ :: c :: _ => Ascii.eqb c ch | _ => false end.

(** The table [[x.y.z]] or [[[x.y.z]]] selects. *)
Definition select_table (d : doc) (curtab : nat) (llb : bool) (z : token) : res (nat * doc) :=
  if negb llb then create_keytable_in_table d curtab z
  else
    zstr <~ check (normalize_key z);
    t <~ deref (get_tab d curtab);
    r <~ deref (toml_array_in d t zstr);
    '(arr, d) <~ (match r with
                  | Some i => ok (i, d)
                  | None => create_keyarray_in_table d curtab z "t"
                  end);
    a <~ deref (get_arr d arr);
    if negb (Ascii.eqb (a_kind a) "t") then fail
    else create_table_in_array d arr (Some (txt "__anon__")).

Definition parse_select (c : context) : res context :=
  let llb := next_is (ctx_tok c) "[" in
  c <~ eat_token c LBRACKET true;
  c <~ (if llb then eat_token c LBRACKET true else ok c);
  '(tpath, c) <~ fill_tabpath c;
  match last tpath with
  | None => fail
  | Some (_, z) =>
      '(curtab, d) <~ walk_tabpath (ctx_doc c) 0 (map fst (removelast tpath));
      '(curtab, d) <~ select_table d curtab llb z;
      let c := mkCtx (ctx_tok c) d curtab in
      if decide (kind c <> RBRACKET) then fail else
      c <~ (if llb then if next_is (ctx_tok c) "]" then eat_token c RBRACKET true else fail else ok c);
      c <~ eat_token c RBRACKET true;
      if decide (kind c <> NEWLINE_TOK) then fail else ok c
  end.

(** One round of the loop of [toml_parse]. *)
Definition toml_line (c : context) : res context :=
  match kind c with
  | NEWLINE_TOK => advance c true
  | STRING =>
      c <~ parse_keyval (2 * text_left (ctx_tok c) + 1) c (ctx_curtab c);
      if decide (kind c <> NEWLINE_TOK) then fail else eat_token c NEWLINE_TOK true
  | LBRACKET => parse_select c
  | _ => fail
  end.

Fixpoint toml_lines (fuel : nat) (c : context) : res doc :=
  match fuel with
  | O => None
  | S fuel => if tok_eof (ctx_tok c) then ok (ctx_doc c) else c <~ toml_line c; toml_lines fuel c
  end.

Definition root_table : node := new_tab None false.

Definition toml_parse (conf : text) : res doc :=
  toml_lines (length conf + 2) (mkCtx (mkTok NEWLINE_TOK conf 0 false) [root_table] 0).

(** The text of a file, up to its first terminator. *)
Definition toml_parse_file (file : text) : res doc := toml_parse (c_text file).

(** ** Every text is parsed *)

Definition ctx_ok (c : context) : Prop := doc_ok (ctx_doc c) /\ tok_ok (ctx_tok c).
Definition ctx_left (c : context) : nat := text_left (ctx_tok c).

(** A part of the parser took at least [k] characters and added to the
    document. *)
Definition step_ok (k : nat) (c c' : context) : Prop :=
  ctx_ok c' /\ grows (ctx_doc c) (ctx_doc c') /\ ctx_curtab c' = ctx_curtab c /\ (ctx_left c' + k <= ctx_left c)%nat.

Lemma step_trans a b c c1 c2 : step_ok a c c1 -> step_ok b c1 c2 -> step_ok (a + b) c c2.
Proof.
  intros (_ & H2 & H3 & H4) (K1 & K2 & K3 & K4). split; [done|]. split; [by etrans|]. split; [congruence|lia].
Qed.

Lemma step_weaken a b c c' : (b <= a)%nat -> step_ok a c c' -> step_ok b c c'.
Proof. intros Hab (H1 & H2 & H3 & H4). split; [done|]. split; [done|]. split; [done|lia]. Qed.

Lemma step_refl c : ctx_ok c -> step_ok 0 c c.
Proof. intros H. split; [done|]. split; [done|]. split; [done|lia]. Qed.

Lemma step_doc c d : ctx_ok c -> doc_ok d -> grows (ctx_doc c) d -> step_ok 0 c (with_doc c d).
Proof. intros [H1 H2] Hd Hg. split; [done|]. split; [done|]. split; [done|]. unfold ctx_left. cbn. lia. Qed.

(** What a token takes at least. *)
Definition cost (k : tokentype) : nat := match k with STRING | NEWLINE_TOK => 0 | _ => 1 end.

Lemma advance_ok c dot : ctx_ok c -> wp (advance c dot) (step_ok (cost (kind c)) c).
Proof.
  intros [Hd Ht]. unfold advance. apply wp_check. intros t [Ht' Hl]%next_token_ok. cbn [wp ok].
  split; [done|]. split; [done|]. split; [done|]. unfold ctx_left, kind in *. cbn [with_tok ctx_tok].
  unfold tok_ok in Ht. destruct (tok_eof (ctx_tok c)).
  - destruct Ht as (-> & Hp & Hn). cbn. lia.
  - destruct Ht as (H1 & H2 & H3). fold (text_left (ctx_tok c)) in H2.
    assert (cost (tok_kind (ctx_tok c)) <= tok_len (ctx_tok c))%nat; [|lia].
    destruct (tok_kind (ctx_tok c)) eqn:Ek; cbn [cost]; try lia; rewrite H3; (lia || congruence).
Qed.

Lemma advance_cost c k dot : kind c = k -> ctx_ok c -> wp (advance c dot) (step_ok (cost k) c).
Proof. intros <-. apply advance_ok. Qed.

Lemma eat_ok c typ dot : ctx_ok c -> wp (eat_token c typ dot) (step_ok (cost typ) c).
Proof. intros Hc. unfold eat_token. case_decide as Hk; [|done]. subst. by apply advance_ok. Qed.

Lemma skip_loop_ok fuel : forall c dot, ctx_ok c -> (ctx_left c < fuel)%nat -> wp (skip_loop fuel c dot) (step_ok 0 c).
Proof.
  induction fuel as [|fuel IH]; intros c dot Hc Hf; [lia|]. cbn [skip_loop]. case_decide as Hk; [|by apply step_refl].
  unfold advance. destruct (next_token (ctx_tok c) dot) as [t|] eqn:En; cbn [check rbind]; [|done].
  pose proof (advance_ok c dot Hc) as Ha. unfold advance in Ha. rewrite En, Hk in Ha. cbn [check rbind wp ok cost] in Ha.
  cbn [rbind ok with_tok ctx_tok]. destruct (tok_eof t) eqn:Et; [done|]. destruct Hc as [_ Hc]. unfold tok_ok, kind in *.
  destruct (tok_eof (ctx_tok c)).
  - destruct Hc as (_ & Hp & Hn). unfold next_token in En. rewrite Hp, Hn in En. cbn in En. by simplify_eq.
  - destruct Hc as (_ & H2 & H3). rewrite H3 in H2 by (by rewrite Hk). apply next_token_ok in En as [_ Hl].
    rewrite H3 in Hl by (by rewrite Hk). fold (text_left (ctx_tok c)) in H2. unfold ctx_left in *. cbn [with_tok ctx_tok] in *.
    eapply wp_mono; [apply IH; [apply Ha|cbn; lia]|]. intros c' Hc'. by apply (step_trans 0 0 c (with_tok c t)).
Qed.

Lemma skip_ok c dot : ctx_ok c -> wp (skip_newlines c dot) (step_ok 0 c).
Proof. intros Hc. apply skip_loop_ok; [done|]. unfold ctx_left. lia. Qed.

Lemma wp_step a k c m f :
  wp m (step_ok a c) -> (forall c1, step_ok a c c1 -> wp (f c1) (step_ok (k - a) c1)) -> wp (rbind m f) (step_ok k c).
Proof.
  intros Hm Hf. eapply wp_bind; [exact Hm|]. intros c1 H1. eapply wp_mono; [by apply Hf|]. intros c2 H2.
  eapply step_weaken; [|by eapply step_trans]. lia.
Qed.

Lemma wp_rebase k c c1 (m : res context) : step_ok 0 c c1 -> wp m (step_ok k c1) -> wp m (step_ok k c).
Proof. intros H1 Hm. eapply wp_mono; [exact Hm|]. intros c2 H2. by apply (step_trans 0 k c c1). Qed.

Lemma wp_weaken a b c (m : res context) : (b <= a)%nat -> wp m (step_ok a c) -> wp m (step_ok b c).
Proof. intros Hab Hm. eapply wp_mono; [exact Hm|]. intros c'. by apply step_weaken. Qed.

Lemma step_tab k c c' i : step_ok k c c' -> is_tab (ctx_doc c) i -> is_tab (ctx_doc c') i.
Proof. intros (_ & Hg & _). by apply is_tab_grows. Qed.

Lemma step_arr k c c' i : step_ok k c c' -> is_arr (ctx_doc c) i -> is_arr (ctx_doc c') i.
Proof. intros (_ & Hg & _). by apply is_arr_grows. Qed.

Lemma step_ctx k c c' : step_ok k c c' -> ctx_ok c'.
Proof. by intros []. Qed.

Lemma step_left k c c' : step_ok k c c' -> (ctx_left c' + k <= ctx_left c)%nat.
Proof. by intros (_ & _ & _ & ?). Qed.

(** What each function promises with a given fuel. *)
Definition keyval_spec (fuel : nat) : Prop := forall c tab, ctx_ok c -> is_tab (ctx_doc c) tab ->
  (2 * ctx_left c < fuel)%nat -> wp (parse_keyval fuel c tab) (step_ok 1 c).
Definition array_spec (fuel : nat) : Prop := forall c arr, ctx_ok c -> is_arr (ctx_doc c) arr ->
  (2 * ctx_left c < fuel)%nat -> wp (parse_array fuel c arr) (step_ok 1 c).
Definition array_loop_spec (fuel : nat) : Prop := forall c arr, ctx_ok c -> is_arr (ctx_doc c) arr ->
  (2 * ctx_left c + 1 < fuel)%nat -> wp (parse_array_loop fuel c arr) (step_ok 0 c).
Definition inline_spec (fuel : nat) : Prop := forall c tab, ctx_ok c -> is_tab (ctx_doc c) tab ->
  (2 * ctx_left c < fuel)%nat -> wp (parse_inline_table fuel c tab) (step_ok 1 c).
Definition inline_loop_spec (fuel : nat) : Prop := forall c tab, ctx_ok c -> is_tab (ctx_doc c) tab ->
  (2 * ctx_left c + 1 < fuel)%nat -> wp (parse_inline_loop fuel c tab) (step_ok 0 c).

(** The table or array a key leads to, and what is parsed into it. *)
Lemma into_table k c (m : res (nat * doc)) (f : nat * doc -> res context) : ctx_ok c ->
  wp m (fun r => doc_ok r.2 /\ grows (ctx_doc c) r.2 /\ is_tab r.2 r.1) ->
  (forall i d, step_ok 0 c (with_doc c d) -> is_tab d i -> wp (f (i, d)) (step_ok k (with_doc c d))) ->
  wp (rbind m f) (step_ok k c).
Proof.
  intros Hc Hm Hf. eapply wp_bind; [exact Hm|]. intros [i d] (Hd & Hg & Hi).
  assert (Hs : step_ok 0 c (with_doc c d)) by (by apply step_doc). eapply wp_rebase; [exact Hs|]. by apply Hf.
Qed.

Lemma into_array k c (m : res (nat * doc)) (f : nat * doc -> res context) : ctx_ok c ->
  wp m (fun r => doc_ok r.2 /\ grows (ctx_doc c) r.2 /\ is_arr r.2 r.1) ->
  (forall i d, step_ok 0 c (with_doc c d) -> is_arr d i -> wp (f (i, d)) (step_ok k (with_doc c d))) ->
  wp (rbind m f) (step_ok k c).
Proof.
  intros Hc Hm Hf. eapply wp_bind; [exact Hm|]. intros [i d] (Hd & Hg & Hi).
  assert (Hs : step_ok 0 c (with_doc c d)) by (by apply step_doc). eapply wp_rebase; [exact Hs|]. by apply Hf.
Qed.

Lemma into_doc k c (m : res doc) (f : doc -> res context) : ctx_ok c ->
  wp m (fun d => doc_ok d /\ grows (ctx_doc c) d) ->
  (forall d, step_ok 0 c (with_doc c d) -> wp (f d) (step_ok k (with_doc c d))) ->
  wp (rbind m f) (step_ok k c).
Proof.
  intros Hc Hm Hf. eapply wp_bind; [exact Hm|]. intros d (Hd & Hg).
  assert (Hs : step_ok 0 c (with_doc c d)) by (by apply step_doc). eapply wp_rebase; [exact Hs|]. by apply Hf.
Qed.

(** The subtable of a dotted key: there already, or new. *)
Lemma dotted_table d tab t key keytok : doc_ok d -> get_tab d tab = Some t ->
  exists sub, toml_table_in d t key = Some sub /\
    wp (match sub with Some i => ok (i, d) | None => create_keytable_in_table d tab keytok end)
       (fun r => doc_ok r.2 /\ grows d r.2 /\ is_tab r.2 r.1).
Proof.
  intros Hd Ht. destruct (tab_node_ok _ _ _ Hd Ht) as (_ & Htabs & _).
  destruct (find_child_spec d true tab (t_tab t) key Htabs) as (r & Hr & Hspec). exists r. split; [done|].
  destruct r as [i|].
  - cbn. split; [done|]. split; [done|]. rewrite Forall_forall in Htabs. destruct Hspec as [Hi _].
    destruct (Htabs i Hi) as (_ & k & Hk). by eapply shape_tab.
  - apply create_keytable_ok; [done|]. by exists t.
Qed.

Lemma keyval_step fuel : keyval_spec fuel -> array_spec fuel -> inline_spec fuel -> keyval_spec (S fuel).
Proof.
  intros IHk IHa IHi c tab Hc (t & Ht) Hf. cbn [parse_keyval]. apply (wp_deref _ t); [done|].
  destruct (t_readonly t); [done|]. apply (wp_step 0); [by apply (eat_ok c STRING)|]. intros c1 H1.
  pose proof (step_ctx _ _ _ H1) as Hc1. pose proof (step_left _ _ _ H1) as Hl1.
  assert (Ht1 : is_tab (ctx_doc c1) tab) by (eapply step_tab; [done|by exists t]).
  destruct (kind c1) eqn:Ek; try done.
  - apply wp_check. intros key Hkey. destruct Ht1 as (t1 & Ht1). apply (wp_deref _ t1); [done|].
    destruct (dotted_table (ctx_doc c1) tab t1 key (ctx_tok c) (proj1 Hc1) Ht1) as (sub & Hsub & Hwp).
    apply (wp_deref _ sub); [done|]. apply into_table; [done|done|]. intros i d Hd Hi.
    apply (wp_step 1); [by apply (advance_cost _ DOT), (step_ctx _ _ _ Hd)|]. intros c2 H2.
    pose proof (step_left _ _ _ Hd). pose proof (step_left _ _ _ H2). eapply wp_weaken; [|apply IHk].
    + cbn. lia.
    + by eapply step_ctx.
    + by eapply step_tab.
    + lia.
  - apply (wp_step 1); [by apply (advance_cost c1 EQUAL)|]. intros c2 H2. pose proof (step_ctx _ _ _ H2) as Hc2.
    pose proof (step_left _ _ _ H2) as Hl2. assert (Ht2 : is_tab (ctx_doc c2) tab) by (by eapply step_tab). cbn [Nat.sub].
    destruct (kind c2); try done.
    + apply into_table; [done|apply create_keytable_ok; [apply Hc2|done]|]. intros i d Hd Hi.
      pose proof (step_left _ _ _ Hd). eapply wp_weaken; [|apply IHi]; [lia|by eapply step_ctx|done|lia].
    + apply into_array; [done|apply create_keyarray_ok; [apply Hc2|done]|]. intros i d Hd Hi.
      pose proof (step_left _ _ _ Hd). eapply wp_weaken; [|apply IHa]; [lia|by eapply step_ctx|done|lia].
    + apply into_doc; [done|apply create_keyval_ok; [apply Hc2|done]|]. intros d Hd.
      eapply wp_weaken; [|apply advance_ok; by eapply step_ctx]. lia.
Qed.

Lemma array_step fuel : array_loop_spec fuel -> array_spec (S fuel).
Proof.
  intros IH c arr Hc Ha Hf. cbn [parse_array]. apply (wp_step 1); [by apply (eat_ok c LBRACKET)|]. intros c1 H1.
  pose proof (step_left _ _ _ H1). apply IH; [by eapply step_ctx|by eapply step_arr|lia].
Qed.

Lemma inline_step fuel : inline_loop_spec fuel -> inline_spec (S fuel).
Proof.
  intros IH c tab Hc Ht Hf. cbn [parse_inline_table]. apply (wp_step 1); [by apply (eat_ok c LBRACE)|]. intros c1 S1.
  pose proof (step_left _ _ _ S1). assert (Ht1 : is_tab (ctx_doc c1) tab) by (by eapply step_tab).
  apply (wp_step 0); [apply IH; [by eapply step_ctx|done|lia]|]. intros c2 S2.
  destruct (step_tab _ _ _ _ S2 Ht1) as (t & Ht2). apply (wp_deref _ t); [done|]. cbn [wp ok].
  pose proof (step_ctx _ _ _ S2) as Hc2. pose proof (tab_node_ok _ _ _ (proj1 Hc2) Ht2) as Hok. apply get_tab_node in Ht2.
  destruct (doc_update (ctx_doc c2) tab (NTab t) (NTab (with_flags t (t_implicit t) true)) (proj1 Hc2) Ht2) as [Hd Hg];
    [done|done|done|]. by apply step_doc.
Qed.

Lemma inline_loop_step fuel : keyval_spec fuel -> inline_loop_spec fuel -> inline_loop_spec (S fuel).
Proof.
  intros IHk IH c tab Hc Ht Hf. cbn [parse_inline_loop].
  case_decide; [by eapply wp_weaken, (eat_ok c RBRACE); [lia|]|]. case_decide; [done|].
  apply (wp_step 1); [apply IHk; [done|done|lia]|]. intros c1 S1. pose proof (step_ctx _ _ _ S1) as Hc1.
  pose proof (step_left _ _ _ S1). assert (Ht1 : is_tab (ctx_doc c1) tab) by (by eapply step_tab).
  case_decide; [done|]. case_decide; [|by eapply wp_weaken, (eat_ok c1 RBRACE); [lia|]].
  apply (wp_step 1); [by apply (eat_ok c1 COMMA)|]. intros c2 S2. pose proof (step_left _ _ _ S2).
  apply IH; [by eapply step_ctx|by eapply step_tab|lia].
Qed.

(** One element of an array. *)
Lemma array_loop_step fuel : array_spec fuel -> inline_spec fuel -> array_loop_spec fuel -> array_loop_spec (S fuel).
Proof.
  intros IHa IHi IH c arr Hc Ha Hf. cbn [parse_array_loop].
  apply (wp_step 0); [by apply skip_ok|]. intros c1 S1. pose proof (step_ctx _ _ _ S1) as Hc1.
  pose proof (step_left _ _ _ S1). assert (Ha1 : is_arr (ctx_doc c1) arr) by (by eapply step_arr).
  case_decide; [by eapply wp_weaken, (eat_ok c1 RBRACKET); [lia|]|].
  apply (wp_step 0).
  { destruct (kind c1); try done.
    - apply into_table; [done|apply create_table_ok; [apply Hc1|done]|]. intros i d Hd Hi.
      pose proof (step_left _ _ _ Hd). eapply wp_weaken; [|apply IHi]; [lia|by eapply step_ctx|done|lia].
    - apply into_array; [done|apply create_array_ok; [apply Hc1|done]|]. intros i d Hd Hi.
      pose proof (step_left _ _ _ Hd). eapply wp_weaken; [|apply IHa]; [lia|by eapply step_ctx|done|lia].
    - apply into_doc; [done|apply create_value_ok; [apply Hc1|done]|]. intros d Hd.
      apply (eat_ok _ STRING). by eapply step_ctx. }
  intros c2 S2. pose proof (step_ctx _ _ _ S2) as Hc2. pose proof (step_left _ _ _ S2).
  apply (wp_step 0); [by apply skip_ok|]. intros c3 S3. pose proof (step_ctx _ _ _ S3) as Hc3.
  pose proof (step_left _ _ _ S3). case_decide; [|by eapply wp_weaken, (eat_ok c3 RBRACKET); [lia|]].
  apply (wp_step 1); [by apply (eat_ok c3 COMMA)|]. intros c4 S4. pose proof (step_left _ _ _ S4).
  apply IH; [by eapply step_ctx|eapply step_arr, step_arr, step_arr, Ha1; done|lia].
Qed.

Lemma parser_ok fuel : keyval_spec fuel /\ array_spec fuel /\ array_loop_spec fuel /\ inline_spec fuel /\ inline_loop_spec fuel.
Proof.
  induction fuel as [|fuel (H1 & H2 & H3 & H4 & H5)]; [repeat split; intros ???; lia|].
  split; [by apply keyval_step|]. split; [by apply array_step|]. split; [by apply array_loop_step|].
  split; [by apply inline_step|]. by apply inline_loop_step.
Qed.

Lemma fill_loop_ok room : forall c tpath, ctx_ok c ->
  wp (fill_loop room c tpath) (fun r => step_ok 0 c r.2).
Proof.
  induction room as [|room IH]; intros c tpath Hc; [done|]. cbn [fill_loop]. case_decide; [done|].
  apply wp_check. intros key _. eapply wp_bind; [by apply advance_ok|]. intros c1 S1.
  pose proof (step_ctx _ _ _ S1) as Hc1. apply (step_weaken _ 0) in S1; [|lia].
  destruct (kind c1) eqn:Ek; try done.
  eapply wp_bind; [by apply advance_ok|]. intros c2 S2. pose proof (step_ctx _ _ _ S2) as Hc2.
  apply (step_weaken _ 0) in S2; [|lia]. eapply wp_mono; [by apply IH|]. intros [tp c3] S3. cbn [snd] in *.
  eapply (step_trans 0 0), S3. by eapply (step_trans 0 0).
Qed.

(** The last element of an array of kind ['t']. *)
Lemma last_table d i a it : doc_ok d -> get_arr d i = Some a -> a_kind a = "t"%char -> last (a_item a) = Some it ->
  exists j, it = ITab j /\ is_tab d j.
Proof.
  intros Hd Ha Hk Hl. destruct (arr_node_ok _ _ _ Hd Ha) as (H1 & H2 & _). apply last_Some_elem_of in Hl.
  rewrite Forall_forall in H1. specialize (H2 Hk). rewrite Forall_forall in H2.
  specialize (H1 it Hl). specialize (H2 it Hl). destruct it as [| |j]; try done. exists j. split; [done|].
  destruct H1 as (_ & k & Hj). by eapply shape_tab.
Qed.

Lemma walk_ok keys : forall d curtab, doc_ok d -> is_tab d curtab ->
  wp (walk_tabpath d curtab keys) (fun r => doc_ok r.2 /\ grows d r.2 /\ is_tab r.2 r.1).
Proof.
  induction keys as [|key keys IH]; intros d curtab Hd (t & Ht); [by split; [|split; [|exists t]]|]. cbn [walk_tabpath].
  apply (wp_deref _ t); [done|]. destruct (check_key_spec d curtab t key (tab_node_ok _ _ _ Hd Ht)) as (f & Hf & Hspec).
  apply (wp_deref _ f); [done|]. destruct f as [v|i|i|]; [done|..].
  - destruct Hspec as (_ & k & Hk%shape_arr). destruct Hk as (a & Ha). apply (wp_deref _ a); [done|].
    destruct (Ascii.eqb_spec (a_kind a) "t") as [Hk|]; [|done]. cbn [negb].
    destruct (last (a_item a)) as [it|] eqn:El; [|done]. destruct (last_table d i a it) as (j & -> & Hj); [done..|].
    by apply IH.
  - destruct Hspec as (_ & k & Hk%shape_tab). by apply IH.
  - destruct (add_table_ok d curtab t key true) as (H1 & H2 & H3); [done..|].
    eapply wp_mono; [by apply IH|]. intros r (K1 & K2 & K3). split; [done|]. split; [by etrans|done].
Qed.

Lemma select_ok d curtab llb z : doc_ok d -> is_tab d curtab ->
  wp (select_table d curtab llb z) (fun r => doc_ok r.2 /\ grows d r.2 /\ is_tab r.2 r.1).
Proof.
  intros Hd Hc. unfold select_table. destruct llb; cbn [negb]; [|by apply create_keytable_ok].
  apply wp_check. intros key _. destruct Hc as (t & Ht). apply (wp_deref _ t); [done|].
  destruct (tab_node_ok _ _ _ Hd Ht) as (Harr & _ & _).
  destruct (find_child_spec d false curtab (t_arr t) key Harr) as (r & Hr & Hspec). apply (wp_deref _ r); [done|].
  apply (wp_bind _ _ (fun r => doc_ok r.2 /\ grows d r.2 /\ is_arr r.2 r.1)).
  { destruct r as [i|]; [|apply create_keyarray_ok; [done|by exists t]]. cbn. split; [done|]. split; [done|].
    rewrite Forall_forall in Harr. destruct Hspec as [Hi _]. destruct (Harr i Hi) as (_ & k & Hk). by eapply shape_arr. }
  intros [arr d'] (H1 & H2 & a & Ha). cbn [fst snd] in *. apply (wp_deref _ a); [done|].
  destruct (negb _); [done|]. eapply wp_mono; [by apply create_table_ok; [|exists a]|].
  intros r' (K1 & K2 & K3). split; [done|]. split; [by etrans|done].
Qed.

(** What a round of the main loop does. *)
Definition line_ok (c c' : context) : Prop :=
  ctx_ok c' /\ is_tab (ctx_doc c') (ctx_curtab c') /\ (ctx_left c' < ctx_left c)%nat.

Lemma select_line c : ctx_ok c -> wp (parse_select c) (line_ok c).
Proof.
  intros Hc. unfold parse_select. eapply wp_bind; [by apply (eat_ok c LBRACKET)|]. intros c1 S1.
  apply (wp_bind _ _ (step_ok 0 c1)).
  { pose proof (step_ctx _ _ _ S1). destruct (next_is _ _); [|by apply step_refl].
    by eapply wp_weaken, (eat_ok c1 LBRACKET); [lia|]. }
  intros c2 S2. eapply wp_bind; [eapply fill_loop_ok, step_ctx; exact S2|]. intros [tpath c3] S3. cbn [snd] in S3.
  destruct (last tpath) as [[k z]|]; [|done]. pose proof (step_ctx _ _ _ S3) as [Hd3 Ht3].
  destruct (ok_root _ Hd3) as (t & Hroot).
  eapply wp_bind; [apply walk_ok; [done|by exists t; apply get_tab_node]|]. intros [cur d] (H1 & H2 & H3). cbn [fst snd] in *.
  eapply wp_bind; [by apply select_ok|]. intros [cur' d'] (K1 & K2 & K3). cbn [fst snd] in *.
  case_decide; [done|]. set (c4 := mkCtx (ctx_tok c3) d' cur'). assert (Hc4 : ctx_ok c4) by done.
  apply (wp_bind _ _ (step_ok 0 c4)).
  { destruct (next_is (ctx_tok c) _); [|by apply step_refl]. destruct (next_is _ _); [|done].
    by eapply wp_weaken, (eat_ok c4 RBRACKET); [lia|]. }
  intros c5 S5. eapply wp_bind; [by eapply (eat_ok c5 RBRACKET), step_ctx|]. intros c6 S6.
  case_decide; [done|]. cbn [wp ok]. pose proof (step_trans _ _ _ _ _ S5 S6) as (L1 & L2 & L3 & L4).
  split; [done|]. split.
  - rewrite L3. by eapply is_tab_grows.
  - pose proof (step_left _ _ _ S1). pose proof (step_left _ _ _ S2). pose proof (step_left _ _ _ S3).
    assert (ctx_left c4 = ctx_left c3) by done. cbn [cost] in *. lia.
Qed.

(** A newline that is not the end of the text is skipped. *)
Lemma newline_advance c dot : ctx_ok c -> kind c = NEWLINE_TOK -> tok_eof (ctx_tok c) = false ->
  wp (advance c dot) (step_ok 1 c).
Proof.
  intros Hc Hk He. pose proof (advance_ok c dot Hc) as Ha. unfold advance in *.
  destruct (next_token (ctx_tok c) dot) as [t|] eqn:En; [|done]. cbn [check rbind wp ok] in *.
  destruct Ha as (H1 & H2 & H3 & _). split; [done|]. split; [done|]. split; [done|].
  destruct Hc as [_ Hc]. unfold tok_ok, kind in *. rewrite He in Hc. destruct Hc as (_ & Hl & Hn).
  rewrite Hn in Hl by (by rewrite Hk). apply next_token_ok in En as [_ En]. rewrite Hn in En by (by rewrite Hk).
  unfold ctx_left, text_left in *. cbn [with_tok ctx_tok] in *. lia.
Qed.

Lemma line_step c : ctx_ok c -> is_tab (ctx_doc c) (ctx_curtab c) -> tok_eof (ctx_tok c) = false ->
  wp (toml_line c) (line_ok c).
Proof.
  intros Hc Ht He. unfold toml_line.
  assert (Hline : forall c', step_ok 1 c c' -> line_ok c c').
  { intros c' (H1 & H2 & H3 & H4). split; [done|]. split; [|lia]. rewrite H3. by eapply is_tab_grows. }
  destruct (kind c) eqn:Ek; try done.
  - eapply wp_mono; [by apply newline_advance|exact Hline].
  - by apply select_line.
  - eapply wp_mono; [|exact Hline]. apply (wp_step 1).
    { apply parser_ok; [done|done|]. unfold ctx_left. lia. }
    intros c1 S1. case_decide; [done|]. apply (eat_ok c1 NEWLINE_TOK). by eapply step_ctx.
Qed.

Lemma lines_ok fuel : forall c, ctx_ok c -> is_tab (ctx_doc c) (ctx_curtab c) -> (ctx_left c < fuel)%nat ->
  wp (toml_lines fuel c) doc_ok.
Proof.
  induction fuel as [|fuel IH]; intros c Hc Ht Hf; [lia|]. cbn [toml_lines].
  destruct (tok_eof (ctx_tok c)) eqn:He; [apply Hc|].
  eapply wp_bind; [by apply line_step|]. intros c1 (H1 & H2 & H3). apply IH; [done|done|lia].
Qed.

Lemma root_ok : doc_ok [root_table].
Proof.
  split.
  - intros [|i] n Hn; [|done]. cbn in Hn. simplify_eq. split; [constructor|split; [constructor|apply NoDup_nil_2]].
  - done.
  - by eexists.
Qed.

Lemma parse_ok conf : wp (toml_parse conf) doc_ok.
Proof.
  unfold toml_parse. replace (length conf + 2)%nat with (S (S (length conf))) by lia.
  set (c0 := mkCtx _ _ _). change (wp (c <~ toml_line c0; toml_lines (S (length conf)) c) doc_ok).
  unfold toml_line, kind, c0. cbn [ctx_tok tok_kind]. unfold advance. destruct (next_token _ true) as [t|] eqn:En; [|done]. cbn [check rbind ok].
  apply next_token_ok in En as [Ht Hl]. cbn [tok_len tok_ptr text_left] in Hl.
  apply lines_ok; [split; [apply root_ok|done]|by eexists|].
  unfold ctx_left. cbn [with_tok ctx_tok]. unfold text_left in *. cbn in Hl. lia.
Qed.

(** C29: The parser stops on every text: the fuel it is given is enough, and
    it never follows a pointer that is not there; it returns a document, or
    the error. *)
Theorem toml_parse_total (conf : text) : exists r, toml_parse conf = Some r.
Proof. pose proof (parse_ok conf) as H. destruct (toml_parse conf) as [r|]; [by exists r|done]. Qed.

(** C30: What the parser returns is well formed: every table and array is
    pointed to exactly once, by an older one of the right sort, the root
    apart; the keys of a table differ, whether of values, arrays or tables;
    and an array whose kind is 't' holds tables only.  So releasing it ends,
    and frees every table and array exactly once. *)
Theorem toml_parse_well_formed (conf : text) (d : doc) : toml_parse conf = Some (Some d) ->
  doc_ok d /\ exists l, toml_free d 0 = Some l /\ l ≡ₚ seq 0 (length d).
Proof. intros Hd. pose proof (parse_ok conf) as H. rewrite Hd in H. split; [done|]. by apply free_all. Qed.
End Parser.

(** ** An example *)

(** A conversion that reads no number. *)
Definition no_strtod : Strtod := fun s => (SpecFloat.S754_zero false, s, false).

Definition demo_text : text :=
  txt "a.b = [ 1, [ 'x' ] ] # c" ++ NEWLINE :: txt "[[s.t]]" ++ NEWLINE :: txt "u = { v = true }" ++ NEWLINE :: txt "[[s.t]]".

Definition demo_doc : doc :=
  [ NTab (mkTab None false false [] [] [1; 4]%nat);
    NTab (mkTab (Some (txt "a")) false false [] [2%nat] []);
    NArr (mkArr (Some (txt "b")) "m" "i" [IVal "i" (txt "1"); IArr 3]);
    NArr (mkArr None "v" "s" [IVal "s" (txt "'x'")]);
    NTab (mkTab (Some (txt "s")) true false [] [5%nat] []);
    NArr (mkArr (Some (txt "t")) "t" NUL [ITab 6; ITab 8]);
    NTab (mkTab (Some (txt "__anon__")) false false [] [] [7%nat]);
    NTab (mkTab (Some (txt "u")) false true [mkKv (txt "v") (txt "true")] [] []);
    NTab (mkTab (Some (txt "__anon__")) false false [] [] []) ].

Example demo_parses : toml_parse (D := no_strtod) demo_text = Some (Some demo_doc).
Proof. vm_compute. reflexivity. Qed.

(** A table header extends an inline table, which is closed to keys. *)
Example header_extends_inline_table :
  (exists d, toml_parse (D := no_strtod) (txt "a = {b=1}" ++ NEWLINE :: txt "[a.c]") = Some (Some d)) /\
  toml_parse (D := no_strtod) (txt "a = {b=1}" ++ NEWLINE :: txt "a.c = 1") = Some None.
Proof. split; [eexists|]; vm_compute; reflexivity. Qed.

Lemma toml_parse_well_formed_witness : toml_parse (D := no_strtod) demo_text = Some (Some demo_doc) /\ doc_ok demo_doc /\
  exists l, toml_free demo_doc 0 = Some l /\ l ≡ₚ seq 0 (length demo_doc).
Proof. split; [vm_compute; reflexivity|]. apply (toml_parse_well_formed (D := no_strtod) demo_text). vm_compute. reflexivity. Defined.
