(* ===== verification/TomlPrint.v ===== *)
(** * TomlPrint: printed TOML documents are read back

    A printer of tables of strings, numbers and arrays of numbers, and what
    the parser of [TomlParse] does on each line of it, as a relation between
    the text left, the document and the table it is read into. *)

From Stdlib Require Import Ascii.
From S2P Require Import Prelude BBox ObjDesc Linear Sspace DhtEntry StrHash LocalStorage Matrix Codec Modules Server Conf Toml TomlLex TomlDoc TomlParse.

(** ** The printer *)

(** A key can be any text without terminators and newlines. *)
Definition key_ok (k : text) : Prop := Forall (fun c => c <> NUL /\ c <> NEWLINE) k.

Inductive toml_value := VStr (s : text) | VInt (n : Z) | VInts (l : list Z).

Definition print_ints (l : list Z) : text := flat_map (fun n => print_int n ++ [","%char]) l.

Definition print_value (v : toml_value) : text :=
  match v with
  | VStr s => quote s
  | VInt n => print_int n
  | VInts l => "["%char :: print_ints l ++ ["]"%char]
  end.

Definition print_entry (k : text) (v : toml_value) : text :=
  quote k ++ " "%char :: "="%char :: " "%char :: print_value v ++ [NEWLINE].

Fixpoint print_path (k : text) (path : list text) : text :=
  match path with [] => quote k | k' :: path => quote k ++ "."%char :: print_path k' path end.

Definition print_header (k : text) (path : list text) : text := "["%char :: print_path k path ++ ["]"%char; NEWLINE].

(** ** Quoted strings as tokens *)

Lemma basic_end_escape c rest k : basic_end false 0 rest = Some k ->
  basic_end false 0 (escape c ++ rest) = Some (length (escape c) + k)%nat.
Proof. destruct c as [[] [] [] [] [] [] [] []]; vm_compute; by intros ->. Qed.

Lemma basic_end_quote s rest : basic_end false 0 (flat_map escape s ++ QUOTE :: rest) = Some (length (flat_map escape s)).
Proof.
  induction s as [|c s IH]; [done|]. cbn [flat_map]. rewrite <- (assoc_L (++)), (basic_end_escape _ _ _ IH).
  by rewrite length_app.
Qed.

(** What follows a quoted string does not make it a triple quote. *)
Lemma quote_not_triple s rest : at_ptr rest 0 <> QUOTE ->
  Ascii.eqb (at_ptr (quote s ++ rest) 1) QUOTE && Ascii.eqb (at_ptr (quote s ++ rest) 2) QUOTE = false.
Proof.
  intros Hr. apply not_true_is_false. rewrite andb_true_iff, !Ascii.eqb_eq. unfold quote. intros [H1 H2].
  destruct s as [|c s].
  - cbn in H2. destruct rest; [done|]. by apply Hr.
  - cbn [flat_map app] in H1. rewrite <- !(assoc_L (++)) in H1. by apply (escape_head c (flat_map escape s ++ [QUOTE] ++ rest)).
Qed.

Lemma starts_with_triple c p : c <> NUL ->
  starts_with (triple c) p = Ascii.eqb (at_ptr p 0) c && (Ascii.eqb (at_ptr p 1) c && Ascii.eqb (at_ptr p 2) c).
Proof.
  intros Hc. assert (Hn : forall x, Ascii.eqb c x = Ascii.eqb x c) by (intros; apply Ascii.eqb_sym).
  assert (Hz : Ascii.eqb NUL c = false) by (destruct (Ascii.eqb_spec NUL c); congruence).
  unfold triple, at_ptr. destruct p as [|a [|b [|d p]]]; cbn [starts_with nth]; rewrite ?Hn, ?Hz;
    by repeat match goal with |- context [Ascii.eqb ?x ?y] => destruct (Ascii.eqb x y) end.
Qed.

(** The token of a quoted string. *)
Definition quote_tok (s rest : text) : token := mkTok STRING (quote s ++ rest) (length (quote s)) false.

Lemma scan_quote d s rest : at_ptr rest 0 <> QUOTE -> scan_token d false (quote s ++ rest) = Some (quote_tok s rest).
Proof.
  intros Hr. assert (Hs : scan_token d false (quote s ++ rest) = scan_string (quote s ++ rest) d) by (by destruct d).
  rewrite Hs. unfold scan_string. rewrite !starts_with_triple by done.
  rewrite (quote_not_triple s rest Hr), andb_false_r. change (at_ptr (quote s ++ rest) 0) with QUOTE.
  change (Ascii.eqb QUOTE APOS) with false. change (Ascii.eqb QUOTE QUOTE) with true. cbn [andb]. cbn iota.
  change (drop 1 (quote s ++ rest)) with ((flat_map escape s ++ [QUOTE]) ++ rest). rewrite <- (assoc_L (++)). cbn [app].
  rewrite basic_end_quote. unfold set_string, quote_tok. cbn [mbind option_bind]. do 2 f_equal.
  unfold quote. cbn [length]. rewrite length_app. cbn [length]. lia.
Qed.

Lemma tok_text_quote s rest : tok_text (quote_tok s rest) = quote s.
Proof. unfold tok_text, quote_tok. cbn [tok_len tok_ptr]. apply take_app_length. Qed.

Lemma c_text_key k : key_ok k -> c_text k = k.
Proof. intros Hk. apply c_text_id. eapply Forall_impl; [exact Hk|]. intros c [Hc _]. by apply Ascii.eqb_neq. Qed.

Lemma normalize_quote k rest : key_ok k -> at_ptr rest 0 <> QUOTE -> normalize_key (quote_tok k rest) = Some k.
Proof.
  intros Hk Hr. unfold normalize_key, quote_tok. cbn [tok_ptr tok_len]. change (at_ptr (quote k ++ rest) 0) with QUOTE.
  change (is_quote QUOTE) with true. change (Ascii.eqb QUOTE APOS) with false. cbn iota.
  rewrite (quote_not_triple k rest Hr). unfold slice. unfold quote. cbn [length app drop]. rewrite length_app. cbn [length].
  rewrite drop_0. replace (S (length (flat_map escape k) + 1) - 1 - 1)%nat with (length (flat_map escape k)) by lia.
  rewrite <- (assoc_L (++)), take_app_length. unfold norm_basic_str. rewrite norm_flat_map by lia. cbn [mbind option_bind].
  rewrite (c_text_key k Hk). destruct (existsb _ k) eqn:E; [|done]. apply existsb_exists in E as (c & Hc & Hn).
  apply Ascii.eqb_eq in Hn. unfold key_ok in Hk. rewrite Forall_forall in Hk. apply list_elem_of_In in Hc. destruct (Hk c Hc) as [_ Hk']. by subst.
Qed.

(** ** Numbers as tokens *)

Lemma digit_cases c : is_digit c = true -> In c (txt "0123456789").
Proof. destruct c as [[] [] [] [] [] [] [] []]; vm_compute; intros H; try discriminate; tauto. Qed.

(** A fact of each of the ten digits, by computation. *)
Ltac by_digit H := apply digit_cases in H; cbn in H; repeat (destruct H as [<-|H]; [by vm_compute|]); destruct H.

(** A separator after a number. *)
Definition ends_number (c : ascii) : Prop := c = NEWLINE \/ c = ","%char.

Lemma no_date l c rest : Forall (fun c => is_digit c = true) l -> ends_number c ->
  scan_date (l ++ c :: rest) = None /\ scan_time (l ++ c :: rest) = None.
Proof.
  intros Hl Hc. assert (Hd : is_digit c = false) by (by destruct Hc; subst).
  assert (H1 : Ascii.eqb c "-" = false) by (by destruct Hc; subst). assert (H2 : Ascii.eqb c ":" = false) by (by destruct Hc; subst).
  assert (Hds : forall x, is_digit x = true -> Ascii.eqb x "-" = false /\ Ascii.eqb x ":" = false).
  { intros x Hx. by_digit Hx. }
  unfold scan_date, scan_time, scan_digits.
  destruct Hl as [|x1 l1 X1 [|x2 l2 X2 [|x3 l3 X3 [|x4 l4 X4 [|x5 l5 X5 Hl]]]]]; cbn [app scan_digits_loop];
    rewrite ?X1, ?X2, ?X3, ?X4, ?Hd; cbn [mbind option_bind]; unfold at_ptr; cbn [nth];
    rewrite ?H1, ?H2, ?(proj1 (Hds _ X5)), ?(proj2 (Hds _ X3)); done.
Qed.

Lemma literal_number d c : is_digit c = true \/ c = "-"%char -> literal_char d c = true.
Proof. intros [H| ->]; [|by destruct d]. destruct d; by_digit H. Qed.

Lemma spn_app f l c rest : Forall (fun x => f x = true) l -> f c = false -> spn f (l ++ c :: rest) = length l.
Proof.
  intros Hl Hc. unfold spn. induction Hl as [|x l Hx _ IH]; cbn [app take_while]; [by rewrite Hc|]. by rewrite Hx; cbn; rewrite IH.
Qed.

Definition int_tok (n : Z) (rest : text) : token := mkTok STRING (print_int n ++ rest) (length (print_int n)) false.

Lemma scan_int d n c rest : - 2 ^ 63 <= n < 2 ^ 63 -> ends_number c ->
  scan_token d false (print_int n ++ c :: rest) = Some (int_tok n (c :: rest)).
Proof.
  intros Hn Hc. destruct (print_int_plain n Hn) as (Hp & Hne & _).
  assert (Hfirst : scan_date (print_int n ++ c :: rest) = None /\ scan_time (print_int n ++ c :: rest) = None).
  { unfold print_int. destruct (Z.ltb_spec n 0); [done|]. apply no_date; [|done]. by apply print_digits_20; lia. }
  destruct Hfirst as [F1 F2].
  assert (Hspn : spn (literal_char d) (print_int n ++ c :: rest) = length (print_int n)).
  { apply spn_app; [|by destruct Hc, d; subst]. eapply Forall_impl; [exact Hp|]. intros x. apply literal_number. }
  unfold int_tok. destruct (print_int n) as [|x l] eqn:E; [done|]. cbn [app] in *. apply Forall_cons in Hp as [Hx _].
  assert (Hs : scan_token d false (x :: l ++ c :: rest) = scan_string (x :: l ++ c :: rest) d).
  { destruct Hx as [Hx| ->]; [|by destruct d]. apply digit_cases in Hx. cbn in Hx.
    destruct d; repeat (destruct Hx as [<-|Hx]; [reflexivity|]); destruct Hx. }
  rewrite Hs. unfold scan_string. rewrite !starts_with_triple by done. change (at_ptr (x :: l ++ c :: rest) 0) with x.
  assert (Hq : Ascii.eqb x APOS = false /\ Ascii.eqb x QUOTE = false).
  { destruct Hx as [Hx| ->]; [|done]. by_digit Hx. }
  destruct Hq as [-> ->]. cbn [andb]. rewrite F1, F2. cbn [orb]. by rewrite Hspn.
Qed.

Lemma tok_text_int n rest : tok_text (int_tok n rest) = print_int n.
Proof. unfold tok_text, int_tok. cbn [tok_len tok_ptr]. apply take_app_length. Qed.

Section Reading.
Context `{D : Strtod}.

(** ** Values *)

Definition value_ok (v : toml_value) : Prop :=
  match v with
  | VStr _ => True
  | VInt n => - 2 ^ 63 <= n < 2 ^ 63
  | VInts l => Forall (fun n => - 2 ^ 63 <= n < 2 ^ 63) l
  end.

Definition newline_tok (r : text) : token := mkTok NEWLINE_TOK (NEWLINE :: r) 1 false.

(** A token of a string or a number, and what is left after it. *)
Definition scalar_tok (vt : token) (v : text) (rest : text) : Prop :=
  tok_kind vt = STRING /\ tok_text vt = v /\ drop (tok_len vt) (tok_ptr vt) = rest.

Lemma scan_scalar v r : value_ok v -> (forall l, v <> VInts l) ->
  exists vt, scan_token false false (print_value v ++ NEWLINE :: r) = Some vt /\ scalar_tok vt (print_value v) (NEWLINE :: r).
Proof.
  intros Hv Hs. destruct v as [s|n|l]; [| |by destruct (Hs l)]; cbn [print_value].
  - exists (quote_tok s (NEWLINE :: r)). split; [by apply scan_quote|]. split; [done|]. split; [apply tok_text_quote|].
    apply drop_app_length.
  - exists (int_tok n (NEWLINE :: r)). split; [apply scan_int; [done|by left]|]. split; [done|]. split; [apply tok_text_int|].
    apply drop_app_length.
Qed.

Lemma advance_to c p dot t : drop (tok_len (ctx_tok c)) (tok_ptr (ctx_tok c)) = p -> scan_token dot false p = Some t ->
  advance c dot = ok (with_tok c t).
Proof. intros Hp Ht. unfold advance, next_token. by rewrite Hp, Ht. Qed.

Lemma eat_to c k p dot t : kind c = k -> drop (tok_len (ctx_tok c)) (tok_ptr (ctx_tok c)) = p ->
  scan_token dot false p = Some t -> eat_token c k dot = ok (with_tok c t).
Proof. intros Hk Hp Ht. unfold eat_token. rewrite decide_True by done. by eapply advance_to. Qed.

Lemma skip_other c dot : kind c <> NEWLINE_TOK -> skip_newlines c dot = ok c.
Proof. intros Hk. unfold skip_newlines. cbn [skip_loop]. by rewrite decide_False. Qed.

(** ** Arrays of numbers *)

Lemma valtype_int n : - 2 ^ 63 <= n < 2 ^ 63 -> valtype (print_int n) = "i"%char.
Proof.
  intros Hn. unfold valtype. rewrite (rtoi_print n Hn). destruct (print_int_plain n Hn) as (Hp & Hne & _).
  destruct (print_int n) as [|x l]; [done|]. apply Forall_cons in Hp as [Hx _]. change (at_ptr (x :: l) 0) with x.
  assert (Hq : is_quote x = false /\ Ascii.eqb x "t" = false /\ Ascii.eqb x "f" = false).
  { destruct Hx as [Hx| ->]; [|done]. by_digit Hx. }
  destruct Hq as (-> & Ht & Hf). unfold toml_rtob. cbn [mbind option_bind]. unfold text_eqb.
  rewrite bool_decide_false by (intros [= -> _]; discriminate). rewrite bool_decide_false by (intros [= -> _]; discriminate). done.
Qed.

Definition add_int (a : toml_array) (n : Z) : toml_array :=
  mkArr (a_key a) (next_kind (a_kind a) "v")
    (match a_item a with [] => "i"%char | _ => if Ascii.eqb (a_type a) "i" then a_type a else "m"%char end)
    (a_item a ++ [IVal "i" (print_int n)]).

Definition int_array (k : text) (l : list Z) : toml_array := fold_left add_int l (mkArr (Some k) NUL NUL []).

Lemma fold_add_int l : forall a, a_key (fold_left add_int l a) = a_key a /\
  a_item (fold_left add_int l a) = a_item a ++ map (fun n => IVal "i" (print_int n)) l.
Proof.
  induction l as [|n l IH]; intros a; cbn [fold_left map]; [by rewrite app_nil_r|].
  destruct (IH (add_int a n)) as [-> ->]. split; [done|]. cbn [add_int a_item]. by rewrite <- (assoc_L (++)).
Qed.

Lemma create_int d arr a n : get_arr d arr = Some a -> - 2 ^ 63 <= n < 2 ^ 63 ->
  create_value_in_array d arr (valtype (print_int n)) (print_int n) = ok (<[arr := NArr (add_int a n)]> d).
Proof. intros Ha Hn. unfold create_value_in_array. rewrite Ha, valtype_int by done. done. Qed.

Definition rbracket_tok (r : text) : token := mkTok RBRACKET ("]"%char :: r) 1 false.

(** The first token of the elements of an array. *)
Lemma scan_ints l r : Forall (fun n => - 2 ^ 63 <= n < 2 ^ 63) l ->
  scan_token false false (print_ints l ++ "]"%char :: r) =
    Some (match l with [] => rbracket_tok r | n :: l => int_tok n (","%char :: print_ints l ++ "]"%char :: r) end).
Proof.
  intros Hl. destruct Hl as [|n l Hn _]; [done|]. unfold print_ints. cbn [flat_map]. rewrite <- !(assoc_L (++)).
  cbn [app]. rewrite scan_int by (done || by right). done.
Qed.

Lemma get_arr_insert d arr a : (arr < length d)%nat -> get_arr (<[arr := NArr a]> d) arr = Some a.
Proof. intros H. unfold get_arr. by rewrite list_lookup_insert_eq. Qed.

Lemma array_loop_ints l r : forall fuel t d cur arr a,
  Forall (fun n => - 2 ^ 63 <= n < 2 ^ 63) l -> (length l < fuel)%nat -> get_arr d arr = Some a ->
  scan_token false false (print_ints l ++ "]"%char :: NEWLINE :: r) = Some t ->
  parse_array_loop fuel (mkCtx t d cur) arr = ok (mkCtx (newline_tok r) (<[arr := NArr (fold_left add_int l a)]> d) cur).
Proof.
  induction l as [|n l IH]; intros [|fuel] t d cur arr a Hl Hf Ha Ht; cbn [length] in Hf; try lia;
    rewrite scan_ints in Ht by done; injection Ht as <-; cbn [parse_array_loop fold_left].
  - rewrite skip_other by done. cbn [rbind ok]. rewrite decide_True by done.
    rewrite (eat_to _ RBRACKET (NEWLINE :: r) true (newline_tok r)) by done.
    unfold with_tok. cbn [ctx_doc ctx_curtab]. by rewrite list_insert_id by (by apply get_arr_node).
  - apply Forall_cons in Hl as [Hn Hl]. rewrite skip_other by done. cbn [rbind ok]. rewrite decide_False by done.
    cbn [kind ctx_tok int_tok tok_kind ctx_doc]. fold (int_tok n (","%char :: print_ints l ++ "]"%char :: NEWLINE :: r)).
    rewrite tok_text_int, (create_int d arr a n) by done. cbn [rbind ok].
    pose proof Ha as Hlt%get_arr_node%lookup_lt_Some.
    rewrite (eat_to _ STRING (","%char :: print_ints l ++ "]"%char :: NEWLINE :: r) false
      (mkTok COMMA (","%char :: print_ints l ++ "]"%char :: NEWLINE :: r) 1 false)); [|done|apply drop_app_length|done].
    cbn [rbind ok]. rewrite skip_other by done. cbn [rbind ok]. rewrite decide_True by done.
    erewrite (eat_to _ COMMA (print_ints l ++ "]"%char :: NEWLINE :: r) false); [|done|done|by apply scan_ints].
    cbn [rbind ok]. unfold with_tok, with_doc. cbn [ctx_doc ctx_curtab].
    rewrite (IH fuel _ _ cur arr (add_int a n) Hl); [|lia|by apply get_arr_insert|by apply scan_ints].
    by rewrite list_insert_insert_eq.
Qed.

(** ** Lines *)

(** What reading a line [k = v] adds to table [tab], which is [t]. *)
Definition add_entry (d : doc) (tab : nat) (t : toml_table) (k : text) (v : toml_value) : doc :=
  match v with
  | VInts l => <[tab := NTab (with_arrs t (t_arr t ++ [length d]))]> d ++ [NArr (int_array k l)]
  | _ => <[tab := NTab (with_kvals t (t_kval t ++ [mkKv k (print_value v)]))]> d
  end.

(** The table is open and has no such key. *)
Definition can_add (d : doc) (tab : nat) (t : toml_table) (k : text) : Prop :=
  get_tab d tab = Some t /\ t_readonly t = false /\ check_key d t k = Some FNone.

Definition entry_rest (v : toml_value) (r : text) : text := " "%char :: "="%char :: " "%char :: print_value v ++ NEWLINE :: r.

Lemma print_entry_app k v r : print_entry k v ++ r = quote k ++ entry_rest v r.
Proof. unfold print_entry, entry_rest. rewrite <- (assoc_L (++)). cbn [app]. by rewrite <- (assoc_L (++)). Qed.

(** The array of a line, from its opening bracket. *)
Lemma array_text fuel l r t d cur arr a :
  Forall (fun n => - 2 ^ 63 <= n < 2 ^ 63) l -> (S (length l) < fuel)%nat -> get_arr d arr = Some a ->
  scan_token false false (print_value (VInts l) ++ NEWLINE :: r) = Some t ->
  kind (mkCtx t d cur) = LBRACKET /\
  parse_array fuel (mkCtx t d cur) arr = ok (mkCtx (newline_tok r) (<[arr := NArr (fold_left add_int l a)]> d) cur).
Proof.
  intros Hl Hf Ha Ht. cbn [print_value app] in Ht. rewrite <- (assoc_L (++)) in Ht. cbn in Ht. injection Ht as <-. split; [done|].
  destruct fuel as [|fuel]; [lia|]. cbn [parse_array].
  erewrite (eat_to _ LBRACKET (print_ints l ++ "]"%char :: NEWLINE :: r) false); [| |done|by apply scan_ints].
  - cbn [rbind ok]. unfold with_tok. cbn [ctx_doc ctx_curtab]. apply array_loop_ints; [done|lia|done|by apply scan_ints].
  - unfold kind. cbn [ctx_tok tok_kind]. done.
Qed.

Lemma keyval_entry fuel k v r d cur tab t :
  key_ok k -> value_ok v -> can_add d tab t k -> (match v with VInts l => length l + 2 < fuel | _ => 0 < fuel end)%nat ->
  parse_keyval fuel (mkCtx (quote_tok k (entry_rest v r)) d cur) tab = ok (mkCtx (newline_tok r) (add_entry d tab t k v) cur).
Proof.
  intros Hk Hv (Ht & Hro & Hc) Hf. destruct fuel as [|fuel]; [destruct v; lia|]. cbn [parse_keyval ctx_doc].
  rewrite Ht. cbn [deref rbind ok]. rewrite Hro. set (key := quote_tok k (entry_rest v r)).
  assert (Hkey : normalize_key key = Some k) by (by apply normalize_quote).
  rewrite (eat_to _ STRING (entry_rest v r) true (mkTok EQUAL ("="%char :: " "%char :: print_value v ++ NEWLINE :: r) 1 false));
    [|done|apply drop_app_length|done].
  cbn [rbind ok kind with_tok ctx_tok tok_kind].
  assert (Hspace : forall x, scan_token false false (" "%char :: x) = scan_token false false x) by done.
  destruct v as [s|n|l].
  3: { destruct (scan_token false false (print_value (VInts l) ++ NEWLINE :: r)) as [vt|] eqn:Ev; [|done].
    rewrite (advance_to _ (" "%char :: print_value (VInts l) ++ NEWLINE :: r) false vt) by (done || by rewrite Hspace).
    cbn [rbind ok]. unfold with_tok. cbn [ctx_doc ctx_curtab].
    set (d1 := <[tab := NTab (with_arrs t (t_arr t ++ [length d]))]> d ++ [new_arr (Some k) NUL]).
    assert (Ha : get_arr d1 (length d) = Some (mkArr (Some k) NUL NUL [])).
    { apply get_arr_node. unfold d1. by rewrite lookup_app_r, length_insert, Nat.sub_diag by (by rewrite length_insert). }
    destruct (array_text fuel l r vt d1 cur (length d) _ Hv ltac:(lia) Ha Ev) as [Hkind Hp].
    unfold kind in *. cbn [ctx_tok] in *. rewrite Hkind. unfold create_keyarray_in_table. rewrite Hkey. cbn [check rbind].
    rewrite Ht. cbn [deref rbind ok]. rewrite Hc. cbn [deref rbind ok]. unfold with_doc. cbn [ctx_tok ctx_curtab].
    fold d1. rewrite Hp. unfold d1, add_entry, int_array. do 3 f_equal.
    rewrite insert_app_r_alt by (by rewrite length_insert). by rewrite length_insert, Nat.sub_diag. }
  all: destruct (scan_scalar _ r Hv ltac:(done)) as (vt & Ev & Hvk & Hvt & Hvd);
    rewrite (advance_to _ (" "%char :: print_value _ ++ NEWLINE :: r) false vt) by (done || by rewrite Hspace);
    cbn [rbind ok]; unfold with_tok; cbn [ctx_doc ctx_curtab]; unfold kind; cbn [ctx_tok]; rewrite Hvk, Hvt;
    unfold create_keyval_in_table; rewrite Hkey; cbn [check rbind]; rewrite Ht; cbn [deref rbind ok]; rewrite Hc; cbn [deref rbind ok];
    by rewrite (advance_to _ (NEWLINE :: r) true (newline_tok r)).
Qed.

(** [p] is read to the end, from document [d] and table [cur], and gives
    [d']. *)
Definition reads (p : text) (d : doc) (cur : nat) (d' : doc) : Prop :=
  exists fuel t, scan_token true false p = Some t /\ toml_lines fuel (mkCtx t d cur) = ok d'.

Lemma reads_nil d cur : reads [] d cur d.
Proof. by exists 1%nat, (mkTok NEWLINE_TOK [] 0 true). Qed.

Lemma length_print_ints l : (length l <= length (print_ints l))%nat.
Proof. induction l as [|n l IH]; [done|]. unfold print_ints in *. cbn [flat_map length]. rewrite !length_app. cbn [length]. lia. Qed.

Lemma reads_entry k v r d cur t d' : key_ok k -> value_ok v -> can_add d cur t k ->
  reads r (add_entry d cur t k v) cur d' -> reads (print_entry k v ++ r) d cur d'.
Proof.
  intros Hk Hv Ha (fuel & t' & Ht' & Hl). exists (S fuel), (quote_tok k (entry_rest v r)). rewrite print_entry_app.
  split; [by apply scan_quote|]. cbn [toml_lines ctx_tok quote_tok tok_eof]. fold (quote_tok k (entry_rest v r)).
  unfold toml_line. cbn [kind ctx_tok quote_tok tok_kind ctx_curtab]. fold (quote_tok k (entry_rest v r)).
  rewrite keyval_entry with (t := t); [|done|done|done|].
  - cbn [rbind ok]. rewrite decide_False by (intros H; by apply H).
    by rewrite (eat_to _ NEWLINE_TOK r true t').
  - unfold text_left, quote_tok. cbn [tok_ptr]. rewrite length_app. unfold entry_rest. cbn [length].
    destruct v as [s|n|l]; try lia. cbn [print_value app length]. rewrite !length_app. pose proof (length_print_ints l). cbn [length]. lia.
Qed.

(** ** Headers *)

(** What follows the first key of a path, up to its bracket. *)
Definition path_rest (path : list text) (r : text) : text :=
  match path with [] => "]"%char :: r | k :: p => "."%char :: print_path k p ++ "]"%char :: r end.

Lemma print_path_app k path r : print_path k path ++ "]"%char :: r = quote k ++ path_rest path r.
Proof. destruct path; cbn [print_path path_rest]; [done|]. by rewrite <- (assoc_L (++)). Qed.

Lemma path_rest_head path r : at_ptr (path_rest path r) 0 <> QUOTE.
Proof. by destruct path. Qed.

Lemma fill_path path : forall k r room d cur tp, key_ok k -> Forall key_ok path -> (length path < room)%nat ->
  exists toks z kz,
    fill_loop room (mkCtx (quote_tok k (path_rest path r)) d cur) tp
      = ok (tp ++ toks ++ [(kz, z)], mkCtx (rbracket_tok r) d cur) /\
    map fst toks ++ [kz] = k :: path /\ normalize_key z = Some kz.
Proof.
  induction path as [|k' path IH]; intros k r [|room] d cur tp Hk Hp Hr; cbn [length] in Hr; try lia; cbn [fill_loop];
    rewrite decide_False by (intros H; by apply H); cbn [ctx_tok];
    rewrite normalize_quote by (done || apply path_rest_head); cbn [check rbind].
  - rewrite (advance_to _ ("]"%char :: r) true (rbracket_tok r)); [|apply drop_app_length|done]. cbn [rbind ok].
    exists [], (quote_tok k ("]"%char :: r)), k. split; [done|]. split; [done|by apply normalize_quote].
  - apply Forall_cons in Hp as [Hk' Hp].
    set (more := path_rest path r). assert (Hmore : at_ptr more 0 <> QUOTE) by apply path_rest_head.
    cbn [path_rest]. rewrite print_path_app. fold more.
    rewrite (advance_to _ ("."%char :: quote k' ++ more) true (mkTok DOT ("."%char :: quote k' ++ more) 1 false));
      [|apply drop_app_length|done].
    cbn [rbind ok]. unfold kind. cbn [ctx_tok with_tok tok_kind].
    rewrite (advance_to _ (quote k' ++ more) true (quote_tok k' more)) by (done || by apply scan_quote). cbn [rbind ok].
    unfold with_tok. cbn [ctx_doc ctx_curtab].
    destruct (IH k' r room d cur (tp ++ [(k, quote_tok k ("."%char :: quote k' ++ more))]) Hk' Hp ltac:(lia))
      as (toks & z & kz & Hfill & Hkeys & Hz).
    exists ((k, quote_tok k ("."%char :: quote k' ++ more)) :: toks), z, kz.
    split; [|split; [cbn [map app fst]; by rewrite Hkeys|done]]. fold more in Hfill. rewrite Hfill. by rewrite <- (assoc_L (++)).
Qed.

(** The table a header opens: the last key, in the table the others lead to. *)
Definition add_table (d : doc) (tab : nat) (t : toml_table) (k : text) (implicit : bool) : doc :=
  <[tab := NTab (with_tabs t (t_tab t ++ [length d]))]> d ++ [new_tab (Some k) implicit].

Lemma reads_header k path keys kz r d cur cur1 d1 t d' : key_ok k -> Forall key_ok path -> (length path < 10)%nat ->
  k :: path = keys ++ [kz] -> walk_tabpath d 0 keys = ok (cur1, d1) ->
  get_tab d1 cur1 = Some t -> check_key d1 t kz = Some FNone ->
  reads r (add_table d1 cur1 t kz false) (length d1) d' -> reads (print_header k path ++ r) d cur d'.
Proof.
  intros Hk Hp Hlen Hkeys Hwalk Ht Hc (fuel & t' & Ht' & Hl).
  set (more := path_rest path (NEWLINE :: r)). assert (Hmore : at_ptr more 0 <> QUOTE) by apply path_rest_head.
  assert (Hpath : print_header k path ++ r = "["%char :: quote k ++ more).
  { unfold print_header. cbn [app]. rewrite <- (assoc_L (++)). cbn [app]. f_equal. apply print_path_app. }
  set (lb := mkTok LBRACKET ("["%char :: quote k ++ more) 1 false).
  exists (S (S fuel)), lb. rewrite Hpath. split; [done|]. cbn [toml_lines ctx_tok lb tok_eof]. fold lb.
  unfold toml_line at 1. cbn [kind ctx_tok lb tok_kind]. fold lb. unfold parse_select. change (next_is (ctx_tok _) "[") with false.
  rewrite (eat_to _ LBRACKET (quote k ++ more) true (quote_tok k more)) by (done || by apply scan_quote). cbn [rbind ok].
  unfold fill_tabpath, with_tok. cbn [ctx_doc ctx_curtab].
  destruct (fill_path path k (NEWLINE :: r) 10 d cur [] Hk Hp Hlen) as (toks & z & kz' & Hfill & Hks & Hz).
  fold more in Hfill. rewrite Hfill. cbn [rbind ok app]. rewrite last_snoc, removelast_last.
  rewrite <- Hks in Hkeys. apply app_inj_tail in Hkeys as [-> ->]. cbn [ctx_doc]. rewrite Hwalk. cbn [rbind ok].
  unfold select_table. cbn [negb]. unfold create_keytable_in_table. rewrite Hz. cbn [check rbind]. rewrite Ht. cbn [deref rbind ok].
  rewrite Hc. cbn [deref rbind ok ctx_tok]. rewrite decide_False by (intros H; by apply H).
  rewrite (eat_to _ RBRACKET (NEWLINE :: r) true (newline_tok r)) by done. cbn [rbind ok].
  rewrite decide_False by (intros H; by apply H). cbn [rbind ok with_tok ctx_tok newline_tok tok_eof]. fold (newline_tok r).
  unfold toml_line. cbn [kind ctx_tok newline_tok tok_kind]. fold (newline_tok r).
  rewrite (advance_to _ r true t') by done. cbn [rbind ok]. exact Hl.
Qed.

(** ** The whole text *)

Lemma lines_mono f : forall f' c r, toml_lines f c = Some r -> (f <= f')%nat -> toml_lines f' c = Some r.
Proof.
  induction f as [|f IH]; intros [|f'] c r H Hf; try done; [lia|]. cbn [toml_lines] in *.
  destruct (tok_eof (ctx_tok c)); [done|]. destruct (toml_line c) as [[c'|]|]; [|done|done]. cbn [rbind] in *. apply IH; [done|lia].
Qed.

Lemma reads_parse p d : reads p [root_table] 0 d -> toml_parse p = ok d.
Proof.
  intros (fuel & t & Ht & Hl). pose proof (parse_ok p) as Htot. destruct (toml_parse p) as [r|] eqn:Ep; [|done].
  unfold toml_parse in Ep. apply (lines_mono _ (length p + 2 + S fuel)) in Ep; [|lia].
  assert (Hs : toml_lines (S fuel) (mkCtx (mkTok NEWLINE_TOK p 0 false) [root_table] 0) = Some (Some d)).
  { cbn [toml_lines ctx_tok tok_eof]. unfold toml_line. cbn [kind ctx_tok tok_kind].
    rewrite (advance_to _ p true t) by done. cbn [rbind ok]. exact Hl. }
  apply (lines_mono _ (length p + 2 + S fuel)) in Hs; [|lia]. rewrite Hs in Ep. by simplify_eq.
Qed.
End Reading.

(** ** Tables of strings and numbers *)

(** A section: its name and its lines, strings and numbers only. *)
Definition entries : Type := list (text * toml_value).

Definition scalar (v : toml_value) : Prop := match v with VInts _ => False | _ => value_ok v end.

Lemma scalar_ok v : scalar v -> value_ok v.
Proof. by destruct v. Qed.

Definition kvals_of (es : entries) : list toml_keyval := map (fun e => mkKv e.1 (print_value e.2)) es.

Definition print_entries (es : entries) : text := flat_map (fun e => print_entry e.1 e.2) es.

Definition entries_ok (es : entries) : Prop := Forall (fun e => key_ok e.1 /\ scalar e.2) es /\ NoDup (map fst es).

(** The sections [[g.name]], in order. *)
Definition print_group (g : text) (secs : list (text * entries)) : text :=
  flat_map (fun s => print_header g [s.1] ++ print_entries s.2) secs.

Definition sec_node (s : text * entries) : node := NTab (mkTab (Some s.1) false false (kvals_of s.2) [] []).

Lemma find_kval_none l k : k ∉ map kv_key l -> find_kval l k = None.
Proof.
  intros Hk. unfold find_kval. destruct (list_find _ l) as [[i kv]|] eqn:E; [|done].
  apply list_find_Some in E as (Hi & Hkey & _). destruct Hk. apply list_elem_of_fmap. exists kv. split; [done|].
  by eapply list_elem_of_lookup_2.
Qed.

Lemma find_child_none (d : doc) ids k :
  Forall (fun i => exists n k', d !! i = Some n /\ node_key n = Some k' /\ k' <> k) ids -> find_child d ids k = Some None.
Proof.
  induction 1 as [|i ids (n & k' & Hn & Hk & Hne) _ IH]; [done|]. cbn [find_child]. rewrite Hn. cbn [mbind option_bind].
  rewrite Hk. cbn [mbind option_bind]. unfold text_eqb. by rewrite bool_decide_false by congruence.
Qed.

Lemma find_child_skip (d : doc) pre ids k :
  Forall (fun i => exists n k', d !! i = Some n /\ node_key n = Some k' /\ k' <> k) pre ->
  find_child d (pre ++ ids) k = find_child d ids k.
Proof.
  induction 1 as [|i pre (n & k' & Hn & Hk & Hne) _ IH]; [done|]. cbn [app find_child]. rewrite Hn. cbn [mbind option_bind].
  rewrite Hk. cbn [mbind option_bind]. unfold text_eqb. by rewrite bool_decide_false by congruence.
Qed.

Lemma find_child_here (d : doc) i ids k n : d !! i = Some n -> node_key n = Some k -> find_child d (i :: ids) k = Some (Some i).
Proof.
  intros Hn Hk. cbn [find_child]. rewrite Hn. cbn [mbind option_bind]. rewrite Hk. cbn [mbind option_bind].
  unfold text_eqb. by rewrite bool_decide_true.
Qed.

Section Groups.
Context `{D : Strtod}.

Lemma reads_entries es : forall r d cur t d', Forall (fun e => key_ok e.1 /\ scalar e.2) es ->
  get_tab d cur = Some t -> t_readonly t = false -> t_arr t = [] -> t_tab t = [] ->
  NoDup (map kv_key (t_kval t) ++ map fst es) ->
  reads r (<[cur := NTab (with_kvals t (t_kval t ++ kvals_of es))]> d) cur d' -> reads (print_entries es ++ r) d cur d'.
Proof.
  induction es as [|[k v] es IH]; intros r d cur t d' Hes Ht Hro Ha Htab Hnd Hr.
  - cbn [print_entries flat_map app kvals_of map] in *. rewrite app_nil_r in Hr.
    rewrite list_insert_id in Hr; [done|]. apply get_tab_node in Ht. rewrite Ht. by destruct t.
  - apply Forall_cons in Hes as [[Hk Hv] Hes]. cbn [fst snd] in *. cbn [print_entries flat_map fst snd]. rewrite <- (assoc_L (++)).
    assert (Hnot : k ∉ map kv_key (t_kval t)).
    { apply NoDup_app in Hnd as (_ & Hd & _). intros Hin. apply (Hd k Hin). cbn [map fst]. apply elem_of_cons. by left. }
    apply (reads_entry k v _ d cur t); [done|by destruct v|..].
    + split; [done|]. split; [done|]. unfold check_key. rewrite find_kval_none, Ha, Htab by done. done.
    + fold (print_entries es). pose proof Ht as Hlt%get_tab_node%lookup_lt_Some.
      assert (Hadd : add_entry d cur t k v = <[cur := NTab (with_kvals t (t_kval t ++ [mkKv k (print_value v)]))]> d) by (by destruct v).
      rewrite Hadd. apply (IH r _ cur (with_kvals t (t_kval t ++ [mkKv k (print_value v)]))); try done.
      * apply get_tab_node. by rewrite list_lookup_insert_eq.
      * cbn [t_kval with_kvals]. rewrite map_app, <- (assoc_L (++)). exact Hnd.
      * rewrite list_insert_insert_eq. cbn [t_kval with_kvals]. rewrite <- (assoc_L (++)). exact Hr.
Qed.

(** The document after the sections [done] of a group whose table is the
    first node after [base]. *)
Definition group_doc (base : doc) (g : text) (secs : list (text * entries)) : doc :=
  base ++ NTab (mkTab (Some g) true false [] [] (seq (S (length base)) (length secs))) :: (sec_node <$> secs).

Lemma group_tab base g secs :
  get_tab (group_doc base g secs) (length base) = Some (mkTab (Some g) true false [] [] (seq (S (length base)) (length secs))).
Proof. apply get_tab_node. unfold group_doc. by rewrite lookup_app_r, Nat.sub_diag by done. Qed.

Lemma group_sec base g secs j s : secs !! j = Some s -> group_doc base g secs !! (S (length base) + j)%nat = Some (sec_node s).
Proof.
  intros Hj. unfold group_doc. rewrite lookup_app_r by lia. replace (S (length base) + j - length base)%nat with (S j) by lia.
  change ((sec_node <$> secs) !! j = Some (sec_node s)). by rewrite list_lookup_fmap, Hj.
Qed.

(** The sections before and after one of another name. *)
Lemma group_others base g secs k : k ∉ map fst secs -> forall j m, (j + m <= length secs)%nat ->
  Forall (fun i => exists n k', group_doc base g secs !! i = Some n /\ node_key n = Some k' /\ k' <> k) (seq (S (length base) + j) m).
Proof.
  intros Hk j m Hjm. apply Forall_forall. intros i Hi%elem_of_seq.
  destruct (lookup_lt_is_Some_2 secs (i - S (length base))) as [s Hs]; [lia|].
  exists (sec_node s), s.1. split; [rewrite <- (group_sec base g secs _ s Hs); f_equal; lia|]. split; [done|].
  intros <-. apply Hk. apply list_elem_of_fmap. exists s. split; [done|]. by eapply list_elem_of_lookup_2.
Qed.

Lemma length_group base g secs : length (group_doc base g secs) = (S (length base) + length secs)%nat.
Proof. unfold group_doc. rewrite length_app. cbn [length]. rewrite length_fmap. lia. Qed.

(** One section more. *)
Lemma reads_section base g secs s r d cur d' :
  key_ok g -> key_ok s.1 -> entries_ok s.2 -> s.1 ∉ map fst secs ->
  walk_tabpath d 0 [g] = ok (length base, group_doc base g secs) ->
  (forall cur, reads r (group_doc base g (secs ++ [s])) cur d') ->
  reads (print_header g [s.1] ++ print_entries s.2 ++ r) d cur d'.
Proof.
  intros Hg Hs [Hes Hnd] Hnew Hwalk Hr. set (E := group_doc base g secs) in *.
  pose proof (group_tab base g secs) as Htab. fold E in Htab.
  set (tg := mkTab (Some g) true false [] [] (seq (S (length base)) (length secs))) in *.
  apply (reads_header g [s.1] [g] s.1 _ d cur (length base) E tg); try done; [by apply Forall_singleton|cbn; lia|..].
  - unfold check_key. cbn [t_kval t_arr t_tab tg find_kval list_find find_child mbind option_bind].
    pose proof (group_others base g secs s.1 Hnew 0 (length secs)) as Ho. rewrite Nat.add_0_r in Ho.
    fold E in Ho. by rewrite (find_child_none _ _ _ (Ho ltac:(lia))).
  - assert (Hlast : get_tab (add_table E (length base) tg s.1 false) (length E) = Some (mkTab (Some s.1) false false [] [] [])).
    { apply get_tab_node. unfold add_table. by rewrite lookup_app_r, length_insert, Nat.sub_diag by (by rewrite length_insert). }
    apply (reads_entries s.2 r _ _ _ d' Hes Hlast); try done.
    assert (Heq : <[length E := NTab (with_kvals (mkTab (Some s.1) false false [] [] []) (kvals_of s.2))]>
        (add_table E (length base) tg s.1 false) = group_doc base g (secs ++ [s])); [|cbn [t_kval app]; by rewrite Heq].
    unfold add_table. rewrite insert_app_r_alt by (by rewrite length_insert). rewrite length_insert, Nat.sub_diag.
    unfold E at 2, group_doc. rewrite insert_app_r_alt by done. rewrite Nat.sub_diag. cbn [insert list_insert].
    rewrite <- (assoc_L (++)). cbn [app]. unfold E. rewrite length_group, length_app, fmap_app, seq_app. done.
Qed.

(** ** Documents made of sections *)

Definition root_of (ids : list nat) : toml_table := mkTab None false false [] [] ids.

(** The tables of the root, with their keys. *)
Definition sections (d : doc) (l : list (nat * text)) : Prop :=
  get_tab d 0 = Some (root_of (map fst l)) /\ Forall (fun s => exists n, d !! s.1 = Some n /\ node_key n = Some s.2) l.

Lemma sections_none d l k : sections d l -> k ∉ map snd l -> find_child d (map fst l) k = Some None.
Proof.
  intros [_ Hl] Hk. apply find_child_none. apply Forall_fmap. eapply Forall_impl; [|intros s Hs; exact Hs].
  rewrite Forall_forall in *. intros [i k'] Hs. destruct (Hl _ Hs) as (n & Hn & Hkey). exists n, k'. split; [done|]. split; [done|].
  intros ->. apply Hk. apply list_elem_of_fmap. by exists (i, k).
Qed.

Lemma sections_find d pre i k post : sections d (pre ++ (i, k) :: post) -> k ∉ map snd pre ->
  find_child d (map fst (pre ++ (i, k) :: post)) k = Some (Some i).
Proof.
  intros [_ Hl] Hk. apply Forall_app in Hl as [Hpre Hl]. apply Forall_cons in Hl as [(n & Hn & Hkey) _]. cbn [fst snd] in *.
  rewrite map_app, find_child_skip.
  - cbn [map fst]. by apply (find_child_here _ _ _ _ n).
  - apply Forall_fmap. eapply Forall_impl; [|intros s Hs; exact Hs].
    rewrite Forall_forall in *. intros [j k'] Hs. destruct (Hpre _ Hs) as (m & Hm & Hkey'). exists m, k'. split; [done|].
    split; [done|]. intros ->. apply Hk. apply list_elem_of_fmap. by exists (j, k).
Qed.

(** The document with one group more, and the document the group starts
    from. *)
Definition group_base (d : doc) (l : list (nat * text)) : doc := <[0%nat := NTab (root_of (map fst l ++ [length d]))]> d.
Definition add_group (d : doc) (l : list (nat * text)) (g : text) (secs : list (text * entries)) : doc :=
  group_doc (group_base d l) g secs.

Lemma length_group_base d l : length (group_base d l) = length d.
Proof. unfold group_base. apply length_insert. Qed.

Lemma add_group_old d l g secs i : (i < length d)%nat -> i <> 0%nat -> add_group d l g secs !! i = d !! i.
Proof.
  intros Hi Hne. unfold add_group, group_doc. rewrite lookup_app_l by (by rewrite length_group_base).
  unfold group_base. by rewrite list_lookup_insert_ne by done.
Qed.

Lemma sections_group d l g secs : sections d l -> sections (add_group d l g secs) (l ++ [(length d, g)]).
Proof.
  intros [Hr Hl]. pose proof Hr as Hlt%get_tab_node%lookup_lt_Some. split.
  - apply get_tab_node. unfold add_group, group_doc. rewrite lookup_app_l by (by rewrite length_group_base).
    unfold group_base. rewrite list_lookup_insert_eq by done. by rewrite map_app.
  - apply Forall_app. split.
    + eapply Forall_impl; [exact Hl|]. intros [i k] (n & Hn & Hk). cbn [fst snd] in *. exists n. split; [|done].
      rewrite add_group_old; [done|by eapply lookup_lt_Some|]. intros ->. apply get_tab_node in Hr. rewrite Hr in Hn. by simplify_eq/=.
    + apply Forall_singleton. cbn [fst snd]. eexists. split.
      * unfold add_group, group_doc. rewrite lookup_app_r by (rewrite length_group_base; lia).
        rewrite length_group_base, Nat.sub_diag. reflexivity.
      * done.
Qed.

(** The way to a group from the root: new, or there. *)
Lemma walk_new d l g : sections d l -> g ∉ map snd l -> walk_tabpath d 0 [g] = ok (length d, add_group d l g []).
Proof.
  intros Hs Hg. pose proof Hs as [Hr _]. cbn [walk_tabpath]. rewrite Hr. cbn [deref rbind ok]. unfold check_key.
  cbn [root_of t_kval t_arr t_tab find_kval list_find find_child mbind option_bind].
  rewrite (sections_none d l g Hs Hg). cbn [mbind option_bind deref rbind ok].
  unfold add_group, group_doc. by rewrite length_group_base.
Qed.

Lemma walk_there d l g secs : sections d l -> g ∉ map snd l ->
  walk_tabpath (add_group d l g secs) 0 [g] = ok (length d, add_group d l g secs).
Proof.
  intros Hs Hg. pose proof (sections_group d l g secs Hs) as Hs'. pose proof Hs' as [Hr _]. cbn [walk_tabpath].
  rewrite Hr. cbn [deref rbind ok]. unfold check_key.
  cbn [root_of t_kval t_arr t_tab find_kval list_find find_child mbind option_bind].
  by rewrite (sections_find _ l (length d) g [] Hs' Hg).
Qed.

Lemma reads_group_rest d l g r d' : sections d l -> g ∉ map snd l -> key_ok g -> forall secs front cur,
  Forall (fun s => key_ok s.1 /\ entries_ok s.2) secs -> NoDup (map fst (front ++ secs)) ->
  (forall cur, reads r (add_group d l g (front ++ secs)) cur d') ->
  reads (print_group g secs ++ r) (add_group d l g front) cur d'.
Proof.
  intros Hs Hg Hgk. induction secs as [|s secs IH]; intros front cur Hok Hnd Hr.
  - cbn [print_group flat_map app]. rewrite app_nil_r in Hr. apply Hr.
  - apply Forall_cons in Hok as [[Hk Hes] Hok]. cbn [print_group flat_map]. rewrite <- !(assoc_L (++)).
    apply (reads_section (group_base d l) g front); try done.
    + rewrite map_app in Hnd. apply NoDup_app in Hnd as (_ & Hd & _). intros Hin. apply (Hd _ Hin). cbn [map].
      apply elem_of_cons. by left.
    + rewrite length_group_base. by apply walk_there.
    + intros cur'. apply (IH (front ++ [s])); [done|by rewrite <- (assoc_L (++))|]. by rewrite <- (assoc_L (++)).
Qed.

Lemma reads_group d l g secs r d' cur : sections d l -> g ∉ map snd l -> key_ok g -> secs <> [] ->
  Forall (fun s => key_ok s.1 /\ entries_ok s.2) secs -> NoDup (map fst secs) ->
  (forall cur, reads r (add_group d l g secs) cur d') -> reads (print_group g secs ++ r) d cur d'.
Proof.
  intros Hs Hg Hgk Hne Hok Hnd Hr. destruct secs as [|s secs]; [done|].
  apply Forall_cons in Hok as [[Hk Hes] Hok]. cbn [print_group flat_map]. rewrite <- !(assoc_L (++)).
  apply (reads_section (group_base d l) g []); try done; [apply not_elem_of_nil|rewrite length_group_base; by apply walk_new|].
  intros cur'. by apply (reads_group_rest d l g r d' Hs Hg Hgk secs [s]).
Qed.

(** ** Reading a group *)

(** The table of a group. *)
Definition group_table (L : nat) (g : text) (secs : list (text * entries)) : toml_table :=
  mkTab (Some g) true false [] [] (seq (S L) (length secs)).

(** Group [g] is at node [L] of [d], its sections after it. *)
Definition holds_group (d : doc) (L : nat) (g : text) (secs : list (text * entries)) : Prop :=
  get_tab d L = Some (group_table L g secs) /\ forall j s, secs !! j = Some s -> d !! (S L + j)%nat = Some (sec_node s).

Lemma group_holds d l g secs : holds_group (add_group d l g secs) (length d) g secs.
Proof.
  unfold add_group. rewrite <- (length_group_base d l). split; [apply group_tab|]. intros j s. apply group_sec.
Qed.

Lemma holds_later d d' L g secs : holds_group d L g secs -> L <> 0%nat ->
  (forall i, (i < length d)%nat -> i <> 0%nat -> d' !! i = d !! i) -> holds_group d' L g secs.
Proof.
  intros [Ht Hs] HL Hd. split.
  - apply get_tab_node. apply get_tab_node in Ht. rewrite Hd; [done|by eapply lookup_lt_Some|done].
  - intros j s Hj. specialize (Hs j s Hj). rewrite Hd; [done|by eapply lookup_lt_Some|lia].
Qed.

Lemma group_key d L g secs j s : holds_group d L g secs -> secs !! j = Some s -> NoDup (map fst secs) ->
  toml_key_in d (group_table L g secs) j = Some (Some s.1) /\
  toml_table_in d (group_table L g secs) s.1 = Some (Some (S L + j)%nat) /\
  get_tab d (S L + j) = Some (mkTab (Some s.1) false false (kvals_of s.2) [] []).
Proof.
  intros [Ht Hsecs] Hj Hnd. pose proof (Hsecs _ _ Hj) as Hsec. pose proof (lookup_lt_Some _ _ _ Hj) as Hlt.
  split; [|split].
  - unfold toml_key_in. cbn [t_kval t_arr t_tab group_table lookup list_lookup length]. rewrite !Nat.sub_0_r.
    rewrite (lookup_seq_lt (S L) (length secs) j) by done. rewrite Hsec. done.
  - unfold toml_table_in, group_table. cbn [t_tab].
    replace (length secs) with (j + S (length secs - S j))%nat by lia. rewrite seq_app. cbn [seq].
    rewrite find_child_skip; [by apply (find_child_here _ _ _ _ (sec_node s))|].
    apply Forall_forall. intros i Hi%elem_of_seq. destruct (lookup_lt_is_Some_2 secs (i - S L)) as [s' Hs']; [lia|].
    pose proof (Hsecs _ s' Hs') as Hn. replace (S L + (i - S L))%nat with i in Hn by lia.
    exists (sec_node s'), s'.1. split; [exact Hn|]. split; [done|]. intros Heq.
    assert (i - S L = j)%nat; [|lia]. apply (NoDup_lookup (map fst secs) _ _ s.1 Hnd).
    + change (map fst secs) with (fst <$> secs). by rewrite list_lookup_fmap, Hs', <- Heq.
    + change (map fst secs) with (fst <$> secs). by rewrite list_lookup_fmap, Hj.
  - by apply get_tab_node.
Qed.

(** ** Printed text has no terminator *)

Lemma quote_no_zero s : no_char Ascii.zero (quote s).
Proof.
  unfold quote. constructor; [done|]. apply no_char_app; [|by constructor].
  induction s as [|c s IH]; [constructor|]. cbn [flat_map]. apply no_char_app; [|done].
  destruct c as [[] [] [] [] [] [] [] []]; vm_compute; repeat constructor.
Qed.

Lemma int_no_zero n : - 2 ^ 63 <= n < 2 ^ 63 -> no_char Ascii.zero (print_int n).
Proof.
  intros Hn. destruct (print_int_plain n Hn) as (Hp & _). eapply Forall_impl; [exact Hp|].
  intros c [Hc| ->]; [|done]. by destruct (digit_not_special c Hc) as (_ & _ & _ & _ & _ & ? & _).
Qed.

Lemma value_no_zero v : value_ok v -> no_char Ascii.zero (print_value v).
Proof.
  intros Hv. destruct v as [s|n|l]; [apply quote_no_zero|by apply int_no_zero|]. cbn [print_value].
  constructor; [done|]. apply no_char_app; [|by constructor]. cbn [value_ok] in Hv.
  induction Hv as [|n l Hn _ IH]; [constructor|]. unfold print_ints in *. cbn [flat_map].
  apply no_char_app; [|done]. apply no_char_app; [by apply int_no_zero|by constructor].
Qed.

Lemma entry_no_zero k v : value_ok v -> no_char Ascii.zero (print_entry k v).
Proof.
  intros Hv. unfold print_entry. apply no_char_app; [apply quote_no_zero|]. do 3 (constructor; [done|]).
  apply no_char_app; [by apply value_no_zero|by constructor].
Qed.

Lemma header_no_zero k path : no_char Ascii.zero (print_header k path).
Proof.
  unfold print_header. constructor; [done|]. apply no_char_app; [|by repeat constructor].
  revert k. induction path as [|k' path IH]; intros k; cbn [print_path]; [apply quote_no_zero|].
  apply no_char_app; [apply quote_no_zero|]. constructor; [done|apply IH].
Qed.

Lemma entries_no_zero es : Forall (fun e => key_ok e.1 /\ scalar e.2) es -> no_char Ascii.zero (print_entries es).
Proof.
  induction 1 as [|[k v] es [_ Hv] _ IH]; [constructor|]. cbn [print_entries flat_map fst snd] in *.
  apply no_char_app; [by apply entry_no_zero, scalar_ok|done].
Qed.

Lemma group_no_zero g secs : Forall (fun s => key_ok s.1 /\ entries_ok s.2) secs -> no_char Ascii.zero (print_group g secs).
Proof.
  induction 1 as [|s secs [_ [Hes _]] _ IH]; [constructor|]. cbn [print_group flat_map].
  apply no_char_app; [|done]. apply no_char_app; [apply header_no_zero|by apply entries_no_zero].
Qed.
End Groups.
