(* ===== verification/TomlConf.v ===== *)
(** * TomlConf: the configuration of the servers in a TOML file

    [parse_conf_toml] of [src/src/dspaces-conf.c], in the build without
    curl, and the choice of the parser by [dsg_alloc] of
    [src/src/dspaces-server.c].  A variable read before it is set, a null
    string and a write past an array are undefined ([None]). *)

From Stdlib Require Import Ascii.
From S2P Require Import Prelude BBox ObjDesc Linear Sspace DhtEntry StrHash LocalStorage Matrix Codec Modules Server Conf Toml TomlLex TomlDoc TomlParse TomlPrint.

(** ** Fields of a table *)

(** [*i] before and after. *)
Definition get_toml_int (d : doc) (t : toml_table) (key : text) (i : option Z) : option (option Z) :=
  e ← toml_key_exists d t key; Some (if e : bool then Some (i32 (snd (toml_int_in t key))) else i).

Definition get_toml_double `{D : Strtod} (d : doc) (t : toml_table) (key : text) (v : option SpecFloat.spec_float) :
    option (option SpecFloat.spec_float) :=
  e ← toml_key_exists d t key; Some (if e : bool then Some (snd (toml_double_in t key)) else v).

(** [strdup] of a null string is undefined. *)
Definition get_toml_str (d : doc) (t : toml_table) (key : text) (str : option text) : option (option text) :=
  e ← toml_key_exists d t key;
  if e : bool then s ← toml_string_in t key; Some (Some s) else Some str.

(** The loop over the elements: [vals] has ten. *)
Fixpoint arr_ui64_loop (i : nat) (items : list toml_arritem) (vals : coord) : option (nat * coord) :=
  match items with
  | [] => Some (i, vals)
  | it :: items =>
      let '(ok, n) := toml_rtoi (match it with IVal _ v => Some v | _ => None end) in
      if negb ok then Some (i, vals)
      else if (i <? BBOX_MAX_NDIM)%nat then arr_ui64_loop (S i) items (cset vals i (u64 n)) else None
  end.

Definition get_toml_arr_ui64 (d : doc) (t : toml_table) (key : text) (vals : coord) : option (nat * coord) :=
  r ← toml_array_in d t key;
  match r with
  | None => Some (0%nat, vals)
  | Some i => a ← get_arr d i; arr_ui64_loop 0 (a_item a) vals
  end.

(** The table of that name; undefined when there is none. *)
Definition sub_table (d : doc) (t : toml_table) (key : text) : option toml_table :=
  r ← toml_table_in d t key; i ← r; get_tab d i.

(** The name of the [i]-th key and its table. *)
Definition named_table (d : doc) (t : toml_table) (i : nat) : option (text * toml_table) :=
  k ← toml_key_in d t i; name ← k; s ← sub_table d t name; Some (name, s).

(** ** The remotes *)

(** [struct remote]: name and [addr_str]. *)
Record remote := mkRemote { rm_name : text; rm_addr_str : text }.

Definition ADDR_STR_LEN : nat := 128.

(** The round for each remote; [ip] points to freed memory after a round,
    [port] keeps its value. *)
Fixpoint remotes_loop (d : doc) (remotes : toml_table) (idxs : list nat) (port : option Z) : option (list remote) :=
  match idxs with
  | [] => Some []
  | i :: idxs =>
      '(name, t) ← named_table d remotes i;
      ip ← get_toml_str d t (txt "ip") None;
      port ← get_toml_int d t (txt "port") port;
      ip ← ip;
      p ← port;
      let addr_str := ip ++ ":"%char :: print_int p in
      if (length addr_str <? ADDR_STR_LEN)%nat then
        l ← remotes_loop d remotes idxs port; Some (mkRemote name addr_str :: l)
      else None
  end.

Definition parse_remotes_table (d : doc) (remotes : toml_table) : option (list remote) :=
  remotes_loop d remotes (seq 0 (toml_table_ntab remotes)) None.

(** ** The storage directories *)

(** [struct dspaces_dir]: the last names are first in [files];
    [None] for a field that is not set. *)
Record dspaces_dir := mkDir {
  dir_name : text;
  dir_path : option text;
  dir_all : bool;
  dir_files : option (list text)
}.

Fixpoint files_loop (a : toml_array) (js : list nat) (files : list text) : option (list text) :=
  match js with
  | [] => Some files
  | j :: js => s ← toml_string_at a j; files_loop a js (s :: files)
  end.

Fixpoint storage_loop (d : doc) (storage : toml_table) (idxs : list nat) : option (list dspaces_dir) :=
  match idxs with
  | [] => Some []
  | i :: idxs =>
      '(name, t) ← named_table d storage i;
      path ← get_toml_str d t (txt "directory") None;
      r ← toml_array_in d t (txt "files");
      dir ← (match r with
             | Some j =>
                 a ← get_arr d j;
                 files ← files_loop a (seq 0 (toml_array_nelem a)) [];
                 Some (mkDir name path false (Some files))
             | None =>
                 Some (mkDir name path
                         (match toml_string_in t (txt "files") with Some s => text_eqb s (txt "all") | None => false end) None)
             end);
      l ← storage_loop d storage idxs; Some (dir :: l)
  end.

(** The directories that are allocated: nothing keeps them. *)
Definition parse_storage_table (d : doc) (storage : toml_table) : option (list dspaces_dir) :=
  storage_loop d storage (seq 0 (toml_table_ntab storage)).

(** ** The modules *)

Definition str (t : text) : string := String.string_of_list_ascii t.

(** [strrchr]: the place of the last [c]. *)
Definition strrchr (l : text) (c : ascii) : option nat :=
  (fun p => (length l - S p.1)%nat) <$> list_find (fun x => x = c) (rev l).

Definition DSPACES_MOD_PY : Z := 0.

(** One module, and whether it is added to the list. *)
Definition parse_module (d : doc) (name : text) (t : toml_table) : option (option dspaces_module) :=
  ns ← get_toml_str d t (txt "namespace") None;
  url ← get_toml_str d t (txt "url") None;
  file ← get_toml_str d t (txt "file") None;
  match file with
  | None => Some (Some (mkModule (str name) (str <$> ns) None 0))
  | Some f =>
      ext ← strrchr f ".";
      if text_eqb (drop ext f) (txt ".py") then
        Some (Some (mkModule (str name) (str <$> ns) (Some (str (take ext f))) DSPACES_MOD_PY))
      else Some None
  end.

Fixpoint modules_loop (d : doc) (modules : toml_table) (idxs : list nat) (mods : list dspaces_module) :
    option (list dspaces_module) :=
  match idxs with
  | [] => Some mods
  | i :: idxs =>
      '(name, t) ← named_table d modules i;
      m ← parse_module d name t;
      modules_loop d modules idxs (match m with Some m => m :: mods | None => mods end)
  end.

Definition parse_modules_table (d : doc) (modules : toml_table) (mods : list dspaces_module) : option (list dspaces_module) :=
  modules_loop d modules (seq 0 (toml_table_ntab modules)) mods.

(** ** The file *)

(** [struct ds_conf] with the lists it points to. *)
Record toml_conf := mkTomlConf {
  tc_raw : raw_conf;
  tc_remotes : list remote;
  tc_mods : list dspaces_module
}.

Definition parse_server_table (d : doc) (server : toml_table) (c : raw_conf) : option raw_conf :=
  '(ndim, dims) ← get_toml_arr_ui64 d server (txt "dims") (rc_dims c);
  mv ← get_toml_int d server (txt "max_versions") (Some (rc_max_versions c));
  hv ← get_toml_int d server (txt "hash_version") (Some (rc_hash_version c));
  na ← get_toml_int d server (txt "num_apps") (Some (rc_num_apps c));
  mv ← mv; hv ← hv; na ← na;
  Some (mkRawConf (Z.of_nat ndim) dims mv hv na).

(** A section that may be missing. *)
Definition optional_table {A} (d : doc) (root : toml_table) (key : text) (f : toml_table -> option A) (dflt : A) : option A :=
  r ← toml_table_in d root key;
  match r with None => Some dflt | Some i => t ← get_tab d i; f t end.

(** The document of a file that does not parse is null, and is read all the
    same: the code tests another pointer. *)
Definition read_conf_doc `{D : Strtod} (file : text) : option doc := r ← toml_parse_file file; r.

(** [inl] is the [errno] of a file that cannot be opened. *)
Definition parse_conf_toml `{D : Strtod} (file : Z + text) (conf : toml_conf) : option (toml_conf * Z) :=
  match file with
  | inl errno => Some (conf, - errno)
  | inr s =>
      d ← read_conf_doc s;
      root ← get_tab d 0;
      server ← toml_table_in d root (txt "server");
      match server with
      | None => Some (conf, -1)
      | Some i =>
          server ← get_tab d i;
          raw ← parse_server_table d server (tc_raw conf);
          remotes ← optional_table d root (txt "remotes") (parse_remotes_table d) (tc_remotes conf);
          dirs ← optional_table d root (txt "storage") (parse_storage_table d) [];
          mods ← optional_table d root (txt "modules") (fun t => parse_modules_table d t (tc_mods conf)) (tc_mods conf);
          Some (mkTomlConf raw remotes mods, 0)
      end
  end.

(** ** The choice of the parser *)

Definition is_toml_name (conf_name : text) : bool :=
  match strrchr conf_name "." with None => false | Some ext => text_eqb (drop ext conf_name) (txt ".toml") end.

(** The configuration with [num_apps], the remotes and the modules. *)
Definition dsg_alloc_conf `{D : Strtod} (conf_name : text) (file : Z + text) :
    option (Z + ds_conf * Z * list remote * list dspaces_module) :=
  '(c, err) ← (if is_toml_name conf_name then parse_conf_toml file (mkTomlConf default_conf [] [])
               else '(raw, err) ← parse_conf file default_conf; Some (mkTomlConf raw [] [], err));
  if err <? 0 then Some (inl err)
  else
    r ← check_conf (tc_raw c);
    Some (match r with inl e => inl e | inr (conf, n) => inr (conf, n, tc_remotes c, tc_mods c) end).

(** ** A printer *)

(** What a remote is in a file. *)
Record remote_spec := mkRemoteSpec { rs_name : text; rs_ip : text; rs_port : Z }.

Definition remote_sec (r : remote_spec) : text * entries :=
  (rs_name r, [(txt "ip", VStr (rs_ip r)); (txt "port", VInt (rs_port r))]).

Definition opt_entry (k : string) (o : option text) : entries := match o with Some s => [(txt k, VStr s)] | None => [] end.

Definition module_sec (m : dspaces_module) : text * entries :=
  (txt (mod_name m),
   opt_entry "namespace" (txt <$> mod_namespace m) ++ opt_entry "file" ((fun f => txt f ++ txt ".py") <$> mod_file m)).

Definition server_entries (c : raw_conf) : entries :=
  [(txt "max_versions", VInt (rc_max_versions c)); (txt "hash_version", VInt (rc_hash_version c));
   (txt "num_apps", VInt (rc_num_apps c))].

Definition toml_text (c : raw_conf) (n : nat) (remotes : list remote_spec) (mods : list dspaces_module) : text :=
  print_header (txt "server") [] ++ print_entries (server_entries c) ++ print_entry (txt "dims") (VInts (take n (rc_dims c)))
  ++ print_group (txt "remotes") (map remote_sec remotes) ++ print_group (txt "modules") (map module_sec mods).

(** What is read of a remote. *)
Definition read_remote (r : remote_spec) : remote := mkRemote (rs_name r) (rs_ip r ++ ":"%char :: print_int (rs_port r)).

(** ** The printed file is read back *)

Definition no_nul (s : text) : Prop := Forall (fun c => c <> NUL) s.

Definition remote_ok (r : remote_spec) : Prop :=
  key_ok (rs_name r) /\ no_nul (rs_ip r) /\ - 2 ^ 31 <= rs_port r < 2 ^ 31 /\ (length (rm_addr_str (read_remote r)) < ADDR_STR_LEN)%nat.

Definition module_ok (m : dspaces_module) : Prop :=
  key_ok (txt (mod_name m)) /\ mod_type m = DSPACES_MOD_PY /\
  (forall s, mod_namespace m = Some s -> no_nul (txt s)) /\ (forall s, mod_file m = Some s -> no_nul (txt s)).

Lemma c_text_no_nul s : no_nul s -> c_text s = s.
Proof. intros H. apply c_text_id. eapply Forall_impl; [exact H|]. intros c Hc. by apply Ascii.eqb_neq. Qed.

Lemma str_txt s : str (txt s) = s.
Proof. apply String.string_of_list_ascii_of_string. Qed.

(** The fields of a printed table. *)
Definition sec_table (s : text * entries) : toml_table := mkTab (Some s.1) false false (kvals_of s.2) [] [].

Lemma get_int_entry d t k n i : find_kval (t_kval t) k = Some (print_int n) -> - 2 ^ 63 <= n < 2 ^ 63 ->
  get_toml_int d t k i = Some (Some (i32 n)).
Proof.
  intros Hk Hn. unfold get_toml_int, toml_key_exists, check_key. rewrite Hk. cbn [mbind option_bind].
  unfold toml_int_in, toml_raw_in. by rewrite Hk, rtoi_print.
Qed.

Lemma get_str_entry d t k s o : find_kval (t_kval t) k = Some (quote s) -> no_nul s ->
  get_toml_str d t k o = Some (Some s).
Proof.
  intros Hk Hs. unfold get_toml_str, toml_key_exists, check_key. rewrite Hk. cbn [mbind option_bind].
  unfold toml_string_in, toml_raw_in. rewrite Hk, rtos_quote. cbn [mbind option_bind]. by rewrite c_text_no_nul.
Qed.

Lemma get_str_missing d t k o : find_kval (t_kval t) k = None -> t_arr t = [] -> t_tab t = [] ->
  get_toml_str d t k o = Some o.
Proof. intros Hk Ha Ht. unfold get_toml_str, toml_key_exists, check_key. by rewrite Hk, Ha, Ht. Qed.

Section ReadBack.
Context `{D : Strtod}.

Lemma named_group d L g secs j s : holds_group d L g secs -> secs !! j = Some s -> NoDup (map fst secs) ->
  named_table d (group_table L g secs) j = Some (s.1, sec_table s).
Proof.
  intros Hg Hj Hnd. destruct (group_key d L g secs j s Hg Hj Hnd) as (H1 & H2 & H3). unfold named_table.
  rewrite H1. cbn [mbind option_bind]. unfold sub_table. rewrite H2. cbn [mbind option_bind]. by rewrite H3.
Qed.

Lemma read_remotes d L g rs : holds_group d L g (map remote_sec rs) -> NoDup (map fst (map remote_sec rs)) ->
  Forall remote_ok rs -> parse_remotes_table d (group_table L g (map remote_sec rs)) = Some (map read_remote rs).
Proof.
  intros Hg Hnd Hok. unfold parse_remotes_table, toml_table_ntab, group_table at 2. cbn [t_tab]. rewrite length_seq, length_map.
  assert (Hgen : forall m j port, (j + m = length rs)%nat ->
    remotes_loop d (group_table L g (map remote_sec rs)) (seq j m) port = Some (map read_remote (drop j rs))).
  { induction m as [|m IH]; intros j port Hj; cbn [seq remotes_loop]; [by rewrite drop_ge by lia|].
    destruct (lookup_lt_is_Some_2 rs j) as [r Hr]; [lia|]. rewrite Forall_forall in Hok.
    destruct (Hok r) as (Hk & Hip & Hp & Hlen); [by eapply list_elem_of_lookup_2|].
    rewrite (named_group d L g _ j (remote_sec r)); [|done|by change (map remote_sec rs) with (remote_sec <$> rs); rewrite list_lookup_fmap, Hr|done].
    cbn [mbind option_bind]. rewrite (get_str_entry d (sec_table (remote_sec r)) (txt "ip") (rs_ip r)) by done.
    cbn [mbind option_bind]. rewrite (get_int_entry d (sec_table (remote_sec r)) (txt "port") (rs_port r)) by (done || lia).
    cbn [mbind option_bind]. rewrite i32_small by lia.
    change (rs_ip r ++ ":"%char :: print_int (rs_port r)) with (rm_addr_str (read_remote r)).
    destruct (Nat.ltb_spec (length (rm_addr_str (read_remote r))) ADDR_STR_LEN); [|lia].
    rewrite IH by lia. cbn [mbind option_bind]. by rewrite (drop_S rs r j Hr). }
  by rewrite Hgen.
Qed.

(** The last dot of a file name is the one of its extension. *)
Lemma strrchr_ext f : strrchr (f ++ txt ".py") "." = Some (length f).
Proof.
  unfold strrchr. rewrite rev_app_distr. change (rev (txt ".py")) with ["y"; "p"; "."]%char. cbn [app list_find].
  rewrite !decide_False, decide_True by done. cbn. f_equal. rewrite length_app. cbn. lia.
Qed.

Lemma read_module d m : module_ok m -> parse_module d (txt (mod_name m)) (sec_table (module_sec m)) = Some (Some m).
Proof.
  intros (_ & Hty & Hns & Hf). destruct m as [name ns file ty]. cbn [mod_name mod_namespace mod_file mod_type] in *. subst ty.
  unfold parse_module.
  assert (H1 : get_toml_str d (sec_table (module_sec (mkModule name ns file 0))) (txt "namespace") None = Some (txt <$> ns)).
  { destruct ns as [ns|]; [by apply get_str_entry; [|apply Hns]|]. apply get_str_missing; [by destruct file|done|done]. }
  assert (H2 : get_toml_str d (sec_table (module_sec (mkModule name ns file 0))) (txt "url") None = Some None).
  { apply get_str_missing; [by destruct ns, file|done|done]. }
  assert (H3 : get_toml_str d (sec_table (module_sec (mkModule name ns file 0))) (txt "file") None
               = Some ((fun f => txt f ++ txt ".py") <$> file)).
  { destruct file as [f|]; [|apply get_str_missing; [by destruct ns|done|done]].
    apply get_str_entry; [by destruct ns|]. apply Forall_app. split; [by apply Hf|by repeat constructor]. }
  unfold DSPACES_MOD_PY in *. rewrite H1. cbn [mbind option_bind]. rewrite H2. cbn [mbind option_bind]. rewrite H3. cbn [mbind option_bind].
  assert (Hsn : str <$> (txt <$> ns) = ns) by (destruct ns; cbn; by rewrite ?str_txt). rewrite str_txt, Hsn.
  destruct file as [f|]; [|done]. cbn [fmap option_fmap option_map].
  rewrite strrchr_ext. cbn [mbind option_bind]. rewrite drop_app_length, take_app_length, str_txt. done.
Qed.

Lemma read_modules d L g ms : holds_group d L g (map module_sec ms) -> NoDup (map fst (map module_sec ms)) ->
  Forall module_ok ms -> parse_modules_table d (group_table L g (map module_sec ms)) [] = Some (rev ms).
Proof.
  intros Hg Hnd Hok. unfold parse_modules_table, toml_table_ntab, group_table at 2. cbn [t_tab]. rewrite length_seq, length_map.
  assert (Hgen : forall m j mods, (j + m = length ms)%nat ->
    modules_loop d (group_table L g (map module_sec ms)) (seq j m) mods = Some (rev (drop j ms) ++ mods)).
  { induction m as [|m IH]; intros j mods Hj; cbn [seq modules_loop]; [by rewrite drop_ge by lia|].
    destruct (lookup_lt_is_Some_2 ms j) as [r Hr]; [lia|]. rewrite Forall_forall in Hok.
    rewrite (named_group d L g _ j (module_sec r)); [|done|by change (map module_sec ms) with (module_sec <$> ms); rewrite list_lookup_fmap, Hr|done].
    cbn [mbind option_bind]. change (module_sec r).1 with (txt (mod_name r)).
    rewrite read_module by (apply Hok; by eapply list_elem_of_lookup_2). cbn [mbind option_bind].
    rewrite IH by lia. rewrite (drop_S ms r j Hr). cbn [rev]. by rewrite <- (assoc_L (++)). }
  rewrite Hgen by done. by rewrite drop_0, app_nil_r.
Qed.

(** ** The document of a printed file *)

Definition server_table (c : raw_conf) : toml_table :=
  mkTab (Some (txt "server")) false false (kvals_of (server_entries c)) [2%nat] [].

Definition server_doc (c : raw_conf) (n : nat) : doc :=
  [NTab (root_of [1%nat]); NTab (server_table c); NArr (int_array (txt "dims") (take n (rc_dims c)))].

(** A group that may be empty. *)
Definition with_group (d : doc) (l : list (nat * text)) (g : text) (secs : list (text * entries)) : doc :=
  match secs with [] => d | _ => add_group d l g secs end.
Definition with_section (d : doc) (l : list (nat * text)) (g : text) (secs : list (text * entries)) : list (nat * text) :=
  match secs with [] => l | _ => l ++ [(length d, g)] end.

Lemma server_entries_ok c : conf_range c -> entries_ok (server_entries c).
Proof.
  intros [_ H1 H2 H3]. split.
  - repeat (constructor; [split; [by repeat constructor|cbn; lia]|]). constructor.
  - repeat (constructor; [rewrite list_elem_of_In; cbn; intuition discriminate|]). constructor.
Qed.

Lemma dims_ok c n : conf_range c -> Forall (fun x => - 2 ^ 63 <= x < 2 ^ 63) (take n (rc_dims c)).
Proof. intros [[_ H] _ _ _]. apply Forall_take. eapply Forall_impl; [exact H|]. intros x Hx. cbn in *. lia. Qed.

Lemma reads_server c n r d' : conf_range c ->
  (forall cur, reads r (server_doc c n) cur d') ->
  reads (print_header (txt "server") [] ++ print_entries (server_entries c)
         ++ print_entry (txt "dims") (VInts (take n (rc_dims c))) ++ r) [root_table] 0 d'.
Proof.
  intros Hc Hr. destruct (server_entries_ok c Hc) as [Hes Hnd].
  apply (reads_header (txt "server") [] [] (txt "server") _ _ 0 0 [root_table] (root_of [])); try done.
  - by repeat constructor.
  - cbn; lia.
  - set (t := mkTab (Some (txt "server")) false false [] [] []).
    apply (reads_entries (server_entries c) _ _ 1 t); try done.
    set (t' := with_kvals t (t_kval t ++ kvals_of (server_entries c))).
    apply (reads_entry (txt "dims") (VInts (take n (rc_dims c))) r _ 1 t' d'); [by repeat constructor|by apply dims_ok|done|].
    apply Hr.
Qed.

Lemma reads_with_group d l g secs r d' cur : sections d l -> g ∉ map snd l -> key_ok g ->
  Forall (fun s => key_ok s.1 /\ entries_ok s.2) secs -> NoDup (map fst secs) ->
  (forall cur, reads r (with_group d l g secs) cur d') -> reads (print_group g secs ++ r) d cur d'.
Proof.
  intros Hs Hg Hk Hok Hnd Hr. unfold with_group in Hr. destruct secs as [|s secs]; [apply Hr|]. by apply (reads_group d l).
Qed.

Lemma sections_with d l g secs : sections d l -> sections (with_group d l g secs) (with_section d l g secs).
Proof. intros Hs. unfold with_group, with_section. destruct secs; [done|]. by apply sections_group. Qed.

Lemma with_group_old d l g secs i : (i < length d)%nat -> i <> 0%nat -> with_group d l g secs !! i = d !! i.
Proof. intros Hi Hne. unfold with_group. destruct secs; [done|]. by apply add_group_old. Qed.

Lemma with_group_length d l g secs : (length d <= length (with_group d l g secs))%nat.
Proof. unfold with_group, add_group. destruct secs; [done|]. rewrite length_group, length_group_base. lia. Qed.

(** A group of the root, when it is there. *)
Lemma find_with_group {A} d l g secs (D' : doc) l' (f : toml_table -> option A) dflt x :
  sections d l -> g ∉ map snd l -> sections D' (with_section d l g secs ++ l') -> g ∉ map snd l' ->
  (secs <> [] -> holds_group D' (length d) g secs) ->
  (secs <> [] -> f (group_table (length d) g secs) = Some x) -> (secs = [] -> dflt = x) ->
  optional_table D' (root_of (map fst (with_section d l g secs ++ l'))) g f dflt = Some x.
Proof.
  intros Hs Hg HD Hg' Hh Hf Hd. unfold optional_table, toml_table_in. cbn [root_of t_tab]. unfold with_section in *.
  destruct secs as [|s secs].
  - rewrite (sections_none _ _ g HD) by (rewrite map_app, elem_of_app; tauto). cbn [mbind option_bind]. by rewrite Hd.
  - rewrite <- (assoc_L (++)) in *. cbn [app] in *. rewrite (sections_find _ _ _ _ _ HD Hg). cbn [mbind option_bind].
    destruct Hh as [Ht _]; [done|]. rewrite Ht. cbn [mbind option_bind]. by apply Hf.
Qed.

Lemma arr_ui64_ints ds : Forall (fun x => - 2 ^ 63 <= x < 2 ^ 63) ds -> forall i vals,
  (i + length ds <= BBOX_MAX_NDIM)%nat -> length vals = BBOX_MAX_NDIM ->
  arr_ui64_loop i (map (fun n => IVal "i" (print_int n)) ds) vals
    = Some ((i + length ds)%nat, take i vals ++ map u64 ds ++ drop (i + length ds) vals).
Proof.
  induction 1 as [|d ds Hd _ IH]; intros i vals Hi Hl; cbn [arr_ui64_loop length map] in *.
  - rewrite Nat.add_0_r. cbn [app]. by rewrite take_drop.
  - rewrite rtoi_print by done. cbn [negb]. destruct (Nat.ltb_spec i BBOX_MAX_NDIM); [|lia].
    rewrite IH by (rewrite ?length_cset; lia). do 2 f_equal; [lia|]. by apply cset_next.
Qed.

Lemma map_u64_id l : Forall (fun d => 0 <= d < 2 ^ 63) l -> map u64 l = l.
Proof. induction 1 as [|x l Hx _ IH]; [done|]. cbn [map]. rewrite IH, u64_small; [done|]. unfold in_u64. lia. Qed.

Lemma read_server (d : doc) c n : conf_range c -> (n <= BBOX_MAX_NDIM)%nat ->
  d !! 2%nat = Some (NArr (int_array (txt "dims") (take n (rc_dims c)))) ->
  parse_server_table d (server_table c) default_conf =
    Some (mkRawConf (Z.of_nat n) (take n (rc_dims c) ++ drop n zero_coord) (rc_max_versions c) (rc_hash_version c) (rc_num_apps c)).
Proof.
  intros Hc Hn H2. pose proof (dims_ok c n Hc) as Hd. destruct Hc as [[Hl Hr] Hmv Hhv Hna]. unfold parse_server_table.
  destruct (fold_add_int (take n (rc_dims c)) (mkArr (Some (txt "dims")) NUL NUL [])) as [Hkey Hitem].
  fold (int_array (txt "dims") (take n (rc_dims c))) in Hkey, Hitem. cbn [a_key a_item app] in Hkey, Hitem.
  assert (Hlen : length (take n (rc_dims c)) = n) by (rewrite length_take_le; unfold coord in *; lia).
  assert (Harr : get_toml_arr_ui64 d (server_table c) (txt "dims") (rc_dims default_conf)
                 = Some (n, take n (rc_dims c) ++ drop n zero_coord)).
  { unfold get_toml_arr_ui64, toml_array_in. cbn [server_table t_arr].
    rewrite (find_child_here d 2 [] (txt "dims") _ H2 Hkey). cbn [mbind option_bind].
    rewrite (proj2 (get_arr_node d 2 _) H2). cbn [mbind option_bind]. rewrite Hitem, arr_ui64_ints by (try done; lia).
    rewrite Hlen. cbn [take app Nat.add]. rewrite map_u64_id; [done|by apply Forall_take]. }
  rewrite Harr. cbn [mbind option_bind].
  rewrite (get_int_entry d (server_table c) (txt "max_versions") (rc_max_versions c)) by (done || lia). cbn [mbind option_bind].
  rewrite (get_int_entry d (server_table c) (txt "hash_version") (rc_hash_version c)) by (done || lia). cbn [mbind option_bind].
  rewrite (get_int_entry d (server_table c) (txt "num_apps") (rc_num_apps c)) by (done || lia). cbn [mbind option_bind].
  by rewrite !i32_small by lia.
Qed.

(** ** The file as a whole *)

Definition file_ok (c : raw_conf) (n : nat) (remotes : list remote_spec) (mods : list dspaces_module) : Prop :=
  conf_range c /\ (n <= BBOX_MAX_NDIM)%nat /\
  Forall remote_ok remotes /\ NoDup (map rs_name remotes) /\ Forall module_ok mods /\ NoDup (map mod_name mods).

Lemma remote_secs_ok rs : Forall remote_ok rs -> NoDup (map rs_name rs) ->
  Forall (fun s => key_ok s.1 /\ entries_ok s.2) (map remote_sec rs) /\ NoDup (map fst (map remote_sec rs)).
Proof.
  intros Hok Hnd. split; [|by rewrite map_map]. apply Forall_fmap. eapply Forall_impl; [exact Hok|].
  intros r (Hk & Hip & Hp & _). split; [done|]. split.
  - constructor; [split; [by repeat constructor|done]|]. constructor; [split; [by repeat constructor|cbn; lia]|constructor].
  - cbn. constructor; [rewrite list_elem_of_In; cbn; intuition discriminate|]. apply NoDup_singleton.
Qed.

Lemma opt_entry_ok k o : key_ok (txt k) -> Forall (fun e => key_ok e.1 /\ scalar e.2) (opt_entry k o).
Proof. intros Hk. destruct o; [by constructor|constructor]. Qed.

Lemma module_secs_ok ms : Forall module_ok ms -> NoDup (map mod_name ms) ->
  Forall (fun s => key_ok s.1 /\ entries_ok s.2) (map module_sec ms) /\ NoDup (map fst (map module_sec ms)).
Proof.
  intros Hok Hnd. split.
  - apply Forall_fmap. eapply Forall_impl; [exact Hok|]. intros m (Hk & _). split; [done|]. split.
    + apply Forall_app. split; apply opt_entry_ok; by repeat constructor.
    + unfold module_sec. cbn [snd]. destruct (txt <$> mod_namespace m), (_ <$> mod_file m); cbn;
        repeat (constructor; [rewrite list_elem_of_In; cbn; intuition discriminate|]); constructor.
  - rewrite map_map. cbn [module_sec fst]. rewrite <- (map_map mod_name txt).
    apply (NoDup_fmap_2_strong txt); [|done]. intros x y _ _ Hxy. by rewrite <- (str_txt x), Hxy, str_txt.
Qed.

(** The document of a printed file. *)
Definition file_sections : list (nat * text) := [(1%nat, txt "server")].
Definition file_remotes (c : raw_conf) (n : nat) (remotes : list remote_spec) : doc :=
  with_group (server_doc c n) file_sections (txt "remotes") (map remote_sec remotes).
Definition file_remote_sections (c : raw_conf) (n : nat) (remotes : list remote_spec) : list (nat * text) :=
  with_section (server_doc c n) file_sections (txt "remotes") (map remote_sec remotes).
Definition file_doc (c : raw_conf) (n : nat) (remotes : list remote_spec) (mods : list dspaces_module) : doc :=
  with_group (file_remotes c n remotes) (file_remote_sections c n remotes) (txt "modules") (map module_sec mods).

Lemma server_sections c n : sections (server_doc c n) file_sections.
Proof. split; [done|]. apply Forall_singleton. by eexists. Qed.

Lemma modules_fresh c n remotes : txt "modules" ∉ map snd (file_remote_sections c n remotes).
Proof.
  unfold file_remote_sections, with_section. rewrite list_elem_of_In. destruct (map remote_sec remotes); cbn; intuition discriminate.
Qed.

Lemma parse_file_doc c n remotes mods : file_ok c n remotes mods ->
  toml_parse_file (toml_text c n remotes mods) = ok (file_doc c n remotes mods).
Proof.
  intros (Hc & Hn & Hr & Hrn & Hm & Hmn). destruct (remote_secs_ok remotes Hr Hrn) as [Hrs Hrnd].
  destruct (module_secs_ok mods Hm Hmn) as [Hms Hmnd].
  unfold toml_parse_file. rewrite c_text_id.
  - apply reads_parse. unfold toml_text. apply reads_server; [done|]. intros cur.
    apply (reads_with_group _ file_sections); [apply server_sections| |by repeat constructor|done|done|].
    { rewrite list_elem_of_In. cbn. intuition discriminate. }
    intros cur'. rewrite <- (app_nil_r (print_group _ (map module_sec mods))).
    apply (reads_with_group _ (file_remote_sections c n remotes)); [apply sections_with, server_sections|apply modules_fresh| |done|done|].
    { by repeat constructor. }
    intros cur''. apply reads_nil.
  - unfold toml_text. apply no_char_app; [apply header_no_zero|].
    apply no_char_app; [by apply entries_no_zero, server_entries_ok|].
    apply no_char_app; [by apply entry_no_zero, dims_ok|]. by apply no_char_app; apply group_no_zero.
Qed.

Lemma file_doc_old c n remotes mods i : (0 < i < 3)%nat -> file_doc c n remotes mods !! i = server_doc c n !! i.
Proof.
  intros Hi. unfold file_doc. rewrite with_group_old; [|eapply Nat.lt_le_trans; [|apply with_group_length]; cbn; lia|lia].
  unfold file_remotes. apply with_group_old; [cbn; lia|lia].
Qed.

Lemma file_doc_sections c n remotes mods : exists l',
  with_section (file_remotes c n remotes) (file_remote_sections c n remotes) (txt "modules") (map module_sec mods)
    = file_remote_sections c n remotes ++ l' /\
  sections (file_doc c n remotes mods) (file_remote_sections c n remotes ++ l') /\ Forall (fun s => s.2 = txt "modules") l'.
Proof.
  pose proof (sections_with (file_remotes c n remotes) _ (txt "modules") (map module_sec mods)
    (sections_with _ _ (txt "remotes") (map remote_sec remotes) (server_sections c n))) as Hs.
  fold (file_remote_sections c n remotes) in Hs. fold (file_doc c n remotes mods) in Hs.
  unfold with_section at 1 in Hs. unfold with_section at 1. destruct (map module_sec mods) as [|m ms].
  - exists []. rewrite app_nil_r. split; [done|]. by split.
  - eexists. split; [reflexivity|]. split; [exact Hs|]. by apply Forall_singleton.
Qed.

Lemma not_in_snd (k k' : string) (l : list (nat * text)) : k <> k' -> Forall (fun s => s.2 = txt k') l -> txt k ∉ map snd l.
Proof.
  intros Hne Hl Hin. apply list_elem_of_fmap in Hin as ([i x] & Hx & Hs). rewrite Forall_forall in Hl.
  specialize (Hl _ Hs). cbn in *. subst x. apply Hne. by rewrite <- (str_txt k), Hx, str_txt.
Qed.

Lemma remote_sections_names c n remotes : exists post,
  file_remote_sections c n remotes = (1%nat, txt "server") :: post /\ Forall (fun s => s.2 = txt "remotes") post.
Proof.
  unfold file_remote_sections, with_section. destruct (map remote_sec remotes); [by exists []|].
  eexists. split; [reflexivity|]. by apply Forall_singleton.
Qed.

(** The sections of a printed file, as they are looked up. *)
Lemma find_remotes c n remotes mods l' : file_ok c n remotes mods ->
  sections (file_doc c n remotes mods) (file_remote_sections c n remotes ++ l') -> Forall (fun s => s.2 = txt "modules") l' ->
  optional_table (file_doc c n remotes mods) (root_of (map fst (file_remote_sections c n remotes ++ l'))) (txt "remotes")
    (parse_remotes_table (file_doc c n remotes mods)) [] = Some (map read_remote remotes).
Proof.
  intros (Hc & Hn & Hr & Hrn & Hm & Hmn) Hs Hl'. destruct (remote_secs_ok remotes Hr Hrn) as [Hrs Hrnd].
  assert (Hh : map remote_sec remotes <> [] ->
    holds_group (file_doc c n remotes mods) (length (server_doc c n)) (txt "remotes") (map remote_sec remotes)).
  { intros Hne. eapply holds_later; [|done|intros i Hi Hi0; unfold file_doc; by apply with_group_old].
    unfold file_remotes, with_group. destruct (map remote_sec remotes); [done|]. apply group_holds. }
  eapply find_with_group; [apply server_sections| |exact Hs|by apply (not_in_snd "remotes" "modules")|exact Hh| |].
  - rewrite list_elem_of_In. cbn. intuition discriminate.
  - intros Hne. by apply read_remotes; [apply Hh|..].
  - intros Hnil. by apply map_eq_nil in Hnil as ->.
Qed.

Lemma find_modules c n remotes mods : file_ok c n remotes mods ->
  sections (file_doc c n remotes mods)
    (with_section (file_remotes c n remotes) (file_remote_sections c n remotes) (txt "modules") (map module_sec mods)) ->
  optional_table (file_doc c n remotes mods)
    (root_of (map fst (with_section (file_remotes c n remotes) (file_remote_sections c n remotes) (txt "modules") (map module_sec mods))))
    (txt "modules") (fun t => parse_modules_table (file_doc c n remotes mods) t []) [] = Some (rev mods).
Proof.
  intros (Hc & Hn & Hr & Hrn & Hm & Hmn) Hs. destruct (module_secs_ok mods Hm Hmn) as [Hms Hmnd].
  rewrite <- (app_nil_r (with_section _ _ _ _)) in Hs |- *.
  assert (Hh : map module_sec mods <> [] ->
    holds_group (file_doc c n remotes mods) (length (file_remotes c n remotes)) (txt "modules") (map module_sec mods)).
  { intros Hne. unfold file_doc, with_group. destruct (map module_sec mods); [done|]. apply group_holds. }
  eapply find_with_group; [apply sections_with, server_sections|apply modules_fresh|exact Hs|apply not_elem_of_nil|exact Hh| |].
  - intros Hne. by apply read_modules; [apply Hh|..].
  - intros Hnil. by apply map_eq_nil in Hnil as ->.
Qed.

Lemma parse_conf_printed c n remotes mods : file_ok c n remotes mods ->
  parse_conf_toml (inr (toml_text c n remotes mods)) (mkTomlConf default_conf [] []) =
    Some (mkTomlConf (mkRawConf (Z.of_nat n) (take n (rc_dims c) ++ drop n zero_coord)
                        (rc_max_versions c) (rc_hash_version c) (rc_num_apps c))
            (map read_remote remotes) (rev mods), 0).
Proof.
  intros Hok. pose proof Hok as (Hc & Hn & _). unfold parse_conf_toml, read_conf_doc. rewrite parse_file_doc by done.
  cbn [ok mbind option_bind]. destruct (file_doc_sections c n remotes mods) as (l' & El & Hs & Hl').
  rewrite (proj1 Hs). cbn [mbind option_bind]. destruct (remote_sections_names c n remotes) as (post & Ep & Hpost).
  assert (Hserver : toml_table_in (file_doc c n remotes mods) (root_of (map fst (file_remote_sections c n remotes ++ l'))) (txt "server")
                    = Some (Some 1%nat)).
  { rewrite Ep in Hs |- *. cbn [app] in *. apply (sections_find _ [] 1 (txt "server") (post ++ l') Hs), not_elem_of_nil. }
  rewrite Hserver. cbn [mbind option_bind].
  assert (H1 : get_tab (file_doc c n remotes mods) 1 = Some (server_table c))
    by (apply get_tab_node; rewrite file_doc_old by lia; done).
  rewrite H1. cbn [mbind option_bind tc_raw tc_remotes tc_mods].
  rewrite (read_server _ c n) by (try done; rewrite file_doc_old by lia; done). cbn [mbind option_bind].
  rewrite (find_remotes c n remotes mods l') by done. cbn [mbind option_bind].
  assert (Hst : optional_table (file_doc c n remotes mods) (root_of (map fst (file_remote_sections c n remotes ++ l'))) (txt "storage")
                  (parse_storage_table (file_doc c n remotes mods)) [] = Some []).
  { unfold optional_table, toml_table_in. cbn [root_of t_tab]. rewrite (sections_none _ _ _ Hs); [done|].
    rewrite Ep. cbn [app map snd]. rewrite map_app, elem_of_cons, elem_of_app.
    pose proof (not_in_snd "storage" "remotes" post ltac:(done) Hpost). pose proof (not_in_snd "storage" "modules" l' ltac:(done) Hl').
    intros [?|[?|?]]; [discriminate|tauto|tauto]. }
  rewrite Hst. cbn [mbind option_bind]. rewrite <- El in Hs |- *. by rewrite find_modules.
Qed.

(** C28: A configuration printed as a TOML file is read back: sizes and
    numbers of the [server] table, every remote with its address, in order,
    and every module with its name space and file, the last one first,
    whatever characters the strings are made of; the parser of files, the
    tables it builds and the functions that search them are all on the
    way. *)
Theorem toml_conf_roundtrip c n remotes mods : file_ok c n remotes mods ->
  parse_conf_toml (inr (toml_text c n remotes mods)) (mkTomlConf default_conf [] []) =
    Some (mkTomlConf (mkRawConf (Z.of_nat n) (take n (rc_dims c) ++ drop n zero_coord)
                        (rc_max_versions c) (rc_hash_version c) (rc_num_apps c))
            (map read_remote remotes) (rev mods), 0).
Proof. apply parse_conf_printed. Qed.

(** C31: The two formats agree: whichever of them a configuration is written
    in, [dsg_alloc], which chooses the parser by the ending of the name,
    makes the same of it, errors included. *)
Theorem formats_agree (toml_name plain_name : text) c n :
  is_toml_name toml_name = true -> is_toml_name plain_name = false ->
  conf_range c -> rc_ndim c = Z.of_nat n -> (0 < n <= BBOX_MAX_NDIM)%nat ->
  dsg_alloc_conf toml_name (inr (toml_text c n [] [])) = dsg_alloc_conf plain_name (inr (conf_text c n)).
Proof.
  intros Ht Hp Hc Hnd Hn. unfold dsg_alloc_conf. rewrite Ht, Hp.
  rewrite (parse_conf_printed c n [] []); [|split; [done|]; split; [lia|]; repeat split; constructor].
  rewrite (parse_conf_roundtrip c n default_conf Hc Hnd Hn) by done. unfold set_dims. by rewrite Hnd.
Qed.

(** C39: What becomes of a file: one that cannot be opened is reported and
    changes nothing; so is one without a [server] table, and no other that
    parses; but one that does not parse is not reported: the parser's null
    document is searched, which is undefined. *)
Theorem conf_toml_errors (conf : toml_conf) :
  (forall errno, parse_conf_toml (inl errno) conf = Some (conf, - errno)) /\
  (forall s, toml_parse_file s = Some None -> parse_conf_toml (inr s) conf = None) /\
  (forall s d root, toml_parse_file s = Some (Some d) -> get_tab d 0 = Some root ->
     (toml_table_in d root (txt "server") = Some None -> parse_conf_toml (inr s) conf = Some (conf, -1)) /\
     (forall conf' err, parse_conf_toml (inr s) conf = Some (conf', err) ->
        err = 0 \/ (err = -1 /\ conf' = conf /\ toml_table_in d root (txt "server") = Some None))).
Proof.
  split; [done|]. split; [intros s Hs; unfold parse_conf_toml, read_conf_doc; by rewrite Hs|].
  intros s d root Hs Hroot. unfold parse_conf_toml, read_conf_doc. rewrite Hs. cbn [mbind option_bind]. rewrite Hroot.
  cbn [mbind option_bind]. split; [by intros ->|]. intros conf' err.
  destruct (toml_table_in d root (txt "server")) as [[i|]|]; [|by intros [= <- <-]; right|done]. cbn [mbind option_bind].
  destruct (get_tab d i) as [t|]; [|done]. cbn [mbind option_bind].
  destruct (parse_server_table _ _ _); [|done]. cbn [mbind option_bind].
  destruct (optional_table _ _ (txt "remotes") _ _); [|done]. cbn [mbind option_bind].
  destruct (optional_table _ _ (txt "storage") _ _); [|done]. cbn [mbind option_bind].
  destruct (optional_table _ _ (txt "modules") _ _); [|done]. cbn [mbind option_bind]. intros [= <- <-]. by left.
Qed.
End ReadBack.

Lemma conf_toml_errors_witness :
  parse_conf_toml (D := no_strtod) (inl 2) (mkTomlConf default_conf [] []) = Some (mkTomlConf default_conf [] [], -2) /\
  parse_conf_toml (D := no_strtod) (inr (txt "[server")) (mkTomlConf default_conf [] []) = None /\
  parse_conf_toml (D := no_strtod) (inr (txt "[clients]")) (mkTomlConf default_conf [] []) = Some (mkTomlConf default_conf [] [], -1).
Proof.
  destruct (conf_toml_errors (D := no_strtod) (mkTomlConf default_conf [] [])) as (H1 & H2 & H3).
  split; [apply H1|]. split; [apply H2; vm_compute; reflexivity|].
  eapply H3; vm_compute; reflexivity.
Defined.

(** ** Concrete files *)

Definition lines_text (l : list string) : text := flat_map (fun s => txt s ++ [NEWLINE]) l.

Definition load_toml (l : list string) : option (toml_conf * Z) :=
  parse_conf_toml (D := no_strtod) (inr (lines_text l)) (mkTomlConf default_conf [] []).

Definition demo_remotes : list remote_spec :=
  [mkRemoteSpec (txt "far") (txt "10.0.0.1") 7000; mkRemoteSpec (txt "near.by") (txt "host") 80].
Definition demo_mods : list dspaces_module :=
  [mkModule "fill" (Some "ns") (Some "fill_mod") 0; mkModule "bare" None None 0]%string.

Lemma demo_file_ok : file_ok demo_raw 2 demo_remotes demo_mods.
Proof.
  split; [apply demo_raw_range|]. split; [unfold BBOX_MAX_NDIM; lia|].
  assert (Hkey : forall k, forallb (fun c => negb (Ascii.eqb c NUL) && negb (Ascii.eqb c NEWLINE)) k = true -> key_ok k).
  { intros k Hk. rewrite forallb_forall in Hk. apply Forall_forall. intros c Hc. apply list_elem_of_In in Hc. specialize (Hk c Hc).
    apply andb_true_iff in Hk as [H1%negb_true_iff%Ascii.eqb_neq H2%negb_true_iff%Ascii.eqb_neq]. done. }
  assert (Hnul : forall k, key_ok k -> no_nul k) by (intros k Hk; eapply Forall_impl; [exact Hk|]; by intros ? []).
  split.
  { repeat (constructor; [split; [by apply Hkey|split; [by apply Hnul, Hkey|split; [cbn; lia|apply Nat.ltb_lt; reflexivity]]]|]).
    constructor. }
  split; [cbn; constructor; [rewrite list_elem_of_In; cbn; intuition discriminate|apply NoDup_singleton]|].
  split.
  { repeat (constructor; [split; [by apply Hkey|split; [done|split; intros s [= <-]; by apply Hnul, Hkey]]|]). constructor. }
  cbn. constructor; [rewrite list_elem_of_In; cbn; intuition discriminate|apply NoDup_singleton].
Qed.

Lemma toml_conf_roundtrip_witness :
  parse_conf_toml (D := no_strtod) (inr (toml_text demo_raw 2 demo_remotes demo_mods)) (mkTomlConf default_conf [] []) =
    Some (mkTomlConf (mkRawConf 2 (64 :: 32 :: replicate 8 0) 3 3 2)
            [mkRemote (txt "far") (txt "10.0.0.1:7000"); mkRemote (txt "near.by") (txt "host:80")] (rev demo_mods), 0).
Proof. rewrite (toml_conf_roundtrip demo_raw 2 demo_remotes demo_mods demo_file_ok). reflexivity. Defined.

Lemma formats_agree_witness :
  dsg_alloc_conf (D := no_strtod) (txt "a.toml") (inr (toml_text demo_raw 2 [] [])) =
    Some (inr (mkConf 2 (64 :: 32 :: replicate 8 0) 3 ssd_hash_version_v2, 2, [], [])).
Proof.
  rewrite (formats_agree (txt "a.toml") (txt "dataspaces.conf") demo_raw 2 eq_refl eq_refl demo_raw_range eq_refl).
  - vm_compute. reflexivity.
  - unfold BBOX_MAX_NDIM. lia.
Defined.

(** Values of the wrong type: the start of a number, its truncation, or 0. *)
Example wrong_types :
  option_map (fun r => (rc_max_versions (tc_raw (fst r)), rc_hash_version (tc_raw (fst r)), rc_num_apps (tc_raw (fst r)), snd r))
    (load_toml ["[server]"; "max_versions = 3.5"; "hash_version = 'SFC'"; "num_apps = 99999999999999999999"]%string)
  = Some (3, 0, -1, 0).
Proof. vm_compute. reflexivity. Qed.

(** A syntax error, a plain key under [remotes], a missing address, a string
    that is none, a module file without a dot and eleven sizes are all
    undefined. *)
Example undefined_files :
  map load_toml
    [["[server"]; ["[server]"; "[remotes]"; "x = 1"; "[remotes.a]"; "ip = 'h'"; "port = 1"];
     ["[server]"; "[remotes.a]"; "port = 1"]; ["[server]"; "[remotes.a]"; "ip = 5"; "port = 1"];
     ["[server]"; "[modules.m]"; "file = 'mod'"];
     ["[server]"; "dims = [1,2,3,4,5,6,7,8,9,10,11]"]]%string
  = replicate 6 None.
Proof. vm_compute. reflexivity. Qed.

(** A remote without a port takes the one before; a module that is not
    Python is skipped; a directory is read and forgotten. *)
Example odd_files :
  option_map (fun r => (map rm_addr_str (tc_remotes (fst r)), map mod_name (tc_mods (fst r)), snd r))
    (load_toml ["[server]"; "[remotes.a]"; "ip = 'h'"; "port = 9"; "[remotes.b]"; "ip = 'k'";
                "[modules.m]"; "file = 'm.so'"; "[modules.n]"; "file = 'a.b.py'"; "[storage.d]"; "directory = '/x'"; "files = 'all'"]%string)
  = Some ([txt "h:9"; txt "k:9"], ["n"%string], 0).
Proof. vm_compute. reflexivity. Qed.
