(* ===== verification/Startup.v ===== *)
(** * Startup: how clients find the servers

    [write_conf] and [ss_rpc] of [src/src/dspaces-server.c], [read_conf],
    [arg_conf], [init_ss_info] and [dspaces_init] of
    [src/src/dspaces-client.c]: the connection file [conf.ds] that the servers
    write and the clients read, and the parameters of the service they ask one
    server for. *)

From Stdlib Require Import Ascii.
From S2P Require Import Prelude BBox ObjDesc Linear Sspace DhtEntry StrHash LocalStorage Matrix Codec Modules Server Cluster Client ClientStore Conf.

(** ** The connection file *)

(** What [conf.ds] tells: node names and addresses of the servers, by rank,
    and the listening address. *)
Record conn := mkConn {
  cn_names : list string;
  cn_addrs : list string;
  cn_listen : string
}.

(** [write_conf] at rank 0, the names and addresses gathered. *)
Definition server_line (na : string * string) : text := txt (fst na) ++ " "%char :: txt (snd na) ++ [NEWLINE].

Definition write_conf (cn : conn) : text :=
  print_int (Z.of_nat (length (cn_addrs cn))) ++ [NEWLINE] ++
  concat (map server_line (combine (cn_names cn) (cn_addrs cn))) ++ txt (cn_listen cn) ++ [NEWLINE].

(** ** [fscanf] *)

(** White space of a format. *)
Definition scan_ws (s : text) : text := drop_while isspace s.

(** [%s]: the token, the number of characters read and what follows; [None]
    at the end of the file. *)
Definition scan_str (s : text) : option (text * nat * text) :=
  let s' := scan_ws s in
  let tok := take_while (fun c => negb (isspace c)) s' in
  match tok with
  | [] => None
  | _ => Some (tok, (length s - length s' + length tok)%nat, drop (length tok) s')
  end.

(** [%d]: the number and what follows; [None] when there are no digits. *)
Definition scan_int (s : text) : option (Z * text) :=
  let s := scan_ws s in
  let '(sign, s) := match s with
    | c :: s' => if Ascii.eqb c "-" then (-1, s') else if Ascii.eqb c "+" then (1, s') else (1, s)
    | [] => (1, [])
    end in
  let ds := take_while is_digit s in
  match ds with [] => None | _ => Some (sign * digits_val ds, drop (length ds) s) end.

(** A string with its terminator into a block of [size + 1]. *)
Definition store_str (size : nat) (tok : text) : option string :=
  if (length tok <=? size)%nat then Some (String.string_of_list_ascii tok) else None.

(** The loop of [read_conf]: both tokens are measured, then read again.  At
    the end of the file a size is not set. *)
Fixpoint read_servers (n : nat) (s : text) : option (list string * list string * text) :=
  match n with
  | O => Some ([], [], s)
  | S n =>
      '(_, size1, s1) ← scan_str s;
      '(_, size2, _) ← scan_str s1;
      '(name, _, s) ← scan_str s;
      name ← store_str size1 name;
      '(addr, _, s) ← scan_str (scan_ws s);
      addr ← store_str size2 addr;
      '(names, addrs, s) ← read_servers n (scan_ws s);
      Some (name :: names, addr :: addrs, s)
  end.

(** [size_sp] stays zero when it cannot be read. *)
Definition read_conf (s : text) : option conn :=
  let '(size_sp, s) := match scan_int s with Some (n, s) => (n, scan_ws s) | None => (0, scan_ws s) end in
  '(names, addrs, s) ← read_servers (Z.to_nat size_sp) s;
  '(_, size, _) ← scan_str s;
  '(listen, _, _) ← scan_str s;
  listen ← store_str size listen;
  Some (mkConn names addrs listen).

Definition arg_conf (conn_str listen : string) : conn := mkConn ["remote"%string] [conn_str] listen.

(** ** The parameters of the service *)

Record ss_info_hdr := mkSsInfo {
  ih_num_dims : nat;
  ih_num_space_srv : nat;
  ih_max_versions : Z;
  ih_hash_version : sspace_hash_version;
  ih_domain : bbox;
  ih_default_gdim : global_dimension
}.

Section Init.
Context `{E : Env}.

(** [ss_rpc]: the header is a local variable, and the number of dimensions of
    the domain box is never set. *)
Definition ss_rpc (sv : server) : ss_info_hdr :=
  let conf := sv_conf sv in
  let n := conf_ndim conf in
  mkSsInfo n (sv_size_sp sv) (conf_max_versions conf) (conf_hash_version conf)
    (mkBBox env_dim (set_range n (fun _ => 0) env_coord) (set_range n (fun i => u64 (cget (conf_dims conf) i - 1)) env_coord))
    (mkGdim n (set_range n (cget (conf_dims conf)) env_coord)).

(** ** [dspaces_init] *)

(** The client of [dspaces_init_internal] and [read_conf]: zeroed, without a
    local storage. *)
Definition new_client (rank : Z) (node my_addr : string) (cn : conn) : client :=
  mkClient rank node (cn_names cn) 0 my_addr None [] zero_gdim (ls_alloc 0) 0 false 0.

Definition install_ss_info (info : ss_info_hdr) (c : client) : client :=
  mkClient (cl_rank c) (cl_node c) (cl_nodes c) (cl_my_server c) (cl_addr c) (cl_nspace c) (cl_gdims c)
    (ih_default_gdim info) (cl_ls c) (cl_put_count c) (cl_final c) (cl_next c).

Definition dspaces_post_init (max_versions : Z) (c : client) : option client :=
  c ← choose_server c;
  Some (mkClient (cl_rank c) (cl_node c) (cl_nodes c) (cl_my_server c) (cl_addr c) (cl_nspace c) (cl_gdims c)
          (cl_default_gdim c) (ls_alloc max_versions) 0 false (cl_next c)).

(** [get_ss_info] is the answer of the server at an address, [None] when the
    call fails. *)
Definition dspaces_init (rank : Z) (node my_addr : string) (file : text) (get_ss_info : string -> option ss_info_hdr)
  : option (Z * option (client * conn)) :=
  cn ← read_conf file;
  c ← choose_server (new_client rank node my_addr cn);
  addr ← cn_addrs cn !! Z.to_nat (cl_my_server c);
  match get_ss_info addr with
  | None => Some (dspaces_ERR_MERCURY, None)
  | Some info =>
      c ← dspaces_post_init (ih_max_versions info) (install_ss_info info c);
      Some (dspaces_SUCCESS, Some (c, cn))
  end.
End Init.

(** ** Reading back what was written *)

(** A word: not empty, without white space. *)
Definition word (s : string) : Prop := txt s <> [] /\ Forall (fun c => isspace c = false) (txt s).

Lemma word_txt s : word s -> exists c l, txt s = c :: l /\ isspace c = false.
Proof. intros [Hne Hs]. destruct (txt s) as [|c l]; [done|]. apply Forall_cons in Hs as [Hc _]. eauto. Qed.

Lemma scan_ws_word s rest : word s -> scan_ws (txt s ++ rest) = txt s ++ rest.
Proof. intros (c & l & -> & Hc)%word_txt. unfold scan_ws. cbn [app drop_while]. by rewrite Hc. Qed.

Lemma take_word s c rest : word s -> isspace c = true ->
  take_while (fun c => negb (isspace c)) (txt s ++ c :: rest) = txt s.
Proof.
  intros [_ Hs] Hc. induction Hs as [|x l Hx _ IH]; cbn [app take_while]; [by rewrite Hc|]. by rewrite Hx, IH.
Qed.

(** Reading a word after one character of white space or none. *)
Lemma scan_word pre s c rest : (pre = [] \/ exists x, pre = [x] /\ isspace x = true) -> word s -> isspace c = true ->
  scan_str (pre ++ txt s ++ c :: rest) = Some (txt s, (length pre + length (txt s))%nat, c :: rest).
Proof.
  intros Hpre Hs Hc. unfold scan_str.
  assert (Hw : scan_ws (pre ++ txt s ++ c :: rest) = txt s ++ c :: rest).
  { destruct Hpre as [-> |(x & -> & Hx)]; [by apply scan_ws_word|]. unfold scan_ws. cbn [app drop_while]. rewrite Hx. by apply scan_ws_word. }
  rewrite Hw, take_word by done. destruct (word_txt s Hs) as (y & l & Ey & _). rewrite Ey at 1. f_equal. f_equal.
  - f_equal. rewrite !length_app. lia.
  - by rewrite drop_app_length.
Qed.

Lemma store_word s n : (length (txt s) <= n)%nat -> store_str n (txt s) = Some s.
Proof.
  intros H. unfold store_str. destruct (Nat.leb_spec (length (txt s)) n); [|lia].
  unfold txt. by rewrite String.string_of_list_ascii_of_string.
Qed.

Lemma scan_ws_servers l rest : Forall (fun na => word (fst na) /\ word (snd na)) l -> scan_ws rest = rest ->
  scan_ws (concat (map server_line l) ++ rest) = concat (map server_line l) ++ rest.
Proof.
  intros Hl Hr. destruct Hl as [|[name addr] l [Hn _] _]; [done|]. cbn [map concat fst] in *.
  replace ((server_line (name, addr) ++ concat (map server_line l)) ++ rest) with
    (txt name ++ (" "%char :: txt addr ++ [NEWLINE]) ++ concat (map server_line l) ++ rest)
    by (unfold server_line; cbn [fst snd]; by rewrite <- !app_assoc).
  by apply scan_ws_word.
Qed.

Lemma read_servers_spec l : forall rest,
  Forall (fun na => word (fst na) /\ word (snd na)) l -> scan_ws rest = rest ->
  read_servers (length l) (concat (map server_line l) ++ rest) = Some (map fst l, map snd l, rest).
Proof.
  induction l as [|[name addr] l IH]; intros rest Hl Hr; [done|]. apply Forall_cons in Hl as [[Hn Ha] Hl]. cbn [fst snd] in Hn, Ha.
  set (tl := concat (map server_line l) ++ rest).
  assert (Es : concat (map server_line ((name, addr) :: l)) ++ rest = txt name ++ " "%char :: txt addr ++ NEWLINE :: tl).
  { cbn [map concat]. unfold server_line at 1. cbn [fst snd]. rewrite <- !app_assoc. cbn [app]. by rewrite <- app_assoc. }
  rewrite Es. cbn [length read_servers map].
  pose proof (scan_word [] name " "%char (txt addr ++ NEWLINE :: tl) (or_introl eq_refl) Hn eq_refl) as H1. cbn [app length Nat.add] in H1.
  pose proof (scan_word [" "%char] addr NEWLINE tl (or_intror (ex_intro _ " "%char (conj eq_refl eq_refl))) Ha eq_refl) as H2.
  cbn [app length] in H2. pose proof (scan_word [] addr NEWLINE tl (or_introl eq_refl) Ha eq_refl) as H3. cbn [app length Nat.add] in H3.
  rewrite H1. cbn [mbind option_bind]. rewrite H2. cbn [mbind option_bind]. rewrite store_word by done. cbn [mbind option_bind].
  change (scan_ws (" "%char :: txt addr ++ NEWLINE :: tl)) with (scan_ws (txt addr ++ NEWLINE :: tl)).
  rewrite scan_ws_word, H3 by done. cbn [mbind option_bind]. rewrite store_word by lia. cbn [mbind option_bind].
  change (scan_ws (NEWLINE :: tl)) with (scan_ws tl).
  assert (Htl : scan_ws tl = tl) by (by apply scan_ws_servers).
  rewrite Htl. unfold tl. by rewrite IH.
Qed.

Lemma scan_printed n rest : 0 <= n < 2 ^ 31 -> no_digit rest -> scan_int (print_int n ++ rest) = Some (n, rest).
Proof.
  intros Hn Hr. unfold scan_int, scan_ws, print_int. destruct (Z.ltb_spec n 0); [lia|].
  destruct (print_digits_20 n) as (H1 & H2 & H3 & _); [lia|]. rewrite drop_spaces_digits by done.
  pose proof (take_digits (print_digits 20 n) rest H2 Hr) as Ht.
  destruct (print_digits 20 n) as [|c l] eqn:Ep; [done|]. cbn [app] in *. pose proof (Forall_inv H2) as Hc.
  destruct (digit_not_special c Hc) as (_ & -> & -> & _). rewrite Ht. rewrite Z.mul_1_l, H1. do 2 f_equal.
  change (c :: l ++ rest) with ((c :: l) ++ rest). by rewrite drop_app_length.
Qed.

(** A connection file of [n] servers. *)
Record conn_ok (cn : conn) : Prop := {
  co_len : length (cn_names cn) = length (cn_addrs cn) /\ Z.of_nat (length (cn_addrs cn)) < 2 ^ 31;
  co_words : Forall word (cn_names cn) /\ Forall word (cn_addrs cn) /\ word (cn_listen cn)
}.

Lemma map_combine {A B} (a : list A) : forall b : list B, length a = length b ->
  map fst (combine a b) = a /\ map snd (combine a b) = b.
Proof.
  induction a as [|x a IH]; intros [|y b] H; cbn [length] in H; try done. destruct (IH b) as [H1 H2]; [lia|].
  cbn [combine map fst snd]. by rewrite H1, H2.
Qed.

(** A client reads back what rank 0 of the servers wrote. *)
Lemma read_write_conf cn : conn_ok cn -> read_conf (write_conf cn) = Some cn.
Proof.
  intros [[Hlen Hmax] (Hn & Ha & Hl)]. unfold read_conf, write_conf. rewrite scan_printed by (done || lia).
  set (l := combine (cn_names cn) (cn_addrs cn)).
  assert (Hw : Forall (fun na => word (fst na) /\ word (snd na)) l).
  { unfold l. clear -Hn Ha. revert Ha. generalize (cn_addrs cn). induction Hn as [|x xs Hx _ IH]; intros ys Hys; [constructor|].
    destruct Hys; constructor; [done|]. by apply IH. }
  assert (Hll : length l = length (cn_addrs cn)) by (unfold l; rewrite length_combine; lia).
  assert (Hrest : scan_ws (txt (cn_listen cn) ++ [NEWLINE]) = txt (cn_listen cn) ++ [NEWLINE]) by (by apply scan_ws_word).
  assert (Htl : scan_ws ([NEWLINE] ++ concat (map server_line l) ++ txt (cn_listen cn) ++ [NEWLINE])
    = concat (map server_line l) ++ txt (cn_listen cn) ++ [NEWLINE]).
  { by apply (scan_ws_servers l). }
  rewrite Htl, Nat2Z.id, <- Hll, read_servers_spec by done. cbn [mbind option_bind].
  pose proof (scan_word [] (cn_listen cn) NEWLINE [] (or_introl eq_refl) Hl eq_refl) as H. cbn [app length Nat.add] in H.
  rewrite H. cbn [mbind option_bind]. rewrite store_word by done. cbn [mbind option_bind]. f_equal.
  unfold l. destruct (map_combine _ _ Hlen) as [-> ->]. by destruct cn.
Qed.

(** ** A client of a cluster *)

Section Clients.
Context `{E : Env}.

Lemma find_addr svs : forall n sv, NoDup (map sv_addr svs) -> svs !! n = Some sv ->
  find (fun x => String.eqb (sv_addr x) (sv_addr sv)) svs = Some sv.
Proof.
  induction svs as [|x svs IH]; intros n sv Hnd Hn; [done|]. cbn [map find] in *. apply NoDup_cons in Hnd as [Hx Hnd].
  destruct n as [|n]; [injection Hn as ->; by rewrite String.eqb_refl|]. cbn [lookup list_lookup] in Hn.
  destruct (String.eqb_spec (sv_addr x) (sv_addr sv)) as [E1|]; [|by eapply IH].
  exfalso. apply Hx. rewrite E1. apply list_elem_of_fmap_2. by eapply list_elem_of_lookup_2.
Qed.

Lemma keeps_empty mv c : 0 < mv ->
  keeps mv (mkClient (cl_rank c) (cl_node c) (cl_nodes c) (cl_my_server c) (cl_addr c) (cl_nspace c) (cl_gdims c)
    (cl_default_gdim c) (ls_alloc mv) 0 false (cl_next c)) [].
Proof.
  intros Hmv. assert (Ha : all_objs (ls_alloc mv) = []).
  { unfold all_objs, ls_alloc. cbn [obj_hash]. induction (Z.to_nat mv); [done|exact IHn]. }
  split; cbn [cl_ls cl_put_count cl_next]; rewrite ?Ha; try done.
  - by apply ls_inv_alloc.
  - intros o l H. by apply Permutation_nil_cons in H.
Qed.

Lemma dspaces_init_ok cn svs conf rank node my_addr :
  conn_ok cn -> cn_addrs cn = map sv_addr svs -> svs <> [] ->
  Forall (fun sv => sv_conf sv = conf) svs -> NoDup (map sv_addr svs) -> 0 <= rank ->
  (conf_ndim conf <= BBOX_MAX_NDIM)%nat -> 0 < conf_max_versions conf ->
  exists c sv, dspaces_init rank node my_addr (write_conf cn)
      (fun a => option_map ss_rpc (find (fun sv => String.eqb (sv_addr sv) a) svs))
      = Some (dspaces_SUCCESS, Some (c, cn)) /\
    svs !! Z.to_nat (cl_my_server c) = Some sv /\ cn_addrs cn !! Z.to_nat (cl_my_server c) = Some (sv_addr sv) /\
    (forall odsc, global_dimension_equal (client_gdim c odsc) (conf_gdim conf) = true) /\
    keeps (conf_max_versions conf) c [].
Proof.
  intros Hcn Haddr Hne Hconf Hnd Hrank Hdim Hmv. unfold dspaces_init. rewrite read_write_conf by done. cbn [mbind option_bind].
  pose proof (co_len _ Hcn) as [Hlen _]. rewrite Haddr, length_map in Hlen.
  assert (Hnn : cn_names cn <> []) by (intros E0; rewrite E0 in Hlen; by destruct svs).
  destruct (choose_server_some (new_client rank node my_addr cn) Hnn Hrank) as (n & E1 & E2 & _). rewrite E1.
  cbn [mbind option_bind set_my_server cl_my_server new_client cl_nodes] in *. rewrite Nat2Z.id.
  destruct (lookup_lt_is_Some_2 svs n ltac:(lia)) as [sv Hsv]. rewrite Haddr, list_lookup_fmap, Hsv. cbn [fmap option_fmap option_map mbind option_bind].
  rewrite (find_addr svs n sv) by done. cbn [option_map].
  assert (Hsc : sv_conf sv = conf) by (rewrite Forall_forall in Hconf; apply Hconf; by eapply list_elem_of_lookup_2).
  unfold dspaces_post_init. set (c1 := install_ss_info _ _).
  destruct (choose_server_some c1 Hnn Hrank) as (m & E3 & E4 & _). rewrite E3. cbn [mbind option_bind].
  destruct (lookup_lt_is_Some_2 svs m) as [sv2 Hsv2]; [cbn in E4; lia|].
  eexists _, sv2. split; [reflexivity|]. cbn [set_my_server cl_my_server]. rewrite Nat2Z.id. split; [done|].
  split; [by rewrite list_lookup_fmap, Hsv2|]. split.
  - intros odsc. unfold client_gdim. cbn [c1 install_ss_info new_client set_my_server cl_gdims cl_default_gdim lookup_gdim_list set_global_dimension].
    unfold ss_rpc. cbn [ih_default_gdim]. rewrite Hsc. unfold global_dimension_equal. apply for_all_true. intros k _. apply Z.eqb_refl.
  - unfold ss_rpc. cbn [ih_max_versions]. rewrite Hsc. by apply keeps_empty.
Qed.

(** A client that reads the file the servers wrote and asks the server it
    chose for the parameters starts with: a server that exists, the servers'
    default dimensions for every variable without its own, and an empty local
    storage that keeps as many versions as the servers do. *)
Theorem dspaces_init_correct cn svs conf rank node my_addr :
  conn_ok cn -> cn_addrs cn = map sv_addr svs -> svs <> [] ->
  Forall (fun sv => sv_conf sv = conf) svs -> NoDup (map sv_addr svs) -> 0 <= rank ->
  (conf_ndim conf <= BBOX_MAX_NDIM)%nat -> 0 < conf_max_versions conf ->
  exists c sv, dspaces_init rank node my_addr (write_conf cn)
      (fun a => option_map ss_rpc (find (fun sv => String.eqb (sv_addr sv) a) svs))
      = Some (dspaces_SUCCESS, Some (c, cn)) /\
    svs !! Z.to_nat (cl_my_server c) = Some sv /\ cn_addrs cn !! Z.to_nat (cl_my_server c) = Some (sv_addr sv) /\
    (forall odsc, global_dimension_equal (client_gdim c odsc) (conf_gdim conf) = true) /\
    keeps (conf_max_versions conf) c [].
Proof. apply dspaces_init_ok. Qed.
End Clients.

(** ** A concrete run *)

#[local] Instance startup_env : Env := {
  env_fuel := 0;
  env_dim := 77;
  env_coord := replicate 10 9;
  env_malloc n := replicate n 0;
  env_py_exec _ _ _ := None;
  env_remote_get _ _ _ := None;
  env_lz4_compress _ := None
}.

Definition startup_conf : ds_conf := mkConf 2 (64 :: 32 :: replicate 8 0) 3 ssd_hash_version_v2.
Definition startup_server (addr : string) : server :=
  mkServer 0 2 addr None None startup_conf (conf_gdim startup_conf)
    (mkSp (mkSspace 0 0 0 zero_bbox [] 0 ssd_hash_version_v2 0) (dht_entry_alloc 3)) [] (ls_alloc 3) (ls_alloc 3) [] [] [] [] 0 1.
Definition startup_conn : conn := mkConn ["n1"; "n2"]%string ["sm://a"; "sm://b"]%string "sm".

Lemma startup_conn_ok : conn_ok startup_conn.
Proof. split; cbn; [lia|]. unfold word. repeat split; try (repeat constructor); done. Qed.

Lemma dspaces_init_correct_witness :
  exists c, dspaces_init 3 "n2" "cl" (write_conf startup_conn)
      (fun a => option_map ss_rpc (find (fun sv => String.eqb (sv_addr sv) a) [startup_server "sm://a"; startup_server "sm://b"]))
      = Some (dspaces_SUCCESS, Some (c, startup_conn)) /\ keeps 3 c [].
Proof.
  destruct (dspaces_init_correct startup_conn [startup_server "sm://a"; startup_server "sm://b"] startup_conf 3 "n2" "cl")
    as (c & sv & H1 & _ & _ & _ & H2); 
    [exact startup_conn_ok|reflexivity|discriminate|do 2 (apply Forall_cons_2; [reflexivity|]); apply Forall_nil_2| |lia|unfold BBOX_MAX_NDIM; simpl; lia|reflexivity|].
  - apply NoDup_cons. split; [by intros ?%list_elem_of_singleton|apply NoDup_singleton].
  - exists c. split; [exact H1|exact H2].
Defined.
