(* ===== verification/StartGroup.v ===== *)
(** * StartGroup: every way a client starts

    The four entry points of [src/src/dspaces-client.c] in full:
    [dspaces_init], [dspaces_init_wan] for one process, [dspaces_init_mpi],
    [dspaces_init_wan_mpi] for the processes of a communicator, which read the
    connection file and ask for the parameters of the service once and
    broadcast both; with the flag of the process that allows one client only,
    the initialisation of Margo, and the connections a server opens to the
    servers of other systems ([dspaces_server_init] of
    [src/src/dspaces-server.c]). *)

From Stdlib Require Import Ascii.
From S2P Require Import Prelude BBox ObjDesc Linear Sspace DhtEntry StrHash LocalStorage Matrix Codec Modules Server Cluster Client ClientStore Conf Startup.

(** ** One process *)

(** What a call returns, the client it hands out, and [g_is_initialized]
    after it. *)
Record outcome := mkOutcome {
  o_ret : Z;
  o_client : option (client * conn);
  o_flag : bool
}.

Definition dspaces_ERR_ALLOCATION : Z := -1.

(** [dspaces_init_internal]: an error, or the flag is set and stays set
    whatever happens later. *)
Definition dspaces_init_internal (flag : bool) : Z + bool := if flag then inl dspaces_ERR_ALLOCATION else inr true.

(** The address a process has once Margo listens, [None] when
    [margo_init_ext] fails. *)
Definition dspaces_init_margo (margo_init : string -> option string) (listen : string) : Z + string :=
  match margo_init listen with None => inl dspaces_ERR_MERCURY | Some addr => inr addr end.

Section Start.
Context `{E : Env}.

(** [get_ss_info]: the parameters from the server a client has chosen. *)
Definition ask_ss_info (get : string -> option ss_info_hdr) (cn : conn) (c : client) : option (Z + ss_info_hdr) :=
  addr ← cn_addrs cn !! Z.to_nat (cl_my_server c);
  Some (match get addr with None => inl dspaces_ERR_MERCURY | Some info => inr info end).

(** After [init_ss_info] or [init_ss_info_mpi]. *)
Definition finish_start (cn : conn) (c : client) (r : Z + ss_info_hdr) : option outcome :=
  match r with
  | inl err => Some (mkOutcome err None true)
  | inr info =>
      c ← dspaces_post_init (ih_max_versions info) (install_ss_info info c);
      Some (mkOutcome dspaces_SUCCESS (Some (c, cn)) true)
  end.

(** From the connection data on. *)
Definition start_from (rank : Z) (node : string) (margo_init : string -> option string) (cn : conn)
    (get : string -> option ss_info_hdr) : option outcome :=
  match dspaces_init_margo margo_init (cn_listen cn) with
  | inl err => Some (mkOutcome err None true)
  | inr my_addr =>
      c ← choose_server (new_client rank node my_addr cn);
      r ← ask_ss_info get cn c;
      finish_start cn c r
  end.

(** [dspaces_init]; [file] is [None] when [conf.ds] cannot be opened. *)
Definition dspaces_init_full (flag : bool) (rank : Z) (node : string) (margo_init : string -> option string)
    (file : option text) (get : string -> option ss_info_hdr) : option outcome :=
  match dspaces_init_internal flag with
  | inl err => Some (mkOutcome err None flag)
  | inr flag =>
      match file with
      | None => Some (mkOutcome (-1) None flag)
      | Some s => cn ← read_conf s; start_from rank node margo_init cn get
      end
  end.

(** [dspaces_init_wan] does not look at what [dspaces_init_margo] returns:
    after a failure it goes on with a null instance. *)
Definition dspaces_init_wan (flag : bool) (listen conn_str : string) (rank : Z) (node : string)
    (margo_init : string -> option string) (get : string -> option ss_info_hdr) : option outcome :=
  match dspaces_init_internal flag with
  | inl err => Some (mkOutcome err None flag)
  | inr flag =>
      match dspaces_init_margo margo_init listen with
      | inl _ => None
      | inr _ => start_from rank node margo_init (arg_conf conn_str listen) get
      end
  end.

(** ** The processes of a communicator *)

(** A process: the name of its node, its flag, and Margo on its node. *)
Record member := mkMember {
  m_node : string;
  m_flag : bool;
  m_margo : string -> option string
}.

(** A collective call needs every process of the communicator: [l] says of
    each of them the error it has returned with, or its state.  All of them
    take part, or none does and all have returned; anything else hangs. *)
Inductive together {A : Type} := AllHere (l : list A) | AllGone (l : list Z).
Arguments together : clear implicits.

Fixpoint lefts {A} (l : list (Z + A)) : option (list Z) :=
  match l with
  | [] => Some []
  | inl e :: l => es ← lefts l; Some (e :: es)
  | inr _ :: _ => None
  end.

Fixpoint rights {A} (l : list (Z + A)) : option (list A) :=
  match l with
  | [] => Some []
  | inr x :: l => xs ← rights l; Some (x :: xs)
  | inl _ :: _ => None
  end.

Definition collective {A} (l : list (Z + A)) : option (together A) :=
  match rights l with
  | Some xs => Some (AllHere xs)
  | None => es ← lefts l; Some (AllGone es)
  end.

Definition returned (flag : bool) (err : Z) : outcome := mkOutcome err None flag.

(** [read_conf_mpi]: rank 0 opens the file; its length, an [int], or -1 is
    broadcast, then the bytes, which every process reads from memory. *)
Definition read_conf_mpi (file : option text) : option (Z + conn) :=
  let file_len := match file with None => -1 | Some s => i32 (Z.of_nat (length s)) end in
  if file_len =? -1 then Some (inl (-1))
  else if file_len <? 0 then None
  else cn ← read_conf (take (Z.to_nat file_len) (default [] file)); Some (inr cn).

(** The ranks with their members. *)
Definition ranked {A} (l : list A) : list (Z * A) := combine (map Z.of_nat (seq 0 (length l))) l.

(** [init_ss_info_mpi]: rank 0 asks the server it has chosen; the code it got
    and, on success, the parameters are broadcast. *)
Definition init_ss_info_mpi (get : string -> option ss_info_hdr) (cn : conn) (cs : list client)
    : option (list outcome) :=
  c0 ← cs !! 0%nat;
  r ← ask_ss_info get cn c0;
  mapM (fun c => finish_start cn c r) cs.

(** [choose_server] after Margo listens. *)
Definition members_choose (cn : conn) (addrs : list (Z * (member * string))) : option (list client) :=
  mapM (fun rma => choose_server (new_client (fst rma) (m_node (fst (snd rma))) (snd (snd rma)) cn)) addrs.

(** The part that [dspaces_init_mpi] and [dspaces_init_wan_mpi] share. *)
Definition start_all (ms : list member) (cn : conn) (get : string -> option ss_info_hdr) : option (list outcome) :=
  t ← collective (map (fun m => match dspaces_init_margo (m_margo m) (cn_listen cn) with
                               | inl e => inl e | inr a => inr (m, a) end) ms);
  match t with
  | AllGone es => Some (map (returned true) es)
  | AllHere mas => cs ← members_choose cn (ranked mas); init_ss_info_mpi get cn cs
  end.

(** [dspaces_init_mpi] called by every process. *)
Definition dspaces_init_mpi (ms : list member) (file : option text) (get : string -> option ss_info_hdr)
    : option (list outcome) :=
  t ← collective (map (fun m => match dspaces_init_internal (m_flag m) with inl e => inl e | inr _ => inr m end) ms);
  match t with
  | AllGone es => Some (map (returned true) es)
  | AllHere ms =>
      r ← read_conf_mpi file;
      match r with
      | inl err => Some (map (fun _ => returned true err) ms)
      | inr cn => start_all ms cn get
      end
  end.

(** [dspaces_init_wan_mpi]: no collective call comes before the one of
    [init_ss_info_mpi]. *)
Definition dspaces_init_wan_mpi (listen conn_str : string) (ms : list member) (get : string -> option ss_info_hdr)
    : option (list outcome) :=
  t ← collective (map (fun m => match dspaces_init_internal (m_flag m) with
                               | inl e => inl e
                               | inr _ => match dspaces_init_margo (m_margo m) listen with
                                          | inl e => inl e | inr a => inr (m, a) end
                               end) ms);
  match t with
  | AllGone es => Some (map (returned true) es)
  | AllHere mas => cs ← members_choose (arg_conf conn_str listen) (ranked mas); init_ss_info_mpi get (arg_conf conn_str listen) cs
  end.

(** ** The connections of a server *)

(** The loop of [dspaces_server_init]: a connection that fails leaves the
    pointer as [malloc] returned it ([None]). *)
Fixpoint connect_remotes (flag : bool) (listen : string) (node : string) (margo_init : string -> option string)
    (get : string -> option ss_info_hdr) (remotes : list string) : option (list (option (client * conn)) * bool) :=
  match remotes with
  | [] => Some ([], flag)
  | addr :: remotes =>
      o ← dspaces_init_wan flag listen addr 0 node margo_init get;
      '(cs, flag) ← connect_remotes (o_flag o) listen node margo_init get remotes;
      Some (o_client o :: cs, flag)
  end.

(** ** Lemmas *)

(** Starting alone is what [Startup] describes. *)
Lemma init_full_init rank node margo_init s cn get my_addr :
  read_conf s = Some cn -> margo_init (cn_listen cn) = Some my_addr ->
  dspaces_init_full false rank node margo_init (Some s) get =
    option_map (fun r => mkOutcome (fst r) (snd r) true) (dspaces_init rank node my_addr s get).
Proof.
  intros Hs Hm. unfold dspaces_init_full, dspaces_init, start_from, dspaces_init_margo, ask_ss_info, dspaces_init_internal.
  rewrite Hs. cbn [mbind option_bind]. rewrite Hm.
  destruct (choose_server _) as [c|]; [|done]. cbn [mbind option_bind].
  destruct (cn_addrs cn !! _) as [a|]; [|done]. cbn [mbind option_bind]. unfold finish_start.
  destruct (get a) as [info|]; [|done]. by destruct (dspaces_post_init _ _).
Qed.

Lemma collective_here {A B} (f : A -> Z + B) (g : A -> B) l :
  Forall (fun x => f x = inr (g x)) l -> collective (map f l) = Some (AllHere (map g l)).
Proof.
  intros H. unfold collective. replace (rights (map f l)) with (Some (map g l)); [done|].
  induction H as [|x l Hx H IH]; [done|]. cbn. rewrite Hx, <- IH. done.
Qed.


(** Every outcome leaves the flag set. *)
Lemma start_from_flag rank node mi cn get o : start_from rank node mi cn get = Some o -> o_flag o = true.
Proof.
  unfold start_from, dspaces_init_margo, finish_start. destruct (mi _); [|by intros [= <-]].
  destruct (choose_server _) as [c|]; [|done]. cbn [mbind option_bind].
  destruct (ask_ss_info _ _ _) as [[e|info]|]; [..|done]; cbn [mbind option_bind]; [by intros [= <-]|].
  destruct (dspaces_post_init _ _); [|done]. by intros [= <-].
Qed.

Lemma init_wan_flag flag listen a rank node mi get o :
  dspaces_init_wan flag listen a rank node mi get = Some o -> o_flag o = true.
Proof.
  unfold dspaces_init_wan, dspaces_init_internal. destruct flag; [by intros [= <-]|].
  destruct (dspaces_init_margo mi listen); [done|]. apply start_from_flag.
Qed.

Lemma connect_remotes_set listen node mi get l :
  connect_remotes true listen node mi get l = Some (replicate (length l) None, true).
Proof. induction l as [|a l IH]; [done|]. cbn. cbn in IH. by rewrite IH. Qed.

(** ** A group starts as its processes would alone *)

Lemma ranked_map {A B} (f : A -> B) l : ranked (map f l) = map (fun rx => (fst rx, f (snd rx))) (ranked l).
Proof.
  unfold ranked. rewrite length_map. generalize (map Z.of_nat (seq 0 (length l))) as rs.
  induction l as [|x l IH]; intros [|r rs]; cbn; [done..|]. by rewrite IH.
Qed.

Lemma ranked_lookup {A} (l : list A) i x : l !! i = Some x -> ranked l !! i = Some (Z.of_nat i, x).
Proof.
  intros H. unfold ranked. apply lookup_lt_Some in H as Hlt.
  assert (G : forall (a : list Z) (b : list A) j r y, a !! j = Some r -> b !! j = Some y -> combine a b !! j = Some (r, y)).
  { induction a as [|r a IH]; intros [|y b] [|j] r' y' Ha Hb; cbn in *; simplify_eq; [done|by apply IH]. }
  apply G; [|done]. by rewrite list_lookup_fmap, lookup_seq_lt by lia.
Qed.

Lemma ranked_member {A} (l : list A) r x : (r, x) ∈ ranked l -> x ∈ l.
Proof.
  intros H. apply list_elem_of_In, (in_combine_r (map Z.of_nat (seq 0 (length l))) _ r). by apply list_elem_of_In.
Qed.

Lemma ranked_nonneg {A} (l : list A) : Forall (fun rx => 0 <= fst rx) (ranked l).
Proof.
  unfold ranked. generalize 0%nat as k. induction l as [|x l IH]; intros k; cbn; constructor; [cbn; lia|apply IH].
Qed.

(** A chosen server is one of the file's. *)
Lemma ask_chosen get cn info rank node a c :
  cn_names cn <> [] -> length (cn_names cn) = length (cn_addrs cn) -> (forall x, x ∈ cn_addrs cn -> get x = Some info) ->
  0 <= rank -> choose_server (new_client rank node a cn) = Some c -> ask_ss_info get cn c = Some (inr info).
Proof.
  intros Hn Hl Hg Hr Hc. destruct (choose_server_some (new_client rank node a cn) Hn Hr) as (n & E1 & E2 & _).
  rewrite E1 in Hc. injection Hc as <-. unfold ask_ss_info. cbn [set_my_server cl_my_server new_client cl_nodes] in *.
  rewrite Nat2Z.id. destruct (lookup_lt_is_Some_2 (cn_addrs cn) n ltac:(lia)) as [x Hx]. rewrite Hx. cbn [mbind option_bind].
  rewrite Hg; [done|]. by eapply list_elem_of_lookup_2.
Qed.

Lemma read_conf_mpi_file s cn : Z.of_nat (length s) < 2 ^ 31 -> read_conf s = Some cn -> read_conf_mpi (Some s) = Some (inr cn).
Proof.
  intros Hl Hs. unfold read_conf_mpi. rewrite i32_small by lia.
  destruct (Z.eqb_spec (Z.of_nat (length s)) (-1)); [lia|]. destruct (Z.ltb_spec (Z.of_nat (length s)) 0); [lia|].
  change (default [] (Some s)) with s. rewrite Nat2Z.id, firstn_all, Hs. done.
Qed.

Lemma init_mpi_alone ms s cn get info :
  ms <> [] -> Forall (fun m => m_flag m = false /\ is_Some (m_margo m (cn_listen cn))) ms ->
  Z.of_nat (length s) < 2 ^ 31 -> read_conf s = Some cn ->
  cn_names cn <> [] -> length (cn_names cn) = length (cn_addrs cn) -> (forall x, x ∈ cn_addrs cn -> get x = Some info) ->
  dspaces_init_mpi ms (Some s) get =
    mapM (fun rm => dspaces_init_full false (fst rm) (m_node (snd rm)) (m_margo (snd rm)) (Some s) get) (ranked ms).
Proof.
  intros Hne Hms Hl Hs Hn Hlen Hg. unfold dspaces_init_mpi.
  rewrite (collective_here _ (fun m => m)), map_id
    by (eapply Forall_impl; [exact Hms|]; intros m [Hf _]; cbn; unfold dspaces_init_internal; by rewrite Hf).
  cbn [mbind option_bind]. rewrite (read_conf_mpi_file s cn) by done. cbn [mbind option_bind]. unfold start_all.
  set (addr := fun m => default ""%string (m_margo m (cn_listen cn))).
  rewrite (collective_here _ (fun m => (m, addr m)))
    by (eapply Forall_impl; [exact Hms|]; intros m [_ [a Ha]]; unfold dspaces_init_margo, addr; cbn; by rewrite Ha).
  cbn [mbind option_bind]. unfold members_choose. rewrite ranked_map, mapM_map. cbn [fst snd].
  set (choose := fun rm : Z * member => choose_server (new_client (fst rm) (m_node (snd rm)) (addr (snd rm)) cn)).
  assert (Halone : Forall (fun rm => dspaces_init_full false (fst rm) (m_node (snd rm)) (m_margo (snd rm)) (Some s) get
      = (c ← choose rm; finish_start cn c (inr info))) (ranked ms)).
  { apply Forall_forall. intros [r m] Hrm. pose proof (ranked_nonneg ms) as Hr.
    rewrite Forall_forall in Hr. specialize (Hr _ Hrm). cbn [fst snd] in *.
    apply ranked_member in Hrm as Hm.
    rewrite Forall_forall in Hms. destruct (Hms m Hm) as [_ [a Ha]].
    unfold dspaces_init_full, dspaces_init_internal, start_from, dspaces_init_margo. rewrite Hs. cbn [mbind option_bind].
    rewrite Ha. unfold choose, addr. cbn [fst snd]. rewrite Ha. cbn [from_option id].
    destruct (choose_server _) as [c|] eqn:Hc; [|done]. cbn [mbind option_bind].
    by rewrite (ask_chosen get cn info r (m_node m) a c). }
  rewrite (mapM_ext_in _ _ _ Halone), mapM_mbind.
  fold choose. destruct (mapM choose (ranked ms)) as [cs|] eqn:Hcs; [|done]. cbn [mbind option_bind]. unfold init_ss_info_mpi.
  destruct ms as [|m ms]; [done|]. 
  destruct cs as [|c cs]; [by apply mapM_Some_1, Forall2_length in Hcs|].
  cbn [lookup list_lookup mbind option_bind].
  apply mapM_Some_1, Forall2_cons_1 in Hcs as [Hc _].
  rewrite (ask_chosen get cn info 0 (m_node m) (addr m) c) by done. done.
Qed.

(** The answer of the server at an address. *)
Definition servers_answer (svs : list server) (a : string) : option ss_info_hdr :=
  option_map ss_rpc (find (fun sv => String.eqb (sv_addr sv) a) svs).

Lemma servers_answer_same svs conf k sv0 a :
  Forall (fun sv => sv_conf sv = conf /\ sv_size_sp sv = k) svs -> NoDup (map sv_addr svs) -> head svs = Some sv0 ->
  a ∈ map sv_addr svs -> servers_answer svs a = Some (ss_rpc sv0).
Proof.
  intros Hall Hnd H0 Ha. apply list_elem_of_fmap in Ha as (sv & -> & Hsv).
  apply list_elem_of_lookup in Hsv as [n Hn]. unfold servers_answer. rewrite (find_addr svs n sv) by done.
  cbn [option_map]. f_equal. rewrite Forall_lookup in Hall. destruct (Hall _ _ Hn) as [E1 E2].
  destruct svs as [|x svs]; [done|]. injection H0 as ->. destruct (Hall 0%nat sv0 eq_refl) as [E3 E4].
  unfold ss_rpc. by rewrite E1, E2, E3, E4.
Qed.

(** What a process has that started with rank [r]. *)
Definition started (svs : list server) (conf : ds_conf) (cn : conn) (r : Z) (m : member) (c : client) : Prop :=
  exists addr sv,
    m_margo m (cn_listen cn) = Some addr /\
    dspaces_init r (m_node m) addr (write_conf cn) (servers_answer svs) = Some (dspaces_SUCCESS, Some (c, cn)) /\
    svs !! Z.to_nat (cl_my_server c) = Some sv /\
    (forall odsc, global_dimension_equal (client_gdim c odsc) (conf_gdim conf) = true) /\
    keeps (conf_max_versions conf) c [].

Lemma member_started cn svs conf r m :
  conn_ok cn -> cn_addrs cn = map sv_addr svs -> svs <> [] ->
  Forall (fun sv => sv_conf sv = conf) svs -> NoDup (map sv_addr svs) ->
  (conf_ndim conf <= BBOX_MAX_NDIM)%nat -> 0 < conf_max_versions conf ->
  0 <= r -> is_Some (m_margo m (cn_listen cn)) ->
  exists c, dspaces_init_full false r (m_node m) (m_margo m) (Some (write_conf cn)) (servers_answer svs)
      = Some (mkOutcome dspaces_SUCCESS (Some (c, cn)) true) /\ started svs conf cn r m c.
Proof.
  intros Hcn Haddr Hne Hall Hnd Hdim Hmv Hr [addr Ha].
  destruct (dspaces_init_ok cn svs conf r (m_node m) addr) as (c & sv & H1 & H2 & _ & H3 & H4); try done.
  exists c. rewrite (init_full_init r (m_node m) (m_margo m) _ cn _ addr) by (try done; by apply read_write_conf).
  unfold servers_answer at 1. rewrite H1. split; [done|]. by exists addr, sv.
Qed.

Lemma init_mpi_started cn svs conf k ms :
  conn_ok cn -> cn_addrs cn = map sv_addr svs -> svs <> [] ->
  Forall (fun sv => sv_conf sv = conf /\ sv_size_sp sv = k) svs -> NoDup (map sv_addr svs) ->
  (conf_ndim conf <= BBOX_MAX_NDIM)%nat -> 0 < conf_max_versions conf ->
  ms <> [] -> Forall (fun m => m_flag m = false /\ is_Some (m_margo m (cn_listen cn))) ms ->
  Z.of_nat (length (write_conf cn)) < 2 ^ 31 ->
  exists cs,
    dspaces_init_mpi ms (Some (write_conf cn)) (servers_answer svs)
      = Some (map (fun c => mkOutcome dspaces_SUCCESS (Some (c, cn)) true) cs) /\
    length cs = length ms /\
    forall i m, ms !! i = Some m -> exists c, cs !! i = Some c /\ started svs conf cn (Z.of_nat i) m c.
Proof.
  intros Hcn Haddr Hne Hall Hnd Hdim Hmv Hms Hmem Hlen.
  pose proof (co_len _ Hcn) as [Hl _]. assert (H0 : exists sv0, head svs = Some sv0) by (destruct svs; [done|by eexists]).
  destruct H0 as [sv0 H0].
  rewrite (init_mpi_alone ms _ cn _ (ss_rpc sv0)); try done.
  2: by apply read_write_conf.
  2: { intros E0. rewrite E0, Haddr in Hl. by destruct svs. }
  2: { intros x Hx. rewrite Haddr in Hx. by apply (servers_answer_same svs conf k sv0). }
  destruct (mapM_all (fun rm => dspaces_init_full false (fst rm) (m_node (snd rm)) (m_margo (snd rm)) (Some (write_conf cn))
      (servers_answer svs)) (fun c => mkOutcome dspaces_SUCCESS (Some (c, cn)) true)
    (fun rm c => started svs conf cn (fst rm) (snd rm) c) (ranked ms)) as (cs & Hcs & HF).
  { intros i [r m] Hi. apply (member_started cn svs conf); try done.
    - eapply Forall_impl; [exact Hall|]. by intros sv [? _].
    - pose proof (ranked_nonneg ms) as G. rewrite Forall_lookup in G. exact (G _ _ Hi).
    - rewrite Forall_forall in Hmem. apply Hmem, (ranked_member _ r). by eapply list_elem_of_lookup_2. }
  exists cs. split; [exact Hcs|]. split.
  - apply Forall2_length in HF. rewrite <- HF. unfold ranked. rewrite length_combine, length_map, length_seq. lia.
  - intros i m Hm. apply ranked_lookup in Hm. by destruct (Forall2_lookup_l _ _ _ _ _ HF Hm) as (c & Hc & Hst); exists c.
Qed.

(** C26: the processes of a communicator that start together, in a cluster
    whose servers share a configuration: every one of them gets the client
    that [dspaces_init] gives a process of its rank and node that starts
    alone, although only rank 0 reads the file and asks a server.  Each is
    attached to a server that exists and starts with the servers' default
    dimensions and an empty storage. *)
Theorem dspaces_init_mpi_correct cn svs conf k ms :
  conn_ok cn -> cn_addrs cn = map sv_addr svs -> svs <> [] ->
  Forall (fun sv => sv_conf sv = conf /\ sv_size_sp sv = k) svs -> NoDup (map sv_addr svs) ->
  (conf_ndim conf <= BBOX_MAX_NDIM)%nat -> 0 < conf_max_versions conf ->
  ms <> [] -> Forall (fun m => m_flag m = false /\ is_Some (m_margo m (cn_listen cn))) ms ->
  Z.of_nat (length (write_conf cn)) < 2 ^ 31 ->
  exists cs,
    dspaces_init_mpi ms (Some (write_conf cn)) (servers_answer svs)
      = Some (map (fun c => mkOutcome dspaces_SUCCESS (Some (c, cn)) true) cs) /\
    length cs = length ms /\
    forall i m, ms !! i = Some m -> exists c, cs !! i = Some c /\ started svs conf cn (Z.of_nat i) m c.
Proof. apply init_mpi_started. Qed.

(** ** Failures *)




























(** [dspaces_init_wan] does not look at a failure of Margo. *)
Lemma init_wan_deaf listen conn_str rank node mi get : mi listen = None ->
  dspaces_init_wan false listen conn_str rank node mi get = None.
Proof. intros Hm. unfold dspaces_init_wan, dspaces_init_internal, dspaces_init_margo. by rewrite Hm. Qed.

(** A server with several remotes: the first connection sets the flag of the
    server's process, so the pointers of all the others stay as [malloc]
    returned them; [query_remotes] uses every one of them. *)
Lemma only_first_connected listen node mi get a l cs flag :
  connect_remotes false listen node mi get (a :: l) = Some (cs, flag) ->
  flag = true /\
  exists o, dspaces_init_wan false listen a 0 node mi get = Some o /\ cs = o_client o :: replicate (length l) None.
Proof.
  cbn [connect_remotes]. destruct (dspaces_init_wan false listen a 0 node mi get) as [o|] eqn:Ho; [|done].
  cbn [mbind option_bind]. rewrite (init_wan_flag _ _ _ _ _ _ _ _ Ho), connect_remotes_set. cbn [mbind option_bind]. intros [= <- <-]. split; [done|]. by exists o.
Qed.
End Start.

(** ** A concrete group *)

#[local] Existing Instance startup_env.

Definition group_members : list member :=
  [mkMember "n2" false (fun l => Some ("c0" ++ l)%string); mkMember "n7" false (fun l => Some ("c1" ++ l)%string);
   mkMember "n2" false (fun l => Some ("c2" ++ l)%string)].

Definition group_servers : list server := [startup_server "sm://a"; startup_server "sm://b"].

(** Rank 1 runs on a node without a server and is dealt server 1; ranks 0 and
    2 find server 1 on their node. *)
Lemma dspaces_init_mpi_correct_witness :
  exists cs, dspaces_init_mpi group_members (Some (write_conf startup_conn)) (servers_answer group_servers)
      = Some (map (fun c => mkOutcome dspaces_SUCCESS (Some (c, startup_conn)) true) cs) /\
    length cs = 3%nat.
Proof.
  destruct (dspaces_init_mpi_correct startup_conn group_servers startup_conf 2 group_members)
    as (cs & H1 & H2 & _);
    [exact startup_conn_ok|reflexivity|discriminate|do 2 (apply Forall_cons_2; [split; reflexivity|]); apply Forall_nil_2|
     |unfold BBOX_MAX_NDIM; simpl; lia|reflexivity|discriminate
     |do 3 (apply Forall_cons_2; [split; [reflexivity|eexists; reflexivity]|]); apply Forall_nil_2|vm_compute; reflexivity|].
  - apply NoDup_cons. split; [by intros ?%list_elem_of_singleton|apply NoDup_singleton].
  - exists cs. split; [exact H1|exact H2].
Defined.

Example group_run :
  option_map (map (fun o => (o_ret o, option_map (fun c => cl_my_server (fst c)) (o_client o))))
    (dspaces_init_mpi group_members (Some (write_conf startup_conn)) (servers_answer group_servers))
  = Some [(0, Some 1); (0, Some 1); (0, Some 1)].
Proof. vm_compute. reflexivity. Qed.



(** A server of two other systems. *)
Example second_remote_lost :
  option_map (fun r => map (fun c => match c with Some _ => true | None => false end) (fst r))
    (connect_remotes false "sm" "n1" (fun l => Some l) (servers_answer group_servers) ["sm://a"; "sm://b"]%string)
  = Some [true; false].
Proof. vm_compute. reflexivity. Qed.
