(* ===== verification/Rpc.v ===== *)
(** * Rpc: the requests clients and servers register and make

    The registration halves of [dspaces_server_init] of
    [src/src/dspaces-server.c] and of [dspaces_init_margo] of
    [src/src/dspaces-client.c], and for every place of the two files that
    makes a request or serves one, the types it encodes and decodes.  A wrong
    pair decodes one structure as another, waits for a reply that is switched
    off, or runs a handler without its process's state; the theorems show that
    every request reaches the handler it means, on both sides with the types
    used there. *)

From S2P Require Import Prelude.

#[local] Set Warnings "-clear-no-such-hyp".

(** ** Types, handlers and identifiers *)

(** The structures that travel, with their [hg_proc] encodings. *)
Inductive proc :=
  | bulk_gdim_t | bulk_in_t | bulk_out_t | odsc_gdim_t | odsc_list_t | odsc_hdr
  | put_meta_in_t | query_meta_in_t | query_meta_out_t | peek_meta_in_t | peek_meta_out_t
  | ss_information | int32_t | uint64_t | void | do_ops_in_t | pexec_in_t | pexec_out_t
  | cond_in_t | name_list_t | get_var_objs_in_t | reg_in_t | get_mod_in_t | get_mod_out_t.

(** The functions that serve requests. *)
Inductive handler :=
  | put_rpc | put_local_rpc | put_meta_rpc | get_rpc | query_rpc | peek_meta_rpc | query_meta_rpc
  | obj_update_rpc | odsc_internal_rpc | ss_rpc | kill_rpc | sub_rpc | do_ops_rpc | pexec_rpc | mpexec_rpc
  | cond_rpc | get_vars_rpc | get_var_objs_rpc | reg_rpc | get_mods_rpc | get_mod_rpc
  | get_local_rpc | drain_rpc | kill_client_rpc | notify_rpc.

(** The identifiers that [struct dspaces_client] and
    [struct dspaces_provider] hold. *)
Inductive id_field :=
  | put_id | put_local_id | put_meta_id | query_id | peek_meta_id | query_meta_id | get_id | get_local_id
  | obj_update_id | odsc_internal_id | ss_id | drain_id | kill_id | kill_client_id | sub_id | notify_id
  | do_ops_id | pexec_id | mpexec_id | cond_id | get_vars_id | get_var_objs_id | reg_id | get_mods_id
  | get_mod_id.

#[export] Instance proc_eq_dec : EqDecision proc.
Proof. solve_decision. Defined.
#[export] Instance handler_eq_dec : EqDecision handler.
Proof. solve_decision. Defined.
#[export] Instance id_field_eq_dec : EqDecision id_field.
Proof. solve_decision. Defined.

(** ** The registry of Margo *)

(** What a process has registered under an identifier: encodings, handler,
    whether the structure of the process is attached, whether replies are
    switched off. *)
Record rpc_entry := mkEntry {
  e_in : proc;
  e_out : proc;
  e_handler : option handler;
  e_data : bool;
  e_oneway : bool
}.

Definition rpc_names : list string :=
  ["put_rpc"; "put_local_rpc"; "put_meta_rpc"; "get_rpc"; "get_local_rpc"; "query_rpc"; "peek_meta_rpc";
   "query_meta_rpc"; "obj_update_rpc"; "odsc_internal_rpc"; "ss_rpc"; "drain_rpc"; "kill_rpc"; "kill_client_rpc";
   "sub_rpc"; "notify_rpc"; "do_ops_rpc"; "pexec_rpc"; "mpexec_rpc"; "cond_rpc"; "get_vars_rpc";
   "get_var_objs_rpc"; "reg_rpc"; "get_mods_rpc"; "get_mod_rpc"]%string.

(** Margo and Mercury are outside the repository.  [entry] is what a registry
    knows of an identifier. *)
Class Margo := {
  registry : Type;
  no_rpcs : registry;
  hg_id : string -> Z;
  margo_registered_name : registry -> string -> bool;
  MARGO_REGISTER : registry -> string -> proc -> proc -> option handler -> registry;
  HG_Register : registry -> Z -> proc -> proc -> handler -> registry;
  margo_register_data : registry -> Z -> registry;
  margo_registered_disable_response : registry -> Z -> registry;
  entry : registry -> Z -> option rpc_entry
}.

(** Documented behaviour: an identifier is a hash of the name, the same in
    every process, and the names of this program do not collide; each call
    changes the entry of its identifier only. *)
Class MargoLaws `{M : Margo} : Prop := {
  hg_id_inj n m : n ∈ rpc_names -> m ∈ rpc_names -> hg_id n = hg_id m -> n = m;
  entry_none id : entry no_rpcs id = None;
  registered_entry r n : margo_registered_name r n = match entry r (hg_id n) with Some _ => true | None => false end;
  entry_register r n i o h id : entry r (hg_id n) = None ->
    entry (MARGO_REGISTER r n i o h) id = if decide (id = hg_id n) then Some (mkEntry i o h false false) else entry r id;
  entry_HG_Register r k e i o h id : entry r k = Some e ->
    entry (HG_Register r k i o h) id =
      if decide (id = k) then Some (mkEntry i o (Some h) (e_data e) (e_oneway e)) else entry r id;
  entry_data r k e id : entry r k = Some e ->
    entry (margo_register_data r k) id =
      if decide (id = k) then Some (mkEntry (e_in e) (e_out e) (e_handler e) true (e_oneway e)) else entry r id;
  entry_disable r k e id : entry r k = Some e ->
    entry (margo_registered_disable_response r k) id =
      if decide (id = k) then Some (mkEntry (e_in e) (e_out e) (e_handler e) (e_data e) true) else entry r id
}.

(** ** The code as sequences of calls *)

(** One call of the registration code, with the field it reads or writes. *)
Inductive reg_call :=
  | Register (f : id_field) (n : string) (i o : proc) (h : option handler)
  | Data (f : id_field)
  | Oneway (f : id_field)
  | Lookup (n : string) (f : id_field)
  | Handler (f : id_field) (i o : proc) (h : handler).

Section Calls.
Context `{M : Margo}.

(** Identifiers of the process's structure and its registry. *)
Record rpc_state := mkRpc { r_ids : id_field -> Z; r_reg : registry }.

Definition set_id (f : id_field) (v : Z) (ids : id_field -> Z) : id_field -> Z :=
  fun g => if decide (g = f) then v else ids g.

(** [margo_registered_name] stores the identifier of the name. *)
Definition reg_step (s : rpc_state) (c : reg_call) : rpc_state :=
  let '(mkRpc ids r) := s in
  match c with
  | Register f n i o h => mkRpc (set_id f (hg_id n) ids) (MARGO_REGISTER r n i o h)
  | Data f => mkRpc ids (margo_register_data r (ids f))
  | Oneway f => mkRpc ids (margo_registered_disable_response r (ids f))
  | Lookup n f => mkRpc (set_id f (hg_id n) ids) r
  | Handler f i o h => mkRpc ids (HG_Register r (ids f) i o h)
  end.

Definition reg_run (s : rpc_state) (cs : list reg_call) : rpc_state := fold_left reg_step cs s.
End Calls.

(** ** The client *)

Definition client_registered : list reg_call := [
  Lookup "put_rpc" put_id; Lookup "put_local_rpc" put_local_id; Lookup "put_meta_rpc" put_meta_id;
  Lookup "get_rpc" get_id; Lookup "get_local_rpc" get_local_id;
  Handler get_local_id bulk_in_t bulk_out_t get_local_rpc;
  Lookup "query_rpc" query_id; Lookup "ss_rpc" ss_id; Lookup "drain_rpc" drain_id;
  Handler drain_id bulk_in_t bulk_out_t drain_rpc;
  Lookup "kill_rpc" kill_id; Lookup "kill_client_rpc" kill_client_id;
  Handler kill_client_id int32_t void kill_client_rpc;
  Lookup "sub_rpc" sub_id; Lookup "notify_rpc" notify_id;
  Handler notify_id odsc_list_t void notify_rpc;
  Lookup "query_meta_rpc" query_meta_id; Lookup "do_ops_rpc" do_ops_id; Lookup "pexec_rpc" pexec_id;
  Lookup "mpexec_rpc" pexec_id; Lookup "cond_rpc" cond_id; Lookup "get_vars_rpc" get_vars_id;
  Lookup "get_var_objs_rpc" get_var_objs_id; Lookup "reg_rpc" reg_id; Lookup "get_mods_rpc" get_mods_id;
  Lookup "get_mod_rpc" get_mod_id]%string.

Definition client_new : list reg_call := [
  Register put_id "put_rpc" bulk_gdim_t bulk_out_t None;
  Register put_local_id "put_local_rpc" odsc_gdim_t bulk_out_t None;
  Register put_meta_id "put_meta_rpc" put_meta_in_t bulk_out_t None; Data put_meta_id;
  Register get_id "get_rpc" bulk_in_t bulk_out_t None; Data get_id;
  Register get_local_id "get_local_rpc" bulk_in_t bulk_out_t (Some get_local_rpc); Data get_local_id;
  Register query_id "query_rpc" odsc_gdim_t odsc_list_t None;
  Register query_meta_id "query_meta_rpc" query_meta_in_t query_meta_out_t None;
  Register ss_id "ss_rpc" void ss_information None;
  Register drain_id "drain_rpc" bulk_in_t bulk_out_t (Some drain_rpc); Data drain_id;
  Register kill_id "kill_rpc" int32_t void None; Oneway kill_id; Data kill_id;
  Register kill_client_id "kill_client_rpc" int32_t void (Some kill_client_rpc); Oneway kill_client_id;
  Data kill_client_id;
  Register sub_id "sub_rpc" odsc_gdim_t void None; Oneway sub_id;
  Register notify_id "notify_rpc" odsc_list_t void (Some notify_rpc); Data notify_id; Oneway notify_id;
  Register do_ops_id "do_ops_rpc" do_ops_in_t bulk_out_t None;
  Register pexec_id "pexec_rpc" pexec_in_t pexec_out_t None;
  Register mpexec_id "mpexec_rpc" pexec_in_t pexec_out_t None;
  Register cond_id "cond_rpc" cond_in_t void None; Oneway cond_id;
  Register get_vars_id "get_vars_rpc" int32_t name_list_t None;
  Register get_var_objs_id "get_var_objs_rpc" get_var_objs_in_t odsc_hdr None;
  Register reg_id "reg_rpc" reg_in_t uint64_t None;
  Register get_mods_id "get_mods_rpc" void name_list_t None;
  Register get_mod_id "get_mod_rpc" get_mod_in_t get_mod_out_t None]%string.

(** ** The server, with or without Python *)

Definition server_registered (python : bool) : list reg_call := [
  Lookup "put_rpc" put_id; Handler put_id bulk_gdim_t bulk_out_t put_rpc;
  Lookup "put_local_rpc" put_local_id; Handler put_local_id odsc_gdim_t bulk_out_t put_local_rpc;
  Lookup "put_meta_rpc" put_meta_id; Handler put_meta_id put_meta_in_t bulk_out_t put_meta_rpc;
  Lookup "get_rpc" get_id; Handler get_id bulk_in_t bulk_out_t get_rpc;
  Lookup "get_local_rpc" get_local_id;
  Lookup "query_rpc" query_id; Handler query_id odsc_gdim_t odsc_list_t query_rpc;
  Lookup "peek_meta_rpc" peek_meta_id; Handler peek_meta_id peek_meta_in_t peek_meta_out_t peek_meta_rpc;
  Lookup "query_meta_rpc" query_meta_id; Handler query_meta_id query_meta_in_t query_meta_out_t query_meta_rpc;
  Lookup "obj_update_rpc" obj_update_id; Handler obj_update_id odsc_gdim_t void obj_update_rpc;
  Lookup "odsc_internal_rpc" odsc_internal_id; Handler odsc_internal_id odsc_gdim_t odsc_list_t odsc_internal_rpc;
  Lookup "ss_rpc" ss_id; Handler ss_id void ss_information ss_rpc;
  Lookup "drain_rpc" drain_id; Lookup "kill_rpc" kill_id; Handler kill_id int32_t void kill_rpc;
  Lookup "kill_client_rpc" kill_client_id;
  Lookup "sub_rpc" sub_id; Handler sub_id odsc_gdim_t void sub_rpc;
  Lookup "notify_rpc" notify_id;
  Lookup "do_ops_rpc" do_ops_id; Handler do_ops_id do_ops_in_t bulk_out_t do_ops_rpc]%string
  ++ (if python then [
  Lookup "pexec_rpc" pexec_id; Handler pexec_id pexec_in_t pexec_out_t pexec_rpc;
  Lookup "mpexec_rpc" mpexec_id; Handler mpexec_id pexec_in_t pexec_out_t pexec_rpc]%string else [])
  ++ [
  Lookup "cond_rpc" cond_id; Handler cond_id cond_in_t void cond_rpc;
  Lookup "get_vars_rpc" get_vars_id; Handler get_vars_id int32_t name_list_t get_vars_rpc;
  Lookup "get_var_objs_rpc" get_var_objs_id; Handler get_var_objs_id get_var_objs_in_t odsc_hdr get_var_objs_rpc;
  Lookup "reg_rpc" reg_id; Handler reg_id reg_in_t uint64_t reg_rpc;
  Lookup "get_mods_rpc" get_mods_id; Handler get_mods_id void name_list_t get_mods_rpc;
  Lookup "get_mod_rpc" get_mod_id; Handler get_mod_id get_mod_in_t get_mod_out_t get_mod_rpc]%string.

Definition server_new (python : bool) : list reg_call := [
  Register put_id "put_rpc" bulk_gdim_t bulk_out_t (Some put_rpc); Data put_id;
  Register put_local_id "put_local_rpc" odsc_gdim_t bulk_out_t (Some put_local_rpc); Data put_local_id;
  Register put_meta_id "put_meta_rpc" put_meta_in_t bulk_out_t (Some put_meta_rpc); Data put_meta_id;
  Register get_id "get_rpc" bulk_in_t bulk_out_t (Some get_rpc);
  Register get_local_id "get_local_rpc" bulk_in_t bulk_out_t None; Data get_id;
  Register query_id "query_rpc" odsc_gdim_t odsc_list_t (Some query_rpc); Data query_id;
  Register peek_meta_id "peek_meta_rpc" peek_meta_in_t peek_meta_out_t (Some peek_meta_rpc); Data peek_meta_id;
  Register query_meta_id "query_meta_rpc" query_meta_in_t query_meta_out_t (Some query_meta_rpc); Data query_meta_id;
  Register obj_update_id "obj_update_rpc" odsc_gdim_t void (Some obj_update_rpc); Data obj_update_id;
  Oneway obj_update_id;
  Register odsc_internal_id "odsc_internal_rpc" odsc_gdim_t odsc_list_t (Some odsc_internal_rpc);
  Data odsc_internal_id;
  Register ss_id "ss_rpc" void ss_information (Some ss_rpc); Data ss_id;
  Register drain_id "drain_rpc" bulk_in_t bulk_out_t None;
  Register kill_id "kill_rpc" int32_t void (Some kill_rpc); Oneway kill_id; Data kill_id;
  Register kill_client_id "kill_client_rpc" int32_t void None; Oneway kill_client_id;
  Register sub_id "sub_rpc" odsc_gdim_t void (Some sub_rpc); Data sub_id; Oneway sub_id;
  Register notify_id "notify_rpc" odsc_list_t void None; Oneway notify_id;
  Register do_ops_id "do_ops_rpc" do_ops_in_t bulk_out_t (Some do_ops_rpc); Data do_ops_id]%string
  ++ (if python then [
  Register pexec_id "pexec_rpc" pexec_in_t pexec_out_t (Some pexec_rpc); Data pexec_id;
  Register mpexec_id "mpexec_rpc" pexec_in_t pexec_out_t (Some mpexec_rpc); Data mpexec_id]%string else [])
  ++ [
  Register cond_id "cond_rpc" cond_in_t void (Some cond_rpc); Data cond_id; Oneway cond_id;
  Register get_vars_id "get_vars_rpc" int32_t name_list_t (Some get_vars_rpc); Data get_vars_id;
  Register get_var_objs_id "get_var_objs_rpc" get_var_objs_in_t odsc_hdr (Some get_var_objs_rpc);
  Data get_var_objs_id;
  Register reg_id "reg_rpc" reg_in_t uint64_t (Some reg_rpc); Data reg_id;
  Register get_mods_id "get_mods_rpc" void name_list_t (Some get_mods_rpc); Data get_mods_id;
  Register get_mod_id "get_mod_rpc" get_mod_in_t get_mod_out_t (Some get_mod_rpc); Data get_mod_id]%string.

Section Init.
Context `{M : Margo}.

(** The structures are zeroed before; the name of the first request tells
    whether the process has registered already. *)
Definition zero_ids : id_field -> Z := fun _ => 0.

Definition client_register (r : registry) : rpc_state :=
  reg_run (mkRpc zero_ids r) (if margo_registered_name r "put_rpc" then client_registered else client_new).

Definition server_register (python : bool) (r : registry) : rpc_state :=
  reg_run (mkRpc zero_ids r)
    (if margo_registered_name r "put_rpc" then server_registered python else server_new python).
End Init.

(** ** Requests made and served *)

(** A place that makes a request: the function, the field it takes the
    identifier from, the structure it sends, the structure it decodes the
    reply into ([None] where it does not wait), and the handler it means. *)
Record rpc_call := mkCall {
  c_site : string;
  c_field : id_field;
  c_in : proc;
  c_out : option proc;
  c_target : handler
}.

Definition client_to_server : list rpc_call := [
  mkCall "get_ss_info" ss_id void (Some ss_information) ss_rpc;
  mkCall "dspaces_put_tag" put_id bulk_gdim_t (Some bulk_out_t) put_rpc;
  mkCall "dspaces_iput" put_id bulk_gdim_t (Some bulk_out_t) put_rpc;
  mkCall "get_data" get_id bulk_in_t (Some bulk_out_t) get_rpc;
  mkCall "dspaces_put_meta" put_meta_id put_meta_in_t (Some bulk_out_t) put_meta_rpc;
  mkCall "dspaces_put_local" put_local_id odsc_gdim_t (Some bulk_out_t) put_local_rpc;
  mkCall "get_odscs" query_id odsc_gdim_t (Some odsc_list_t) query_rpc;
  mkCall "dspaces_get_module" get_mod_id get_mod_in_t (Some get_mod_out_t) get_mod_rpc;
  mkCall "dspaces_get_meta" query_meta_id query_meta_in_t (Some query_meta_out_t) query_meta_rpc;
  mkCall "dspaces_mpexec" mpexec_id pexec_in_t (Some pexec_out_t) mpexec_rpc;
  mkCall "dspaces_mpexec" cond_id cond_in_t None cond_rpc;
  mkCall "dspaces_pexec" pexec_id pexec_in_t (Some pexec_out_t) pexec_rpc;
  mkCall "dspaces_pexec" cond_id cond_in_t None cond_rpc;
  mkCall "dspaces_register_simple" reg_id reg_in_t (Some uint64_t) reg_rpc;
  mkCall "dspaces_sub" sub_id odsc_gdim_t None sub_rpc;
  mkCall "dspaces_kill" kill_id int32_t None kill_rpc;
  mkCall "dspaces_op_calc" do_ops_id do_ops_in_t (Some bulk_out_t) do_ops_rpc;
  mkCall "dspaces_get_var_names" get_vars_id int32_t (Some name_list_t) get_vars_rpc;
  mkCall "dspaces_get_var_objs" get_var_objs_id get_var_objs_in_t (Some odsc_hdr) get_var_objs_rpc;
  mkCall "dspaces_get_modules" get_mods_id void (Some name_list_t) get_mods_rpc]%string.

Definition client_to_client : list rpc_call := [
  mkCall "get_data" get_local_id bulk_in_t (Some bulk_out_t) get_local_rpc]%string.

Definition server_to_server : list rpc_call := [
  mkCall "obj_update_dht" obj_update_id odsc_gdim_t None obj_update_rpc;
  mkCall "get_query_odscs" odsc_internal_id odsc_gdim_t (Some odsc_list_t) odsc_internal_rpc;
  mkCall "peek_meta_remotes" peek_meta_id peek_meta_in_t (Some peek_meta_out_t) peek_meta_rpc;
  mkCall "query_meta_rpc" query_meta_id query_meta_in_t (Some query_meta_out_t) query_meta_rpc;
  mkCall "send_kill_rpc" kill_id int32_t None kill_rpc;
  mkCall "kill_rpc" kill_id int32_t None kill_rpc;
  mkCall "get_vars_rpc" get_vars_id int32_t (Some name_list_t) get_vars_rpc;
  mkCall "get_var_objs_rpc" get_var_objs_id get_var_objs_in_t (Some odsc_hdr) get_var_objs_rpc;
  mkCall "reg_rpc" reg_id reg_in_t (Some uint64_t) reg_rpc]%string.

Definition server_to_client : list rpc_call := [
  mkCall "get_client_data" drain_id bulk_in_t (Some bulk_out_t) drain_rpc;
  mkCall "kill_client" kill_client_id int32_t None kill_client_rpc;
  mkCall "sub_rpc" notify_id odsc_list_t None notify_rpc]%string.

(** What a handler decodes its input as ([None]: it does not look at it) and
    the structure of its reply ([None]: it never replies). *)
Definition handler_takes (h : handler) : option proc :=
  match h with
  | put_rpc => Some bulk_gdim_t | put_local_rpc => Some odsc_gdim_t | put_meta_rpc => Some put_meta_in_t
  | get_rpc | get_local_rpc | drain_rpc => Some bulk_in_t
  | query_rpc | odsc_internal_rpc | obj_update_rpc | sub_rpc => Some odsc_gdim_t
  | peek_meta_rpc => Some peek_meta_in_t | query_meta_rpc => Some query_meta_in_t
  | kill_rpc | get_vars_rpc => Some int32_t
  | do_ops_rpc => Some do_ops_in_t | pexec_rpc | mpexec_rpc => Some pexec_in_t | cond_rpc => Some cond_in_t
  | get_var_objs_rpc => Some get_var_objs_in_t | reg_rpc => Some reg_in_t | get_mod_rpc => Some get_mod_in_t
  | notify_rpc => Some odsc_list_t
  | ss_rpc | get_mods_rpc | kill_client_rpc => None
  end.

Definition handler_replies (h : handler) : option proc :=
  match h with
  | put_rpc | put_local_rpc | put_meta_rpc | get_rpc | get_local_rpc | drain_rpc | do_ops_rpc => Some bulk_out_t
  | query_rpc | odsc_internal_rpc => Some odsc_list_t
  | peek_meta_rpc => Some peek_meta_out_t | query_meta_rpc => Some query_meta_out_t
  | ss_rpc => Some ss_information | pexec_rpc | mpexec_rpc => Some pexec_out_t
  | get_vars_rpc | get_mods_rpc => Some name_list_t | get_var_objs_rpc => Some odsc_hdr
  | reg_rpc => Some uint64_t | get_mod_rpc => Some get_mod_out_t
  | kill_rpc | sub_rpc | obj_update_rpc | cond_rpc | kill_client_rpc | notify_rpc => None
  end.

(** ** Registering, followed by name *)

(** The registry as a function of names, and the names in the fields of the
    structure: what [reg_run] computes, without Margo.  A step is undefined
    where the behaviour of Margo is not documented. *)
Record names_state := mkNames { n_ids : id_field -> option string; n_reg : string -> option rpc_entry }.

Definition upd_id (f : id_field) (n : string) (ids : id_field -> option string) : id_field -> option string :=
  fun g => if decide (g = f) then Some n else ids g.
Definition upd_reg (n : string) (e : rpc_entry) (r : string -> option rpc_entry) : string -> option rpc_entry :=
  fun m => if decide (m = n) then Some e else r m.

Definition on_entry (s : names_state) (f : id_field) (g : rpc_entry -> rpc_entry) : option names_state :=
  n ← n_ids s f;
  e ← n_reg s n;
  Some (mkNames (n_ids s) (upd_reg n (g e) (n_reg s))).

Definition names_step (s : names_state) (c : reg_call) : option names_state :=
  match c with
  | Register f n i o h =>
      if decide (n ∈ rpc_names /\ n_reg s n = None)
      then Some (mkNames (upd_id f n (n_ids s)) (upd_reg n (mkEntry i o h false false) (n_reg s))) else None
  | Lookup n f => if decide (n ∈ rpc_names) then Some (mkNames (upd_id f n (n_ids s)) (n_reg s)) else None
  | Data f => on_entry s f (fun e => mkEntry (e_in e) (e_out e) (e_handler e) true (e_oneway e))
  | Oneway f => on_entry s f (fun e => mkEntry (e_in e) (e_out e) (e_handler e) (e_data e) true)
  | Handler f i o h => on_entry s f (fun e => mkEntry i o (Some h) (e_data e) (e_oneway e))
  end.

Fixpoint names_run (s : names_state) (cs : list reg_call) : option names_state :=
  match cs with
  | [] => Some s
  | c :: cs => s ← names_step s c; names_run s cs
  end.

Definition no_names : names_state := mkNames (fun _ => None) (fun _ => None).

Section Names.
Context `{ML : MargoLaws}.

Record follows (s : names_state) (t : rpc_state) : Prop := {
  fo_ids f : r_ids t f = match n_ids s f with Some n => hg_id n | None => 0 end;
  fo_dom f n : n_ids s f = Some n -> n ∈ rpc_names;
  fo_reg n : n ∈ rpc_names -> entry (r_reg t) (hg_id n) = n_reg s n
}.

(** A call that changes the entry of one name. *)
Lemma follows_entry s t n e r' :
  follows s t -> n ∈ rpc_names ->
  (forall id, entry r' id = if decide (id = hg_id n) then Some e else entry (r_reg t) id) ->
  follows (mkNames (n_ids s) (upd_reg n e (n_reg s))) (mkRpc (r_ids t) r').
Proof.
  intros [Hi Hd Hr] Hn He. split; cbn; [exact Hi|exact Hd|].
  intros m Hm. rewrite He. unfold upd_reg.
  destruct (decide (m = n)) as [->|Hne]; [by rewrite decide_True|].
  rewrite decide_False by (intros ?; by apply Hne, hg_id_inj). by apply Hr.
Qed.

Lemma follows_id s t n f :
  follows s t -> n ∈ rpc_names -> follows (mkNames (upd_id f n (n_ids s)) (n_reg s)) (mkRpc (set_id f (hg_id n) (r_ids t)) (r_reg t)).
Proof.
  intros [Hi Hd Hr] Hn. split; cbn; [..|exact Hr]; unfold upd_id, set_id; intros g; case_decide; naive_solver.
Qed.

Lemma on_entry_inv s t f g s' : on_entry s f g = Some s' -> follows s t ->
  exists n e, n ∈ rpc_names /\ r_ids t f = hg_id n /\ entry (r_reg t) (hg_id n) = Some e /\
    s' = mkNames (n_ids s) (upd_reg n (g e) (n_reg s)).
Proof.
  unfold on_entry. intros H [Hi Hd Hr].
  destruct (n_ids s f) as [n|] eqn:Hf; [|done]. cbn in H.
  destruct (n_reg s n) as [e|] eqn:He; [|done]. cbn in H. simplify_eq.
  exists n, e. rewrite Hi, Hf, Hr by eauto. eauto.
Qed.

Lemma names_step_ok s t c s' : names_step s c = Some s' -> follows s t -> follows s' (reg_step t c).
Proof.
  intros Hs Hf. destruct t as [ids r]. destruct c as [f n i o h|f|f|n f|f i o h]; cbn in *.
  - case_decide as Hd; [|done]. simplify_eq. destruct Hd as [Hn Hnone].
    apply (follows_id (mkNames (n_ids s) _) (mkRpc ids _)); [|done].
    apply (follows_entry s (mkRpc ids r)); [done..|].
    intros id. apply entry_register. pose proof (fo_reg _ _ Hf n Hn) as Hx. cbn in *. congruence.
  - apply (on_entry_inv _ _ _ _ _ Hs) in Hf as Hx. destruct Hx as (n & e & Hn & Hid & He & ->). cbn in Hid, He; rewrite Hid.
    apply (follows_entry s _ n _ _ Hf Hn). intros id. by apply entry_data.
  - apply (on_entry_inv _ _ _ _ _ Hs) in Hf as Hx. destruct Hx as (n & e & Hn & Hid & He & ->). cbn in Hid, He; rewrite Hid.
    apply (follows_entry s _ n _ _ Hf Hn). intros id. by apply entry_disable.
  - case_decide; [|done]. simplify_eq. by apply (follows_id s (mkRpc ids r)).
  - apply (on_entry_inv _ _ _ _ _ Hs) in Hf as Hx. destruct Hx as (n & e & Hn & Hid & He & ->). cbn in Hid, He; rewrite Hid.
    apply (follows_entry s _ n _ _ Hf Hn). intros id. by apply entry_HG_Register.
Qed.

Lemma names_run_ok cs : forall s t s', names_run s cs = Some s' -> follows s t -> follows s' (reg_run t cs).
Proof.
  induction cs as [|c cs IH]; intros s t s' Hs Hf; cbn in *; [by simplify_eq|].
  destruct (names_step s c) as [s1|] eqn:H1; [|done]. apply (IH s1); [done|]. by apply (names_step_ok s).
Qed.

Lemma follows_empty : follows no_names (mkRpc zero_ids no_rpcs).
Proof. split; [done..|]. intros n _. apply entry_none. Qed.

Lemma follows_put_rpc s t : follows s t ->
  margo_registered_name (r_reg t) "put_rpc" = match n_reg s "put_rpc"%string with Some _ => true | None => false end.
Proof. intros Hf. rewrite registered_entry, (fo_reg _ _ Hf) by (vm_compute; left). done. Qed.
End Names.

(** ** Every request is connected *)

(** The two registries a request goes through, as functions of names. *)
Definition takes (h : handler) (i : proc) : bool :=
  match handler_takes h with Some i' => bool_decide (i' = i) | None => true end.

Definition reply_ok (c : rpc_call) (ea eb : rpc_entry) : bool :=
  match c_out c with
  | Some o => bool_decide (e_out ea = o) && bool_decide (e_out eb = o)
              && bool_decide (handler_replies (c_target c) = Some o) && negb (e_oneway ea) && negb (e_oneway eb)
  | None => bool_decide (handler_replies (c_target c) = None) && e_oneway ea && e_oneway eb
  end.

Definition call_ok (c : rpc_call) (ea eb : rpc_entry) : bool :=
  bool_decide (e_in ea = c_in c) && bool_decide (e_in eb = c_in c) && takes (c_target c) (c_in c)
  && bool_decide (e_handler eb = Some (c_target c)) && e_data eb && reply_ok c ea eb.

Definition call_named_ok (a b : names_state) (c : rpc_call) : bool :=
  match n_ids a (c_field c) with
  | None => false
  | Some n =>
      bool_decide (n ∈ rpc_names)
      && match n_reg a n, n_reg b n with Some ea, Some eb => call_ok c ea eb | _, _ => false end
  end.

Definition all_ok (a b : option names_state) (cs : list rpc_call) : bool :=
  match a, b with Some a, Some b => forallb (call_named_ok a b) cs | _, _ => false end.

(** What a request needs of the state of its sender and of the state of its
    receiver. *)
Definition connected `{Margo} (c : rpc_call) (a b : rpc_state) : Prop :=
  exists ea eb,
    entry (r_reg a) (r_ids a (c_field c)) = Some ea /\ entry (r_reg b) (r_ids a (c_field c)) = Some eb /\
    (e_in ea = c_in c /\ e_in eb = c_in c /\ from_option (.= c_in c) True (handler_takes (c_target c))) /\
    (e_handler eb = Some (c_target c) /\ e_data eb = true) /\
    match c_out c with
    | Some o => e_out ea = o /\ e_out eb = o /\ handler_replies (c_target c) = Some o /\
                e_oneway ea = false /\ e_oneway eb = false
    | None => handler_replies (c_target c) = None /\ e_oneway ea = true /\ e_oneway eb = true
    end.

Section Connected.
Context `{ML : MargoLaws}.

Lemma call_ok_spec c ea eb : call_ok c ea eb = true ->
  (e_in ea = c_in c /\ e_in eb = c_in c /\ from_option (.= c_in c) True (handler_takes (c_target c))) /\
  (e_handler eb = Some (c_target c) /\ e_data eb = true) /\
  match c_out c with
  | Some o => e_out ea = o /\ e_out eb = o /\ handler_replies (c_target c) = Some o /\
              e_oneway ea = false /\ e_oneway eb = false
  | None => handler_replies (c_target c) = None /\ e_oneway ea = true /\ e_oneway eb = true
  end.
Proof.
  unfold call_ok, reply_ok, takes. rewrite !andb_true_iff, !bool_decide_eq_true.
  intros (((((H1 & H2) & H3) & H4) & H5) & H6). repeat split; try done.
  - destruct (handler_takes (c_target c)); cbn; [by apply bool_decide_eq_true in H3|done].
  - destruct (c_out c); rewrite !andb_true_iff, ?negb_true_iff, ?bool_decide_eq_true in H6; naive_solver.
Qed.

Lemma all_ok_connected cs na nb a b c :
  all_ok na nb cs = true -> from_option (fun s => follows s a) True na -> from_option (fun s => follows s b) True nb ->
  c ∈ cs -> connected c a b.
Proof.
  intros Hall Ha Hb Hc. destruct na as [sa|], nb as [sb|]; cbn in *; try done.
  rewrite forallb_forall in Hall. apply list_elem_of_In, Hall in Hc. unfold call_named_ok in Hc.
  destruct (n_ids sa (c_field c)) as [n|] eqn:Hn; [|done].
  apply andb_true_iff in Hc as [Hin Hc]. apply bool_decide_eq_true in Hin.
  destruct (n_reg sa n) as [ea|] eqn:Hea; [|done]. destruct (n_reg sb n) as [eb|] eqn:Heb; [|done].
  exists ea, eb. rewrite (fo_ids _ _ Ha), Hn, (fo_reg _ _ Ha), (fo_reg _ _ Hb) by done.
  split; [done|]. split; [done|]. by apply call_ok_spec.
Qed.

Lemma register_follows cs s t :
  follows s t -> from_option (fun s' => follows s' (reg_run t cs)) True (names_run s cs).
Proof. intros Hf. destruct (names_run s cs) as [s'|] eqn:Hs; [exact (names_run_ok _ _ _ _ Hs Hf)|exact I]. Qed.

Lemma not_registered : margo_registered_name no_rpcs "put_rpc" = false.
Proof. exact (follows_put_rpc _ _ follows_empty). Qed.

Lemma client_new_follows : from_option (fun s => follows s (client_register no_rpcs)) True (names_run no_names client_new).
Proof. unfold client_register. rewrite not_registered. apply (register_follows _ _ _ follows_empty). Qed.

Lemma server_new_follows py :
  from_option (fun s => follows s (server_register py no_rpcs)) True (names_run no_names (server_new py)).
Proof. unfold server_register. rewrite not_registered. apply (register_follows _ _ _ follows_empty). Qed.

(** A process that registers in a registry its server has filled. *)
Definition joined_names : option names_state :=
  s ← names_run no_names (server_new true); names_run (mkNames (fun _ => None) (n_reg s)) client_registered.

Lemma joined_follows :
  from_option (fun s => follows s (client_register (r_reg (server_register true no_rpcs)))) True joined_names.
Proof.
  unfold joined_names. pose proof (server_new_follows true) as Hsv.
  destruct (names_run no_names (server_new true)) as [s|] eqn:Hs; [|exact I]. cbn [from_option mbind option_bind] in *.
  assert (Hput : margo_registered_name (r_reg (server_register true no_rpcs)) "put_rpc" = true).
  { rewrite (follows_put_rpc _ _ Hsv).
    replace s with (default no_names (names_run no_names (server_new true))) by (rewrite Hs; reflexivity).
    vm_compute. reflexivity. }
  unfold client_register at 1. rewrite Hput. apply register_follows.
  destruct Hsv as [Hi Hd Hr]. split; [reflexivity|discriminate|exact Hr].
Qed.

(** The client's branch for RPCs that are registered already: the identifier
    of [mpexec_rpc] overwrites that of [pexec_rpc] and the other stays zero,
    so [dspaces_pexec] asks for [mpexec_rpc]; and the client's own handlers
    run without the client's structure, which only the other branch attaches. *)
Lemma joined_client_broken :
  let t := client_register (r_reg (server_register true no_rpcs)) in
  r_ids t mpexec_id = 0 /\ r_ids t pexec_id = hg_id "mpexec_rpc" /\
  entry (r_reg t) (r_ids t notify_id) = Some (mkEntry odsc_list_t void (Some notify_rpc) false true).
Proof.
  cbn zeta. pose proof joined_follows as Hf.
  destruct joined_names as [s|] eqn:Hs; [|by vm_compute in Hs]. cbn [from_option] in Hf.
  replace s with (default no_names joined_names) in Hf by (rewrite Hs; reflexivity). clear Hs.
  rewrite !(fo_ids _ _ Hf). split; [vm_compute; reflexivity|]. split; [vm_compute; reflexivity|].
  replace (n_ids (default no_names joined_names) notify_id) with (Some "notify_rpc"%string) by (vm_compute; reflexivity).
  rewrite (fo_reg _ _ Hf); [vm_compute; reflexivity|]. apply (bool_decide_unpack _). vm_compute. exact I.
Qed.

(** The requests that only a server with Python serves. *)
Definition needs_python (c : rpc_call) : bool :=
  bool_decide (c_target c = pexec_rpc) || bool_decide (c_target c = mpexec_rpc).

#[local] Abbreviation cl_names := (names_run no_names client_new).
#[local] Abbreviation sv_names py := (names_run no_names (server_new py)).

Lemma client_to_server_ok py :
  all_ok cl_names (sv_names py) (filter (fun c => needs_python c = false \/ py = true) client_to_server) = true.
Proof. destruct py; vm_compute; reflexivity. Qed.

Lemma client_to_client_ok : all_ok cl_names cl_names client_to_client = true.
Proof. vm_compute; reflexivity. Qed.

Lemma server_to_server_ok py : all_ok (sv_names py) (sv_names py) server_to_server = true.
Proof. destruct py; vm_compute; reflexivity. Qed.

Lemma server_to_client_ok py : all_ok (sv_names py) cl_names server_to_client = true.
Proof. destruct py; vm_compute; reflexivity. Qed.

Lemma requests_ok py c :
  (c ∈ client_to_server -> needs_python c = false \/ py = true ->
     connected c (client_register no_rpcs) (server_register py no_rpcs)) /\
  (c ∈ client_to_client -> connected c (client_register no_rpcs) (client_register no_rpcs)) /\
  (c ∈ server_to_server -> connected c (server_register py no_rpcs) (server_register py no_rpcs)) /\
  (c ∈ server_to_client -> connected c (server_register py no_rpcs) (client_register no_rpcs)).
Proof.
  pose proof client_new_follows as Hcl. pose proof (server_new_follows py) as Hsv.
  split; [intros Hc Hpy|repeat split; intros Hc].
  - apply (all_ok_connected _ _ _ _ _ c (client_to_server_ok py) Hcl Hsv).
    apply list_elem_of_filter. exact (conj Hpy Hc).
  - exact (all_ok_connected _ _ _ _ _ c client_to_client_ok Hcl Hcl Hc).
  - exact (all_ok_connected _ _ _ _ _ c (server_to_server_ok py) Hsv Hsv Hc).
  - exact (all_ok_connected _ _ _ _ _ c (server_to_client_ok py) Hsv Hcl Hc).
Qed.

(** C16: every request of the program, with processes that registered in
    registries of their own: the identifier the sender uses is registered at
    both ends with the structure it sends, the receiver runs the function the
    sender means, attached to its process, and that function decodes the same
    structure; where the sender waits, the function replies with the
    structure the sender decodes and replies are on at both ends, and where
    the function never replies they are off at both ends. *)
Theorem requests_connected py c :
  (c ∈ client_to_server -> needs_python c = false \/ py = true ->
     connected c (client_register no_rpcs) (server_register py no_rpcs)) /\
  (c ∈ client_to_client -> connected c (client_register no_rpcs) (client_register no_rpcs)) /\
  (c ∈ server_to_server -> connected c (server_register py no_rpcs) (server_register py no_rpcs)) /\
  (c ∈ server_to_client -> connected c (server_register py no_rpcs) (client_register no_rpcs)).
Proof. apply requests_ok. Qed.
End Connected.

(** ** An instance *)

(** Registries as functions; identifiers from an injective coding of names. *)
#[local] Instance table_margo : Margo := {|
  registry := Z -> option rpc_entry;
  no_rpcs := fun _ => None;
  hg_id n := Zpos (encode n);
  margo_registered_name r n := match r (Zpos (encode n)) with Some _ => true | None => false end;
  MARGO_REGISTER r n i o h := fun id => if decide (id = Zpos (encode n)) then Some (mkEntry i o h false false) else r id;
  HG_Register r k i o h := fun id =>
    if decide (id = k) then (e ← r k; Some (mkEntry i o (Some h) (e_data e) (e_oneway e))) else r id;
  margo_register_data r k := fun id =>
    if decide (id = k) then (e ← r k; Some (mkEntry (e_in e) (e_out e) (e_handler e) true (e_oneway e))) else r id;
  margo_registered_disable_response r k := fun id =>
    if decide (id = k) then (e ← r k; Some (mkEntry (e_in e) (e_out e) (e_handler e) (e_data e) true)) else r id;
  entry r id := r id
|}.

#[local] Instance table_margo_laws : MargoLaws.
Proof.
  split; cbn; try done.
  - intros n m _ _ H. injection H as H. by apply (inj encode) in H.
  - intros r k e i o h id He. rewrite He. done.
  - intros r k e id He. rewrite He. done.
  - intros r k e id He. rewrite He. done.
Qed.

Lemma requests_connected_witness :
  connected (mkCall "dspaces_sub" sub_id odsc_gdim_t None sub_rpc)
    (client_register no_rpcs) (server_register true no_rpcs) /\
  connected (mkCall "sub_rpc" notify_id odsc_list_t None notify_rpc)
    (server_register true no_rpcs) (client_register no_rpcs).
Proof.
  split.
  - apply (requests_connected true (mkCall "dspaces_sub" sub_id odsc_gdim_t None sub_rpc)); [|right; reflexivity].
    unfold client_to_server; repeat first [apply list_elem_of_here | apply list_elem_of_further].
  - apply (requests_connected true (mkCall "sub_rpc" notify_id odsc_list_t None notify_rpc)).
    unfold server_to_client; repeat first [apply list_elem_of_here | apply list_elem_of_further].
Defined.
