(* ===== verification/Util.v ===== *)
(** * Util: parameter lists

    [src/src/util.c]: [remove_whitespace], [splitnamevalue] and
    [text_to_nv_pairs], which reads [name = value] pairs separated by
    semicolons.  [None] is a write past the line of 256 characters. *)

From Stdlib Require Import Ascii.
From S2P Require Import Prelude BBox ObjDesc Linear Sspace DhtEntry StrHash LocalStorage Matrix Codec Modules Server Conf.

(** ** Operations *)

(** [str_append_const], [str_append]: a null string is the empty one. *)
Definition str_append_const (str : option text) (msg : text) : text := default [] str ++ msg.

(** [remove_whitespace] of the characters from [start] to [end]; [None] is a
    null pointer. *)
Definition remove_whitespace (l : text) : option text :=
  match rev (drop_while is_blank (rev (drop_while is_blank l))) with
  | [] => None
  | res => Some res
  end.

Definition splitnamevalue (line : text) : option text * option text :=
  match split_at "=" line with
  | Some ([], _) => (None, None)
  | Some (name, value) => (remove_whitespace name, remove_whitespace value)
  | None => (remove_whitespace line, None)
  end.

Definition LINE_SIZE : nat := 256.

(** The loop of [text_to_nv_pairs] from [item] on. *)
Fixpoint nv_loop (fuel : nat) (item : text) : option (list (text * option text)) :=
  match fuel with
  | O => None
  | S f =>
      let '(line, next) := match split_at ";" item with Some (a, b) => (a, Some b) | None => (item, None) end in
      if (length line <? LINE_SIZE)%nat then
        let '(name, value) := splitnamevalue line in
        res ← (match next with Some item => nv_loop f item | None => Some [] end);
        Some (match name with Some name => (name, value) :: res | None => res end)
      else None
  end.

Definition text_to_nv_pairs (t : option text) : option (list (text * option text)) :=
  match t with None => Some [] | Some t => nv_loop (S (length t)) t end.

(** ** Reading printed pairs *)

Definition blanks (l : text) : Prop := Forall (fun c => is_blank c = true) l.

(** A name or a value: begins and ends with a visible character. *)
Definition trimmed (l : text) : Prop :=
  match l with c :: _ => is_blank c = false | [] => False end /\
  match rev l with c :: _ => is_blank c = false | [] => False end.

Lemma drop_blanks a l : blanks a -> match l with c :: _ => is_blank c = false | [] => False end ->
  drop_while is_blank (a ++ l) = l.
Proof.
  intros Ha Hl. induction Ha as [|c a Hc _ IH]; cbn [app drop_while].
  - destruct l as [|c l]; [done|]. cbn [drop_while]. by rewrite Hl.
  - by rewrite Hc.
Qed.

Lemma blanks_rev l : blanks l -> blanks (rev l).
Proof. apply Forall_rev. Qed.

Lemma remove_whitespace_spec a l b : blanks a -> trimmed l -> blanks b -> remove_whitespace (a ++ l ++ b) = Some l.
Proof.
  intros Ha [Hl Hr] Hb. unfold remove_whitespace.
  rewrite drop_blanks by (done || by destruct l). rewrite rev_app_distr, drop_blanks by (try apply blanks_rev; done).
  rewrite rev_involutive. by destruct l.
Qed.

Lemma remove_blanks a : blanks a -> remove_whitespace a = None.
Proof.
  intros Ha. unfold remove_whitespace. replace (drop_while is_blank a) with (@nil ascii); [done|].
  induction Ha as [|c a Hc _ IH]; cbn [drop_while]; [done|]. by rewrite Hc.
Qed.

(** A printed pair with its padding: four runs of blanks. *)
Record padded := mkPadded {
  pd_name : text;
  pd_value : option text;
  pd_pad : text * text * text * text
}.

Definition pad_line (p : padded) : text :=
  let '(a, b, c, d) := pd_pad p in
  match pd_value p with
  | Some v => a ++ pd_name p ++ b ++ "="%char :: c ++ v ++ d
  | None => a ++ pd_name p ++ b
  end.

(** The characters of a text that are free of both separators. *)
Definition plain (l : text) : Prop := no_char ";" l /\ no_char "=" l.

Definition padded_ok (p : padded) : Prop :=
  let '(a, b, c, d) := pd_pad p in
  blanks a /\ blanks b /\ blanks c /\ blanks d /\ trimmed (pd_name p) /\ plain (pd_name p) /\
  match pd_value p with Some v => trimmed v /\ no_char ";" v | None => True end /\
  (length (pad_line p) < LINE_SIZE)%nat.

Lemma blanks_no_char c l : is_blank c = false -> blanks l -> no_char c l.
Proof.
  intros Hc Hl. eapply Forall_impl; [exact Hl|]. cbv beta. intros x Hx. apply Ascii.eqb_neq. congruence.
Qed.

Lemma pad_line_plain p : padded_ok p -> no_char ";" (pad_line p).
Proof.
  unfold padded_ok, pad_line. destruct (pd_pad p) as [[[a b] c] d]. intros (Ha & Hb & Hc & Hd & _ & [Hn _] & Hv & _).
  destruct (pd_value p) as [v|]; repeat first [apply no_char_app|by apply blanks_no_char|done].
  constructor; [done|]. repeat first [apply no_char_app|by apply blanks_no_char|apply Hv].
Qed.

Lemma split_none sep l : no_char sep l -> split_at sep l = None.
Proof. intros H. induction H as [|c l Hc _ IH]; cbn [split_at]; [done|]. by rewrite Hc, IH. Qed.

Lemma split_padded p : padded_ok p -> splitnamevalue (pad_line p) = (Some (pd_name p), pd_value p).
Proof.
  unfold padded_ok, pad_line, splitnamevalue. destruct (pd_pad p) as [[[a b] c] d].
  intros (Ha & Hb & Hc & Hd & Ht & [_ Hn] & Hv & _).
  assert (He : no_char "=" (a ++ pd_name p ++ b)) by (repeat first [apply no_char_app|by apply blanks_no_char|done]).
  destruct (pd_value p) as [v|].
  - replace (a ++ pd_name p ++ b ++ "="%char :: c ++ v ++ d) with ((a ++ pd_name p ++ b) ++ "="%char :: c ++ v ++ d) by (by rewrite <- !app_assoc).
    rewrite split_at_first by done. rewrite (remove_whitespace_spec c v d) by (done || apply Hv).
    pose proof (remove_whitespace_spec a (pd_name p) b Ha Ht Hb) as Hw.
    destruct (a ++ pd_name p ++ b) as [|x l] eqn:El; [|by rewrite Hw].
    apply app_eq_nil in El as [_ [El _]%app_eq_nil]. rewrite El in Ht. by destruct Ht.
  - rewrite split_none by done. by rewrite remove_whitespace_spec.
Qed.

(** A list of pairs printed with any blanks around names and values reads
    back as itself, provided every item fits the line. *)
Theorem nv_pairs_roundtrip ps : ps <> [] -> Forall padded_ok ps ->
  text_to_nv_pairs (Some (join ";" (map pad_line ps))) = Some (map (fun p => (pd_name p, pd_value p)) ps).
Proof.
  intros Hne Hok. unfold text_to_nv_pairs.
  assert (H : forall fuel, (length ps <= fuel)%nat -> nv_loop fuel (join ";" (map pad_line ps)) = Some (map (fun p => (pd_name p, pd_value p)) ps)).
  { induction Hok as [|p ps Hp Hok IH]; [done|]. intros [|f] Hf; cbn [length] in Hf; [lia|].
    pose proof (pad_line_plain p Hp) as Hs. pose proof (split_padded p Hp) as Hsp.
    assert (Hlen : (length (pad_line p) < LINE_SIZE)%nat).
    { unfold padded_ok in Hp. destruct (pd_pad p) as [[[a b] c] d] eqn:Ep. apply Hp. }
    apply Nat.ltb_lt in Hlen. destruct ps as [|p' ps].
    - cbn [map join nv_loop]. by rewrite split_none, Hlen, Hsp by done.
    - change (join ";" (map pad_line (p :: p' :: ps))) with (pad_line p ++ ";"%char :: join ";" (map pad_line (p' :: ps))).
      cbn [nv_loop]. rewrite split_at_first, Hlen, Hsp by done. rewrite IH by (done || lia). done. }
  apply H. clear -Hok. induction Hok as [|p ps Hp _ IH]; [simpl; lia|]. destruct ps as [|p' ps]; [simpl; lia|].
  change (join ";" (map pad_line (p :: p' :: ps))) with (pad_line p ++ ";"%char :: join ";" (map pad_line (p' :: ps))).
  rewrite length_app. cbn [length] in *. lia.
Qed.

Definition demo_pairs : list padded :=
  [mkPadded (txt "X") (Some (txt "1")) (txt " ", txt " ", txt " ", []); mkPadded (txt "flag") None ([NEWLINE], [], [], []);
   mkPadded (txt "Y") (Some (txt "5")) ([], [], [], [])].

Lemma nv_pairs_roundtrip_witness :
  text_to_nv_pairs (Some (join ";" (map pad_line demo_pairs)))
  = Some [(txt "X", Some (txt "1")); (txt "flag", None); (txt "Y", Some (txt "5"))].
Proof.
  rewrite (nv_pairs_roundtrip demo_pairs); [reflexivity|discriminate|].
  repeat constructor; vm_compute; repeat constructor.
Defined.
