(* ===== verification/PutReqs.v ===== *)
(** * PutReqs: the list of asynchronous puts

    [dspaces_iput], [dspaces_check_put], [finalize_req] and the loop of
    [dspaces_fini] of [src/src/dspaces-client.c] on the linked list
    [put_reqs] .. [put_reqs_end].  The requests are records in a heap, links
    are addresses, and the loops walk a pointer to the link that leads to a
    request; [None] is an access to a request that was freed (or fuel
    exhausted). *)

From S2P Require Import Prelude.

(** ** State *)

(** [struct dspaces_put_req]: [pr_buffer] tells whether there is a buffer to
    free. *)
Record put_req := mkPutReq {
  pr_next : option nat;
  pr_finalized : bool;
  pr_buffer : bool;
  pr_ret : Z
}.

Record reqs := mkReqs {
  rq_heap : gmap nat put_req;
  rq_head : option nat;
  rq_end : option nat
}.

(** [struct dspaces_put_req **]: the head of the list or the link of a
    request. *)
Inductive link := L_head | L_next (n : nat).

Definition read_link (st : reqs) (c : link) : option (option nat) :=
  match c with
  | L_head => Some (rq_head st)
  | L_next n => option_map pr_next (rq_heap st !! n)
  end.

Definition set_req (n : nat) (r : put_req) (st : reqs) : reqs :=
  mkReqs (<[n := r]> (rq_heap st)) (rq_head st) (rq_end st).
Definition set_end (e : option nat) (st : reqs) : reqs := mkReqs (rq_heap st) (rq_head st) e.
Definition free_req (n : nat) (st : reqs) : reqs := mkReqs (delete n (rq_heap st)) (rq_head st) (rq_end st).

Definition set_next (p : option nat) (r : put_req) : put_req :=
  mkPutReq p (pr_finalized r) (pr_buffer r) (pr_ret r).

Definition write_link (st : reqs) (c : link) (p : option nat) : option reqs :=
  match c with
  | L_head => Some (mkReqs (rq_heap st) p (rq_end st))
  | L_next n => r ← rq_heap st !! n; Some (set_req n (set_next p r) st)
  end.

(** ** Operations *)

Definition PUT_ERR_MERCURY : Z := -3.

(** [finalize_req] on a request; [out] is the server's result, [None] when it
    cannot be read: the request then stays as it is. *)
Definition finalize_req (r : put_req) (out : option Z) : put_req * Z :=
  match out with
  | None => (r, PUT_ERR_MERCURY)
  | Some ret => (mkPutReq (pr_next r) true false ret, ret)
  end.

(** What is known of the requests in flight: [None] while a request runs,
    else what [margo_get_output] gives. *)
Definition progress : Type := nat -> option (option Z).

(** The loop of [dspaces_iput] over completed requests. *)
Fixpoint check_loop (fuel : nat) (done : progress) (prev : option nat) (c : link) (st : reqs) : option reqs :=
  match fuel with
  | O => None
  | S f =>
      p ← read_link st c;
      match p with
      | None => Some st
      | Some n =>
          r ← rq_heap st !! n;
          st ←
            (if pr_finalized r then Some st else
             match done n with
             | None => Some st
             | Some out =>
                 let st := set_req n (fst (finalize_req r out)) st in
                 let st := match pr_next r with None => set_end prev st | Some _ => st end in
                 write_link st c (pr_next r)
             end);
          check_loop f done (Some n) (L_next n) st
      end
  end.

(** Linking a new request at the end. *)
Definition link_req (n : nat) (r : put_req) (st : reqs) : option reqs :=
  let st := set_req n (set_next None r) st in
  match rq_end st with
  | Some e => st ← write_link st (L_next e) (Some n); Some (set_end (Some n) st)
  | None => Some (mkReqs (rq_heap st) (Some n) (Some n))
  end.

(** [dspaces_iput] with the new request at address [n]; [sent] tells whether
    the call to the server was made, else [dspaces_PUT_NULL] is returned. *)
Definition dspaces_iput (st : reqs) (done : progress) (check : bool) (n : nat) (buffer sent : bool)
  : option (reqs * option nat) :=
  st ← (if check then check_loop (S (size (rq_heap st))) done None L_head st else Some st);
  let r := mkPutReq None false buffer 0 in
  if sent then st ← link_req n r st; Some (st, Some n)
  else Some (set_req n r st, None).

(** The search of [dspaces_check_put]: the link that leads to the request, or
    the last one, and the request before it. *)
Fixpoint find_link (fuel : nat) (st : reqs) (n : nat) (prev : option nat) (c : link)
  : option (option nat * link) :=
  match fuel with
  | O => None
  | S f =>
      p ← read_link st c;
      match p with
      | None => Some (prev, c)
      | Some m => if (m =? n)%nat then Some (prev, c) else find_link f st n (Some m) (L_next m)
      end
  end.

(** A completed request is finalized, unlinked and freed. *)
Definition retire (st : reqs) (n : nat) (out : option Z) : option (reqs * Z) :=
  '(prev, c) ← find_link (S (size (rq_heap st))) st n None L_head;
  r ← rq_heap st !! n;
  let '(r, ret) := finalize_req r out in
  let st := set_req n r st in
  let st := match pr_next r with None => set_end prev st | Some _ => st end in
  st ← write_link st c (pr_next r);
  Some (free_req n st, ret).

(** [dspaces_check_put] without waiting: the result of [margo_test], or of a
    finalized request. *)
Definition dspaces_check_put (st : reqs) (done : progress) (n : nat) : option (reqs * Z) :=
  r ← rq_heap st !! n;
  if pr_finalized r then Some (free_req n st, pr_ret r)
  else match done n with
       | None => Some (st, 0)
       | Some out => '(st, _) ← retire st n out; Some (st, 1)
       end.

(** Waiting: [out] is the result the request completes with. *)
Definition dspaces_wait_put (st : reqs) (n : nat) (out : option Z) : option (reqs * Z) :=
  r ← rq_heap st !! n;
  if pr_finalized r then Some (free_req n st, pr_ret r) else retire st n out.

(** [while(client->put_reqs) dspaces_check_put(client, client->put_reqs, 1)]. *)
Fixpoint fini_loop (fuel : nat) (out : nat -> option Z) (st : reqs) : option reqs :=
  match rq_head st with
  | None => Some st
  | Some n =>
      match fuel with
      | O => None
      | S f => '(st, _) ← dspaces_wait_put st n (out n); fini_loop f out st
      end
  end.

(** ** Linked segments *)

Fixpoint seg (h : gmap nat put_req) (p : option nat) (l : list nat) (q : option nat) : Prop :=
  match l with
  | [] => p = q
  | n :: l => p = Some n /\ exists r, h !! n = Some r /\ seg h (pr_next r) l q
  end.

Lemma seg_app h l1 l2 : forall p q, seg h p (l1 ++ l2) q <-> exists m, seg h p l1 m /\ seg h m l2 q.
Proof.
  induction l1 as [|n l1 IH]; intros p q; cbn [app seg].
  - split; [eauto|]. by intros (m & -> & ?).
  - split.
    + intros (-> & r & Hr & (m & H1 & H2)%IH). exists m. split; [|done]. eauto.
    + intros (m & (-> & r & Hr & H1) & H2). split; [done|]. exists r. split; [done|]. apply IH. eauto.
Qed.

Lemma seg_frame h n r l : n ∉ l -> forall p q, seg (<[n := r]> h) p l q <-> seg h p l q.
Proof.
  induction l as [|m l IH]; intros Hn p q; cbn [seg]; [done|].
  apply not_elem_of_cons in Hn as [Hnm Hn]. rewrite lookup_insert_ne by done.
  setoid_rewrite (IH Hn). done.
Qed.

Lemma seg_delete h n l : n ∉ l -> forall p q, seg (delete n h) p l q <-> seg h p l q.
Proof.
  induction l as [|m l IH]; intros Hn p q; cbn [seg]; [done|].
  apply not_elem_of_cons in Hn as [Hnm Hn]. rewrite lookup_delete_ne by done.
  setoid_rewrite (IH Hn). done.
Qed.

Lemma seg_in h l : forall p q n, seg h p l q -> n ∈ l -> is_Some (h !! n).
Proof.
  induction l as [|m l IH]; intros p q n Hs Hn; [by apply elem_of_nil in Hn|].
  destruct Hs as (_ & r & Hr & Hs). apply elem_of_cons in Hn as [->|Hn]; [by eexists|by eapply IH].
Qed.

(** The outstanding requests, in order. *)
Record linked (st : reqs) (l : list nat) : Prop := {
  lk_seg : seg (rq_heap st) (rq_head st) l None;
  lk_end : rq_end st = last l;
  lk_nodup : NoDup l;
  lk_open : forall n r, n ∈ l -> rq_heap st !! n = Some r -> pr_finalized r = false
}.

Lemma linked_size st l : linked st l -> (length l <= size (rq_heap st))%nat.
Proof.
  intros [Hs _ Hnd _]. rewrite <- size_dom, <- (size_list_to_set (C := gset nat) l Hnd).
  apply subseteq_size. intros n Hn%elem_of_list_to_set. apply elem_of_dom. by eapply seg_in.
Qed.

(** ** Unlinking *)

(** The link after the requests [k] from [c], and the request before it. *)
Definition link_of (c : link) (k : list nat) : link := match last k with Some m => L_next m | None => c end.
Definition prev_of (prev : option nat) (k : list nat) : option nat := match last k with Some m => Some m | None => prev end.

Lemma last_cons_of {B} (f : nat -> B) (b : B) m k :
  match last (m :: k) with Some x => f x | None => b end = match last k with Some x => f x | None => f m end.
Proof. rewrite last_cons. by destruct (last k). Qed.

Lemma link_of_cons c m k : link_of c (m :: k) = link_of (L_next m) k.
Proof. exact (last_cons_of L_next c m k). Qed.

Lemma prev_of_cons prev m k : prev_of prev (m :: k) = prev_of (Some m) k.
Proof. exact (last_cons_of Some prev m k). Qed.

Lemma find_link_spec st n l k : forall fuel p prev c,
  read_link st c = Some p -> seg (rq_heap st) p (k ++ n :: l) None -> n ∉ k -> (length k < fuel)%nat ->
  find_link fuel st n prev c = Some (prev_of prev k, link_of c k).
Proof.
  induction k as [|m k IH]; intros [|f] p prev c Hc Hs Hn Hf; cbn [app seg length find_link] in *; try lia;
    destruct Hs as (-> & r & Hr & Hs); rewrite Hc; cbn [mbind option_bind].
  - by rewrite Nat.eqb_refl.
  - apply not_elem_of_cons in Hn as [Hne Hn]. destruct (Nat.eqb_spec m n); [congruence|].
    rewrite (IH f (pr_next r)), link_of_cons, prev_of_cons; [done| |done|done|lia]. cbn [read_link]. by rewrite Hr.
Qed.

(** What a write to a link changes: links only. *)
Definition same_reqs (st st' : reqs) : Prop :=
  forall m, option_map (fun r => (pr_finalized r, pr_buffer r, pr_ret r)) (rq_heap st' !! m)
    = option_map (fun r => (pr_finalized r, pr_buffer r, pr_ret r)) (rq_heap st !! m).

Lemma unlink st k n l r :
  seg (rq_heap st) (rq_head st) (k ++ n :: l) None -> NoDup (k ++ n :: l) -> rq_heap st !! n = Some r ->
  exists st', write_link st (link_of L_head k) (pr_next r) = Some st' /\
    seg (rq_heap st') (rq_head st') (k ++ l) None /\ rq_end st' = rq_end st /\
    rq_heap st' !! n = Some r /\ same_reqs st st'.
Proof.
  intros Hs Hnd Hr. apply seg_app in Hs as (p & Hk & -> & r' & Hr' & Hl). rewrite Hr in Hr'. injection Hr' as <-.
  apply NoDup_app in Hnd as (Hndk & Hdis & Hnd). apply NoDup_cons in Hnd as [Hnl Hndl].
  unfold link_of. destruct (last k) as [m|] eqn:El.
  - apply last_Some in El as [k' ->]. cbn [write_link]. apply seg_app in Hk as (p & Hk & -> & rm & Hm & Hmn).
    cbn [seg] in Hmn. rewrite Hm. cbn [mbind option_bind]. eexists. split; [reflexivity|].
    assert (Hmk : m ∉ k') by (apply NoDup_app in Hndk as (_ & Hd & _); intros H; apply (Hd m H); by left).
    assert (Hml : m ∉ l) by (intros H; apply (Hdis m); [apply elem_of_app; right; by left|by right]).
    assert (Hmn' : m <> n) by (intros ->; apply (Hdis n); [apply elem_of_app; right; by left|by left]).
    cbn [set_req rq_heap rq_head rq_end]. split; [|split; [done|split]].
    + rewrite <- app_assoc. apply seg_app. exists (Some m). split; [by apply seg_frame|].
      split; [done|]. exists (set_next (pr_next r) rm). rewrite lookup_insert_eq. split; [done|]. by apply seg_frame.
    + by rewrite lookup_insert_ne.
    + intros x. cbn [set_req rq_heap]. destruct (decide (x = m)) as [->|]; [by rewrite lookup_insert_eq, Hm|by rewrite lookup_insert_ne].
  - apply last_None in El as ->. cbn [seg] in Hk. cbn [write_link app]. eexists. split; [reflexivity|].
    cbn [rq_heap rq_head rq_end]. done.
Qed.

(** Finalizing a request leaves the links. *)
Lemma seg_finalize h n r r' l : h !! n = Some r -> pr_next r' = pr_next r -> forall p q,
  seg h p l q -> seg (<[n := r']> h) p l q.
Proof.
  intros Hr Hn. induction l as [|m l IH]; intros p q; cbn [seg]; [done|]. intros (-> & rm & Hm & Hs).
  split; [done|]. destruct (decide (m = n)) as [->|Hne].
  - exists r'. rewrite lookup_insert_eq. split; [done|]. rewrite Hr in Hm. injection Hm as <-. rewrite Hn. auto.
  - exists rm. rewrite lookup_insert_ne by done. auto.
Qed.

Lemma finalize_next r out : pr_next (fst (finalize_req r out)) = pr_next r.
Proof. by destruct out. Qed.

(** The next request of a member. *)
Lemma seg_next h l : forall p n r k, seg h p (k ++ n :: l) None -> h !! n = Some r -> pr_next r = head l.
Proof.
  intros p n r k Hs Hr. apply seg_app in Hs as (m & _ & -> & r' & Hr' & Hl). rewrite Hr in Hr'. injection Hr' as <-.
  destruct l as [|x l]; cbn [seg] in Hl; [done|]. by destruct Hl as [? _].
Qed.

Lemma retire_spec st k n l out :
  linked st (k ++ n :: l) ->
  exists st' r, rq_heap st !! n = Some r /\ retire st n out = Some (st', snd (finalize_req r out)) /\
    linked st' (k ++ l) /\ rq_heap st' !! n = None.
Proof.
  intros Hlk. pose proof (linked_size _ _ Hlk) as Hsz. destruct Hlk as [Hs He Hnd Ho].
  destruct (seg_in _ _ _ _ n Hs) as [r Hr]; [apply elem_of_app; right; by left|].
  pose proof Hnd as (Hndk & Hdis & Hndn)%NoDup_app. apply NoDup_cons in Hndn as [Hnl Hndl].
  assert (Hnk : n ∉ k) by (intros H; apply (Hdis n H); by left).
  unfold retire. rewrite (find_link_spec st n l k _ (rq_head st) None L_head eq_refl Hs Hnk)
    by (rewrite length_app in Hsz; simpl in Hsz; lia).
  cbn [mbind option_bind]. rewrite Hr. cbn [mbind option_bind].
  destruct (finalize_req r out) as [r1 ret] eqn:Ef. assert (Hr1 : pr_next r1 = pr_next r) by (rewrite <- (finalize_next r out), Ef; done).
  set (st1 := match pr_next r1 with None => _ | Some _ => _ end).
  assert (H1 : rq_heap st1 = <[n := r1]> (rq_heap st) /\ rq_head st1 = rq_head st /\
    rq_end st1 = match pr_next r1 with None => prev_of None k | Some _ => rq_end st end).
  { unfold st1. by destruct (pr_next r1). }
  destruct H1 as (Hh & Hhd & Hend).
  assert (Hs1 : seg (rq_heap st1) (rq_head st1) (k ++ n :: l) None) by (rewrite Hh, Hhd; by eapply seg_finalize).
  destruct (unlink st1 k n l r1 Hs1 Hnd) as (st2 & -> & Hs2 & Hend2 & Hn2 & Hsame); [by rewrite Hh, lookup_insert_eq|].
  cbn [mbind option_bind]. eexists _, r. split; [done|]. split; [by rewrite Ef|].
  assert (Hnkl : n ∉ k ++ l) by (intros [?|?]%elem_of_app; done).
  cbn [free_req rq_heap]. split; [split; cbn [free_req rq_heap rq_head rq_end]|by rewrite lookup_delete_eq].
  - by apply seg_delete.
  - rewrite Hend2, Hend, Hr1, (seg_next _ _ _ _ _ _ Hs Hr). destruct l as [|x l]; cbn [head].
    + rewrite app_nil_r. unfold prev_of. by destruct (last k).
    + rewrite He, !last_app_cons. done.
  - apply NoDup_app. split; [done|]. split; [|done]. intros x Hx H. apply (Hdis x Hx). by right.
  - intros x rx Hx. assert (Hxn : x <> n) by congruence. rewrite lookup_delete_ne by done. intros Hrx.
    specialize (Hsame x). rewrite Hrx, Hh, lookup_insert_ne in Hsame by done. cbn [option_map] in Hsame.
    destruct (rq_heap st !! x) as [r0|] eqn:E0; [|done]. cbn [option_map] in Hsame. injection Hsame as -> _ _.
    apply (Ho x); [|done]. apply elem_of_app. apply elem_of_app in Hx as [?|?]; [by left|right; by right].
Qed.

Lemma link_req_spec st l n r :
  linked st l -> rq_heap st !! n = None -> pr_finalized r = false ->
  exists st', link_req n r st = Some st' /\ linked st' (l ++ [n]) /\ rq_heap st' !! n = Some (set_next None r).
Proof.
  intros [Hs He Hnd Ho] Hn Hf. assert (Hnl : n ∉ l) by (intros H; destruct (seg_in _ _ _ _ _ Hs H); congruence).
  unfold link_req. cbn [set_req rq_end rq_heap]. rewrite He. destruct (last l) as [e|] eqn:El.
  - apply last_Some in El as [l' ->]. apply NoDup_app in Hnd as (Hndl & Hdis & _).
    assert (Hen : e <> n) by (intros ->; apply Hnl, elem_of_app; right; by left).
    assert (Hel : e ∉ l') by (intros H; apply (Hdis e H); by left).
    apply seg_app in Hs as (p & Hk & -> & re & Hre & Hen0). cbn [seg] in Hen0.
    cbn [write_link set_req rq_heap]. rewrite lookup_insert_ne, Hre by done. cbn [mbind option_bind].
    eexists. split; [reflexivity|]. cbn [set_end set_req rq_heap rq_head rq_end].
    split; [|by rewrite lookup_insert_ne, lookup_insert_eq]. split; cbn [set_end set_req rq_heap rq_head rq_end].
    + apply seg_app. exists (Some n). split.
      * apply seg_app. exists (Some e). split; [apply seg_frame; [done|]; apply seg_frame; [|done]|].
        { intros H. apply Hnl, elem_of_app. by left. }
        split; [done|]. exists (set_next (Some n) re). by rewrite lookup_insert_eq.
      * split; [done|]. exists (set_next None r). by rewrite lookup_insert_ne, lookup_insert_eq.
    + by rewrite last_snoc.
    + apply NoDup_app. split; [|split; [|apply NoDup_singleton]].
      * apply NoDup_app. split; [done|]. split; [done|]. apply NoDup_singleton.
      * intros x Hx ->%list_elem_of_singleton. done.
    + intros x rx Hx. destruct (decide (x = e)) as [->|]; [rewrite lookup_insert_eq; intros [= <-]|].
      { cbn [set_next pr_finalized]. apply (Ho e); [apply elem_of_app; right; by left|done]. }
      rewrite lookup_insert_ne by done. destruct (decide (x = n)) as [->|]; [rewrite lookup_insert_eq; by intros [= <-]|].
      rewrite lookup_insert_ne by done. apply Ho. apply elem_of_app in Hx as [?|Hx%list_elem_of_singleton]; done.
  - apply last_None in El as ->. eexists. split; [reflexivity|]. cbn [rq_heap].
    split; [|by rewrite lookup_insert_eq]. split; cbn [rq_heap rq_head rq_end app].
    + split; [done|]. exists (set_next None r). by rewrite lookup_insert_eq.
    + done.
    + apply NoDup_singleton.
    + intros x rx ->%list_elem_of_singleton. rewrite lookup_insert_eq. by intros [= <-].
Qed.

(** ** The loop over completed requests *)

Definition running (done : progress) (n : nat) : bool := match done n with None => true | Some _ => false end.

(** No two neighbours have completed. *)
Fixpoint spread (done : progress) (l : list nat) : Prop :=
  match l with
  | a :: l' => match l' with b :: _ => running done a = true \/ running done b = true | [] => True end /\ spread done l'
  | [] => True
  end.

Definition info (st : reqs) (n : nat) : option (bool * bool * Z) :=
  option_map (fun r => (pr_finalized r, pr_buffer r, pr_ret r)) (rq_heap st !! n).

Lemma read_link_of st k l : seg (rq_heap st) (rq_head st) (k ++ l) None ->
  read_link st (link_of L_head k) = Some (head l).
Proof.
  intros Hs. unfold link_of. destruct (last k) as [m|] eqn:El.
  - apply last_Some in El as [k' ->]. rewrite <- app_assoc in Hs.
    destruct (seg_in _ _ _ _ m Hs) as [r Hr]; [apply elem_of_app; right; by left|].
    cbn [read_link]. rewrite Hr. cbn [option_map]. f_equal. by apply (seg_next _ _ _ _ _ _ Hs).
  - apply last_None in El as ->. cbn [read_link]. f_equal. destruct l as [|n l]; cbn [app seg] in Hs; [done|].
    by destruct Hs as [-> _].
Qed.

(** One completed request taken out by the loop. *)
Lemma collect_one st k n l r out :
  linked st (k ++ n :: l) -> rq_heap st !! n = Some r ->
  exists st2, write_link (match pr_next r with
      | None => set_end (prev_of None k) (set_req n (fst (finalize_req r out)) st)
      | Some _ => set_req n (fst (finalize_req r out)) st end) (link_of L_head k) (pr_next r) = Some st2 /\
    linked st2 (k ++ l) /\ rq_heap st2 !! n = Some (fst (finalize_req r out)) /\
    (forall m, m <> n -> info st2 m = info st m).
Proof.
  intros [Hs He Hnd Ho] Hr. set (r1 := fst (finalize_req r out)). assert (Hr1 : pr_next r1 = pr_next r) by apply finalize_next.
  set (st1 := match pr_next r with None => _ | Some _ => _ end).
  assert (H1 : rq_heap st1 = <[n := r1]> (rq_heap st) /\ rq_head st1 = rq_head st /\
    rq_end st1 = match pr_next r with None => prev_of None k | Some _ => rq_end st end) by (unfold st1; by destruct (pr_next r)).
  destruct H1 as (Hh & Hhd & Hend).
  assert (Hs1 : seg (rq_heap st1) (rq_head st1) (k ++ n :: l) None) by (rewrite Hh, Hhd; by eapply seg_finalize).
  destruct (unlink st1 k n l r1 Hs1 Hnd) as (st2 & Hw & Hs2 & Hend2 & Hn2 & Hsame); [by rewrite Hh, lookup_insert_eq|].
  rewrite Hr1 in Hw. exists st2. split; [done|].
  pose proof Hnd as (Hndk & Hdis & Hndn)%NoDup_app. apply NoDup_cons in Hndn as [Hnl Hndl].
  assert (Hnkl : n ∉ k ++ l) by (intros [H|?]%elem_of_app; [apply (Hdis n H); by left|done]).
  assert (Hinfo : forall m, m <> n -> info st2 m = info st m).
  { intros m Hm. unfold info. rewrite (Hsame m), Hh, lookup_insert_ne by done. done. }
  split; [split|by split]; [done| | |].
  - rewrite Hend2, Hend, (seg_next _ _ _ _ _ _ Hs Hr). destruct l as [|x l]; cbn [head].
    + rewrite app_nil_r. unfold prev_of. by destruct (last k).
    + rewrite He, !last_app_cons. done.
  - apply NoDup_app. split; [done|]. split; [|done]. intros x Hx H. apply (Hdis x Hx). by right.
  - intros x rx Hx Hrx. assert (Hxn : x <> n) by congruence. specialize (Hinfo x Hxn). unfold info in Hinfo.
    rewrite Hrx in Hinfo. destruct (rq_heap st !! x) as [r0|] eqn:E0; [|done]. cbn [option_map] in Hinfo.
    injection Hinfo as -> _ _. apply (Ho x); [|done]. apply elem_of_app. apply elem_of_app in Hx as [?|?]; [by left|right; by right].
Qed.

Lemma check_loop_spec done l : forall fuel k prev c st,
  linked st (k ++ l) -> (length l < fuel)%nat -> spread done l ->
  (c = link_of L_head k /\ prev = prev_of None k \/
   (exists x, c = L_next x /\ option_map pr_next (rq_heap st !! x) = Some (head l)) /\
   match l with n :: _ => running done n = true | [] => True end) ->
  exists st', check_loop fuel done prev c st = Some st' /\ linked st' (k ++ List.filter (running done) l) /\
    (forall m, m ∉ l -> info st' m = info st m) /\
    (forall m ret, m ∈ l -> done m = Some (Some ret) -> info st' m = Some (true, false, ret)).
Proof.
  induction l as [|n l IH]; intros [|f] k prev c st Hlk Hf Hsp Hc; cbn [length] in Hf; try lia; cbn [check_loop].
  - assert (Hrd : read_link st c = Some None).
    { destruct Hc as [[-> _]|[(x & -> & Hx) _]]; [|exact Hx]. by apply (read_link_of st k []), lk_seg. }
    rewrite Hrd. cbn [mbind option_bind]. exists st. split; [done|]. split; [done|]. split; [done|].
    intros m ret Hm. by apply elem_of_nil in Hm.
  - assert (Hrd : read_link st c = Some (Some n)).
    { destruct Hc as [[-> _]|[(x & -> & Hx) _]]; [|exact Hx]. by apply (read_link_of st k (n :: l)), lk_seg. }
    rewrite Hrd. cbn [mbind option_bind]. pose proof Hlk as [Hs He Hnd Ho].
    destruct (seg_in _ _ _ _ n Hs) as [r Hr]; [apply elem_of_app; right; by left|].
    rewrite Hr. cbn [mbind option_bind]. rewrite (Ho n r); [|apply elem_of_app; right; by left|done].
    cbn [spread] in Hsp. destruct Hsp as [Hn Hsp]. cbn [List.filter]. unfold running at 1.
    apply NoDup_app in Hnd as (_ & _ & Hnd). apply NoDup_cons in Hnd as [Hnl _].
    destruct (done n) as [out|] eqn:Ed; cbn [mbind option_bind].
    + destruct Hc as [[-> ->]|[_ Hrun]]; [|unfold running in Hrun; by rewrite Ed in Hrun].
      destruct (collect_one st k n l r out Hlk Hr) as (st2 & Hw & Hlk2 & Hn2 & Hinfo).
      rewrite Hw. cbn [mbind option_bind].
      destruct (IH f k (Some n) (L_next n) st2 Hlk2) as (st' & E1 & E2 & E3 & E4); [lia|done| |].
      { right. split.
        - exists n. split; [done|]. rewrite Hn2. cbn [option_map]. rewrite finalize_next. f_equal.
          by apply (seg_next _ _ _ _ _ _ Hs).
        - destruct l as [|b l]; [done|]. destruct Hn as [Hn|Hn]; [|done]. unfold running in Hn. by rewrite Ed in Hn. }
      exists st'. split; [done|]. split; [done|]. split.
      * intros m Hm. apply not_elem_of_cons in Hm as [Hmn Hml]. rewrite E3 by done. by apply Hinfo.
      * intros m ret [->|Hm]%elem_of_cons Hd; [|by apply E4]. rewrite E3 by done. unfold info. rewrite Hn2.
        rewrite Ed in Hd. by injection Hd as ->.
    + destruct (IH f (k ++ [n]) (Some n) (L_next n) st) as (st' & E1 & E2 & E3 & E4);
        [by rewrite <- app_assoc|lia|done|left; unfold link_of, prev_of; by rewrite last_snoc|].
      exists st'. split; [done|]. split; [by rewrite <- app_assoc in E2|]. split.
      * intros m Hm. apply not_elem_of_cons in Hm as [Hmn Hml]. by apply E3.
      * intros m ret [->|Hm]%elem_of_cons Hd; [congruence|by apply E4].
Qed.

(** ** Correctness *)

Lemma spread_running done l : (forall n, n ∈ l -> running done n = true) -> spread done l.
Proof.
  induction l as [|a [|b l] IH]; cbn [spread]; intros H; [done|done|].
  split; [left; apply H; by left|]. apply IH. intros n Hn. apply H. by right.
Qed.

Lemma filter_running done l : (forall n, n ∈ l -> running done n = true) -> List.filter (running done) l = l.
Proof.
  induction l as [|a l IH]; intros H; cbn [List.filter]; [done|].
  rewrite (H a) by (by left). f_equal. apply IH. intros n Hn. apply H. by right.
Qed.

Lemma link_req_info st n r st2 m : link_req n r st = Some st2 -> m <> n -> info st2 m = info st m.
Proof.
  unfold link_req, info. intros H Hm. cbn [set_req rq_end rq_heap] in H. destruct (rq_end st) as [e|].
  - cbn [write_link set_req rq_heap] in H. destruct (<[n := set_next None r]> (rq_heap st) !! e) as [re|] eqn:Ee; [|done].
    cbn [mbind option_bind] in H. injection H as <-. cbn [set_end rq_heap set_req].
    destruct (decide (m = e)) as [->|Hme]; [|by rewrite !lookup_insert_ne].
    rewrite lookup_insert_eq. rewrite lookup_insert_ne in Ee by done. by rewrite Ee.
  - injection H as <-. cbn [rq_heap]. by rewrite lookup_insert_ne.
Qed.

(** C17: an asynchronous put appends its request to the outstanding ones, and
    with [check] first takes out those that have completed, keeping their
    results for a later [dspaces_check_put], provided no two neighbours in the
    list have completed. *)
Theorem iput_correct st l done n buffer :
  linked st l -> spread done l -> n ∉ l -> rq_heap st !! n = None ->
  exists st', dspaces_iput st done true n buffer true = Some (st', Some n) /\
    linked st' (List.filter (running done) l ++ [n]) /\
    (forall m ret, m ∈ l -> done m = Some (Some ret) ->
      exists st2, dspaces_check_put st' done m = Some (st2, ret) /\ rq_heap st2 !! m = None).
Proof.
  intros Hlk Hsp Hn Hfree. unfold dspaces_iput.
  destruct (check_loop_spec done l (S (size (rq_heap st))) [] None L_head st) as (st1 & -> & Hl1 & Hi1 & Hd1);
    [done|pose proof (linked_size _ _ Hlk); lia|done|by left|].
  cbn [mbind option_bind app] in *.
  assert (Hfree1 : rq_heap st1 !! n = None).
  { specialize (Hi1 n Hn). unfold info in Hi1. rewrite Hfree in Hi1. by destruct (rq_heap st1 !! n). }
  destruct (link_req_spec st1 _ n (mkPutReq None false buffer 0) Hl1 Hfree1 eq_refl) as (st2 & Hlink & Hl2 & _).
  rewrite Hlink. cbn [mbind option_bind]. exists st2. split; [done|]. split; [done|].
  intros m ret Hm Hd. specialize (Hd1 m ret Hm Hd). assert (Hmn : m <> n) by congruence.
  assert (Hi2 : info st2 m = info st1 m) by (by eapply link_req_info).
  unfold dspaces_check_put. unfold info in *. rewrite Hd1 in Hi2.
  destruct (rq_heap st2 !! m) as [r|]; [|done]. cbn [option_map] in Hi2. injection Hi2 as Hf _ Hr.
  cbn [mbind option_bind]. rewrite Hf, Hr. eexists. split; [done|]. cbn [free_req rq_heap]. by rewrite lookup_delete_eq.
Qed.

(** Waiting for an outstanding request, wherever it is in the list,
    returns the server's result, frees the request and leaves the others
    linked in order; one that still runs is left alone by a check without
    waiting. *)
Theorem check_put_correct st k n l done ret :
  linked st (k ++ n :: l) ->
  (done n = None -> dspaces_check_put st done n = Some (st, 0)) /\
  exists st', dspaces_wait_put st n (Some ret) = Some (st', ret) /\
    linked st' (k ++ l) /\ rq_heap st' !! n = None /\
    (done n = Some (Some ret) -> dspaces_check_put st done n = Some (st', 1)).
Proof.
  intros Hlk. destruct (retire_spec st k n l (Some ret) Hlk) as (st' & r & Hr & Hret & Hl' & Hn).
  assert (Hf : pr_finalized r = false) by (apply (lk_open _ _ Hlk n); [apply elem_of_app; right; by left|done]).
  unfold dspaces_check_put, dspaces_wait_put. rewrite Hr. cbn [mbind option_bind]. rewrite Hf.
  split; [by intros ->|]. exists st'. split; [exact Hret|]. split; [done|]. split; [done|].
  intros ->. by rewrite Hret.
Qed.

(** [dspaces_fini] waits for every outstanding put and then finds the list
    empty, whatever the servers answer. *)
Theorem fini_collects l : forall st out, linked st l ->
  exists st', fini_loop (length l) out st = Some st' /\ linked st' [] /\ rq_head st' = None /\ rq_end st' = None.
Proof.
  induction l as [|n l IH]; intros st out Hlk; cbn [length fini_loop].
  - pose proof (lk_seg _ _ Hlk) as Hs. cbn [seg] in Hs. rewrite Hs. exists st. split; [done|]. split; [done|].
    split; [done|]. by rewrite (lk_end _ _ Hlk).
  - destruct (retire_spec st [] n l (out n) Hlk) as (st' & r & Hr & Hret & Hl' & Hn).
    destruct (lk_seg _ _ Hlk) as [-> _]. unfold dspaces_wait_put. rewrite Hr. cbn [mbind option_bind].
    rewrite (lk_open _ _ Hlk n) by first [by left|done]. rewrite Hret. cbn [mbind option_bind]. by apply IH.
Qed.

Lemma size_two (h : gmap nat put_req) a b xa xb : a <> b -> h !! a = Some xa -> h !! b = Some xb -> exists s, size h = S (S s).
Proof.
  intros Hab Ha Hb. rewrite <- (insert_id h a xa Ha), <- insert_delete_eq, map_size_insert_None by apply lookup_delete_eq.
  rewrite <- (insert_id (delete a h) b xb) by (by rewrite lookup_delete_ne).
  rewrite <- insert_delete_eq, map_size_insert_None by apply lookup_delete_eq. eauto.
Qed.

(** Running the operations on a known heap. *)
Ltac heap_step :=
  cbn [check_loop read_link rq_head rq_heap rq_end mbind option_bind option_map set_end set_req free_req write_link
    finalize_req fst pr_next pr_finalized pr_ret set_next link_req].
Ltac heap_look :=
  repeat first [rewrite lookup_insert_eq|rewrite lookup_insert_ne by congruence|rewrite lookup_delete_ne by congruence].

(** Two outstanding requests. *)
Definition two_requests : reqs :=
  mkReqs (<[1%nat := mkPutReq (Some 2%nat) false true 0]> (<[2%nat := mkPutReq None false true 0]> empty)) (Some 1%nat) (Some 2%nat).

Lemma two_requests_linked : linked two_requests [1%nat; 2%nat].
Proof.
  split.
  - cbn. split; [done|]. eexists. split; [reflexivity|]. split; [done|]. eexists. split; reflexivity.
  - done.
  - apply NoDup_cons. split; [by intros ?%list_elem_of_singleton|apply NoDup_singleton].
  - intros n r Hn Hr. apply elem_of_cons in Hn as [-> | ->%list_elem_of_singleton]; vm_compute in Hr; injection Hr as <-; done.
Qed.

(** When two neighbouring puts have completed, [dspaces_iput] with [check]
    unlinks the first, then writes through that first one's link: the second,
    finalized, stays at the head, the new request hangs off the unlinked one,
    and [dspaces_fini] frees the head and looks at it again. *)
Theorem iput_breaks_list st a b n done ra rb buffer :
  linked st [a; b] -> n ∉ [a; b] -> rq_heap st !! n = None ->
  done a = Some (Some ra) -> done b = Some (Some rb) ->
  exists st' st2, dspaces_iput st done true n buffer true = Some (st', Some n) /\
    rq_head st' = Some b /\ option_map pr_next (rq_heap st' !! b) = Some None /\
    option_map pr_next (rq_heap st' !! a) = Some (Some n) /\
    (forall out, dspaces_wait_put st' b out = Some (st2, rb)) /\
    rq_head st2 = Some b /\ (forall out, dspaces_wait_put st2 b out = None).
Proof.
  intros Hlk Hn Hfree Ha Hb. destruct Hlk as [Hs He Hnd Ho]. cbn [seg] in Hs.
  destruct Hs as (Hh & xa & Hxa & Hna & xb & Hxb & Hnb).
  assert (Hab : a <> b) by (apply NoDup_cons in Hnd as [Hnd _]; by apply not_elem_of_cons in Hnd as [? _]).
  apply not_elem_of_cons in Hn as [Hnna Hn]. apply not_elem_of_cons in Hn as [Hnnb _].
  assert (Hfa : pr_finalized xa = false) by (apply (Ho a); [by left|done]).
  assert (Hfb : pr_finalized xb = false) by (apply (Ho b); [right; by left|done]).
  destruct st as [h hd e]. cbn [rq_heap rq_head rq_end] in *. subst hd.
  assert (exists s, size h = S (S s)) as [s Hsize] by (by eapply (size_two h a b)).
  unfold dspaces_iput. cbn [rq_heap]. rewrite Hsize.
  repeat (heap_step; rewrite ?Hxa, ?Hxb, ?Hfa, ?Hfb, ?Ha, ?Hb, ?Hna, ?Hnb; heap_look).
  eexists _, _. split; [reflexivity|].
  repeat (heap_step; heap_look).
  split; [done|]. split; [done|]. split; [done|]. split; [intros out; unfold dspaces_wait_put; repeat (heap_step; heap_look); reflexivity|].
  split; [done|]. intros out. unfold dspaces_wait_put. heap_step. by rewrite lookup_delete_eq.
Qed.

Lemma three_fresh : 3%nat ∉ [1%nat; 2%nat].
Proof. rewrite !elem_of_cons, elem_of_nil. lia. Qed.

Lemma iput_correct_witness :
  exists st', dspaces_iput two_requests (fun m => if (m =? 1)%nat then Some (Some 0) else None) true 3 true true
      = Some (st', Some 3%nat) /\ linked st' [2%nat; 3%nat].
Proof.
  destruct (iput_correct two_requests [1%nat; 2%nat] (fun n => if (n =? 1)%nat then Some (Some 0) else None) 3 true)
    as (st' & E & Hl & _); [exact two_requests_linked|cbn; auto|exact three_fresh|reflexivity|].
  exists st'. split; [exact E|exact Hl].
Defined.

Lemma check_put_correct_witness :
  exists st', dspaces_wait_put two_requests 1 (Some 7) = Some (st', 7) /\ linked st' [2%nat].
Proof.
  destruct (check_put_correct two_requests [] 1 [2%nat] (fun _ => None) 7 two_requests_linked) as [_ (st' & E & Hl & _)].
  exists st'. split; [exact E|exact Hl].
Defined.

Lemma fini_collects_witness : exists st', fini_loop 2 (fun _ => None) two_requests = Some st' /\ rq_head st' = None.
Proof.
  destruct (fini_collects [1%nat; 2%nat] two_requests (fun _ => None) two_requests_linked) as (st' & E & _ & Hh & _).
  exists st'. split; [exact E|exact Hh].
Defined.

Lemma iput_breaks_list_witness :
  exists st' st2, dspaces_iput two_requests (fun _ => Some (Some 0)) true 3 true true = Some (st', Some 3%nat) /\
    dspaces_wait_put st' 2 None = Some (st2, 0) /\ rq_head st2 = Some 2%nat /\ dspaces_wait_put st2 2 None = None.
Proof.
  destruct (iput_breaks_list two_requests 1 2 3 (fun _ => Some (Some 0)) 0 0 true) as (st' & st2 & E & _ & _ & _ & E1 & E2 & E3);
    [exact two_requests_linked|exact three_fresh|reflexivity|reflexivity|reflexivity|].
  exists st', st2. split; [exact E|]. split; [apply E1|]. split; [exact E2|apply E3].
Defined.
