(* ===== verification/Subs.v ===== *)
(** * Subs: subscriptions of a client

    [dspaces_sub], [notify_rpc], [dspaces_check_sub], [dspaces_cancel_sub] and
    the first wait of [dspaces_fini] of [src/src/dspaces-client.c], as a step
    relation: each section under [sub_mutex], and each access outside it, is
    one step, so the notification handlers, the user's calls and [dspaces_fini]
    interleave as their threads do. *)

From Stdlib Require Import Ascii.
From S2P Require Import Prelude BBox ObjDesc Linear Sspace DhtEntry StrHash LocalStorage Matrix Codec Modules Server Client.

(** ** State *)

Inductive sub_status :=
  | DSPACES_SUB_DONE | DSPACES_SUB_WAIT | DSPACES_SUB_ERR | DSPACES_SUB_TRANSFER
  | DSPACES_SUB_RUNNING | DSPACES_SUB_INVALID | DSPACES_SUB_CANCELLED.

#[export] Instance sub_status_eq_dec : EqDecision sub_status.
Proof. solve_decision. Defined.

(** [struct dspaces_sub_handle]; [result] and [req->buf] are not set at first. *)
Record sub_handle := mkSub {
  sb_odsc : obj_descriptor;
  sb_status : sub_status;
  sb_result : option Z;
  sb_buf : option (list Z)
}.

Definition set_status (x : sub_status) (h : sub_handle) : sub_handle :=
  mkSub (sb_odsc h) x (sb_result h) (sb_buf h).

(** Where the notification of a subscription is: its request sent, then the
    handler [notify_rpc] between two of its steps, with its local [data]. *)
Inductive pc :=
  | P_sent
  | P_found
  | P_fetching
  | P_have (data : option (list Z))
  | P_call (data : option (list Z))
  | P_called (data : option (list Z))
  | P_finished (data : option (list Z))
  | P_over (data : option (list Z)).

(** The subscription fields of [struct dspaces_client], the handles, the
    handlers, whether a handler holds [sub_mutex] for ever, and the callbacks
    made.  A [sub_list_node] is the identity of its handle. *)
Record subs := mkSubs {
  sub_serial : nat;
  sub_lists : list (list nat);
  done_list : list nat;
  pending_sub : Z;
  sub_handles : gmap nat sub_handle;
  sub_threads : gmap nat pc;
  sub_held : bool;
  sub_calls : list (nat * list Z)
}.

Definition SUB_HASH_SIZE : nat := 16.

Definition sub_init : subs := mkSubs 0 (replicate SUB_HASH_SIZE []) [] 0 empty empty false [].

Definition with_handle (i : nat) (h : sub_handle) (s : subs) : subs :=
  mkSubs (sub_serial s) (sub_lists s) (done_list s) (pending_sub s) (<[i := h]> (sub_handles s)) (sub_threads s)
    (sub_held s) (sub_calls s).
Definition with_thread (i : nat) (p : pc) (s : subs) : subs :=
  mkSubs (sub_serial s) (sub_lists s) (done_list s) (pending_sub s) (sub_handles s) (<[i := p]> (sub_threads s))
    (sub_held s) (sub_calls s).
Definition with_held (s : subs) : subs :=
  mkSubs (sub_serial s) (sub_lists s) (done_list s) (pending_sub s) (sub_handles s) (sub_threads s) true (sub_calls s).
Definition with_call (i : nat) (d : list Z) (s : subs) : subs :=
  mkSubs (sub_serial s) (sub_lists s) (done_list s) (pending_sub s) (sub_handles s) (sub_threads s) (sub_held s)
    (sub_calls s ++ [(i, d)]).

(** ** The lists *)

Definition bucket (s : subs) (i : nat) : list nat := default [] (sub_lists s !! (i mod SUB_HASH_SIZE)%nat).

(** The loop of [dspaces_get_sub], which keeps looking at the same node:
    [None] when the fuel runs out, [Some None] for [NULL]. *)
Fixpoint dspaces_get_sub (fuel : nat) (node : list nat) (sub_id : nat) : option (option nat) :=
  match fuel with
  | O => None
  | S f =>
      match node with
      | [] => Some None
      | id :: _ => if (id =? sub_id)%nat then Some (Some id) else dspaces_get_sub f node sub_id
      end
  end.

Fixpoint unlink_sub (sub_id : nat) (l : list nat) : option (list nat) :=
  match l with
  | [] => None
  | id :: l => if (id =? sub_id)%nat then Some l else option_map (cons id) (unlink_sub sub_id l)
  end.

(** [dspaces_move_sub] with the decrement of [pending_sub] before it. *)
Definition dspaces_move_sub (sub_id : nat) (s : subs) : subs :=
  match unlink_sub sub_id (bucket s sub_id) with
  | None => mkSubs (sub_serial s) (sub_lists s) (done_list s) (pending_sub s - 1) (sub_handles s) (sub_threads s)
              (sub_held s) (sub_calls s)
  | Some l => mkSubs (sub_serial s) (<[(sub_id mod SUB_HASH_SIZE)%nat := l]> (sub_lists s)) (sub_id :: done_list s)
                (pending_sub s - 1) (sub_handles s) (sub_threads s) (sub_held s) (sub_calls s)
  end.

(** ** Operations of the user *)

Section Calls.
Context `{E : Env} `{CE : ClientEnv}.

(** The descriptor of [subh->q_odsc]; [my_addr] is this process' address. *)
Definition sub_odsc (c : client) (my_addr var_name : string) (ver elem_size : Z) (ndim : nat) (lb ub : list Z)
  : option obj_descriptor :=
  raw ← strncpy uninit_name 0 (OD_MAX_NAME_LEN - 1) var_name;
  odsc ← fill_odsc c var_name ver elem_size ndim lb ub raw uninit_odsc;
  Some (set_owner my_addr odsc).

(** [dspaces_sub]: the locked section, [register_client_sub] included, and the
    request; [sent] tells whether [sub_rpc] was called, else the result is
    [DSPACES_SUB_FAIL]. *)
Definition dspaces_sub (s : subs) (odsc : obj_descriptor) (sent : bool) : subs * option nat :=
  let i := sub_serial s in
  let s' := mkSubs (S i) (alter (fun l => l ++ [i]) (i mod SUB_HASH_SIZE)%nat (sub_lists s)) (done_list s)
              (pending_sub s + 1) (<[i := mkSub odsc DSPACES_SUB_WAIT None None]> (sub_handles s))
              (if sent then <[i := P_sent]> (sub_threads s) else sub_threads s) (sub_held s) (sub_calls s) in
  (s', if sent then Some i else None).

Definition dspaces_cancel_sub (s : subs) (i : nat) : option subs :=
  h ← sub_handles s !! i;
  Some (match sb_status h with
        | DSPACES_SUB_WAIT | DSPACES_SUB_TRANSFER => with_handle i (set_status DSPACES_SUB_CANCELLED h) s
        | _ => s
        end).

(** [dspaces_check_sub]: whether a waiting call blocks, and else the status
    with what is written to [*result]. *)
Definition check_sub_waits (s : subs) (i : nat) : option bool :=
  h ← sub_handles s !! i;
  Some (match sb_status h with
        | DSPACES_SUB_WAIT | DSPACES_SUB_TRANSFER | DSPACES_SUB_RUNNING => true
        | _ => false
        end).

Definition dspaces_check_sub (s : subs) (i : nat) : option (sub_status * option (option Z)) :=
  h ← sub_handles s !! i;
  Some (sb_status h, if decide (sb_status h = DSPACES_SUB_DONE) then Some (sb_result h) else None).

(** [dspaces_fini] past its first wait, with [free_done_list]. *)
Definition fini_subs (s : subs) : subs :=
  mkSubs (sub_serial s) (sub_lists s) [] (pending_sub s) (foldr delete (sub_handles s) (done_list s))
    (sub_threads s) (sub_held s) (sub_calls s).

(** ** The steps of [notify_rpc] *)

(** The first locked section, after the lookup. *)
Definition notify_begin (i : nat) (h : sub_handle) (s : subs) : subs :=
  match sb_status h with
  | DSPACES_SUB_WAIT => with_thread i P_found s
  | _ => with_thread i (P_have None) s
  end.

(** [subh->status = DSPACES_SUB_TRANSFER], outside the lock. *)
Definition notify_transfer (i : nat) (h : sub_handle) (s : subs) : subs :=
  with_thread i P_fetching (with_handle i (set_status DSPACES_SUB_TRANSFER h) s).

(** The size of the buffer, and what it holds once the objects of the
    notification are fetched. *)
Definition notify_size (o : obj_descriptor) : Z :=
  fold_left (fun n i => u64 (n * u64 (cget (ub (od_bb o)) i - cget (lb (od_bb o)) i + 1)))
    (seq 0 (num_dims (od_bb o))) (od_size o).

Definition notify_data (fetch : obj_descriptor -> option (Z * list Z)) (o : obj_descriptor)
    (odsc_tab : list obj_descriptor) : option (list Z) :=
  let data := malloc (Z.to_nat (notify_size o)) in
  match odsc_tab with [] => Some data | _ => get_data fetch o odsc_tab data end.

(** The second locked section. *)
Definition notify_deliver (i : nat) (data : option (list Z)) (h : sub_handle) (s : subs) : subs :=
  match sb_status h with
  | DSPACES_SUB_TRANSFER =>
      with_thread i (P_call data) (with_handle i (mkSub (sb_odsc h) DSPACES_SUB_RUNNING (sb_result h) data) s)
  | _ => with_thread i (P_call None) s
  end.

(** The callback, with the value it returns. *)
Definition notify_callback (i : nat) (data : option (list Z)) (r : Z) (h : sub_handle) (s : subs) : subs :=
  with_thread i (P_called data)
    (match data with
     | Some d => with_call i d (with_handle i (mkSub (sb_odsc h) (sb_status h) (Some r) (sb_buf h)) s)
     | None => s
     end).

(** The third locked section. *)
Definition notify_finish (i : nat) (data : option (list Z)) (h : sub_handle) (s : subs) : subs :=
  with_thread i (P_finished data) (with_handle i (set_status DSPACES_SUB_DONE h) (dspaces_move_sub i s)).

(** [notify_rpc] with nothing in between, from its second locked section and
    from its lookup on. *)
Definition notify_rest (i : nat) (data : option (list Z)) (r : Z) (s : subs) : option subs :=
  h ← sub_handles s !! i;
  let s := notify_deliver i data h s in
  data ← (match sub_threads s !! i with Some (P_call data) => Some data | _ => None end);
  h ← sub_handles s !! i;
  let s := notify_callback i data r h s in
  h ← sub_handles s !! i;
  let s := notify_finish i data h s in
  _ ← sub_handles s !! i;
  Some (with_thread i (P_over data) s).

Definition notify_rpc (i : nat) (data : list Z) (r : Z) (s : subs) : option subs :=
  h ← sub_handles s !! i;
  let s := notify_begin i h s in
  match sub_threads s !! i with
  | Some P_found => notify_rest i (Some data) r (with_thread i (P_have (Some data)) (notify_transfer i h s))
  | _ => notify_rest i None r s
  end.

(** ** Interleavings *)

Inductive step : subs -> subs -> Prop :=
  | step_sub s odsc sent : sub_held s = false -> step s (fst (dspaces_sub s odsc sent))
  | step_cancel s i s' : sub_held s = false -> dspaces_cancel_sub s i = Some s' -> step s s'
  | step_fini s : sub_held s = false -> pending_sub s <= 0 -> step s (fini_subs s)
  | step_begin s i fuel h : sub_held s = false -> sub_threads s !! i = Some P_sent ->
      dspaces_get_sub fuel (bucket s i) i = Some (Some i) -> sub_handles s !! i = Some h ->
      step s (notify_begin i h s)
  | step_spin s i : sub_held s = false -> sub_threads s !! i = Some P_sent ->
      (forall fuel, dspaces_get_sub fuel (bucket s i) i = None) -> step s (with_held s)
  | step_transfer s i h : sub_threads s !! i = Some P_found -> sub_handles s !! i = Some h ->
      step s (notify_transfer i h s)
  | step_fetch s i h fetch odsc_tab data : sub_threads s !! i = Some P_fetching -> sub_handles s !! i = Some h ->
      notify_data fetch (sb_odsc h) odsc_tab = Some data -> step s (with_thread i (P_have (Some data)) s)
  | step_deliver s i h data : sub_held s = false -> sub_threads s !! i = Some (P_have data) ->
      sub_handles s !! i = Some h -> step s (notify_deliver i data h s)
  | step_callback s i h data r : sub_threads s !! i = Some (P_call data) -> sub_handles s !! i = Some h ->
      step s (notify_callback i data r h s)
  | step_finish s i h data : sub_held s = false -> sub_threads s !! i = Some (P_called data) ->
      sub_handles s !! i = Some h -> step s (notify_finish i data h s)
  | step_release s i h data : sub_threads s !! i = Some (P_finished data) -> sub_handles s !! i = Some h ->
      step s (with_thread i (P_over data) s).

Definition reachable (s : subs) : Prop := rtc step sub_init s.
End Calls.

(** ** Counting and searching under a filter *)

Lemma keep_ext (P Q : nat -> bool) l : (forall x, x ∈ l -> P x = Q x) -> List.filter P l = List.filter Q l.
Proof.
  induction l as [|x l IH]; intros H; cbn [List.filter]; [done|].
  rewrite (H x) by (by left). rewrite IH; [done|]. intros y Hy. apply H. by right.
Qed.

(** Switching one element off takes it out. *)
Lemma keep_unlink (P Q : nat -> bool) i l : NoDup l -> P i = true -> Q i = false ->
  (forall x, x <> i -> Q x = P x) -> i ∈ l -> unlink_sub i (List.filter P l) = Some (List.filter Q l).
Proof.
  intros Hnd HP HQ Hne. induction Hnd as [|x l Hx Hnd IH]; intros Hin; [by apply elem_of_nil in Hin|].
  cbn [List.filter]. apply elem_of_cons in Hin as [<-|Hin].
  - rewrite HP, HQ. cbn [unlink_sub]. rewrite Nat.eqb_refl. f_equal. apply keep_ext. intros y Hy.
    symmetry. apply Hne. congruence.
  - assert (Hxi : x <> i) by congruence. rewrite (Hne x Hxi). destruct (P x); [|by apply IH].
    cbn [unlink_sub]. destruct (Nat.eqb_spec x i); [done|]. by rewrite IH.
Qed.

Lemma unlink_length i l l' : unlink_sub i l = Some l' -> length l = S (length l').
Proof.
  revert l'. induction l as [|x l IH]; intros l'; cbn [unlink_sub]; [done|].
  destruct (x =? i)%nat; [by intros [= ->]|]. destruct (unlink_sub i l) as [m|]; [|done].
  intros [= <-]. cbn [length]. by rewrite (IH m).
Qed.

(** The first kept element. *)
Lemma keep_head (P : nat -> bool) n i : (i < n)%nat -> P i = true ->
  head (List.filter P (seq 0 n)) = Some i <-> forall j, (j < i)%nat -> P j = false.
Proof.
  intros Hi HP. assert (Hs : seq 0 n = seq 0 i ++ i :: seq (S i) (n - S i)).
  { replace n with (i + S (n - S i))%nat at 1 by lia. by rewrite seq_app. }
  rewrite Hs, List.filter_app. cbn [List.filter]. rewrite HP. split.
  - intros Hh j Hj. destruct (P j) eqn:Ej; [|done].
    assert (Hin : In j (List.filter P (seq 0 i))) by (apply filter_In; split; [apply in_seq; lia|done]).
    destruct (List.filter P (seq 0 i)) as [|x l] eqn:Ek; [done|]. cbn [app head] in Hh. injection Hh as ->.
    assert (Hii : In i (List.filter P (seq 0 i))) by (rewrite Ek; by left). apply filter_In in Hii as [Hii _].
    apply in_seq in Hii. lia.
  - intros H. destruct (List.filter P (seq 0 i)) as [|x l] eqn:Ek; [done|].
    assert (Hx : In x (List.filter P (seq 0 i))) by (rewrite Ek; by left).
    apply filter_In in Hx as [Hx HPx]. apply in_seq in Hx. rewrite H in HPx by lia. done.
Qed.

(** ** The invariant *)

(** The handler has not reached its last locked section. *)
Definition unfinished (s : subs) (i : nat) : bool :=
  match sub_threads s !! i with Some (P_finished _ | P_over _) => false | _ => true end.

Definition in_bucket (s : subs) (b i : nat) : bool := unfinished s i && (i mod SUB_HASH_SIZE =? b)%nat.

Definition waiting (h : sub_handle) : Prop :=
  sb_status h = DSPACES_SUB_WAIT /\ sb_result h = None /\ sb_buf h = None.
Definition cancelled (h : sub_handle) : Prop := sb_status h = DSPACES_SUB_CANCELLED /\ sb_result h = None.

(** The handle of a subscription when its handler is at [p]. *)
Definition pc_ok (p : option pc) (h : sub_handle) : Prop :=
  match p with
  | None | Some P_sent | Some P_found => waiting h \/ cancelled h
  | Some P_fetching => sb_status h = DSPACES_SUB_TRANSFER /\ sb_result h = None \/ cancelled h
  | Some (P_have None) => cancelled h
  | Some (P_have (Some _)) => sb_status h = DSPACES_SUB_TRANSFER /\ sb_result h = None \/ cancelled h
  | Some (P_call None) | Some (P_called None) => cancelled h
  | Some (P_call (Some d)) => sb_status h = DSPACES_SUB_RUNNING /\ sb_buf h = Some d
  | Some (P_called (Some d)) => sb_status h = DSPACES_SUB_RUNNING /\ sb_buf h = Some d /\ is_Some (sb_result h)
  | Some (P_finished None) | Some (P_over None) => sb_status h = DSPACES_SUB_DONE /\ sb_result h = None
  | Some (P_finished (Some d)) | Some (P_over (Some d)) =>
      sb_status h = DSPACES_SUB_DONE /\ sb_buf h = Some d /\ is_Some (sb_result h)
  end.

(** What the handler at [p] has given to the callback. *)
Definition given (p : option pc) : option (list Z) :=
  match p with Some (P_called d | P_finished d | P_over d) => d | _ => None end.

Record subs_inv (s : subs) : Prop := {
  si_lists : sub_lists s = map (fun b => List.filter (in_bucket s b) (seq 0 (sub_serial s))) (seq 0 SUB_HASH_SIZE);
  si_pending : pending_sub s = Z.of_nat (length (List.filter (unfinished s) (seq 0 (sub_serial s))));
  si_done : forall i, i ∈ done_list s -> (i < sub_serial s)%nat /\ unfinished s i = false;
  si_threads : forall i, is_Some (sub_threads s !! i) -> (i < sub_serial s)%nat;
  si_handles : forall i h, sub_handles s !! i = Some h -> (i < sub_serial s)%nat /\ pc_ok (sub_threads s !! i) h;
  si_alive : forall i, (i < sub_serial s)%nat -> unfinished s i = true -> is_Some (sub_handles s !! i);
  si_calls : forall i d, (i, d) ∈ sub_calls s <-> given (sub_threads s !! i) = Some d;
  si_once : NoDup (sub_calls s).*1
}.

Lemma bucket_eq s i : subs_inv s -> bucket s i = List.filter (in_bucket s (i mod SUB_HASH_SIZE)) (seq 0 (sub_serial s)).
Proof.
  intros Hi. unfold bucket. rewrite (si_lists _ Hi).
  assert (Hb : (i mod SUB_HASH_SIZE < SUB_HASH_SIZE)%nat) by (apply Nat.mod_upper_bound; done).
  rewrite list_lookup_fmap, lookup_seq_lt by done. done.
Qed.

Lemma subs_inv_init : subs_inv sub_init.
Proof.
  split; cbn [sub_init sub_lists sub_serial done_list sub_threads sub_handles sub_calls pending_sub]; try done.
  - intros i Hi. by apply elem_of_nil in Hi.
  - intros i [? H]. done.
  - intros i. lia.
  - intros i d. rewrite lookup_empty. cbn [given]. split; [|done]. intros H. by apply elem_of_nil in H.
  - apply NoDup_nil_2.
Qed.

(** ** Steps keep the invariant *)

Lemma unfinished_keep s s' i : sub_threads s' !! i = sub_threads s !! i -> unfinished s' i = unfinished s i.
Proof. unfold unfinished. by intros ->. Qed.

(** A step that moves one handler, inside or outside of its open part. *)
Lemma inv_local s s' i h' :
  subs_inv s -> (i < sub_serial s)%nat ->
  sub_serial s' = sub_serial s -> sub_lists s' = sub_lists s -> done_list s' = done_list s -> pending_sub s' = pending_sub s ->
  (forall j, j <> i -> sub_threads s' !! j = sub_threads s !! j) -> unfinished s' i = unfinished s i ->
  sub_handles s' = <[i := h']> (sub_handles s) -> pc_ok (sub_threads s' !! i) h' ->
  (forall d, (i, d) ∈ sub_calls s' <-> given (sub_threads s' !! i) = Some d) ->
  (forall j d, j <> i -> (j, d) ∈ sub_calls s' <-> (j, d) ∈ sub_calls s) -> NoDup (sub_calls s').*1 ->
  subs_inv s'.
Proof.
  intros Hinv Hi Es El Ed Ep Ht Hu Eh Hpc Hci Hcj Hnd.
  assert (Hun : forall j, unfinished s' j = unfinished s j).
  { intros j. destruct (decide (j = i)) as [->|Hj]; [done|]. by apply unfinished_keep, Ht. }
  split.
  - rewrite El, Es, (si_lists _ Hinv). apply map_ext. intros b. apply keep_ext. intros j _. unfold in_bucket. by rewrite Hun.
  - rewrite Ep, Es, (si_pending _ Hinv). do 2 f_equal. by apply keep_ext.
  - intros j. rewrite Ed, Es, Hun. apply (si_done _ Hinv).
  - intros j. rewrite Es. destruct (decide (j = i)) as [->|Hj]; [done|]. rewrite (Ht j Hj). apply (si_threads _ Hinv).
  - intros j h. rewrite Eh, Es. destruct (decide (j = i)) as [->|Hj].
    + rewrite lookup_insert_eq. by intros [= <-].
    + rewrite lookup_insert_ne, (Ht j Hj) by done. apply (si_handles _ Hinv).
  - intros j. rewrite Es, Hun, Eh. intros H1 H2. destruct (decide (j = i)) as [->|Hj]; [by rewrite lookup_insert_eq|].
    rewrite lookup_insert_ne by done. by apply (si_alive _ Hinv).
  - intros j d. destruct (decide (j = i)) as [->|Hj]; [apply Hci|]. rewrite (Ht j Hj), (Hcj j d Hj). apply (si_calls _ Hinv).
  - done.
Qed.

(** The same, when no callback is made. *)
Lemma inv_quiet s s' i p h' :
  subs_inv s -> (i < sub_serial s)%nat ->
  sub_serial s' = sub_serial s -> sub_lists s' = sub_lists s -> done_list s' = done_list s -> pending_sub s' = pending_sub s ->
  sub_calls s' = sub_calls s -> sub_threads s' = partial_alter (fun _ => p) i (sub_threads s) ->
  sub_handles s' = <[i := h']> (sub_handles s) ->
  unfinished s' i = unfinished s i -> given p = given (sub_threads s !! i) -> pc_ok p h' -> subs_inv s'.
Proof.
  intros Hinv Hi Es El Ed Ep Ec Et Eh Hu Hg Hpc. apply (inv_local s s' i h'); try done.
  - intros j Hj. by rewrite Et, lookup_partial_alter_ne.
  - by rewrite Et, lookup_partial_alter_eq.
  - intros d. rewrite Ec, Et, lookup_partial_alter_eq, Hg. apply (si_calls _ Hinv).
  - intros j d _. by rewrite Ec.
  - rewrite Ec. apply (si_once _ Hinv).
Qed.

Lemma seq_snoc n : seq 0 (S n) = seq 0 n ++ [n].
Proof. by rewrite seq_S. Qed.

(** A new subscription. *)
Lemma inv_sub s odsc sent : subs_inv s -> subs_inv (fst (dspaces_sub s odsc sent)).
Proof.
  intros Hinv. unfold dspaces_sub. cbn [fst]. set (n := sub_serial s). set (s' := mkSubs _ _ _ _ _ _ _ _).
  assert (Hn : sub_threads s !! n = None).
  { destruct (sub_threads s !! n) eqn:En; [|done]. pose proof (si_threads _ Hinv n). rewrite En in H.
    specialize (H ltac:(eauto)). lia. }
  assert (Ht : forall j, j <> n -> sub_threads s' !! j = sub_threads s !! j).
  { intros j Hj. cbn [s' sub_threads]. destruct sent; [by rewrite lookup_insert_ne|done]. }
  assert (Htn : sub_threads s' !! n = if sent then Some P_sent else None).
  { cbn [s' sub_threads]. destruct sent; [by rewrite lookup_insert_eq|done]. }
  assert (Hun : unfinished s' n = true) by (unfold unfinished; rewrite Htn; by destruct sent).
  assert (Hk : forall j, j ∈ seq 0 n -> unfinished s' j = unfinished s j).
  { intros j Hj%elem_of_seq. apply unfinished_keep, Ht. lia. }
  split.
  - cbn [s' sub_lists sub_serial]. rewrite (si_lists _ Hinv). fold n. apply list_eq. intros b.
    assert (Hf : forall b, List.filter (in_bucket s' b) (seq 0 (S n)) =
      List.filter (in_bucket s b) (seq 0 n) ++ if (n mod SUB_HASH_SIZE =? b)%nat then [n] else []).
    { intros x. rewrite seq_snoc, List.filter_app. cbn [List.filter]. unfold in_bucket at 2. rewrite Hun. cbn [andb].
      f_equal. apply keep_ext. intros j Hj. unfold in_bucket. by rewrite Hk. }
    rewrite list_lookup_alter, !list_lookup_fmap. destruct (decide _) as [<-|Hne].
    + rewrite lookup_seq_lt by (by apply Nat.mod_upper_bound). cbn [fmap option_fmap option_map Nat.add].
      by rewrite Hf, Nat.eqb_refl.
    + destruct (seq 0 SUB_HASH_SIZE !! b) as [x|] eqn:Ex; [|done]. cbn [fmap option_fmap option_map].
      apply lookup_seq in Ex as [-> _]. cbn [Nat.add]. rewrite Hf. destruct (Nat.eqb_spec (n mod SUB_HASH_SIZE) b); [done|].
      by rewrite app_nil_r.
  - cbn [s' pending_sub sub_serial]. rewrite (si_pending _ Hinv). fold n. rewrite seq_snoc, List.filter_app. cbn [List.filter].
    rewrite Hun, (keep_ext (unfinished s') (unfinished s)) by done. rewrite length_app. simpl. lia.
  - intros j Hj. cbn [s' sub_serial]. apply (si_done _ Hinv) in Hj as [Hj Hu]. split; [lia|].
    rewrite (unfinished_keep s s'); [done|]. apply Ht. lia.
  - intros j. cbn [s' sub_serial]. destruct (decide (j = n)) as [->|Hj]; [unfold n; lia|]. rewrite Ht by done.
    intros H%(si_threads _ Hinv). lia.
  - intros j h. cbn [s' sub_serial sub_handles]. destruct (decide (j = n)) as [->|Hj].
    + rewrite lookup_insert_eq. intros [= <-]. split; [unfold n; lia|]. rewrite Htn. destruct sent; by left.
    + rewrite lookup_insert_ne by done. intros H%(si_handles _ Hinv). rewrite Ht by done. destruct H; split; [lia|done].
  - intros j. cbn [s' sub_serial sub_handles]. destruct (decide (j = n)) as [->|Hj]; [by rewrite lookup_insert_eq|].
    rewrite lookup_insert_ne by done. intros H1 H2. apply (si_alive _ Hinv); [unfold n in Hj; lia|].
    by rewrite <- (unfinished_keep s s' j (Ht j Hj)).
  - intros j d. cbn [s' sub_calls]. rewrite (si_calls _ Hinv). destruct (decide (j = n)) as [->|Hj]; [|by rewrite Ht].
    rewrite Hn, Htn. by destruct sent.
  - apply (si_once _ Hinv).
Qed.

(** The user's calls. *)
Lemma inv_cancel s i s' : subs_inv s -> dspaces_cancel_sub s i = Some s' -> subs_inv s'.
Proof.
  intros Hinv. unfold dspaces_cancel_sub. destruct (sub_handles s !! i) as [h|] eqn:Eh; [|done].
  cbn [mbind option_bind]. intros [= <-]. destruct (si_handles _ Hinv i h Eh) as [Hi Hpc].
  assert (Hc : sb_status h = DSPACES_SUB_WAIT \/ sb_status h = DSPACES_SUB_TRANSFER ->
    subs_inv (with_handle i (set_status DSPACES_SUB_CANCELLED h) s)).
  { intros Hst. apply (inv_quiet s _ i (sub_threads s !! i) (set_status DSPACES_SUB_CANCELLED h)); try done.
    - cbn [with_handle sub_threads]. apply map_eq. intros j. by destruct (decide (j = i)) as [->|];
        rewrite ?lookup_partial_alter_eq, ?lookup_partial_alter_ne.
    - destruct (sub_threads s !! i) as [[| | |[?|]|[?|]|[?|]|[?|]|[?|]]|]; unfold pc_ok, waiting, cancelled in *; cbn [set_status sb_status sb_result sb_buf];
        intuition congruence. }
  destruct (sb_status h); auto.
Qed.

Lemma lookup_delete_all (l : list nat) (m : gmap nat sub_handle) i h :
  foldr delete m l !! i = Some h <-> (i ∉ l) /\ m !! i = Some h.
Proof.
  induction l as [|x l IH]; cbn [foldr]; [by rewrite elem_of_nil; intuition|].
  rewrite not_elem_of_cons. destruct (decide (i = x)) as [->|Hx]; [rewrite lookup_delete_eq; intuition congruence|].
  rewrite lookup_delete_ne by done. tauto.
Qed.

Lemma inv_fini s : subs_inv s -> subs_inv (fini_subs s).
Proof.
  intros Hinv. split; cbn [fini_subs sub_lists sub_serial done_list pending_sub sub_threads sub_handles sub_calls]; try apply Hinv.
  - intros i Hi. by apply elem_of_nil in Hi.
  - intros i h [_ Hh]%lookup_delete_all. by apply (si_handles _ Hinv).
  - intros i Hi Hu. destruct (si_alive _ Hinv i Hi Hu) as [h Hh]. exists h. apply lookup_delete_all.
    split; [|done]. intros [_ Hf]%(si_done _ Hinv). change (unfinished s i = true) in Hu. congruence.
Qed.

(** The handler's steps. *)
Lemma finish_fields i data h s l : unlink_sub i (bucket s i) = Some l ->
  let s' := notify_finish i data h s in
  sub_serial s' = sub_serial s /\ sub_lists s' = <[(i mod SUB_HASH_SIZE)%nat := l]> (sub_lists s) /\
  done_list s' = i :: done_list s /\ pending_sub s' = pending_sub s - 1 /\
  sub_handles s' = <[i := set_status DSPACES_SUB_DONE h]> (sub_handles s) /\ sub_calls s' = sub_calls s.
Proof. intros E. unfold notify_finish, dspaces_move_sub. rewrite E. done. Qed.

Lemma finish_threads i data h s : sub_threads (notify_finish i data h s) = <[i := P_finished data]> (sub_threads s).
Proof. unfold notify_finish, dspaces_move_sub. by destruct (unlink_sub _ _). Qed.

(** The lists without a finished subscription. *)
Lemma finish_lists s s' i l :
  subs_inv s -> (i < sub_serial s)%nat -> unfinished s i = true -> unfinished s' i = false ->
  (forall j, j <> i -> unfinished s' j = unfinished s j) ->
  l = List.filter (in_bucket s' (i mod SUB_HASH_SIZE)) (seq 0 (sub_serial s)) ->
  <[(i mod SUB_HASH_SIZE)%nat := l]> (sub_lists s)
    = map (fun b => List.filter (in_bucket s' b) (seq 0 (sub_serial s))) (seq 0 SUB_HASH_SIZE).
Proof.
  intros Hinv Hi Hu Hu' Hne ->. apply list_eq. intros b. rewrite (si_lists _ Hinv), list_lookup_fmap.
  assert (Hb : (i mod SUB_HASH_SIZE < SUB_HASH_SIZE)%nat) by (by apply Nat.mod_upper_bound).
  destruct (decide (b = (i mod SUB_HASH_SIZE)%nat)) as [->|Hnb].
  - rewrite list_lookup_insert_eq by (by rewrite length_map, length_seq). by rewrite lookup_seq_lt.
  - rewrite list_lookup_insert_ne, list_lookup_fmap by done.
    destruct (seq 0 SUB_HASH_SIZE !! b) as [x|] eqn:Ex; [|done]. cbn [fmap option_fmap option_map]. f_equal.
    apply lookup_seq in Ex as [-> _]. apply keep_ext. intros j _. unfold in_bucket.
    destruct (decide (j = i)) as [->|Hj]; [|by rewrite Hne].
    destruct (Nat.eqb_spec (i mod SUB_HASH_SIZE) (0 + b)); [simpl in *; congruence|]. by rewrite !andb_false_r.
Qed.

Lemma inv_finish s i h data :
  subs_inv s -> sub_threads s !! i = Some (P_called data) -> sub_handles s !! i = Some h ->
  subs_inv (notify_finish i data h s).
Proof.
  intros Hinv Ht Hh. destruct (si_handles _ Hinv i h Hh) as [Hi Hpc]. rewrite Ht in Hpc.
  assert (Hu : unfinished s i = true) by (unfold unfinished; by rewrite Ht).
  pose proof (finish_threads i data h s) as Ht'. pose proof (finish_fields i data h s) as Hf.
  set (s' := notify_finish i data h s) in *. clearbody s'.
  assert (Hu' : unfinished s' i = false) by (unfold unfinished; by rewrite Ht', lookup_insert_eq).
  assert (Hne : forall j, j <> i -> unfinished s' j = unfinished s j).
  { intros j Hj. apply unfinished_keep. by rewrite Ht', lookup_insert_ne. }
  assert (Hin : i ∈ seq 0 (sub_serial s)) by (apply elem_of_seq; lia).
  assert (Hk : unlink_sub i (bucket s i) = Some (List.filter (in_bucket s' (i mod SUB_HASH_SIZE)) (seq 0 (sub_serial s)))).
  { rewrite bucket_eq by done. apply keep_unlink; [apply NoDup_seq|..|done]; unfold in_bucket.
    - by rewrite Hu, Nat.eqb_refl.
    - by rewrite Hu'.
    - intros j Hj. by rewrite Hne. }
  destruct (Hf _ Hk) as (Es & El & Ed & Ep & Eh & Ec). split; rewrite ?Es, ?El, ?Ed, ?Ep, ?Eh, ?Ec.
  - by apply (finish_lists s s' i).
  - rewrite (si_pending _ Hinv). pose proof (keep_unlink (unfinished s) (unfinished s') i (seq 0 (sub_serial s)) (NoDup_seq _ _) Hu Hu' Hne Hin) as H.
    apply unlink_length in H. rewrite H. lia.
  - intros j [->|Hj]%elem_of_cons; [done|]. destruct (si_done _ Hinv j Hj) as [Hjs Hju]. split; [done|].
    destruct (decide (j = i)) as [->|Hji]; [done|]. by rewrite Hne.
  - intros j. rewrite Ht'. destruct (decide (j = i)) as [->|Hj]; [done|]. rewrite lookup_insert_ne by done. apply (si_threads _ Hinv).
  - intros j x. rewrite Ht'. destruct (decide (j = i)) as [->|Hj].
    + rewrite !lookup_insert_eq. intros [= <-]. split; [done|]. destruct data; cbn [pc_ok set_status sb_status sb_buf sb_result] in *;
        unfold cancelled in *; intuition.
    + rewrite !lookup_insert_ne by done. apply (si_handles _ Hinv).
  - intros j. destruct (decide (j = i)) as [->|Hj]; [congruence|]. rewrite Hne, lookup_insert_ne by done. apply (si_alive _ Hinv).
  - intros j d. rewrite (si_calls _ Hinv), Ht'. destruct (decide (j = i)) as [->|Hj]; [by rewrite lookup_insert_eq, Ht|].
    by rewrite lookup_insert_ne.
  - apply (si_once _ Hinv).
Qed.

Lemma unfinished_at s i p : sub_threads s !! i = Some p ->
  unfinished s i = match p with P_finished _ | P_over _ => false | _ => true end.
Proof. unfold unfinished. by intros ->. Qed.

Ltac quiet_step Hinv p h :=
  eapply (inv_quiet _ _ _ p h Hinv); try done;
  lazymatch goal with
  | |- sub_handles _ = _ => by (symmetry; apply insert_id)
  | |- unfinished _ _ = unfinished _ _ =>
      by (erewrite !unfinished_at; [|eassumption|cbn [with_thread with_handle with_call sub_threads]; apply lookup_insert_eq])
  | |- given _ = given _ => match goal with H : sub_threads _ !! _ = _ |- _ => by rewrite H end
  | |- _ => idtac
  end.

Lemma inv_callback s i h data r :
  subs_inv s -> sub_threads s !! i = Some (P_call data) -> sub_handles s !! i = Some h ->
  subs_inv (notify_callback i data r h s).
Proof.
  intros Hinv Ht Hh. destruct (si_handles _ Hinv i h Hh) as [Hi Hpc]. rewrite Ht in Hpc. destruct data as [d|].
  - assert (Hno : forall x, (i, x) ∉ sub_calls s) by (intros x Hx; apply (si_calls _ Hinv) in Hx; by rewrite Ht in Hx).
    apply (inv_local s _ i (mkSub (sb_odsc h) (sb_status h) (Some r) (sb_buf h))); try done;
      cbn [notify_callback with_thread with_handle with_call sub_threads sub_calls].
    + intros j Hj. by rewrite lookup_insert_ne.
    + by rewrite (unfinished_at s i _ Ht), (unfinished_at _ i (P_called (Some d))) by apply lookup_insert_eq.
    + rewrite lookup_insert_eq. cbn [pc_ok sb_status sb_buf sb_result] in *. destruct Hpc. eauto.
    + intros x. rewrite lookup_insert_eq. cbn [given]. rewrite elem_of_app, list_elem_of_singleton. split.
      * by intros [[]%Hno|[= ->]].
      * intros [= ->]. by right.
    + intros j x Hj. rewrite elem_of_app, list_elem_of_singleton. split; [by intros [?|[= ? _]]|by left].
    + rewrite fmap_app. apply NoDup_app. split; [apply (si_once _ Hinv)|]. split; [|apply NoDup_singleton].
      intros j Hj Hji%list_elem_of_singleton. cbn [fst] in Hji. subst j. apply list_elem_of_fmap in Hj as ([j x] & -> & Hx). by apply Hno in Hx.
  - quiet_step Hinv (Some (P_called None)) h.
Qed.

Lemma inv_step `{E : Env} `{CE : ClientEnv} s s' : step s s' -> subs_inv s -> subs_inv s'.
Proof.
  intros Hs Hinv. destruct Hs as [s odsc sent _|s i s' _ Hc|s _ _|s i fuel h _ Ht _ Hh|s i _ Ht _|s i h Ht Hh
    |s i h fetch tab data Ht Hh _|s i h data _ Ht Hh|s i h data r Ht Hh|s i h data _ Ht Hh|s i h data Ht Hh];
    try (destruct (si_handles _ Hinv i h Hh) as [Hi Hpc]; rewrite Ht in Hpc).
  - by apply inv_sub.
  - by eapply inv_cancel.
  - by apply inv_fini.
  - unfold notify_begin. cbn [pc_ok] in Hpc. unfold waiting, cancelled in Hpc.
    destruct (sb_status h) eqn:Es; try (exfalso; intuition congruence).
    + quiet_step Hinv (Some P_found) h. cbn [pc_ok]. unfold waiting, cancelled. intuition congruence.
    + quiet_step Hinv (Some (P_have None)) h. cbn [pc_ok]. unfold cancelled. intuition congruence.
  - by destruct Hinv.
  - quiet_step Hinv (Some P_fetching) (set_status DSPACES_SUB_TRANSFER h).
    cbn [pc_ok set_status sb_status sb_result] in *. unfold waiting, cancelled in *. intuition.
  - quiet_step Hinv (Some (P_have (Some data))) h.
  - unfold notify_deliver. destruct (sb_status h) eqn:Es; destruct data as [d|]; cbn [pc_ok] in Hpc; unfold cancelled in Hpc;
      try (exfalso; intuition congruence).
    + quiet_step Hinv (Some (P_call (Some d))) (mkSub (sb_odsc h) DSPACES_SUB_RUNNING (sb_result h) (Some d)).
    + quiet_step Hinv (Some (P_call None)) h. cbn [pc_ok]. unfold cancelled. intuition.
    + quiet_step Hinv (Some (P_call None)) h.
  - by apply inv_callback.
  - by apply inv_finish.
  - quiet_step Hinv (Some (P_over data)) h.
Qed.

Lemma reachable_inv `{E : Env} `{CE : ClientEnv} s : reachable s -> subs_inv s.
Proof.
  intros Hr. unfold reachable in Hr. remember sub_init as s0 eqn:E0.
  assert (subs_inv s0) as Hi by (subst; apply subs_inv_init). clear E0.
  induction Hr as [|x y z Hxy _ IH]; [done|]. by apply IH, (inv_step x).
Qed.

(** ** The handler run alone *)

Ltac sub_fields :=
  cbn [with_thread with_handle with_call with_held sub_serial sub_lists done_list pending_sub sub_handles sub_threads
    sub_held sub_calls].

Definition delivered (data : option (list Z)) (h : sub_handle) : option (list Z) :=
  match sb_status h with DSPACES_SUB_TRANSFER => data | _ => None end.

Lemma deliver_fields i data h s :
  let s' := notify_deliver i data h s in
  sub_threads s' = <[i := P_call (delivered data h)]> (sub_threads s) /\
  (sub_handles s !! i = Some h ->
   exists h', sub_handles s' = <[i := h']> (sub_handles s) /\ sb_result h' = sb_result h /\
     (sb_status h = DSPACES_SUB_TRANSFER -> sb_buf h' = data)) /\
  sub_lists s' = sub_lists s /\ done_list s' = done_list s /\ pending_sub s' = pending_sub s /\
  sub_calls s' = sub_calls s /\ sub_held s' = sub_held s /\ sub_serial s' = sub_serial s.
Proof.
  unfold notify_deliver, delivered. destruct (sb_status h) eqn:Es; sub_fields; repeat split;
    intros Hh; [exists h|exists h|exists h|eexists; split; [reflexivity|by split]|exists h|exists h|exists h];
    (split; [symmetry; by apply insert_id|done]).
Qed.

Section Alone.
Context `{E : Env} `{CE : ClientEnv}.

Lemma notify_rest_spec s i data h l r :
  sub_held s = false -> sub_threads s !! i = Some (P_have data) -> sub_handles s !! i = Some h ->
  unlink_sub i (bucket s i) = Some l ->
  exists s' h', notify_rest i data r s = Some s' /\ rtc step s s' /\
    sub_handles s' !! i = Some h' /\ sb_status h' = DSPACES_SUB_DONE /\
    sb_result h' = match delivered data h with Some _ => Some r | None => sb_result h end /\
    sub_threads s' !! i = Some (P_over (delivered data h)) /\
    sub_calls s' = sub_calls s ++ (match delivered data h with Some d => [(i, d)] | None => [] end) /\
    pending_sub s' = pending_sub s - 1 /\ done_list s' = i :: done_list s /\ sub_held s' = false.
Proof.
  intros Hheld Ht Hh Hl. unfold notify_rest. rewrite Hh. cbn [mbind option_bind].
  pose proof (step_deliver s i h data Hheld Ht Hh) as H1.
  destruct (deliver_fields i data h s) as (T1 & D1 & L1 & N1 & P1 & C1 & F1 & _).
  destruct (D1 Hh) as (h1 & Hh1 & R1 & _). clear D1. set (s1 := notify_deliver i data h s) in *. clearbody s1.
  set (d := delivered data h) in *. rewrite T1, lookup_insert_eq. cbn [mbind option_bind].
  assert (T1i : sub_threads s1 !! i = Some (P_call d)) by (by rewrite T1, lookup_insert_eq).
  assert (Hh1i : sub_handles s1 !! i = Some h1) by (by rewrite Hh1, lookup_insert_eq). rewrite Hh1i. cbn [mbind option_bind].
  pose proof (step_callback s1 i h1 d r T1i Hh1i) as H2. set (s2 := notify_callback i d r h1 s1) in *.
  assert (exists h2, sub_handles s2 !! i = Some h2 /\ sb_result h2 = match d with Some _ => Some r | None => sb_result h end) as (h2 & Hh2 & R2).
  { unfold s2, notify_callback. destruct d; sub_fields; [rewrite lookup_insert_eq; by eexists|]. eexists. split; [done|]. done. }
  assert (B2 : bucket s2 i = bucket s i).
  { unfold bucket, s2, notify_callback. by destruct d; sub_fields; rewrite L1. }
  assert (T2 : sub_threads s2 !! i = Some (P_called d)) by (unfold s2, notify_callback; sub_fields; apply lookup_insert_eq).
  assert (F2 : sub_held s2 = false) by (unfold s2, notify_callback; destruct d; sub_fields; congruence).
  assert (O2 : done_list s2 = done_list s /\ pending_sub s2 = pending_sub s /\
    sub_calls s2 = sub_calls s ++ match d with Some x => [(i, x)] | None => [] end).
  { unfold s2, notify_callback. destruct d; sub_fields; rewrite ?N1, ?P1, ?C1, ?app_nil_r; done. }
  destruct O2 as (N2 & P2 & C2). rewrite Hh2. cbn [mbind option_bind].
  pose proof (step_finish s2 i h2 d F2 T2 Hh2) as H3. rewrite <- B2 in Hl.
  destruct (finish_fields i d h2 s2 l Hl) as (_ & _ & N3 & P3 & D3 & C3). pose proof (finish_threads i d h2 s2) as T3.
  assert (F3 : sub_held (notify_finish i d h2 s2) = false) by (unfold notify_finish, dspaces_move_sub; rewrite Hl; sub_fields; done).
  set (s3 := notify_finish i d h2 s2) in *. clearbody s3 s2.
  assert (Hh3 : sub_handles s3 !! i = Some (set_status DSPACES_SUB_DONE h2)) by (by rewrite D3, lookup_insert_eq).
  rewrite Hh3. cbn [mbind option_bind]. eexists _, _. split; [reflexivity|]. split.
  { eapply rtc_l; [exact H1|]. eapply rtc_l; [exact H2|]. eapply rtc_l; [exact H3|]. eapply rtc_once, step_release; [|exact Hh3].
    by rewrite T3, lookup_insert_eq. }
  sub_fields. split; [exact Hh3|]. split; [done|]. split; [done|]. split; [apply lookup_insert_eq|].
  rewrite C3, C2, P3, P2, N3, N2. done.
Qed.

(** The bucket of an unfinished subscription holds it. *)
Lemma bucket_unlink s i : subs_inv s -> (i < sub_serial s)%nat -> unfinished s i = true ->
  exists l, unlink_sub i (bucket s i) = Some l.
Proof.
  intros Hinv Hi Hu. rewrite bucket_eq by done. eexists.
  apply (keep_unlink _ (fun j => in_bucket s (i mod SUB_HASH_SIZE) j && negb (j =? i)%nat)).
  - apply NoDup_seq.
  - unfold in_bucket. by rewrite Hu, Nat.eqb_refl.
  - by rewrite Nat.eqb_refl, andb_false_r.
  - intros j Hj. destruct (Nat.eqb_spec j i); [done|]. by rewrite andb_true_r.
  - apply elem_of_seq. lia.
Qed.

Lemma get_sub_found l i fuel : dspaces_get_sub fuel l i = Some (Some i) -> head l = Some i.
Proof.
  induction fuel as [|f IH]; cbn [dspaces_get_sub]; [done|]. destruct l as [|x l]; [done|].
  destruct (Nat.eqb_spec x i) as [->|]; [done|exact IH].
Qed.

Lemma get_sub_head l i : head l = Some i -> forall fuel, (0 < fuel)%nat -> dspaces_get_sub fuel l i = Some (Some i).
Proof. destruct l as [|x l]; [done|]. intros [= ->] [|f]; [lia|]. cbn [dspaces_get_sub]. by rewrite Nat.eqb_refl. Qed.

Lemma get_sub_spins l x i : head l = Some x -> x <> i -> forall fuel, dspaces_get_sub fuel l i = None.
Proof.
  destruct l as [|y l]; [done|]. intros [= ->] Hx fuel. induction fuel as [|f IH]; cbn [dspaces_get_sub]; [done|].
  destruct (Nat.eqb_spec x i); [done|exact IH].
Qed.

(** A notification handled without interruption ends the subscription: the
    callback gets the fetched data once and its result is kept, unless the
    subscription was cancelled before, in which case there is no callback and
    [dspaces_check_sub] reports it done, with a result that was never set. *)
Theorem notify_rpc_correct s i h fetch tab data r :
  reachable s -> sub_held s = false -> sub_threads s !! i = Some P_sent -> sub_handles s !! i = Some h ->
  head (bucket s i) = Some i -> notify_data fetch (sb_odsc h) tab = Some data ->
  exists s', notify_rpc i data r s = Some s' /\ rtc step s s' /\
    pending_sub s' = pending_sub s - 1 /\ done_list s' = i :: done_list s /\
    (sb_status h = DSPACES_SUB_WAIT /\ sub_calls s' = sub_calls s ++ [(i, data)] /\
       dspaces_check_sub s' i = Some (DSPACES_SUB_DONE, Some (Some r)) \/
     sb_status h = DSPACES_SUB_CANCELLED /\ sub_calls s' = sub_calls s /\
       dspaces_check_sub s' i = Some (DSPACES_SUB_DONE, Some None)).
Proof.
  intros Hr Hheld Ht Hh Hhd Hd. pose proof (reachable_inv s Hr) as Hinv.
  destruct (si_handles _ Hinv i h Hh) as [Hi Hpc]. rewrite Ht in Hpc.
  destruct (bucket_unlink s i Hinv Hi) as [l Hl]; [by rewrite (unfinished_at s i _ Ht)|].
  pose proof (step_begin s i 1 h Hheld Ht (get_sub_head _ _ Hhd 1 ltac:(lia)) Hh) as H1.
  unfold notify_rpc. rewrite Hh. cbn [mbind option_bind]. destruct Hpc as [(Hst & Hres & _)|[Hst Hres]]; unfold notify_begin in *;
    rewrite Hst in *; sub_fields; rewrite lookup_insert_eq.
  - set (s1 := with_thread i P_found s) in *.
    pose proof (step_transfer s1 i h (lookup_insert_eq _ _ _) Hh) as H2. set (s2 := notify_transfer i h s1) in *.
    assert (Hh2 : sub_handles s2 !! i = Some (set_status DSPACES_SUB_TRANSFER h)) by apply lookup_insert_eq.
    assert (H3 : step s2 (with_thread i (P_have (Some data)) s2)) by (eapply step_fetch; [apply lookup_insert_eq|exact Hh2|exact Hd]).
    destruct (notify_rest_spec (with_thread i (P_have (Some data)) s2) i (Some data) (set_status DSPACES_SUB_TRANSFER h) l r)
      as (s' & h' & E1 & E2 & E3 & E4 & E5 & _ & E6 & E7 & E8 & _); [done|apply lookup_insert_eq|done|done|].
    exists s'. split; [exact E1|]. split; [by do 3 (eapply rtc_l; [eassumption|])|]. split; [done|]. split; [done|].
    left. split; [done|]. split; [done|]. unfold dspaces_check_sub. rewrite E3. cbn [mbind option_bind]. by rewrite E4, E5.
  - destruct (notify_rest_spec (with_thread i (P_have None) s) i None h l r)
      as (s' & h' & E1 & E2 & E3 & E4 & E5 & _ & E6 & E7 & E8 & _); [done|apply lookup_insert_eq|done|done|].
    exists s'. split; [exact E1|]. split; [by eapply rtc_l|]. split; [done|]. split; [done|].
    unfold delivered in *. rewrite Hst, ?app_nil_r in *.
    right. split; [done|]. split; [done|]. unfold dspaces_check_sub. rewrite E3. cbn [mbind option_bind]. by rewrite E4, E5, Hres.
Qed.

(** C7: in every interleaving the callback of a subscription is made at most
    once, with the data kept in [req->buf]; [pending_sub] counts the
    subscriptions whose handler has not ended, and each of them still has its
    handle. *)
Theorem callback_once s :
  reachable s ->
  NoDup (sub_calls s).*1 /\
  (forall i d h, (i, d) ∈ sub_calls s -> sub_handles s !! i = Some h ->
     sb_buf h = Some d /\ is_Some (sb_result h) /\
     (sb_status h = DSPACES_SUB_RUNNING \/ sb_status h = DSPACES_SUB_DONE)) /\
  pending_sub s = Z.of_nat (length (List.filter (unfinished s) (seq 0 (sub_serial s)))) /\
  (forall i, (i < sub_serial s)%nat -> unfinished s i = true -> is_Some (sub_handles s !! i)).
Proof.
  intros Hinv%reachable_inv. split; [apply (si_once _ Hinv)|]. split; [|split; [apply (si_pending _ Hinv)|apply (si_alive _ Hinv)]].
  intros i d h Hc Hh. apply (si_calls _ Hinv) in Hc. destruct (si_handles _ Hinv i h Hh) as [_ Hpc].
  destruct (sub_threads s !! i) as [[| | |[?|]|[?|]|[?|]|[?|]|[?|]]|]; cbn [given] in Hc; try done; injection Hc as ->;
    cbn [pc_ok] in Hpc; intuition.
Qed.

(** A subscription whose callback will not be made. *)
Definition doomed (s : subs) (i : nat) : Prop :=
  match sub_threads s !! i with
  | None | Some (P_sent | P_fetching | P_have _) => exists h, sub_handles s !! i = Some h /\ sb_status h = DSPACES_SUB_CANCELLED
  | Some (P_call None | P_called None | P_finished None | P_over None) => True
  | _ => False
  end.

Lemma doomed_other s s' i : sub_threads s' !! i = sub_threads s !! i -> sub_handles s' !! i = sub_handles s !! i ->
  doomed s i -> doomed s' i.
Proof. unfold doomed. by intros -> ->. Qed.

Lemma cancel_handle s i s' j h : dspaces_cancel_sub s i = Some s' -> sub_handles s !! j = Some h ->
  sb_status h = DSPACES_SUB_CANCELLED -> sub_handles s' !! j = Some h.
Proof.
  unfold dspaces_cancel_sub. destruct (sub_handles s !! i) as [h0|] eqn:E0; [|done]. cbn [mbind option_bind].
  intros [= <-] Hh Hst. destruct (decide (j = i)) as [->|Hj].
  - rewrite E0 in Hh. injection Hh as ->. by rewrite Hst.
  - destruct (sb_status h0); sub_fields; by rewrite ?lookup_insert_ne.
Qed.

Lemma cancel_threads s i s' : dspaces_cancel_sub s i = Some s' -> sub_threads s' = sub_threads s.
Proof.
  unfold dspaces_cancel_sub. destruct (sub_handles s !! i) as [h0|]; [|done]. cbn [mbind option_bind]. intros [= <-].
  by destruct (sb_status h0).
Qed.

Lemma cancel_serial s i s' : dspaces_cancel_sub s i = Some s' -> sub_serial s' = sub_serial s.
Proof.
  unfold dspaces_cancel_sub. destruct (sub_handles s !! i) as [h0|]; [|done]. cbn [mbind option_bind]. intros [= <-].
  by destruct (sb_status h0).
Qed.

Lemma doomed_step s s' i : subs_inv s -> (i < sub_serial s)%nat -> step s s' -> doomed s i -> doomed s' i.
Proof.
  intros Hinv Hi Hs. destruct Hs as [s odsc sent _|s j s' _ Hc|s _ _|s j fuel h _ Ht _ Hh|s j _ Ht _|s j h Ht Hh
    |s j h fetch tab data Ht Hh _|s j h data _ Ht Hh|s j h data r Ht Hh|s j h data _ Ht Hh|s j h data Ht Hh].
  - apply doomed_other; unfold dspaces_sub; cbn [fst sub_threads sub_handles]; [destruct sent|]; rewrite ?lookup_insert_ne; (done || lia).
  - unfold doomed. rewrite (cancel_threads _ _ _ Hc). destruct (sub_threads s !! i) as [[| | |[?|]|[?|]|[?|]|[?|]|[?|]]|]; try done;
      intros (h & Hh & Hst); exists h; split; try done; by eapply cancel_handle.
  - unfold doomed. sub_fields. cbn [fini_subs sub_threads sub_handles].
    assert (Ha : unfinished s i = true -> forall h, sub_handles s !! i = Some h -> foldr delete (sub_handles s) (done_list s) !! i = Some h).
    { intros Hu h Hh. apply lookup_delete_all. split; [|done]. intros [_ Hf]%(si_done _ Hinv). congruence. }
    unfold unfinished in Ha. destruct (sub_threads s !! i) as [[| | |[?|]|[?|]|[?|]|[?|]|[?|]]|]; try done;
      intros (h & Hh & Hst); exists h; split; try done; by apply Ha.
  - destruct (decide (j = i)) as [->|Hj].
    + unfold doomed, notify_begin. rewrite Ht. intros (h' & Hh' & Hst). rewrite Hh in Hh'. injection Hh' as <-. rewrite Hst.
      sub_fields. rewrite lookup_insert_eq. eauto.
    + apply doomed_other; unfold notify_begin; destruct (sb_status h); sub_fields; by rewrite ?lookup_insert_ne.
  - done.
  - destruct (decide (j = i)) as [->|Hj]; [unfold doomed; by rewrite Ht|].
    apply doomed_other; unfold notify_transfer; sub_fields; by rewrite ?lookup_insert_ne.
  - destruct (decide (j = i)) as [->|Hj].
    + unfold doomed. rewrite Ht. sub_fields. by rewrite lookup_insert_eq.
    + apply doomed_other; sub_fields; by rewrite ?lookup_insert_ne.
  - destruct (decide (j = i)) as [->|Hj].
    + unfold doomed, notify_deliver. rewrite Ht. intros (h' & Hh' & Hst). rewrite Hh in Hh'. injection Hh' as <-. rewrite Hst.
      sub_fields. by rewrite lookup_insert_eq.
    + apply doomed_other; unfold notify_deliver; destruct (sb_status h); sub_fields; by rewrite ?lookup_insert_ne.
  - destruct (decide (j = i)) as [->|Hj].
    + unfold doomed, notify_callback. rewrite Ht. destruct data; [done|]. sub_fields. by rewrite lookup_insert_eq.
    + apply doomed_other; unfold notify_callback; destruct data; sub_fields; by rewrite ?lookup_insert_ne.
  - destruct (decide (j = i)) as [->|Hj].
    + unfold doomed. rewrite Ht, finish_threads, lookup_insert_eq. by destruct data.
    + apply doomed_other; unfold notify_finish, dspaces_move_sub; destruct (unlink_sub _ _); sub_fields; by rewrite ?lookup_insert_ne.
  - destruct (decide (j = i)) as [->|Hj].
    + unfold doomed. rewrite Ht. sub_fields. rewrite lookup_insert_eq. by destruct data.
    + apply doomed_other; sub_fields; by rewrite ?lookup_insert_ne.
Qed.

Lemma rtc_inv s s' : subs_inv s -> rtc step s s' -> subs_inv s'.
Proof. intros Hinv Hr. induction Hr as [|x y z Hxy _ IH]; [done|]. by apply IH, (inv_step x). Qed.

Lemma step_serial s s' : step s s' -> (sub_serial s <= sub_serial s')%nat.
Proof.
  intros Hs. destruct Hs as [|s i s' _ Hc| |s i ? h| | | |s i h data|s i h data r|s i h data|]; sub_fields; try done.
  - cbn [dspaces_sub fst sub_serial]. lia.
  - by rewrite (cancel_serial _ _ _ Hc).
  - unfold notify_begin. by destruct (sb_status h).
  - unfold notify_deliver. by destruct (sb_status h).
  - unfold notify_callback. by destruct data.
  - unfold notify_finish, dspaces_move_sub. by destruct (unlink_sub _ _).
Qed.

Lemma doomed_for_ever s s' i : subs_inv s -> (i < sub_serial s)%nat -> rtc step s s' -> doomed s i -> doomed s' i.
Proof.
  intros Hinv Hi Hr. induction Hr as [|x y z Hxy _ IH]; [done|]. intros Hd. apply IH.
  - by apply (inv_step x).
  - pose proof (step_serial _ _ Hxy). lia.
  - by apply (doomed_step x).
Qed.

(** C10: cancelling a subscription before its callback runs is final in every
    interleaving, unless its handler stands between the two writes of its
    first part: no callback is made for it at any later time. *)
Theorem cancel_effective s i h s1 s2 d :
  reachable s -> sub_held s = false -> sub_handles s !! i = Some h ->
  sb_status h = DSPACES_SUB_WAIT \/ sb_status h = DSPACES_SUB_TRANSFER ->
  sub_threads s !! i <> Some P_found ->
  dspaces_cancel_sub s i = Some s1 -> rtc step s1 s2 -> (i, d) ∉ sub_calls s2.
Proof.
  intros Hr Hheld Hh Hst Hnf Hc H12. pose proof (reachable_inv s Hr) as Hinv.
  destruct (si_handles _ Hinv i h Hh) as [Hi Hpc]. pose proof (inv_cancel _ _ _ Hinv Hc) as Hinv1.
  pose proof (step_serial _ _ (step_cancel s i s1 Hheld Hc)) as Hser.
  assert (Hd : doomed s1 i).
  { unfold doomed. rewrite (cancel_threads _ _ _ Hc). unfold dspaces_cancel_sub in Hc. rewrite Hh in Hc. cbn [mbind option_bind] in Hc.
    assert (Hh1 : sub_handles s1 !! i = Some (set_status DSPACES_SUB_CANCELLED h)).
    { destruct Hst as [Hst|Hst]; rewrite Hst in Hc; injection Hc as <-; apply lookup_insert_eq. }
    destruct (sub_threads s !! i) as [[| | |[?|]|[?|]|[?|]|[?|]|[?|]]|]; cbn [pc_ok] in Hpc; unfold cancelled in Hpc; try done;
      try (intuition congruence); (eexists; split; [exact Hh1|done]). }
  apply (doomed_for_ever s1 s2) in Hd; [|done|lia|done]. pose proof (rtc_inv _ _ Hinv1 H12) as Hinv2.
  intros Hin%(si_calls _ Hinv2). unfold doomed in Hd.
  by destruct (sub_threads s2 !! i) as [[| | |[?|]|[?|]|[?|]|[?|]|[?|]]|].
Qed.

(** A cancellation that falls between the handler's check of the status
    and its unlocked write of [DSPACES_SUB_TRANSFER] is lost: it returns with
    the status cancelled, and the callback can still be made. *)
Theorem cancel_lost s i h fetch tab data r :
  reachable s -> sub_held s = false -> sub_threads s !! i = Some P_found -> sub_handles s !! i = Some h ->
  sb_status h = DSPACES_SUB_WAIT -> notify_data fetch (sb_odsc h) tab = Some data ->
  exists s1 s2, dspaces_cancel_sub s i = Some s1 /\ dspaces_check_sub s1 i = Some (DSPACES_SUB_CANCELLED, None) /\
    rtc step s1 s2 /\ (i, data) ∈ sub_calls s2 /\ dspaces_check_sub s2 i = Some (DSPACES_SUB_DONE, Some (Some r)).
Proof.
  intros Hr Hheld Ht Hh Hst Hd. pose proof (reachable_inv s Hr) as Hinv.
  destruct (si_handles _ Hinv i h Hh) as [Hi Hpc].
  destruct (bucket_unlink s i Hinv Hi) as [l Hl]; [by rewrite (unfinished_at s i _ Ht)|].
  set (h1 := set_status DSPACES_SUB_CANCELLED h). set (s1 := with_handle i h1 s). exists s1.
  assert (Hh1 : sub_handles s1 !! i = Some h1) by apply lookup_insert_eq.
  pose proof (step_transfer s1 i h1 Ht Hh1) as H2. set (s2 := notify_transfer i h1 s1) in *.
  assert (Hh2 : sub_handles s2 !! i = Some (set_status DSPACES_SUB_TRANSFER h1)) by apply lookup_insert_eq.
  assert (H3 : step s2 (with_thread i (P_have (Some data)) s2)) by (eapply step_fetch; [apply lookup_insert_eq|exact Hh2|exact Hd]).
  destruct (notify_rest_spec (with_thread i (P_have (Some data)) s2) i (Some data) (set_status DSPACES_SUB_TRANSFER h1) l r)
    as (s' & h' & E1 & E2 & E3 & E4 & E5 & _ & E6 & _); [done|apply lookup_insert_eq|done|done|].
  exists s'. split; [|split; [|split; [|split]]].
  - unfold dspaces_cancel_sub. rewrite Hh. cbn [mbind option_bind]. by rewrite Hst.
  - unfold dspaces_check_sub. by rewrite Hh1.
  - by do 2 (eapply rtc_l; [eassumption|]).
  - rewrite E6. apply elem_of_app. right. by left.
  - unfold dspaces_check_sub. rewrite E3. cbn [mbind option_bind]. by rewrite E4, E5.
Qed.

Lemma held_for_ever s s' : sub_held s = true -> rtc step s s' -> sub_held s' = true /\ pending_sub s' = pending_sub s.
Proof.
  intros Hh Hr. induction Hr as [|x y z Hxy _ IH]; [done|].
  assert (H : sub_held y = true /\ pending_sub y = pending_sub x) by
    (destruct Hxy as [| | | | | | | |? ? ? data r| |]; try congruence; try (by split); by destruct data).
  destruct H as [Hy Hp]. rewrite <- Hp. by apply IH.
Qed.

(** The lookup of a notification returns exactly when no older unfinished
    subscription shares its list; otherwise it loops for ever with
    [sub_mutex] held, and from then on no subscription ends, so
    [dspaces_fini] never gets past its wait. *)
Theorem colliding_notification_hangs s i :
  reachable s -> sub_held s = false -> sub_threads s !! i = Some P_sent ->
  ((exists fuel, dspaces_get_sub fuel (bucket s i) i = Some (Some i)) <->
     forall j, (j < i)%nat -> (j mod SUB_HASH_SIZE = i mod SUB_HASH_SIZE)%nat -> unfinished s j = false) /\
  (forall j, (j < i)%nat -> (j mod SUB_HASH_SIZE = i mod SUB_HASH_SIZE)%nat -> unfinished s j = true ->
     step s (with_held s) /\ forall s', rtc step (with_held s) s' -> sub_held s' = true /\ 0 < pending_sub s').
Proof.
  intros Hr Hheld Ht. pose proof (reachable_inv s Hr) as Hinv.
  assert (Hi : (i < sub_serial s)%nat) by (apply (si_threads _ Hinv); by rewrite Ht).
  assert (Hb : in_bucket s (i mod SUB_HASH_SIZE) i = true) by (unfold in_bucket; by rewrite (unfinished_at s i _ Ht), Nat.eqb_refl).
  pose proof (keep_head (in_bucket s (i mod SUB_HASH_SIZE)) (sub_serial s) i Hi Hb) as Hhd. rewrite <- bucket_eq in Hhd by done.
  assert (Hj : forall j, in_bucket s (i mod SUB_HASH_SIZE) j = false <->
    ((j mod SUB_HASH_SIZE = i mod SUB_HASH_SIZE)%nat -> unfinished s j = false)).
  { intros j. unfold in_bucket. destruct (Nat.eqb_spec (j mod SUB_HASH_SIZE) (i mod SUB_HASH_SIZE)).
    - rewrite andb_true_r. tauto.
    - rewrite andb_false_r. tauto. }
  split.
  - transitivity (head (bucket s i) = Some i).
    + split; [by intros [fuel H%get_sub_found]|]. intros H. exists 1%nat. apply get_sub_head; [done|lia].
    + rewrite Hhd. split; intros H j Hlt; [apply Hj; by apply H|apply Hj; by apply H].
  - intros j Hlt Hm Hu. split.
    + apply step_spin with i; [done|done|]. destruct (head (bucket s i)) as [x|] eqn:Ex.
      * destruct (decide (x = i)) as [->|Hx]; [|by apply get_sub_spins with x].
        pose proof (proj1 Hhd eq_refl j Hlt) as H. apply Hj in H; [congruence|done].
      * destruct (bucket_unlink s i Hinv Hi) as [l Hl]; [by rewrite (unfinished_at s i _ Ht)|]. by destruct (bucket s i).
    + intros s' Hs'. destruct (held_for_ever (with_held s) s' eq_refl Hs') as [H1 H2]. split; [done|]. rewrite H2. sub_fields.
      rewrite (si_pending _ Hinv). assert (Hin : In i (List.filter (unfinished s) (seq 0 (sub_serial s)))).
      { apply filter_In. split; [apply in_seq; lia|]. by rewrite (unfinished_at s i _ Ht). }
      destruct (List.filter _ _); [done|]. simpl. lia.
Qed.

Lemma silent_step s s' i : (i < sub_serial s)%nat -> sub_threads s !! i = None -> step s s' -> sub_threads s' !! i = None.
Proof.
  intros Hi Hn Hs.
  assert (Hne : forall j p, sub_threads s !! j = Some p -> j <> i) by (intros j p Hj ->; congruence).
  destruct Hs as [s odsc sent _|s j s' _ Hc|s _ _|s j fuel h _ Ht _ Hh|s j _ Ht _|s j h Ht Hh
    |s j h fetch tab data Ht Hh _|s j h data _ Ht Hh|s j h data r Ht Hh|s j h data _ Ht Hh|s j h data Ht Hh]; try done;
    try (apply Hne in Ht).
  - cbn [dspaces_sub fst sub_threads]. destruct sent; [|done]. rewrite lookup_insert_ne by lia. done.
  - by rewrite (cancel_threads _ _ _ Hc).
  - unfold notify_begin. destruct (sb_status h); sub_fields; by rewrite lookup_insert_ne.
  - unfold notify_transfer. sub_fields. by rewrite lookup_insert_ne.
  - sub_fields. by rewrite lookup_insert_ne.
  - unfold notify_deliver. destruct (sb_status h); sub_fields; by rewrite lookup_insert_ne.
  - unfold notify_callback. destruct data; sub_fields; by rewrite lookup_insert_ne.
  - by rewrite finish_threads, lookup_insert_ne.
  - sub_fields. by rewrite lookup_insert_ne.
Qed.

(** A [dspaces_sub] that cannot send its request returns
    [DSPACES_SUB_FAIL] with the subscription registered, and [pending_sub]
    never gets back to zero: [dspaces_fini] waits for ever. *)
Theorem failed_sub_blocks_fini s odsc s' :
  reachable s -> sub_held s = false -> rtc step (fst (dspaces_sub s odsc false)) s' ->
  snd (dspaces_sub s odsc false) = None /\ 0 < pending_sub s'.
Proof.
  intros Hr Hheld Hs. split; [done|]. pose proof (reachable_inv s Hr) as Hinv.
  assert (Hn : sub_threads s !! sub_serial s = None).
  { destruct (sub_threads s !! sub_serial s) eqn:En; [|done]. pose proof (si_threads _ Hinv (sub_serial s)) as H.
    rewrite En in H. specialize (H ltac:(eauto)). lia. }
  assert (H : (sub_serial s < sub_serial s')%nat /\ sub_threads s' !! sub_serial s = None).
  { assert (H0 : (sub_serial s < sub_serial (fst (dspaces_sub s odsc false)))%nat /\
      sub_threads (fst (dspaces_sub s odsc false)) !! sub_serial s = None) by (split; [cbn; lia|done]).
    induction Hs as [|x y z Hxy _ IH]; [done|]. apply IH. destruct H0 as [H1 H2]. split; [|by apply (silent_step x)].
    pose proof (step_serial _ _ Hxy). lia. }
  destruct H as [H1 H2]. pose proof (rtc_inv _ _ (inv_sub s odsc false Hinv) Hs) as Hinv'.
  rewrite (si_pending _ Hinv'). assert (Hin : In (sub_serial s) (List.filter (unfinished s') (seq 0 (sub_serial s')))).
  { apply filter_In. split; [apply in_seq; lia|]. unfold unfinished. by rewrite H2. }
  destruct (List.filter _ _); [done|]. simpl. lia.
Qed.
End Alone.

(** ** Concrete inputs *)

#[local] Instance sub_env : Env := {
  env_fuel := 0;
  env_dim := 0;
  env_coord := zero_coord;
  env_malloc n := replicate n 0;
  env_py_exec _ _ _ := None;
  env_remote_get _ _ _ := None;
  env_lz4_compress _ := None
}.

#[local] Instance sub_client_env : ClientEnv := {
  lz4_decompress _ _ := ([], -1);
  uninit_odsc := mkOdsc "" row_major 0 0 0 "" 0 zero_bbox 0;
  uninit_name := [];
  uninit_type := 0
}.

(** A subscription to two bytes, its handler past the check of the status, and
    past its callback. *)
Definition demo_odsc : obj_descriptor :=
  mkOdsc "v" column_major 0 0 0 "cl" 1 (mkBBox 1 zero_coord (cset zero_coord 0 1)) 1.
Definition demo_handle : sub_handle := mkSub demo_odsc DSPACES_SUB_WAIT None None.
Definition demo_sub : subs := fst (dspaces_sub sub_init demo_odsc true).
Definition demo_found : subs := notify_begin 0 demo_handle demo_sub.
Definition demo_transfer : subs := notify_transfer 0 demo_handle demo_found.
Definition demo_fetched : subs := with_thread 0 (P_have (Some [0; 0])) demo_transfer.
Definition demo_called : subs :=
  notify_callback 0 (Some [0; 0]) 7 (mkSub demo_odsc DSPACES_SUB_RUNNING None (Some [0; 0]))
    (notify_deliver 0 (Some [0; 0]) (set_status DSPACES_SUB_TRANSFER demo_handle) demo_fetched).

Lemma demo_data : notify_data (fun _ => None) demo_odsc [] = Some [0; 0].
Proof. reflexivity. Qed.

Lemma demo_sub_reachable : reachable demo_sub.
Proof. by apply rtc_once, step_sub. Qed.

Lemma demo_found_reachable : reachable demo_found.
Proof. eapply rtc_r; [exact demo_sub_reachable|]. by apply (step_begin demo_sub 0 1 demo_handle). Qed.

Lemma demo_called_reachable : reachable demo_called.
Proof.
  eapply rtc_r; [|by apply (step_callback _ 0)]. eapply rtc_r; [|by apply (step_deliver demo_fetched 0)].
  eapply rtc_r; [|by apply (step_fetch demo_transfer 0 _ _ _ _ eq_refl eq_refl demo_data)].
  eapply rtc_r; [exact demo_found_reachable|]. by apply (step_transfer demo_found 0).
Qed.

Fixpoint subscribe (n : nat) (s : subs) : subs :=
  match n with O => s | S n => fst (dspaces_sub (subscribe n s) demo_odsc true) end.

Lemma subscribe_reachable n : reachable (subscribe n sub_init) /\ sub_held (subscribe n sub_init) = false.
Proof.
  induction n as [|n [IH Hh]]; [by split; [apply rtc_refl|]|]. split; [|exact Hh]. by eapply rtc_r; [exact IH|apply step_sub].
Qed.

Lemma notify_rpc_correct_witness :
  exists s', notify_rpc 0 [0; 0] 7 demo_sub = Some s' /\ sub_calls s' = [(0%nat, [0; 0])] /\ pending_sub s' = 0.
Proof.
  destruct (notify_rpc_correct demo_sub 0 demo_handle (fun _ => None) [] [0; 0] 7) as (s' & E1 & _ & E2 & _ & [(_ & E3 & _)|[F _]]);
    [exact demo_sub_reachable|reflexivity|reflexivity|reflexivity|reflexivity|exact demo_data| |discriminate F].
  exists s'. split; [exact E1|]. split; [exact E3|exact E2].
Defined.

Lemma callback_once_witness : sub_calls demo_called = [(0%nat, [0; 0])] /\ NoDup (sub_calls demo_called).*1.
Proof. split; [reflexivity|]. destruct (callback_once demo_called demo_called_reachable) as [H _]. exact H. Defined.

Lemma cancel_effective_witness :
  exists s1, dspaces_cancel_sub demo_sub 0 = Some s1 /\ ~ (0%nat, [0; 0]) ∈ sub_calls s1.
Proof.
  eexists. split; [reflexivity|].
  apply (cancel_effective demo_sub 0 demo_handle _ _ [0; 0] demo_sub_reachable) with (6 := rtc_refl _ _);
    [reflexivity|reflexivity|left; reflexivity|discriminate|reflexivity].
Defined.

Lemma cancel_lost_witness :
  exists s1 s2, dspaces_cancel_sub demo_found 0 = Some s1 /\ rtc step s1 s2 /\ (0%nat, [0; 0]) ∈ sub_calls s2.
Proof.
  destruct (cancel_lost demo_found 0 demo_handle (fun _ => None) [] [0; 0] 7) as (s1 & s2 & E1 & _ & E2 & E3 & _);
    [exact demo_found_reachable|reflexivity|reflexivity|reflexivity|reflexivity|exact demo_data|].
  exists s1, s2. split; [exact E1|]. split; [exact E2|exact E3].
Defined.

Lemma colliding_notification_hangs_witness :
  step (subscribe 17 sub_init) (with_held (subscribe 17 sub_init)) /\ 0 < pending_sub (with_held (subscribe 17 sub_init)).
Proof.
  destruct (subscribe_reachable 17) as [Hr Hh].
  destruct (colliding_notification_hangs (subscribe 17 sub_init) 16 Hr Hh eq_refl) as [_ H].
  destruct (H 0%nat) as [H1 H2]; [lia|reflexivity|reflexivity|]. split; [exact H1|]. apply (H2 _ (rtc_refl _ _)).
Defined.

Lemma failed_sub_blocks_fini_witness : 0 < pending_sub (fst (dspaces_sub sub_init demo_odsc false)).
Proof. apply (failed_sub_blocks_fini sub_init demo_odsc); [apply rtc_refl|reflexivity|apply rtc_refl]. Defined.
