(* ===== verification/Bcast.v ===== *)
(** * Bcast: broadcasts over the tree of servers

    [ibcast_rpc_start] of [src/src/dspaces-server.c] and the handlers built
    on it: the kill tokens ([kill_rpc]), the collection of variable names
    ([get_vars_rpc]) and of a variable's objects ([get_var_objs_rpc]), and
    module registration ([reg_rpc]).  The servers form a binary heap; a
    handler forwards to its neighbours except the one the request came
    from. *)

From S2P Require Import Prelude BBox ObjDesc DhtEntry StrHash LocalStorage.

#[local] Set Warnings "-clear-no-such-hyp".

(** ** The tree *)

Definition bc_parent (rank : Z) : Z := Z.quot (i32 (rank - 1)) 2.
Definition bc_child1 (rank : Z) : Z := i32 (i32 (rank * 2) + 1).
Definition bc_child2 (rank : Z) : Z := i32 (bc_child1 rank + 1).

(** The ranks [ibcast_rpc_start] sends to; [src] is -1 for a client's
    request. *)
Definition ibcast_targets (size rank src : Z) : list Z :=
  let parent := bc_parent rank in
  let child1 := bc_child1 rank in
  let child2 := bc_child2 rank in
  if (size =? 1) || ((src =? parent) && (size <=? child1)) then []
  else (if ((src =? -1) || (rank <? src)) && (0 <? rank) then [parent] else [])
       ++ (if negb (child1 =? src) && (child1 <? size) then [child1] else [])
       ++ (if negb (child2 =? src) && (child2 <? size) then [child2] else []).

(** Every server a request reaches, when each handler forwards with its own
    rank as source.  A heap of [size] servers has paths of at most [2 * size]
    steps, which [fuel] has to exceed. *)
Fixpoint bcast_visit (fuel : nat) (size rank src : Z) : list Z :=
  match fuel with
  | O => []
  | S f => rank :: flat_map (fun t => bcast_visit f size t rank) (ibcast_targets size rank src)
  end.

(** ** Kill tokens *)

(** Token counters by rank and the kill messages in flight
    [(destination, source)]. *)
Record kill_state := mkKill { k_tokens : list Z; k_net : list (Z * Z); k_down : list Z }.

(** [kill_rpc] at [rank]: ignored when shutting down already; [k_down]
    collects the servers that started [server_destroy]. *)
Definition kill_rpc (size : Z) (rank src : Z) (k : kill_state) : kill_state :=
  match k_tokens k !! Z.to_nat rank with
  | None => k
  | Some f =>
      if f =? 0 then k
      else
        let f' := i32 (f - 1) in
        mkKill (<[Z.to_nat rank := f']> (k_tokens k))
          (k_net k ++ map (fun t => (t, rank)) (ibcast_targets size rank src))
          (if f' =? 0 then rank :: k_down k else k_down k)
  end.

(** A client's kill request at a server, or the delivery of a message. *)
Inductive kill_event := K_request (rank : Z) | K_deliver (i : nat).

Definition kill_step (size : Z) (k : kill_state) (e : kill_event) : kill_state :=
  match e with
  | K_request rank => kill_rpc size rank (-1) k
  | K_deliver i =>
      match k_net k !! i with
      | None => k
      | Some (dst, src) => kill_rpc size dst src (mkKill (k_tokens k) (delete i (k_net k)) (k_down k))
      end
  end.

Definition kill_run (size : Z) (k : kill_state) (es : list kill_event) : kill_state :=
  fold_left (kill_step size) es k.

(** ** Collecting *)

(** [get_vars_rpc] at [rank]: its own names, then the answers of the servers
    asked, in a string set; [ls] is the storage of each server. *)
Fixpoint get_vars (fuel : nat) (size : Z) (ls : Z -> ss_storage) (rank src : Z) : list string :=
  match fuel with
  | O => []
  | S f =>
      snd (ds_str_hash_get_all (add_strings
        (snd (ls_get_var_names (ls rank))
         ++ flat_map (fun t => get_vars f size ls t rank) (ibcast_targets size rank src))))
  end.

(** [get_var_objs_rpc]: the descriptors of the answers are appended. *)
Fixpoint get_var_objs (fuel : nat) (size : Z) (ls : Z -> ss_storage) (var_name : string) (rank src : Z)
  : list obj_descriptor :=
  match fuel with
  | O => []
  | S f =>
      ls_find_all_no_version (ls rank) var_name
      ++ flat_map (fun t => get_var_objs f size ls var_name t rank) (ibcast_targets size rank src)
  end.

(** ** Registration *)

(** [reg_rpc] forwards its input as it is: [src] stays -1.  The registrations
    in flight carry the source they arrive with. *)
Record reg_state := mkRegState { r_next : list Z; r_net : list (Z * Z) }.

Definition reg_rpc (size : Z) (rank src : Z) (s : reg_state) : reg_state :=
  let next := if src =? -1 then alter (fun n => i32 (n + 1)) (Z.to_nat rank) (r_next s) else r_next s in
  mkRegState next (r_net s ++ map (fun t => (t, src)) (ibcast_targets size rank src)).

Definition reg_deliver (size : Z) (s : reg_state) : reg_state :=
  match r_net s with
  | [] => s
  | (dst, src) :: net => reg_rpc size dst src (mkRegState (r_next s) net)
  end.

(** ** The heap order *)

Fixpoint anc_fuel (n : nat) (r t : Z) : bool :=
  if r =? t then true
  else match n with
       | O => false
       | S n' => (r <? t) && anc_fuel n' r ((t - 1) / 2)
       end.

(** [r] is [t] or an ancestor of [t]. *)
Definition anc (r t : Z) : bool := anc_fuel (Z.to_nat t) r t.

Lemma anc_fuel_enough n : forall m r t, 0 <= r -> 0 <= t ->
  (Z.to_nat t <= n)%nat -> (Z.to_nat t <= m)%nat -> anc_fuel n r t = anc_fuel m r t.
Proof.
  induction n as [|n IH]; intros [|m] r t Hr Ht Hn Hm; cbn [anc_fuel]; try done;
    destruct (Z.eqb_spec r t); try done; try (destruct (Z.ltb_spec r t); [lia|done]).
  destruct (Z.ltb_spec r t); [|done]. cbn [andb]. apply IH; try lia; dlia.
Qed.

Lemma anc_eq r t : 0 <= r -> 0 <= t -> anc r t = (r =? t) || ((r <? t) && anc r ((t - 1) / 2)).
Proof.
  intros Hr Ht. unfold anc. destruct (Z.to_nat t) as [|n] eqn:En; cbn [anc_fuel];
    destruct (Z.eqb_spec r t); try done; cbn [orb]; destruct (Z.ltb_spec r t); try done; [lia|].
  cbn [andb]. apply anc_fuel_enough; try lia; try dlia.
Qed.

Lemma anc_le r t : 0 <= r -> 0 <= t -> t < r -> anc r t = false.
Proof.
  intros Hr Ht Hlt. rewrite anc_eq by done. destruct (Z.eqb_spec r t); [lia|].
  by destruct (Z.ltb_spec r t); [lia|].
Qed.

(** The descendants of a server are itself and those of its children. *)
Lemma anc_split r t : 0 <= r -> 0 <= t ->
  Z.b2z (anc r t) = Z.b2z (r =? t) + Z.b2z (anc (2 * r + 1) t) + Z.b2z (anc (2 * r + 2) t).
Proof.
  intros Hr Ht. pattern t. revert t Ht. apply Zlt_0_ind. intros t IH Ht.
  destruct (Z_lt_dec r t) as [Hlt|Hge].
  - rewrite (anc_eq r t), (anc_eq (2 * r + 1) t), (anc_eq (2 * r + 2) t) by lia.
    specialize (IH ((t - 1) / 2) ltac:(dlia)).
    destruct (Z.eqb_spec r t); [lia|]. destruct (Z.ltb_spec r t); [|lia]. cbn [orb andb].
    rewrite IH. destruct (Z.eqb_spec r ((t - 1) / 2)) as [E|E].
    + assert (t = 2 * r + 1 \/ t = 2 * r + 2) as [->| ->] by dlia.
      * rewrite !(anc_le _ ((_ - 1) / 2)) by dlia. rewrite !andb_false_r, Z.eqb_refl.
        by destruct (Z.eqb_spec (2 * r + 2) (2 * r + 1)); [lia|].
      * rewrite !(anc_le _ ((_ - 1) / 2)) by dlia. rewrite !andb_false_r, Z.eqb_refl.
        by destruct (Z.eqb_spec (2 * r + 1) (2 * r + 2)); [lia|].
    + destruct (Z.eqb_spec (2 * r + 1) t); [dlia|]. destruct (Z.eqb_spec (2 * r + 2) t); [dlia|].
      cbn [orb]. destruct (Z.ltb_spec (2 * r + 1) t); [|rewrite (anc_le (2 * r + 1)) by dlia];
        (destruct (Z.ltb_spec (2 * r + 2) t); [|rewrite (anc_le (2 * r + 2)) by dlia]); reflexivity.
  - rewrite (anc_le (2 * r + 1)), (anc_le (2 * r + 2)) by lia.
    destruct (Z.eqb_spec r t) as [->|]; [|rewrite anc_le by lia; reflexivity].
    rewrite anc_eq, Z.eqb_refl by lia. reflexivity.
Qed.

Lemma anc_root t : 0 <= t -> anc 0 t = true.
Proof.
  intros Ht. pattern t. revert t Ht. apply Zlt_0_ind. intros t IH Ht.
  rewrite anc_eq by lia. destruct (Z.eqb_spec 0 t); [done|].
  destruct (Z.ltb_spec 0 t); [|lia]. apply IH. dlia.
Qed.

Lemma anc_self r : 0 <= r -> anc r r = true.
Proof. intros. by rewrite anc_eq, Z.eqb_refl by lia. Qed.

(** ** The messages of a broadcast *)

Section tree.
Context (size : Z) (Hsize : 1 <= size < 2 ^ 30).

Lemma bc_parent_eq r : 0 < r < size -> bc_parent r = (r - 1) / 2.
Proof. intros. unfold bc_parent. rewrite i32_small by lia. apply Z.quot_div_nonneg; lia. Qed.

Lemma bc_child1_eq r : 0 <= r < size -> bc_child1 r = 2 * r + 1.
Proof. intros. unfold bc_child1. rewrite (i32_small (r * 2)), i32_small by lia. lia. Qed.

Lemma bc_child2_eq r : 0 <= r < size -> bc_child2 r = 2 * r + 2.
Proof. intros. unfold bc_child2. rewrite bc_child1_eq, i32_small by lia. lia. Qed.

(** A request [src] can send to [d]: a client's, a parent's to its child, a
    child's to its parent. *)
Definition edge (d src : Z) : Prop :=
  0 <= d < size /\
  (src = -1 \/ (0 < d /\ src = (d - 1) / 2) \/ (0 < src < size /\ d = (src - 1) / 2)).

(** How often [t] handles a request that reaches [d] from [src]. *)
Definition reach (t d src : Z) : Z :=
  if src =? -1 then 1 else if src <? d then Z.b2z (anc d t) else 1 - Z.b2z (anc src t).

(** Longest chain of messages after a request. *)
Definition bc_measure (d src : Z) : Z :=
  if src =? -1 then 2 * size else if src <? d then size - d else d + size.

(** The targets by name: the parent of a request that does not come from
    there, and the children other than the sender. *)
Lemma ibcast_targets_eq d src : edge d src -> 
  ibcast_targets size d src =
    (if ((src =? -1) || (d <? src)) && (0 <? d) then [(d - 1) / 2] else [])
    ++ (if negb (2 * d + 1 =? src) && (2 * d + 1 <? size) then [2 * d + 1] else [])
    ++ (if negb (2 * d + 2 =? src) && (2 * d + 2 <? size) then [2 * d + 2] else []).
Proof.
  intros [Hd He]. unfold ibcast_targets. rewrite bc_child1_eq, bc_child2_eq by done.
  destruct (Z.ltb_spec 0 d) as [H0|H0].
  - rewrite bc_parent_eq by lia. destruct (_ || _) eqn:E; [|done].
    zify_bool. destruct (Z.ltb_spec (2 * d + 1) size), (Z.ltb_spec (2 * d + 2) size); try (exfalso; lia).
    rewrite !andb_false_r. destruct E as [E|[E1 E2]]; [lia|].
    destruct (Z.eqb_spec src (-1)); [dlia|]. destruct (Z.ltb_spec d src); [dlia|]. done.
  - assert (d = 0) as -> by lia. rewrite !andb_false_r. change (bc_parent 0) with 0.
    destruct (_ || _) eqn:E; [|done]. assert (size <= 1) by (zify_bool; dlia).
    destruct (Z.ltb_spec (2 * 0 + 1) size); [lia|]. destruct (Z.ltb_spec (2 * 0 + 2) size); [lia|].
    by rewrite !andb_false_r.
Qed.

Lemma ibcast_targets_edge d src t : edge d src -> In t (ibcast_targets size d src) ->
  edge t d /\ 0 <= d /\ bc_measure t d < bc_measure d src.
Proof.
  intros He Ht. rewrite ibcast_targets_eq, !in_app_iff in Ht by done. destruct He as [Hd He].
  split_and!; [|lia|].
  - split; [|]; destruct Ht as [Ht|[Ht|Ht]];
      match type of Ht with In _ (if ?b then _ else _) => destruct b eqn:E end; try done;
      destruct Ht as [<-|[]]; zify_bool; dlia.
  - unfold bc_measure. destruct (Z.eqb_spec d (-1)); [lia|].
    destruct Ht as [Ht|[Ht|Ht]];
      match type of Ht with In _ (if ?b then _ else _) => destruct b eqn:E end; try done;
      destruct Ht as [<-|[]]; zify_bool;
      destruct (Z.ltb_spec d ((d - 1) / 2)), (Z.ltb_spec d (2 * d + 1)), (Z.ltb_spec d (2 * d + 2));
      destruct (Z.eqb_spec src (-1)); try dlia; destruct (Z.ltb_spec src d); dlia.
Qed.

(** A handler's own turn and those its messages cause. *)
Lemma reach_step t d src : edge d src -> 0 <= t < size ->
  reach t d src = Z.b2z (d =? t) + zsum (map (fun x => reach t x d) (ibcast_targets size d src)).
Proof.
  intros He Ht. rewrite ibcast_targets_eq by done. destruct He as [Hd He].
  pose proof (anc_split d t ltac:(lia) ltac:(lia)) as Hsplit.
  assert (Hroot : d = 0 -> anc d t = true) by (intros ->; apply anc_root; lia).
  assert (H1 : size <= 2 * d + 1 -> anc (2 * d + 1) t = false) by (intros; apply anc_le; lia).
  assert (H2 : size <= 2 * d + 2 -> anc (2 * d + 2) t = false) by (intros; apply anc_le; lia).
  assert (Hc1 : reach t (2 * d + 1) d = Z.b2z (anc (2 * d + 1) t)).
  { unfold reach. destruct (Z.eqb_spec d (-1)); [lia|]. by destruct (Z.ltb_spec d (2 * d + 1)); [|lia]. }
  assert (Hc2 : reach t (2 * d + 2) d = Z.b2z (anc (2 * d + 2) t)).
  { unfold reach. destruct (Z.eqb_spec d (-1)); [lia|]. by destruct (Z.ltb_spec d (2 * d + 2)); [|lia]. }
  assert (Hp : 0 < d -> reach t ((d - 1) / 2) d = 1 - Z.b2z (anc d t)).
  { intros. unfold reach. destruct (Z.eqb_spec d (-1)); [lia|]. by destruct (Z.ltb_spec d ((d - 1) / 2)); [dlia|]. }
  rewrite !map_app, !zsum_app. unfold reach at 1.
  destruct (Z.ltb_spec 0 d) as [H0|H0]; [specialize (Hp H0)|assert (d = 0) by lia; rewrite Hroot in * by done];
  (destruct (Z.ltb_spec (2 * d + 1) size) as [L1|L1]; [|rewrite H1 in * by done]);
  (destruct (Z.ltb_spec (2 * d + 2) size) as [L2|L2]; [|rewrite H2 in * by done]);
  (destruct He as [->|[[Hd0 ->]|[Hs Es]]];
   [| destruct (Z.eqb_spec ((d - 1) / 2) (-1)); [dlia|];
      destruct (Z.ltb_spec ((d - 1) / 2) d); [|dlia]; destruct (Z.ltb_spec d ((d - 1) / 2)); [dlia|];
      destruct (Z.eqb_spec (2 * d + 1) ((d - 1) / 2)); [dlia|];
      destruct (Z.eqb_spec (2 * d + 2) ((d - 1) / 2)); [dlia|]
    | destruct (Z.eqb_spec src (-1)); [lia|]; destruct (Z.ltb_spec src d); [dlia|];
      destruct (Z.ltb_spec d src); [|dlia];
      assert (src = 2 * d + 1 \/ src = 2 * d + 2) as [->| ->] by dlia;
      rewrite ?Z.eqb_refl;
      [destruct (Z.eqb_spec (2 * d + 2) (2 * d + 1)); [lia|]
      |destruct (Z.eqb_spec (2 * d + 1) (2 * d + 2)); [lia|]]]);
  rewrite ?andb_true_r, ?andb_false_r; cbn [orb andb negb map zsum foldr Z.b2z] in *;
  rewrite ?Z.eqb_refl; repeat match goal with
    |- context [?a =? -1] => destruct (Z.eqb_spec a (-1)); [lia|] end;
  cbn [orb andb negb map zsum foldr Z.b2z] in *; lia.
Qed.

Lemma bc_measure_bound d src : edge d src -> 0 < bc_measure d src <= 2 * size.
Proof.
  intros [Hd He]. unfold bc_measure. destruct (Z.eqb_spec src (-1)); [lia|].
  destruct (Z.ltb_spec src d); lia.
Qed.

Lemma edge_client d : 0 <= d < size -> edge d (-1).
Proof. intros. split; [done|by left]. Qed.

(** Every server reached is handled as often as [reach] says. *)
Lemma visit_sum : forall fuel d src, edge d src ->
  (forall t, In t (bcast_visit fuel size d src) -> 0 <= t < size) /\
  (bc_measure d src < Z.of_nat fuel -> forall t, 0 <= t < size ->
   zsum (map (fun x => Z.b2z (x =? t)) (bcast_visit fuel size d src)) = reach t d src).
Proof.
  induction fuel as [|f IH]; intros d src He; split.
  - done.
  - pose proof (bc_measure_bound d src He). lia.
  - cbn [bcast_visit]. intros t [<-|Hin]; [apply He|].
    apply in_flat_map in Hin as (x & Hx & Hin).
    destruct (ibcast_targets_edge _ _ _ He Hx) as (He' & _ & _).
    by apply (proj1 (IH x d He')).
  - intros Hm t Ht. rewrite (reach_step t d src He Ht). cbn [bcast_visit map zsum foldr]. f_equal.
    assert (Hgen : forall l, (forall x, In x l -> In x (ibcast_targets size d src)) ->
      zsum (map (fun x => Z.b2z (x =? t)) (flat_map (fun x => bcast_visit f size x d) l))
      = zsum (map (fun x => reach t x d) l)).
    { induction l as [|x l IHl]; intros Hl; [done|]. cbn [flat_map map]. rewrite map_app, zsum_app.
      rewrite IHl by (intros; apply Hl; by right). cbn [zsum foldr]. f_equal.
      destruct (ibcast_targets_edge d src x He (Hl x (or_introl eq_refl))) as (He' & _ & Hlt).
      apply (proj2 (IH x d He')); [lia|done]. }
    apply Hgen. done.
Qed.
End tree.

Lemma NoDup_of_counts (l : list Z) :
  (forall t, In t l -> zsum (map (fun x => Z.b2z (x =? t)) l) <= 1) -> NoDup l.
Proof.
  induction l as [|a l IH]; intros H; [constructor|].
  assert (Hnn : forall t, 0 <= zsum (map (fun x => Z.b2z (x =? t)) l)).
  { intros t. apply zsum_map_nonneg. intros. destruct (_ =? _); simpl; lia. }
  constructor.
  - intros Hin%list_elem_of_In. specialize (H a (or_introl eq_refl)).
    cbn [map zsum foldr] in H. rewrite Z.eqb_refl in H. cbn [Z.b2z] in H.
    pose proof (zsum_member_le (fun x => Z.b2z (x =? a)) l a) as Hle. cbn beta in Hle.
    rewrite Z.eqb_refl in Hle. cbn [Z.b2z] in Hle. unfold zsum in *.
    specialize (Hle ltac:(intros; destruct (_ =? _); simpl; lia) Hin). lia.
  - apply IH. intros t Ht. specialize (H t (or_intror Ht)). cbn [map zsum foldr] in H.
    unfold zsum in *. destruct (_ =? _); simpl in H; lia.
Qed.

(** The fuel that lets every message of a broadcast be sent. *)
Definition bc_fuel (size : Z) : nat := Z.to_nat (2 * size + 1).

(** The ranks of the servers. *)
Definition ranks (size : Z) : list Z := map Z.of_nat (seq 0 (Z.to_nat size)).

Lemma in_all_ranks size t : In t (ranks size) <-> 0 <= t < size.
Proof.
  unfold ranks. rewrite in_map_iff. split.
  - intros (k & <- & Hk%in_seq). lia.
  - intros Ht. exists (Z.to_nat t). rewrite in_seq. lia.
Qed.

(** Every server handles a client's request exactly once. *)
Lemma visit_all_once size rank :
  1 <= size < 2 ^ 30 -> 0 <= rank < size -> bcast_visit (bc_fuel size) size rank (-1) ≡ₚ ranks size.
Proof.
  intros Hs Hr.
  destruct (visit_sum size Hs (bc_fuel size) rank (-1) (edge_client size rank Hr)) as [Hin Hcnt].
  specialize (Hcnt ltac:(unfold bc_measure, bc_fuel; simpl; lia)).
  apply NoDup_Permutation.
  - apply NoDup_of_counts. intros t Ht. rewrite (Hcnt t (Hin t Ht)). unfold reach. simpl. lia.
  - apply NoDup_fmap_2; [intros ???; lia|]. apply NoDup_ListNoDup, seq_NoDup.
  - intros t. rewrite !list_elem_of_In, in_all_ranks. split; [apply Hin|].
    intros Ht. specialize (Hcnt t Ht). change (reach t rank (-1)) with 1 in Hcnt.
    destruct (zsum_pos_member (fun x => Z.b2z (x =? t)) _ ltac:(rewrite Hcnt; lia)) as (x & Hx & Hp).
    destruct (Z.eqb_spec x t) as [<-|]; [done|simpl in Hp; lia].
Qed.

(** ** Collecting requests *)

Lemma get_var_objs_visit fuel size ls var_name : forall rank src,
  get_var_objs fuel size ls var_name rank src
  = flat_map (fun t => ls_find_all_no_version (ls t) var_name) (bcast_visit fuel size rank src).
Proof.
  induction fuel as [|f IH]; intros rank src; [done|]. cbn [get_var_objs bcast_visit flat_map]. f_equal.
  induction (ibcast_targets size rank src) as [|t l IHl]; [done|]. cbn [flat_map].
  by rewrite flat_map_app, IH, IHl.
Qed.

Lemma get_vars_visit fuel size ls s : forall rank src,
  In s (get_vars fuel size ls rank src) <->
  exists t, In t (bcast_visit fuel size rank src) /\ In s (snd (ls_get_var_names (ls t))).
Proof.
  induction fuel as [|f IH]; intros rank src; cbn [get_vars bcast_visit]; [naive_solver|].
  cbn [ds_str_hash_get_all snd]. rewrite flat_map_concat_map, map_id.
  change (concat (table ?h)) with (str_elems h). rewrite (proj2 (add_strings_spec _)), in_app_iff, in_flat_map.
  setoid_rewrite IH. cbn [In]. setoid_rewrite in_flat_map. naive_solver.
Qed.

(** Asked at any server, [get_vars_rpc] answers with the names of the
    variables of all servers, each of them once. *)
Theorem get_vars_complete size ls rank :
  1 <= size < 2 ^ 30 -> 0 <= rank < size ->
  let names := get_vars (bc_fuel size) size ls rank (-1) in
  NoDup names /\
  forall s, In s names <-> exists t, 0 <= t < size /\ In s (snd (ls_get_var_names (ls t))).
Proof.
  intros Hs Hr names. split.
  - unfold names. destruct (bc_fuel size) as [|f]; [constructor|].
    cbn [get_vars ds_str_hash_get_all snd]. rewrite flat_map_concat_map, map_id.
    apply add_strings_spec.
  - intros s. unfold names. rewrite get_vars_visit.
    setoid_rewrite <- list_elem_of_In at 1. setoid_rewrite (visit_all_once size rank Hs Hr).
    setoid_rewrite list_elem_of_In. by setoid_rewrite in_all_ranks.
Qed.

(** Asked at any server, [get_var_objs_rpc] answers with the
    descriptors every server holds for the variable, each server's exactly
    once. *)
Theorem get_var_objs_complete size ls var_name rank :
  1 <= size < 2 ^ 30 -> 0 <= rank < size ->
  get_var_objs (bc_fuel size) size ls var_name rank (-1)
  ≡ₚ flat_map (fun t => ls_find_all_no_version (ls t) var_name) (ranks size).
Proof.
  intros Hs Hr. rewrite get_var_objs_visit, !flat_map_concat_map.
  by rewrite (fmap_Permutation _ _ _ (visit_all_once size rank Hs Hr)).
Qed.

(** Six servers; server [t] holds version [t] of "a" and of a variable of
    its own. *)
Definition demo_storage (t : Z) : ss_storage :=
  ls_add_obj (ls_add_obj (ls_alloc 2) (demo_obj 0 (demo_odsc "a" t zero_bbox) 0))
    (demo_obj 1 (demo_odsc (String (Ascii.ascii_of_nat (98 + Z.to_nat t)) "") 0 zero_bbox) 0).

Lemma get_vars_complete_witness :
  In "g"%string (get_vars (bc_fuel 6) 6 demo_storage 3 (-1)).
Proof.
  destruct (get_vars_complete 6 demo_storage 3 ltac:(lia) ltac:(lia)) as [_ H]. apply (proj2 (H "g"%string)).
  exists 5. split; [lia|]. vm_compute. auto.
Defined.

Lemma get_var_objs_complete_witness :
  length (get_var_objs (bc_fuel 6) 6 demo_storage "a" 3 (-1)) = 6%nat.
Proof.
  rewrite (Permutation_length (get_var_objs_complete 6 demo_storage "a" 3 ltac:(lia) ltac:(lia))).
  vm_compute. reflexivity.
Defined.

(** ** The kill protocol *)

Definition kill_init (size K : Z) : kill_state := mkKill (replicate (Z.to_nat size) K) [] [].

Definition is_request (e : kill_event) : bool := if e is K_request _ then true else false.

(** The kill requests of clients in a history. *)
Definition requests (es : list kill_event) : Z := zsum (map (fun e => Z.b2z (is_request e)) es).

(** Requests go to servers that exist. *)
Definition event_ok (size : Z) (e : kill_event) : Prop :=
  if e is K_request rank then 0 <= rank < size else True.

(** How often the messages in flight will still reach [t]. *)
Definition turns (t : Z) (net : list (Z * Z)) : Z := zsum (map (fun m => reach t m.1 m.2) net).

(** After [m] requests, with [hand] the message being handled, if any: every
    server lacks one token per request, less the messages that will still
    reach it. *)
Record kill_inv (size K m : Z) (hand : list (Z * Z)) (k : kill_state) : Prop := {
  ki_len : length (k_tokens k) = Z.to_nat size;
  ki_net : forall d s, In (d, s) (hand ++ k_net k) -> edge size d s;
  ki_tok : forall t, 0 <= t < size ->
    k_tokens k !! Z.to_nat t = Some (K - m + turns t (hand ++ k_net k));
  ki_max : forall t, 0 <= t < size -> turns t (hand ++ k_net k) <= m;
  ki_down : forall t, In t (k_down k) <-> 0 <= t < size /\ k_tokens k !! Z.to_nat t = Some 0;
  ki_once : NoDup (k_down k)
}.

Lemma reach_nonneg t d s : 0 <= reach t d s.
Proof. unfold reach. destruct (s =? -1), (s <? d); try lia; destruct (anc _ _); simpl; lia. Qed.

Lemma reach_self size d s : edge size d s -> reach d d s = 1.
Proof.
  intros [Hd He]. unfold reach. destruct (Z.eqb_spec s (-1)); [done|].
  destruct (Z.ltb_spec s d); [rewrite anc_self by lia; done|].
  rewrite anc_le by dlia. done.
Qed.

Lemma turns_nonneg t net : 0 <= turns t net.
Proof. apply zsum_map_nonneg. intros. apply reach_nonneg. Qed.

Lemma turns_app t n1 n2 : turns t (n1 ++ n2) = turns t n1 + turns t n2.
Proof. unfold turns. by rewrite map_app, zsum_app. Qed.

Lemma turns_one t d s : turns t [(d, s)] = reach t d s.
Proof. unfold turns. simpl. lia. Qed.

Lemma turns_delete t net i m :
  net !! i = Some m -> turns t (m :: delete i net) = turns t net.
Proof.
  intros H. apply zsum_permutation, fmap_Permutation. symmetry. by apply delete_Permutation.
Qed.

Lemma requests_snoc es e : requests (es ++ [e]) = requests es + Z.b2z (is_request e).
Proof. unfold requests. rewrite map_app, zsum_app. cbn [map zsum foldr]. lia. Qed.

Lemma requests_nonneg es : 0 <= requests es.
Proof. apply zsum_map_nonneg. intros. destruct (is_request _); simpl; lia. Qed.

Section kill.
Context (size K : Z) (Hsize : 1 <= size < 2 ^ 30) (HK : 1 <= K < 2 ^ 31).

Lemma kill_inv_init : kill_inv size K 0 [] (kill_init size K).
Proof.
  split; cbn [kill_init k_tokens k_net k_down app].
  - apply length_replicate.
  - done.
  - intros t Ht. rewrite lookup_replicate_2 by lia. unfold turns. simpl. f_equal. lia.
  - intros t Ht. unfold turns. simpl. lia.
  - intros t. split; [done|]. intros [Ht H]. rewrite lookup_replicate_2 in H by lia. simplify_eq. lia.
  - constructor.
Qed.

(** The server a message is for has a token for it. *)
Lemma kill_token d s m hand k :
  m <= K -> kill_inv size K m hand k -> In (d, s) (hand ++ k_net k) ->
  exists f, k_tokens k !! Z.to_nat d = Some f /\ 1 <= f <= K.
Proof.
  intros Hm Hi Hin. pose proof (ki_net _ _ _ _ _ Hi d s Hin) as He. pose proof He as [Hd _].
  exists (K - m + turns d (hand ++ k_net k)). split; [by apply Hi|].
  pose proof (ki_max _ _ _ _ _ Hi d Hd).
  assert (1 <= turns d (hand ++ k_net k)); [|lia].
  rewrite <- (reach_self size d s He).
  apply (zsum_member_le (fun m => reach d m.1 m.2) _ (d, s)); [|done]. intros. apply reach_nonneg.
Qed.

(** Handling a message takes one turn of its receiver. *)
Lemma pending_handled t d s net : edge size d s -> 0 <= t < size ->
  turns t (net ++ map (fun t => (t, d)) (ibcast_targets size d s))
  = turns t ([(d, s)] ++ net) - Z.b2z (d =? t).
Proof.
  intros He Ht. rewrite !turns_app, turns_one, (reach_step size Hsize t d s He Ht).
  unfold turns at 2. rewrite map_map. cbn [fst snd]. lia.
Qed.

(** A handler run turns the message it handles into those it sends. *)
Lemma kill_rpc_inv m d s k :
  m <= K -> kill_inv size K m [(d, s)] k -> kill_inv size K m [] (kill_rpc size d s k).
Proof.
  intros Hm Hi. pose proof (ki_net _ _ _ _ _ Hi d s (or_introl eq_refl)) as He. pose proof He as [Hd _].
  destruct (kill_token d s m _ k Hm Hi (or_introl eq_refl)) as (f & Hf & Hf1).
  unfold kill_rpc. rewrite Hf. destruct (Z.eqb_spec f 0); [lia|]. rewrite i32_small by lia.
  pose proof (fun t Ht => pending_handled t d s (k_net k) He Ht) as Hpend.
  assert (Hlt : (Z.to_nat d < length (k_tokens k))%nat) by (eapply lookup_lt_Some, Hf).
  assert (Htok : forall t, 0 <= t < size -> <[Z.to_nat d:=f - 1]> (k_tokens k) !! Z.to_nat t
    = Some (K - m + turns t (k_net k ++ map (fun t => (t, d)) (ibcast_targets size d s)))).
  { intros t Ht. rewrite Hpend by done. pose proof (ki_tok _ _ _ _ _ Hi t Ht) as H0.
    destruct (Z.eqb_spec d t) as [->|Hne].
    - rewrite list_lookup_insert_eq by lia. rewrite Hf in H0. simplify_eq. f_equal. simpl. lia.
    - rewrite list_lookup_insert_ne by lia. rewrite H0. f_equal. simpl. lia. }
  split; cbn [k_tokens k_net k_down app].
  - rewrite length_insert. apply Hi.
  - intros d' s' [H|H]%in_app_or; [apply (ki_net _ _ _ _ _ Hi); simpl; by right|].
    apply in_map_iff in H as (t & Ht & Hin). simplify_eq.
    by apply (ibcast_targets_edge size Hsize _ s).
  - apply Htok.
  - intros t Ht. rewrite Hpend by done. pose proof (ki_max _ _ _ _ _ Hi t Ht). destruct (d =? t); simpl in *; lia.
  - intros t. pose proof (ki_down _ _ _ _ _ Hi t) as Hdn. destruct (Z.eq_dec t d) as [->|Hne].
    + rewrite list_lookup_insert_eq by lia. rewrite Hf in Hdn. destruct (Z.eqb_spec (f - 1) 0) as [E|E].
      * split; [intros _; split; [done|congruence]|]. intros. by left.
      * rewrite Hdn. split; intros [_ ?]; simplify_eq; lia.
    + destruct (Z_lt_dec t 0) as [|]; [|rewrite list_lookup_insert_ne by lia];
        destruct (f - 1 =? 0); cbn [In]; rewrite Hdn; split; try (intros [? ?]; lia);
        try (intros [?|[? ?]]; [congruence|lia]); naive_solver.
  - pose proof (ki_once _ _ _ _ _ Hi). destruct (f - 1 =? 0); [|done]. constructor; [|done].
    intros [_ H']%list_elem_of_In%(ki_down _ _ _ _ _ Hi). rewrite Hf in H'. simplify_eq.
Qed.

Lemma kill_step_inv m k e :
  0 <= m -> m + Z.b2z (is_request e) <= K -> event_ok size e -> kill_inv size K m [] k ->
  kill_inv size K (m + Z.b2z (is_request e)) [] (kill_step size k e).
Proof.
  intros Hm0 Hm He Hi. destruct e as [rank|i]; cbn [is_request Z.b2z kill_step event_ok] in *.
  - apply kill_rpc_inv; [done|]. destruct Hi as [H1 H2 H3 H4 H5 H6]. cbn [app] in *. split; try done.
    + intros d s [H|H]; [simplify_eq; by apply edge_client|by apply H2].
    + intros t Ht. rewrite turns_app, turns_one, (H3 t Ht). unfold reach. simpl. f_equal. lia.
    + intros t Ht. rewrite turns_app, turns_one. specialize (H4 t Ht). unfold reach. simpl. lia.
  - rewrite Z.add_0_r in *. destruct (k_net k !! i) as [[d s]|] eqn:E; [|done].
    apply kill_rpc_inv; [done|]. destruct Hi as [H1 H2 H3 H4 H5 H6]. cbn [app] in *.
    pose proof (delete_Permutation _ _ _ E) as Hp.
    split; cbn [k_tokens k_net k_down app]; try done.
    + intros d' s' H. apply H2. apply list_elem_of_In. rewrite Hp. by apply list_elem_of_In.
    + intros t Ht. rewrite (turns_delete _ _ _ _ E). by apply H3.
    + intros t Ht. rewrite (turns_delete _ _ _ _ E). by apply H4.
Qed.

Lemma kill_run_inv es :
  Forall (event_ok size) es -> requests es <= K ->
  kill_inv size K (requests es) [] (kill_run size (kill_init size K) es).
Proof.
  induction es as [|e es IH] using rev_ind; intros Hes Hm; [apply kill_inv_init|].
  apply Forall_app in Hes as [Hes He%Forall_inv]. rewrite requests_snoc in *.
  unfold kill_run. rewrite fold_left_app. cbn [fold_left].
  apply kill_step_inv; [apply requests_nonneg|exact Hm|exact He|].
  apply IH; [done|]. destruct (is_request e); simpl in *; lia.
Qed.
(** A delivery takes one of the turns outstanding. *)
Definition work (net : list (Z * Z)) : Z :=
  zsum (map (fun t => turns t net) (ranks size)).

Lemma zsum_indicator d : 0 <= d < size -> zsum (map (fun t => Z.b2z (d =? t)) (ranks size)) = 1.
Proof.
  intros Hd. unfold ranks. rewrite map_map.
  assert (H : forall n a, zsum (map (fun k => Z.b2z (d =? Z.of_nat k)) (seq a n))
    = Z.b2z ((Z.of_nat a <=? d) && (d <? Z.of_nat (a + n)))).
  { induction n as [|n IH]; intros a; cbn [seq map zsum foldr].
    - destruct (Z.leb_spec (Z.of_nat a) d), (Z.ltb_spec d (Z.of_nat (a + 0))); simpl; lia.
    - unfold zsum in IH. rewrite IH.
      destruct (Z.eqb_spec d (Z.of_nat a)), (Z.leb_spec (Z.of_nat a) d), (Z.leb_spec (Z.of_nat (S a)) d),
        (Z.ltb_spec d (Z.of_nat (S a + n))), (Z.ltb_spec d (Z.of_nat (a + S n))); simpl; lia. }
  rewrite H. destruct (Z.leb_spec (Z.of_nat 0) d), (Z.ltb_spec d (Z.of_nat (0 + Z.to_nat size))); simpl; lia.
Qed.

Lemma zsum_map_sub {A} (f g : A -> Z) l :
  zsum (map (fun x => f x - g x) l) = zsum (map f l) - zsum (map g l).
Proof. induction l as [|a l IH]; simpl in *; lia. Qed.

Lemma work_deliver m k d s :
  m <= K -> kill_inv size K m [] k -> k_net k !! 0%nat = Some (d, s) ->
  work (k_net (kill_step size k (K_deliver 0))) = work (k_net k) - 1.
Proof.
  intros Hm Hi E. cbn [kill_step]. rewrite E. unfold kill_rpc. cbn [k_tokens k_net k_down].
  assert (Hin : In (d, s) (k_net k)) by by apply list_elem_of_In, (list_elem_of_lookup_2 _ 0).
  destruct (kill_token d s m [] k Hm Hi Hin) as (f & -> & Hf). destruct (Z.eqb_spec f 0); [lia|].
  cbn [k_net]. pose proof (ki_net _ _ _ _ _ Hi d s Hin) as He.
  unfold work. rewrite <- (zsum_indicator d) at 1 by apply He. rewrite <- zsum_map_sub.
  apply zsum_map_ext. intros t Ht%in_all_ranks. rewrite pending_handled by done. cbn [app].
  by rewrite (turns_delete _ _ _ _ E).
Qed.

Lemma work_zero m k : kill_inv size K m [] k -> work (k_net k) <= 0 -> k_net k = [].
Proof.
  intros Hi Hw. destruct (k_net k) as [|[d s] net] eqn:En; [done|exfalso].
  assert (Hin : In (d, s) ([] ++ k_net k)) by (rewrite En; by left).
  pose proof (ki_net _ _ _ _ _ Hi d s Hin) as He. rewrite <- En in Hw.
  pose proof (zsum_member_le (fun t => turns t (k_net k)) (ranks size) d
    (fun t _ => turns_nonneg t _) (proj2 (in_all_ranks size d) (proj1 He))) as H1.
  pose proof (zsum_member_le (fun m => reach d m.1 m.2) (k_net k) (d, s)
    (fun m _ => reach_nonneg d _ _) Hin) as H2. cbn [fst snd] in H2.
  rewrite (reach_self size) in H2 by done. unfold work, turns in *. lia.
Qed.

(** Deliveries end: [n] of them empty a net of work at most [n]. *)
Lemma kill_drain m n : forall k, 0 <= m <= K -> kill_inv size K m [] k -> work (k_net k) <= Z.of_nat n ->
  let k' := kill_run size k (replicate n (K_deliver 0)) in kill_inv size K m [] k' /\ k_net k' = [].
Proof.
  induction n as [|n IH]; intros k Hm Hi Hw; cbn zeta.
  - split; [done|]. by apply (work_zero m).
  - change (kill_run size k (replicate (S n) (K_deliver 0)))
      with (kill_run size (kill_step size k (K_deliver 0)) (replicate n (K_deliver 0))).
    pose proof (kill_step_inv m k (K_deliver 0)) as Hs. cbn [is_request Z.b2z] in Hs.
    rewrite Z.add_0_r in Hs. apply IH; [done|apply Hs; [lia|lia|exact I|done]|].
    destruct (k_net k) as [|[d s] net] eqn:En.
    + cbn [kill_step]. rewrite En. cbn [lookup list_lookup]. rewrite En.
      assert (Hz : work [] = 0) by (apply zsum_map_const0; done). rewrite Hz. lia.
    + rewrite (work_deliver m k d s); [rewrite En; lia|lia|done|by rewrite En].
Qed.

Lemma work_bound m k : 0 <= m -> kill_inv size K m [] k -> work (k_net k) <= m * size.
Proof.
  intros Hm Hi. unfold work.
  assert (H : forall l, (forall t, In t l -> 0 <= t < size) ->
    zsum (map (fun t => turns t (k_net k)) l) <= m * Z.of_nat (length l)).
  { induction l as [|t l IH]; intros Hl; [simpl; lia|]. cbn [map zsum foldr length].
    pose proof (ki_max _ _ _ _ _ Hi t (Hl t (or_introl eq_refl))).
    specialize (IH (fun x Hx => Hl x (or_intror Hx))). unfold zsum in *. simpl in *. lia. }
  etransitivity; [apply H; intros t; apply in_all_ranks|]. unfold ranks. rewrite length_map, length_seq. lia.
Qed.
End kill.

(** C11: While no more clients than [num_apps] ask to stop, in whatever order
    their requests and the servers' messages are handled: no message is ever
    on its way to a server that was destroyed; and when no message is in
    flight all servers hold the same number of tokens, [num_apps] less the
    requests made, and are destroyed exactly if that number is 0. *)
Theorem kill_tokens_agree size K es :
  1 <= size < 2 ^ 30 -> 1 <= K < 2 ^ 31 -> Forall (event_ok size) es -> requests es <= K ->
  let k := kill_run size (kill_init size K) es in
  (forall d s, In (d, s) (k_net k) -> ~ In d (k_down k)) /\
  (k_net k = [] -> forall t, 0 <= t < size ->
     k_tokens k !! Z.to_nat t = Some (K - requests es) /\ (In t (k_down k) <-> requests es = K)).
Proof.
  intros Hs HK Hes Hm k. pose proof (kill_run_inv size K Hs HK es Hes Hm) as Hi. fold k in Hi. split.
  - intros d s Hin [_ Hd]%(ki_down _ _ _ _ _ Hi).
    destruct (kill_token size K d s _ [] k Hm Hi Hin) as (f & Hf & ?). rewrite Hd in Hf. simplify_eq. lia.
  - intros He t Ht. pose proof (ki_tok _ _ _ _ _ Hi t Ht) as H. rewrite He in H.
    unfold turns in H. cbn [map zsum foldr app] in H. rewrite Z.add_0_r in H. split; [done|].
    rewrite (ki_down _ _ _ _ _ Hi t), H. split; [intros [_ ?]; simplify_eq; lia|].
    intros ->. split; [done|]. f_equal. lia.
Qed.

(** C12: Once every client has asked, the messages are used up after at most
    [num_apps * size] deliveries and every server has been destroyed exactly
    once. *)
Theorem kill_reaches_all size K es :
  1 <= size < 2 ^ 30 -> 1 <= K < 2 ^ 31 -> Forall (event_ok size) es -> requests es = K ->
  let k := kill_run size (kill_init size K) (es ++ replicate (Z.to_nat (K * size)) (K_deliver 0)) in
  k_net k = [] /\ k_down k ≡ₚ ranks size.
Proof.
  intros Hs HK Hes Hm k. pose proof (kill_run_inv size K Hs HK es Hes ltac:(lia)) as Hi. rewrite Hm in Hi.
  pose proof (work_bound size K Hs K _ ltac:(lia) Hi) as Hw.
  destruct (kill_drain size K Hs HK K (Z.to_nat (K * size)) _ ltac:(lia) Hi ltac:(lia)) as [Hi' Hn].
  unfold k, kill_run. rewrite fold_left_app. fold (kill_run size (kill_init size K) es).
  match type of Hn with k_net ?x = [] => change (k_net x = [] /\ k_down x ≡ₚ ranks size); set (k' := x) in * end.
  split; [done|]. apply NoDup_Permutation; [apply Hi'| |].
  - apply NoDup_fmap_2; [intros ???; lia|]. apply NoDup_ListNoDup, seq_NoDup.
  - intros t. rewrite !list_elem_of_In, in_all_ranks, (ki_down _ _ _ _ _ Hi' t).
    split; [tauto|]. intros Ht. split; [done|]. rewrite (ki_tok _ _ _ _ _ Hi' t Ht), Hn.
    unfold turns. simpl. f_equal. lia.
Qed.

Lemma kill_tokens_agree_witness :
  let es := [K_request 4; K_deliver 0; K_request 2] ++ replicate 8 (K_deliver 1) ++ replicate 4 (K_deliver 0) in
  let k := kill_run 6 (kill_init 6 3) es in
  requests es = 2 /\ k_net k = [] /\ forall t, 0 <= t < 6 -> k_tokens k !! Z.to_nat t = Some 1.
Proof.
  intros es k. split; [reflexivity|]. split; [vm_compute; reflexivity|].
  assert (Hes : Forall (event_ok 6) es) by (unfold es; repeat constructor; simpl; lia).
  destruct (kill_tokens_agree 6 3 es ltac:(lia) ltac:(lia) Hes ltac:(vm_compute; discriminate)) as [_ H].
  intros t Ht. destruct (H ltac:(vm_compute; reflexivity) t Ht) as [H' _]. exact H'.
Defined.

Lemma kill_reaches_all_witness :
  let es := [K_request 4; K_deliver 0; K_request 2] in
  requests es = 2 /\
  k_down (kill_run 6 (kill_init 6 2) (es ++ replicate 12 (K_deliver 0))) ≡ₚ [0; 1; 2; 3; 4; 5].
Proof.
  intros es. split; [reflexivity|].
  assert (Hes : Forall (event_ok 6) es) by (unfold es; repeat constructor; simpl; lia).
  destruct (kill_reaches_all 6 2 es ltac:(lia) ltac:(lia) Hes eq_refl) as [_ H]. exact H.
Defined.

(** ** Registrations *)

Lemma reg_targets size rank : 2 <= size < 2 ^ 30 -> 0 <= rank < size -> ibcast_targets size rank (-1) <> [].
Proof.
  intros Hs Hr. rewrite (ibcast_targets_eq size ltac:(lia) _ _ (edge_client size rank Hr)).
  destruct (Z.ltb_spec 0 rank); [done|].
  destruct (Z.eqb_spec (2 * rank + 1) (-1)), (Z.ltb_spec (2 * rank + 1) size); done || lia.
Qed.

Definition reg_deliver_n (size : Z) (n : nat) (s : reg_state) : reg_state := Nat.iter n (reg_deliver size) s.

(** The ids handed out so far. *)
Definition reg_ids (s : reg_state) : Z := zsum (r_next s).

(** No counter exceeds [b]; everything in flight looks like a client's
    request. *)
Record reg_inv (size b : Z) (s : reg_state) : Prop := {
  ri_len : length (r_next s) = Z.to_nat size;
  ri_next : forall i x, r_next s !! i = Some x -> 0 <= x <= b;
  ri_net : forall d src, In (d, src) (r_net s) -> 0 <= d < size /\ src = -1
}.

Lemma reg_rpc_inv size b rank s :
  2 <= size < 2 ^ 30 -> 0 <= rank < size -> 0 <= b < 2 ^ 31 - 1 -> reg_inv size b s ->
  let s' := reg_rpc size rank (-1) s in
  reg_inv size (b + 1) s' /\ r_net s' <> [] /\ reg_ids s' = reg_ids s + 1.
Proof.
  intros Hs Hr Hb [Hl Hx Hn]. unfold reg_rpc. change (-1 =? -1) with true.
  cbn [r_next r_net]. split_and!; [split; cbn [r_next r_net]| |].
  - by rewrite length_alter.
  - intros i x. rewrite list_lookup_alter. destruct (decide _) as [->|]; [|intros Hy%Hx; lia].
    intros (y & -> & Hy%Hx)%fmap_Some_1 || intros (y & Hy%Hx & ->)%fmap_Some_1.
    rewrite i32_small by lia. lia.
  - intros d src [?|(t & Ht & Hin)%in_map_iff]%in_app_or; [by apply Hn|]. simplify_eq.
    destruct (ibcast_targets_edge size ltac:(lia) rank (-1) d (edge_client size rank Hr) Hin) as ([? _] & _).
    done.
  - pose proof (reg_targets size rank Hs Hr). by destruct (ibcast_targets size rank (-1)), (r_net s).
  - unfold reg_ids. cbn [r_next].
    destruct (lookup_lt_is_Some_2 (r_next s) (Z.to_nat rank)) as [x E]; [lia|]. specialize (Hx _ _ E).
    pose proof (zsum_map_alter (fun x => x) (fun n => i32 (n + 1)) _ _ x E) as H.
    rewrite !map_id, i32_small in H by lia. lia.
Qed.

(** Registering a function at any of two or more servers does not end:
    [reg_rpc] forwards the request as one from a client, so however many
    deliveries follow there is another one in flight, and, as long as no
    counter can wrap, each has taken a fresh id. *)
Theorem reg_rpc_floods size rank n :
  2 <= size < 2 ^ 30 -> 0 <= rank < size -> Z.of_nat n < 2 ^ 31 - 1 ->
  let s := reg_deliver_n size n (reg_rpc size rank (-1) (mkRegState (replicate (Z.to_nat size) 0) [])) in
  r_net s <> [] /\ reg_ids s = Z.of_nat n + 1.
Proof.
  intros Hs Hr Hn s.
  enough (H : reg_inv size (Z.of_nat n + 1) s /\ r_net s <> [] /\ reg_ids s = Z.of_nat n + 1) by apply H.
  subst s. induction n as [|n IH].
  - cbn [reg_deliver_n Nat.iter nat_rect]. set (s0 := mkRegState _ _).
    assert (H0 : reg_ids s0 = 0).
    { unfold reg_ids, s0. cbn [r_next]. rewrite <- (map_id (replicate _ _)). apply zsum_map_const0.
      intros x Hx%list_elem_of_In. by apply elem_of_replicate in Hx as [-> _]. }
    change (Z.of_nat 0) with 0. rewrite <- H0 at 2. apply reg_rpc_inv; try lia. split.
    + apply length_replicate.
    + intros i x [-> _]%lookup_replicate. lia.
    + done.
  - destruct IH as (Hi & Hne & Hid); [lia|].
    change (reg_deliver_n size (S n) ?x) with (reg_deliver size (reg_deliver_n size n x)).
    set (s := reg_deliver_n size n _) in *. unfold reg_deliver.
    destruct (r_net s) as [|[d src] net] eqn:En; [done|].
    destruct (ri_net _ _ _ Hi d src) as [Hd ->]; [rewrite En; by left|].
    rewrite Nat2Z.inj_succ. unfold Z.succ. rewrite <- Hid at 2.
    change (reg_ids s) with (reg_ids (mkRegState (r_next s) net)).
    apply (reg_rpc_inv size (Z.of_nat n + 1)); try lia.
    destruct Hi as [H1 H2 H3]. split; cbn [r_next r_net]; try done.
    intros d' s' Hin. apply H3. rewrite En. by right.
Qed.

Lemma reg_rpc_floods_witness :
  let s := reg_deliver_n 3 50 (reg_rpc 3 1 (-1) (mkRegState [0; 0; 0] [])) in
  r_net s <> [] /\ reg_ids s = 51.
Proof. exact (reg_rpc_floods 3 1 50 ltac:(lia) ltac:(lia) ltac:(lia)). Defined.
