(* ===== verification/Access.v ===== *)
(** * Access: reading back what was stored

    The two ends of a data transfer on one server: [put_rpc] and the requests
    that follow it on one side, [get_rpc] on the other (all of
    [src/src/dspaces-server.c]).  The main result is that a region of a stored
    object can be read, byte for byte, as long as nothing stored since
    overlaps the object. *)

From S2P Require Import Prelude BBox ObjDesc Linear Sspace DhtEntry StrHash LocalStorage Matrix Codec Modules Server.

(** ** Requests *)

(** The requests one server handles, the queries of other servers among
    them. *)
Inductive request :=
| R_put (odsc : obj_descriptor) (gdim : global_dimension) (data : option (list Z))
| R_put_local (odsc : obj_descriptor) (gdim : global_dimension)
| R_update (u : update)
| R_drain (reply : Z * list Z)
| R_internal (q : obj_descriptor) (gdim : global_dimension) (timeout : Z)
| R_query (q : obj_descriptor) (gdim : global_dimension) (timeout : Z)
| R_put_meta (name : string) (version : Z) (data : option (list Z)).

Section Access.
Context `{E : Env}.

Definition serve (sv : server) (r : request) : option server :=
  match r with
  | R_put o gd data => '(sv, _, _) ← put_rpc sv o gd data; Some sv
  | R_put_local o gd => '(sv, _, _) ← put_local_rpc sv o gd; Some sv
  | R_update u => obj_update_rpc sv u
  | R_drain reply => r ← drain_step sv reply; Some (match r with Some (sv, _) => sv | None => sv end)
  | R_internal q gd timeout => '(sv, _, _) ← odsc_internal_rpc sv q gd timeout; Some sv
  | R_query q gd timeout => '(sv, _, _) ← start_query sv q gd timeout; Some sv
  | R_put_meta name version data => '(sv, _) ← put_meta_rpc sv name version data; Some sv
  end.

Definition serve_all (sv : server) (rs : list request) : option server :=
  foldl (fun sv r => sv ← sv; serve sv r) (Some sv) rs.

(** ** Handlers that leave the store alone *)

(** The parts of a server that only storing requests change. *)
Record same_store (sv sv' : server) : Prop := {
  ss_ls : sv_ls sv' = sv_ls sv;
  ss_drain : sv_drain sv' = sv_drain sv;
  ss_mods : sv_mods sv' = sv_mods sv;
  ss_remotes : sv_remotes sv' = sv_remotes sv;
  ss_next : (sv_next sv <= sv_next sv')%nat
}.

#[local] Instance same_store_preorder : PreOrder same_store.
Proof.
  split; [by split|]. intros x y z [] []. split; try congruence. lia.
Qed.

Lemma same_store_dht sv ref de : same_store sv (set_space_dht sv ref de).
Proof. by destruct ref. Qed.

Lemma same_store_cache sv c : same_store sv (set_cache c sv).
Proof. by split. Qed.

Lemma same_store_bump sv : same_store sv (bump sv).
Proof. split; try done. simpl. lia. Qed.

Lemma lookup_sspace_store sv gd sv' ref : lookup_sspace sv gd = Some (sv', ref) -> same_store sv sv'.
Proof.
  unfold lookup_sspace. destruct (global_dimension_equal _ _); [by intros [= <- <-]|].
  destruct (find_space _ _ _); [by intros [= <- <-]|]. destruct (make_space _ _ _ _ _); [|done].
  intros [= <- <-]. split; try done. simpl. lia.
Qed.

Lemma local_update_store sv ref o type sv' :
  obj_update_local_dht sv ref o type = Some sv' -> same_store sv sv'.
Proof.
  unfold obj_update_local_dht. destruct (get_space sv ref); [|done]. intros [= <-]. apply same_store_dht.
Qed.

Lemma update_peers_store ref o gd type tab : forall sv sv' out,
  update_peers sv ref o gd type tab = Some (sv', out) -> same_store sv sv'.
Proof.
  induction tab as [|p tab IH]; intros sv sv' out H; cbn [update_peers] in H; [by simplify_eq|].
  destruct (ptr_rank p =? sv_rank sv)%nat.
  - destruct (obj_update_local_dht sv ref o type) as [sv1|] eqn:E1; [|done].
    transitivity sv1; [by eapply local_update_store|by eapply IH].
  - destruct (update_peers sv ref o gd type tab) as [[sv1 out1]|] eqn:E1; [|done].
    simplify_option_eq. by eapply IH.
Qed.

Lemma update_dht_store sv o gd type sv' out :
  obj_update_dht sv o gd type = Some (sv', out) -> same_store sv sv'.
Proof.
  unfold obj_update_dht. destruct (lookup_sspace sv gd) as [[sv1 ref]|] eqn:E1; [|done]. cbn [mbind option_bind].
  destruct (get_space sv1 ref); [|done]. cbn [mbind option_bind].
  destruct (ssd_hash _ _ _ _) as [[tab c]|]; [|done]. cbn [mbind option_bind]. intros H.
  transitivity sv1; [by eapply lookup_sspace_store|].
  transitivity (set_cache c sv1); [apply same_store_cache|].
  destruct tab as [|p tab]; [|by eapply update_peers_store].
  destruct (obj_update_local_dht _ _ _ _) eqn:E2; [|done]. simplify_option_eq. by eapply local_update_store.
Qed.

Lemma obj_update_rpc_store sv u sv' : obj_update_rpc sv u = Some sv' -> same_store sv sv'.
Proof.
  unfold obj_update_rpc. destruct (lookup_sspace sv _) as [[sv1 ref]|] eqn:E1; [|done]. cbn [mbind option_bind].
  intros H. transitivity sv1; [by eapply lookup_sspace_store|by eapply local_update_store].
Qed.

Lemma answer_local_store sv ref q timeout sv' a :
  answer_local sv ref q timeout = Some (sv', a) -> same_store sv sv'.
Proof.
  unfold answer_local, find_local. destruct (get_space sv ref) as [sp|]; [|done]. cbn [mbind option_bind].
  destruct (dht_find_entry_all _ _ _ _) as [de r]. cbn [mbind option_bind].
  set (sv1 := set_space_dht sv ref de). assert (H1 : same_store sv sv1) by apply same_store_dht.
  destruct r as [tab|tab id].
  - destruct (get_space sv1 ref); [|done]. cbn [mbind option_bind].
    destruct (deref_tab _ _ _); [|done]. cbn [mbind option_bind]. by intros [= <- <-].
  - intros [= <- <-]. transitivity sv1; [done|apply same_store_bump].
Qed.

Lemma route_request_none sv q gd : sv_mods sv = [] -> route_request sv q gd = Some (sv, q, []).
Proof. unfold route_request, dspaces_mod_by_od. by intros ->. Qed.

Lemma internal_store sv q gd timeout sv' out a : sv_mods sv = [] ->
  odsc_internal_rpc sv q gd timeout = Some (sv', out, a) -> same_store sv sv'.
Proof.
  intros Hm. unfold odsc_internal_rpc. destruct (lookup_sspace sv gd) as [[sv1 ref]|] eqn:E1; [|done].
  apply lookup_sspace_store in E1. cbn [mbind option_bind].
  rewrite route_request_none by (rewrite (ss_mods _ _ E1); done). cbn [mbind option_bind].
  destruct (answer_local sv1 ref q timeout) as [[sv2 a']|] eqn:E2; [|done]. cbn [mbind option_bind].
  intros [= <- <- <-]. transitivity sv1; [done|by eapply answer_local_store].
Qed.

Lemma start_query_store sv q gd timeout sv' out a : sv_mods sv = [] -> sv_remotes sv = [] ->
  start_query sv q gd timeout = Some (sv', out, a) -> same_store sv sv'.
Proof.
  intros Hm Hr. unfold start_query, local_responsibility. rewrite Hr. cbn [negb].
  destruct (lookup_sspace sv gd) as [[sv1 ref]|] eqn:E1; [|done].
  apply lookup_sspace_store in E1. cbn [mbind option_bind].
  destruct (get_space sv1 ref); [|done]. cbn [mbind option_bind].
  destruct (ssd_hash _ _ _ _) as [[tab c]|]; [|done]. cbn [mbind option_bind].
  assert (H2 : same_store sv (set_cache c sv1)) by (transitivity sv1; [done|apply same_store_cache]).
  destruct (match tab with [] => _ | _ => _ end) as [i|]; [|by intros [= <- <- <-]].
  rewrite route_request_none by (rewrite (ss_mods _ _ H2); done). cbn [mbind option_bind].
  destruct (answer_local _ ref q timeout) as [[sv2 a']|] eqn:E2; [|done]. cbn [mbind option_bind].
  intros [= <- <- <-]. transitivity (set_cache c sv1); [done|by eapply answer_local_store].
Qed.

(** ** A stored object stays *)

Lemma find_filter_keep {A} (P Q : A -> bool) l x :
  find P l = Some x -> Q x = true -> find P (List.filter Q l) = Some x.
Proof.
  induction l as [|a l IH]; cbn [find List.filter]; [done|]. intros H HQ.
  destruct (P a) eqn:Ea.
  - injection H as ->. rewrite HQ. cbn [find]. by rewrite Ea.
  - destruct (Q a); cbn [find]; [rewrite Ea|]; by apply IH.
Qed.

Lemma find_map_keep {A} (P : A -> bool) (f : A -> A) l x :
  (forall y, P (f y) = P y) -> find P l = Some x -> f x = x -> find P (map f l) = Some x.
Proof.
  intros HP. induction l as [|a l IH]; cbn [find map]; [done|]. rewrite HP. intros H Hx.
  destruct (P a); [by injection H as ->; rewrite Hx|by apply IH].
Qed.

Lemma ls_find_in ls q d : ls_find ls q = Some d -> In d (obj_bin ls (obj_index ls q)).
Proof. unfold ls_find. by intros [H _]%find_some. Qed.

(** Adding an object that does not match the query and does not evict what
    the query finds. *)
Lemma ls_find_add_keep ls x q d :
  ls_inv ls -> ls_find ls q = Some d -> obj_desc_equals_intersect q (obj_desc x) = false ->
  obj_index ls (obj_desc x) <> obj_index ls q \/
    obj_desc_by_name_intersect (obj_desc x) (obj_desc d) = false ->
  ls_find (ls_add_obj ls x) q = Some d.
Proof.
  intros Hi Hf Hq Hx. pose proof (ls_find_in _ _ _ Hf) as Hin. unfold ls_find in Hf |- *.
  rewrite index_add_obj. pose proof (obj_index_lt ls (obj_desc x) Hi) as Hlt.
  destruct (decide (obj_index ls (obj_desc x) = obj_index ls q)) as [Ei|Ei].
  - destruct Hx as [Hx|Hx]; [done|]. rewrite <- Ei in *. rewrite obj_bin_add by done. cbn [find]. rewrite Hq.
    unfold bin_evicted. destruct (ls_find_no_version ls (obj_desc x)) as [e|] eqn:Ee; [|done].
    apply ls_find_no_version_in in Ee as [He Hei].
    assert (Hne : ob_id d <> ob_id e).
    { intros Hid. assert (d = e) as ->; [|congruence].
      by apply (NoDup_ids_eq _ _ _ (NoDup_bin_ids ls (obj_index ls (obj_desc x)) Hi)). }
    destruct (refcnt e =? 0).
    + apply find_filter_keep; [done|]. by destruct (Nat.eqb_spec (ob_id d) (ob_id e)).
    + apply find_map_keep; [|done|by destruct (Nat.eqb_spec (ob_id d) (ob_id e))].
      intros y. by destruct (ob_id y =? ob_id e)%nat.
  - rewrite ls_add_obj_eq by done. unfold obj_bin, set_objs. cbn [obj_hash]. rewrite nth_alter.
    case_decide; [lia|done].
Qed.

Lemma ls_find_add_new ls x q :
  ls_inv ls -> obj_index ls q = obj_index ls (obj_desc x) ->
  obj_desc_equals_intersect q (obj_desc x) = true -> ls_find (ls_add_obj ls x) q = Some x.
Proof.
  intros Hi Ei Hq. unfold ls_find. rewrite index_add_obj, Ei, obj_bin_add by done. cbn [find]. by rewrite Hq.
Qed.

Section Stored.
Context (d : obj_data) (mv : Z).

(** A descriptor that asks for a region of [d]. *)
Definition within (q : obj_descriptor) : Prop :=
  od_name q = od_name (obj_desc d) /\ od_version q = od_version (obj_desc d) /\
  num_dims (od_bb q) = num_dims (od_bb (obj_desc d)) /\ valid_box (od_bb q) /\
  forall i, (i < num_dims (od_bb q))%nat ->
    cget (lb (od_bb (obj_desc d))) i <= cget (lb (od_bb q)) i /\
    cget (ub (od_bb q)) i <= cget (ub (od_bb (obj_desc d))) i.

(** An object whose arrival leaves [d] alone: in another bin, of another
    variable, or elsewhere in space. *)
Definition harmless (o : obj_descriptor) : Prop :=
  od_version o mod mv <> od_version (obj_desc d) mod mv \/
  od_name o <> od_name (obj_desc d) \/
  num_dims (od_bb o) = num_dims (od_bb (obj_desc d)) /\
  bbox_does_intersect (od_bb o) (od_bb (obj_desc d)) = false.

(** [sv] has [d] where queries find it. *)
Record holds (sv : server) : Prop := {
  h_inv : ls_inv (sv_ls sv);
  h_mv : size_hash (sv_ls sv) = mv;
  h_ids : forall x, In x (all_objs (sv_ls sv)) -> (ob_id x < sv_next sv)%nat;
  h_find : forall q, within q -> ls_find (sv_ls sv) q = Some d;
  h_mods : sv_mods sv = [];
  h_remotes : sv_remotes sv = [];
  h_drain : Forall harmless (sv_drain sv)
}.

Lemma within_match q : within q -> obj_desc_equals_intersect q (obj_desc d) = true.
Proof.
  intros (Hn & Hv & Hd & [Hw Hle] & Hb). apply obj_desc_equals_intersect_spec. split_and!; [done..|].
  unfold bbox_does_intersect. apply for_all_true. intros i Hi. apply bbox_intersect_ondim_spec.
  specialize (Hb i Hi). specialize (Hle i Hi). lia.
Qed.

Lemma within_apart q o :
  within q -> num_dims (od_bb o) = num_dims (od_bb (obj_desc d)) ->
  bbox_does_intersect (od_bb o) (od_bb (obj_desc d)) = false ->
  bbox_does_intersect (od_bb q) (od_bb o) = false.
Proof.
  intros (Hn & Hv & Hd & [Hw Hle] & Hb) Ho Hf. apply not_true_is_false. intros Ht.
  apply not_true_iff_false in Hf. apply Hf. unfold bbox_does_intersect in *.
  rewrite for_all_true in *. intros i Hi. specialize (Hb i ltac:(lia)). specialize (Hle i ltac:(lia)).
  specialize (Ht i ltac:(lia)). rewrite bbox_intersect_ondim_spec in *. lia.
Qed.

Lemma harmless_owner o w : harmless o -> harmless (set_owner w o).
Proof. done. Qed.

Lemma holds_same sv sv' : holds sv -> same_store sv sv' -> holds sv'.
Proof.
  intros [] [El Ed Em Er En]. split; rewrite ?El, ?Ed, ?Em, ?Er; try done.
  intros x Hx. specialize (h_ids0 x Hx). lia.
Qed.

Lemma holds_set_drain sv l : holds sv -> Forall harmless l -> holds (set_drain l sv).
Proof. intros [] Hl. by split. Qed.

Lemma fresh_next sv : (forall x, In x (all_objs (sv_ls sv)) -> (ob_id x < sv_next sv)%nat) ->
  ~ In (sv_next sv) (map ob_id (all_objs (sv_ls sv))).
Proof. intros H (x & Hid & Hx)%in_map_iff. specialize (H x Hx). lia. Qed.

Lemma store_ids sv o gd data :
  ls_inv (sv_ls sv) -> (forall x, In x (all_objs (sv_ls sv)) -> (ob_id x < sv_next sv)%nat) ->
  forall x, In x (all_objs (sv_ls (store_obj sv o gd data))) -> (ob_id x < S (sv_next sv))%nat.
Proof.
  intros Hi H x Hx. cbn [store_obj bump set_stores sv_ls] in Hx.
  destruct (all_objs_add (sv_ls sv) (mkObj (sv_next sv) o gd data 0 false) Hi) as (l1 & l2 & E1 & E2).
  rewrite E2 in Hx. rewrite !in_app_iff in Hx. cbn [In] in Hx.
  assert (Hold : forall y, In y (all_objs (sv_ls sv)) -> ob_id y = ob_id x -> (ob_id x < S (sv_next sv))%nat).
  { intros y Hy <-. specialize (H y Hy). lia. }
  rewrite E1 in Hold. destruct Hx as [Hx|[[<-|Hx]|Hx]]; [| simpl; lia | |].
  - apply (Hold x); [|done]. rewrite !in_app_iff. auto.
  - apply in_bin_evicted in Hx as (y & Hy & _ & Hid). apply (Hold y); [|done]. rewrite !in_app_iff. auto.
  - apply (Hold x); [|done]. rewrite !in_app_iff. auto.
Qed.

Lemma holds_store sv o gd data : holds sv -> harmless o -> holds (store_obj sv o gd data).
Proof.
  intros Hh Ho. pose proof Hh as []. set (x := mkObj (sv_next sv) o gd data 0 false).
  assert (Hmod : forall a, obj_index (sv_ls sv) a = Z.to_nat (od_version a mod mv))
    by (intros a; unfold obj_index; by rewrite h_mv0).
  assert (Hmv : 0 < mv) by (rewrite <- h_mv0; apply h_inv0).
  split; cbn [store_obj bump set_stores sv_ls sv_next sv_mods sv_remotes sv_drain]; fold x; try done.
  - apply ls_add_obj_inv; [done|]. by apply fresh_next.
  - rewrite <- h_mv0. by rewrite ls_add_obj_eq by done.
  - by apply store_ids.
  - intros q Hq. pose proof Hq as (Hn & Hv & Hd & _).
    apply ls_find_add_keep; [done|by apply h_find0| |]; cbn [obj_desc x].
    + apply not_true_is_false. intros (En & Ev & Ei)%obj_desc_equals_intersect_spec.
      destruct Ho as [Ho|[Ho|[Ho1 Ho2]]]; [congruence|congruence|].
      by rewrite (within_apart q o Hq Ho1 Ho2) in Ei.
    + destruct Ho as [Ho|[Ho|[Ho1 Ho2]]].
      * left. rewrite !Hmod, Hv. intros E'. apply Ho. apply Z2Nat.inj in E'; [done| |]; by apply Z.mod_pos_bound.
      * right. unfold obj_desc_by_name_intersect. by destruct (String.eqb_spec (od_name o) (od_name (obj_desc d))).
      * right. unfold obj_desc_by_name_intersect. rewrite Ho2. apply andb_false_r.
Qed.

(** A request that leaves [d] alone; metadata versions fit an [int]. *)
Definition undisturbing (r : request) : Prop :=
  match r with
  | R_put o _ _ => harmless o
  | R_put_local o _ => harmless o
  | R_put_meta _ version _ => version_ok (u32 version)
  | _ => True
  end.

Lemma serve_holds sv r sv' :
  holds sv -> undisturbing r -> serve sv r = Some sv' -> holds sv'.
Proof.
  intros Hh Hb. destruct r as [o gd data|o gd|u|reply|q gd timeout|q gd timeout|name version data];
    cbn [serve undisturbing] in *; intros H.
  - unfold put_rpc in H. destruct (obj_data_alloc _ _) as [od|]; [|done]. cbn [mbind option_bind] in H.
    destruct data as [data|]; [|by simplify_option_eq].
    destruct (bulk_write _ _ _) as [data'|]; [|done]. cbn [mbind option_bind] in H.
    destruct (obj_update_dht _ _ _ _) as [[sv1 out]|] eqn:E1; [|done]. simplify_option_eq.
    apply update_dht_store in E1. eapply holds_same; [|exact E1]. apply holds_store; [done|].
    by apply harmless_owner.
  - unfold put_local_rpc in H. destruct (obj_update_dht _ _ _ _) as [[sv1 out]|] eqn:E1; [|done].
    simplify_option_eq. apply update_dht_store in E1. pose proof (holds_same _ _ Hh E1) as Hh1.
    apply holds_set_drain; [done|]. apply Forall_app_2; [apply Hh1|by apply Forall_singleton].
  - apply obj_update_rpc_store in H. by eapply holds_same.
  - unfold drain_step in H. destruct (sv_drain sv) as [|o l] eqn:Ed; [by simplify_option_eq|].
    pose proof (h_drain _ Hh) as Hd. rewrite Ed in Hd. apply Forall_cons in Hd as [Ho Hl].
    unfold get_client_data in H. set (sv0 := set_drain l sv) in H.
    assert (H0 : holds sv0) by (by apply holds_set_drain).
    destruct (obj_data_alloc _ _) as [od|]; [|done]. cbn [mbind option_bind] in H.
    destruct (bulk_write _ _ _) as [data|]; [|done]. cbn [mbind option_bind] in H.
    set (sv1 := if fst reply =? dspaces_SUCCESS then store_obj sv0 (set_owner (sv_addr sv0) o) zero_gdim data else sv0) in H.
    assert (H1 : holds sv1) by (unfold sv1; destruct (fst reply =? _); [by apply holds_store|done]).
    destruct (obj_update_dht sv1 _ _ _) as [[sv2 out]|] eqn:E1; [|done]. simplify_option_eq.
    apply update_dht_store in E1. pose proof (holds_same _ _ H1 E1) as H2.
    destruct (fst reply =? _); [done|]. apply holds_set_drain; [done|].
    apply Forall_app_2; [apply H2|by apply Forall_singleton].
  - destruct (odsc_internal_rpc _ _ _ _) as [[[sv1 out] a]|] eqn:E1; [|done]. simplify_option_eq.
    apply internal_store in E1; [by eapply holds_same|apply Hh].
  - destruct (start_query _ _ _ _) as [[[sv1 out] a]|] eqn:E1; [|done]. simplify_option_eq.
    apply start_query_store in E1; [by eapply holds_same|apply Hh..].
  - unfold put_meta_rpc in H. destruct data as [data|]; [|by simplify_option_eq].
    set (m := mkMeta _ _ _ _) in H. pose proof Hh as [].
    destruct (ls_add_meta_spec (sv_ls sv) m h_inv0 Hb) as [(m0 & _ & _ & _ & E1)|[Hnew E1]];
      rewrite E1 in H; simplify_option_eq.
    + eapply holds_same; [exact Hh|]. split; try done. simpl. lia.
    + pose proof (meta_added_inv (sv_ls sv) m h_inv0 Hb Hnew) as Hi.
      split; cbn [bump set_stores sv_ls sv_next sv_mods sv_remotes sv_drain]; try done.
      intros x Hx. specialize (h_ids0 x Hx). lia.
Qed.

Lemma serve_all_none rs : foldl (fun sv r => sv ← sv; serve sv r) None rs = None.
Proof. by induction rs. Qed.

Lemma serve_all_holds rs : forall sv sv',
  holds sv -> Forall undisturbing rs -> serve_all sv rs = Some sv' -> holds sv'.
Proof.
  induction rs as [|r rs IH]; intros sv sv' Hh Hr H; unfold serve_all in H; cbn [foldl] in H.
  - by simplify_eq.
  - apply Forall_cons in Hr as [Hr Hrs]. cbn [mbind option_bind] in H.
    destruct (serve sv r) as [sv1|] eqn:E1; [|by rewrite serve_all_none in H].
    by eapply IH; [eapply serve_holds| |].
Qed.
End Stored.

(** The object [put_rpc] stores. *)
Definition put_obj (sv : server) (o : obj_descriptor) (gd : global_dimension) (data : list Z) : obj_data :=
  mkObj (sv_next sv) (odsc_take_ownership sv o) gd data 0 false.

(** A server without modules and remotes whose store is well formed. *)
Record plain_server (sv : server) : Prop := {
  ps_inv : ls_inv (sv_ls sv);
  ps_ids : forall x, In x (all_objs (sv_ls sv)) -> (ob_id x < sv_next sv)%nat;
  ps_mods : sv_mods sv = [];
  ps_remotes : sv_remotes sv = []
}.

Lemma put_holds sv o gd data sv1 :
  let d := put_obj sv o gd data in
  let mv := size_hash (sv_ls sv) in
  plain_server sv -> Forall (harmless d mv) (sv_drain sv) ->
  Z.of_nat (length data) = obj_data_size o ->
  serve sv (R_put o gd (Some data)) = Some sv1 -> small_obj o /\ holds d mv sv1.
Proof.
  intros d mv [] Hd Hl H. cbn [serve put_rpc] in H. unfold put_rpc in H.
  destruct (obj_data_alloc _ _) as [od|] eqn:Ea; [|done]. cbn [mbind option_bind] in H.
  destruct (bulk_write _ _ _) as [data'|] eqn:Eb; [|done]. cbn [mbind option_bind] in H.
  destruct (bulk_write_full _ _ _ _ _ Ea Eb Hl) as [Hsm ->]. split; [exact Hsm|].
  destruct (obj_update_dht _ _ _ _) as [[sv2 out]|] eqn:E1; [|done]. simplify_option_eq.
  apply update_dht_store in E1. eapply holds_same; [|exact E1].
  split; cbn [store_obj bump set_stores sv_ls sv_next sv_mods sv_remotes sv_drain]; try done.
  - apply ls_add_obj_inv; [done|]. by apply fresh_next.
  - by rewrite ls_add_obj_eq by done.
  - by apply store_ids.
  - intros q Hq. apply ls_find_add_new; [done| |by apply (within_match d)].
    destruct Hq as (_ & Hv & _). unfold obj_index. by rewrite Hv.
Qed.

Lemma copyable_size o data :
  copyable (od_size o) (od_bb o) data -> Z.of_nat (length data) = obj_data_size o.
Proof.
  intros (_ & _ & _ & Hs & Hl & Hb). unfold obj_data_size. rewrite bbox_volume_zvolume, u64_mul_r, u64_small; lia.
Qed.

Lemma within_volume d q :
  within d q -> 0 < zvolume (od_bb q) <= zvolume (od_bb (obj_desc d)).
Proof.
  intros (_ & _ & Hd & [_ Hle] & Hb). unfold zvolume. rewrite <- Hd. split.
  - apply zprod_pos. intros i Hi. specialize (Hle i Hi). unfold side. lia.
  - apply zprod_mono. intros i Hi. specialize (Hle i Hi). specialize (Hb i Hi). unfold side. lia.
Qed.

(** The answer for [buffer], compressed when that is allowed and pays. *)
Definition get_answer (suppress_compression : bool) (buffer : list Z) : Z * list Z :=
  if suppress_compression then (0, buffer)
  else match env_lz4_compress buffer with
       | Some c => (Z.of_nat (length c), c)
       | None => (0, buffer)
       end.

Lemma within_size d q : copyable (od_size (obj_desc d)) (od_bb (obj_desc d)) (ob_data d) ->
  within d q -> od_size q = od_size (obj_desc d) ->
  obj_data_size q = od_size q * zvolume (od_bb q) /\
  forall buffer, Z.of_nat (length buffer) = obj_data_size q -> copyable (od_size q) (od_bb q) buffer.
Proof.
  intros Hcopy Hq Hsize. pose proof (within_volume d q Hq) as Hvol. pose proof Hq as (_ & _ & Hd & Hv & Hb).
  destruct Hcopy as (_ & Hub & Hdim & Hs & Hlen & Hbound). rewrite <- Hsize in *.
  assert (Hds : obj_data_size q = od_size q * zvolume (od_bb q)).
  { unfold obj_data_size. rewrite bbox_volume_zvolume. rewrite u64_mul_r, u64_small; [done|nia]. }
  split; [done|]. intros buffer Hl. split; [done|]. split_and!; try lia; [|nia].
  intros i Hi. specialize (Hb i Hi). specialize (Hub i ltac:(lia)). lia.
Qed.

(** Reading a region of an object that the lookup finds. *)
Lemma get_rpc_found d sv q :
  sv_remotes sv = [] -> ls_find (sv_ls sv) q = Some d -> copyable (od_size (obj_desc d)) (od_bb (obj_desc d)) (ob_data d) ->
  small_obj (obj_desc d) -> within d q -> od_size q = od_size (obj_desc d) ->
  exists buffer, (forall supp, get_rpc sv q supp = Some (get_answer supp buffer)) /\
    Z.of_nat (length buffer) = obj_data_size q /\
    forall p t, in_box p (od_bb q) -> 0 <= t < od_size q ->
      buffer !! Z.to_nat (od_size q * box_pos (od_bb q) p + t)
      = ob_data d !! Z.to_nat (od_size q * box_pos (od_bb (obj_desc d)) p + t).
Proof.
  intros Hrem Hfind Hcopy Hsm Hq Hsize. destruct (within_size d q Hcopy Hq Hsize) as [Hds Hto].
  pose proof (within_volume d q Hq) as Hvol. pose proof (copyable_size _ _ Hcopy) as Hcs.
  assert (Hsmq : small_obj q).
  { unfold small_obj in *. rewrite Hds. rewrite <- Hcs in Hsm. destruct Hcopy as (_ & _ & _ & Hs & -> & _) in Hsm. nia. }
  set (od := mkObj (sv_next sv) q zero_gdim (malloc (Z.to_nat (obj_data_size q))) 0 false).
  pose proof (obj_data_size_range q) as H0.
  assert (Hlod : Z.of_nat (length (ob_data od)) = obj_data_size q).
  { unfold od. cbn [ob_data]. rewrite length_malloc. lia. }
  destruct (ssd_copy_spec od d) as (buf & Hcp & Hl & H).
  - exact (Hto _ Hlod).
  - cbn [od obj_desc]. by rewrite Hsize.
  - by cbn [od obj_desc].
  - destruct Hq as (_ & _ & Hd & _). by cbn [od obj_desc].
  - apply (within_match d) in Hq. by apply obj_desc_equals_intersect_spec in Hq as (_ & _ & ?).
  - exists buf. split; [|split; [lia|]].
    { intros supp. unfold get_rpc. rewrite Hrem, Hfind. cbn [mbind option_bind].
      rewrite (obj_data_alloc_small _ q Hsmq). cbn [mbind option_bind]. fold od. rewrite Hcp.
      cbn [mbind option_bind ob_data].
      replace (Z.to_nat (obj_data_size q)) with (length buf) by lia. rewrite firstn_all, Nat.ltb_irrefl.
      unfold get_answer. destruct supp; [done|]. by destruct (env_lz4_compress buf). }
    intros p t Hp Ht. etransitivity; [exact (H p t Hp Ht)|]. cbn [od obj_desc] in *. rewrite decide_True; [done|].
    destruct Hq as (_ & _ & Hd & _ & Hb). intros i Hi. specialize (Hp i ltac:(lia)). specialize (Hb i ltac:(lia)). lia.
Qed.

(** Reading a region of an object the server holds. *)
Lemma get_rpc_holds d mv sv q :
  holds d mv sv -> copyable (od_size (obj_desc d)) (od_bb (obj_desc d)) (ob_data d) ->
  small_obj (obj_desc d) -> within d q -> od_size q = od_size (obj_desc d) ->
  exists buffer, (forall supp, get_rpc sv q supp = Some (get_answer supp buffer)) /\
    Z.of_nat (length buffer) = obj_data_size q /\
    forall p t, in_box p (od_bb q) -> 0 <= t < od_size q ->
      buffer !! Z.to_nat (od_size q * box_pos (od_bb q) p + t)
      = ob_data d !! Z.to_nat (od_size q * box_pos (od_bb (obj_desc d)) p + t).
Proof. intros [] Hcopy Hsm Hq Hsize. apply get_rpc_found; auto. Qed.

(** C9: A region of an object a client put can be read back byte for byte:
    [get_rpc] at the same server answers with the object's bytes in the
    region's own row-major order, whatever puts, index updates, drains,
    queries and metadata the server handled in between, as long as none of
    them brought an object of the same variable and version bin that
    overlaps it. *)
Theorem put_then_get sv o gd data sv1 rs sv' q :
  let d := put_obj sv o gd data in
  let mv := size_hash (sv_ls sv) in
  plain_server sv -> Forall (harmless d mv) (sv_drain sv) ->
  copyable (od_size o) (od_bb o) data ->
  serve sv (R_put o gd (Some data)) = Some sv1 ->
  Forall (undisturbing d mv) rs -> serve_all sv1 rs = Some sv' ->
  within d q -> od_size q = od_size o ->
  exists buffer, get_rpc sv' q true = Some (0, buffer) /\
    length buffer = Z.to_nat (od_size q * zvolume (od_bb q)) /\
    forall p t, in_box p (od_bb q) -> 0 <= t < od_size q ->
      buffer !! Z.to_nat (od_size q * box_pos (od_bb q) p + t)
      = data !! Z.to_nat (od_size o * box_pos (od_bb o) p + t).
Proof.
  intros d mv Hps Hdrain Hcopy Hput Hrs Hserve Hq Hsize.
  destruct (put_holds sv o gd data sv1 Hps Hdrain (copyable_size _ _ Hcopy) Hput) as [Hsm Hh].
  pose proof (serve_all_holds d mv rs sv1 sv' Hh Hrs Hserve) as Hh'.
  destruct (get_rpc_holds d mv sv' q Hh' Hcopy Hsm Hq Hsize) as (buffer & E1 & E2 & E3).
  destruct (within_size d q Hcopy Hq Hsize) as [Hds _].
  exists buffer. split; [exact (E1 true)|]. split; [lia|]. intros p t Hp Ht. rewrite (E3 p t Hp Ht).
  by rewrite Hsize.
Qed.

(** ** The latest metadata *)

(** Entries of a variable past a version. *)
Definition newer (ls : ss_storage) (name : string) (v : Z) : nat :=
  length (List.filter (fun m => String.eqb (md_name m) name && (v <? md_version m)) (all_meta ls)).

Lemma newer_less ls name v m :
  In m (all_meta ls) -> md_name m = name -> v < md_version m ->
  (newer ls name (md_version m) < newer ls name v)%nat.
Proof.
  intros Hin Hn Hv. unfold newer. induction (all_meta ls) as [|x l IH]; [done|]. cbn [List.filter].
  assert (Hmono : (length (List.filter (fun x => String.eqb (md_name x) name && (md_version m <? md_version x)%Z) l)
    <= length (List.filter (fun x => String.eqb (md_name x) name && (v <? md_version x)%Z) l))%nat).
  { clear IH Hin. induction l as [|y l IH]; [done|]. cbn [List.filter].
    destruct (String.eqb (md_name y) name), (Z.ltb_spec (md_version m) (md_version y)),
      (Z.ltb_spec v (md_version y)); simpl; lia. }
  destruct Hin as [->|Hin].
  - rewrite <- Hn, String.eqb_refl in *. destruct (Z.ltb_spec (md_version m) (md_version m)), (Z.ltb_spec v (md_version m));
      simpl in *; lia.
  - specialize (IH Hin). destruct (String.eqb (md_name x) name), (Z.ltb_spec (md_version m) (md_version x)),
      (Z.ltb_spec v (md_version x)); simpl; lia.
Qed.

(** No entry of the variable is newer than [m]. *)
Definition latest (ls : ss_storage) (name : string) (m : meta_data) : Prop :=
  In m (all_meta ls) /\ md_name m = name /\
  forall m', In m' (all_meta ls) -> md_name m' = name -> md_version m' <= md_version m.

Lemma last_loop_latest ls name fuel : forall m,
  ls_inv ls -> In m (all_meta ls) -> md_name m = name ->
  (forall x, In x (all_meta ls) -> md_version x + size_hash ls < 2 ^ 31) ->
  (newer ls name (md_version m) < fuel)%nat ->
  exists m', last_loop fuel ls name m = Some m' /\ latest ls name m'.
Proof.
  induction fuel as [|f IH]; intros m Hi Hin Hn Hmax Hf; [lia|]. cbn [last_loop].
  assert (Hv : version_ok (md_version m)) by (apply (li_meta_bins _ Hi _ _ (proj1 (meta_in_bin ls m Hi) Hin))).
  rewrite version_ok_i32 by done. destruct Hv as [Hv0 Hv1].
  destruct (find_next_spec ls name (md_version m) false 0 Hi ltac:(lia) (Hmax m Hin)) as (r & Hb & ->).
  destruct r as [m'|]; cbn [mbind option_bind].
  - destruct Hb as (H1 & H2 & H3 & _). apply IH; [done..|].
    pose proof (newer_less ls name (md_version m) m' H1 H2 H3). lia.
  - exists m. split; [done|]. split; [done|]. split; [done|].
    intros m' Hin' Hn'. apply Z.nlt_ge. intros Hlt. by apply (Hb m').
Qed.

(** A metadata query in mode [META_MODE_LAST] on a variable with an entry
    above the given version returns its entry of greatest version, after as
    many rounds as there are entries at most; without such an entry it
    waits. *)
Theorem query_meta_last_greatest fuel sv name version :
  ls_inv (sv_ls sv) -> -1 <= version -> version + size_hash (sv_ls sv) < 2 ^ 31 ->
  (forall x, In x (all_meta (sv_ls sv)) -> md_version x + size_hash (sv_ls sv) < 2 ^ 31) -> (length (all_meta (sv_ls sv)) < fuel)%nat ->
  ((exists m, In m (all_meta (sv_ls sv)) /\ md_name m = name /\ version < md_version m) ->
   exists m, query_meta_local fuel sv META_MODE_LAST name version = Some (sv_ls sv, MR_done (Some m)) /\
     latest (sv_ls sv) name m) /\
  ((forall m, In m (all_meta (sv_ls sv)) -> md_name m = name -> md_version m <= version) ->
   query_meta_local fuel sv META_MODE_LAST name version
   = Some (ls_subscribe_meta_no_version (sv_ls sv) name (sv_next sv), MR_wait (sv_next sv))).
Proof.
  intros Hi Hv Hmax Hall Hf. unfold query_meta_local.
  destruct (find_next_spec (sv_ls sv) name version true (sv_next sv) Hi Hv Hmax) as (r & Hb & ->).
  destruct r as [m|]; cbn [mbind option_bind]; (split; [intros (x & Hx & Hn & Hlt)|intros Hnone]).
  - destruct Hb as (H1 & H2 & H3 & _).
    destruct (last_loop_latest (sv_ls sv) name fuel m Hi H1 H2 Hall) as (m' & -> & Hl); [|by exists m'].
    unfold newer. pose proof (List.filter_length_le
      (fun x => String.eqb (md_name x) name && (md_version m <? md_version x)) (all_meta (sv_ls sv))). lia.
  - destruct Hb as (H1 & H2 & H3 & _). specialize (Hnone m H1 H2). lia.
  - by destruct (Hb x).
  - done.
Qed.
End Access.

(** ** A concrete run *)

#[local] Instance read_env : Env := {
  env_fuel := 0;
  env_dim := 0;
  env_coord := zero_coord;
  env_malloc n := replicate n 0;
  env_py_exec _ _ _ := None;
  env_remote_get _ _ _ := None;
  env_lz4_compress _ := None
}.

Definition read_conf : ds_conf := mkConf 2 (4 :: 3 :: replicate 8 0) 2 ssd_hash_version_v2.
Definition read_gdim : global_dimension := mkGdim 2 (4 :: 3 :: replicate 8 0).
Definition read_odsc (version : Z) (b : bbox) : obj_descriptor := mkOdsc "t" row_major 0 0 0 "" version b 1.
Definition read_server : option server := dsg_alloc 0 1 "addr" read_conf [] [] 1.
Definition read_requests : list request :=
  [R_put (read_odsc 2 (box2 0 0 1 1)) read_gdim (Some [9; 9; 9; 9]);
   R_put_local (read_odsc 1 (box2 3 0 3 1)) read_gdim; R_drain (0, [8; 8]);
   R_query (read_odsc 1 (box2 1 0 2 1)) read_gdim 0; R_put_meta "m" 3 (Some [7])].

Lemma put_then_get_witness :
  exists sv sv1 sv', read_server = Some sv /\
    serve sv (R_put (read_odsc 1 (box2 0 0 2 1)) read_gdim (Some [10; 11; 12; 13; 14; 15])) = Some sv1 /\
    serve_all sv1 read_requests = Some sv' /\
    exists buffer, get_rpc sv' (read_odsc 1 (box2 1 0 2 1)) true = Some (0, buffer) /\
      buffer !! 2%nat = Some 14.
Proof.
  destruct read_server as [sv|] eqn:E0; [|vm_compute in E0; discriminate E0].
  destruct (serve sv (R_put (read_odsc 1 (box2 0 0 2 1)) read_gdim (Some [10; 11; 12; 13; 14; 15])))
    as [sv1|] eqn:E1; [|vm_compute in E0; injection E0 as <-; vm_compute in E1; discriminate E1].
  destruct (serve_all sv1 read_requests) as [sv'|] eqn:E2;
    [|vm_compute in E0; injection E0 as <-; vm_compute in E1; injection E1 as <-;
      vm_compute in E2; discriminate E2].
  exists sv, sv1, sv'. split; [done|]. split; [done|]. split; [done|].
  assert (Hls : sv_ls sv = ls_alloc 2) by (vm_compute in E0; injection E0 as <-; reflexivity).
  destruct (put_then_get sv (read_odsc 1 (box2 0 0 2 1)) read_gdim [10; 11; 12; 13; 14; 15] sv1 read_requests sv'
    (read_odsc 1 (box2 1 0 2 1))) as (buf & H1 & _ & H2).
  - split; [rewrite Hls; apply ls_inv_alloc; lia|rewrite Hls; intros x []
      |vm_compute in E0; injection E0 as <-; reflexivity..].
  - vm_compute in E0. injection E0 as <-. constructor.
  - apply box2_copyable; simpl; lia.
  - exact E1.
  - rewrite Hls. unfold read_requests. rewrite !Forall_cons. cbn [undisturbing]. split_and!; try done.
    + left. vm_compute. discriminate.
    + right. right. split; reflexivity.
  - exact E2.
  - split_and!; try reflexivity; [apply box2_valid; lia|].
    intros [|[|i]] Hi; simpl in Hi; [vm_compute; split; discriminate..|lia].
  - reflexivity.
  - exists buf. split; [exact H1|]. etransitivity; [apply (H2 [1; 1] 0)|vm_compute; reflexivity].
    + apply in_boxb_spec. reflexivity.
    + vm_compute. split; [discriminate|reflexivity].
Defined.

Lemma query_meta_last_greatest_witness :
  exists sv sv', read_server = Some sv /\
    serve_all sv [R_put_meta "m" 5 (Some [1]); R_put_meta "m" 9 (Some [2]); R_put_meta "n" 11 (Some []);
                  R_put_meta "m" 2 (Some [3])] = Some sv' /\
    exists m, query_meta_local 5 sv' META_MODE_LAST "m" (-1) = Some (sv_ls sv', MR_done (Some m)) /\
      md_version m = 9.
Proof.
  destruct read_server as [sv|] eqn:E0; [|vm_compute in E0; discriminate E0].
  assert (Hls : sv_ls sv = ls_alloc 2) by (vm_compute in E0; injection E0 as <-; reflexivity).
  assert (Hadd : forall sv name v data sv', ls_inv (sv_ls sv) -> version_ok (u32 v) ->
    serve sv (R_put_meta name v (Some data)) = Some sv' -> ls_inv (sv_ls sv')).
  { intros s name v data s' Hi Hv H. cbn [serve put_meta_rpc] in H.
    destruct (ls_add_meta_spec (sv_ls s) (mkMeta (sv_next s) name (u32 v) data) Hi Hv)
      as [(m0 & _ & _ & _ & E1)|[Hn E1]]; rewrite E1 in H; injection H as <-; [exact Hi|].
    exact (meta_added_inv (sv_ls s) (mkMeta (sv_next s) name (u32 v) data) Hi Hv Hn). }
  set (rs := [_; _; _; _]). destruct (serve_all sv rs) as [sv'|] eqn:E1;
    [|vm_compute in E0; injection E0 as <-; vm_compute in E1; discriminate E1].
  exists sv, sv'. split; [done|]. split; [done|].
  assert (Hi : ls_inv (sv_ls sv')).
  { assert (H0 : ls_inv (sv_ls sv)) by (rewrite Hls; apply ls_inv_alloc; lia).
    unfold serve_all, rs in E1. cbn [foldl mbind option_bind] in E1.
    repeat match type of E1 with context [serve ?s (R_put_meta ?n ?v (Some ?d))] =>
      let E2 := fresh in destruct (serve s (R_put_meta n v (Some d))) eqn:E2;
        [apply Hadd in E2; [|assumption|split; vm_compute; congruence]; cbn [mbind option_bind] in E1
        |cbn [mbind option_bind] in E1; discriminate E1] end.
    injection E1 as <-. assumption. }
  vm_compute in E0. injection E0 as <-. vm_compute in E1. injection E1 as <-.
  destruct (query_meta_last_greatest 5 _ "m" (-1) Hi ltac:(lia)) as [H _].
  - reflexivity.
  - intros x Hx. vm_compute in Hx. repeat (destruct Hx as [<-|Hx]; [reflexivity|]). destruct Hx.
  - vm_compute. repeat constructor.
  - destruct H as (m & H & _).
    + eexists. split; [vm_compute; right; right; left; reflexivity|]. split; reflexivity.
    + exists m. split; [exact H|]. vm_compute in H. injection H as <-. reflexivity.
Defined.
