(* ===== verification/MetaStore.v ===== *)
(** * MetaStore: metadata as a map

    [put_meta_rpc] and [query_meta_rpc] of [src/src/dspaces-server.c] with
    [dspaces_put_meta] and [dspaces_get_meta] of [src/src/dspaces-client.c], on
    top of the [ls_*] and [meta_*] functions, as threads that take one critical
    section after the other.  All clients send their metadata to the first
    server, so one storage serves all; it is shown to implement, under the
    conditions that the code needs, what [src/include/dspaces.h] promises: a
    finite map from names and versions to data, with readers that wait for
    versions newer than theirs.  ([Server] and [Access] have the handlers in one
    piece.) *)

From S2P Require Import Prelude BBox ObjDesc Linear Sspace DhtEntry StrHash LocalStorage Matrix Codec Modules Server Client.

(** ** The handlers *)

(** [query_meta_out_t]. *)
Record query_meta_out := mkQout { qm_mdata : list Z; qm_version : Z }.

Definition mode_of (mode : Z) : option meta_mode :=
  if mode =? 1 then Some META_MODE_SPEC
  else if mode =? 2 then Some META_MODE_NEXT
  else if mode =? 3 then Some META_MODE_LAST else None.

Definition meta_reply (m : option meta_data) : query_meta_out :=
  match m with
  | Some m => mkQout (md_data m) (i32 (md_version m))
  | None => mkQout [] (-1)
  end.

(** A query is answered, or waits with a subscription, or has found an entry
    and looks for newer ones. *)
Inductive meta_answer :=
| QA_reply (out : query_meta_out)
| QA_wait (id : nat)
| QA_check (m : meta_data).

Section Handler.
Context `{E : Env}.

(** [put_meta_rpc] up to [ls_mutex]: a failure, or the entry to add. *)
Definition put_meta_begin (sv : server) (name : string) (version : Z) (data : option (list Z)) : server * (Z + meta_data) :=
  match data with
  | None => (sv, inl dspaces_ERR_MERCURY)
  | Some data => (bump sv, inr (mkMeta (sv_next sv) name (u32 version) data))
  end.

(** [query_meta_rpc] up to its reply, its wait, or the loop of
    [META_MODE_LAST].  [peeks] are the answers of the remote systems to the
    peek request and [forward] what the one at an index answers to the query.
    An unknown mode leaves the result unset. *)
Definition query_meta_rpc (sv : server) (peeks : list (nat * Z)) (forward : nat -> option query_meta_out)
    (name : string) (version mode : Z) : option (server * meta_answer) :=
  let found :=
    match sv_remotes sv with
    | [] => None
    | _ => let remote := peek_meta_remotes peeks in
           if -1 <? remote then forward (Z.to_nat remote) else None
    end in
  match found with
  | Some out => Some (sv, QA_reply out)
  | None =>
      mode ← mode_of mode;
      '(ls, r) ← match mode with
                 | META_MODE_SPEC => meta_find_entry (sv_ls sv) name version false (sv_next sv)
                 | _ => meta_find_next_entry (sv_ls sv) name version true (sv_next sv)
                 end;
      Some (bump (set_stores ls (sv_ps sv) sv),
            match r, mode with
            | MR_wait id, _ => QA_wait id
            | MR_done (Some m), META_MODE_LAST => QA_check m
            | MR_done m, _ => QA_reply (meta_reply m)
            end)
  end.

(** One round of the loop of [META_MODE_LAST]: a newer entry, or the reply. *)
Definition query_meta_check (ls : ss_storage) (name : string) (m : meta_data) : option (meta_data + query_meta_out) :=
  '(_, r) ← meta_find_next_entry ls name (i32 (md_version m)) false 0;
  Some (match r with MR_done (Some m') => inl m' | _ => inr (meta_reply (Some m)) end).

(** The record of a reader goes with its stack frame. *)
Definition drop_reader (id : nat) (ls : ss_storage) : ss_storage :=
  set_meta (meta_hash ls) (meta_subs ls) (List.filter (fun s => negb (ms_id s =? id)%nat) (meta_done ls)) ls.

End Handler.

(** ** The client *)

(** [call] is the request to the first server, [None] when it fails. *)
Definition dspaces_put_meta (call : string -> Z -> list Z -> option Z) (name : string) (version : Z) (data : list Z) : Z :=
  match call name version data with
  | None => dspaces_ERR_MERCURY
  | Some ret => ret
  end.

(** The return value, the version and the data. *)
Definition dspaces_get_meta (call : string -> Z -> Z -> option query_meta_out) (name : string) (mode current : Z)
  : Z * option (Z * option (list Z)) :=
  match call name current (mode mod 2 ^ 8) with
  | None => (dspaces_ERR_MERCURY, None)
  | Some out => (dspaces_SUCCESS, Some (qm_version out, match qm_mdata out with [] => None | d => Some d end))
  end.

(** ** Sessions *)

(** The threads of the handlers between two critical sections: a put before
    [ls_mutex], and with it between the two of [ls_add_meta]; a query inside
    [ls_subscribe_meta_no_version]; a query for the last version that has found
    an entry. *)
Inductive meta_thread :=
| T_add (m : meta_data)
| T_announce (m : meta_data)
| T_wait (mode : meta_mode) (name : string)
| T_last (name : string) (m : meta_data).

(** The server, its threads by their number, those asleep on one of the
    conditions [meta_cond], and whether a put holds [ls_mutex]. *)
Record meta_sys := mkSys {
  my_server : server;
  my_threads : gmap nat meta_thread;
  my_asleep : list (nat * nat);
  my_lock : bool
}.

(** A call of a client arrives; thread [id] gets the processor; a wait returns
    without a broadcast. *)
Inductive meta_call :=
| M_put (name : string) (version : Z) (data : list Z)
| M_get (name : string) (mode current : Z)
| M_step (id : nat)
| M_spurious (id : nat).

(** A put or a query is answered; a call goes on in a thread; nothing to be
    seen happens. *)
Inductive meta_ret :=
| V_put (ret : Z)
| V_got (r : Z * option (Z * option (list Z)))
| V_thread (id : nat)
| V_idle.

(** The condition of the readers of any version. *)
Definition last_cond (ls : ss_storage) : nat := Z.to_nat (size_hash ls).

Definition is_asleep (cond id : nat) (l : list (nat * nat)) : bool :=
  existsb (fun t => (fst t =? cond)%nat && (snd t =? id)%nat) l.

(** [ABT_cond_broadcast] when [sent]. *)
Definition broadcast (sent : bool) (cond : nat) (l : list (nat * nat)) : list (nat * nat) :=
  if sent then List.filter (fun t => negb (fst t =? cond)%nat) l else l.

Section Session.
Context `{E : Env}.

Definition put_reply (m : meta_data) : meta_ret :=
  V_put (dspaces_put_meta (fun _ _ _ => Some dspaces_SUCCESS) (md_name m) (md_version m) (md_data m)).

(** [put_meta_rpc] once it has [ls_mutex], which keeps other puts out from the
    check of [ls_add_meta] to its end: the check with the first critical
    section, then the second one and the reply. *)
Definition put_step (s : meta_sys) (id : nat) (m : meta_data) : option (meta_sys * meta_ret) :=
  let sv := my_server s in
  let ls := sv_ls sv in
  if my_lock s then Some (s, V_idle)
  else
    dup ← ls_find_meta ls (md_name m) (i32 (md_version m));
    Some match dup with
         | Some _ => (mkSys sv (delete id (my_threads s)) (my_asleep s) false, put_reply m)
         | None =>
             let '(ls', sent) := meta_add ls m in
             (mkSys (set_stores ls' (sv_ps sv) sv) (<[id := T_announce m]> (my_threads s))
                (broadcast sent (Z.to_nat (md_version m mod size_hash ls)) (my_asleep s)) true, V_idle)
         end.

Definition announce_step (s : meta_sys) (id : nat) (m : meta_data) : meta_sys * meta_ret :=
  let sv := my_server s in
  let ls := sv_ls sv in
  let '(ls', sent) := meta_announce ls m in
  (mkSys (set_stores ls' (sv_ps sv) sv) (delete id (my_threads s)) (broadcast sent (last_cond ls) (my_asleep s)) false, put_reply m).

Definition got (out : query_meta_out) (name : string) : meta_ret := V_got (dspaces_get_meta (fun _ _ _ => Some out) name 0 0).

(** The loop around the wait, and what follows it. *)
Definition wait_step (s : meta_sys) (id : nat) (mode : meta_mode) (name : string) : meta_sys * meta_ret :=
  let sv := my_server s in
  let ls := sv_ls sv in
  if is_asleep (last_cond ls) id (my_asleep s) then (s, V_idle)
  else match meta_resume ls id with
       | None => (mkSys sv (my_threads s) ((last_cond ls, id) :: my_asleep s) (my_lock s), V_idle)
       | Some m =>
           let sv' := set_stores (drop_reader id ls) (sv_ps sv) sv in
           match mode with
           | META_MODE_LAST => (mkSys sv' (<[id := T_last name m]> (my_threads s)) (my_asleep s) (my_lock s), V_idle)
           | _ => (mkSys sv' (delete id (my_threads s)) (my_asleep s) (my_lock s), got (meta_reply (Some m)) name)
           end
       end.

Definition last_step (s : meta_sys) (id : nat) (name : string) (m : meta_data) : option (meta_sys * meta_ret) :=
  r ← query_meta_check (sv_ls (my_server s)) name m;
  Some match r with
       | inl m' => (mkSys (my_server s) (<[id := T_last name m']> (my_threads s)) (my_asleep s) (my_lock s), V_idle)
       | inr out => (mkSys (my_server s) (delete id (my_threads s)) (my_asleep s) (my_lock s), got out name)
       end.

Definition sys_step (s : meta_sys) (c : meta_call) : option (meta_sys * meta_ret) :=
  let sv := my_server s in
  let id := sv_next sv in
  match c with
  | M_put name version data =>
      let '(sv', r) := put_meta_begin sv name version (Some data) in
      Some match r with
           | inl ret => (mkSys sv' (my_threads s) (my_asleep s) (my_lock s), V_put (dspaces_put_meta (fun _ _ _ => Some ret) name version data))
           | inr m => (mkSys sv' (<[id := T_add m]> (my_threads s)) (my_asleep s) (my_lock s), V_thread id)
           end
  | M_get name mode current =>
      '(sv', a) ← query_meta_rpc sv [] (fun _ => None) name current (mode mod 2 ^ 8);
      m ← mode_of (mode mod 2 ^ 8);
      Some match a with
           | QA_reply out => (mkSys sv' (my_threads s) (my_asleep s) (my_lock s), V_got (dspaces_get_meta (fun _ _ _ => Some out) name mode current))
           | QA_wait _ => (mkSys sv' (<[id := T_wait m name]> (my_threads s)) ((last_cond (sv_ls sv), id) :: my_asleep s) (my_lock s), V_thread id)
           | QA_check mdata => (mkSys sv' (<[id := T_last name mdata]> (my_threads s)) (my_asleep s) (my_lock s), V_thread id)
           end
  | M_step id =>
      match my_threads s !! id with
      | None => Some (s, V_idle)
      | Some (T_add m) => put_step s id m
      | Some (T_announce m) => Some (announce_step s id m)
      | Some (T_wait mode name) => Some (wait_step s id mode name)
      | Some (T_last name m) => last_step s id name m
      end
  | M_spurious id => Some (mkSys sv (my_threads s) (List.filter (fun t => negb (snd t =? id)%nat) (my_asleep s)) (my_lock s), V_idle)
  end.

Fixpoint sys_run (s : meta_sys) (cs : list meta_call) : option (meta_sys * list meta_ret) :=
  match cs with
  | [] => Some (s, [])
  | c :: cs => '(s, v) ← sys_step s c; '(s, vs) ← sys_run s cs; Some (s, v :: vs)
  end.

(** The pieces of [put_meta_rpc] in a row are [put_meta_rpc]. *)
Lemma put_meta_pieces sv name version data :
  put_meta_rpc sv name version data =
    (let '(sv', r) := put_meta_begin sv name version data in
     match r with
     | inl ret => Some (sv', ret)
     | inr m =>
         dup ← ls_find_meta (sv_ls sv') (md_name m) (i32 (md_version m));
         Some (match dup with
               | Some _ => sv'
               | None => set_stores (fst (meta_announce (fst (meta_add (sv_ls sv') m)) m)) (sv_ps sv') sv'
               end, dspaces_SUCCESS)
     end).
Proof.
  unfold put_meta_rpc, put_meta_begin, ls_add_meta. destruct data as [data|]; [|done]. cbn [md_name bump sv_ls].
  destruct (ls_find_meta _ _ _) as [[m|]|]; [|done..]. cbn [mbind option_bind]. by destruct sv.
Qed.
End Session.

(** ** The specification *)

Abbreviation meta_map := (gmap (string * Z) (list Z)).

(** The versions of a name. *)
Definition versions (M : meta_map) (name : string) : list Z :=
  omap (fun e => if String.eqb (fst (fst e)) name then Some (snd (fst e)) else None) (map_to_list M).

(** The first of a list in the order [before]. *)
Definition pick (before : Z -> Z -> bool) (l : list Z) : option Z :=
  foldr (fun v acc => match acc with Some w => if before v w then Some v else acc | None => Some v end) None l.

Definition next_version (M : meta_map) (name : string) (current : Z) : option Z :=
  pick Z.ltb (List.filter (Z.ltb current) (versions M name)).
Definition last_version (M : meta_map) (name : string) (current : Z) : option Z :=
  pick Z.gtb (List.filter (Z.ltb current) (versions M name)).

Definition spec_got (M : meta_map) (name : string) (v : option Z) : meta_ret :=
  V_got (0, Some match v with
                 | None => (-1, None)
                 | Some v => (v, d ← M !! (name, v); match d with [] => None | _ => Some d end)
                 end).

(** What [src/include/dspaces.h] says of a query: [current] is the version it
    counts as current. *)
Inductive spec_thread :=
| S_add (name : string) (version : Z) (data : list Z)
| S_announce (name : string) (version : Z)
| S_wait (mode : meta_mode) (name : string) (current : Z)
| S_woken (mode : meta_mode) (name : string) (current version : Z)
| S_last (name : string) (current version : Z).

(** [sp_busy]: a put has stored its version and not announced it yet. *)
Record meta_spec := mkSpec {
  sp_map : meta_map;
  sp_threads : gmap nat spec_thread;
  sp_next : nat;
  sp_busy : bool
}.

(** A new version is handed to the readers of its name that wait for a newer
    one than they have. *)
Definition wake (name : string) (version : Z) (t : spec_thread) : spec_thread :=
  match t with
  | S_wait mode name' current =>
      if String.eqb name' name && (current <? version) then S_woken mode name' current version else t
  | _ => t
  end.

Definition spec_start (a : meta_spec) (t : spec_thread) : meta_spec * meta_ret :=
  (mkSpec (sp_map a) (<[sp_next a := t]> (sp_threads a)) (S (sp_next a)) (sp_busy a), V_thread (sp_next a)).
Definition spec_reply (a : meta_spec) (v : meta_ret) : meta_spec * meta_ret :=
  (mkSpec (sp_map a) (sp_threads a) (S (sp_next a)) (sp_busy a), v).
Definition spec_end (a : meta_spec) (id : nat) (v : meta_ret) : meta_spec * meta_ret :=
  (mkSpec (sp_map a) (delete id (sp_threads a)) (sp_next a) (sp_busy a), v).
Definition spec_become (a : meta_spec) (id : nat) (t : spec_thread) : meta_spec * meta_ret :=
  (mkSpec (sp_map a) (<[id := t]> (sp_threads a)) (sp_next a) (sp_busy a), V_idle).

(** A query for one version does not block; one for the next version gets
    the lowest newer one, or blocks until a newer one arrives; one for the last
    version does so too, and gets the highest there is when it looks last. *)
Definition spec_step (a : meta_spec) (c : meta_call) : meta_spec * meta_ret :=
  let M := sp_map a in
  match c with
  | M_put name version data => spec_start a (S_add name version data)
  | M_get name mode current =>
      match mode_of mode with
      | None => (a, V_idle)
      | Some META_MODE_SPEC => spec_reply a (spec_got M name (_ ← M !! (name, current); Some current))
      | Some mode =>
          match next_version M name current, mode with
          | None, _ => spec_start a (S_wait mode name current)
          | Some v, META_MODE_LAST => spec_start a (S_last name current v)
          | Some v, _ => spec_reply a (spec_got M name (Some v))
          end
      end
  | M_spurious _ => (a, V_idle)
  | M_step id =>
      match sp_threads a !! id with
      | None | Some (S_wait _ _ _) => (a, V_idle)
      | Some (S_add name version data) =>
          if sp_busy a then (a, V_idle)
          else match M !! (name, version) with
               | Some _ => spec_end a id (V_put 0)
               | None =>
                   (mkSpec (<[(name, version) := data]> M) (<[id := S_announce name version]> (sp_threads a)) (sp_next a) true, V_idle)
               end
      | Some (S_announce name version) =>
          (mkSpec M (wake name version <$> delete id (sp_threads a)) (sp_next a) false, V_put 0)
      | Some (S_woken META_MODE_LAST name current version) => spec_become a id (S_last name current version)
      | Some (S_woken _ name _ version) => spec_end a id (spec_got M name (Some version))
      | Some (S_last name current version) =>
          match next_version M name version with
          | Some w => spec_become a id (S_last name current w)
          | None => spec_end a id (spec_got M name (last_version M name current))
          end
      end
  end.

Fixpoint spec_run (a : meta_spec) (cs : list meta_call) : meta_spec * list meta_ret :=
  match cs with
  | [] => (a, [])
  | c :: cs => let '(a, v) := spec_step a c in let '(a, vs) := spec_run a cs in (a, v :: vs)
  end.

(** What a step needs.  Versions are those an [int] holds with room for the
    scan of the bins; a query for a version is not for a negative one.  And when
    a version is announced, it is newer than what the readers that then wait
    for its name have: their subscriptions do not record it. *)
Definition call_ok (size : Z) (a : meta_spec) (c : meta_call) : Prop :=
  match c with
  | M_put _ version _ => 0 <= version /\ version + size < 2 ^ 31
  | M_get _ mode current =>
      match mode_of mode with
      | None => False
      | Some META_MODE_SPEC => version_ok current
      | Some _ => -1 <= current /\ current + size < 2 ^ 31
      end
  | M_step id =>
      match sp_threads a !! id with
      | Some (S_announce name version) =>
          forall id' mode current, sp_threads a !! id' = Some (S_wait mode name current) -> current < version
      | _ => True
      end
  | M_spurious _ => True
  end.

Fixpoint session_ok (size : Z) (a : meta_spec) (cs : list meta_call) : Prop :=
  match cs with
  | [] => True
  | c :: cs => call_ok size a c /\ session_ok size (fst (spec_step a c)) cs
  end.

(** ** Versions: lemmas *)

Lemma elem_of_versions M name v : In v (versions M name) <-> is_Some (M !! (name, v)).
Proof.
  unfold versions. rewrite <- list_elem_of_In, list_elem_of_omap. split.
  - intros (((n, w), d) & Hin & H). apply elem_of_map_to_list in Hin. cbn [fst snd] in H.
    destruct (String.eqb_spec n name) as [->|]; [|done]. injection H as <-. by exists d.
  - intros [d Hd]. exists (name, v, d). rewrite elem_of_map_to_list. cbn [fst snd]. by rewrite String.eqb_refl.
Qed.

(** [before] is a strict total order. *)
Lemma pick_spec before (Htr : forall u v w, before v w = true -> before u w = false -> before u v = false)
    (Hirr : forall v, before v v = false) (l : list Z) :
  match pick before l with
  | None => l = []
  | Some w => In w l /\ forall v, In v l -> before v w = false
  end.
Proof.
  induction l as [|v l IH]; [done|]. cbn [pick foldr]. fold (pick before l).
  destruct (pick before l) as [w|].
  - destruct IH as [Hin H]. destruct (before v w) eqn:E.
    + split; [by left|]. intros u [<-|Hu]; [done|]. eapply Htr; eauto.
    + split; [by right|]. intros u [<-|Hu]; auto.
  - subst l. split; [by left|]. intros u [<-|[]]. done.
Qed.

(** What a query for the next and for the last version finds. *)
Lemma next_version_spec M name cur :
  match next_version M name cur with
  | None => forall v, is_Some (M !! (name, v)) -> v <= cur
  | Some w => is_Some (M !! (name, w)) /\ cur < w /\ forall v, is_Some (M !! (name, v)) -> cur < v -> w <= v
  end.
Proof.
  unfold next_version. pose proof (pick_spec Z.ltb ltac:(intros; lia) ltac:(intros; lia)
    (List.filter (Z.ltb cur) (versions M name))) as H. destruct (pick _ _) as [w|].
  - destruct H as [[Hin Hlt]%filter_In H]. rewrite elem_of_versions in Hin. split; [done|]. split; [lia|].
    intros v Hv Hc. specialize (H v). rewrite filter_In, elem_of_versions in H. specialize (H ltac:(split; [done|lia])). lia.
  - intros v Hv. apply Z.nlt_ge. intros Hc. assert (Hin : In v (List.filter (Z.ltb cur) (versions M name))).
    { apply filter_In. rewrite elem_of_versions. split; [done|lia]. }
    by rewrite H in Hin.
Qed.

Lemma last_version_spec M name cur :
  match last_version M name cur with
  | None => forall v, is_Some (M !! (name, v)) -> v <= cur
  | Some w => is_Some (M !! (name, w)) /\ cur < w /\ forall v, is_Some (M !! (name, v)) -> v <= w
  end.
Proof.
  unfold last_version. pose proof (pick_spec Z.gtb ltac:(intros; lia) ltac:(intros; lia)
    (List.filter (Z.ltb cur) (versions M name))) as H. destruct (pick _ _) as [w|].
  - destruct H as [[Hin Hlt]%filter_In H]. rewrite elem_of_versions in Hin. split; [done|]. split; [lia|].
    intros v Hv. destruct (Z.ltb_spec cur v); [|lia]. specialize (H v). rewrite filter_In, elem_of_versions in H.
    specialize (H ltac:(split; [done|lia])). lia.
  - intros v Hv. apply Z.nlt_ge. intros Hc. assert (Hin : In v (List.filter (Z.ltb cur) (versions M name))).
    { apply filter_In. rewrite elem_of_versions. split; [done|lia]. }
    by rewrite H in Hin.
Qed.

(** ** Storage and map *)

(** The map is the table of entries, whose versions leave room for a scan of
    the bins. *)
Record stores (ls : ss_storage) (M : meta_map) : Prop := {
  st_inv : ls_inv ls;
  st_max : forall m, In m (all_meta ls) -> md_version m + size_hash ls < 2 ^ 31;
  st_map : forall name v d, M !! (name, v) = Some d <->
    exists m, In m (all_meta ls) /\ md_name m = name /\ md_version m = v /\ md_data m = d
}.

Definition entry_of (ls : ss_storage) (M : meta_map) (name : string) (v : Z) (m : meta_data) : Prop :=
  In m (all_meta ls) /\ md_name m = name /\ md_version m = v.

Section Stores.
Context (ls : ss_storage) (M : meta_map) (H : stores ls M).

Lemma entry_data name v m : entry_of ls M name v m -> M !! (name, v) = Some (md_data m).
Proof using H. intros (Hin & Hn & Hv). apply (st_map _ _ H). by exists m. Qed.

Lemma entry_some m : In m (all_meta ls) -> is_Some (M !! (md_name m, md_version m)).
Proof using H. intros Hin. exists (md_data m). apply entry_data. done. Qed.

Lemma some_entry name v : is_Some (M !! (name, v)) -> exists m, entry_of ls M name v m.
Proof using H. intros [d Hd]. apply (st_map _ _ H) in Hd as (m & H1 & H2 & H3 & _). by exists m. Qed.

Lemma entry_version m : In m (all_meta ls) -> version_ok (md_version m).
Proof using H. intros Hin. apply (li_meta_bins _ (st_inv _ _ H) _ _ (proj1 (meta_in_bin ls m (st_inv _ _ H)) Hin)). Qed.

(** What a search for the next version finds. *)
Lemma find_next_version name cur wait id : -1 <= cur -> cur + size_hash ls < 2 ^ 31 ->
  match next_version M name cur with
  | Some v => exists m, meta_find_next_entry ls name cur wait id = Some (ls, MR_done (Some m)) /\ entry_of ls M name v m
  | None => meta_find_next_entry ls name cur wait id
      = Some (if wait then (ls_subscribe_meta_no_version ls name id, MR_wait id) else (ls, MR_done None))
  end.
Proof using H.
  intros Hc Hmax. pose proof (st_inv _ _ H) as Hi. destruct (find_next_spec ls name cur wait id Hi Hc Hmax) as (r & Hb & ->).
  pose proof (next_version_spec M name cur) as Hs. destruct r as [m|], (next_version M name cur) as [v|].
  - destruct Hb as (H1 & H2 & H3 & H4). exists m. split; [done|]. split; [done|]. split; [done|].
    destruct Hs as (Hv & Hlt & Hmin). destruct (some_entry name v Hv) as (x & Hx & Hxn & Hxv).
    specialize (H4 x Hx Hxn ltac:(lia)). pose proof (entry_some m H1) as Hm. rewrite H2 in Hm. specialize (Hmin _ Hm H3). lia.
  - destruct Hb as (H1 & H2 & H3 & _). pose proof (entry_some m H1) as Hm. rewrite H2 in Hm. specialize (Hs _ Hm). lia.
  - destruct Hs as (Hv & Hlt & _). destruct (some_entry name v Hv) as (x & Hx & Hxn & Hxv). exfalso. apply (Hb x); [done|done|lia].
  - by destruct wait.
Qed.

Lemma find_version name v id : version_ok v ->
  match M !! (name, v) with
  | Some _ => exists m, meta_find_entry ls name v false id = Some (ls, MR_done (Some m)) /\ entry_of ls M name v m
  | None => meta_find_entry ls name v false id = Some (ls, MR_done None)
  end.
Proof using H.
  intros Hv. unfold meta_find_entry. destruct (ls_find_meta_spec ls name v (st_inv _ _ H) Hv) as (r & -> & H1 & H2).
  cbn [mbind option_bind]. destruct r as [m|].
  - destruct (H1 m eq_refl) as (Hin & Hn & Hvm). rewrite (entry_data name v m) by done. by exists m.
  - destruct (M !! (name, v)) as [d|] eqn:E; [|done]. destruct (some_entry name v) as (m & Hin & Hn & Hvm); [by exists d|].
    by destruct (H2 eq_refl m Hin Hn Hvm).
Qed.

(** A version above which there is none is the last one. *)
Lemma no_next_last name cur v : is_Some (M !! (name, v)) -> cur < v -> next_version M name v = None ->
  last_version M name cur = Some v.
Proof using Type.
  intros Hv Hc Hn. pose proof (next_version_spec M name v) as Hs. rewrite Hn in Hs.
  pose proof (last_version_spec M name cur) as Hl. destruct (last_version M name cur) as [w|].
  - destruct Hl as (Hw & _ & Hmax). specialize (Hs w Hw). specialize (Hmax v Hv). f_equal. lia.
  - specialize (Hl v Hv). lia.
Qed.

(** An entry whose key is new. *)
Lemma stores_add m : version_ok (md_version m) -> md_version m + size_hash ls < 2 ^ 31 ->
  M !! (md_name m, md_version m) = None ->
  stores (fst (meta_add ls m)) (<[(md_name m, md_version m) := md_data m]> M).
Proof using H.
  intros Hv Hmax Hnew. pose proof (st_inv _ _ H) as Hi. pose proof (all_meta_add ls m Hi) as Hp.
  assert (Hin : forall x, In x (all_meta (fst (meta_add ls m))) <-> x = m \/ In x (all_meta ls)).
  { intros x. rewrite <- !list_elem_of_In, Hp, elem_of_cons. done. }
  split.
  - apply meta_add_inv; [done|done|]. intros m0 H0 Hn0 Hv0. pose proof (entry_some m0 H0) as [d Hd]. rewrite Hn0, Hv0, Hnew in Hd. done.
  - replace (size_hash (fst (meta_add ls m))) with (size_hash ls) by (unfold meta_add; by destruct (notify _ _ _)).
    intros x [->|Hx]%Hin; [done|]. by apply (st_max _ _ H).
  - intros name v d. destruct (decide ((md_name m, md_version m) = (name, v))) as [Heq|Hne].
    + injection Heq as <- <-. rewrite lookup_insert, decide_True by done. split.
      * intros [= <-]. exists m. rewrite Hin. split; [by left|done].
      * intros (x & [->|Hx]%Hin & Hn & Hvx & <-); [done|]. pose proof (entry_some x Hx) as [d' Hd'].
        rewrite Hn, Hvx, Hnew in Hd'. done.
    + rewrite lookup_insert_ne by done. rewrite (st_map _ _ H). split.
      * intros (x & Hx & Hr). exists x. rewrite Hin. split; [by right|done].
      * intros (x & [->|Hx]%Hin & Hn & Hvx & Hd); [|by exists x]. destruct Hne. congruence.
Qed.
End Stores.

(** The storage's parts the map depends on. *)
Lemma stores_same ls ls' M : stores ls M -> meta_hash ls' = meta_hash ls -> size_hash ls' = size_hash ls ->
  obj_hash ls' = obj_hash ls -> num_obj ls' = num_obj ls -> var_dict ls' = var_dict ls ->
  length (meta_subs ls') = length (meta_subs ls) -> stores ls' M.
Proof.
  intros [Hi H1 H2] E1 E2 E3 E4 E5 E6. assert (Hall : all_meta ls' = all_meta ls) by (unfold all_meta; by rewrite E1).
  split; rewrite ?Hall, ?E2; try done. destruct Hi. split; unfold all_objs, obj_bin, meta_bin, obj_index in *;
    rewrite ?E1, ?E2, ?E3, ?E4, ?E5, ?E6, ?Hall; done.
Qed.

(** ** Threads *)

(** A thread and its specification. *)
Definition thread_rel (ls : ss_storage) (M : meta_map) (t : meta_thread) (u : spec_thread) : Prop :=
  match t, u with
  | T_add m, S_add name v data => m = mkMeta (md_id m) name v data /\ 0 <= v /\ v + size_hash ls < 2 ^ 31
  | T_announce m, S_announce name v => entry_of ls M name v m
  | T_wait mode name, S_wait mode' name' _ => mode = mode' /\ name = name' /\ mode <> META_MODE_SPEC
  | T_wait mode name, S_woken mode' name' cur v => mode = mode' /\ name = name' /\ mode <> META_MODE_SPEC /\ cur < v
  | T_last name m, S_last name' cur v => name = name' /\ cur < v /\ entry_of ls M name v m
  | _, _ => False
  end.

Definition reader (id : nat) (name : string) : meta_sub := mkMsub id (-1) name None.

(** The server serves the map: its last list of subscriptions are the readers
    that wait, the unlinked subscriptions those that were woken, and none of
    these is asleep. *)
Record refines (s : meta_sys) (a : meta_spec) : Prop := {
  rf_stores : stores (sv_ls (my_server s)) (sp_map a);
  rf_remotes : sv_remotes (my_server s) = [];
  rf_bins : forall k, (k < last_cond (sv_ls (my_server s)))%nat -> nth k (meta_subs (sv_ls (my_server s))) [] = [];
  rf_waiting : forall r, In r (nth (last_cond (sv_ls (my_server s))) (meta_subs (sv_ls (my_server s))) []) <->
    exists mode name cur, sp_threads a !! ms_id r = Some (S_wait mode name cur) /\ r = reader (ms_id r) name;
  rf_done : forall r, In r (meta_done (sv_ls (my_server s))) ->
    exists mode name cur v m, sp_threads a !! ms_id r = Some (S_woken mode name cur v) /\
      entry_of (sv_ls (my_server s)) (sp_map a) name v m /\ r = deliver m (reader (ms_id r) name);
  rf_woken : forall id mode name cur v, sp_threads a !! id = Some (S_woken mode name cur v) ->
    is_asleep (last_cond (sv_ls (my_server s))) id (my_asleep s) = false /\
    exists r, In r (meta_done (sv_ls (my_server s))) /\ ms_id r = id;
  rf_threads : forall id, match my_threads s !! id, sp_threads a !! id with
    | Some t, Some u => thread_rel (sv_ls (my_server s)) (sp_map a) t u
    | None, None => True
    | _, _ => False
    end;
  rf_next : sp_next a = sv_next (my_server s);
  rf_busy : sp_busy a = my_lock s;
  rf_fresh : forall id, is_Some (sp_threads a !! id) -> (id < sp_next a)%nat
}.

Lemma thread_rel_mono ls ls' M M' t u : (forall m, In m (all_meta ls) -> In m (all_meta ls')) -> size_hash ls' = size_hash ls ->
  thread_rel ls M t u -> thread_rel ls' M' t u.
Proof.
  intros Hin Hs. assert (He : forall n v m, entry_of ls M n v m -> entry_of ls' M' n v m) by (intros n v m (? & ? & ?); split; auto).
  destruct t, u; cbn; rewrite ?Hs; try done; [by apply He|]. intros (? & ? & ?). split; [done|]. split; [done|]. by apply He.
Qed.

(** Threads that neither wait nor were woken. *)
Definition quiet (u : option spec_thread) : Prop :=
  match u with Some (S_wait _ _ _) | Some (S_woken _ _ _ _) => False | _ => True end.

Definition threads_rel (ls : ss_storage) (M : meta_map) (t : option meta_thread) (u : option spec_thread) : Prop :=
  match t, u with Some t, Some u => thread_rel ls M t u | None, None => True | _, _ => False end.

Lemma mode_of_small mode m : mode_of mode = Some m -> mode mod 2 ^ 8 = mode.
Proof.
  unfold mode_of. intros H. apply Z.mod_small.
  destruct (Z.eqb_spec mode 1), (Z.eqb_spec mode 2), (Z.eqb_spec mode 3); simplify_eq; lia.
Qed.

Section Steps.
Context `{E : Env}.
Context (s : meta_sys) (a : meta_spec) (H : refines s a).

Let sv := my_server s.
Let ls := sv_ls sv.

(** What a step has to show. *)
Definition step_refines (c : meta_call) : Prop :=
  exists s', sys_step s c = Some (s', snd (spec_step a c)) /\ refines s' (fst (spec_step a c)) /\
    size_hash (sv_ls (my_server s')) = size_hash ls.

(** A thread that is not in a list of subscriptions changes. *)
Lemma refines_set sv' id t u al next lock busy : busy = lock -> sv_ls sv' = ls -> sv_remotes sv' = [] -> threads_rel ls (sp_map a) t u ->
  quiet (sp_threads a !! id) -> quiet u -> next = sv_next sv' -> (sp_next a <= next)%nat -> (is_Some u -> (id < next)%nat) ->
  (forall k i, is_asleep k i (my_asleep s) = false -> is_asleep k i al = false) ->
  refines (mkSys sv' (partial_alter (fun _ => t) id (my_threads s)) al lock)
    (mkSpec (sp_map a) (partial_alter (fun _ => u) id (sp_threads a)) next busy).
Proof using H.
  intros Hlock Hls Hrem Htu Hq Hq' Hnext Hle Hid Hal. pose proof H as [Hst _ Hbins Hwait Hdone Hwoken Hthr _ _ Hfr].
  assert (Hother : forall i w, ~ quiet (Some w) -> sp_threads a !! i = Some w <-> partial_alter (fun _ => u) id (sp_threads a) !! i = Some w).
  { intros i w Hw. destruct (decide (id = i)) as [->|Hne]; [|by rewrite lookup_partial_alter_ne].
    rewrite lookup_partial_alter_eq. split; intros E1; [rewrite E1 in Hq|rewrite E1 in Hq']; done. }
  split; cbn [my_server my_threads my_asleep my_lock sp_map sp_threads sp_next sp_busy]; rewrite ?Hls; try done.
  - intros r. etransitivity; [apply Hwait|]. split; intros (mode & name & cur & E1 & E2); exists mode, name, cur; (split; [|done]); (eapply Hother; [|exact E1]); by intros ?.
  - intros r Hr. destruct (Hdone r Hr) as (mode & name & cur & v & m & E1 & E2). exists mode, name, cur, v, m.
    split; [|done]. apply Hother; [by intros ?|done].
  - intros i mode name cur v Hi. apply Hother in Hi; [|by intros ?]. destruct (Hwoken _ _ _ _ _ Hi) as [H1 H2]. split; [by apply Hal|done].
  - intros i. destruct (decide (id = i)) as [->|Hne]; [by rewrite !lookup_partial_alter_eq|]. rewrite !lookup_partial_alter_ne by done. apply Hthr.
  - intros i Hi. destruct (decide (id = i)) as [->|Hne]; [rewrite lookup_partial_alter_eq in Hi; by apply Hid|].
    rewrite lookup_partial_alter_ne in Hi by done. specialize (Hfr i Hi). lia.
Qed.

Lemma fresh_thread : sp_threads a !! sp_next a = None.
Proof using H. destruct (sp_threads a !! sp_next a) eqn:E1; [|done]. pose proof (rf_fresh _ _ H (sp_next a) ltac:(by rewrite E1)). lia. Qed.

Lemma refines_spec_reply sv' v : sv_ls sv' = ls -> sv_remotes sv' = [] -> sv_next sv' = S (sv_next sv) ->
  refines (mkSys sv' (my_threads s) (my_asleep s) (my_lock s)) (fst (spec_reply a v)).
Proof using H.
  intros Hls Hrem Hn. pose proof H as [Hst _ Hbins Hwait Hdone Hwoken Hthr Hnext Hbusy Hfr]. 
  split; cbn [spec_reply fst my_server my_threads my_asleep my_lock sp_map sp_threads sp_next sp_busy]; rewrite ?Hls; try done; [by rewrite Hn, Hnext|].
  intros i Hi. specialize (Hfr i Hi). lia.
Qed.

Lemma refines_spec_start sv' t u : sv_ls sv' = ls -> sv_remotes sv' = [] -> sv_next sv' = S (sv_next sv) ->
  thread_rel ls (sp_map a) t u -> quiet (Some u) ->
  refines (mkSys sv' (<[sv_next sv := t]> (my_threads s)) (my_asleep s) (my_lock s)) (fst (spec_start a u)).
Proof using H.
  intros Hls Hrem Hn Htu Hq. pose proof (rf_next _ _ H) as Hnext. fold sv in Hnext. rewrite <- Hnext.
  apply (refines_set sv' (sp_next a) (Some t) (Some u)); try done; [apply (rf_busy _ _ H)|by rewrite fresh_thread|by rewrite Hn, Hnext|lia|lia].
Qed.

Lemma got_reply m name v mode cur : entry_of ls (sp_map a) name v m ->
  V_got (dspaces_get_meta (fun _ _ _ => Some (meta_reply (Some m))) name mode cur) = spec_got (sp_map a) name (Some v).
Proof using H.
  intros He. unfold dspaces_get_meta, spec_got. cbn [meta_reply qm_version qm_mdata].
  rewrite (entry_data ls (sp_map a) (rf_stores _ _ H) name v m He). destruct He as (Hin & _ & <-).
  rewrite version_ok_i32 by (by apply (entry_version ls (sp_map a) (rf_stores _ _ H))). by destruct (md_data m).
Qed.

Lemma put_refines name version data : call_ok (size_hash ls) a (M_put name version data) -> step_refines (M_put name version data).
Proof using H.
  intros [Hv Hmax]. unfold step_refines. cbn [sys_step put_meta_begin spec_step spec_start snd]. pose proof (rf_stores _ _ H) as Hst.
  pose proof (li_size _ (st_inv _ _ Hst)) as Hsz. pose proof (rf_remotes _ _ H) as Hrem. pose proof (rf_next _ _ H) as Hnext.
  fold sv ls in Hst, Hsz, Hrem, Hnext |- *. rewrite u32_small by lia.
  eexists. split; [by rewrite Hnext|]. split; [|done]. by apply refines_spec_start.
Qed.

(** A reader is added in front. *)
Lemma refines_wait sv' mode name cur : mode <> META_MODE_SPEC ->
  sv_ls sv' = ls_subscribe_meta_no_version ls name (sv_next sv) -> sv_remotes sv' = [] -> sv_next sv' = S (sv_next sv) ->
  refines (mkSys sv' (<[sv_next sv := T_wait mode name]> (my_threads s)) ((last_cond ls, sv_next sv) :: my_asleep s) (my_lock s))
    (fst (spec_start a (S_wait mode name cur))).
Proof using H.
  intros Hmode Hls Hrem Hn. pose proof H as [Hst _ Hbins Hwait Hdone Hwoken Hthr Hnext Hbusy Hfr].
  pose proof fresh_thread as Hfresh. fold sv ls in Hst, Hbins, Hwait, Hdone, Hwoken, Hthr, Hnext.
  assert (Hlen : (last_cond ls < length (meta_subs ls))%nat) by (rewrite (li_subs _ (st_inv _ _ Hst)); unfold last_cond; lia).
  assert (Hnth : forall k, nth k (meta_subs (sv_ls sv')) []
    = if decide (k = last_cond ls) then reader (sv_next sv) name :: nth k (meta_subs ls) [] else nth k (meta_subs ls) []).
  { intros k. rewrite Hls. unfold ls_subscribe_meta_no_version. cbn [set_meta meta_subs]. fold (last_cond ls). rewrite nth_alter.
    destruct (decide (k = last_cond ls)) as [->|Hk]; [by rewrite decide_True by tauto|by rewrite decide_False by tauto]. }
  assert (Hsz : size_hash (sv_ls sv') = size_hash ls) by (by rewrite Hls). assert (Hlc : last_cond (sv_ls sv') = last_cond ls) by (unfold last_cond; by rewrite Hsz).
  assert (Hd : meta_done (sv_ls sv') = meta_done ls) by (by rewrite Hls). assert (Ha : all_meta (sv_ls sv') = all_meta ls) by (by rewrite Hls).
  rewrite <- Hnext in *.
  split; cbn [spec_start fst my_server my_threads my_asleep my_lock sp_map sp_threads sp_next sp_busy]; rewrite ?Hlc, ?Hd; try done.
  - apply (stores_same ls); try done; rewrite Hls; try done. cbn. by rewrite length_alter.
  - intros k Hk. rewrite Hnth. case_decide; [lia|by apply Hbins].
  - intros r. rewrite Hnth, decide_True by done. cbn [In]. rewrite (Hwait r). split.
    + intros [<-|(mode' & name' & cur' & E1 & E2)].
      * exists mode, name, cur. cbn [ms_id reader]. by rewrite lookup_insert, decide_True by done.
      * exists mode', name', cur'. split; [|done]. rewrite lookup_insert_ne; [done|]. intros E3. rewrite <- E3, Hfresh in E1. done.
    + intros (mode' & name' & cur' & E1 & E2). destruct (decide (sp_next a = ms_id r)) as [E3|Hne].
      * left. rewrite E3, lookup_insert, decide_True in E1 by done. injection E1 as <- <- <-. by rewrite E3.
      * right. rewrite lookup_insert_ne in E1 by done. by exists mode', name', cur'.
  - intros r Hr. destruct (Hdone r Hr) as (mode' & name' & cur' & v & m & E1 & (E2 & E3) & E4). exists mode', name', cur', v, m.
    rewrite lookup_insert_ne by (intros E5; rewrite <- E5, Hfresh in E1; done). split; [done|]. split; [split; [by rewrite Ha|done]|done].
  - intros id mode' name' cur' v Hid. destruct (decide (sp_next a = id)) as [<-|Hne]; [by rewrite lookup_insert, decide_True in Hid by done|].
    rewrite lookup_insert_ne in Hid by done. destruct (Hwoken _ _ _ _ _ Hid) as [H1 H2]. split; [|done].
    unfold is_asleep. cbn [existsb fst snd]. apply orb_false_iff. split; [|exact H1]. apply andb_false_iff. right. by apply Nat.eqb_neq.
  - intros id. destruct (decide (sp_next a = id)) as [<-|Hne]; [by rewrite !lookup_insert, !decide_True by done|].
    rewrite !lookup_insert_ne by done. specialize (Hthr id). destruct (my_threads s !! id), (sp_threads a !! id); try done.
    eapply thread_rel_mono; [| |exact Hthr]; [by rewrite Ha|done].
  - intros id Hid. destruct (decide (sp_next a = id)) as [<-|Hne]; [lia|]. rewrite lookup_insert_ne in Hid by done. specialize (Hfr id Hid). lia.
Qed.

Lemma get_refines name mode current : call_ok (size_hash ls) a (M_get name mode current) -> step_refines (M_get name mode current).
Proof using H.
  cbn [call_ok]. destruct (mode_of mode) as [m|] eqn:Em; [|done]. intros Hc. unfold step_refines. cbn [sys_step spec_step].
  pose proof (rf_stores _ _ H) as Hst. pose proof (rf_remotes _ _ H) as Hrem. pose proof (rf_next _ _ H) as Hnext.
  fold sv ls in Hst, Hrem, Hnext |- *. rewrite (mode_of_small mode m Em), Em. unfold query_meta_rpc. rewrite Hrem, Em. cbn [mbind option_bind].
  destruct m; [|destruct Hc as [Hc Hmax]; pose proof (find_next_version ls (sp_map a) Hst name current true (sv_next sv) Hc Hmax) as Hf;
    pose proof (next_version_spec (sp_map a) name current) as Hs; destruct (next_version (sp_map a) name current) as [v|]..].
  - pose proof (find_version ls (sp_map a) Hst name current (sv_next sv) Hc) as Hf. fold ls.
    destruct (sp_map a !! (name, current)) as [d|].
    + destruct Hf as (m & -> & He). cbn [mbind option_bind]. eexists.
      split; [by rewrite (got_reply m name current mode current He)|]. split; [by apply refines_spec_reply|done].
    + rewrite Hf. cbn [mbind option_bind]. eexists. split; [reflexivity|]. split; [by apply refines_spec_reply|done].
  - destruct Hf as (m & E1 & He). fold ls. rewrite E1. cbn [mbind option_bind]. eexists.
    split; [by rewrite (got_reply m name v mode current He)|]. split; [by apply refines_spec_reply|done].
  - fold ls. rewrite Hf. cbn [mbind option_bind]. eexists. split; [cbn [spec_start snd]; by rewrite Hnext|]. split; [|done]. by apply refines_wait.
  - destruct Hf as (m & E1 & He). fold ls. rewrite E1. cbn [mbind option_bind]. eexists. split; [cbn [spec_start snd]; by rewrite Hnext|]. split; [|done].
    apply refines_spec_start; try done. split; [done|]. split; [apply Hs|done].
  - fold ls. rewrite Hf. cbn [mbind option_bind]. eexists. split; [cbn [spec_start snd]; by rewrite Hnext|]. split; [|done]. by apply refines_wait.
Qed.

(** The first critical section of a put. *)
Lemma add_refines id m name v data : my_threads s !! id = Some (T_add m) -> sp_threads a !! id = Some (S_add name v data) ->
  step_refines (M_step id).
Proof using H.
  intros Ht Hu. pose proof H as [Hst Hrem Hbins Hwait Hdone Hwoken Hthr Hnext Hbusy Hfr].
  fold sv ls in Hst, Hrem, Hbins, Hwait, Hdone, Hwoken, Hthr, Hnext.
  pose proof (Hthr id) as Htu. rewrite Ht, Hu in Htu. destruct Htu as (Hm & Hv & Hmax).
  assert (Hmk : md_name m = name /\ md_version m = v /\ md_data m = data) by (by rewrite Hm). destruct Hmk as (Hn & Hmv & Hmd).
  pose proof (st_inv _ _ Hst) as Hi. pose proof (li_size _ Hi) as Hsz.
  unfold step_refines. cbn [sys_step spec_step]. rewrite Ht, Hu. unfold put_step. fold sv ls.
  rewrite Hbusy. destruct (my_lock s) eqn:Hlock; [by exists s|]. rewrite version_ok_i32 by (unfold version_ok; lia).
  destruct (ls_find_meta_spec ls (md_name m) (md_version m) Hi) as (r0 & Hfind & F1 & F2); [unfold version_ok; lia|].
  rewrite Hfind, Hn, Hmv in *. cbn [mbind option_bind]. destruct r0 as [m0|].
  { destruct (F1 m0 eq_refl) as (Hin0 & Hn0 & Hv0). rewrite (entry_data ls (sp_map a) Hst name v m0) by done.
    eexists. split; [reflexivity|]. split; [|done]. apply (refines_set sv id None None); try done; by rewrite Hu. }
  assert (Hnew : sp_map a !! (name, v) = None).
  { destruct (sp_map a !! (name, v)) as [d|] eqn:Ed; [|done]. destruct (some_entry ls (sp_map a) Hst name v) as (x & Hx & Hxn & Hxv); [by exists d|].
    by destruct (F2 eq_refl x Hx Hxn Hxv). }
  rewrite Hnew.
  pose proof (stores_add ls (sp_map a) Hst m ltac:(unfold version_ok; lia) ltac:(lia) ltac:(by rewrite Hn, Hmv)) as Hst'.
  pose proof (all_meta_add ls m Hi) as Hp. pose proof (meta_index_lt ls (md_version m) Hi) as Hlt.
  assert (E1 : meta_add ls m = (fst (meta_add ls m), false) /\ size_hash (fst (meta_add ls m)) = size_hash ls /\
    meta_done (fst (meta_add ls m)) = meta_done ls /\ forall k, nth k (meta_subs (fst (meta_add ls m))) [] = nth k (meta_subs ls) []).
  { unfold meta_add, notify. rewrite Hbins by done. cbn. repeat split. intros k. rewrite nth_alter. case_decide as Hk; [|done].
    destruct Hk as [-> _]. by rewrite Hbins. }
  destruct E1 as (E1 & E2 & E3 & E4). set (ls' := fst (meta_add ls m)) in *. rewrite E1. cbn [broadcast].
  assert (Hlc : last_cond ls' = last_cond ls) by (unfold last_cond; by rewrite E2).
  assert (Hin : forall x, In x (all_meta ls) -> In x (all_meta ls')).
  { intros x Hx. rewrite <- list_elem_of_In, Hp. right. by apply list_elem_of_In. }
  assert (Hother : forall i w, ~ quiet (Some w) -> sp_threads a !! i = Some w <-> <[id := S_announce name v]> (sp_threads a) !! i = Some w).
  { intros i w Hw. destruct (decide (id = i)) as [<-|Hne]; [|by rewrite lookup_insert_ne].
    rewrite lookup_insert, decide_True, Hu by done. split; intros [= <-]; by destruct Hw. }
  eexists. split; [reflexivity|]. split; [|done].
  split; cbn [fst my_server my_threads my_asleep my_lock sp_map sp_threads sp_next sp_busy set_stores sv_ls sv_remotes sv_next]; rewrite ?Hlc, ?E3; try done.
  - by rewrite <- Hn, <- Hmv, <- Hmd.
  - intros k Hk. rewrite E4. by apply Hbins.
  - intros r. rewrite E4, (Hwait r). split; intros (mode & n & cur & H1 & H2); exists mode, n, cur; (split; [|done]); (eapply Hother; [|exact H1]); by intros ?.
  - intros r Hr. destruct (Hdone r Hr) as (mode & n & cur & w & x & H1 & (H2 & H3) & H4). exists mode, n, cur, w, x.
    split; [apply Hother; [by intros ?|done]|]. split; [split; [by apply Hin|done]|done].
  - intros i mode n cur w Hi'. apply Hother in Hi'; [|by intros ?]. by apply (Hwoken i mode n cur w).
  - intros i. destruct (decide (id = i)) as [<-|Hne].
    + rewrite !lookup_insert, !decide_True by done. split; [|done]. rewrite <- list_elem_of_In, Hp. by left.
    + rewrite !lookup_insert_ne by done. specialize (Hthr i). destruct (my_threads s !! i), (sp_threads a !! i); try done.
      by eapply thread_rel_mono.
  - intros i Hi'. apply Hfr. destruct (decide (id = i)) as [<-|Hne]; [by rewrite Hu|]. by rewrite lookup_insert_ne in Hi'.
Qed.

(** A broadcast leaves none of its condition asleep. *)
Lemma broadcast_wakes cond id l : is_asleep cond id (broadcast true cond l) = false.
Proof using Type.
  apply not_true_is_false. unfold is_asleep, broadcast. intros (t & Ht & Hc)%existsb_exists.
  apply filter_In in Ht as [_ Ht]. apply andb_true_iff in Hc as [Hc _]. by rewrite Hc in Ht.
Qed.

Lemma is_asleep_filter cond id f l : is_asleep cond id l = false -> is_asleep cond id (List.filter f l) = false.
Proof using Type.
  intros Hl. apply not_true_is_false. unfold is_asleep. intros (t & Ht & Hc)%existsb_exists. apply filter_In in Ht as [Ht _].
  apply not_true_iff_false in Hl. apply Hl, existsb_exists. by exists t.
Qed.

Lemma is_asleep_broadcast sent cond cond' id l : is_asleep cond id l = false -> is_asleep cond id (broadcast sent cond' l) = false.
Proof using Type. destruct sent; [apply is_asleep_filter|done]. Qed.

Lemma wake_cases name v t : (forall mode cur, t = S_wait mode name cur -> cur < v) ->
  (exists mode cur, t = S_wait mode name cur /\ cur < v /\ wake name v t = S_woken mode name cur v) \/
  ((forall mode cur, t <> S_wait mode name cur) /\ wake name v t = t).
Proof using Type.
  intros Hok. destruct t as [ | |mode n cur| | ]; try (right; by split). cbn [wake].
  destruct (String.eqb_spec n name) as [->|Hne]; cbn [andb].
  - specialize (Hok mode cur eq_refl). left. exists mode, cur. split; [done|]. split; [done|].
    by destruct (Z.ltb_spec cur v); [|lia].
  - right. split; [|done]. intros mode' cur' [= _ ? _]. done.
Qed.

(** What the second critical section does to the lists. *)
Lemma announce_lists m : let ls' := fst (meta_announce ls m) in
  let hit r := String.eqb (ms_name r) (md_name m) in
  let last := nth (last_cond ls) (meta_subs ls) [] in
  (forall k, nth k (meta_subs ls') []
     = if decide (k = last_cond ls) then List.filter (fun r => negb (hit r)) last else nth k (meta_subs ls) []) /\
  meta_done ls' = map (deliver m) (List.filter hit last) ++ meta_done ls /\
  (List.filter hit last <> [] -> snd (meta_announce ls m) = true) /\
  all_meta ls' = all_meta ls /\ size_hash ls' = size_hash ls /\ stores ls' (sp_map a).
Proof using H.
  pose proof (rf_stores _ _ H) as Hst. fold sv ls in Hst.
  assert (Hlen : (last_cond ls < length (meta_subs ls))%nat) by (rewrite (li_subs _ (st_inv _ _ Hst)); unfold last_cond; lia).
  cbn zeta. unfold meta_announce, notify. cbn [fst snd set_meta meta_subs meta_done all_meta meta_hash size_hash]. fold (last_cond ls).
  split; [|split; [done|split; [|split; [done|split; [done|]]]]].
  - intros k. rewrite nth_alter. destruct (decide (k = last_cond ls)) as [->|Hk]; [by rewrite decide_True by tauto|by rewrite decide_False by tauto].
  - by destruct (List.filter _ _).
  - apply (stores_same ls); try done. cbn. by rewrite length_alter.
Qed.

(** The second critical section of a put. *)
Lemma announce_refines id m name v : my_threads s !! id = Some (T_announce m) -> sp_threads a !! id = Some (S_announce name v) ->
  (forall id' mode cur, sp_threads a !! id' = Some (S_wait mode name cur) -> cur < v) -> step_refines (M_step id).
Proof using H.
  intros Ht Hu Hok. pose proof H as [Hst Hrem Hbins Hwait Hdone Hwoken Hthr Hnext Hbusy Hfr].
  fold sv ls in Hst, Hrem, Hbins, Hwait, Hdone, Hwoken, Hthr, Hnext.
  pose proof (Hthr id) as Htu. rewrite Ht, Hu in Htu. pose proof Htu as (Hin & Hn & Hv).
  destruct (announce_lists m) as (E1 & E2 & E3 & E4 & E5 & Hst'). rewrite Hn in E1, E2, E3.
  unfold step_refines. cbn [sys_step spec_step]. rewrite Ht, Hu. unfold announce_step. fold sv ls.
  destruct (meta_announce ls m) as [ls' sent]. cbn [fst snd] in *.
  set (th' := wake name v <$> delete id (sp_threads a)).
  assert (Hlc : last_cond ls' = last_cond ls) by (unfold last_cond; by rewrite E5).
  assert (Hth : forall i, i <> id -> th' !! i = wake name v <$> sp_threads a !! i).
  { intros i Hi. unfold th'. by rewrite lookup_fmap, lookup_delete_ne by congruence. }
  assert (Hid : th' !! id = None) by (unfold th'; by rewrite lookup_fmap, lookup_delete, decide_True by done).
  eexists. split; [reflexivity|]. split; [|done].
  split; cbn [fst my_server my_threads my_asleep my_lock sp_map sp_threads sp_next sp_busy set_stores sv_ls sv_remotes sv_next]; rewrite ?Hlc; try done.
  - intros k Hk. rewrite E1. case_decide; [lia|by apply Hbins].
  - intros r. rewrite E1, decide_True by done. rewrite filter_In, (Hwait r), negb_true_iff. split.
    + intros ((mode & n & cur & H1 & H2) & H3). exists mode, n, cur. split; [|done].
      rewrite Hth by (intros E0; rewrite E0, Hu in H1; done). rewrite H1. cbn. rewrite H2 in H3. cbn in H3. by rewrite H3.
    + intros (mode & n & cur & H1 & H2). destruct (decide (ms_id r = id)) as [E0|Hne]; [by rewrite E0, Hid in H1|].
      rewrite Hth in H1 by done. destruct (sp_threads a !! ms_id r) as [t|] eqn:Et; [|done]. cbn in H1. injection H1 as H1.
      destruct (wake_cases name v t) as [(mode' & cur' & -> & _ & Hw)|(Hno & Hw)]; [intros mode' cur' ->; by apply (Hok (ms_id r) mode')|congruence|].
      rewrite Hw in H1. subst t. split; [by exists mode, n, cur|]. rewrite H2. cbn. apply String.eqb_neq. intros ->. by apply (Hno mode cur).
  - intros r Hr. rewrite E2 in Hr. apply in_app_or in Hr as [Hr|Hr].
    + apply in_map_iff in Hr as (r0 & <- & Hr0). apply filter_In in Hr0 as [Hr0 Hhit].
      apply Hwait in Hr0 as (mode & n & cur & H1 & H2). rewrite H2 in Hhit. cbn in Hhit. apply String.eqb_eq in Hhit as ->.
      specialize (Hok _ _ _ H1) as Hlt. exists mode, name, cur, v, m. cbn [ms_id deliver].
      rewrite Hth by (intros E0; rewrite E0, Hu in H1; done). rewrite H1. cbn. rewrite String.eqb_refl.
      split; [by destruct (Z.ltb_spec cur v); [|lia]|]. split; [split; [by rewrite E4|done]|]. by rewrite H2.
    + destruct (Hdone r Hr) as (mode & n & cur & w & x & H1 & (H2 & H3) & H4). exists mode, n, cur, w, x.
      rewrite Hth by (intros E0; rewrite E0, Hu in H1; done). rewrite H1. split; [done|]. split; [split; [by rewrite E4|done]|done].
  - intros i mode n cur w Hi. destruct (decide (i = id)) as [->|Hne]; [by rewrite Hid in Hi|]. rewrite Hth in Hi by done.
    destruct (sp_threads a !! i) as [t|] eqn:Et; [|done]. cbn in Hi. injection Hi as Hi.
    destruct (wake_cases name v t) as [(mode' & cur' & -> & _ & _)|(_ & Hw)]; [intros mode' cur' ->; by apply (Hok i mode')| |].
    + assert (Hr : In (reader i name) (List.filter (fun r => String.eqb (ms_name r) name) (nth (last_cond ls) (meta_subs ls) []))).
      { apply filter_In. cbn [ms_name reader]. rewrite String.eqb_refl. split; [|done]. apply Hwait. by exists mode', name, cur'. }
      rewrite E3 by (intros E0; by rewrite E0 in Hr). split; [apply broadcast_wakes|].
      exists (deliver m (reader i name)). split; [|done]. rewrite E2. apply in_or_app. left. by apply in_map.
    + rewrite Hw in Hi. subst t. destruct (Hwoken i mode n cur w Et) as [H1 (r & H2 & H3)].
      split; [by apply is_asleep_broadcast|]. exists r. split; [|done]. rewrite E2. apply in_or_app. by right.
  - intros i. destruct (decide (i = id)) as [->|Hne]; [by rewrite lookup_delete, Hid, decide_True by done|].
    rewrite Hth, lookup_delete_ne by congruence. specialize (Hthr i).
    destruct (my_threads s !! i) as [t|], (sp_threads a !! i) as [u|] eqn:Et; try done. cbn.
    apply (thread_rel_mono ls ls' (sp_map a) (sp_map a)) in Hthr; [|by rewrite E4|done].
    destruct (wake_cases name v u) as [(mode' & cur' & -> & Hlt & ->)|(_ & ->)]; [intros mode' cur' ->; by apply (Hok i mode')| |done].
    destruct t; try done. cbn in *. tauto.
  - intros i Hi. destruct (decide (i = id)) as [->|Hne]; [by rewrite Hid in Hi; destruct Hi|]. rewrite Hth in Hi by done.
    apply Hfr. destruct (sp_threads a !! i); [by eexists|by destruct Hi].
Qed.

(** Other threads fall asleep or wake up. *)
Lemma refines_asleep al :
  (forall id mode name cur v, sp_threads a !! id = Some (S_woken mode name cur v) -> is_asleep (last_cond ls) id al = false) ->
  refines (mkSys sv (my_threads s) al (my_lock s)) a.
Proof using H. intros Hal. destruct H. split; try done. intros id mode name cur v Hid. split; [by eapply Hal|]. by eapply rf_woken0. Qed.

(** A reader that waits finds nothing. *)
Lemma resume_waiting id mode name cur : sp_threads a !! id = Some (S_wait mode name cur) -> meta_resume ls id = None.
Proof using H.
  intros Hu. pose proof H as [Hst _ Hbins Hwait Hdone _ _ _ _ _]. fold sv ls in Hst, Hbins, Hwait, Hdone.
  unfold meta_resume. destruct (find _ _) as [r|] eqn:Ef; [|done]. cbn [mbind option_bind].
  apply find_some in Ef as [Hr Hid%Nat.eqb_eq]. apply in_app_or in Hr as [Hr|Hr].
  { destruct (Hdone r Hr) as (mode' & n & cur' & v & m & E1 & _). by rewrite Hid, Hu in E1. }
  apply in_concat in Hr as (l & Hl & Hr). apply (In_nth _ _ []) in Hl as (k & Hk & <-).
  rewrite (li_subs _ (st_inv _ _ Hst)) in Hk. fold (last_cond ls) in Hk.
  destruct (decide (k = last_cond ls)) as [->|Hne]; [|by rewrite Hbins in Hr by lia].
  apply Hwait in Hr as (mode' & n & cur' & _ & ->). done.
Qed.

(** One that was woken finds an entry of the version that woke it. *)
Lemma resume_woken id mode name cur v : sp_threads a !! id = Some (S_woken mode name cur v) ->
  exists m, meta_resume ls id = Some m /\ entry_of ls (sp_map a) name v m.
Proof using H.
  intros Hu. pose proof H as [_ _ _ _ Hdone Hwoken _ _ _ _]. fold sv ls in Hdone, Hwoken.
  destruct (Hwoken _ _ _ _ _ Hu) as (_ & r & Hr & Hid). unfold meta_resume. rewrite find_app.
  destruct (find (fun s => (ms_id s =? id)%nat) (meta_done ls)) as [r'|] eqn:Ef.
  - apply find_some in Ef as [Hr' Hid'%Nat.eqb_eq]. destruct (Hdone r' Hr') as (mode' & n & cur' & w & m & E1 & E2 & E3).
    rewrite Hid', Hu in E1. injection E1 as <- <- <- <-. rewrite E3. by exists m.
  - pose proof (find_none _ _ Ef r Hr) as Hf. cbn in Hf. by rewrite Hid, Nat.eqb_refl in Hf.
Qed.

(** The thread of a woken reader leaves the list. *)
Lemma refines_drop id mode name cur v t u : sp_threads a !! id = Some (S_woken mode name cur v) ->
  threads_rel ls (sp_map a) t u -> quiet u ->
  refines (mkSys (set_stores (drop_reader id ls) (sv_ps sv) sv) (partial_alter (fun _ => t) id (my_threads s)) (my_asleep s) (my_lock s))
    (mkSpec (sp_map a) (partial_alter (fun _ => u) id (sp_threads a)) (sp_next a) (sp_busy a)).
Proof using H.
  intros Hu Htu Hq. pose proof H as [Hst Hrem Hbins Hwait Hdone Hwoken Hthr Hnext Hbusy Hfr].
  fold sv ls in Hst, Hrem, Hbins, Hwait, Hdone, Hwoken, Hthr, Hnext.
  assert (Hback : forall i w, ~ quiet (Some w) -> partial_alter (fun _ => u) id (sp_threads a) !! i = Some w -> i <> id /\ sp_threads a !! i = Some w).
  { intros i w Hw Hi. destruct (decide (id = i)) as [<-|Hne]; [|by rewrite lookup_partial_alter_ne in Hi].
    rewrite lookup_partial_alter_eq in Hi. by rewrite Hi in Hq. }
  split; cbn [my_server my_threads my_asleep my_lock sp_map sp_threads sp_next sp_busy set_stores sv_ls sv_remotes sv_next drop_reader set_meta meta_subs meta_done];
    try done.
  - by apply (stores_same ls).
  - intros r. etransitivity; [apply Hwait|]. split; intros (mode' & n & cur' & H1 & H2); exists mode', n, cur'; (split; [|done]).
    + rewrite lookup_partial_alter_ne; [done|]. intros E0. by rewrite <- E0, Hu in H1.
    + by apply Hback in H1 as [_ H1]; [|intros ?].
  - intros r Hr. apply filter_In in Hr as [Hr Hne]. apply negb_true_iff, Nat.eqb_neq in Hne.
    destruct (Hdone r Hr) as (mode' & n & cur' & w & m & H1 & H2). exists mode', n, cur', w, m. by rewrite lookup_partial_alter_ne by done.
  - intros i mode' n cur' w Hi. apply Hback in Hi as [Hne Hi]; [|by intros ?]. destruct (Hwoken _ _ _ _ _ Hi) as [H1 (r & H2 & H3)].
    split; [done|]. exists r. split; [|done]. apply filter_In. split; [done|]. apply negb_true_iff, Nat.eqb_neq. congruence.
  - intros i. destruct (decide (id = i)) as [<-|Hne]; [by rewrite !lookup_partial_alter_eq|]. rewrite !lookup_partial_alter_ne by done. apply Hthr.
  - intros i Hi. apply Hfr. destruct (decide (id = i)) as [<-|Hne]; [by rewrite Hu|]. by rewrite lookup_partial_alter_ne in Hi.
Qed.

Lemma wait_refines id mode name : my_threads s !! id = Some (T_wait mode name) -> step_refines (M_step id).
Proof using H.
  intros Ht. pose proof (rf_threads _ _ H id) as Hthr. rewrite Ht in Hthr. fold sv ls in Hthr.
  destruct (sp_threads a !! id) as [u|] eqn:Hu; [|done]. unfold step_refines. cbn [sys_step spec_step]. rewrite Ht, Hu.
  unfold wait_step. fold sv ls. destruct u as [| |mode' n cur|mode' n cur v|]; try done.
  - destruct (is_asleep _ _ _); [by exists s|]. rewrite (resume_waiting id mode' n cur Hu). eexists. split; [reflexivity|]. split; [|done].
    apply refines_asleep. intros i mode1 n1 cur1 v1 Hi. unfold is_asleep. cbn [existsb fst snd]. apply orb_false_iff.
    split; [|by apply (rf_woken _ _ H i mode1 n1 cur1 v1)]. apply andb_false_iff. right. apply Nat.eqb_neq. intros ->. by rewrite Hu in Hi.
  - destruct Hthr as (<- & <- & Hmode & Hlt). destruct (rf_woken _ _ H _ _ _ _ _ Hu) as [Has _]. fold sv ls in Has. rewrite Has.
    destruct (resume_woken id mode name cur v Hu) as (m & Hres & He). rewrite Hres.
    destruct mode; [done| |].
    + eexists. split; [unfold got; by rewrite (got_reply m name v 0 0 He)|]. split; [|done].
      by apply (refines_drop id META_MODE_NEXT name cur v None None).
    + eexists. split; [reflexivity|]. split; [|done].
      by apply (refines_drop id META_MODE_LAST name cur v (Some (T_last name m)) (Some (S_last name cur v))).
Qed.

Lemma last_refines id name m : my_threads s !! id = Some (T_last name m) -> step_refines (M_step id).
Proof using H.
  intros Ht. pose proof (rf_threads _ _ H id) as Hthr. rewrite Ht in Hthr. pose proof (rf_stores _ _ H) as Hst.
  pose proof (rf_next _ _ H) as Hnext. pose proof (rf_remotes _ _ H) as Hrem. fold sv ls in Hthr, Hst, Hnext, Hrem.
  destruct (sp_threads a !! id) as [u|] eqn:Hu; [|done]. unfold step_refines. cbn [sys_step spec_step]. rewrite Ht, Hu.
  destruct u as [| | | |n cur v]; try done. destruct Hthr as (<- & Hlt & He). pose proof He as (Hin & Hn & Hv).
  unfold last_step, query_meta_check. fold sv ls. pose proof (entry_version ls (sp_map a) Hst m Hin) as Hok.
  rewrite version_ok_i32 by done. rewrite Hv. unfold version_ok in Hok. pose proof (st_max _ _ Hst m Hin) as Hmax.
  pose proof (find_next_version ls (sp_map a) Hst name v false 0 ltac:(lia) ltac:(lia)) as Hf.
  pose proof (next_version_spec (sp_map a) name v) as Hs.
  destruct (next_version (sp_map a) name v) as [w|] eqn:En.
  - destruct Hf as (x & -> & Hx). cbn [mbind option_bind]. eexists. split; [reflexivity|]. split; [|done].
    apply (refines_set sv id (Some (T_last name x)) (Some (S_last name cur w))); try done; [apply (rf_busy _ _ H)| |by rewrite Hu|].
    + split; [done|]. split; [lia|done].
    + intros _. apply (rf_fresh _ _ H). by rewrite Hu.
  - rewrite Hf. cbn [mbind option_bind]. rewrite (no_next_last (sp_map a) name cur v); [|by rewrite (entry_data ls (sp_map a) Hst name v m)|done|done].
    eexists. split; [unfold got; by rewrite (got_reply m name v 0 0 He)|]. split; [|done].
    apply (refines_set sv id None None); try done; [apply (rf_busy _ _ H)|by rewrite Hu].
Qed.

Lemma step_refines_all c : call_ok (size_hash ls) a c -> step_refines c.
Proof using H.
  destruct c as [name version data|name mode current|id|id]; [apply put_refines|apply get_refines| |]; intros Hc.
  - pose proof (rf_threads _ _ H id) as Hthr. destruct (my_threads s !! id) as [t|] eqn:Ht.
    2:{ destruct (sp_threads a !! id) eqn:Hu; [done|]. exists s. unfold step_refines. cbn [sys_step spec_step]. by rewrite Ht, Hu. }
    destruct (sp_threads a !! id) as [u|] eqn:Hu; [|done]. cbn [call_ok] in Hc. rewrite Hu in Hc.
    destruct t as [m|m|mode name|name m], u; try done; [by eapply add_refines|by eapply announce_refines|by eapply wait_refines..|by eapply last_refines].
  - eexists. split; [reflexivity|]. split; [|done]. apply refines_asleep. intros i mode name cur v Hi.
    apply is_asleep_filter. by apply (rf_woken _ _ H i mode name cur v).
Qed.
End Steps.

(** ** Properties *)

(** C8: The metadata store does what [src/include/dspaces.h] promises.  In a
    session of puts and queries of clients on a server without remote systems,
    their threads, the critical sections of puts and the rounds of queries
    interleaved in any way, with waits that return without a broadcast, every
    answer is that of a finite map from names and versions to data: the first
    put of a key is kept; a query for a version finds exactly that entry; one
    for the next version gets the lowest newer than its [current], or waits and
    gets a newer one that arrives; one for the last version gets the highest
    there is in its last round; and a waiting query goes on the first time its
    thread runs after a newer version was announced.  The session is one in
    which a version that is announced is newer than the [current] of the
    readers then waiting for its name: without this the code breaks the promise
    ([LocalStorage.meta_next_delivers_any_version], and [same_version_twice] and
    [older_version] below). *)
Theorem metadata_refines_map `{E : Env} cs : forall s a, refines s a ->
  session_ok (size_hash (sv_ls (my_server s))) a cs ->
  exists s', sys_run s cs = Some (s', snd (spec_run a cs)) /\ refines s' (fst (spec_run a cs)).
Proof.
  induction cs as [|c cs IH]; intros s a H Hcs; [by exists s|]. cbn [session_ok] in Hcs. destruct Hcs as [Hc Hcs].
  destruct (step_refines_all s a H c Hc) as (s1 & E1 & H1 & Hs). cbn [sys_run spec_run]. rewrite E1. cbn [mbind option_bind].
  destruct (spec_step a c) as [a1 v]. cbn [fst snd] in *. rewrite <- Hs in Hcs.
  destruct (IH s1 a1 H1 Hcs) as (s' & -> & Hs'). cbn [mbind option_bind]. exists s'.
  destruct (spec_run a1 cs) as [a2 vs]. done.
Qed.

Lemma empty_stores n : 0 < n -> n < 2 ^ 31 -> stores (ls_alloc n) ∅.
Proof.
  intros Hn Hm. assert (Hall : all_meta (ls_alloc n) = []) by (unfold all_meta; cbn; apply concat_replicate_nil).
  split; [by apply ls_inv_alloc|by rewrite Hall|]. intros name v d. rewrite lookup_empty, Hall. split; [done|]. by intros (m & [] & _).
Qed.

(** A server without entries and readers. *)
Lemma refines_start sv n : sv_ls sv = ls_alloc n -> 0 < n -> n < 2 ^ 31 -> sv_remotes sv = [] ->
  refines (mkSys sv ∅ [] false) (mkSpec ∅ ∅ (sv_next sv) false).
Proof.
  intros Hls Hn Hm Hr. assert (Hnth : forall k, nth k (meta_subs (ls_alloc n)) [] = []).
  { intros k. cbn [ls_alloc meta_subs]. apply nth_replicate_same. }
  split; cbn [my_server my_threads my_asleep my_lock sp_map sp_threads sp_next sp_busy]; rewrite ?Hls; try done.
  - by apply empty_stores.
  - intros r. rewrite Hnth. split; [done|]. intros (mode & name & cur & H & _). by rewrite lookup_empty in H.
  - intros id [t H]. by rewrite lookup_empty in H.
Qed.

(** ** A concrete session *)

#[local] Instance meta_env : Env := {
  env_fuel := 0;
  env_dim := 0;
  env_coord := zero_coord;
  env_malloc n := replicate n 0;
  env_py_exec _ _ _ := None;
  env_remote_get _ _ _ := None;
  env_lz4_compress _ := None
}.

Definition meta_conf : ds_conf := mkConf 2 (4 :: 3 :: replicate 8 0) 3 ssd_hash_version_v2.

(** The conditions on a session, computed. *)
Definition call_okb (size : Z) (a : meta_spec) (c : meta_call) : bool :=
  match c with
  | M_put _ version _ => (0 <=? version) && (version + size <? 2 ^ 31)
  | M_get _ mode current =>
      match mode_of mode with
      | None => false
      | Some META_MODE_SPEC => (0 <=? current) && (current <? 2 ^ 31)
      | Some _ => (-1 <=? current) && (current + size <? 2 ^ 31)
      end
  | M_step id =>
      match sp_threads a !! id with
      | Some (S_announce name version) =>
          forallb (fun e => match snd e with
                            | S_wait _ name' current => negb (String.eqb name' name) || (current <? version)
                            | _ => true
                            end) (map_to_list (sp_threads a))
      | _ => true
      end
  | M_spurious _ => true
  end.

Fixpoint session_okb (size : Z) (a : meta_spec) (cs : list meta_call) : bool :=
  match cs with
  | [] => true
  | c :: cs => call_okb size a c && session_okb size (fst (spec_step a c)) cs
  end.

Lemma call_okb_sound size a c : call_okb size a c = true -> call_ok size a c.
Proof.
  destruct c as [name version data|name mode current|id|id]; cbn [call_okb call_ok]; [lia| | |done].
  - destruct (mode_of mode) as [[]|]; unfold version_ok; [lia..|done].
  - destruct (sp_threads a !! id) as [[name version data|name version| | |]|]; try done.
    rewrite forallb_forall. intros Hall id' mode current Hid. specialize (Hall (id', S_wait mode name current)).
      rewrite <- list_elem_of_In, elem_of_map_to_list in Hall. specialize (Hall Hid). cbn [snd] in Hall.
      rewrite String.eqb_refl in Hall. cbn in Hall. lia.
Qed.

Lemma session_okb_sound size cs : forall a, session_okb size a cs = true -> session_ok size a cs.
Proof.
  induction cs as [|c cs IH]; intros a H; [done|]. cbn [session_okb session_ok] in *. apply andb_true_iff in H as [H1 H2].
  split; [by apply call_okb_sound|by apply IH].
Qed.

(** A put, seen before it is announced, while a put of the same key waits for
    the lock; readers of the next (6) and the last version (7) that wait, one
    woken for no reason; two puts, of which the announcement of the first wakes
    both readers, and the reader of the last version sees the second too. *)
Definition meta_session : list meta_call :=
  [M_put "m" 7 [1]; M_get "m" 1 7; M_step 1; M_get "m" 1 7; M_put "m" 7 [2]; M_step 4; M_step 1; M_step 4;
   M_get "m" 2 6; M_get "m" 2 7; M_get "m" 3 7; M_spurious 6; M_step 6; M_put "m" 9 []; M_put "m" 12 [3];
   M_step 8; M_step 9; M_step 8; M_step 9; M_step 6; M_step 7; M_step 7; M_step 7; M_step 9; M_step 7].

Definition meta_answers : list meta_ret :=
  [V_thread 1; V_got (0, Some (-1, None)); V_idle; V_got (0, Some (7, Some [1])); V_thread 4; V_idle; V_put 0; V_put 0;
   V_got (0, Some (7, Some [1])); V_thread 6; V_thread 7; V_idle; V_idle; V_thread 8; V_thread 9;
   V_idle; V_idle; V_put 0; V_idle; V_got (0, Some (9, None)); V_idle; V_idle; V_got (0, Some (12, Some [3])); V_put 0; V_idle].

Lemma metadata_refines_map_witness :
  exists sv s', dsg_alloc 0 1 "addr" meta_conf [] [] 1 = Some sv /\ sv_next sv = 1%nat /\
    sys_run (mkSys sv ∅ [] false) meta_session = Some (s', meta_answers).
Proof.
  destruct (dsg_alloc 0 1 "addr" meta_conf [] [] 1) as [sv|] eqn:E0; [|vm_compute in E0; discriminate E0].
  assert (Hf : sv_ls sv = ls_alloc 3 /\ sv_remotes sv = [] /\ sv_next sv = 1%nat) by (vm_compute in E0; injection E0 as <-; done).
  destruct Hf as (Hls & Hr & Hn).
  destruct (metadata_refines_map meta_session (mkSys sv ∅ [] false) (mkSpec ∅ ∅ (sv_next sv) false)) as (s' & Hs & _).
  - apply (refines_start sv 3); [exact Hls|lia|lia|exact Hr].
  - cbn [my_server]. rewrite Hls, Hn. apply session_okb_sound. vm_compute. reflexivity.
  - exists sv, s'. split; [reflexivity|]. split; [exact Hn|]. rewrite Hn in Hs. rewrite Hs. vm_compute. reflexivity.
Defined.

(** Where the promise is broken.  A reader that has got version 7 between the
    two critical sections of its put asks for a newer one, and gets version 7
    again. *)
Definition answers (cs : list meta_call) : option (list meta_ret) :=
  sv ← dsg_alloc 0 1 "addr" meta_conf [] [] 1; '(_, vs) ← sys_run (mkSys sv ∅ [] false) cs; Some vs.

Example same_version_twice :
  answers [M_put "m" 7 [1]; M_step 1; M_get "m" 2 (-1); M_get "m" 2 7; M_step 1; M_step 3]
  = Some [V_thread 1; V_idle; V_got (0, Some (7, Some [1])); V_thread 3; V_put 0; V_got (0, Some (7, Some [1]))].
Proof. vm_compute. reflexivity. Qed.

(** One that waits for a version after 7 gets version 2. *)
Example older_version :
  answers [M_put "m" 7 [1]; M_step 1; M_step 1; M_get "m" 2 7; M_put "m" 2 [2]; M_step 3; M_step 3; M_step 2]
  = Some [V_thread 1; V_idle; V_put 0; V_thread 2; V_thread 3; V_idle; V_put 0; V_got (0, Some (2, Some [2]))].
Proof. vm_compute. reflexivity. Qed.
