(* ===== verification/EndToEnd.v ===== *)
(** * EndToEnd: from a put to a get

    Clients and servers together: the objects put on any servers
    ([put_rpc]), indexed by the cluster ([Cluster]), queried by a client,
    fetched from the servers that own the pieces ([get_rpc]) and assembled in
    the client's buffer ([get_data] of [src/src/dspaces-client.c]). *)

From S2P Require Import Prelude BBox ObjDesc Linear Sspace DhtEntry StrHash LocalStorage Matrix Codec Modules Server Cluster Client Access.

(** ** Puts of a history *)

Record put := mkPut { pt_rank : nat; pt_odsc : obj_descriptor; pt_gdim : global_dimension; pt_data : list Z }.

Definition puts_of (e : event) : list put :=
  match e with E_put r o gd data => [mkPut r o gd data] | _ => [] end.

Definition all_puts (es : list event) : list put := flat_map puts_of es.

(** Objects in server storage only. *)
Definition server_event (e : event) : Prop :=
  match e with
  | E_put_local _ _ _ => False
  | E_put _ o _ data =>
      Z.of_nat (length data) = obj_data_size o /\ Z.land (od_flags o) DS_CLIENT_STORAGE = 0
  | _ => True
  end.

Definition put_pair (p : put) : nat * obj_descriptor := (pt_rank p, pt_odsc p).

Lemma all_puts_published es : Forall server_event es -> map put_pair (all_puts es) = puts es.
Proof.
  induction 1 as [|e es He _ IH]; [done|]. unfold all_puts, puts in *. cbn [flat_map]. rewrite map_app, IH.
  by destruct e.
Qed.

Section EndToEnd.
Context `{E : Env}.

(** ** What a handler leaves of a server *)

(** The store, the address, and the contents of the default index up to the
    descriptor [o]. *)
Record follows (o : option obj_descriptor) (sv sv' : server) : Prop := {
  fo_store : same_store sv sv';
  fo_addr : own_address sv' = own_address sv;
  fo_cells : forall c, In c (cells (sp_dht (sv_default sv'))) ->
    In c (cells (sp_dht (sv_default sv))) \/ o = Some (snd c)
}.

Lemma same_store_trans x y z : same_store x y -> same_store y z -> same_store x z.
Proof. intros [] []. split; try congruence. lia. Qed.

Lemma follows_refl o sv : follows o sv sv.
Proof. split; [by split|done|auto]. Qed.

Lemma follows_trans o x y z : follows o x y -> follows o y z -> follows o x z.
Proof.
  intros [] []. split; [by eapply same_store_trans|congruence|]. intros c Hc.
  destruct (fo_cells1 c Hc); auto.
Qed.

Lemma lookup_sspace_follows o sv gd sv' ref : lookup_sspace sv gd = Some (sv', ref) -> follows o sv sv'.
Proof.
  intros H. pose proof (lookup_sspace_store sv gd sv' ref H) as Hs. split; [done| |].
  - unfold lookup_sspace in H. destruct (global_dimension_equal _ _); [by injection H as <- <-|].
    destruct (find_space _ _ _); [by injection H as <- <-|]. destruct (make_space _ _ _ _ _); [|done]. by injection H as <- <-.
  - unfold lookup_sspace in H. destruct (global_dimension_equal _ _); [injection H as <- <-; auto|].
    destruct (find_space _ _ _); [injection H as <- <-; auto|]. destruct (make_space _ _ _ _ _); [|done].
    injection H as <- <-. auto.
Qed.

Lemma local_new_follows sv ref o sv' :
  obj_update_local_dht sv ref o DS_OBJ_NEW = Some sv' -> follows (Some o) sv sv'.
Proof.
  intros H. split; [by eapply local_update_store| |].
  - unfold obj_update_local_dht in H. destruct (get_space sv ref); [|done]. injection H as <-. by destruct ref.
  - unfold obj_update_local_dht in H. destruct (get_space sv ref) as [sp|] eqn:Eg; [|done].
    injection H as <-. intros c. destruct ref as [|n]; [|by left]. cbn [get_space] in Eg. injection Eg as <-.
    cbn [set_space_dht set_spaces sv_default sp_dht]. intros [?|<-]%cells_add_entry; auto.
Qed.

Lemma update_peers_follows ref o gd tab : forall sv sv' out,
  update_peers sv ref o gd DS_OBJ_NEW tab = Some (sv', out) ->
  follows (Some o) sv sv' /\ Forall (fun u => u_odsc u = o /\ u_type u = DS_OBJ_NEW) out.
Proof.
  induction tab as [|p tab IH]; intros sv sv' out H; cbn [update_peers] in H.
  { injection H as <- <-. split; [apply follows_refl|constructor]. }
  destruct (ptr_rank p =? sv_rank sv)%nat.
  - destruct (obj_update_local_dht sv ref o DS_OBJ_NEW) as [sv1|] eqn:E1; [|done]. cbn [mbind option_bind] in H.
    destruct (IH _ _ _ H) as [Hf Ho]. split; [|done]. eapply follows_trans; [by eapply local_new_follows|exact Hf].
  - destruct (update_peers sv ref o gd DS_OBJ_NEW tab) as [[sv1 out1]|] eqn:E1; [|done]. cbn [mbind option_bind] in H.
    injection H as <- <-. destruct (IH _ _ _ E1) as [Hf Ho]. split; [done|]. by constructor.
Qed.

Lemma update_dht_follows sv o gd sv' out :
  obj_update_dht sv o gd DS_OBJ_NEW = Some (sv', out) ->
  follows (Some o) sv sv' /\ Forall (fun u => u_odsc u = o /\ u_type u = DS_OBJ_NEW) out.
Proof.
  unfold obj_update_dht. destruct (lookup_sspace sv gd) as [[sv1 ref]|] eqn:E1; [|done]. cbn [mbind option_bind].
  destruct (get_space sv1 ref); [|done]. cbn [mbind option_bind].
  destruct (ssd_hash _ _ _ _) as [[tab c]|]; [|done]. cbn [mbind option_bind]. intros H.
  assert (H1 : follows (Some o) sv (set_cache c sv1)).
  { eapply follows_trans; [by eapply lookup_sspace_follows|]. split; [by split|done|auto]. }
  destruct tab as [|p tab].
  - destruct (obj_update_local_dht _ _ _ _) as [sv2|] eqn:E2; [|done]. cbn [mbind option_bind] in H.
    injection H as <- <-. split; [|constructor]. eapply follows_trans; [exact H1|by eapply local_new_follows].
  - destruct (update_peers_follows _ _ _ _ _ _ _ H) as [Hf Ho]. split; [|done]. by eapply follows_trans.
Qed.

Lemma put_rpc_follows sv o gd data sv' out ret :
  put_rpc sv o gd (Some data) = Some (sv', out, ret) ->
  let o' := odsc_take_ownership sv o in
  own_address sv' = own_address sv /\
  (forall c, In c (cells (sp_dht (sv_default sv'))) ->
     In c (cells (sp_dht (sv_default sv))) \/ snd c = o') /\
  sv_drain sv' = sv_drain sv /\
  Forall (fun u => u_odsc u = o' /\ u_type u = DS_OBJ_NEW) out.
Proof.
  intros H o'. unfold put_rpc in H. fold o' in H. destruct (obj_data_alloc _ _); [|done]. cbn [mbind option_bind] in H.
  destruct (bulk_write _ _ _) as [d|]; [|done]. cbn [mbind option_bind] in H.
  destruct (obj_update_dht _ _ _ _) as [[sv1 out1]|] eqn:E1; [|done]. cbn [mbind option_bind] in H. injection H as <- <- <-.
  destruct (update_dht_follows _ _ _ _ _ E1) as [[Hs Ha Hc] Ho]. split; [exact Ha|]. split; [|split; [apply Hs|done]].
  intros c Hin. destruct (Hc c Hin) as [?|[= ->]]; auto.
Qed.

(** ** Where the data is *)

Section Data.
Context (N : nat) (G : global_dimension) (ss : sspace) (mv : Z) (addr : nat -> string).
Context (Hss : ss_hash_version ss = ssd_hash_version_v2) (Hlen : length (ss_ent_tab ss) = N).

(** The descriptor a server stores and publishes for a put, and the object. *)
Definition owned_odsc (p : put) : obj_descriptor := set_owner (addr (pt_rank p)) (pt_odsc p).

Definition put_object (id : nat) (p : put) : obj_data :=
  mkObj id (owned_odsc p) (pt_gdim p) (pt_data p) 0 false.

(** Every put object is where it was put, and what is indexed or in flight
    are the descriptors of puts. *)
Record data_inv (P : list put) (c : cluster) : Prop := {
  di_addr : forall r sv, cl_servers c !! r = Some sv -> own_address sv = addr r;
  di_plain : forall r sv, cl_servers c !! r = Some sv ->
    plain_server sv /\ size_hash (sv_ls sv) = mv /\ sv_drain sv = [];
  di_holds : forall p sv, In p P -> cl_servers c !! pt_rank p = Some sv ->
    small_obj (pt_odsc p) /\ exists id, holds (put_object id p) mv sv;
  di_cells : forall r sv x, cl_servers c !! r = Some sv ->
    In x (cells (sp_dht (sv_default sv))) -> exists p, In p P /\ snd x = owned_odsc p;
  di_net : forall u, In u (cl_net c) -> u_type u = DS_OBJ_NEW /\ exists p, In p P /\ u_odsc u = owned_odsc p
}.

Lemma plain_same sv sv' : plain_server sv -> same_store sv sv' -> plain_server sv'.
Proof.
  intros [H1 H2 H3 H4] [Hl Hd Hm Hr Hn]. split; rewrite ?Hl, ?Hm, ?Hr; try done. intros x Hx.
  specialize (H2 x Hx). lia.
Qed.

Lemma holds_plain d sv : holds d mv sv -> plain_server sv.
Proof. by intros []. Qed.

(** A server replaced by one that follows it, with messages about [P]. *)
Lemma data_replace (P : list put) c r sv sv' out :
  data_inv P c -> cl_servers c !! r = Some sv -> same_store sv sv' -> own_address sv' = own_address sv ->
  (forall x, In x (cells (sp_dht (sv_default sv'))) ->
     In x (cells (sp_dht (sv_default sv))) \/ exists p, In p P /\ snd x = owned_odsc p) ->
  (forall u, In u out -> u_type u = DS_OBJ_NEW /\ exists p, In p P /\ u_odsc u = owned_odsc p) ->
  data_inv P (replace_server c r sv' out).
Proof.
  intros [] Hr Hs Ha Hc Ho. split; cbn [cl_servers cl_net replace_server].
  - intros r' sv2. rewrite list_lookup_insert_Some. intros [(<- & <- & _)|[_ H2]]; [|eauto].
    rewrite Ha. eauto.
  - intros r' sv2. rewrite list_lookup_insert_Some. intros [(<- & <- & _)|[_ H2]]; [|eauto].
    destruct (di_plain0 r sv Hr) as (H1 & H2 & H3). split; [by eapply plain_same|].
    by rewrite (ss_ls _ _ Hs), (ss_drain _ _ Hs).
  - intros p sv2 Hp. rewrite list_lookup_insert_Some. intros [(E1 & <- & _)|[_ H2]]; [|eauto].
    rewrite E1 in Hr. destruct (di_holds0 p sv Hp Hr) as (Hsm & id & Hh). split; [done|]. exists id. by eapply holds_same.
  - intros r' sv2 x. rewrite list_lookup_insert_Some. intros [(<- & <- & _)|[_ H2]]; [|eauto].
    intros [Hx|Hx]%Hc; eauto.
  - intros u [Hu|Hu]%in_app_or; eauto.
Qed.

Lemma data_more (P P' : list put) c : data_inv P c -> (forall p, In p P -> In p P') ->
  (forall p sv, In p P' -> cl_servers c !! pt_rank p = Some sv ->
    small_obj (pt_odsc p) /\ exists id, holds (put_object id p) mv sv) -> data_inv P' c.
Proof.
  intros [] Hsub Hh. split; try done.
  - intros r sv x Hr Hx. destruct (di_cells0 r sv x Hr Hx) as (p & ? & ?). eauto.
  - intros u Hu. destruct (di_net0 u Hu) as (? & p & ? & ?). eauto.
Qed.

(** A new object elsewhere leaves a put object alone. *)
Lemma apart_harmless id p o : num_dims (od_bb o) = num_dims (od_bb (pt_odsc p)) ->
  apart mv o (pt_odsc p) -> harmless (put_object id p) mv o.
Proof.
  intros Hd [Hv|Hb]; [by left|]. right. unfold harmless. cbn [put_object owned_odsc obj_desc set_owner od_name od_bb].
  unfold obj_desc_by_name_intersect in Hb. destruct (String.eqb_spec (od_name o) (od_name (pt_odsc p))) as [|Hne].
  - right. by split.
  - by left.
Qed.

Lemma put_data P c r o gd data c' :
  data_inv P c -> Z.of_nat (length data) = obj_data_size o ->
  (forall p, In p P -> pt_rank p = r -> num_dims (od_bb o) = num_dims (od_bb (pt_odsc p)) /\ apart mv o (pt_odsc p)) ->
  step c (E_put r o gd data) = Some c' -> cl_servers c !! r <> None ->
  data_inv (P ++ [mkPut r o gd data]) c'.
Proof.
  intros Hi Hl Hap Hs Hr. set (p0 := mkPut r o gd data). cbn [step] in Hs. unfold at_server in Hs.
  destruct (cl_servers c !! r) as [sv|] eqn:Er; [|done].
  destruct (put_rpc sv o gd (Some data)) as [[[sv' out] ret]|] eqn:Ep; [|done]. cbn [mbind option_bind] in Hs.
  injection Hs as <-. pose proof (di_addr _ _ Hi r sv Er) as Ha. destruct (di_plain _ _ Hi r sv Er) as (Hpl & Hmv & Hdr).
  destruct (put_rpc_follows _ _ _ _ _ _ _ Ep) as (Ha' & Hc & Hd' & Ho).
  unfold odsc_take_ownership in Hc, Ho. rewrite Ha in Hc, Ho. change (set_owner (addr r) o) with (owned_odsc p0) in Hc, Ho.
  assert (Hserve : serve sv (R_put o gd (Some data)) = Some sv') by (cbn [serve]; by rewrite Ep).
  destruct (put_holds sv o gd data sv' Hpl) as [Hsm Hh]; [rewrite Hdr; constructor|done|done|].
  assert (Hobj : put_obj sv o gd data = put_object (sv_next sv) p0).
  { unfold put_obj, odsc_take_ownership. by rewrite Ha. }
  rewrite Hobj, Hmv in Hh. destruct Hi. split; cbn [cl_servers cl_net replace_server].
  - intros r' sv2. rewrite list_lookup_insert_Some. intros [(<- & <- & _)|[_ H2]]; [congruence|eauto].
  - intros r' sv2. rewrite list_lookup_insert_Some. intros [(<- & <- & _)|[_ H2]]; [|eauto].
    split; [by eapply holds_plain|]. split; [apply Hh|congruence].
  - intros p sv2 [Hp|[<-|[]]]%in_app_or; rewrite list_lookup_insert_Some; intros [(E1 & <- & _)|[E1 H2]]; [|eauto| |done].
    + destruct (di_holds0 p sv Hp) as (Hsp & id & Hid); [by rewrite <- E1|]. split; [done|]. exists id.
      apply (serve_holds _ _ sv (R_put o gd (Some data))); [done| |done]. cbn [undisturbing].
      destruct (Hap p Hp) as [? ?]; [done|]. by apply apart_harmless.
    + split; [done|]. by exists (sv_next sv).
  - intros r' sv2 x. rewrite list_lookup_insert_Some. setoid_rewrite in_app_iff.
    intros [(<- & <- & _)|[_ H2]] Hx.
    + destruct (Hc x Hx) as [Hx'|Hx']; [destruct (di_cells0 r sv x Er Hx') as (p & ? & ?); eauto|].
      exists p0. split; [right; by left|done].
    + destruct (di_cells0 r' sv2 x H2 Hx) as (p & ? & ?); eauto.
  - intros u [Hu|Hu]%in_app_or; setoid_rewrite in_app_iff.
    + destruct (di_net0 u Hu) as (? & p & ? & ?). eauto.
    + rewrite Forall_forall in Ho. destruct (Ho u) as [E1 E2]; [by apply list_elem_of_In|].
      split; [done|]. exists p0. split; [right; by left|done].
Qed.

Lemma deliver_data P c i c' :
  data_inv P c -> step c (E_deliver i) = Some c' -> data_inv P c'.
Proof.
  intros Hi Hs. cbn [step] in Hs. destruct (cl_net c !! i) as [u|] eqn:Eu; [|by injection Hs as <-].
  unfold at_server in Hs. cbn [cl_servers] in Hs.
  set (c1 := mkCluster (cl_servers c) (delete i (cl_net c))) in Hs.
  assert (Hi1 : data_inv P c1).
  { destruct Hi. split; try done. cbn [c1 cl_net]. intros x Hx. apply di_net0.
    apply list_elem_of_In in Hx. rewrite <- (take_drop_middle _ _ _ Eu). rewrite delete_take_drop in Hx.
    rewrite in_app_iff. apply elem_of_app in Hx as [Hx|Hx]; apply list_elem_of_In in Hx; simpl; auto. }
  destruct (cl_servers c !! u_dst u) as [sv|] eqn:Er; [|by injection Hs as <-].
  destruct (obj_update_rpc sv u) as [sv'|] eqn:Ep; [|done]. cbn [mbind option_bind] in Hs. injection Hs as <-.
  destruct (di_net _ _ Hi u) as (Ht & p & Hp & Ho); [apply list_elem_of_In; by eapply list_elem_of_lookup_2|].
  unfold obj_update_rpc in Ep. destruct (lookup_sspace sv (u_gdim u)) as [[sv1 ref]|] eqn:E1; [|done].
  cbn [mbind option_bind] in Ep. rewrite Ht, Ho in Ep.
  assert (Hf : follows (Some (owned_odsc p)) sv sv').
  { eapply follows_trans; [by eapply lookup_sspace_follows|by eapply local_new_follows]. }
  destruct Hf as [H1 H2 H3]. apply (data_replace P c1 (u_dst u) sv); try done.
  intros x Hx. destruct (H3 x Hx) as [?|[= <-]]; [by left|]. right. eauto.
Qed.

Lemma event_data H P c e c' :
  cl_inv N G ss mv H c -> data_inv P c -> event_ok N G e -> server_event e ->
  (forall p p', In p P -> In p' (puts_of e) -> pt_rank p = pt_rank p' ->
     num_dims (od_bb (pt_odsc p')) = num_dims (od_bb (pt_odsc p)) /\ apart mv (pt_odsc p') (pt_odsc p)) ->
  step c e = Some c' -> data_inv (P ++ puts_of e) c'.
Proof.
  intros Hci Hi He Hse Hap Hs. destruct e as [r o gd data|r o gd|r reply|i|r q gd]; cbn [puts_of] in *;
    rewrite ?app_nil_r; try done.
  - destruct He as (Hr & _). destruct Hse as [Hl _]. eapply put_data; [done|done| |exact Hs|].
    + intros p Hp Er. apply (Hap p (mkPut r o gd data)); [done|by left|done].
    + intros Hn. apply lookup_ge_None in Hn. rewrite (ci_length _ _ _ _ _ _ Hci) in Hn. lia.
  - cbn [step] in Hs. unfold at_server in Hs. destruct (cl_servers c !! r) as [sv|] eqn:Er; [|by injection Hs as <-].
    destruct (di_plain _ _ Hi r sv Er) as (_ & _ & Hd). unfold drain_step in Hs. rewrite Hd in Hs.
    cbn [mbind option_bind default] in Hs. injection Hs as <-. by rewrite replace_same.
  - by eapply deliver_data.
  - destruct He as [Hr Hgd]. cbn [step] in Hs.
    destruct (query_ok N G ss mv Hss Hlen H c r q gd Hci Hr Hgd) as (c1 & _ & _ & (sv & ca & Er & ->) & Hq).
    rewrite Er, Hq in Hs. cbn [mbind option_bind] in Hs. injection Hs as <-.
    apply (data_replace P c r sv); try done; auto.
Qed.

Lemma run_data es : forall P c c',
  cl_inv N G ss mv (map put_pair P) c -> data_inv P c -> Forall (event_ok N G) es -> Forall server_event es ->
  compatible mv (map (fun so => key (snd so)) (map put_pair P ++ puts es)) ->
  (exists nd, Forall (fun p => num_dims (od_bb (pt_odsc p)) = nd) (P ++ all_puts es)) ->
  run c es = Some c' -> data_inv (P ++ all_puts es) c' /\ cl_inv N G ss mv (map put_pair (P ++ all_puts es)) c'.
Proof.
  unfold run. induction es as [|e es IH]; intros P c c' Hci Hi He Hse Hc Hnd Hrun.
  { cbn [foldl] in Hrun. injection Hrun as <-. cbn [all_puts flat_map]. by rewrite app_nil_r. }
  apply Forall_cons in He as [He1 He]. apply Forall_cons in Hse as [Hs1 Hse].
  cbn [foldl mbind option_bind] in Hrun. destruct (step c e) as [c1|] eqn:Es; [|by rewrite run_none in Hrun].
  assert (Hpub : map put_pair (puts_of e) = published_by e) by (by destruct e).
  cbn [all_puts puts flat_map] in *. fold (all_puts es) (puts es) in *. rewrite <- Hpub in Hc.
  rewrite app_assoc in Hc. rewrite <- map_app in Hc. rewrite app_assoc.
  assert (Hc1 : compatible mv (map (fun so => key (snd so)) (map put_pair (P ++ puts_of e)))).
  { rewrite map_app in Hc. by apply compatible_app_l in Hc. }
  destruct (step_ok N G ss mv Hss Hlen (map put_pair P) c e Hci He1) as (c1' & Es' & Hci1).
  { by rewrite <- Hpub, <- map_app. }
  rewrite Es in Es'. injection Es' as <-. rewrite <- Hpub, <- map_app in Hci1.
  destruct Hnd as [nd Hnd]. apply (IH (P ++ puts_of e) c1); try done.
  - apply (event_data (map put_pair P) P c e c1 Hci Hi He1 Hs1); [|done].
    intros p p' Hp Hp' _. rewrite Forall_forall in Hnd.
    rewrite !Hnd by (apply list_elem_of_In; rewrite !in_app_iff; auto). split; [done|].
    rewrite !map_app in Hc1. apply (compatible_parts mv _ _ (key (pt_odsc p')) (key (pt_odsc p))) in Hc1; [exact Hc1| |].
    + rewrite map_map, list_elem_of_In, in_map_iff. by exists p'.
    + rewrite map_map, list_elem_of_In, in_map_iff. by exists p.
  - exists nd. by rewrite <- app_assoc.
Qed.
End Data.

Lemma start_data N addr conf tokens ss : conf_ok N conf ->
  data_inv (conf_max_versions conf) addr [] (mkCluster (map (first_server N addr conf tokens ss) (seq 0 N)) []).
Proof.
  intros (_ & _ & _ & _ & Hmv).
  assert (Hr : forall r sv, (map (first_server N addr conf tokens ss) (seq 0 N)) !! r = Some sv ->
    sv = first_server N addr conf tokens ss r).
  { intros r sv. rewrite list_lookup_fmap. intros (r' & Hr & ->)%fmap_Some. by apply lookup_seq in Hr as [-> _]. }
  split; cbn [cl_servers cl_net]; try done.
  - by intros r sv ->%Hr.
  - intros r sv ->%Hr. split; [|done]. split; try done; [by apply ls_inv_alloc|].
    intros x. cbn [first_server sv_ls]. unfold all_objs. cbn [ls_alloc obj_hash]. by rewrite concat_replicate_nil.
  - intros r sv x ->%Hr. unfold cells. cbn [first_server sv_default sp_dht dht_entry_alloc odsc_hash].
    by rewrite concat_replicate_nil.
Qed.

(** ** Fetching *)

(** A descriptor is fetched from the server whose address is its owner. *)
Definition cluster_fetch (c : cluster) (o : obj_descriptor) : option (Z * list Z) :=
  '(_, sv) ← list_find (fun sv => own_address sv = od_owner o) (cl_servers c);
  get_rpc sv o false.

(** What the client relies on of LZ4. *)
Definition lz4_ok `{CE : ClientEnv} : Prop :=
  forall buffer c, env_lz4_compress buffer = Some c ->
    (0 < length c <= length buffer)%nat /\ fst (lz4_decompress c (Z.of_nat (length buffer))) = buffer.

(** The uncompressed bytes of the same answer. *)
Definition fetch_bytes (c : cluster) (o : obj_descriptor) : list Z :=
  match list_find (fun sv => own_address sv = od_owner o) (cl_servers c) with
  | Some (_, sv) => match get_rpc sv o true with Some (_, bytes) => bytes | None => [] end
  | None => []
  end.

Lemma owner_found c o r sv (addr : nat -> string) :
  (forall r sv, cl_servers c !! r = Some sv -> own_address sv = addr r) ->
  (forall i j, (i < length (cl_servers c))%nat -> (j < length (cl_servers c))%nat -> addr i = addr j -> i = j) ->
  cl_servers c !! r = Some sv -> od_owner o = addr r ->
  list_find (fun sv => own_address sv = od_owner o) (cl_servers c) = Some (r, sv).
Proof.
  intros Ha Hinj Hr Ho. apply list_find_Some. split; [done|]. split; [rewrite Ho; by apply Ha|].
  intros j y Hj Hlt Eo. rewrite (Ha j y Hj), Ho in Eo. apply Hinj in Eo; [lia|by eapply lookup_lt_Some..].
Qed.

Lemma query_view_within q o id p nd :
  valid_box (od_bb q) -> num_dims (od_bb q) = nd -> valid_box (od_bb o) -> num_dims (od_bb o) = nd ->
  obj_desc_equals_intersect o q = true ->
  let d := query_view q o in
  within (mkObj id o (pt_gdim p) (pt_data p) 0 false) d /\ od_size d = od_size o /\
  num_dims (od_bb d) = nd /\ bbox_does_intersect (od_bb q) (od_bb d) = true.
Proof.
  intros Hvq Hnq Hvo Hno (Hn & Hv & Hb)%obj_desc_equals_intersect_spec d.
  assert (Hbd : od_bb d = bbox_intersect (od_bb q) (od_bb o) (od_bb o)) by done.
  assert (Hpt : forall pt, in_box pt (od_bb d) <-> in_box pt (od_bb q) /\ in_box pt (od_bb o)).
  { intros pt. rewrite Hbd. apply in_box_intersect; [apply Hvq|apply Hvo|congruence]. }
  assert (Hbounds : forall i, (i < nd)%nat ->
    cget (lb (od_bb d)) i = Z.max (cget (lb (od_bb q)) i) (cget (lb (od_bb o)) i) /\
    cget (ub (od_bb d)) i = Z.min (cget (ub (od_bb q)) i) (cget (ub (od_bb o)) i) /\
    cget (lb (od_bb d)) i <= cget (ub (od_bb d)) i).
  { intros i Hi. pose proof Hvq as [(Hq10 & _) Hvq']. pose proof Hvo as [(_ & Hwl & Hwu) Hvo'].
    rewrite Hbd, lb_intersect, ub_intersect by (done || lia).
    unfold bbox_does_intersect in Hb. rewrite for_all_true in Hb. specialize (Hb i ltac:(lia)).
    rewrite bbox_intersect_ondim_spec in Hb.
    pose proof (Hvq' i ltac:(lia)). pose proof (Hvo' i ltac:(lia)). lia. }
  assert (Hvd : valid_box (od_bb d)).
  { split; [rewrite Hbd; apply wf_bbox_intersect; [apply Hvq|apply Hvo|apply Hvo]|].
    intros i Hi. apply Hbounds. by rewrite <- Hnq. }
  unfold within. cbn [obj_desc]. split_and!; try done.
  - change (num_dims (od_bb q) = num_dims (od_bb o)). congruence.
  - intros i Hi. destruct (Hbounds i) as (-> & -> & _); [by rewrite <- Hnq|]. lia.
  - apply does_intersect_common; [done..|]. exists (lb (od_bb d)). split; [|by apply in_box_lb].
    by apply Hpt, in_box_lb.
Qed.

(** ** A get after puts *)

Section Get.
Context `{CE : ClientEnv}.
Context (N : nat) (addr : nat -> string) (conf : ds_conf).
Hypothesis Hconf : conf_ok N conf.
Hypothesis Haddr : forall i j, (i < N)%nat -> (j < N)%nat -> addr i = addr j -> i = j.
Hypothesis Hlz4 : lz4_ok.

Let dom := conf_domain conf.
Let mv := conf_max_versions conf.

(** A matching put that a client can read elements of [size] bytes from. *)
Definition readable (size : Z) (p : put) : Prop :=
  od_size (pt_odsc p) = size /\ copyable size (od_bb (pt_odsc p)) (pt_data p).

(** The result [d] of the query [q] can be fetched and holds the bytes of the
    put [p]. *)
Definition fetchable (c : cluster) (q : obj_descriptor) (p : put) (d : obj_descriptor) : Prop :=
  let bytes := fetch_bytes c d in
  piece_ok (od_size q) (od_bb q) (fetch_bytes c) d /\
  (exists reply, cluster_fetch c d = Some reply /\ carries d bytes reply) /\
  (forall pt, in_box pt (od_bb d) <-> in_box pt (od_bb q) /\ in_box pt (od_bb (pt_odsc p))) /\
  forall pt t, in_box pt (od_bb d) -> 0 <= t < od_size q ->
    bytes !! Z.to_nat (od_size q * box_pos (od_bb d) pt + t)
    = pt_data p !! Z.to_nat (od_size q * box_pos (od_bb (pt_odsc p)) pt + t).

(** One result of a query, fetched from its owner. *)
Lemma fetch_piece ss P c q p :
  data_inv mv addr P c -> cl_inv N (conf_gdim conf) ss mv (map put_pair P) c ->
  In p P -> (pt_rank p < N)%nat -> publishable dom (pt_odsc p) -> readable (od_size q) p ->
  Z.land (od_flags (pt_odsc p)) DS_CLIENT_STORAGE = 0 ->
  query_box dom q -> obj_desc_equals_intersect (pt_odsc p) q = true ->
  fetchable c q p (query_view q (owned_odsc addr p)).
Proof.
  intros Hdi Hci Hp Hr [Hvo Hdo] [Hsz Hcopy] Hfl (Hvq & Hdq & Hvol) Hm. set (d := query_view q (owned_odsc addr p)).
  set (size := od_size q) in *.
  destruct (cl_servers c !! pt_rank p) as [sv|] eqn:Er;
    [|apply lookup_ge_None in Er; rewrite (ci_length _ _ _ _ _ _ Hci) in Er; lia].
  destruct (di_holds _ _ _ _ Hdi p sv Hp Er) as (Hsm & id & Hh).
  destruct (query_view_within q (owned_odsc addr p) id p _ Hvq Hdq Hvo Hdo Hm) as (Hw & Hds & Hdd & Hmeet).
  fold d in Hw, Hds, Hdd, Hmeet. fold (put_object addr id p) in Hw.
  assert (Hcp : copyable (od_size (obj_desc (put_object addr id p))) (od_bb (obj_desc (put_object addr id p)))
                  (ob_data (put_object addr id p))).
  { cbn [put_object obj_desc ob_data owned_odsc set_owner od_size od_bb]. by rewrite Hsz. }
  assert (Hsd : od_size d = size) by (rewrite Hds; exact Hsz).
  destruct (get_rpc_holds _ _ sv d Hh Hcp Hsm Hw Hds) as (bytes & Hget & Hlen & Hdata).
  destruct (within_size _ d Hcp Hw Hds) as [_ Hcd]. specialize (Hcd bytes Hlen). rewrite Hsd in *.
  assert (Hfind : list_find (fun sv => own_address sv = od_owner d) (cl_servers c) = Some (pt_rank p, sv)).
  { apply (owner_found c d (pt_rank p) sv addr); [apply Hdi| |done|done].
    intros i j. rewrite (ci_length _ _ _ _ _ _ Hci). apply Haddr. }
  assert (Hb : fetch_bytes c d = bytes) by (unfold fetch_bytes; by rewrite Hfind, (Hget true)).
  unfold fetchable. cbv zeta. rewrite Hb. split; [|split; [|split]].
  - split; [|done|by rewrite Hb|congruence|exact Hmeet]. unfold small_obj in *. rewrite <- Hlen.
    pose proof (within_volume _ d Hw) as Hv. pose proof (copyable_size _ _ Hcp) as Hcs.
    cbn [put_object obj_desc ob_data] in Hcs, Hv. change (obj_data_size (owned_odsc addr p)) with (obj_data_size (pt_odsc p)) in Hcs.
    rewrite <- Hcs in Hsm. destruct Hcd as (_ & _ & _ & Hs0 & -> & _). destruct Hcopy as (_ & _ & _ & _ & Hl2 & _).
    cbn [owned_odsc set_owner od_bb] in Hv. rewrite Hl2 in Hsm. nia.
  - exists (get_answer false bytes). split; [unfold cluster_fetch; rewrite Hfind; apply Hget|].
    unfold get_answer. destruct (env_lz4_compress bytes) as [z|] eqn:Ez; [|apply carries_raw; by left].
    destruct (Hlz4 bytes z Ez) as [Hz1 Hz2]. apply carries_lz4; [exact Hfl|done|done].
  - intros pt. apply in_box_intersect; [apply Hvq|apply Hvo|cbn; congruence].
  - intros pt t Hpt Ht. exact (Hdata pt t Hpt Ht).
Qed.

(** The state reached by a run of puts, queries and deliveries. *)
Lemma run_history tokens es c0 c1 :
  Forall (event_ok N (conf_gdim conf)) es -> Forall server_event es ->
  compatible mv (map (fun so => key (snd so)) (puts es)) ->
  Forall (fun so => publishable dom (snd so)) (puts es) ->
  start N addr conf tokens = Some c0 -> run c0 es = Some c1 ->
  exists ss, ssd_alloc_v2 0 dom N env_dim = Some ss /\
    cl_inv N (conf_gdim conf) ss mv (map put_pair (all_puts es)) c1 /\ data_inv mv addr (all_puts es) c1.
Proof.
  intros He Hse Hc Hpub Hstart Hrun. destruct (start_ok N addr conf tokens Hconf) as (ss & Ha & Hstart').
  rewrite Hstart in Hstart'. injection Hstart' as ->. exists ss. split; [done|].
  pose proof Hconf as (_ & Hd & HN & HN' & _). destruct (alloc_v2_shape 0 _ N env_dim ss Hd HN HN' Ha) as [Hlen Hss].
  destruct (run_data N (conf_gdim conf) ss mv addr Hss Hlen es [] _ c1
    (start_inv N addr conf tokens ss Hconf Ha) (start_data N addr conf tokens ss Hconf) He Hse Hc) as [H1 H2]; [|done|done].
  exists (num_dims dom). apply Forall_forall. intros p Hp. rewrite <- (all_puts_published es Hse), Forall_forall in Hpub.
  destruct (Hpub (put_pair p)) as [_ ?]; [|done]. by apply list_elem_of_fmap_2.
Qed.

(** More events after a query. *)
Lemma run_after_query ss P es c1 c1' r q gd res :
  ssd_alloc_v2 0 dom N env_dim = Some ss ->
  cl_inv N (conf_gdim conf) ss mv (map put_pair P) c1 -> data_inv mv addr P c1 ->
  Forall (event_ok N (conf_gdim conf)) es -> Forall server_event es ->
  compatible mv (map (fun so => key (snd so)) (map put_pair P ++ puts es)) ->
  Forall (fun so => publishable dom (snd so)) (map put_pair P ++ puts es) ->
  (r < N)%nat -> global_dimension_equal gd (conf_gdim conf) = true -> query_rpc c1 r q gd 0 = Some (c1', res) ->
  exists c2, run c1' es = Some c2 /\
    cl_inv N (conf_gdim conf) ss mv (map put_pair (P ++ all_puts es)) c2 /\ data_inv mv addr (P ++ all_puts es) c2.
Proof.
  intros Ha Hci Hdi He Hse Hc Hpub Hr Hgd Hq.
  pose proof Hconf as (_ & Hd & HN & HN' & _). destruct (alloc_v2_shape 0 _ N env_dim ss Hd HN HN' Ha) as [Hlen Hss].
  destruct (query_ok N (conf_gdim conf) ss mv Hss Hlen _ c1 r q gd Hci Hr Hgd) as (c & Hci' & _ & (sv & ca & Er & Ec) & Hq').
  rewrite Hq in Hq'. injection Hq' as -> _.
  assert (Hdi' : data_inv mv addr P c).
  { rewrite Ec. eapply (data_replace N ss mv addr Hlen); [exact Hdi|exact Er|by split|done|auto|by intros u []]. }
  destruct (run_ok N (conf_gdim conf) ss mv Hss Hlen es _ c Hci' He Hc) as (c2 & Hrun2 & _).
  exists c2. split; [done|]. apply and_comm.
  apply (run_data N (conf_gdim conf) ss mv addr Hss Hlen es P c c2 Hci' Hdi' He Hse Hc); [|done].
  exists (num_dims dom). rewrite <- (all_puts_published es Hse), <- map_app in Hpub. apply Forall_forall. intros p Hp.
  rewrite Forall_forall in Hpub. destruct (Hpub (put_pair p)) as [_ ?]; [|done]. by apply list_elem_of_fmap_2.
Qed.

(** A member of a history with what its event promises. *)
Lemma all_puts_event es p : Forall (event_ok N (conf_gdim conf)) es -> Forall server_event es -> In p (all_puts es) ->
  (pt_rank p < N)%nat /\ Z.land (od_flags (pt_odsc p)) DS_CLIENT_STORAGE = 0.
Proof.
  intros He Hse (e & Hin & Hpe)%in_flat_map. rewrite Forall_forall in He, Hse. apply list_elem_of_In in Hin.
  specialize (He e Hin). specialize (Hse e Hin). destruct e as [r0 o g b| | | |]; cbn [puts_of] in Hpe; try done.
  destruct Hpe as [<-|[]]. split; [apply He|apply Hse].
Qed.

(** [q'] asks for the same region as [q]. *)
Definition same_region (q q' : obj_descriptor) : Prop :=
  od_name q' = od_name q /\ od_version q' = od_version q /\ od_bb q' = od_bb q /\ od_st q' = od_st q.

(** A query, more events, and the fetches of its results into a buffer for
    [q'], the descriptor of the query with the size and tag of the results. *)
Lemma query_then_fetch tokens es1 es2 c0 c1 r gd q q' data :
  let ps := all_puts es1 in
  Forall (event_ok N (conf_gdim conf)) (es1 ++ es2) -> Forall server_event (es1 ++ es2) ->
  compatible mv (map (fun so => key (snd so)) (puts (es1 ++ es2))) ->
  Forall (fun so => publishable dom (snd so)) (puts (es1 ++ es2)) ->
  start N addr conf tokens = Some c0 -> run c0 es1 = Some c1 -> quiet c1 -> (r < N)%nat ->
  global_dimension_equal gd (conf_gdim conf) = true ->
  query_box dom q -> same_region q q' -> copyable (od_size q') (od_bb q') data ->
  (forall pt, in_box pt (od_bb q) -> in_box pt dom) ->
  (forall pt, in_box pt (od_bb q) -> exists p, In p ps /\
     obj_desc_equals_intersect (pt_odsc p) q = true /\ in_box pt (od_bb (pt_odsc p))) ->
  (forall p, In p ps -> obj_desc_equals_intersect (pt_odsc p) q = true -> readable (od_size q') p) ->
  exists c1' res c2 data', query_rpc c1 r q gd 0 = Some (c1', res) /\ run c1' es2 = Some c2 /\
    res <> [] /\
    (forall d, d ∈ res -> exists p, In p ps /\ obj_desc_equals_intersect (pt_odsc p) q = true /\
       d = query_view q (owned_odsc addr p)) /\
    get_data (cluster_fetch c2) q' res data = Some data' /\ length data' = length data /\
    forall pt t, in_box pt (od_bb q) -> 0 <= t < od_size q' -> exists p, In p ps /\
      obj_desc_equals_intersect (pt_odsc p) q = true /\ in_box pt (od_bb (pt_odsc p)) /\
      data' !! Z.to_nat (od_size q' * box_pos (od_bb q) pt + t)
      = pt_data p !! Z.to_nat (od_size q' * box_pos (od_bb (pt_odsc p)) pt + t).
Proof.
  intros ps He Hse Hc Hpub Hstart Hrun Hquiet Hr Hgd Hq (En & Ev & Eb & Est) Hdata Hin Hcov Hread.
  apply Forall_app in He as [He1 He2]. apply Forall_app in Hse as [Hse1 Hse2].
  assert (Hputs : puts (es1 ++ es2) = map put_pair ps ++ puts es2).
  { unfold ps. rewrite all_puts_published by done. apply flat_map_app. }
  rewrite Hputs in Hc, Hpub. pose proof Hc as Hc1. rewrite map_app in Hc1. apply compatible_app_l in Hc1.
  pose proof Hpub as Hpub1. apply Forall_app in Hpub1 as [Hpub1 _].
  destruct (run_history tokens es1 c0 c1 He1 Hse1) as (ss & Ha & Hci1 & Hdi1); try done;
    [by rewrite <- (all_puts_published es1 Hse1)..|]. fold ps in Hci1, Hdi1.
  pose proof Hconf as (_ & Hd & HN & HN' & _).
  destruct (query_result N (conf_gdim conf) ss mv dom (map put_pair ps) c1 q Hd HN HN' Ha Hci1 Hquiet Hc1 Hpub1 Hq)
    with (r := r) (gd := gd) as (c1' & res & Hquery & _ & _ & Hres & Hpts); [|done|done|].
  { intros pt Hpt _. destruct (Hcov pt Hpt) as (p & Hp & Hm & Hpb). exists (put_pair p).
    split; [by apply list_elem_of_In, in_map|]. by split. }
  destruct (run_after_query ss ps es2 c1 c1' r q gd res Ha Hci1 Hdi1 He2 Hse2 Hc Hpub Hr Hgd Hquery)
    as (c2 & Hrun2 & Hci2 & Hdi2).
  assert (Hask : forall o, obj_desc_equals_intersect o q' = obj_desc_equals_intersect o q).
  { intros o. unfold obj_desc_equals_intersect. by rewrite En, Ev, Eb. }
  assert (Hview : forall o, query_view q' o = query_view q o) by (intros o; unfold query_view; by rewrite Eb, Est).
  assert (Hfound : forall d, d ∈ res -> exists p, In p ps /\ obj_desc_equals_intersect (pt_odsc p) q = true /\
    d = query_view q (owned_odsc addr p)).
  { intros d Hdr. destruct (Hres d Hdr) as (r' & sv' & x & Er' & [Hx Hm]%found_cells & ->).
    destruct (di_cells _ _ _ _ Hdi1 r' sv' x Er' Hx) as (p & Hp & Hxp). rewrite Hxp in *. by exists p. }
  assert (Hpiece : forall d, d ∈ res -> exists p, In p ps /\ obj_desc_equals_intersect (pt_odsc p) q = true /\
    fetchable c2 q' p d).
  { intros d Hdr. destruct (Hfound d Hdr) as (p & Hp & Hm & ->). exists p. split; [done|]. split; [done|].
    destruct (all_puts_event es1 p He1 Hse1 Hp) as [Hr0 Hfl]. rewrite <- Hview.
    apply (fetch_piece ss (ps ++ all_puts es2)); try done; [apply in_app_iff; by left| |by apply Hread| |by rewrite Hask].
    - rewrite Forall_forall in Hpub1. by apply (Hpub1 (put_pair p)), list_elem_of_In, in_map.
    - unfold query_box. by rewrite Eb. }
  destruct (get_data_spec (od_size q') (od_bb q') (fetch_bytes c2) (cluster_fetch c2) q' res data) as (data' & Hget & Hl & Hcol);
    [done|done|done|intros d (p & _ & _ & F1 & F2 & _)%Hpiece; by split|].
  exists c1', res, c2, data'. split; [done|]. split; [done|]. split; [|split; [done|split; [done|split; [done|]]]].
  - intros ->. pose proof (in_box_lb _ (proj1 Hq)) as Hlb. destruct (Hpts _ Hlb (Hin _ Hlb)) as (d & Hd' & _). by apply elem_of_nil in Hd'.
  - rewrite Eb in Hcol. intros pt t Hpt Ht. destruct (Hcol pt t Hpt Ht) as [(d & Hdr & Hpd & Heq)|[Hno _]].
    + destruct (Hpiece d Hdr) as (p & Hp & Hm & _ & _ & Hbox & Hbytes). exists p. split; [done|]. split; [done|].
      split; [by apply Hbox|]. rewrite Heq. by apply Hbytes.
    + destruct (Hpts pt Hpt (Hin pt Hpt)) as (d & Hdr & Hpd). by destruct (Hno d Hdr).
Qed.

(** C1: What clients put is what a client gets, whatever servers they use.
    Servers are started on one configuration, with different addresses, and
    take puts, queries and deliveries in any order; the published
    descriptors do not compete.  When the insertions have arrived, a
    [dspaces_get] through any server of a box of the domain that the puts of
    its name and version cover succeeds, even if more is put and delivered
    ([es2]) between its query and its fetches, and fills the caller's buffer:
    every byte of every element is the one in the data of the put that has
    the point. *)
Theorem get_returns_puts tokens es1 es2 c0 c1 r cl var ver elem_size ndim lb ub data q :
  let gd := client_gdim cl q in
  let ps := all_puts es1 in
  Forall (event_ok N (conf_gdim conf)) (es1 ++ es2) -> Forall server_event (es1 ++ es2) ->
  compatible mv (map (fun so => key (snd so)) (puts (es1 ++ es2))) ->
  Forall (fun so => publishable dom (snd so)) (puts (es1 ++ es2)) ->
  start N addr conf tokens = Some c0 -> run c0 es1 = Some c1 -> quiet c1 -> (r < N)%nat ->
  fill_odsc cl var ver elem_size ndim lb ub uninit_name uninit_odsc = Some q ->
  global_dimension_equal gd (conf_gdim conf) = true ->
  query_box dom q -> copyable (od_size q) (od_bb q) data -> (forall pt, in_box pt (od_bb q) -> in_box pt dom) ->
  (forall pt, in_box pt (od_bb q) -> exists p, In p ps /\
     obj_desc_equals_intersect (pt_odsc p) q = true /\ in_box pt (od_bb (pt_odsc p))) ->
  (forall p, In p ps -> obj_desc_equals_intersect (pt_odsc p) q = true -> readable (od_size q) p) ->
  exists c1' res c2 data', query_rpc c1 r q gd 0 = Some (c1', res) /\ run c1' es2 = Some c2 /\
    dspaces_get (fun q gd timeout => option_map snd (query_rpc c1 r q gd timeout)) (cluster_fetch c2)
      cl var ver elem_size ndim lb ub data 0 = Some (dspaces_SUCCESS, data') /\
    length data' = length data /\
    forall pt t, in_box pt (od_bb q) -> 0 <= t < od_size q -> exists p, In p ps /\
      obj_desc_equals_intersect (pt_odsc p) q = true /\ in_box pt (od_bb (pt_odsc p)) /\
      data' !! Z.to_nat (od_size q * box_pos (od_bb q) pt + t)
      = pt_data p !! Z.to_nat (od_size q * box_pos (od_bb (pt_odsc p)) pt + t).
Proof.
  intros gd ps He Hse Hc Hpub Hstart Hrun Hquiet Hr Hfill Hgd Hq Hdata Hin Hcov Hread.
  destruct (query_then_fetch tokens es1 es2 c0 c1 r gd q q data) as (c1' & res & c2 & data' & H1 & H2 & H3 & _ & H4 & H5 & H6); try done.
  exists c1', res, c2, data'. split; [done|]. split; [done|]. split; [|by split].
  unfold dspaces_get. rewrite Hfill. cbn [mbind option_bind]. unfold get_odscs. fold gd. rewrite H1.
  cbn [option_map snd default from_option id]. destruct res as [|d0 res']; [done|]. by rewrite H4.
Qed.
End Get.
End EndToEnd.

(** ** A concrete run *)

(** LZ4 reduced to repeated bytes. *)
#[local] Instance get_env : Env := {
  env_fuel := 0;
  env_dim := 0;
  env_coord := zero_coord;
  env_malloc n := replicate n 0;
  env_py_exec _ _ _ := None;
  env_remote_get _ _ _ := None;
  env_lz4_compress b :=
    match b with
    | x :: _ => if bool_decide (b = replicate (length b) x) then Some [x] else None
    | [] => None
    end
}.

#[local] Instance get_client_env : ClientEnv := {
  lz4_decompress c n := match c with [x] => (replicate (Z.to_nat n) x, n) | _ => ([], -1) end;
  uninit_odsc := mkOdsc "junk" row_major 0 7 7 "junk" 9 zero_bbox 3;
  uninit_name := [];
  uninit_type := 5
}.

Lemma get_lz4_ok : lz4_ok.
Proof.
  intros b c. cbn [env_lz4_compress get_env]. destruct b as [|x b]; [done|]. case_bool_decide as Hb; [|done].
  intros [= <-]. split; [simpl; lia|]. cbn [lz4_decompress get_client_env fst]. by rewrite Nat2Z.id, <- Hb.
Qed.

Definition get_client : client :=
  mkClient 0 "n" [] 0 "cl" None [] (conf_gdim demo_conf) (ls_alloc 2) 0 false 1.

Definition get_odsc (version : Z) (b : bbox) : obj_descriptor := mkOdsc "u" row_major 0 0 0 "" version b 1.

Definition get_data0 : list Z := map Z.of_nat (seq 10 20).
Definition get_data1 : list Z := replicate 20 77.

Definition get_events : list event :=
  [E_put 0 (get_odsc 3 (box2 0 0 3 4)) demo_gdim get_data0;
   E_put 1 (get_odsc 3 (box2 4 0 7 4)) demo_gdim get_data1;
   E_query 2 (get_odsc 3 (box2 0 0 7 4)) demo_gdim] ++ replicate 6 (E_deliver 0).

Definition get_events2 : list event :=
  [E_put 2 (get_odsc 4 (box2 0 0 1 0)) demo_gdim [1; 2]; E_deliver 0].

Definition get_q : obj_descriptor := set_st column_major (set_tag_type 7 7 (get_odsc 3 (box2 1 0 6 4))).

Definition get_addr (r : nat) : string := match r with O => "a" | S O => "b" | _ => "c" end.

Lemma get_events_ok : Forall (event_ok 3 (conf_gdim demo_conf)) (get_events ++ get_events2).
Proof.
  apply Forall_forall. intros e He. apply list_elem_of_In in He.
  repeat (destruct He as [<-|He]; [vm_compute; repeat split; lia|]). destruct He.
Qed.

Lemma get_server_events : Forall server_event (get_events ++ get_events2).
Proof.
  apply Forall_forall. intros e He. apply list_elem_of_In in He.
  repeat (destruct He as [<-|He]; [vm_compute; repeat split|]). destruct He.
Qed.

Lemma get_compatible :
  compatible (conf_max_versions demo_conf) (map (fun so => key (snd so)) (puts (get_events ++ get_events2))).
Proof.
  apply compatible_pairs. repeat first [apply FOP_nil | apply FOP_cons | apply Forall_nil_2 | apply Forall_cons; split];
    (split; [first [right; vm_compute; reflexivity | left; vm_compute; discriminate]|
             first [right; vm_compute; reflexivity | left; vm_compute; discriminate]]).
Qed.

Lemma get_readable p : In p (all_puts get_events) -> obj_desc_equals_intersect (pt_odsc p) get_q = true ->
  readable (od_size get_q) p.
Proof.
  intros [<-|[<-|[]]] _; (split; [reflexivity|apply box2_copyable; simpl; lia]).
Qed.

Lemma get_returns_puts_witness :
  exists c0 c1 c1' res c2 data', start 3 get_addr demo_conf 1 = Some c0 /\ run c0 get_events = Some c1 /\
    query_rpc c1 2 get_q (conf_gdim demo_conf) 0 = Some (c1', res) /\ run c1' get_events2 = Some c2 /\
    dspaces_get (fun q gd timeout => option_map snd (query_rpc c1 2 q gd timeout)) (cluster_fetch c2)
      get_client "u" 3 1 2 [1; 0] [6; 4] (replicate 30 0) 0 = Some (dspaces_SUCCESS, data') /\
    exists p, In p (all_puts get_events) /\ data' !! 2%nat = pt_data p !! 3%nat.
Proof.
  destruct (start 3 get_addr demo_conf 1) as [c0|] eqn:E0; [|vm_compute in E0; discriminate E0].
  destruct (run c0 get_events) as [c1|] eqn:E1;
    [|vm_compute in E0; injection E0 as <-; vm_compute in E1; discriminate E1].
  destruct (get_returns_puts 3 get_addr demo_conf demo_conf_ok) with (tokens := 1) (es1 := get_events)
    (es2 := get_events2) (c0 := c0) (c1 := c1) (r := 2%nat) (cl := get_client) (var := "u"%string) (ver := 3)
    (elem_size := 1) (ndim := 2%nat) (lb := [1; 0]) (ub := [6; 4]) (data := replicate 30 0) (q := get_q)
    as (c1' & res & c2 & data' & H1 & H2 & H3 & _ & H4).
  - intros [|[|[|i]]] [|[|[|j]]] Hi Hj Ha; try reflexivity; try discriminate Ha; lia.
  - exact get_lz4_ok.
  - exact get_events_ok.
  - exact get_server_events.
  - exact get_compatible.
  - repeat first [apply Forall_nil_2 | apply Forall_cons; split]; (split; [apply box2_domain_ok; lia|reflexivity]).
  - exact E0.
  - exact E1.
  - assert (H : cl_net c1 = []).
    { vm_compute in E0. injection E0 as <-. vm_compute in E1. injection E1 as <-. reflexivity. }
    unfold quiet. rewrite H. constructor.
  - lia.
  - vm_compute. reflexivity.
  - reflexivity.
  - split; [apply box2_domain_ok; lia|]. split; [reflexivity|vm_compute; reflexivity].
  - apply box2_copyable; simpl; lia.
  - intros pt H i Hi. specialize (H i Hi). change (conf_domain demo_conf) with (box2 0 0 7 4) in *.
    destruct i as [|[|i]]; cbn in *; [unfold cget in *; cbn in *; lia..|lia].
  - intros pt H.
    destruct (demo_cover pt 1 6 H) as [Hb|Hb].
    + intros i Hi. specialize (H i Hi). destruct i as [|[|i]]; cbn in *; [unfold cget in *; cbn in *; lia..|lia].
    + exists (mkPut 0 (get_odsc 3 (box2 0 0 3 4)) demo_gdim get_data0).
      split; [left; reflexivity|split; [vm_compute; reflexivity|exact Hb]].
    + exists (mkPut 1 (get_odsc 3 (box2 4 0 7 4)) demo_gdim get_data1).
      split; [right; left; reflexivity|split; [vm_compute; reflexivity|exact Hb]].
  - exact get_readable.
  - exists c0, c1, c1', res, c2, data'. split; [reflexivity|]. split; [exact E1|]. split; [exact H1|].
    split; [exact H2|]. split; [exact H3|].
    destruct (H4 [3; 0] 0) as (p & Hp & _ & Hb & Heq); [apply in_boxb_spec; reflexivity|vm_compute; split; congruence|].
    exists p. split; [exact Hp|]. destruct Hp as [<-|[<-|[]]].
    + etransitivity; [exact Heq|vm_compute; reflexivity].
    + apply in_boxb_spec in Hb. vm_compute in Hb. discriminate Hb.
Defined.
