(* ===== verification/Calls.v ===== *)
(** * Calls: listing, reading in place and shutting down

    The calls of [src/src/dspaces-client.c] that list what the servers hold
    ([dspaces_get_var_names], [dspaces_get_var_objs]), the result of an
    expression ([dspaces_op_calc]), [dspaces_set_namespace] and
    [dspaces_kill]; and of [src/src/dspaces-server.c] the calls a program that
    hosts a server makes ([dspaces_server_find_objs],
    [dspaces_server_get_objdata]) and [kill_local_clients]. *)

From S2P Require Import Prelude BBox ObjDesc Linear Sspace DhtEntry StrHash LocalStorage Matrix Codec Modules Server Cluster Client Bcast Access EndToEnd.

(** ** Clients *)

Definition dspaces_set_namespace (c : client) (nspace : string) : client :=
  mkClient (cl_rank c) (cl_node c) (cl_nodes c) (cl_my_server c) (cl_addr c) (Some nspace) (cl_gdims c)
    (cl_default_gdim c) (cl_ls c) (cl_put_count c) (cl_final c) (cl_next c).

(** The request to the first server; its -1 is the source of a client. *)
Definition dspaces_kill (size : Z) (k : kill_state) : kill_state := kill_rpc size 0 (-1) k.

(** [reply] is the answer of the client's server, [None] when the call
    fails. *)
Definition dspaces_get_var_names (reply : option (list string)) : Z * list string :=
  match reply with
  | None => (-1, [])
  | Some names => (i32 (Z.of_nat (length names)), names)
  end.

(** [struct dspaces_obj]. *)
Record dspaces_obj := mkDsObj {
  do_name : string;
  do_version : Z;
  do_ndim : nat;
  do_lb : list Z;
  do_ub : list Z
}.

Definition corner (n : nat) (c : coord) : list Z := map (cget c) (seq 0 n).

Definition obj_of_odsc (name : string) (o : obj_descriptor) : dspaces_obj :=
  let n := num_dims (od_bb o) in
  mkDsObj name (i32 (od_version o)) n (corner n (lb (od_bb o))) (corner n (ub (od_bb o))).

Definition dspaces_get_var_objs (reply : option (list obj_descriptor)) (name : string) : Z * list dspaces_obj :=
  match reply with
  | None => (-1, [])
  | Some odscs => (i32 (Z.of_nat (length odscs)), map (obj_of_odsc name) odscs)
  end.

Section Results.
Context `{E : Env} `{CE : ClientEnv}.

(** The end of [do_ops_rpc]: [csize] and what is pushed to the client, for a
    result of [buffer]. *)
Definition ops_reply (buffer : list Z) : Z * list Z :=
  match env_lz4_compress buffer with
  | Some c => (Z.of_nat (length c), c)
  | None => (0, buffer)
  end.

(** [size] is that of the expression. *)
Definition dspaces_op_calc (reply : option (Z * list Z)) (size : Z) : option (Z * option (list Z)) :=
  match reply with
  | None => Some (dspaces_ERR_MERCURY, None)
  | Some (len, bytes) =>
      cbuf ← bulk_write (malloc (Z.to_nat size)) size bytes;
      if negb (len =? 0) then
        src ← expose cbuf len;
        buf ← bulk_write (malloc (Z.to_nat size)) size (fst (lz4_decompress src size));
        Some (dspaces_SUCCESS, Some buf)
      else Some (dspaces_SUCCESS, Some cbuf)
  end.
End Results.

(** ** Server *)

(** The loop over the drain list that collects its owners, each put in front,
    and the order in which they are told to shut down. *)
Definition add_owner (client_list : list string) (o : obj_descriptor) : list string :=
  if existsb (fun a => String.eqb a (od_owner o)) client_list then client_list else od_owner o :: client_list.

Definition kill_local_clients (sv : server) : list string := fold_left add_owner (sv_drain sv) [].

(** [struct dspaces_data_obj]. *)
Record dspaces_data_obj := mkDataObj {
  dd_name : string;
  dd_version : Z;
  dd_ndim : nat;
  dd_size : Z;
  dd_lb : list Z;
  dd_ub : list Z
}.

Definition data_obj_of (name : string) (version : Z) (o : obj_descriptor) : dspaces_data_obj :=
  let n := num_dims (od_bb o) in
  mkDataObj name version n (i32 (od_size o)) (corner n (lb (od_bb o))) (corner n (ub (od_bb o))).

(** [strcpy] to the name of the local descriptor [raw], which is not set
    otherwise. *)
Definition local_odsc (raw : obj_descriptor) (name : string) (version : Z) (bb : bbox) : option obj_descriptor :=
  if (String.length name <? OD_MAX_NAME_LEN)%nat
  then Some (mkOdsc name (od_st raw) (od_flags raw) (od_tag raw) (od_type raw) (od_owner raw) (u32 version) bb (od_size raw))
  else None.

Definition dspaces_server_find_objs (sv : server) (raw : obj_descriptor) (var_name : string) (version : Z)
  : option (Z * list dspaces_data_obj) :=
  odsc ← local_odsc raw var_name version (od_bb raw);
  let od_tab := ls_find_ods (sv_ls sv) odsc in
  Some (Z.of_nat (length od_tab), map (data_obj_of var_name version) od_tab).

(** The box of the local descriptor. *)
Definition data_obj_box (raw : bbox) (obj : dspaces_data_obj) : bbox :=
  mkBBox (dd_ndim obj) (set_range (dd_ndim obj) (fun i => nth i (dd_lb obj) 0) (lb raw))
    (set_range (dd_ndim obj) (fun i => nth i (dd_ub obj) 0) (ub raw)).

(** The return value, the caller's buffer and whether [ls_mutex] is left
    locked. *)
Definition dspaces_server_get_objdata (sv : server) (raw : obj_descriptor) (obj : dspaces_data_obj) (buffer : list Z)
  : option (Z * list Z * bool) :=
  if (BBOX_MAX_NDIM <? dd_ndim obj)%nat then None
  else
    let bb := data_obj_box (od_bb raw) obj in
    odsc ← local_odsc raw (dd_name obj) (dd_version obj) bb;
    match ls_find (sv_ls sv) odsc with
    | None => Some (-1, buffer, true)
    | Some od =>
        if existsb (fun i => negb (cget (lb (od_bb (obj_desc od))) i =? nth i (dd_lb obj) 0)
                             || negb (cget (ub (od_bb (obj_desc od))) i =? nth i (dd_ub obj) 0)) (seq 0 (dd_ndim obj))
        then Some (-2, buffer, true)
        else
          buffer ← memcpy buffer 0 (ob_data od) 0 (u64 (u64 (dd_size obj) * bbox_volume bb));
          Some (0, buffer, false)
    end.

(** ** Lemmas *)

Lemma nth_corner n c i : (i < n)%nat -> nth i (corner n c) 0 = cget c i.
Proof.
  intros Hi. unfold corner. rewrite (nth_indep _ 0 (cget c 0)) by (rewrite length_map, length_seq; lia).
  rewrite map_nth, seq_nth by lia. done.
Qed.

(** The box a data object describes is the object's. *)
Section Box.
Context (raw : bbox) (name : string) (version : Z) (o : obj_descriptor).
Context (Hl : wf_coord (lb raw)) (Hu : wf_coord (ub raw)) (Hv : valid_box (od_bb o)).

Let x := data_obj_of name version o.

Lemma data_obj_bounds i : (i < num_dims (od_bb o))%nat ->
  cget (lb (data_obj_box raw x)) i = cget (lb (od_bb o)) i /\ cget (ub (data_obj_box raw x)) i = cget (ub (od_bb o)) i.
Proof using All.
  intros Hi. destruct Hv as [[Hn _] _]. destruct Hl as [Hll _], Hu as [Hlu _]. cbn [data_obj_box lb ub].
  change (dd_ndim x) with (num_dims (od_bb o)). rewrite !cget_set_range_lt by lia. cbn [x data_obj_of dd_lb dd_ub].
  by rewrite !nth_corner.
Qed.

Lemma data_obj_equals : bbox_equals (data_obj_box raw x) (od_bb o) = true.
Proof using All. apply bbox_equals_spec. split; [done|]. intros i Hi. by apply data_obj_bounds. Qed.

Lemma data_obj_volume : bbox_volume (data_obj_box raw x) = bbox_volume (od_bb o).
Proof using All.
  rewrite !bbox_volume_zvolume. f_equal. apply zprod_ext. intros i Hi. unfold side. by destruct (data_obj_bounds i Hi) as [-> ->].
Qed.

Lemma data_obj_same : existsb (fun i => negb (cget (lb (od_bb o)) i =? nth i (dd_lb x) 0)
    || negb (cget (ub (od_bb o)) i =? nth i (dd_ub x) 0)) (seq 0 (dd_ndim x)) = false.
Proof using.
  apply not_true_is_false. intros (i & Hi%in_seq & H)%existsb_exists. cbn [x data_obj_of dd_lb dd_ub dd_ndim] in *.
  rewrite !nth_corner, !Z.eqb_refl in H by lia. done.
Qed.
End Box.

Lemma all_objs_bin ls od : ls_inv ls -> In od (all_objs ls) <-> In od (obj_bin ls (obj_index ls (obj_desc od))).
Proof.
  intros Hi. split; [|apply in_nth_concat].
  intros (b & Hb & Hin)%in_concat. apply list_elem_of_In, list_elem_of_lookup in Hb as (n & Hn).
  assert (Hb' : obj_bin ls n = b) by (unfold obj_bin; by rewrite nth_lookup, Hn).
  rewrite <- Hb' in Hin. by rewrite (li_obj_bins _ Hi n od Hin).
Qed.

(** An object that [ls_find] finds with its own box: none of its name and
    version before it overlaps it. *)
Definition alone (ls : ss_storage) (od : obj_data) : Prop :=
  forall od', In od' (all_objs ls) -> obj_desc_equals_intersect (obj_desc od) (obj_desc od') = true -> od' = od.

Lemma self_intersect b : valid_box b -> bbox_does_intersect b b = true.
Proof. intros Hv. apply does_intersect_common; [done..|]. exists (lb b). split; apply in_box_lb, Hv. Qed.

Lemma find_alone ls od q : ls_inv ls -> In od (all_objs ls) -> alone ls od -> valid_box (od_bb (obj_desc od)) ->
  od_name q = od_name (obj_desc od) -> od_version q = od_version (obj_desc od) ->
  bbox_equals (od_bb q) (od_bb (obj_desc od)) = true -> ls_find ls q = Some od.
Proof.
  intros Hi Hin Hal Hv Hn Hver Hb. unfold ls_find.
  assert (Heq : forall o, obj_desc_equals_intersect q o = obj_desc_equals_intersect (obj_desc od) o).
  { intros o. unfold obj_desc_equals_intersect. by rewrite Hn, Hver, (does_intersect_equals _ _ _ Hb). }
  replace (obj_index ls q) with (obj_index ls (obj_desc od)) by (unfold obj_index; by rewrite Hver).
  destruct (find _ _) as [od'|] eqn:Ef.
  - apply find_some in Ef as [Hin' E']. rewrite Heq in E'. f_equal. apply Hal; [|done]. by apply in_nth_concat in Hin'.
  - apply (find_none _ _) with (x := od) in Ef; [|by apply all_objs_bin]. rewrite Heq in Ef.
    unfold obj_desc_equals_intersect in Ef. by rewrite String.eqb_refl, Z.eqb_refl, self_intersect in Ef.
Qed.

Lemma find_nothing ls q : (forall od, In od (all_objs ls) -> obj_desc_equals_intersect q (obj_desc od) = false) ->
  ls_find ls q = None.
Proof.
  intros H. unfold ls_find. destruct (find _ _) as [od|] eqn:Ef; [|done]. apply find_some in Ef as [Hin E].
  rewrite H in E; [done|]. by apply in_nth_concat in Hin.
Qed.

Lemma fold_owners l : forall acc, NoDup acc ->
  NoDup (fold_left add_owner l acc) /\
  forall a, In a (fold_left add_owner l acc) <-> In a acc \/ exists o, In o l /\ od_owner o = a.
Proof.
  induction l as [|o l IH]; intros acc Hnd; cbn [fold_left].
  { split; [done|]. intros a. split; [by left|]. intros [|(o & [] & _)]. done. }
  assert (Hin : existsb (fun a => String.eqb a (od_owner o)) acc = true <-> In (od_owner o) acc).
  { rewrite existsb_exists. split; [intros (a & Ha & ->%String.eqb_eq); done|]. intros Ha. exists (od_owner o). by rewrite String.eqb_refl. }
  destruct (IH (add_owner acc o)) as [H1 H2].
  { unfold add_owner. destruct (existsb _ acc) eqn:Ee; [done|]. constructor; [|done]. intros Hx%list_elem_of_In%Hin. congruence. }
  split; [done|]. intros a. rewrite H2. unfold add_owner. destruct (existsb _ acc) eqn:Ee; cbn [In].
  - assert (Ho : In (od_owner o) acc) by (apply Hin; congruence). split; [intros [?|(o' & ? & ?)]; [by left|right; by exists o'; split; [right|]]|].
    intros [?|(o' & [<-|?] & <-)]; [by left|by left|right; by exists o'].
  - split; [intros [[<-|?]|(o' & ? & ?)]; [right; by exists o; split; [left|]|by left|right; by exists o'; split; [right|]]|].
    intros [?|(o' & [<-|?] & <-)]; [by left; right|by left; left|right; by exists o'].
Qed.

(** ** Reading in place: lemmas *)

Lemma local_odsc_fits raw name version bb : (String.length name < OD_MAX_NAME_LEN)%nat -> version_ok version ->
  local_odsc raw name version bb
  = Some (mkOdsc name (od_st raw) (od_flags raw) (od_tag raw) (od_type raw) (od_owner raw) version bb (od_size raw)).
Proof.
  intros Hn Hver. unfold local_odsc. destruct (Nat.ltb_spec (String.length name) OD_MAX_NAME_LEN); [|lia].
  unfold version_ok in Hver. by rewrite u32_small by lia.
Qed.

Lemma find_objs_listed sv raw name version : ls_inv (sv_ls sv) ->
  (String.length name < OD_MAX_NAME_LEN)%nat -> version_ok version ->
  exists objs, dspaces_server_find_objs sv raw name version = Some (Z.of_nat (length objs), objs) /\
    forall x, In x objs <-> exists od, (In od (all_objs (sv_ls sv)) /\ od_name (obj_desc od) = name /\
      od_version (obj_desc od) = version) /\ x = data_obj_of name version (obj_desc od).
Proof.
  intros Hi Hn Hver. unfold dspaces_server_find_objs. rewrite local_odsc_fits by done. cbn [mbind option_bind].
  eexists. split; [by rewrite length_map|]. intros x. rewrite in_map_iff. unfold ls_find_ods. split.
  - intros (o & <- & (od & <- & (Hin & Hm)%filter_In)%in_map_iff). exists od. split; [|done].
    unfold obj_desc_match in Hm. cbn [od_version od_name] in Hm. apply andb_true_iff in Hm as [Hm1%Z.eqb_eq Hm2%String.eqb_eq].
    split; [by apply in_nth_concat in Hin|]. done.
  - intros (od & (Hin & <- & <-) & ->). exists (obj_desc od). split; [done|]. apply in_map_iff. exists od. split; [done|].
    apply filter_In. split; [by apply all_objs_bin|]. unfold obj_desc_match. cbn [od_version od_name].
    by rewrite Z.eqb_refl, String.eqb_refl.
Qed.

(** ** Properties *)

(** A program that hosts a server reads its objects in place.
    [dspaces_server_find_objs] lists exactly the stored objects of a name and
    a version; [dspaces_server_get_objdata] on a listed object that overlaps
    no other one of the version copies all its bytes to the front of the
    buffer, leaves the rest of the buffer alone and releases the mutex; on a
    box no such object meets it returns -1, and for an object met that has
    other corners -2, and then the buffer is unchanged and the mutex is left
    locked. *)
Theorem server_reads_in_place sv raw name version :
  ls_inv (sv_ls sv) -> wf_coord (lb (od_bb raw)) -> wf_coord (ub (od_bb raw)) ->
  (String.length name < OD_MAX_NAME_LEN)%nat -> version_ok version ->
  let mine od := In od (all_objs (sv_ls sv)) /\ od_name (obj_desc od) = name /\ od_version (obj_desc od) = version in
  (exists objs, dspaces_server_find_objs sv raw name version = Some (Z.of_nat (length objs), objs) /\
     forall x, In x objs <-> exists od, mine od /\ x = data_obj_of name version (obj_desc od)) /\
  (forall od buffer, mine od -> alone (sv_ls sv) od -> copyable (od_size (obj_desc od)) (od_bb (obj_desc od)) (ob_data od) ->
     od_size (obj_desc od) < 2 ^ 31 -> (length (ob_data od) <= length buffer)%nat ->
     dspaces_server_get_objdata sv raw (data_obj_of name version (obj_desc od)) buffer
     = Some (0, ob_data od ++ drop (length (ob_data od)) buffer, false)) /\
  (forall x buffer, dd_name x = name -> dd_version x = version -> (dd_ndim x <= BBOX_MAX_NDIM)%nat ->
     let q := mkOdsc name row_major 0 0 0 "" version (data_obj_box (od_bb raw) x) 0 in
     ((forall od, In od (all_objs (sv_ls sv)) -> obj_desc_equals_intersect q (obj_desc od) = false) ->
        dspaces_server_get_objdata sv raw x buffer = Some (-1, buffer, true)) /\
     (forall od, ls_find (sv_ls sv) q = Some od ->
        (exists i, (i < dd_ndim x)%nat /\ (cget (lb (od_bb (obj_desc od))) i <> nth i (dd_lb x) 0 \/
                                           cget (ub (od_bb (obj_desc od))) i <> nth i (dd_ub x) 0)) ->
        dspaces_server_get_objdata sv raw x buffer = Some (-2, buffer, true))).
Proof.
  intros Hi Hl Hu Hn Hver mine.
  pose proof (fun bb => local_odsc_fits raw name version bb Hn Hver) as Hodsc. split_and!; [by apply find_objs_listed|..].
  - intros od buffer (Hin & Hname & Hvers) Hal Hc Hs Hbuf. pose proof Hc as (Hv & _ & Hnd & Hpos & Hlen & Hsm).
    unfold dspaces_server_get_objdata. change (dd_ndim (data_obj_of name version (obj_desc od))) with (num_dims (od_bb (obj_desc od))).
    destruct (Nat.ltb_spec BBOX_MAX_NDIM (num_dims (od_bb (obj_desc od)))); [destruct Hv as [[? _] _]; lia|].
    cbn [data_obj_of dd_name dd_version]. rewrite Hodsc. cbn [mbind option_bind].
    rewrite (find_alone _ od) by (done || by apply data_obj_equals).
    pose proof (data_obj_same name version (obj_desc od)) as Hsame. cbn [data_obj_of dd_ndim] in Hsame. rewrite Hsame. clear Hsame.
    change (mkDataObj name version _ _ _ _) with (data_obj_of name version (obj_desc od)).
    rewrite data_obj_volume by done. cbn [data_obj_of dd_size]. rewrite i32_small by lia. rewrite (u64_small (od_size _)) by lia.
    rewrite bbox_volume_zvolume, u64_mul_r, u64_small by nia. rewrite <- Hlen. unfold memcpy.
    destruct (Z.leb_spec (0 + Z.of_nat (length (ob_data od))) (Z.of_nat (length buffer))); [|lia].
    destruct (Z.leb_spec (0 + Z.of_nat (length (ob_data od))) (Z.of_nat (length (ob_data od)))); [|lia].
    cbn [andb mbind option_bind]. rewrite Nat2Z.id, Z.add_0_l, Nat2Z.id. by rewrite firstn_all.
  - intros x buffer <- <- Hd q. unfold dspaces_server_get_objdata.
    destruct (Nat.ltb_spec BBOX_MAX_NDIM (dd_ndim x)); [lia|]. rewrite Hodsc. cbn [mbind option_bind].
    change (ls_find (sv_ls sv) (mkOdsc (dd_name x) _ _ _ _ _ (dd_version x) _ _)) with (ls_find (sv_ls sv) q). split.
    + intros Hno. by rewrite find_nothing.
    + intros od -> (i & Hi' & Hne). assert (Hex : forall b, b = true -> (if b then Some (-2, buffer, true) else
        buffer ← memcpy buffer 0 (ob_data od) 0 (u64 (u64 (dd_size x) * bbox_volume (data_obj_box (od_bb raw) x)));
        Some (0, buffer, false)) = Some (-2, buffer, true)) by (by intros b ->).
      apply Hex, existsb_exists. exists i. split; [apply in_seq; lia|].
      destruct Hne as [Hne|Hne]; apply Z.eqb_neq in Hne; rewrite Hne; [done|apply orb_true_r].
Qed.

(** Listing what is stored.  Through whichever server, a client gets each
    variable name of any server once, the names of all stored objects among
    them; and for a name, the version and the box of each object of that name
    on each server, as often as it is stored. *)
Theorem listings_complete size ls rank name :
  1 <= size < 2 ^ 30 -> 0 <= rank < size -> (forall t, 0 <= t < size -> ls_inv (ls t)) ->
  let names := get_vars (bc_fuel size) size ls rank (-1) in
  let odscs := get_var_objs (bc_fuel size) size ls name rank (-1) in
  (Z.of_nat (length names) < 2 ^ 31 -> dspaces_get_var_names (Some names) = (Z.of_nat (length names), names)) /\
  NoDup names /\
  (forall t od, 0 <= t < size -> In od (all_objs (ls t)) -> In (od_name (obj_desc od)) names) /\
  (Z.of_nat (length odscs) < 2 ^ 31 ->
   exists objs, dspaces_get_var_objs (Some odscs) name = (Z.of_nat (length objs), objs) /\
   objs ≡ₚ flat_map (fun t => map (fun od => obj_of_odsc name (obj_desc od))
     (List.filter (fun od => String.eqb (od_name (obj_desc od)) name) (all_objs (ls t)))) (ranks size)).
Proof.
  intros Hs Hr Hi names odscs. split_and!.
  - intros Hl. unfold dspaces_get_var_names. by rewrite i32_small by lia.
  - apply (get_vars_complete size ls rank Hs Hr).
  - intros t od Ht Hod. apply (proj2 (get_vars_complete size ls rank Hs Hr)). exists t. split; [done|].
    unfold ls_get_var_names. cbn [ds_str_hash_get_all snd]. rewrite flat_map_concat_map, map_id.
    by apply (li_names _ (Hi t Ht)).
  - intros Hl. unfold dspaces_get_var_objs. rewrite i32_small by lia. eexists. split; [by rewrite length_map|].
    unfold odscs. rewrite get_var_objs_visit, !flat_map_concat_map, concat_map, map_map.
    rewrite (fmap_Permutation _ _ _ (visit_all_once size rank Hs Hr)). unfold ls_find_all_no_version.
    apply reflexive_eq. f_equal. apply map_ext. intros t. by rewrite map_map.
Qed.

(** At shutdown a server tells each client with data in its drain list,
    and no other, exactly once. *)
Theorem kill_local_clients_once sv :
  NoDup (kill_local_clients sv) /\
  forall a, In a (kill_local_clients sv) <-> exists o, In o (sv_drain sv) /\ od_owner o = a.
Proof.
  destruct (fold_owners (sv_drain sv) [] NoDup_nil_2) as [H1 H2]. split; [done|].
  intros a. rewrite (H2 a). split; [intros [[]|]|]; auto.
Qed.

Lemma bulk_write_prefix (buf data : list Z) size : Z.of_nat (length buf) = size -> (length data <= length buf)%nat ->
  bulk_write buf size data = Some (data ++ drop (length data) buf).
Proof.
  intros Hs Hl. unfold bulk_write. rewrite <- Hs, Nat2Z.id, take_ge by lia. by destruct (Nat.leb_spec (length data) (length buf)); [|lia].
Qed.

(** The result of an expression reaches the client, compressed or not. *)
Theorem op_calc_delivers `{E : Env} `{CE : ClientEnv} buffer : lz4_ok ->
  dspaces_op_calc (Some (ops_reply buffer)) (Z.of_nat (length buffer)) = Some (dspaces_SUCCESS, Some buffer).
Proof.
  intros Hlz. unfold ops_reply, dspaces_op_calc. rewrite Nat2Z.id. destruct (env_lz4_compress buffer) as [c|] eqn:Ec.
  - destruct (Hlz buffer c Ec) as [Hlen Hdec].
    rewrite bulk_write_prefix by (rewrite ?length_malloc; lia). cbn [mbind option_bind].
    destruct (Z.eqb_spec (Z.of_nat (length c)) 0); [lia|]. cbn [negb]. unfold expose. rewrite Nat2Z.id, length_app.
    destruct (Nat.leb_spec (length c) (length c + length (drop (length c) (malloc (length buffer))))); [|lia]. cbn [mbind option_bind].
    rewrite take_app_length, Hdec, bulk_write_prefix by (rewrite ?length_malloc; lia). cbn [mbind option_bind].
    by rewrite drop_ge, app_nil_r by (by rewrite length_malloc).
  - rewrite bulk_write_prefix by (by rewrite ?length_malloc). cbn [mbind option_bind Z.eqb negb].
    by rewrite drop_ge, app_nil_r by (by rewrite length_malloc).
Qed.

(** ** Concrete inputs *)

Definition place_obj (id : nat) (b : bbox) (data : list Z) : obj_data :=
  mkObj id (mkOdsc "u" row_major 0 0 0 "a" 3 b 1) zero_gdim data 0 false.

Definition place_left : obj_data := place_obj 1 (box2 0 0 1 2) [10; 11; 12; 13; 14; 15].
Definition place_right : obj_data := place_obj 2 (box2 2 0 3 2) [20; 21; 22; 23; 24; 25].

(** A server with two blocks of version 3 of "u" and a drain list. *)
Definition place_server : server :=
  let owned a := set_owner a (obj_desc place_left) in
  mkServer 0 1 "a" None None (mkConf 2 zero_coord 2 ssd_hash_version_v2) zero_gdim
    (mkSp (mkSspace 0 0 0 zero_bbox [] 0 ssd_hash_version_v2 0) (dht_entry_alloc 2)) []
    (ls_add_obj (ls_add_obj (ls_alloc 2) place_left) place_right) (ls_alloc 2)
    [owned "x"%string; owned "y"%string; owned "x"%string] [] [] [] 0 3.

Definition place_raw : obj_descriptor := mkOdsc "" row_major 0 0 0 "" 0 zero_bbox 0.

Lemma place_inv : ls_inv (sv_ls place_server).
Proof.
  apply ls_add_obj_inv; [apply ls_add_obj_inv; [apply ls_inv_alloc; lia|]|].
  - vm_compute. intros [].
  - vm_compute. intros [H|[]]. discriminate H.
Qed.

Lemma server_reads_in_place_witness :
  dspaces_server_get_objdata place_server place_raw (data_obj_of "u" 3 (obj_desc place_right)) [1; 1; 1; 1; 1; 1; 9]
    = Some (0, [20; 21; 22; 23; 24; 25; 9], false) /\
  dspaces_server_get_objdata place_server place_raw (mkDataObj "u" 3 2 1 [0; 0] [0; 0]) [] = Some (-2, [], true).
Proof.
  destruct (server_reads_in_place place_server place_raw "u" 3 place_inv) as (_ & H & H').
  - apply wf_zero_coord.
  - apply wf_zero_coord.
  - unfold OD_MAX_NAME_LEN. simpl. lia.
  - unfold version_ok. lia.
  - split.
    + rewrite (H place_right [1; 1; 1; 1; 1; 1; 9]).
      * reflexivity.
      * split; [vm_compute; left; reflexivity|split; reflexivity].
      * intros od' Hin Hm. vm_compute in Hin. destruct Hin as [<-|[<-|[]]]; [reflexivity|vm_compute in Hm; discriminate Hm].
      * apply box2_copyable; done.
      * reflexivity.
      * simpl. lia.
    + destruct (H' (mkDataObj "u" 3 2 1 [0; 0] [0; 0]) []) as [_ H2];
        [reflexivity|reflexivity|unfold BBOX_MAX_NDIM; simpl; lia|].
      apply (H2 place_left); [vm_compute; reflexivity|]. exists 0%nat. split; [simpl; lia|right; discriminate].
Defined.

Lemma listings_complete_witness :
  In "g"%string (get_vars (bc_fuel 6) 6 demo_storage 3 (-1)) /\
  fst (dspaces_get_var_objs (Some (get_var_objs (bc_fuel 6) 6 demo_storage "a" 3 (-1))) "a") = 6.
Proof.
  destruct (listings_complete 6 demo_storage 3 "a" ltac:(lia) ltac:(lia)) as (_ & _ & H & H').
  - intros t Ht. apply ls_add_obj_inv; [apply ls_add_obj_inv; [apply ls_inv_alloc; lia|]|].
    + vm_compute. intros [].
    + assert (Hc : t = 0 \/ t = 1 \/ t = 2 \/ t = 3 \/ t = 4 \/ t = 5) by lia.
      destruct Hc as [->|[->|[->|[->|[->| ->]]]]]; vm_compute; intros [Hx|[]]; discriminate Hx.
  - split.
    + apply (H 5 (demo_obj 1 (DhtEntry.demo_odsc "g" 0 zero_bbox) 0)); [lia|]. vm_compute. left. reflexivity.
    + destruct H' as (objs & -> & Hp); [vm_compute; reflexivity|]. cbn [fst]. apply Permutation_length in Hp. rewrite Hp. vm_compute. reflexivity.
Defined.
