(* ===== verification/Exec.v ===== *)
(** * Exec: user functions on staged data

    [pexec_rpc], [mpexec_rpc] and [cond_rpc] of [src/src/dspaces-server.c]
    with [dspaces_pexec] and [dspaces_mpexec] of [src/src/dspaces-client.c]: a
    client sends a pickled function; the server assembles the arguments from
    its store, calls the function and keeps the result until the client has
    fetched it.  Python is a parameter. *)

From S2P Require Import Prelude BBox ObjDesc Linear Sspace DhtEntry StrHash LocalStorage Matrix Codec Modules Server Cluster Client Access EndToEnd.

(** ** Arrays *)

(** The array over a buffer: its NumPy type number, its dimensions, slowest
    first, and the buffer. *)
Record ndarray := mkArray {
  nd_type : Z;
  nd_dims : list Z;
  nd_data : list Z
}.

Definition build_ndarray_from_od (od : obj_data) : ndarray :=
  let odsc := obj_desc od in
  let bb := od_bb odsc in
  mkArray (od_tag odsc)
    (rev (map (fun i => i64 (u64 (cget (ub bb) i - cget (lb bb) i) + 1)) (seq 0 (num_dims bb))))
    (ob_data od).

(** The element of an index in NumPy's default order. *)
Definition nd_offset (dims idx : list Z) : Z :=
  fold_left (fun off dk => off * fst dk + snd dk) (combine dims idx) 0.

(** What [dill.loads], the call and [dill.dumps] come to: no module [dill];
    not a function; an exception; [None]; the pickled result. *)
Inductive py_result :=
| Py_no_dill
| Py_not_callable
| Py_raised
| Py_none
| Py_pickled (bytes : list Z).

Class Dill := { dill_run : list Z -> list ndarray -> py_result }.

(** [pexec_out_t]: the length and the bytes behind the handle. *)
Record pexec_out := mkPout { po_length : Z; po_handle : list Z }.

Section Exec.
Context `{E : Env} `{D : Dill}.

(** ** The server *)

(** The reply; without [dill] or a function the handlers respond with an
    uninitialised structure ([pexec_rpc]) or twice ([mpexec_rpc]).  The
    terminator of the bytes object is sent too. *)
Definition exec_reply (r : py_result) : option pexec_out :=
  match r with
  | Py_no_dill | Py_not_callable => None
  | Py_raised | Py_none => Some (mkPout 0 [])
  | Py_pickled b =>
      let length := i32 (Z.of_nat (length b) + 1) in
      Some (mkPout length (if 0 <? length then b ++ [0] else []))
  end.

(** The common part of a stored object, copied out and into the argument. *)
Definition overlap (q : obj_descriptor) (o : obj_data) : obj_descriptor :=
  set_bb (bbox_intersect (od_bb q) (od_bb (obj_desc o)) (od_bb (obj_desc o))) (obj_desc o).

Fixpoint gather (q : obj_descriptor) (from : list obj_data) (arg : obj_data) : option obj_data :=
  match from with
  | [] => Some arg
  | o :: from =>
      od ← obj_data_alloc 0 (overlap q o);
      '(od, _) ← ssd_copy od o;
      '(arg, _) ← ssd_copy arg od;
      gather q from arg
  end.

(** A function of length zero leaves the bulk handle that is freed next
    uninitialised. *)
Definition pexec_rpc (sv : server) (q : obj_descriptor) (fn : list Z)
  : option (server * list update * pexec_out) :=
  match fn with
  | [] => None
  | _ =>
      '(sv, q, out) ← route_request sv q (sv_default_gdim sv);
      match ls_find_all (sv_ls sv) q with
      | None | Some [] => Some (sv, out, mkPout 0 [])
      | Some from =>
          arg ← obj_data_alloc 0 q;
          arg ← gather q from arg;
          reply ← exec_reply (dill_run fn [build_ndarray_from_od arg]);
          Some (sv, out, reply)
      end
  end.

(** The arguments in order, up to one that is not found. *)
Fixpoint gather_args (sv : server) (qs : list obj_descriptor) : option (server * list update * option (list ndarray)) :=
  match qs with
  | [] => Some (sv, [], Some [])
  | q :: qs =>
      '(sv, q, out) ← route_request sv q (sv_default_gdim sv);
      match ls_find_all (sv_ls sv) q with
      | None | Some [] => Some (sv, out, None)
      | Some ((o :: _) as from) =>
          let q := if od_size q =? 0 then set_size (od_size (obj_desc o)) q else q in
          arg ← obj_data_alloc 0 q;
          arg ← gather q from arg;
          '(sv, out', args) ← gather_args sv qs;
          Some (sv, out ++ out', option_map (cons (build_ndarray_from_od arg)) args)
      end
  end.

Definition mpexec_rpc (sv : server) (qs : list obj_descriptor) (fn : list Z)
  : option (server * list update * pexec_out) :=
  match fn with
  | [] => None
  | _ =>
      '(sv, out, args) ← gather_args sv qs;
      match args with
      | None => Some (sv, out, mkPout 0 [])
      | Some args => reply ← exec_reply (dill_run fn args); Some (sv, out, reply)
      end
  end.

(** ** The client *)

Definition zero_odsc : obj_descriptor := mkOdsc "" row_major 0 0 0 "" 0 zero_bbox 0.

Section Calls.
Context `{CE : ClientEnv}.

(** The result pulled into a buffer of the length announced. *)
Definition exec_result (out : pexec_out) : option (Z * option (list Z)) :=
  if po_length out =? 0 then Some (dspaces_SUCCESS, None)
  else if po_length out <? 0 then None
  else data ← bulk_write (malloc (Z.to_nat (po_length out))) (po_length out) (po_handle out);
       Some (dspaces_SUCCESS, Some data).

(** [call] is [pexec_rpc] or [mpexec_rpc] at the server, [None] when the call
    fails. *)
Definition dspaces_pexec (call : obj_descriptor -> list Z -> option pexec_out) (c : client) (var_name : string)
    (ver : Z) (ndim : nat) (lb ub fn : list Z) : option (Z * option (list Z)) :=
  odsc ← fill_odsc c var_name ver 0 ndim lb ub [] zero_odsc;
  match call odsc fn with
  | None => Some (dspaces_ERR_MERCURY, None)
  | Some out => exec_result out
  end.

Definition odsc_from_req (c : client) (req : ds_req) (odsc : obj_descriptor) : option obj_descriptor :=
  fill_odsc c (req_var_name req) (req_ver req) (req_elem_size req) (req_ndim req) (req_lb req) (req_ub req) [] odsc.

Definition dspaces_mpexec (call : list obj_descriptor -> list Z -> option pexec_out) (c : client)
    (args : list ds_req) (fn : list Z) : option (Z * option (list Z)) :=
  odscs ← mapM (fun r => odsc_from_req c r zero_odsc) args;
  match call odscs fn with
  | None => Some (dspaces_ERR_MERCURY, None)
  | Some out => exec_result out
  end.
End Calls.
End Exec.

(** ** The result's handshake *)

(** While the client fetches the result, the handler's thread waits on a
    mutex and a condition of its own stack, whose addresses the client sends
    back in a [cond_rpc].  [hs_free] tells whether the mutex is free;
    [hs_early] is set when the wait has returned without a signal. *)
Inductive exec_pc := X_locked | X_responded | X_waiting | X_woken | X_relocked | X_gone.
Inductive caller_pc := C_wait | C_fetch | C_sent | C_failed.
Inductive cond_pc := H_none | H_arrived | H_locked | H_signalled | H_done.

Record handshake := mkHs {
  hs_exec : exec_pc;
  hs_caller : caller_pc;
  hs_cond : cond_pc;
  hs_free : bool;
  hs_early : bool
}.

(** The handler of [pexec_rpc] and [mpexec_rpc], [cond_rpc] and the client.
    Once the handler is gone its mutex and condition are freed, and
    [cond_rpc] has no step on them that is defined. *)
Inductive hs_step : handshake -> handshake -> Prop :=
| hs_respond h m e : hs_step (mkHs X_locked C_wait h m e) (mkHs X_responded C_fetch h m e)
| hs_wait c h m e : hs_step (mkHs X_responded c h m e) (mkHs X_waiting c h true e)
| hs_fetched x h m e : hs_step (mkHs x C_fetch h m e) (mkHs x C_sent H_arrived m e)
| hs_fetch_failed x h m e : hs_step (mkHs x C_fetch h m e) (mkHs x C_failed h m e)
| hs_lock x c e : x <> X_gone -> hs_step (mkHs x c H_arrived true e) (mkHs x c H_locked false e)
| hs_signal c m e : hs_step (mkHs X_waiting c H_locked m e) (mkHs X_woken c H_signalled m e)
| hs_signal_lost x c m e : x <> X_waiting -> x <> X_gone ->
    hs_step (mkHs x c H_locked m e) (mkHs x c H_signalled m e)
| hs_unlock x c m e : x <> X_gone -> hs_step (mkHs x c H_signalled m e) (mkHs x c H_done true e)
| hs_relock c h e : hs_step (mkHs X_woken c h true e) (mkHs X_relocked c h false e)
| hs_leave c h m e : hs_step (mkHs X_relocked c h m e) (mkHs X_gone c h true e).

(** [ABT_cond_wait] may return although nobody has signalled; the handlers
    do not wait in a loop. *)
Inductive hs_spurious : handshake -> handshake -> Prop :=
| hs_wake_early c h m e : hs_spurious (mkHs X_waiting c h m e) (mkHs X_woken c h m true).

Definition hs_any (s s' : handshake) : Prop := hs_step s s' \/ hs_spurious s s'.

Definition hs_start : handshake := mkHs X_locked C_wait H_none false false.

(** Steps of [cond_rpc] that use the mutex or the condition are left. *)
Definition cond_pending (h : cond_pc) : bool :=
  match h with H_arrived | H_locked | H_signalled => true | _ => false end.

(** ** Arrays: lemmas *)

Section Offsets.
Context (d x : nat -> Z).

Lemma nd_offset_step n m : forall off,
  fold_left (fun off dk => off * fst dk + snd dk)
    (combine (rev (map d (seq m n))) (rev (map x (seq m n)))) off =
  off * zprod n (fun i => d (m + i)%nat) +
  fold_left (fun off dk => off * fst dk + snd dk)
    (combine (rev (map d (seq m n))) (rev (map x (seq m n)))) 0.
Proof.
  induction n as [|n IH]; intros off; [simpl; lia|]. rewrite seq_S, !map_app, !rev_app_distr.
  cbn [rev app map combine fold_left fst snd]. rewrite IH. rewrite (IH (0 * _ + _)). cbn [zprod]. lia.
Qed.

(** The default order of the array is the order of the buffer. *)
Lemma nd_offset_lin n : nd_offset (rev (map d (seq 0 (S n)))) (rev (map x (seq 0 (S n)))) = lin d x n.
Proof.
  unfold nd_offset. induction n as [|n IH]; [simpl; lia|].
  rewrite seq_S, !map_app, !rev_app_distr. cbn [rev app map combine fold_left fst snd].
  rewrite nd_offset_step, IH, (zprod_ext _ (fun i => d (0 + i)%nat) d) by done.
  cbn [lin Nat.add]. lia.
Qed.
End Offsets.

(** The index of a point of a box. *)
Definition nd_index (b : bbox) (p : coord) : list Z :=
  rev (map (fun i => cget p i - cget (lb b) i) (seq 0 (num_dims b))).

Definition nd_shape (b : bbox) : list Z := rev (map (side b) (seq 0 (num_dims b))).

Lemma nd_offset_pos b p : (0 < num_dims b)%nat -> nd_offset (nd_shape b) (nd_index b p) = box_pos b p.
Proof.
  intros Hn. unfold nd_shape, nd_index, box_pos. intros. destruct (num_dims b) as [|n]; [lia|].
  rewrite nd_offset_lin. by replace (S n - 1)%nat with n by lia.
Qed.

Lemma build_shape od : valid_box (od_bb (obj_desc od)) ->
  (forall i, (i < num_dims (od_bb (obj_desc od)))%nat -> side (od_bb (obj_desc od)) i < 2 ^ 63) ->
  nd_dims (build_ndarray_from_od od) = nd_shape (od_bb (obj_desc od)).
Proof.
  intros [Hw Hv] Hs. unfold build_ndarray_from_od, nd_shape. cbn [nd_dims]. f_equal. apply map_ext_in.
  intros i Hi. apply in_seq in Hi. specialize (Hv i ltac:(lia)). specialize (Hs i ltac:(lia)). unfold side in *.
  pose proof (wf_coord_range _ i (proj1 (proj2 Hw))). rewrite u64_small, i64_small by lia. done.
Qed.

(** ** Gathering an argument *)

Section Gather.
Context `{E : Env}.
Context (s : Z) (q : obj_descriptor).
Context (Hq : valid_box (od_bb q)) (Hs : 0 < s) (Hsmall : s * zvolume (od_bb q) < 2 ^ 31).

(** A stored object that can be copied from. *)
Definition source_ok (o : obj_data) : Prop :=
  obj_desc_equals_intersect q (obj_desc o) = true /\ num_dims (od_bb (obj_desc o)) = num_dims (od_bb q) /\
  od_size (obj_desc o) = s /\ copyable s (od_bb (obj_desc o)) (ob_data o).

Lemma overlap_spec o : source_ok o ->
  within o (overlap q o) /\ od_size (overlap q o) = s /\ num_dims (od_bb (overlap q o)) = num_dims (od_bb q) /\
  bbox_does_intersect (od_bb q) (od_bb (overlap q o)) = true /\
  (forall p, in_box p (od_bb (overlap q o)) <-> in_box p (od_bb q) /\ in_box p (od_bb (obj_desc o))) /\
  small_obj (overlap q o).
Proof.
  intros (Hm & Hd & Hsz & Hc). pose proof (proj1 Hc) as Hv.
  assert (Hm' : obj_desc_equals_intersect (obj_desc o) q = true).
  { apply obj_desc_equals_intersect_spec in Hm as (H1 & H2 & H3). apply obj_desc_equals_intersect_spec.
    split_and!; [done..|]. by rewrite does_intersect_comm. }
  destruct (query_view_within q (obj_desc o) 0 (mkPut 0 (obj_desc o) zero_gdim []) _ Hq eq_refl Hv Hd Hm')
    as (Hw & Hsz' & Hd' & Hi).
  assert (Hp : forall p, in_box p (od_bb (overlap q o)) <-> in_box p (od_bb q) /\ in_box p (od_bb (obj_desc o))).
  { intros p. apply in_box_intersect; [apply Hq|apply Hv|done]. }
  split; [exact Hw|]. split; [exact Hsz|]. split; [done|]. split; [exact Hi|]. split; [exact Hp|].
  pose proof Hw as (_ & _ & _ & Hvo & _). cbn [obj_desc] in *. change (od_bb (query_view q (obj_desc o))) with (od_bb (overlap q o)) in Hvo, Hd'.
  unfold small_obj, obj_data_size. rewrite bbox_volume_zvolume, u64_mul_r.
  change (od_size (overlap q o)) with (od_size (obj_desc o)). rewrite Hsz.
  assert (Hle : zvolume (od_bb (overlap q o)) <= zvolume (od_bb q)).
  { unfold zvolume. rewrite Hd'. apply zprod_mono. intros i Hi'. destruct Hvo as [_ Hvo]. destruct Hq as [Hwq Hvq].
    specialize (Hvo i ltac:(lia)). specialize (Hvq i Hi'). unfold side.
    pose proof (Hp (lb (od_bb (overlap q o)))) as [Hl _]. pose proof (Hp (ub (od_bb (overlap q o)))) as [Hu _].
    destruct Hl as [Hl _]; [apply in_box_lb, Hw|]. destruct Hu as [Hu _]; [apply in_box_ub, Hw|].
    specialize (Hl i Hi'). specialize (Hu i Hi'). lia. }
  assert (Hpos : 0 <= zvolume (od_bb (overlap q o))).
  { apply zprod_nonneg. intros i Hi'. destruct Hvo as [_ Hvo]. specialize (Hvo i Hi'). unfold side. lia. }
  rewrite u64_small by nia. nia.
Qed.

(** The argument under construction. *)
Definition arg_shape (arg : obj_data) : Prop :=
  od_bb (obj_desc arg) = od_bb q /\ od_size (obj_desc arg) = s /\ copyable s (od_bb q) (ob_data arg).

(** Cell [p] of [arg'] is that of [o] where [o] has it, else that of [arg]. *)
Definition overlaid (o arg arg' : obj_data) : Prop :=
  forall p t, in_box p (od_bb q) -> 0 <= t < s ->
    ob_data arg' !! Z.to_nat (s * box_pos (od_bb q) p + t) =
    if decide (in_box p (od_bb (obj_desc o)))
    then ob_data o !! Z.to_nat (s * box_pos (od_bb (obj_desc o)) p + t)
    else ob_data arg !! Z.to_nat (s * box_pos (od_bb q) p + t).

(** The common part copied out. *)
Lemma extract o : source_ok o ->
  exists od0 od n, obj_data_alloc 0 (overlap q o) = Some od0 /\ ssd_copy od0 o = Some (od, n) /\
    obj_desc od = set_tag_type (od_tag (obj_desc o)) (od_type (obj_desc o)) (overlap q o) /\
    copyable s (od_bb (overlap q o)) (ob_data od) /\
    forall p t, in_box p (od_bb (overlap q o)) -> 0 <= t < s ->
      ob_data od !! Z.to_nat (s * box_pos (od_bb (overlap q o)) p + t)
      = ob_data o !! Z.to_nat (s * box_pos (od_bb (obj_desc o)) p + t).
Proof.
  intros Ho. destruct (overlap_spec o Ho) as (Hw & Hsz & Hd & Hi & Hp & Hsm). destruct Ho as (Hm & Hdo & Hso & Hco).
  rewrite obj_data_alloc_small by done. eexists. set (od0 := mkObj _ _ _ _ _ _).
  assert (Hsz' : od_size (overlap q o) = od_size (obj_desc o)) by done.
  destruct (within_size o (overlap q o) ltac:(by rewrite Hso) Hw Hsz') as [_ Hcopy]. rewrite Hsz in Hcopy.
  assert (Hlen : Z.of_nat (length (ob_data od0)) = obj_data_size (overlap q o)).
  { cbn [od0 ob_data]. rewrite length_malloc. pose proof (obj_data_size_range (overlap q o)). lia. }
  destruct (ssd_copy_spec od0 o) as (data & -> & Hl & H); cbn [od0 obj_desc]; rewrite ?Hsz; try done.
  { by apply Hcopy. }
  { by apply (within_match o), obj_desc_equals_intersect_spec in Hw as (_ & _ & ?). }
  eexists _, _. split; [reflexivity|]. split; [reflexivity|]. cbn [obj_desc ob_data]. split; [done|]. split; [apply Hcopy; lia|].
  cbn [od0 obj_desc] in H. rewrite Hsz in H. intros p t Hpo Ht. rewrite (H p t Hpo Ht), decide_True; [done|]. by apply Hp.
Qed.

Lemma gather_one o from arg : source_ok o -> arg_shape arg ->
  exists arg', gather q (o :: from) arg = gather q from arg' /\ arg_shape arg' /\
    od_tag (obj_desc arg') = od_tag (obj_desc o) /\ overlaid o arg arg'.
Proof.
  intros Ho (Hab & Has & Hac). destruct (extract o Ho) as (od0 & od & n & Ha & Hcp & Hdesc & Hc1 & H1).
  destruct (overlap_spec o Ho) as (_ & Hsz & Hd & Hi & Hp & _). cbn [gather]. rewrite Ha. cbn [mbind option_bind]. rewrite Hcp.
  cbn [mbind option_bind].
  destruct (ssd_copy_spec arg od) as (data2 & -> & Hl2 & H2); rewrite ?Has, ?Hab, ?Hdesc; cbn [set_tag_type od_bb od_size]; try done.
  cbn [mbind option_bind]. eexists. split; [reflexivity|]. unfold arg_shape. rewrite ?Hdesc. cbn [obj_desc set_tag_type od_tag od_bb od_size ob_data].
  split; [|split; [done|]].
  - split; [done|]. split; [done|]. destruct Hac as (A1 & A2 & A3 & A4 & A5 & A6). split_and!; try done; try apply A3. lia.
  - intros p t Hpq Ht. cbn [ob_data]. rewrite Hab, Has, Hdesc in H2. rewrite (H2 p t Hpq Ht). cbn [set_tag_type od_bb].
    case_decide as C1; [|case_decide as C2; [by destruct C1; apply Hp|done]].
    rewrite (H1 p t C1 Ht), decide_True by (by apply Hp in C1 as [_ C1]). done.
Qed.

Lemma gather_arg_spec from : forall arg, Forall source_ok from -> arg_shape arg ->
  exists arg', gather q from arg = Some arg' /\ arg_shape arg' /\
    (from <> [] -> forall g, Forall (fun o => od_tag (obj_desc o) = g) from -> od_tag (obj_desc arg') = g) /\
    forall p t, in_box p (od_bb q) -> 0 <= t < s -> Exists (in_box p) (obj_boxes from) ->
      exists o, In o from /\ in_box p (od_bb (obj_desc o)) /\
        ob_data arg' !! Z.to_nat (s * box_pos (od_bb q) p + t)
        = ob_data o !! Z.to_nat (s * box_pos (od_bb (obj_desc o)) p + t).
Proof.
  assert (Hgen : forall arg, Forall source_ok from -> arg_shape arg ->
    exists arg', gather q from arg = Some arg' /\ arg_shape arg' /\
      (forall g, Forall (fun o => od_tag (obj_desc o) = g) from -> from <> [] \/ od_tag (obj_desc arg) = g -> od_tag (obj_desc arg') = g) /\
      forall p t, in_box p (od_bb q) -> 0 <= t < s ->
        (exists o, In o from /\ in_box p (od_bb (obj_desc o)) /\
          ob_data arg' !! Z.to_nat (s * box_pos (od_bb q) p + t)
          = ob_data o !! Z.to_nat (s * box_pos (od_bb (obj_desc o)) p + t)) \/
        ~ Exists (in_box p) (obj_boxes from) /\
          ob_data arg' !! Z.to_nat (s * box_pos (od_bb q) p + t) = ob_data arg !! Z.to_nat (s * box_pos (od_bb q) p + t)).
  { induction from as [|o from IH]; intros arg Hf Ha.
    { exists arg. split; [done|]. split; [done|]. split; [by intros g _ [?|?]|]. intros p t _ _. right. split; [|done]. intros Hx; inversion Hx. }
    apply Forall_cons in Hf as [Ho Hf]. destruct (gather_one o from arg Ho Ha) as (arg1 & -> & Ha1 & Ht1 & Hov).
    destruct (IH arg1 Hf Ha1) as (arg' & -> & Ha' & Ht' & Hc). exists arg'. split; [done|]. split; [done|]. split.
    - intros g [Hg Hgs]%Forall_cons _. apply Ht'; [done|]. right. congruence.
    - intros p t Hp Ht. specialize (Hov p t Hp Ht). destruct (Hc p t Hp Ht) as [(o' & Hin & Hb & Heq)|[Hno Heq]].
      + left. exists o'. split; [by right|done].
      + case_decide as Hpo; [left; exists o; split; [by left|]; split; [done|congruence]|].
        right. split; [|congruence]. unfold obj_boxes. cbn [map]. rewrite Exists_cons. by intros [?|?]. }
  intros arg Hf Ha. destruct (Hgen arg Hf Ha) as (arg' & H1 & H2 & H3 & H4). exists arg'. split; [done|]. split; [done|]. split.
  - intros Hne g Hg. apply H3; auto.
  - intros p t Hp Ht Hex. by destruct (H4 p t Hp Ht) as [?|[? _]].
Qed.
End Gather.

(** ** Elements of no size *)

Lemma memcpy_nothing (dst src : list Z) : memcpy dst 0 src 0 0 = Some dst.
Proof.
  unfold memcpy. destruct (Z.leb_spec (0 + 0) (Z.of_nat (length dst))), (Z.leb_spec (0 + 0) (Z.of_nat (length src))); lia || done.
Qed.

Lemma copy_levels_nothing a b : mat_size_elem a = 0 ->
  forall k aloc bloc A num, exists num', copy_levels a b k aloc bloc (A, num) = Some (A, num').
Proof.
  intros Hz. induction k as [|k IH]; intros aloc bloc A num.
  - cbn [copy_levels]. rewrite Hz, !Z.mul_0_r, Z.mul_0_l. change (u64 0) with 0. rewrite memcpy_nothing. by eexists.
  - cbn [copy_levels]. generalize (loop_count (cget (mat_lb a) (S k)) (cget (mat_ub a) (S k))) as n.
    generalize (cget (mat_lb a) (S k)) as x, (cget (mat_lb b) (S k)) as y. intros x y n. revert num x y.
    induction n as [|n IHn]; intros num x y; [by eexists|]. cbn [copy_loop].
    destruct (IH (u64 (u64 (aloc + x) * cget (mat_dist a) k))
                (u64 (u64 (bloc + (if (S k =? 9)%nat then x else y)) * cget (mat_dist b) k)) A num) as [num1 ->].
    cbn [mbind option_bind]. apply IHn.
Qed.

Lemma ssd_copy_nothing to from : od_size (obj_desc to) = 0 ->
  exists to' n, ssd_copy to from = Some (to', n) /\ ob_data to' = ob_data to /\
    obj_desc to' = set_tag_type (od_tag (obj_desc from)) (od_type (obj_desc from)) (obj_desc to).
Proof.
  intros Hz. unfold ssd_copy, matrix_copy. cbn [set_tag_type od_size od_bb od_st].
  destruct (copy_levels_nothing
    (matrix_init (od_st (obj_desc to)) (od_bb (obj_desc to))
       (bbox_intersect (od_bb (obj_desc to)) (od_bb (obj_desc from)) zero_bbox) (ob_data to) (od_size (obj_desc to)))
    (matrix_init (od_st (obj_desc from)) (od_bb (obj_desc from))
       (bbox_intersect (od_bb (obj_desc to)) (od_bb (obj_desc from)) zero_bbox) (ob_data from) (od_size (obj_desc from)))
    Hz (entry_level (num_dims (od_bb (obj_desc to)))) 0 0 (ob_data to) 0) as [num' Hc].
  cbn [matrix_init mat_num_dims mat_pdata] in *. rewrite Hc. cbn [mbind option_bind]. by eexists _, _.
Qed.

Lemma gather_nothing `{E : Env} s q from : valid_box (od_bb q) -> 0 < s -> s * zvolume (od_bb q) < 2 ^ 31 ->
  Forall (source_ok s q) from -> forall arg, od_size (obj_desc arg) = 0 ->
  exists arg', gather q from arg = Some arg' /\ ob_data arg' = ob_data arg /\ od_bb (obj_desc arg') = od_bb (obj_desc arg).
Proof.
  intros Hq Hs Hsm. induction 1 as [|o from Ho _ IH]; intros arg Hz; [by exists arg|].
  destruct (extract s q Hq Hs Hsm o Ho) as (od0 & od & n & Ha & Hcp & Hdesc & _). cbn [gather]. rewrite Ha. cbn [mbind option_bind].
  rewrite Hcp. cbn [mbind option_bind]. destruct (ssd_copy_nothing arg od Hz) as (arg1 & n1 & -> & Hd1 & Ho1). cbn [mbind option_bind].
  destruct (IH arg1) as (arg' & Hg & Hd' & Hb'); [by rewrite Ho1|]. exists arg'. rewrite Hd', Hb', Ho1. done.
Qed.

(** ** The server's calls *)

Section Calls.
Context `{E : Env} `{D : Dill}.

(** The stored objects that match a descriptor. *)
Definition stored (sv : server) (q : obj_descriptor) : list obj_data :=
  obj_matching q (obj_bin (sv_ls sv) (obj_index (sv_ls sv) q)).

Definition covered (sv : server) (q : obj_descriptor) : Prop :=
  forall p, in_box p (od_bb q) -> Exists (in_box p) (obj_boxes (stored sv q)).

(** An argument of elements of [s] bytes, of a variable no module provides. *)
Record arg_ok (sv : server) (s : Z) (q : obj_descriptor) : Prop := {
  ao_box : valid_box (od_bb q);
  ao_dims : (1 <= num_dims (od_bb q) <= 9)%nat;
  ao_ub : forall i, (i < num_dims (od_bb q))%nat -> cget (ub (od_bb q)) i < 2 ^ 63;
  ao_pos : 0 < s;
  ao_small : s * zvolume (od_bb q) < 2 ^ 31;
  ao_size : od_size q = 0 \/ od_size q = s;
  ao_mod : dspaces_mod_by_od (sv_mods sv) q = None;
  ao_objs : forall o, In o (stored sv q) -> num_dims (od_bb (obj_desc o)) = num_dims (od_bb q) /\
    od_size (obj_desc o) = s /\ copyable s (od_bb (obj_desc o)) (ob_data o);
  ao_apart : disjoint_boxes (obj_boxes (stored sv q))
}.

(** The array of an argument: the element of an index is the stored element of
    the point. *)
Definition holds_arg (sv : server) (q : obj_descriptor) (s : Z) (a : ndarray) : Prop :=
  nd_dims a = nd_shape (od_bb q) /\ Z.of_nat (length (nd_data a)) = s * zvolume (od_bb q) /\
  (forall g, Forall (fun o => od_tag (obj_desc o) = g) (stored sv q) -> nd_type a = g) /\
  forall p t, in_box p (od_bb q) -> 0 <= t < s -> exists o, In o (stored sv q) /\ in_box p (od_bb (obj_desc o)) /\
    nd_data a !! Z.to_nat (s * nd_offset (nd_dims a) (nd_index (od_bb q) p) + t)
    = ob_data o !! Z.to_nat (s * box_pos (od_bb (obj_desc o)) p + t).

Lemma arg_sources sv s q : arg_ok sv s q -> Forall (source_ok s q) (stored sv q).
Proof.
  intros []. apply Forall_forall. intros o Ho%list_elem_of_In. destruct (ao_objs0 o Ho) as (H1 & H2 & H3).
  apply filter_In in Ho as [_ Ho]. by split.
Qed.

Lemma zvolume_side b i : valid_box b -> (i < num_dims b)%nat -> 1 <= side b i <= zvolume b.
Proof.
  intros [_ Hv] Hi. unfold zvolume. assert (Hpos : forall j, (j < num_dims b)%nat -> 1 <= side b j).
  { intros j Hj. specialize (Hv j Hj). unfold side. lia. }
  split; [by apply Hpos|]. clear Hv. revert Hi Hpos. generalize (side b) as f. induction (num_dims b) as [|n IH]; [lia|].
  intros f Hi Hpos. cbn [zprod]. assert (H1 : 1 <= zprod n f) by (pose proof (zprod_pos n f ltac:(intros j Hj; specialize (Hpos j); lia)); lia).
  specialize (Hpos n ltac:(lia)) as Hn. destruct (decide (i = n)) as [->|]; [nia|].
  specialize (IH f ltac:(lia) ltac:(intros; apply Hpos; lia)). nia.
Qed.

(** Coverage as [ls_find_all] decides it. *)
Lemma covered_count sv s q : arg_ok sv s q ->
  (length (uncovered (EC := v0_counter (num_dims (od_bb q))) (od_bb q) (rev (obj_boxes (stored sv q)))) =? 0)%nat = true
  <-> covered sv q.
Proof.
  intros []. rewrite uncovered_rev_none. split; intros Hall p Hp; [|apply elem_of_box_points in Hp as [_ Hp]; by apply Hall].
  set (p' := map (cget p) (seq 0 (num_dims (od_bb q)))).
  assert (Hpp : forall i, (i < num_dims (od_bb q))%nat -> cget p' i = cget p i).
  { intros i Hi. unfold p', cget. rewrite (nth_indep _ 0 (nth 0 p 0)) by (rewrite length_map, length_seq; lia).
    change (nth 0 p 0) with ((fun j => nth j p 0) 0%nat). rewrite map_nth, seq_nth by lia. done. }
  specialize (Hall p'). rewrite Exists_exists in Hall |- *. destruct Hall as (b & Hb & Hin).
  { apply elem_of_box_points. split; [by unfold p'; rewrite length_map, length_seq|]. intros i Hi. rewrite Hpp by done. by apply Hp. }
  exists b. split; [done|]. intros i Hi. rewrite <- Hpp; [by apply Hin|].
  apply list_elem_of_In, in_map_iff in Hb as (o & <- & Ho). destruct (ao_objs0 o Ho) as [<- _]. done.
Qed.

(** [ls_find_all] on an argument. *)
Lemma arg_found sv s q : arg_ok sv s q ->
  (covered sv q /\ exists o l, stored sv q = o :: l /\ ls_find_all (sv_ls sv) q = Some (o :: l)) \/
  (~ covered sv q /\ ls_find_all (sv_ls sv) q = None).
Proof.
  intros Hok. pose proof (covered_count sv s q Hok) as Hcc. destruct Hok. rewrite (ls_find_all_eq (num_dims (od_bb q))).
  - fold (stored sv q). destruct (_ =? 0)%nat.
    + left. destruct Hcc as [Hc _]. specialize (Hc eq_refl). split; [done|].
      specialize (Hc _ (in_box_lb _ ao_box0)). destruct (stored sv q) as [|o l]; [by inversion Hc|]. by exists o, l.
    + right. split; [|done]. by intros Hc%Hcc.
  - split; [done|]. split; [done|]. nia.
  - apply Forall_forall. intros b (o & <- & Ho)%list_elem_of_In%in_map_iff. destruct (ao_objs0 o Ho) as (? & _ & Hcp).
    split; [apply Hcp|done].
  - done.
Qed.

Lemma arg_gathered sv s q : arg_ok sv s q -> covered sv q ->
  let q' := if od_size q =? 0 then set_size s q else q in
  exists arg0 arg, obj_data_alloc 0 q' = Some arg0 /\ gather q' (stored sv q) arg0 = Some arg /\
    holds_arg sv q s (build_ndarray_from_od arg).
Proof.
  intros Hok Hc q'. pose proof Hok as [].
  assert (Hq' : od_bb q' = od_bb q /\ od_size q' = s /\ od_name q' = od_name q /\ od_version q' = od_version q).
  { unfold q'. destruct (Z.eqb_spec (od_size q) 0); cbn [set_size od_bb od_size od_name od_version]; [done|]. by destruct ao_size0. }
  destruct Hq' as (Hb & Hs & Hn & Hve).
  assert (Hvol : 0 < zvolume (od_bb q)).
  { apply zprod_pos. intros i Hi. pose proof (zvolume_side _ i ao_box0 Hi). lia. }
  assert (Hsize : obj_data_size q' = s * zvolume (od_bb q)).
  { unfold obj_data_size. rewrite Hb, Hs, bbox_volume_zvolume, u64_mul_r, u64_small; nia. }
  rewrite obj_data_alloc_small by (unfold small_obj; lia). eexists _. set (arg0 := mkObj _ _ _ _ _ _).
  destruct (gather_arg_spec s q' ltac:(by rewrite Hb) ao_pos0 ltac:(by rewrite Hb) (stored sv q) arg0) as (arg & Hg & Hsh & Htag & Hcell).
  - apply Forall_forall. intros o Ho. pose proof (arg_sources sv s q Hok) as Hsrc. rewrite Forall_forall in Hsrc.
    specialize (Hsrc o Ho). unfold source_ok, obj_desc_equals_intersect in *. by rewrite Hb, Hn, Hve.
  - split; [by cbn|]. split; [by cbn|]. rewrite Hb. split; [done|]. split; [done|]. split; [done|]. split; [done|].
    split; [|lia]. cbn [arg0 ob_data]. rewrite length_malloc, Hsize. nia.
  - unfold arg_shape in Hsh. rewrite Hb in Hsh, Hcell. destruct Hsh as (Hab & _ & Hal). exists arg. split; [done|]. split; [exact Hg|].
    assert (Hdims : nd_dims (build_ndarray_from_od arg) = nd_shape (od_bb q)).
    { rewrite build_shape; rewrite Hab, ?Hb; [done|done|]. intros i Hi. pose proof (zvolume_side _ i ao_box0 Hi). nia. }
    split; [exact Hdims|]. split; [apply Hal|]. split.
    + intros g Hgs. apply Htag; [|done]. specialize (Hc _ (in_box_lb _ ao_box0)). intros E0. rewrite E0 in Hc. inversion Hc.
    + intros p t Hp Ht. rewrite Hdims, nd_offset_pos by lia. apply Hcell; [done|done|]. by apply Hc.
Qed.

Lemma gather_args_spec sv qs : Forall (fun q => exists s, arg_ok sv s q) qs ->
  (Forall (covered sv) qs -> exists args, gather_args sv qs = Some (sv, [], Some args) /\
     Forall2 (fun q a => exists s, arg_ok sv s q /\ holds_arg sv q s a) qs args) /\
  (Exists (fun q => ~ covered sv q) qs -> gather_args sv qs = Some (sv, [], None)).
Proof.
  induction qs as [|q qs IH]; intros Hall.
  { split; [intros _; by exists []|]. intros H. inversion H. }
  apply Forall_cons in Hall as [[s Hs] Hall]. destruct (IH Hall) as [IH1 IH2].
  assert (Hr : route_request sv q (sv_default_gdim sv) = Some (sv, q, [])) by (unfold route_request; by rewrite (ao_mod _ _ _ Hs)).
  cbn [gather_args]. rewrite Hr. cbn [mbind option_bind].
  destruct (arg_found sv s q Hs) as [[Hc (o & l & Hst & ->)]|[Hnc ->]].
  - destruct (arg_gathered sv s q Hs Hc) as (arg0 & arg & Ha & Hg & Hh). rewrite Hst in Hg.
    assert (Hos : od_size (obj_desc o) = s) by (apply (ao_objs _ _ _ Hs); rewrite Hst; by left).
    rewrite Hos, Ha. cbn [mbind option_bind]. rewrite Hg. cbn [mbind option_bind]. split.
    + intros [_ Hcs]%Forall_cons. destruct (IH1 Hcs) as (args & -> & Hargs). cbn [mbind option_bind option_map app].
      eexists. split; [reflexivity|]. constructor; [by exists s|done].
    + intros [Hn|Hex]%Exists_cons; [done|]. by rewrite (IH2 Hex).
  - split; [|done]. by intros [? _]%Forall_cons.
Qed.

(** The client's view of a reply. *)
Lemma exec_result_reply `{CE : ClientEnv} r :
  match r with
  | Py_no_dill | Py_not_callable => exec_reply r = None
  | Py_raised | Py_none => exists out, exec_reply r = Some out /\ exec_result out = Some (dspaces_SUCCESS, None)
  | Py_pickled b => Z.of_nat (length b) + 1 < 2 ^ 31 ->
      exists out, exec_reply r = Some out /\ exec_result out = Some (dspaces_SUCCESS, Some (b ++ [0]))
  end.
Proof.
  destruct r as [| | | |b]; try done; try (by eexists). intros Hb. eexists. split; [reflexivity|]. unfold exec_result. cbn [po_length po_handle].
  rewrite i32_small by lia. destruct (Z.eqb_spec (Z.of_nat (length b) + 1) 0), (Z.ltb_spec (Z.of_nat (length b) + 1) 0),
    (Z.ltb_spec 0 (Z.of_nat (length b) + 1)); try lia.
  rewrite bulk_write_exact; rewrite ?length_malloc, ?length_app; cbn [length]; lia || done.
Qed.

Lemma fill_odsc_size `{CE : ClientEnv} c var ver n ndim lb ub raw o q :
  fill_odsc c var ver n ndim lb ub raw o = Some q -> od_size q = u64 n.
Proof.
  unfold fill_odsc, copy_var_name_to_odsc. destruct (user_box _ _ _); [|done]. cbn [mbind option_bind].
  intros H. by simplify_option_eq.
Qed.

(** The states that are reached. *)
Definition hs_inv (s : handshake) : bool :=
  match hs_exec s, hs_caller s, hs_cond s, hs_free s with
  | X_locked, C_wait, H_none, false => negb (hs_early s)
  | X_responded, (C_fetch | C_failed), H_none, false => negb (hs_early s)
  | X_responded, C_sent, H_arrived, false => negb (hs_early s)
  | X_waiting, (C_fetch | C_failed), H_none, true => negb (hs_early s)
  | X_waiting, C_sent, H_arrived, true => negb (hs_early s)
  | X_waiting, C_sent, H_locked, false => negb (hs_early s)
  | X_woken, C_sent, H_signalled, false => true
  | X_woken, C_sent, H_done, true => true
  | X_relocked, C_sent, H_done, false => true
  | X_gone, C_sent, H_done, true => true
  | (X_woken | X_gone), (C_fetch | C_failed), H_none, true => hs_early s
  | (X_woken | X_gone), C_sent, H_arrived, true => hs_early s
  | X_woken, C_sent, H_locked, false => hs_early s
  | X_relocked, (C_fetch | C_failed), H_none, false => hs_early s
  | X_relocked, C_sent, H_arrived, false => hs_early s
  | _, _, _, _ => false
  end.

(** Steps taken so far, at least. *)
Definition hs_rank (s : handshake) : nat :=
  match hs_exec s with X_locked => 0 | X_responded => 1 | X_waiting => 2 | X_woken => 3 | X_relocked => 4 | X_gone => 5 end
  + match hs_caller s with C_wait => 0 | C_fetch => 1 | _ => 2 end
  + match hs_cond s with H_none => 0 | H_arrived => 1 | H_locked => 2 | H_signalled => 3 | H_done => 4 end.

Lemma hs_any_inv s s' : hs_any s s' -> hs_inv s = true -> hs_inv s' = true /\ (S (hs_rank s) <= hs_rank s')%nat.
Proof.
  intros [Hs|Hs] Hi; destruct Hs; unfold hs_inv, hs_rank in *; cbn [hs_exec hs_caller hs_cond hs_free hs_early] in *;
    repeat case_match; simplify_eq/=; split; done || lia.
Qed.

Lemma hs_runs_inv n s s' : nsteps hs_any n s s' -> hs_inv s = true -> hs_inv s' = true /\ (n + hs_rank s <= hs_rank s')%nat.
Proof.
  induction 1 as [s|n s s1 s' Hs _ IH]; intros Hi; [done|]. destruct (hs_any_inv _ _ Hs Hi) as [Hi1 Hr].
  destruct (IH Hi1) as [H1 H2]. split; [done|lia].
Qed.

(** ** Properties *)

(** C33: A [dspaces_mpexec] runs the client's function on what is stored.  For
    arguments of variables no module provides, each matched by stored objects
    of one element size that do not overlap: if these cover all the boxes, the
    function is called once with one array per argument, of the shape of the
    box and of the objects' type, whose element at each index is the stored
    element of the point; the caller gets the pickled result with a
    terminator, or nothing when the function returns [None] or raises.  If a
    box is not covered the function is not called and the caller gets
    nothing.  (What is not a function is answered twice.) *)
Theorem mpexec_calls `{CE : ClientEnv} sv c reqs qs fn :
  let call qs fn := option_map snd (mpexec_rpc sv qs fn) in
  fn <> [] -> mapM (fun r => odsc_from_req c r zero_odsc) reqs = Some qs ->
  Forall (fun q => exists s, arg_ok sv s q) qs ->
  (Exists (fun q => ~ covered sv q) qs -> dspaces_mpexec call c reqs fn = Some (dspaces_SUCCESS, None)) /\
  (Forall (covered sv) qs -> exists args,
     Forall2 (fun q a => exists s, arg_ok sv s q /\ holds_arg sv q s a) qs args /\
     match dill_run fn args with
     | Py_pickled b => Z.of_nat (length b) + 1 < 2 ^ 31 ->
         dspaces_mpexec call c reqs fn = Some (dspaces_SUCCESS, Some (b ++ [0]))
     | Py_raised | Py_none => dspaces_mpexec call c reqs fn = Some (dspaces_SUCCESS, None)
     | Py_no_dill | Py_not_callable => mpexec_rpc sv qs fn = None
     end).
Proof.
  intros call Hfn Hqs Hok. destruct (gather_args_spec sv qs Hok) as [Hyes Hno].
  unfold dspaces_mpexec, call. rewrite Hqs. cbn [mbind option_bind]. destruct fn as [|b fn]; [done|]. cbn [mpexec_rpc]. split.
  - intros Hex. rewrite (Hno Hex). done.
  - intros Hc. destruct (Hyes Hc) as (args & -> & Hargs). exists args. split; [done|]. cbn [mbind option_bind].
    pose proof (exec_result_reply (dill_run (b :: fn) args)) as Hr. destruct (dill_run (b :: fn) args) as [| | | |r].
    + by rewrite Hr.
    + by rewrite Hr.
    + destruct Hr as (out & -> & Hr). exact Hr.
    + destruct Hr as (out & -> & Hr). exact Hr.
    + intros Hl. destruct (Hr Hl) as (out & -> & Hr'). exact Hr'.
Qed.

(** [dspaces_pexec] sends a descriptor of element size 0, and
    [pexec_rpc], unlike [mpexec_rpc], does not take the size of the objects it
    finds: the function is given an array of the right shape over a buffer of
    no bytes, whatever is stored. *)
Theorem pexec_array_empty `{CE : ClientEnv} sv s c var ver ndim lb ub fn q :
  let call q fn := option_map snd (pexec_rpc sv q fn) in
  fn <> [] -> fill_odsc c var ver 0 ndim lb ub [] zero_odsc = Some q -> arg_ok sv s q -> covered sv q ->
  exists arr, nd_dims arr = nd_shape (od_bb q) /\ nd_data arr = [] /\
    pexec_rpc sv q fn = (reply ← exec_reply (dill_run fn [arr]); Some (sv, [], reply)) /\
    forall out, exec_reply (dill_run fn [arr]) = Some out ->
      dspaces_pexec call c var ver ndim lb ub fn = exec_result out.
Proof.
  intros call Hfn Hq Hok Hc. assert (Hz : od_size q = 0) by (by rewrite (fill_odsc_size _ _ _ _ _ _ _ _ _ _ Hq)).
  destruct (arg_found sv s q Hok) as [[_ (o & l & Hst & Hfind)]|[Hnc _]]; [|done]. pose proof (arg_sources sv s q Hok) as Hsrc.
  pose proof Hok as []. assert (H0 : obj_data_size q = 0) by (unfold obj_data_size; by rewrite Hz).
  set (arg0 := mkObj 0 q zero_gdim (malloc (Z.to_nat 0)) 0 false).
  destruct (gather_nothing s q (stored sv q) ao_box0 ao_pos0 ao_small0 Hsrc arg0 Hz) as (arg & Hg & Hd & Hb).
  exists (build_ndarray_from_od arg). split; [|split].
  - rewrite build_shape; rewrite Hb; [done|done|]. intros i Hi. pose proof (zvolume_side _ i ao_box0 Hi). cbn. nia.
  - cbn [build_ndarray_from_od nd_data]. rewrite Hd. cbn [arg0 ob_data]. apply nil_length_inv. apply length_malloc.
  - assert (Hp : pexec_rpc sv q fn = (reply ← exec_reply (dill_run fn [build_ndarray_from_od arg]); Some (sv, [], reply))).
    { destruct fn as [|b fn]; [done|]. cbn [pexec_rpc]. unfold route_request. rewrite ao_mod0. cbn [mbind option_bind].
      rewrite Hfind. rewrite obj_data_alloc_small by (unfold small_obj; lia). cbn [mbind option_bind]. rewrite H0.
      fold arg0. rewrite Hst in Hg. by rewrite Hg. }
    split; [exact Hp|]. intros out Hout. unfold dspaces_pexec. rewrite Hq. cbn [mbind option_bind]. unfold call. rewrite Hp, Hout. done.
Qed.
End Calls.

(** C37: How the handshake on a result ends.  In every interleaving of the
    handler, the client and the [cond_rpc], with waits that may return without
    a signal: there are at most eleven steps; as long as the wait has not
    returned early, the mutex and the condition exist while [cond_rpc] uses
    them and the signal finds the handler waiting.  When no step is left, the
    handler has left after [cond_rpc] ended, or the client has failed to fetch
    the result and the handler waits for ever, or the wait has returned early
    and the handler is gone while the client failed or while [cond_rpc] is
    about to use its freed mutex.  And the last does happen: whenever the
    handler waits and [cond_rpc] has not taken the mutex, one early return
    allows it. *)
Theorem handshake_ends n s : nsteps hs_any n hs_start s ->
  (n <= 11)%nat /\
  (hs_early s = false ->
     (cond_pending (hs_cond s) = true -> hs_exec s <> X_gone) /\ (hs_cond s = H_locked -> hs_exec s = X_waiting)) /\
  ((forall s', ~ hs_step s s') ->
     hs_exec s = X_gone /\ hs_cond s = H_done \/
     hs_exec s = X_waiting /\ hs_caller s = C_failed /\ hs_early s = false \/
     hs_exec s = X_gone /\ hs_early s = true /\ (hs_caller s = C_failed \/ hs_cond s = H_arrived)) /\
  (hs_exec s = X_waiting -> hs_caller s = C_fetch \/ hs_cond s = H_arrived ->
     exists s1 s2, hs_spurious s s1 /\ rtc hs_step s1 s2 /\ hs_exec s2 = X_gone /\ hs_cond s2 = H_arrived).
Proof.
  intros H. destruct (hs_runs_inv _ _ _ H eq_refl) as [Hi Hr].
  assert (Hm : (hs_rank s <= 11)%nat) by (unfold hs_rank; repeat case_match; lia).
  split; [lia|]. clear H Hr Hm. destruct s as [x c h m e]. unfold hs_inv in Hi. cbn [hs_exec hs_caller hs_cond hs_free hs_early] in *.
  split; [|split].
  - intros ->. split; [|intros ->]; repeat case_match; done.
  - intros Hstuck. repeat case_match; simplify_eq/=;
      try (by left); try (by right; left; destruct e); try (by right; right; auto);
      exfalso; eapply Hstuck; by constructor.
  - intros -> Hc. exists (mkHs X_woken c h m true).
    assert (Hh : (c = C_fetch /\ h = H_none \/ h = H_arrived) /\ m = true) by (destruct Hc; repeat case_match; simplify_eq/=; auto).
    destruct Hh as [[[-> ->]| ->] ->].
    + exists (mkHs X_gone C_sent H_arrived true true). split; [constructor|]. split; [|done].
      eapply rtc_l; [apply hs_relock|]. eapply rtc_l; [apply hs_leave|]. eapply rtc_l; [apply hs_fetched|]. apply rtc_refl.
    + exists (mkHs X_gone c H_arrived true true). split; [constructor|]. split; [|done].
      eapply rtc_l; [apply hs_relock|]. eapply rtc_l; [apply hs_leave|]. apply rtc_refl.
Qed.

(** ** A concrete call *)

#[local] Instance exec_env : Env := {
  env_fuel := 0;
  env_dim := 0;
  env_coord := zero_coord;
  env_malloc n := replicate n 9;
  env_py_exec _ _ _ := None;
  env_remote_get _ _ _ := None;
  env_lz4_compress _ := None
}.

#[local] Instance exec_client_env : ClientEnv := {
  lz4_decompress _ _ := ([], -1);
  uninit_odsc := zero_odsc;
  uninit_name := [];
  uninit_type := 5
}.

(** The pickled result is the array's type, its dimensions and its data. *)
#[local] Instance exec_dill : Dill := {
  dill_run _ args := Py_pickled (concat (map (fun a => nd_type a :: nd_dims a ++ nd_data a) args))
}.

Definition exec_obj (id : nat) (b : bbox) (data : list Z) : obj_data :=
  mkObj id (set_tag_type 7 7 (mkOdsc "u" row_major 0 0 0 "a" 3 b 1)) zero_gdim data 0 false.

Definition exec_server : server :=
  let ls := ls_add_obj (ls_add_obj (ls_alloc 2) (exec_obj 1 (box2 0 0 1 2) [10; 11; 12; 13; 14; 15]))
              (exec_obj 2 (box2 2 0 3 2) [20; 21; 22; 23; 24; 25]) in
  mkServer 0 1 "a" None None (mkConf 2 zero_coord 2 ssd_hash_version_v2) zero_gdim
    (mkSp (mkSspace 0 0 0 zero_bbox [] 0 ssd_hash_version_v2 0) (dht_entry_alloc 2)) [] ls (ls_alloc 2) [] [] [] [] 0 3.

Definition exec_client : client := mkClient 0 "n" [] 0 "cl" None [] zero_gdim (ls_alloc 2) 0 false 1.

Definition exec_req : ds_req := mkReq "u" 3 0 2 [1; 1] [2; 2] None 0.

Lemma two_apart b1 b2 i : (i < num_dims b1)%nat -> (i < num_dims b2)%nat -> cget (ub b1) i < cget (lb b2) i ->
  disjoint_boxes [b2; b1].
Proof.
  intros H1 H2 Hlt p. rewrite !count_boxes_cons, count_boxes_nil.
  destruct (decide (in_box p b2)) as [Hb|], (decide (in_box p b1)) as [Ha|]; simpl; try lia.
  specialize (Ha i H1). specialize (Hb i H2). lia.
Qed.

Lemma exec_arg_ok : exists q, odsc_from_req exec_client exec_req zero_odsc = Some q /\ arg_ok exec_server 1 q /\ covered exec_server q.
Proof.
  eexists. split; [vm_compute; reflexivity|]. set (q := mkOdsc _ _ _ _ _ _ _ _ _).
  assert (Hst : stored exec_server q = [exec_obj 2 (box2 2 0 3 2) [20; 21; 22; 23; 24; 25]; exec_obj 1 (box2 0 0 1 2) [10; 11; 12; 13; 14; 15]])
    by (vm_compute; reflexivity).
  assert (Hdim : forall (P : nat -> Prop), P 0%nat -> P 1%nat -> forall i, (i < num_dims (od_bb q))%nat -> P i).
  { intros P H0 H1 i Hi. cbn in Hi. destruct i as [|[|]]; [done..|lia]. }
  split.
  - split; rewrite ?Hst; try done.
    + apply (box2_valid 1 1 2 2); lia.
    + cbn. lia.
    + by apply Hdim.
    + by left.
    + intros o [<-|[<-|[]]]; (split; [done|]; split; [done|]; apply box2_copyable; done).
    + apply (two_apart (box2 0 0 1 2) (box2 2 0 3 2) 0); done || (cbn; lia).
  - intros p Hp. rewrite Hst. pose proof (Hp 0%nat ltac:(cbn; lia)) as H0. pose proof (Hp 1%nat ltac:(cbn; lia)) as H1.
    cbn in H0, H1. destruct (Z.leb_spec (cget p 0) 1); [apply Exists_cons_tl, Exists_cons_hd|apply Exists_cons_hd];
      intros [|[|i]] Hi; unfold cget in *; cbn in *; lia.
Qed.

Lemma mpexec_calls_witness :
  dspaces_mpexec (fun qs fn => option_map snd (mpexec_rpc exec_server qs fn)) exec_client [exec_req; exec_req] [1]
  = Some (dspaces_SUCCESS, Some [7; 2; 2; 13; 22; 15; 24; 7; 2; 2; 13; 22; 15; 24; 0]).
Proof.
  destruct exec_arg_ok as (q & Hq & Hok & Hc).
  destruct (mpexec_calls exec_server exec_client [exec_req; exec_req] [q; q] [1]) as [_ H]; [done| | |].
  - cbn [mapM]. by rewrite Hq.
  - do 2 (constructor; [by exists 1|]). constructor.
  - destruct H as (args & _ & _); [do 2 (constructor; [done|]); constructor|]. vm_compute. reflexivity.
Defined.

Lemma pexec_array_empty_witness :
  dspaces_pexec (fun q fn => option_map snd (pexec_rpc exec_server q fn)) exec_client "u" 3 2 [1; 1] [2; 2] [1]
  = Some (dspaces_SUCCESS, Some [7; 2; 2; 0]).
Proof.
  destruct exec_arg_ok as (q & Hq & Hok & Hc).
  destruct (pexec_array_empty exec_server 1 exec_client "u" 3 2 [1; 1] [2; 2] [1] q) as (arr & _ & _ & _ & _); [done|exact Hq|done|done|].
  vm_compute. reflexivity.
Defined.

(** A whole run without an early return, and one with it. *)
Lemma handshake_ends_witness :
  (exists s, nsteps hs_any 8 hs_start s /\ hs_early s = false /\ hs_exec s = X_gone /\ hs_cond s = H_done) /\
  (exists s s1 s2, nsteps hs_any 2 hs_start s /\ hs_spurious s s1 /\ rtc hs_step s1 s2 /\
     hs_exec s2 = X_gone /\ hs_cond s2 = H_arrived).
Proof.
  split.
  - exists (mkHs X_gone C_sent H_done true false).
    assert (H : nsteps hs_any 8 hs_start (mkHs X_gone C_sent H_done true false)).
    { apply (nsteps_l hs_any 7 _ (mkHs X_responded C_fetch H_none false false)); [left; constructor|].
      apply (nsteps_l hs_any 6 _ (mkHs X_waiting C_fetch H_none true false)); [left; constructor|].
      apply (nsteps_l hs_any 5 _ (mkHs X_waiting C_sent H_arrived true false)); [left; constructor|].
      apply (nsteps_l hs_any 4 _ (mkHs X_waiting C_sent H_locked false false)); [left; constructor; discriminate|].
      apply (nsteps_l hs_any 3 _ (mkHs X_woken C_sent H_signalled false false)); [left; constructor|].
      apply (nsteps_l hs_any 2 _ (mkHs X_woken C_sent H_done true false)); [left; constructor; discriminate|].
      apply (nsteps_l hs_any 1 _ (mkHs X_relocked C_sent H_done false false)); [left; constructor|].
      apply (nsteps_l hs_any 0 _ (mkHs X_gone C_sent H_done true false)); [left; constructor|]. constructor. }
    split; [exact H|]. split; [reflexivity|].
    destruct (handshake_ends 8 _ H) as (_ & _ & Hend & _). destruct Hend as [Hd|[Hd|Hd]].
    + intros s' Hs. inversion Hs.
    + exact Hd.
    + destruct Hd as (Hd & _). discriminate Hd.
    + destruct Hd as (_ & Hd & _). discriminate Hd.
  - exists (mkHs X_waiting C_fetch H_none true false).
    assert (H : nsteps hs_any 2 hs_start (mkHs X_waiting C_fetch H_none true false)).
    { apply (nsteps_l hs_any 1 _ (mkHs X_responded C_fetch H_none false false)); [left; constructor|].
      apply (nsteps_l hs_any 0 _ (mkHs X_waiting C_fetch H_none true false)); [left; constructor|]. constructor. }
    destruct (handshake_ends 2 _ H) as (_ & _ & _ & Hbad).
    destruct Hbad as (s1 & s2 & H1 & H2 & H3 & H4); [reflexivity|left; reflexivity|].
    exists s1, s2. split; [exact H|]. split; [exact H1|]. split; [exact H2|]. split; [exact H3|exact H4].
Defined.
