(* ===== verification/ModCalls.v ===== *)
(** * ModCalls: module requests from client to server

    [get_mod_rpc], [get_mods_rpc], [route_registration] and
    [dspaces_init_registry] of [src/src/dspaces-server.c] with
    [dspaces_get_module], [dspaces_get_modules] and [dspaces_register_simple]
    of [src/src/dspaces-client.c]: a client names a module and its parameters;
    the server runs it, stores the result under a name and a version it
    computes from the parameters, and the client fetches it from there. *)

From Stdlib Require Import Ascii.
From stdpp Require Import sorting.
From S2P Require Import Prelude BBox ObjDesc Linear Sspace DhtEntry StrHash LocalStorage Matrix Codec Modules Server Cluster Client Access EndToEnd.

(** ** Hashes of parameters *)

Definition HASH_MOD : Z := 1000000007.

(** [char] is signed. *)
Definition schar (c : ascii) : Z :=
  let n := Z.of_nat (nat_of_ascii c) in if n <? 128 then n else n - 256.

(** The loop over a string: [hval * sval[i]] is a product of [int]s. *)
Fixpoint str_hash (l : list ascii) (hval : Z) : option Z :=
  match l with
  | [] => Some hval
  | c :: l =>
      let p := hval * schar c in
      if (- 2 ^ 31 <=? p) && (p <? 2 ^ 31) then str_hash l (Z.rem p HASH_MOD) else None
  end.

(** Other types leave the function without a value. *)
Definition param_hash (type : Z) (val : dict_val) : option Z :=
  match classify type with
  | VC_raw n => w ← word_of n val; Some (if (n =? 8)%nat then w mod HASH_MOD else i32 w)
  | VC_string => s ← string_of val; str_hash (String.list_ascii_of_string s) 1
  | VC_invalid => None
  end.

Fixpoint params_product (d : dsp_dict) (hval : Z) : option Z :=
  match d with
  | [] => Some hval
  | e :: d => h ← param_hash (de_type e) (de_val e); params_product d (Z.rem (hval * h) HASH_MOD)
  end.

Definition params_hash (d : dsp_dict) : option Z := hval ← params_product d 1; Some (u32 hval).

(** ** Names *)

(** [%x]. *)
Definition hex_digit (d : Z) : ascii := ascii_of_nat (Z.to_nat (if d <? 10 then d + 48 else d + 87)).

Fixpoint hex_digits (fuel : nat) (n : Z) : list ascii :=
  match fuel with
  | O => []
  | S f => if n <? 16 then [hex_digit n] else hex_digits f (n / 16) ++ [hex_digit (n mod 16)]
  end.

Definition print_hex (n : Z) : list ascii := hex_digits 8 n.

(** [sprintf(&buf[off], "%x.4", hval)], with its terminator. *)
Definition sprintf_hash (buf : list ascii) (off : nat) (hval : Z) : option (list ascii) :=
  let s := print_hex (u32 hval) ++ ["."; "4"; NUL]%char in
  if (off + length s <=? length buf)%nat then Some (take off buf ++ s ++ drop (off + length s) buf) else None.

Fixpoint write_params (d : dsp_dict) (off : nat) (buf : list ascii) : option (list ascii) :=
  match d with
  | [] => Some buf
  | e :: d =>
      hval ← param_hash (de_type e) (de_val e);
      buf ← sprintf_hash buf off hval;
      write_params d (if (136 <=? off + 8)%nat then 0%nat else (off + 8)%nat) buf
  end.

(** Into the zeroed buffer of [get_mod_rpc]. *)
Definition write_param_name (d : dsp_dict) : option string :=
  buf ← write_params d 0 (replicate OD_MAX_NAME_LEN NUL); Some (cstr buf).

(** The loop over the parameters: a string parameter [name] is copied (149
    bytes of it, whatever its length: those past its terminator are not part
    of the name), an unsigned [version] is read. *)
Definition name_param (e : dict_entry) : option (option string) :=
  if (de_type e =? DSP_STR) && String.eqb (de_key e) "name"
  then s ← string_of (de_val e); Some (Some (String.substring 0 149 s)) else Some None.
Definition version_param (e : dict_entry) : option (option Z) :=
  if (de_type e =? DSP_UINT) && String.eqb (de_key e) "version"
  then w ← word_of 4 (de_val e); Some (Some w) else Some None.

Definition last_some {A} (l : list (option A)) : option A := foldl (fun acc x => match x with Some _ => x | None => acc end) None l.

Definition get_version_name (d : dsp_dict) : option (Z * string) :=
  names ← mapM name_param d;
  versions ← mapM version_param d;
  version ← match last_some versions with Some v => Some v | None => params_hash d end;
  name ← match last_some names with Some n => Some n | None => write_param_name d end;
  Some (version, name).

(** ** The server *)

Definition DS_MOD_EFAULT : Z := -1.
Definition DS_MOD_ECLIENT : Z := -6.

(** [get_mod_out_t]. *)
Record get_mod_out := mkModOut { gm_ret : Z; gm_odscs : list obj_descriptor }.

Section Server.
Context `{E : Env}.

(** A result of [None] is followed as a null pointer. *)
Definition get_mod_rpc (sv : server) (name : string) (params : dsp_dict) : option (server * list update * get_mod_out) :=
  match dspaces_mod_by_name (sv_mods sv) name with
  | None => Some (sv, [], mkModOut DS_MOD_ENOMOD [])
  | Some m =>
      args ← build_module_args_from_dict params;
      match dspaces_module_exec env_py_exec m "pquery" args with
      | None => None
      | Some (MR_err _) => Some (sv, [], mkModOut DS_MOD_EFAULT [])
      | Some (MR_array r) =>
          '(version, name) ← get_version_name params;
          odsc ← odsc_from_ret (MR_array r) name version;
          let odsc := odsc_take_ownership sv odsc in
          '(sv, out) ← obj_update_dht (store_obj sv odsc zero_gdim (ret_data r)) odsc zero_gdim DS_OBJ_NEW;
          Some (sv, out, mkModOut 0 [odsc])
      end
  end.

Definition get_mods_rpc (sv : server) : Z * list string := dspaces_module_names (sv_mods sv).
End Server.

(** ** The registry *)

(** A module called for an integer: the result's value or an error, [None] for
    a result of [None]. *)
Class RegEnv := { reg_py_exec : dspaces_module -> string -> list module_arg -> option (Z + Z) }.

Section Registry.
Context `{R : RegEnv}.

Definition module_exec_int (m : dspaces_module) (operation : string) (args : list module_arg) : option (Z + Z) :=
  if mod_type m =? 0 then reg_py_exec m operation args else Some (inl DS_MOD_ENOSYS).

(** The return value and [local_reg_id]. *)
Definition dspaces_init_registry (mods : list dspaces_module) (rank : Z) : Z * Z :=
  match dspaces_mod_by_name mods "ds_reg" with
  | None => (-1, 0)
  | Some m =>
      match module_exec_int m "bootstrap_id" [build_module_arg_from_rank rank] with
      | Some (inl err) => (err, 0)
      | Some (inr ival) => (0, i32 ival)
      | None => (0, 0)
      end
  end.

(** The registration may have been given another id; a module without a file
    is a null pointer. *)
Definition route_registration (mods : list dspaces_module) (reg : reg_in) : option (Z * reg_in) :=
  match dspaces_mod_by_name mods (reg_type reg) with
  | None => Some (DS_MOD_ENOMOD, reg)
  | Some m =>
      file ← mod_file m;
      let reg := mkReg file (reg_name reg) (reg_data reg) (reg_src reg) (reg_id reg) in
      match dspaces_mod_by_name mods "ds_reg" with
      | None => Some (DS_MOD_EFAULT, reg)
      | Some reg_mod =>
          match module_exec_int reg_mod "register" (build_module_args_from_reg reg) with
          | None => Some (DS_MOD_EFAULT, reg)
          | Some (inl err) => Some (err, reg)
          | Some (inr ival) =>
              Some (0, mkReg file (reg_name reg) (reg_data reg) (reg_src reg) (u64 ival))
          end
      end
  end.

(** The part of [reg_rpc] that is not the broadcast: the new [local_reg_id]
    and the answer. *)
Definition reg_local (mods : list dspaces_module) (rank : nat) (local_reg_id : Z) (reg : reg_in) : option (Z * Z) :=
  let '(next, id) := if reg_src reg =? -1
    then (i32 (local_reg_id + 1), u64 (u64 local_reg_id + Z.shiftl (Z.of_nat rank) 40)) else (local_reg_id, reg_id reg) in
  '(err, reg) ← route_registration mods (mkReg (reg_type reg) (reg_name reg) (reg_data reg) (reg_src reg) id);
  Some (next, if negb (err =? 0) then u64 err else reg_id reg).
End Registry.

(** ** The client *)

(** [compare_params]; the sort is a permutation in its order. *)
Definition key_le (p q : dict_entry) : Prop := String.leb (de_key p) (de_key q) = true.
#[global] Instance key_le_dec p q : Decision (key_le p q) := decide (String.leb (de_key p) (de_key q) = true).

Definition sort_params (params : dsp_dict) : dsp_dict := merge_sort key_le params.

Section Calls.
Context `{E : Env} `{CE : ClientEnv}.

(** [call] is the request, [None] when it fails.  The error code of the reply
    is not looked at. *)
Definition dspaces_get_module (call : string -> dsp_dict -> option get_mod_out) (fetch : obj_descriptor -> option (Z * list Z))
    (c : client) (module : string) (params : dsp_dict) : option (Z * option ds_req) :=
  match call module (sort_params params) with
  | None => Some (DS_MOD_ECLIENT, None)
  | Some out =>
      match gm_odscs out with
      | [] => Some (DS_MOD_EFAULT, None)
      | o :: _ =>
          let elem_size := i32 (od_size o) in
          let odsc := set_size (u64 elem_size) o in
          let bb := od_bb odsc in
          data ← result_buffer (num_elem (cget (lb bb)) (cget (ub bb)) (num_dims bb)) elem_size;
          data ← get_data fetch odsc (gm_odscs out) data;
          req ← fill_req c odsc data;
          Some (0, Some req)
      end
  end.

Definition dspaces_get_modules (reply : option (Z * list string)) : Z * list string :=
  match reply with None => (-1, []) | Some (count, names) => (i32 count, names) end.

(** The answer as a [long], and the namespace of a registration. *)
Definition dspaces_register_simple (call : reg_in -> option Z) (type name reg_data : string) (id : Z)
  : Z * option string :=
  match call (mkReg type name reg_data (-1) id) with
  | None => (DS_MOD_ECLIENT, None)
  | Some out => let h := i64 out in (h, if h <? 0 then None else Some "ds_reg"%string)
  end.
End Calls.

(** ** Results: lemmas *)

(** A result a client can take: one to nine dimensions, and a buffer of the
    elements they make. *)
Record result_ok (r : mod_array) : Prop := {
  ro_ndim : (1 <= ret_ndim r <= 9)%nat;
  ro_dims : forall i, (i < ret_ndim r)%nat -> 0 < dim_at (ret_dim r) i < 2 ^ 63;
  ro_elem : 0 < ret_elem_size r;
  ro_data : Z.of_nat (length (ret_data r)) = ret_elem_size r * zprod (ret_ndim r) (dim_at (ret_dim r));
  ro_small : ret_elem_size r * zprod (ret_ndim r) (dim_at (ret_dim r)) < 2 ^ 31
}.

Section Result.
Context (r : mod_array) (name : string) (version : Z) (o : obj_descriptor).
Context (Hr : result_ok r) (Ho : odsc_from_ret (MR_array r) name version = Some o).

Lemma ret_fields : od_name o = name /\ od_version o = version /\ od_tag o = ret_tag r /\ od_size o = ret_elem_size r /\
  od_flags o = DS_OBJ_RESIZE /\ num_dims (od_bb o) = ret_ndim r.
Proof. clear Hr. by injection Ho as <-. Qed.

Lemma ret_box i : (i < ret_ndim r)%nat -> cget (lb (od_bb o)) i = 0 /\ cget (ub (od_bb o)) i = dim_at (ret_dim r) i - 1.
Proof.
  intros Hi. pose proof (ro_ndim _ Hr). pose proof (ro_dims _ Hr i Hi).
  apply (ret_bounds r name version o i Ho); [unfold BBOX_MAX_NDIM; lia|lia].
Qed.

Lemma ret_side i : (i < ret_ndim r)%nat -> side (od_bb o) i = dim_at (ret_dim r) i.
Proof. intros Hi. unfold side. destruct (ret_box i Hi) as [-> ->]. lia. Qed.

Lemma ret_volume : zvolume (od_bb o) = zprod (ret_ndim r) (dim_at (ret_dim r)).
Proof.
  unfold zvolume. destruct ret_fields as (_ & _ & _ & _ & _ & ->). apply zprod_ext. intros i Hi. by apply ret_side.
Qed.

Lemma ret_copyable : copyable (od_size o) (od_bb o) (ret_data r).
Proof.
  destruct ret_fields as (_ & _ & _ & Hs & _ & Hn). pose proof Hr as []. unfold copyable.
  rewrite ret_volume, Hs, Hn. split_and!; try done; try lia.
  - split; [|intros i Hi; rewrite Hn in Hi; destruct (ret_box i Hi) as [-> ->]; specialize (ro_dims0 i Hi); lia].
    clear Hs Hn. injection Ho as <-. cbn. split; [unfold BBOX_MAX_NDIM; cbn; lia|]. split; [apply wf_zero_coord|].
    apply wf_coord_set_range; [apply wf_zero_coord|]. intros i Hi. apply u64_range.
  - intros i Hi. destruct (ret_box i Hi) as [_ ->]. specialize (ro_dims0 i Hi). lia.
Qed.

Lemma ret_small : obj_data_size o = od_size o * zvolume (od_bb o) /\ small_obj o.
Proof.
  pose proof (copyable_size o _ ret_copyable) as H. destruct ret_copyable as (_ & _ & _ & _ & Hl & _).
  unfold small_obj. rewrite <- H, Hl. split; [done|]. rewrite ret_volume. destruct ret_fields as (_ & _ & _ & -> & _).
  apply Hr.
Qed.

Lemma ret_within id owner : within (mkObj id (set_owner owner o) zero_gdim (ret_data r) 0 false) (set_owner owner o).
Proof.
  unfold within. cbn [obj_desc set_owner od_name od_version od_bb]. split; [done|]. split; [done|]. split; [done|].
  split; [apply ret_copyable|]. intros i _. lia.
Qed.
End Result.

Lemma num_elem_zprod lo hi n : (forall i, (i < n)%nat -> 0 <= lo i <= hi i) -> (forall i, (i < n)%nat -> hi i < 2 ^ 63) ->
  zprod n (fun i => hi i - lo i + 1) < 2 ^ 31 -> num_elem lo hi n = zprod n (fun i => hi i - lo i + 1).
Proof.
  unfold num_elem. induction n as [|n IH]; intros Hlo Hhi Hp; [done|]. rewrite seq_S, fold_left_app. cbn [fold_left Nat.add zprod] in *.
  pose proof (Hlo n ltac:(lia)). pose proof (Hhi n ltac:(lia)).
  assert (Hpos : 0 < zprod n (fun i => hi i - lo i + 1)).
  { apply zprod_pos. intros i Hi. specialize (Hlo i ltac:(lia)). lia. }
  rewrite IH; [|intros; apply Hlo; lia|intros; apply Hhi; lia|nia].
  rewrite (u64_small (hi n - lo n)) by lia. rewrite u64_small by nia. rewrite i32_small by nia. done.
Qed.

Section Request.
Context `{E : Env} `{CE : ClientEnv}.

(** The object stored for a result, and that it is read back whole. *)
Definition mod_obj (sv : server) (r : mod_array) (o : obj_descriptor) : obj_data :=
  mkObj (sv_next sv) o zero_gdim (ret_data r) 0 false.

Lemma get_mod_stores sv m module params args r sv' out rep :
  dspaces_mod_by_name (sv_mods sv) module = Some m -> mod_type m = 0 ->
  build_module_args_from_dict params = Some args -> env_py_exec m "pquery" args = Some (MR_array r) ->
  get_mod_rpc sv module params = Some (sv', out, rep) ->
  exists version name o0, get_version_name params = Some (version, name) /\
    odsc_from_ret (MR_array r) name version = Some o0 /\
    let o := odsc_take_ownership sv o0 in
    rep = mkModOut 0 [o] /\ sv_ls sv' = ls_add_obj (sv_ls sv) (mod_obj sv r o) /\ sv_remotes sv' = sv_remotes sv.
Proof.
  intros Hm Ht Ha Hp H. unfold get_mod_rpc in H. rewrite Hm, Ha in H. cbn [mbind option_bind] in H.
  unfold dspaces_module_exec in H. rewrite Ht, Hp in H. cbn [Z.eqb] in H.
  destruct (get_version_name params) as [[version name]|]; [|done]. cbn [mbind option_bind] in H.
  destruct (odsc_from_ret _ _ _) as [o0|] eqn:Eo; [|done]. cbn [mbind option_bind] in H.
  destruct (obj_update_dht _ _ _ _) as [[sv1 out1]|] eqn:Eu; [|done]. cbn [mbind option_bind] in H. injection H as <- <- <-.
  exists version, name, o0. split; [done|]. split; [exact Eo|]. cbv zeta. split; [done|].
  apply update_dht_store in Eu. split; [by rewrite (ss_ls _ _ Eu)|by rewrite (ss_remotes _ _ Eu)].
Qed.

(** What [get_rpc] sends for a piece stored whole. *)
Lemma fetch_whole sv r o0 owner version name id : lz4_ok -> result_ok r ->
  odsc_from_ret (MR_array r) name version = Some o0 ->
  let o := set_owner owner o0 in
  sv_remotes sv = [] -> ls_find (sv_ls sv) o = Some (mkObj id o zero_gdim (ret_data r) 0 false) ->
  exists reply, get_rpc sv o false = Some reply /\ carries o (ret_data r) reply.
Proof.
  intros Hlz Hr Ho o Hrem Hf. pose proof (ret_copyable r name version o0 Hr Ho) as Hc.
  destruct (ret_small r name version o0 Hr Ho) as [Hsz Hsm].
  destruct (get_rpc_found (mkObj id o zero_gdim (ret_data r) 0 false) sv o Hrem Hf Hc Hsm) as (buf & Hget & Hl & Hcell); [|done|].
  { by apply (ret_within r name version o0 Hr Ho). }
  assert (Hbuf : buf = ret_data r).
  { apply (cells_determine (od_size o0) (od_bb o0)); [done| |exact Hcell]. destruct Hc as (_ & _ & _ & _ & Hlr & _).
    change (obj_data_size o) with (obj_data_size o0) in Hl. lia. }
  rewrite Hbuf in Hget. exists (get_answer false (ret_data r)). split; [apply Hget|]. unfold get_answer.
  assert (Hfl : Z.land (od_flags o) DS_CLIENT_STORAGE = 0).
  { change (od_flags o) with (od_flags o0). by destruct (ret_fields r name version o0 Ho) as (_ & _ & _ & _ & -> & _). }
  destruct (env_lz4_compress (ret_data r)) as [z|] eqn:Ez; [|apply carries_raw; by left].
  destruct (Hlz _ _ Ez) as [H1 H2]. by apply carries_lz4.
Qed.

(** The client's side. *)
Lemma get_module_fetches c call fetch module params r o0 owner version name :
  result_ok r -> odsc_from_ret (MR_array r) name version = Some o0 -> cl_nspace c = None ->
  let o := set_owner owner o0 in
  call module (sort_params params) = Some (mkModOut 0 [o]) ->
  (exists reply, fetch o = Some reply /\ carries o (ret_data r) reply) ->
  dspaces_get_module call fetch c module params = Some (0, Some (mkReq name version (ret_elem_size r) (ret_ndim r)
    (map (cget (lb (od_bb o0))) (seq 0 (ret_ndim r))) (map (cget (ub (od_bb o0))) (seq 0 (ret_ndim r)))
    (Some (ret_data r)) (ret_tag r))).
Proof.
  intros Hr Ho Hns o Hcall Hf. pose proof (ret_copyable r name version o0 Hr Ho) as Hc.
  destruct (ret_small r name version o0 Hr Ho) as [Hsz Hsm]. pose proof (ret_volume r name version o0 Hr Ho) as Hvol.
  destruct (ret_fields r name version o0 Ho) as (Hn & Hv & Ht & Hs & Hfl & Hd).
  pose proof Hr as []. assert (Hz : 0 < zprod (ret_ndim r) (dim_at (ret_dim r))).
  { apply zprod_pos. intros i Hi. by apply ro_dims0. }
  unfold dspaces_get_module. rewrite Hcall. cbn [gm_odscs]. change (od_size o) with (od_size o0).
  rewrite i32_small by nia. rewrite u64_small by nia.
  assert (Hset : set_size (od_size o0) o = o) by (by destruct o0). rewrite Hset.
  assert (Hne : num_elem (cget (lb (od_bb o))) (cget (ub (od_bb o))) (num_dims (od_bb o)) = zvolume (od_bb o0)).
  { destruct Hc as ((_ & Hle) & Hub & _). rewrite num_elem_zprod; [done| | |].
    - intros i Hi. specialize (Hle i Hi). destruct (ret_box r name version o0 Hr Ho i) as [E0 _]; [by rewrite <- Hd|].
      change (od_bb o) with (od_bb o0). lia.
    - intros i Hi. by apply Hub.
    - change (zvolume (od_bb o0) < 2 ^ 31). rewrite Hvol. nia. }
  rewrite Hne. unfold result_buffer.
  destruct (Z.leb_spec 0 (zvolume (od_bb o0) * od_size o0)), (Z.ltb_spec (zvolume (od_bb o0) * od_size o0) (2 ^ 31)); try nia.
  cbn [andb mbind option_bind].
  destruct (get_data_spec (od_size o0) (od_bb o0) (fun _ => ret_data r) fetch o [o] (malloc (Z.to_nat (zvolume (od_bb o0) * od_size o0))))
    as (data & -> & Hl & Hcol); [done|done| | |].
  - destruct Hc as (C1 & C2 & C3 & C4 & C5 & C6). split_and!; try done; try apply C3. rewrite length_malloc. lia.
  - intros x ->%list_elem_of_singleton. split; [|exact Hf]. split; try done.
    apply does_intersect_common; [apply Hc|apply Hc|done|]. exists (lb (od_bb o0)). split; apply in_box_lb, Hc.
  - assert (data = ret_data r) as ->.
    { apply (cells_determine (od_size o0) (od_bb o0)); [done| |].
      - rewrite Hl, length_malloc. destruct Hc as (_ & _ & _ & _ & C5 & _). lia.
      - intros p t Hp Ht'. destruct (Hcol p t Hp Ht') as [(x & Hx & _ & Heq)|[Hno _]].
        + apply list_elem_of_singleton in Hx as ->. exact Heq.
        + destruct (Hno o); [by left|exact Hp]. }
    cbn [mbind option_bind]. unfold fill_req. rewrite Hns. cbn [mbind option_bind o set_owner od_name od_version od_size od_bb od_tag].
    rewrite Hn, Hv, Ht, Hs, Hd, i32_small by nia. done.
Qed.
End Request.

(** ** Integer parameters: lemmas *)

Definition int_param (k : string) (w : Z) : dict_entry := mkEntry DSP_INT k (DV_raw (le_bytes 4 w)).

(** Parameters that are small integers. *)
Definition small_ints (d : dsp_dict) (ws : list Z) : Prop :=
  Forall2 (fun e w => exists k, e = int_param k w /\ 0 <= w < 2 ^ 20) d ws.

Lemma int_param_hash k w : 0 <= w < 2 ^ 20 -> param_hash (de_type (int_param k w)) (de_val (int_param k w)) = Some w.
Proof.
  intros Hw. unfold param_hash. change (classify (de_type (int_param k w))) with (VC_raw 4). cbn [int_param de_val word_of].
  rewrite length_le_bytes. cbn [Nat.leb mbind option_bind Nat.eqb]. rewrite take_ge by (by rewrite length_le_bytes).
  rewrite of_le_le_bytes, Z.mod_small by (cbn; lia). by rewrite i32_small by lia.
Qed.

Lemma params_product_ints d ws : small_ints d ws -> forall h, 0 <= h < HASH_MOD ->
  params_product d h = Some ((h * foldr Z.mul 1 ws) mod HASH_MOD).
Proof.
  unfold HASH_MOD. induction 1 as [|e w d ws (k & -> & Hw) _ IH]; intros h Hh; cbn [params_product foldr].
  { by rewrite Z.mul_1_r, Z.mod_small. }
  rewrite int_param_hash by done. cbn [mbind option_bind]. unfold HASH_MOD. rewrite Z.rem_mod_nonneg by nia.
  rewrite IH by (apply Z.mod_pos_bound; lia). f_equal. by rewrite Z.mul_mod_idemp_l, Z.mul_assoc by lia.
Qed.

Lemma length_hex f : forall n, (length (hex_digits f n) <= f)%nat.
Proof.
  induction f as [|f IH]; intros n; cbn [hex_digits]; [done|]. destruct (n <? 16); [simpl; lia|].
  rewrite length_app. specialize (IH (n / 16)). simpl. lia.
Qed.

Lemma length_hex_small m : forall f n, 0 <= n < 16 ^ Z.of_nat m -> (0 < m <= f)%nat -> (length (hex_digits f n) <= m)%nat.
Proof.
  induction m as [|m IH]; intros f n Hn Hm; [lia|]. destruct f as [|f]; [lia|]. cbn [hex_digits].
  destruct (Z.ltb_spec n 16); [simpl; lia|]. rewrite length_app. cbn [length].
  destruct m as [|m]; [cbn in Hn; lia|]. rewrite Nat2Z.inj_succ, Z.pow_succ_r in Hn by lia.
  specialize (IH f (n / 16)). enough (length (hex_digits f (n / 16)) <= S m)%nat by lia. apply IH; [|lia].
  split; [apply Z.div_pos; lia|apply Z.div_lt_upper_bound; lia].
Qed.

Lemma sprintf_hash_spec buf off h : length buf = OD_MAX_NAME_LEN -> (off <= 136)%nat ->
  exists buf', sprintf_hash buf off h = Some buf' /\ length buf' = OD_MAX_NAME_LEN /\
    buf' = take off buf ++ print_hex (u32 h) ++ ["."; "4"; NUL]%char ++ drop (off + length (print_hex (u32 h)) + 3) buf.
Proof.
  intros Hb Ho. unfold sprintf_hash, print_hex in *. pose proof (length_hex 8 (u32 h)) as Hl. rewrite length_app. cbn [length].
  unfold OD_MAX_NAME_LEN in *. destruct (Nat.leb_spec (off + (length (hex_digits 8 (u32 h)) + 3)) (length buf)); [|lia].
  eexists. split; [reflexivity|]. split.
  - rewrite !length_app, length_take, length_drop. cbn [length]. lia.
  - by rewrite <- !app_assoc, Nat.add_assoc.
Qed.

(** Later parameters leave the first eight characters. *)
Lemma write_params_keeps d ws : small_ints d ws -> forall off buf, length buf = OD_MAX_NAME_LEN ->
  (8 <= off)%nat -> (off + 8 * length ws <= 136)%nat ->
  exists buf', write_params d off buf = Some buf' /\ take 8 buf' = take 8 buf.
Proof.
  induction 1 as [|e w d ws (k & -> & Hw) Hd IH]; intros off buf Hb Ho Hle; cbn [write_params]; [by exists buf|].
  cbn [length] in Hle. rewrite int_param_hash by done. cbn [mbind option_bind].
  destruct (sprintf_hash_spec buf off w Hb ltac:(lia)) as (buf1 & -> & Hl1 & E1). cbn [mbind option_bind].
  assert (Ht : take 8 buf1 = take 8 buf).
  { rewrite E1, take_app_le by (rewrite length_take; unfold OD_MAX_NAME_LEN in Hb; lia). rewrite take_take. f_equal. lia. }
  destruct d as [|e d].
  { exists buf1. by split. }
  destruct (Nat.leb_spec 136 (off + 8)) as [H136|H136].
  { destruct ws as [|w1 ws]; [inversion Hd|cbn [length] in Hle; lia]. }
  destruct (IH (off + 8)%nat buf1 Hl1) as (buf' & -> & Ht'); [lia|lia|]. exists buf'. split; [done|congruence].
Qed.

Lemma cstr_stop l r : cstr (l ++ NUL :: r) = cstr (l ++ [NUL]).
Proof. induction l as [|c l IH]; [done|]. cbn [app cstr]. by rewrite IH. Qed.

(** The version is the product of the values, the name only the first of
    them: the terminator after it falls before the second. *)
Lemma version_name_ints e d w ws : small_ints (e :: d) (w :: ws) -> (length ws <= 16)%nat ->
  get_version_name (e :: d) = Some ((w * foldr Z.mul 1 ws) mod HASH_MOD, cstr (print_hex w ++ ["."; "4"; NUL]%char)).
Proof.
  intros Hall Hl. unfold get_version_name.
  assert (Hnone : forall l ws, small_ints l ws -> mapM name_param l = Some (replicate (length l) None) /\
      mapM version_param l = Some (replicate (length l) None)).
  { clear. induction 1 as [|e w d ws (k & -> & _) _ [IH1 IH2]]; [done|]. cbn [length replicate mapM]. by rewrite IH1, IH2. }
  destruct (Hnone _ _ Hall) as [-> ->]. cbn [mbind option_bind].
  assert (Hlast : forall A n, last_some (A:=A) (replicate n None) = None) by (intros A n; unfold last_some; by induction n).
  rewrite !Hlast. unfold params_hash. rewrite (params_product_ints _ _ Hall) by (unfold HASH_MOD; lia).
  cbn [mbind option_bind foldr]. rewrite Z.mul_1_l.
  assert (Hmod : 0 <= (w * foldr Z.mul 1 ws) mod HASH_MOD < HASH_MOD) by (apply Z.mod_pos_bound; unfold HASH_MOD; lia).
  rewrite u32_small by (unfold HASH_MOD in *; lia).
  inversion Hall as [|? ? ? ? (k & -> & Hw) Hd]; subst. unfold write_param_name. cbn [write_params].
  rewrite int_param_hash by done. cbn [mbind option_bind].
  destruct (sprintf_hash_spec (replicate OD_MAX_NAME_LEN NUL) 0 w) as (buf1 & -> & Hl1 & E1);
    [apply length_replicate|lia|]. cbn [mbind option_bind Nat.add Nat.leb].
  destruct (write_params_keeps d ws Hd 8 buf1 Hl1) as (buf2 & -> & Ht); [lia|lia|]. cbn [mbind option_bind].
  rewrite u32_small in E1 by lia. cbn [take app] in E1.
  assert (Hx : (length (print_hex w) <= 5)%nat) by (apply length_hex_small; [cbn; lia|lia]).
  set (l := print_hex w ++ ["."; "4"]%char). assert (Hll : (length l <= 7)%nat) by (unfold l; rewrite length_app; cbn [length]; lia).
  set (rest := drop (0 + length (print_hex w) + 3) (replicate OD_MAX_NAME_LEN NUL)) in *.
  assert (E2 : take 8 buf1 = l ++ NUL :: take (7 - length l) rest).
  { rewrite E1. change (take 8 (print_hex w ++ ["."; "4"]%char ++ NUL :: rest) = l ++ NUL :: take (7 - length l) rest).
    rewrite app_assoc. fold l. rewrite take_app_ge by lia. by replace (8 - length l)%nat with (S (7 - length l)) by lia. }
  rewrite <- (take_drop 8 buf2), Ht, E2, <- app_assoc. cbn [app]. rewrite cstr_stop. unfold l. by rewrite <- app_assoc.
Qed.

Lemma NoDup_map_inj {A B} (f : A -> B) l : NoDup (map f l) -> forall x y, x ∈ l -> y ∈ l -> f x = f y -> x = y.
Proof.
  induction l as [|a l IH]; [by intros _ x y Hx%elem_of_nil|]. cbn [map]. intros [Ha Hnd]%NoDup_cons x y.
  intros [->|Hx]%elem_of_cons [->|Hy]%elem_of_cons Hf; [done| | |by apply IH];
    destruct Ha; [rewrite Hf|rewrite <- Hf]; by apply list_elem_of_fmap_2.
Qed.

Lemma string_leb_trans s1 : forall s2 s3, String.leb s1 s2 = true -> String.leb s2 s3 = true -> String.leb s1 s3 = true.
Proof.
  unfold String.leb. induction s1 as [|a s1 IH]; intros [|b s2] [|c s3]; cbn [String.compare]; try done.
  unfold Ascii.compare. specialize (IH s2 s3).
  destruct (N.compare_spec (N_of_ascii a) (N_of_ascii b)), (N.compare_spec (N_of_ascii b) (N_of_ascii c)),
    (N.compare_spec (N_of_ascii a) (N_of_ascii c)); try done; try lia; intros; by apply IH.
Qed.

Lemma at_origin_intersect b0 b1 : num_dims b1 = num_dims b0 ->
  (forall i, (i < num_dims b0)%nat -> cget (lb b0) i = 0 /\ cget (lb b1) i = 0 /\ 0 <= cget (ub b0) i) ->
  bbox_does_intersect b0 b1 = true.
Proof.
  intros Hd H. apply for_all_true. intros i Hi. destruct (H i Hi) as (H0 & H1 & H2). unfold bbox_intersect_ondim.
  rewrite H0, H1. destruct (Z.leb_spec 0 0), (Z.leb_spec 0 (cget (ub b0) i)); done || lia.
Qed.

(** ** Properties *)

Section Properties.
Context `{E : Env} `{CE : ClientEnv}.

Lemma get_module_ok sv m c module params args r sv' out rep :
  lz4_ok -> ls_inv (sv_ls sv) -> sv_remotes sv = [] -> cl_nspace c = None ->
  dspaces_mod_by_name (sv_mods sv) module = Some m -> mod_type m = 0 ->
  build_module_args_from_dict (sort_params params) = Some args ->
  env_py_exec m "pquery" args = Some (MR_array r) -> result_ok r ->
  get_mod_rpc sv module (sort_params params) = Some (sv', out, rep) ->
  exists req, dspaces_get_module (fun n p => option_map snd (get_mod_rpc sv n p)) (fun o => get_rpc sv' o false)
      c module params = Some (0, Some req) /\
    get_version_name (sort_params params) = Some (req_ver req, req_var_name req) /\
    req_ndim req = ret_ndim r /\ req_lb req = replicate (ret_ndim r) 0 /\
    req_ub req = map (fun i => dim_at (ret_dim r) i - 1) (seq 0 (ret_ndim r)) /\
    req_elem_size req = ret_elem_size r /\ req_tag req = ret_tag r /\ req_buf req = Some (ret_data r).
Proof.
  intros Hlz Hi Hrem Hns Hm Ht Ha Hp Hr Hcall.
  destruct (get_mod_stores _ _ _ _ _ _ _ _ _ Hm Ht Ha Hp Hcall) as (v & n & o0 & Hvn & Ho & -> & Hls & Hrem'). cbv zeta in *.
  pose proof (ret_box r n v o0 Hr Ho) as Hbox. eexists. split.
  - apply (get_module_fetches c _ _ module params r o0 (own_address sv) v n Hr Ho Hns); [by rewrite Hcall|].
    apply (fetch_whole sv' r o0 (own_address sv) v n (sv_next sv) Hlz Hr Ho); [congruence|]. rewrite Hls.
    apply ls_find_add_new; [done|done|]. apply obj_desc_equals_intersect_spec. split_and!; [done..|].
    destruct (ret_copyable r n v o0 Hr Ho) as (Hv & _). apply at_origin_intersect; [done|]. intros i Hi'.
    cbn [mod_obj obj_desc odsc_take_ownership set_owner od_bb] in *. destruct (ret_fields r n v o0 Ho) as (_ & _ & _ & _ & _ & Hd).
    destruct (Hbox i ltac:(by rewrite <- Hd)) as [E0 _]. destruct Hv as [_ Hv]. specialize (Hv i Hi'). lia.
  - cbn [req_ver req_var_name req_ndim req_lb req_ub req_elem_size req_tag req_buf]. split; [exact Hvn|].
    split; [done|]. split; [|split; [|done]].
    + apply list_eq_same_length with (ret_ndim r); [by rewrite length_replicate|by rewrite length_map, length_seq|].
      intros i x y Hi'. rewrite list_lookup_fmap, lookup_seq_lt, lookup_replicate_2 by done. intros [= <-] [= <-]. by apply Hbox.
    + apply map_ext_in. intros i [_ Hi']%in_seq. by apply Hbox.
Qed.

(** C34: A [dspaces_get_module] returns what the module computed.  When the
    module at the server gives an array of a valid shape, the request the
    client's call returns has the array's dimensions from the origin, its
    element size and type, the name and version under which the server stored
    it, and exactly its bytes. *)
Theorem get_module_returns_result sv m c module params args r sv' out rep :
  lz4_ok -> ls_inv (sv_ls sv) -> sv_remotes sv = [] -> cl_nspace c = None ->
  dspaces_mod_by_name (sv_mods sv) module = Some m -> mod_type m = 0 ->
  build_module_args_from_dict (sort_params params) = Some args ->
  env_py_exec m "pquery" args = Some (MR_array r) -> result_ok r ->
  get_mod_rpc sv module (sort_params params) = Some (sv', out, rep) ->
  exists req, dspaces_get_module (fun n p => option_map snd (get_mod_rpc sv n p)) (fun o => get_rpc sv' o false)
      c module params = Some (0, Some req) /\
    get_version_name (sort_params params) = Some (req_ver req, req_var_name req) /\
    req_ndim req = ret_ndim r /\ req_lb req = replicate (ret_ndim r) 0 /\
    req_ub req = map (fun i => dim_at (ret_dim r) i - 1) (seq 0 (ret_ndim r)) /\
    req_elem_size req = ret_elem_size r /\ req_tag req = ret_tag r /\ req_buf req = Some (ret_data r).
Proof. apply get_module_ok. Qed.

(** The order in which a caller lists the parameters does not matter: with
    distinct keys any permutation makes the same request, whatever the server
    answers. *)
Theorem get_module_any_order call fetch c module params params' :
  params ≡ₚ params' -> NoDup (map de_key params) ->
  dspaces_get_module call fetch c module params = dspaces_get_module call fetch c module params'.
Proof.
  intros Hp Hnd. unfold dspaces_get_module. replace (sort_params params') with (sort_params params); [done|].
  assert (Htr : Transitive key_le) by (intros p q r; unfold key_le; apply string_leb_trans).
  assert (Hto : Total key_le) by (intros p q; unfold key_le; apply String.leb_total).
  unfold sort_params. apply (StronglySorted_unique_strong key_le).
  - intros p q Hp1 Hq1 H1 H2. assert (Hk : de_key p = de_key q) by (by apply String.leb_antisym).
    rewrite merge_sort_Permutation in Hp1, Hq1. rewrite <- Hp in Hq1. by apply (NoDup_map_inj de_key params Hnd p q).
  - by apply Sorted_StronglySorted, Sorted_merge_sort.
  - by apply Sorted_StronglySorted, Sorted_merge_sort.
  - by rewrite !merge_sort_Permutation.
Qed.

(** C38: Results of different requests collide.  The name under which the
    server stores a result is made of the first parameter alone when that is a
    small integer, the version is the product of the parameters, and neither
    depends on the module: after two requests whose small integer parameters
    have the same first value and the same product, to any modules with
    results of as many dimensions, the descriptor the first client was given
    leads to the second client's data. *)
Theorem module_results_collide sv m1 m2 mod1 mod2 e1 d1 e2 d2 w ws1 ws2 args1 args2 r1 r2 sv1 out1 rep1 sv2 out2 rep2 :
  ls_inv (sv_ls sv) -> ~ In (sv_next sv) (map ob_id (all_objs (sv_ls sv))) ->
  small_ints (e1 :: d1) (w :: ws1) -> small_ints (e2 :: d2) (w :: ws2) ->
  (length ws1 <= 16)%nat -> (length ws2 <= 16)%nat -> foldr Z.mul 1 ws1 = foldr Z.mul 1 ws2 ->
  dspaces_mod_by_name (sv_mods sv) mod1 = Some m1 -> dspaces_mod_by_name (sv_mods sv1) mod2 = Some m2 ->
  mod_type m1 = 0 -> mod_type m2 = 0 ->
  build_module_args_from_dict (e1 :: d1) = Some args1 -> build_module_args_from_dict (e2 :: d2) = Some args2 ->
  env_py_exec m1 "pquery" args1 = Some (MR_array r1) -> env_py_exec m2 "pquery" args2 = Some (MR_array r2) ->
  result_ok r1 -> result_ok r2 -> ret_ndim r1 = ret_ndim r2 ->
  get_mod_rpc sv mod1 (e1 :: d1) = Some (sv1, out1, rep1) -> get_mod_rpc sv1 mod2 (e2 :: d2) = Some (sv2, out2, rep2) ->
  exists o1 o2, gm_odscs rep1 = [o1] /\ gm_odscs rep2 = [o2] /\ od_name o1 = od_name o2 /\ od_version o1 = od_version o2 /\
    ls_find (sv_ls sv1) o1 = Some (mod_obj sv r1 o1) /\ ls_find (sv_ls sv2) o1 = Some (mod_obj sv1 r2 o2).
Proof.
  intros Hi Hfresh H1 H2 L1 L2 Hw M1 M2 T1 T2 A1 A2 P1 P2 R1 R2 Hnd C1 C2.
  destruct (get_mod_stores _ _ _ _ _ _ _ _ _ M1 T1 A1 P1 C1) as (v1 & n1 & o1 & V1 & O1 & -> & S1 & _). cbv zeta in *.
  destruct (get_mod_stores _ _ _ _ _ _ _ _ _ M2 T2 A2 P2 C2) as (v2 & n2 & o2 & V2 & O2 & -> & S2 & _). cbv zeta in *.
  rewrite (version_name_ints _ _ _ _ H1 L1) in V1. rewrite (version_name_ints _ _ _ _ H2 L2), <- Hw, V1 in V2.
  injection V2 as <- <-. set (p1 := odsc_take_ownership sv o1) in *. set (p2 := odsc_take_ownership sv1 o2) in *.
  exists p1, p2. destruct (ret_fields r1 n1 v1 o1 O1) as (N1 & W1 & _ & _ & _ & D1).
  destruct (ret_fields r2 n1 v1 o2 O2) as (N2 & W2 & _ & _ & _ & D2).
  pose proof (ret_box r1 n1 v1 o1 R1 O1) as B1. pose proof (ret_box r2 n1 v1 o2 R2 O2) as B2.
  assert (Hi1 : ls_inv (sv_ls sv1)) by (rewrite S1; by apply ls_add_obj_inv).
  assert (X1 : forall q, num_dims (od_bb q) = ret_ndim r1 ->
    (forall i, (i < ret_ndim r1)%nat -> cget (lb (od_bb q)) i = 0) -> bbox_does_intersect (od_bb p1) (od_bb q) = true).
  { intros q Hq Hlq. apply at_origin_intersect; cbn [p1 odsc_take_ownership set_owner od_bb]; [congruence|]. rewrite D1. intros i Hi'.
    destruct (B1 i Hi') as [-> ->]. rewrite Hlq by done. pose proof (ro_dims _ R1 i Hi'). lia. }
  split; [done|]. split; [done|]. split; [cbn; congruence|]. split; [cbn; congruence|]. split.
  - rewrite S1. apply ls_find_add_new; [done|done|]. apply obj_desc_equals_intersect_spec. split_and!; [done..|].
    apply X1; [exact D1|]. intros i Hi'. by destruct (B1 i Hi').
  - rewrite S2. apply ls_find_add_new; [done| |].
    + unfold obj_index. cbn [p1 p2 mod_obj obj_desc odsc_take_ownership set_owner od_version]. by rewrite W1, W2.
    + apply obj_desc_equals_intersect_spec. cbn [mod_obj obj_desc]. split; [cbn; congruence|]. split; [cbn; congruence|].
      apply X1; [by rewrite Hnd|]. intros i Hi'. apply B2. by rewrite <- Hnd.
Qed.
End Properties.

(** Registration through one server.  A type without a module is refused
    with the error code as the handle and no namespace.  Otherwise the id made
    of the server's rank and its counter is offered to the registry module,
    the counter is incremented, and the caller gets the id the module settles
    on; ids offered by different servers or for different requests differ. *)
Theorem register_simple_correct `{R : RegEnv} mods rank n type name data id0 :
  0 <= n < 2 ^ 31 - 1 -> Z.of_nat rank < 2 ^ 20 ->
  let call reg := option_map snd (reg_local mods rank n reg) in
  let given := n + Z.of_nat rank * 2 ^ 40 in
  (dspaces_mod_by_name mods type = None -> dspaces_register_simple call type name data id0 = (DS_MOD_ENOMOD, None)) /\
  (forall m file reg_mod v, dspaces_mod_by_name mods type = Some m -> mod_file m = Some file ->
     dspaces_mod_by_name mods "ds_reg" = Some reg_mod -> mod_type reg_mod = 0 ->
     reg_py_exec reg_mod "register" (build_module_args_from_reg (mkReg file name data (-1) given)) = Some (inr v) ->
     0 <= v < 2 ^ 63 ->
     dspaces_register_simple call type name data id0 = (v, Some "ds_reg"%string) /\
     option_map fst (reg_local mods rank n (mkReg type name data (-1) id0)) = Some (n + 1)) /\
  (forall rank' n', 0 <= n' < 2 ^ 31 -> given = n' + Z.of_nat rank' * 2 ^ 40 -> rank' = rank /\ n' = n).
Proof.
  intros Hn Hrank call given.
  assert (Hg : u64 (u64 n + Z.shiftl (Z.of_nat rank) 40) = given).
  { rewrite Z.shiftl_mul_pow2, (u64_small n) by lia. apply u64_small. unfold given. lia. }
  split; [|split].
  - intros Hm. unfold dspaces_register_simple, call, reg_local. cbn [reg_src reg_type reg_name reg_data Z.eqb].
    change (-1 =? -1) with true. cbv iota. unfold route_registration. cbn [reg_type]. by rewrite Hm.
  - intros m file reg_mod v Hm Hf Hr Ht Hv Hvr. unfold dspaces_register_simple, call, reg_local.
    cbn [reg_src reg_type reg_name reg_data]. change (-1 =? -1) with true. cbv iota. rewrite Hg. unfold route_registration.
    cbn [reg_type reg_name reg_data reg_src reg_id]. rewrite Hm, Hf. cbn [mbind option_bind]. rewrite Hr. unfold module_exec_int.
    rewrite Ht. change (0 =? 0) with true. cbv iota. rewrite Hv. cbn [mbind option_bind option_map fst snd reg_id].
    change (negb (0 =? 0)) with false. cbv iota. rewrite u64_small, i64_small by lia.
    destruct (Z.ltb_spec v 0); [lia|]. by rewrite i32_small by lia.
  - intros rank' n' Hn' He. unfold given in He. lia.
Qed.

(** ** Concrete requests *)

(** Two modules: a table of six numbers, and six copies of its first
    parameter. *)
#[local] Instance mod_env : Env := {
  env_fuel := 0;
  env_dim := 0;
  env_coord := zero_coord;
  env_malloc n := replicate n 0;
  env_py_exec m _ args := Some (MR_array (mkRet 6 [3; 2] 2 7 1 row_major
    (if String.eqb (mod_name m) "table" then [1; 2; 3; 4; 5; 6]
     else match args with a :: _ => match arg_val a with AU_word w => replicate 6 w | _ => [] end | [] => [] end)));
  env_remote_get _ _ _ := None;
  env_lz4_compress _ := None
}.

#[local] Instance mod_client_env : ClientEnv := {
  lz4_decompress _ _ := ([], -1);
  uninit_odsc := mkOdsc "" row_major 0 0 0 "" 0 zero_bbox 0;
  uninit_name := [];
  uninit_type := 5
}.

#[local] Instance mod_reg_env : RegEnv := { reg_py_exec _ _ args := match args with [_; _; _; i] => match arg_val i with AU_word w => Some (inr w) | _ => None end | _ => None end }.

Definition demo_mods : list dspaces_module :=
  [mkModule "table" None (Some "table_mod") 0; mkModule "fill" None (Some "fill_mod") 0; mkModule "ds_reg" None (Some "ds_reg") 0]%string.

Definition mod_server : server :=
  mkServer 0 1 "a" None None (mkConf 2 zero_coord 2 ssd_hash_version_v2) zero_gdim
    (mkSp (mkSspace 0 0 0 zero_bbox [] 0 ssd_hash_version_v2 0) (dht_entry_alloc 2)) [] (ls_alloc 2) (ls_alloc 2) [] [] demo_mods [] 0 3.

Definition mod_client : client := mkClient 0 "n" [] 0 "cl" None [] zero_gdim (ls_alloc 2) 0 false 1.

Lemma demo_result_ok l : length l = 6%nat -> result_ok (mkRet 6 [3; 2] 2 7 1 row_major l).
Proof.
  intros Hl. split; cbn [ret_ndim ret_dim ret_elem_size ret_data]; try lia.
  - intros [|[|i]] Hi; unfold dim_at; cbn [nth]; lia.
  - rewrite Hl. reflexivity.
  - vm_compute. reflexivity.
Qed.

Lemma mod_server_inv : ls_inv (sv_ls mod_server) /\ ~ In (sv_next mod_server) (map ob_id (all_objs (sv_ls mod_server))).
Proof. split; [by apply ls_inv_alloc|]. cbn. tauto. Qed.

Lemma get_module_returns_result_witness :
  exists sv' out rep req, get_mod_rpc mod_server "table" (sort_params [int_param "b" 3; int_param "a" 2]) = Some (sv', out, rep) /\
    dspaces_get_module (fun n p => option_map snd (get_mod_rpc mod_server n p)) (fun o => get_rpc sv' o false)
      mod_client "table" [int_param "b" 3; int_param "a" 2] = Some (0, Some req) /\
    req_buf req = Some [1; 2; 3; 4; 5; 6] /\ req_ub req = [2; 1] /\ req_var_name req = "2.4"%string /\ req_ver req = 6.
Proof.
  destruct (get_mod_rpc mod_server "table" (sort_params [int_param "b" 3; int_param "a" 2])) as [[[sv' out] rep]|] eqn:Ecall;
    [|vm_compute in Ecall; discriminate Ecall].
  destruct (get_module_returns_result mod_server (mkModule "table" None (Some "table_mod"%string) 0) mod_client "table"
    [int_param "b" 3; int_param "a" 2] [int_arg "a" 2; int_arg "b" 3] (mkRet 6 [3; 2] 2 7 1 row_major [1; 2; 3; 4; 5; 6]) sv' out rep)
    as (req & H1 & H2 & _ & _ & H3 & _ & _ & H4);
    [by intros ? ?|apply mod_server_inv|reflexivity|reflexivity|reflexivity|reflexivity|reflexivity|reflexivity|by apply demo_result_ok|exact Ecall|].
  - exists sv', out, rep, req. split; [done|]. split; [done|]. split; [done|]. split; [by rewrite H3|].
    assert (Hv : get_version_name (sort_params [int_param "b" 3; int_param "a" 2]) = Some (6, "2.4"%string)) by (vm_compute; reflexivity).
    rewrite Hv in H2. injection H2 as <- <-. done.
Defined.

Definition demo_call (name : string) (params : dsp_dict) : option get_mod_out := option_map snd (get_mod_rpc mod_server name params).

Lemma get_module_any_order_witness :
  dspaces_get_module demo_call (fun _ => None) mod_client "table" [int_param "b" 3; int_param "a" 2]
  = dspaces_get_module demo_call (fun _ => None) mod_client "table" [int_param "a" 2; int_param "b" 3].
Proof.
  apply (get_module_any_order demo_call (fun _ => None) mod_client "table"); [apply perm_swap|].
  vm_compute. apply NoDup_cons. split; [by intros Hx%list_elem_of_singleton|apply NoDup_singleton].
Defined.

Lemma demo_small_ints : small_ints [int_param "a" 2; int_param "b" 3; int_param "c" 4] [2; 3; 4] /\
  small_ints [int_param "a" 2; int_param "x" 6; int_param "y" 2] [2; 6; 2].
Proof. split; repeat (constructor; [eexists; split; [reflexivity|lia]|]); constructor. Qed.

(** The table and two copies: both are stored as version 24 of [2.4]. *)
Lemma module_results_collide_witness :
  exists sv1 out1 rep1 sv2 out2 rep2 o1 o2,
    get_mod_rpc mod_server "table" [int_param "a" 2; int_param "b" 3; int_param "c" 4] = Some (sv1, out1, rep1) /\
    get_mod_rpc sv1 "fill" [int_param "a" 2; int_param "x" 6; int_param "y" 2] = Some (sv2, out2, rep2) /\
    gm_odscs rep1 = [o1] /\ gm_odscs rep2 = [o2] /\
    option_map ob_data (ls_find (sv_ls sv1) o1) = Some [1; 2; 3; 4; 5; 6] /\
    option_map ob_data (ls_find (sv_ls sv2) o1) = Some [2; 2; 2; 2; 2; 2].
Proof.
  destruct (get_mod_rpc mod_server "table" [int_param "a" 2; int_param "b" 3; int_param "c" 4]) as [[[sv1 out1] rep1]|] eqn:C1;
    [|vm_compute in C1; discriminate C1].
  destruct (get_mod_rpc sv1 "fill" [int_param "a" 2; int_param "x" 6; int_param "y" 2]) as [[[sv2 out2] rep2]|] eqn:C2;
    [|vm_compute in C1; injection C1 as <- <- <-; vm_compute in C2; discriminate C2].
  exists sv1, out1, rep1, sv2, out2, rep2.
  destruct (module_results_collide mod_server (mkModule "table" None (Some "table_mod"%string) 0) (mkModule "fill" None (Some "fill_mod"%string) 0)
    "table" "fill" (int_param "a" 2) [int_param "b" 3; int_param "c" 4] (int_param "a" 2) [int_param "x" 6; int_param "y" 2]
    2 [3; 4] [6; 2] [int_arg "a" 2; int_arg "b" 3; int_arg "c" 4] [int_arg "a" 2; int_arg "x" 6; int_arg "y" 2]
    (mkRet 6 [3; 2] 2 7 1 row_major [1; 2; 3; 4; 5; 6]) (mkRet 6 [3; 2] 2 7 1 row_major [2; 2; 2; 2; 2; 2]) sv1 out1 rep1 sv2 out2 rep2)
    as (o1 & o2 & G1 & G2 & _ & _ & F1 & F2);
    [apply mod_server_inv|apply mod_server_inv|apply demo_small_ints|apply demo_small_ints|cbn; lia|cbn; lia|reflexivity|reflexivity
    | |reflexivity|reflexivity|reflexivity|reflexivity|reflexivity|reflexivity|by apply demo_result_ok|by apply demo_result_ok
    |reflexivity|exact C1|exact C2|].
  - vm_compute in C1. injection C1 as <- _ _. reflexivity.
  - exists o1, o2. rewrite F1, F2. done.
Defined.

Lemma register_simple_correct_witness :
  dspaces_register_simple (fun reg => option_map snd (reg_local demo_mods 3 7 reg)) "table" "n" "d" 0
    = (7 + 3 * 2 ^ 40, Some "ds_reg"%string) /\
  dspaces_register_simple (fun reg => option_map snd (reg_local demo_mods 3 7 reg)) "none" "n" "d" 0 = (DS_MOD_ENOMOD, None).
Proof.
  destruct (register_simple_correct demo_mods 3 7 "table" "n" "d" 0) as (_ & H & _); [lia|lia|].
  destruct (register_simple_correct demo_mods 3 7 "none" "n" "d" 0) as (Hn & _ & _); [lia|lia|].
  split; [|by apply Hn]. by eapply H.
Defined.
