(* ===== verification/Ops.v ===== *)
(** * Ops: expressions evaluated at the server

    [src/src/dspaces-ops.c] and [src/include/dspaces-ops.h]: expression
    trees over stored variables, their constructors, message encoding,
    element-wise evaluation, and the way [do_ops_rpc] of
    [src/src/dspaces-server.c] fetches their operands and fills the result
    buffer.  A C [double] is a binary64 number of [SpecFloat]; what the
    evaluation leaves undefined (reading past a buffer, signed overflow, an
    integer division by zero, a conversion out of range) is [None].  [pow]
    and [atan] of the C library and the layout of [struct obj_data] in
    memory are operations of type classes. *)

From Stdlib Require Import Floats.SpecFloat.
From S2P Require Import Prelude BBox ObjDesc Linear Sspace DhtEntry StrHash LocalStorage Matrix Codec Modules Server.

#[local] Set Warnings "-register-all,-clear-no-such-hyp".

(** ** Doubles *)

Definition dadd : spec_float -> spec_float -> spec_float := SFadd 53 1024.
Definition dsub : spec_float -> spec_float -> spec_float := SFsub 53 1024.
Definition dmul : spec_float -> spec_float -> spec_float := SFmul 53 1024.
Definition ddiv : spec_float -> spec_float -> spec_float := SFdiv 53 1024.
Definition dzero : spec_float := S754_zero false.

(** [(double)z] for a [long]. *)
Definition of_long (z : Z) : spec_float := binary_normalize 53 1024 z 0 false.

(** [(long)d]: truncation; undefined out of range. *)
Definition to_long (d : spec_float) : option Z :=
  match d with
  | S754_zero _ => Some 0
  | S754_finite s m e =>
      let a := if 0 <=? e then Z.pos m * 2 ^ e else Z.pos m / 2 ^ (- e) in
      let v := if s then - a else a in
      if (- 2 ^ 63 <=? v) && (v <? 2 ^ 63) then Some v else None
  | _ => None
  end.

(** The number with a given representation. *)
Definition double_of_bits (b : Z) : spec_float :=
  let s := Z.testbit b 63 in
  let e := Z.shiftr b 52 mod 2 ^ 11 in
  let m := b mod 2 ^ 52 in
  if e =? 2047 then if m =? 0 then S754_infinity s else S754_nan
  else if e =? 0 then match m with Z.pos p => S754_finite s p (-1074) | _ => S754_zero s end
  else match m + 2 ^ 52 with Z.pos p => S754_finite s p (e - 1075) | _ => S754_nan end.

(** [((double * )data)[pos]]. *)
Definition read_double (data : list Z) (pos : Z) : option spec_float :=
  if (0 <=? pos) && (8 * pos + 8 <=? Z.of_nat (length data))
  then Some (double_of_bits (of_le_bytes (take 8 (drop (Z.to_nat (8 * pos)) data))))
  else None.

(** [<math.h>]. *)
Class Libm := {
  libm_pow : spec_float -> spec_float -> spec_float;
  libm_atan : spec_float -> spec_float
}.

(** ** Expressions *)

Inductive ds_op_t :=
| DS_OP_OBJ | DS_OP_ICONST | DS_OP_RCONST
| DS_OP_ADD | DS_OP_SUB | DS_OP_MULT | DS_OP_DIV | DS_OP_POW | DS_OP_ARCTAN
| DS_OP_other (code : Z).

Definition op_code (op : ds_op_t) : Z :=
  match op with
  | DS_OP_OBJ => 0 | DS_OP_ICONST => 1 | DS_OP_RCONST => 2
  | DS_OP_ADD => 3 | DS_OP_SUB => 4 | DS_OP_MULT => 5 | DS_OP_DIV => 6 | DS_OP_POW => 7
  | DS_OP_ARCTAN => 8
  | DS_OP_other c => c
  end.

Definition op_of_code (c : Z) : ds_op_t :=
  if c =? 0 then DS_OP_OBJ else if c =? 1 then DS_OP_ICONST else if c =? 2 then DS_OP_RCONST
  else if c =? 3 then DS_OP_ADD else if c =? 4 then DS_OP_SUB else if c =? 5 then DS_OP_MULT
  else if c =? 6 then DS_OP_DIV else if c =? 7 then DS_OP_POW else if c =? 8 then DS_OP_ARCTAN
  else DS_OP_other c.

(** [enum ds_val_type]; a message can carry other codes. *)
Definition DS_VAL_INT : Z := 0.
Definition DS_VAL_REAL : Z := 1.

(** The union of [struct ds_data_expr]: an [od], or the 64 bits of [ival] or
    [rval]. *)
Inductive payload := P_od (od : obj_data) | P_word (w : Z).

(** [struct ds_data_expr]. *)
Inductive ds_expr := Expr (op : ds_op_t) (pay : payload) (type : Z) (sub_expr : list ds_expr) (size : Z).

Definition e_op (e : ds_expr) : ds_op_t := match e with Expr op _ _ _ _ => op end.
Definition e_type (e : ds_expr) : Z := match e with Expr _ _ ty _ _ => ty end.
Definition e_size (e : ds_expr) : Z := match e with Expr _ _ _ _ size => size end.

Definition is_binary (op : ds_op_t) : bool :=
  match op with DS_OP_ADD | DS_OP_SUB | DS_OP_MULT | DS_OP_DIV | DS_OP_POW => true | _ => false end.

(** ** Constructors *)

Definition dspaces_op_new_iconst (val : Z) : ds_expr := Expr DS_OP_ICONST (P_word val) DS_VAL_INT [] 4.

(** The node is built, but [NULL] is returned. *)
Definition dspaces_op_new_rconst (bits : Z) : option ds_expr := None.

Definition OD_MAX_NAME_LEN : nat := 150.

(** [gdim] is what [dspaces_get_gdim] reports for the variable; [od] is the
    uninitialised block. *)
Definition dspaces_op_new_obj (od : obj_data) (gdim : global_dimension) (var_name : string) (ver type : Z)
    (ndim : nat) (lb ub : list Z) : option ds_expr :=
  size ← (if type =? DS_VAL_INT then Some 4 else if type =? DS_VAL_REAL then Some 8 else None);
  if negb (gd_ndim gdim =? ndim)%nat then None else
  let bb := mkBBox ndim (take ndim lb ++ replicate (BBOX_MAX_NDIM - ndim) 0)
                        (take ndim ub ++ replicate (BBOX_MAX_NDIM - ndim) 0) in
  let u := obj_desc od in
  let desc := mkOdsc (String.substring 0 (OD_MAX_NAME_LEN - 1) var_name) (od_st u) (od_flags u) (od_tag u) (od_type u)
                (od_owner u) ver bb size in
  Some (Expr DS_OP_OBJ (P_od (mkObj (ob_id od) desc gdim (ob_data od) (refcnt od) (f_free od))) type []
          (u64 (size * bbox_volume bb))).

Definition dspaces_op_new_1arg (op : ds_op_t) (expr1 : ds_expr) : ds_expr :=
  Expr op (P_word 0) (match op with DS_OP_ARCTAN | DS_OP_DIV => DS_VAL_REAL | _ => e_type expr1 end)
    [expr1] (e_size expr1).

Definition dspaces_op_new_2arg (op : ds_op_t) (expr1 expr2 : ds_expr) : option ds_expr :=
  if negb (is_binary op) then None else
  Some (Expr op (P_word 0)
          (if (e_type expr1 =? DS_VAL_REAL) || (e_type expr2 =? DS_VAL_REAL) then DS_VAL_REAL else DS_VAL_INT)
          [expr1; expr2]
          (if e_size expr2 <? e_size expr1 then e_size expr1 else e_size expr2)).

Definition dspaces_op_new_add := dspaces_op_new_2arg DS_OP_ADD.
Definition dspaces_op_new_sub := dspaces_op_new_2arg DS_OP_SUB.
Definition dspaces_op_new_mult := dspaces_op_new_2arg DS_OP_MULT.
Definition dspaces_op_new_div := dspaces_op_new_2arg DS_OP_DIV.
Definition dspaces_op_new_pow := dspaces_op_new_2arg DS_OP_POW.
Definition dspaces_op_new_arctan := dspaces_op_new_1arg DS_OP_ARCTAN.

(** ** Evaluation *)

Section Eval.
Context `{M : Libm}.

(** The last [switch] of [ds_op_calc_rval]. *)
Definition arith_r (op : ds_op_t) (a b : spec_float) : spec_float :=
  match op with
  | DS_OP_ADD => dadd a b
  | DS_OP_SUB => dsub a b
  | DS_OP_MULT => dmul a b
  | DS_OP_DIV => ddiv a b
  | _ => libm_pow a b
  end.

(** A signed 64-bit result. *)
Definition in_long (z : Z) : option Z := if (- 2 ^ 63 <=? z) && (z <? 2 ^ 63) then Some z else None.

(** The last [switch] of [ds_op_calc_ival]. *)
Definition arith_i (op : ds_op_t) (a b : Z) : option Z :=
  match op with
  | DS_OP_ADD => in_long (a + b)
  | DS_OP_SUB => in_long (a - b)
  | DS_OP_MULT => in_long (a * b)
  | DS_OP_DIV => if b =? 0 then None else in_long (Z.quot a b)
  | _ => to_long (libm_pow (of_long a) (of_long b))
  end.

(** A subexpression as a [double] or a [long], by its type; a type code of
    neither kind leaves the variable uninitialised. *)
Definition operand_r (type : Z) (r : option (Z * spec_float)) (i : option (Z * Z)) : option (Z * spec_float) :=
  if type =? DS_VAL_REAL then r
  else if type =? DS_VAL_INT then '(err, v) ← i; Some (err, of_long v)
  else None.

Definition operand_i (type : Z) (r : option (Z * spec_float)) (i : option (Z * Z)) : option (Z * Z) :=
  if type =? DS_VAL_REAL then '(err, d) ← r; v ← to_long d; Some (err, v)
  else if type =? DS_VAL_INT then i
  else None.

(** [*res] and the value. *)
Fixpoint ds_op_calc_rval (expr : ds_expr) (pos : Z) {struct expr} : option (Z * spec_float) :=
  match expr with
  | Expr op pay type sub _ =>
      if negb (type =? DS_VAL_REAL) then Some (-1, dzero) else
      match op, pay, sub with
      | DS_OP_OBJ, P_od od, _ => v ← read_double (ob_data od) pos; Some (0, v)
      | DS_OP_ICONST, _, _ => Some (-1, dzero)
      | DS_OP_RCONST, P_word w, _ => Some (0, double_of_bits w)
      | (DS_OP_ADD | DS_OP_SUB | DS_OP_MULT | DS_OP_DIV | DS_OP_POW), _, a :: b :: _ =>
          '(err, subval1) ← operand_r (e_type a) (ds_op_calc_rval a pos) (ds_op_calc_ival a pos);
          if err <? 0 then Some (err, dzero) else
          '(err, subval2) ← operand_r (e_type b) (ds_op_calc_rval b pos) (ds_op_calc_ival b pos);
          if err <? 0 then Some (err, dzero) else
          Some (0, arith_r op subval1 subval2)
      | DS_OP_ARCTAN, _, a :: _ =>
          '(err, subval1) ← operand_r (e_type a) (ds_op_calc_rval a pos) (ds_op_calc_ival a pos);
          if err <? 0 then Some (err, dzero) else
          Some (0, libm_atan subval1)
      | DS_OP_other _, _, _ => Some (-1, dzero)
      | _, _, _ => None
      end
  end
with ds_op_calc_ival (expr : ds_expr) (pos : Z) {struct expr} : option (Z * Z) :=
  match expr with
  | Expr op pay type sub _ =>
      if negb (type =? DS_VAL_INT) then Some (-1, 0) else
      match op, pay, sub with
      | DS_OP_OBJ, P_od od, _ => d ← read_double (ob_data od) pos; v ← to_long d; Some (0, v)
      | DS_OP_RCONST, _, _ => Some (-1, 0)
      | DS_OP_ICONST, P_word w, _ => Some (0, i64 w)
      | (DS_OP_ADD | DS_OP_SUB | DS_OP_MULT | DS_OP_DIV | DS_OP_POW), _, a :: b :: _ =>
          '(err, subval1) ← operand_i (e_type a) (ds_op_calc_rval a pos) (ds_op_calc_ival a pos);
          if err <? 0 then Some (err, 0) else
          '(err, subval2) ← operand_i (e_type b) (ds_op_calc_rval b pos) (ds_op_calc_ival b pos);
          if err <? 0 then Some (err, 0) else
          v ← arith_i op subval1 subval2; Some (0, v)
      | (DS_OP_ARCTAN | DS_OP_other _), _, _ => Some (-1, 0)
      | _, _, _ => None
      end
  end.
End Eval.

(** ** Operands *)

(** [list_add] of the variables not in the list yet, by name. *)
Fixpoint gather_op_ods (expr : ds_expr) (expr_odl : list obj_data) : list obj_data :=
  match expr with
  | Expr op pay _ sub _ =>
      match op, pay, sub with
      | DS_OP_OBJ, P_od od, _ =>
          if existsb (fun o => String.eqb (od_name (obj_desc o)) (od_name (obj_desc od))) expr_odl
          then expr_odl else od :: expr_odl
      | (DS_OP_ADD | DS_OP_SUB | DS_OP_MULT | DS_OP_DIV | DS_OP_POW), _, a :: b :: _ =>
          gather_op_ods b (gather_op_ods a expr_odl)
      | DS_OP_ARCTAN, _, a :: _ => gather_op_ods a expr_odl
      | _, _, _ => expr_odl
      end
  end.

Fixpoint update_expr_objs (expr : ds_expr) (od : obj_data) : ds_expr :=
  match expr with
  | Expr op pay type sub size =>
      match op, pay, sub with
      | DS_OP_OBJ, P_od o, _ =>
          if String.eqb (od_name (obj_desc od)) (od_name (obj_desc o))
          then Expr op (P_od od) type sub size else expr
      | (DS_OP_ADD | DS_OP_SUB | DS_OP_MULT | DS_OP_DIV | DS_OP_POW), _, a :: b :: rest =>
          Expr op pay type (update_expr_objs a od :: update_expr_objs b od :: rest) size
      | DS_OP_ARCTAN, _, a :: rest => Expr op pay type (update_expr_objs a od :: rest) size
      | _, _, _ => expr
      end
  end.

(** [ndim] and [dims]; [None] for an unknown operation, which leaves them
    unset. *)
Fixpoint dspaces_op_get_result_size (expr : ds_expr) : option (list Z) :=
  match expr with
  | Expr op pay _ sub _ =>
      match op, pay, sub with
      | DS_OP_OBJ, P_od od, _ =>
          let bb := od_bb (obj_desc od) in
          Some (map (fun i => u64 (u64 (cget (ub bb) i - cget (lb bb) i) + 1)) (seq 0 (num_dims bb)))
      | (DS_OP_ICONST | DS_OP_RCONST), _, _ => Some []
      | (DS_OP_ADD | DS_OP_SUB | DS_OP_MULT | DS_OP_DIV | DS_OP_POW), _, a :: b :: _ =>
          ldims ← dspaces_op_get_result_size a;
          rdims ← dspaces_op_get_result_size b;
          Some (if (length rdims <? length ldims)%nat then ldims else rdims)
      | DS_OP_ARCTAN, _, a :: _ => dspaces_op_get_result_size a
      | _, _, _ => None
      end
  end.

(** ** Execution at the server *)

Section DoOps.
Context `{E : Env} `{M : Libm}.

(** The data of one operand: stored here, or else asked from the remotes into
    the proxy store (a query of the space leaves that store as it is); [None]
    when neither store has it, where [ssd_copy] follows a null pointer. *)
Definition stage_od (sv : server) (od : obj_data) : option (server * obj_data) :=
  let odsc := obj_desc od in
  res_od ← obj_data_alloc (sv_next sv) odsc;
  '(sv, from) ←
    match ls_find (sv_ls sv) odsc with
    | Some from => Some (sv, from)
    | None =>
        let sv := if local_responsibility sv odsc then sv else fst (query_remotes sv odsc (ob_gdim od)) in
        from ← ls_find (sv_ps sv) odsc; Some (sv, from)
    end;
  '(res_od, _) ← ssd_copy res_od from;
  Some (sv, res_od).

(** The loop of [do_ops_rpc] over the gathered variables. *)
Fixpoint stage_ods (sv : server) (expr : ds_expr) (odl : list obj_data) : option (server * ds_expr) :=
  match odl with
  | [] => Some (sv, expr)
  | od :: odl' =>
      '(sv, res_od) ← stage_od sv od;
      stage_ods sv (update_expr_objs expr res_od) odl'
  end.

(** The result buffer: [int]s or [double]s. *)
Inductive ops_result := OR_int (l : list Z) | OR_real (l : list spec_float) | OR_invalid.

Definition do_ops_rpc (sv : server) (expr : ds_expr) : option (server * ops_result) :=
  '(sv, expr) ← stage_ods sv expr (gather_op_ods expr []);
  if e_type expr =? DS_VAL_INT then
    l ← mapM (fun i => '(_, v) ← ds_op_calc_ival expr (Z.of_nat i); Some (i32 v))
          (seq 0 (Z.to_nat (e_size expr / 4)));
    Some (sv, OR_int l)
  else if e_type expr =? DS_VAL_REAL then
    l ← mapM (fun i => '(_, v) ← ds_op_calc_rval expr (Z.of_nat i); Some v)
          (seq 0 (Z.to_nat (e_size expr / 8)));
    Some (sv, OR_real l)
  else Some (sv, OR_invalid).
End DoOps.

(** ** Messages *)

(** More primitives of Mercury, and the bytes of a [struct obj_data]. *)
Class HgProcOps := {
  uint8_enc : Z -> list Z;
  uint8_dec : list Z -> option (Z * list Z);
  uint64_enc : Z -> list Z;
  uint64_dec : list Z -> option (Z * list Z);
  int32_enc : Z -> list Z;
  int32_dec : list Z -> option (Z * list Z);
  int64_enc : Z -> list Z;
  int64_dec : list Z -> option (Z * list Z);
  od_enc : obj_data -> list Z;
  od_dec : list Z -> option (obj_data * list Z)
}.

(** What is written is read back; of an object its structure without the
    data its pointer refers to. *)
Class HgProcOpsLaws `{P : HgProcOps} : Prop := {
  uint8_law : forall n rest, 0 <= n < 2 ^ 7 -> uint8_dec (uint8_enc n ++ rest) = Some (n, rest);
  uint64_law : forall n rest, in_u64 n -> uint64_dec (uint64_enc n ++ rest) = Some (n, rest);
  int32_law : forall n rest, - 2 ^ 31 <= n < 2 ^ 31 -> int32_dec (int32_enc n ++ rest) = Some (n, rest);
  int64_law : forall n rest, in_u64 n -> int64_dec (int64_enc n ++ rest) = Some (n, rest);
  od_law : forall od rest, od_dec (od_enc od ++ rest)
    = Some (mkObj (ob_id od) (obj_desc od) (ob_gdim od) [] (refcnt od) (f_free od), rest)
}.

Section Message.
Context `{P : HgProcOps}.

(** [HG_ENCODE]; the return codes of the calls for the subexpressions are
    dropped, so an invalid operation inside just ends its part. *)
Fixpoint ds_expr_encode (e : ds_expr) : list Z :=
  match e with
  | Expr op pay type sub size =>
      uint8_enc (op_code op) ++ uint8_enc type ++ uint64_enc size ++
      match op, pay, sub with
      | DS_OP_OBJ, P_od od, _ => od_enc od
      | DS_OP_ICONST, P_word w, _ => int32_enc (i32 w)
      | DS_OP_RCONST, P_word w, _ => int64_enc w
      | DS_OP_ARCTAN, _, a :: _ => uint8_enc 1 ++ ds_expr_encode a
      | (DS_OP_ADD | DS_OP_SUB | DS_OP_MULT | DS_OP_DIV | DS_OP_POW), _, a :: b :: _ =>
          uint8_enc 2 ++ ds_expr_encode a ++ ds_expr_encode b
      | _, _, _ => []
      end
  end.

(** [HG_DECODE]: the expression, whether the code is [HG_SUCCESS], and the
    rest.  An operation is followed by a count of subexpressions, whose codes
    are dropped; [fuel] bounds the depth. *)
Fixpoint ds_expr_decode (fuel : nat) (buf : list Z) : option (ds_expr * bool * list Z) :=
  match fuel with
  | O => None
  | S f =>
      '(c, buf) ← uint8_dec buf;
      '(type, buf) ← uint8_dec buf;
      '(size, buf) ← uint64_dec buf;
      match op_of_code c with
      | DS_OP_OBJ => '(od, buf) ← od_dec buf; Some (Expr DS_OP_OBJ (P_od od) type [] size, true, buf)
      | DS_OP_ICONST => '(w, buf) ← int32_dec buf; Some (Expr DS_OP_ICONST (P_word w) type [] size, true, buf)
      | DS_OP_RCONST => '(w, buf) ← int64_dec buf; Some (Expr DS_OP_RCONST (P_word w) type [] size, true, buf)
      | DS_OP_other c => Some (Expr (DS_OP_other c) (P_word 0) type [] size, false, buf)
      | op =>
          '(n, buf) ← uint8_dec buf;
          '(sub, buf) ←
            (fix decode_subs (n : nat) (buf : list Z) : option (list ds_expr * list Z) :=
               match n with
               | O => Some ([], buf)
               | S n' =>
                   '(e, _, buf) ← ds_expr_decode f buf;
                   '(rest, buf) ← decode_subs n' buf;
                   Some (e :: rest, buf)
               end) (Z.to_nat n) buf;
          Some (Expr op (P_word 0) type sub size, true, buf)
      end
  end.
End Message.

(** ** Induction on expressions *)

Lemma ds_expr_induction (Pr : ds_expr -> Prop) :
  (forall op pay type sub size, Forall Pr sub -> Pr (Expr op pay type sub size)) -> forall e, Pr e.
Proof.
  intros H. fix IH 1. intros [op pay type sub size]. apply H.
  induction sub as [|a sub IHs]; constructor; [apply IH|exact IHs].
Qed.

Lemma op_of_op_code op :
  match op with DS_OP_other _ => True | _ => op_of_code (op_code op) = op end.
Proof. by destruct op. Qed.

Ltac two_subs H :=
  match type of H with Forall _ (?a :: ?b :: _) =>
    let Ha := fresh "Ha" in let Hb := fresh "Hb" in
    pose proof (Forall_inv H) as Ha; pose proof (Forall_inv (Forall_inv_tail H)) as Hb end.

(** ** Message round trip *)

(** Expressions as the constructors build them, with codes and sizes of
    their widths. *)
Fixpoint sendable (e : ds_expr) : Prop :=
  match e with
  | Expr op pay type sub size =>
      0 <= type < 2 ^ 7 /\ in_u64 size /\
      match op, pay, sub with
      | DS_OP_OBJ, P_od _, [] => True
      | DS_OP_ICONST, P_word _, [] => True
      | DS_OP_RCONST, P_word w, [] => in_u64 w
      | DS_OP_ARCTAN, P_word w, [a] => w = 0 /\ sendable a
      | (DS_OP_ADD | DS_OP_SUB | DS_OP_MULT | DS_OP_DIV | DS_OP_POW), P_word w, [a; b] =>
          w = 0 /\ sendable a /\ sendable b
      | _, _, _ => False
      end
  end.

(** What arrives: objects without their data, integer constants reduced to
    32 bits. *)
Fixpoint received (e : ds_expr) : ds_expr :=
  match e with
  | Expr op pay type sub size =>
      Expr op
        match op, pay with
        | DS_OP_OBJ, P_od od => P_od (mkObj (ob_id od) (obj_desc od) (ob_gdim od) [] (refcnt od) (f_free od))
        | DS_OP_ICONST, P_word w => P_word (i32 w)
        | _, _ => pay
        end type (map received sub) size
  end.

(** Nothing is lost: no data attached yet, integer constants that fit an
    [int]. *)
Fixpoint portable (e : ds_expr) : Prop :=
  match e with
  | Expr op pay _ sub _ =>
      match op, pay, sub with
      | DS_OP_OBJ, P_od od, [] => ob_data od = []
      | DS_OP_ICONST, P_word w, [] => - 2 ^ 31 <= w < 2 ^ 31
      | DS_OP_ARCTAN, P_word _, [a] => portable a
      | (DS_OP_ADD | DS_OP_SUB | DS_OP_MULT | DS_OP_DIV | DS_OP_POW), P_word _, [a; b] =>
          portable a /\ portable b
      | DS_OP_RCONST, P_word _, [] => True
      | _, _, _ => False
      end
  end.

Fixpoint depth (e : ds_expr) : nat :=
  match e with
  | Expr _ _ _ sub _ => S (fold_right (fun a n => Nat.max (depth a) n) 0%nat sub)
  end.

Lemma received_portable e : portable e -> received e = e.
Proof.
  induction e as [op pay type sub size IH] using ds_expr_induction. cbn [portable received]. intros H.
  destruct op, pay as [od|w], sub as [|a [|b [|c sub]]]; try contradiction; cbn [map].
  - destruct od. simpl in H. by rewrite H.
  - by rewrite i32_small.
  - done.
  - destruct H. two_subs IH. by rewrite Ha, Hb.
  - destruct H. two_subs IH. by rewrite Ha, Hb.
  - destruct H. two_subs IH. by rewrite Ha, Hb.
  - destruct H. two_subs IH. by rewrite Ha, Hb.
  - destruct H. two_subs IH. by rewrite Ha, Hb.
  - apply Forall_inv in IH. by rewrite IH.
Qed.

Section Roundtrip.
Context `{L : HgProcOpsLaws}.

Lemma decode_header fuel op type size body :
  0 <= op_code op < 2 ^ 7 -> op_of_code (op_code op) = op -> 0 <= type < 2 ^ 7 -> in_u64 size ->
  ds_expr_decode (S fuel) ((uint8_enc (op_code op) ++ uint8_enc type ++ uint64_enc size ++ body))
  = match op with
    | DS_OP_OBJ => '(od, buf) ← od_dec body; Some (Expr DS_OP_OBJ (P_od od) type [] size, true, buf)
    | DS_OP_ICONST => '(w, buf) ← int32_dec body; Some (Expr DS_OP_ICONST (P_word w) type [] size, true, buf)
    | DS_OP_RCONST => '(w, buf) ← int64_dec body; Some (Expr DS_OP_RCONST (P_word w) type [] size, true, buf)
    | DS_OP_other c => Some (Expr (DS_OP_other c) (P_word 0) type [] size, false, body)
    | op =>
        '(n, buf) ← uint8_dec body;
        '(sub, buf) ←
          (fix decode_subs (n : nat) (buf : list Z) : option (list ds_expr * list Z) :=
             match n with
             | O => Some ([], buf)
             | S n' =>
                 '(e, _, buf) ← ds_expr_decode fuel buf;
                 '(rest, buf) ← decode_subs n' buf;
                 Some (e :: rest, buf)
             end) (Z.to_nat n) buf;
        Some (Expr op (P_word 0) type sub size, true, buf)
    end.
Proof.
  intros Hc Hop Ht Hs. cbn [ds_expr_decode]. rewrite uint8_law by done. cbn [mbind option_bind].
  rewrite uint8_law by done. cbn [mbind option_bind]. rewrite uint64_law by done. cbn [mbind option_bind].
  rewrite Hop. by destruct op.
Qed.

Lemma ds_expr_ok e fuel rest :
  sendable e -> (depth e <= fuel)%nat ->
  ds_expr_decode fuel (ds_expr_encode e ++ rest) = Some (received e, true, rest) /\
  (portable e -> received e = e).
Proof.
  intros Hs Hf. split; [|apply received_portable]. revert fuel rest Hs Hf.
  induction e as [op pay type sub size IH] using ds_expr_induction. intros [|fuel] rest Hs Hf; [simpl in Hf; lia|].
  cbn [sendable] in Hs. destruct Hs as (Ht & Hsz & Hs). cbn [ds_expr_encode].
  destruct op, pay as [od|w], sub as [|a [|b [|c sub]]]; try contradiction;
    rewrite <- ?app_assoc, decode_header by (done || (simpl; lia)); cbn [received map].
  1: by rewrite od_law.
  1: by rewrite int32_law by apply i32_range.
  1: by rewrite int64_law.
  1-5: destruct Hs as (-> & Ha & Hb); cbn [depth fold_right] in Hf; two_subs IH;
    rewrite <- ?app_assoc, uint8_law by lia; cbn [mbind option_bind];
    change (Z.to_nat 2) with 2%nat; cbn iota beta;
    rewrite Ha0 by (done || lia); cbn [mbind option_bind];
    rewrite Hb0 by (done || lia); reflexivity.
  destruct Hs as (-> & Ha). cbn [depth fold_right] in Hf. apply Forall_inv in IH.
  rewrite <- ?app_assoc, uint8_law by lia. cbn [mbind option_bind].
  change (Z.to_nat 1) with 1%nat. cbn iota beta. rewrite IH by (done || lia). reflexivity.
Qed.

(** An expression sent with [do_ops] arrives as it was built, except that
    an integer constant is cut to 32 bits and objects arrive without data;
    with constants in the range of [int] nothing is lost. *)
Theorem ds_expr_roundtrip e fuel rest :
  sendable e -> (depth e <= fuel)%nat ->
  ds_expr_decode fuel (ds_expr_encode e ++ rest) = Some (received e, true, rest) /\
  (portable e -> received e = e).
Proof. apply ds_expr_ok. Qed.
End Roundtrip.

(** ** Operands of an expression *)

(** The objects the evaluation reads, from left to right. *)
Fixpoint leaves (expr : ds_expr) : list obj_data :=
  match expr with
  | Expr op pay _ sub _ =>
      match op, pay, sub with
      | DS_OP_OBJ, P_od od, _ => [od]
      | (DS_OP_ADD | DS_OP_SUB | DS_OP_MULT | DS_OP_DIV | DS_OP_POW), _, a :: b :: _ => leaves a ++ leaves b
      | DS_OP_ARCTAN, _, a :: _ => leaves a
      | _, _, _ => []
      end
  end.

Definition name_of (od : obj_data) : string := od_name (obj_desc od).
Definition named (n : string) (od : obj_data) : bool := String.eqb (name_of od) n.

(** One addition of [gather_op_ods]. *)
Definition add_od (odl : list obj_data) (od : obj_data) : list obj_data :=
  if existsb (named (name_of od)) odl then odl else od :: odl.

Lemma gather_leaves e : forall odl, gather_op_ods e odl = fold_left add_od (leaves e) odl.
Proof.
  induction e as [op pay type sub size IH] using ds_expr_induction. intros odl.
  destruct op, pay as [od|w], sub as [|a [|b sub]]; try reflexivity; cbn [gather_op_ods leaves];
    first [exact (Forall_inv IH odl) | two_subs IH; by rewrite fold_left_app, Ha, Hb].
Qed.

Lemma update_leaves e od :
  leaves (update_expr_objs e od) = map (fun o => if named (name_of o) od then od else o) (leaves e).
Proof.
  unfold named, name_of. induction e as [op pay type sub size IH] using ds_expr_induction.
  destruct op, pay as [o|w], sub as [|a [|b sub]]; try reflexivity; cbn [update_expr_objs leaves];
    first [by cbn [map]; destruct (String.eqb _ _) | exact (Forall_inv IH) | two_subs IH; by rewrite map_app, Ha, Hb].
Qed.

Lemma update_type e od : e_type (update_expr_objs e od) = e_type e /\ e_size (update_expr_objs e od) = e_size e.
Proof.
  destruct e as [op pay type sub size].
  destruct op, pay as [o|w], sub as [|a [|b sub]]; cbn [update_expr_objs]; try done;
    by destruct (String.eqb _ _).
Qed.

(** The first object of a name. *)
Definition first_named (n : string) (l : list obj_data) : option obj_data := find (named n) l.

(** The gathered list: one object per name, the first of the expression. *)
Lemma gather_spec l : forall odl,
  NoDup (map name_of odl) ->
  let r := fold_left add_od l odl in
  NoDup (map name_of r) /\
  forall d, In d r <-> In d odl \/ ((forall o, In o odl -> name_of o <> name_of d) /\ first_named (name_of d) l = Some d).
Proof.
  induction l as [|x l IH]; intros odl Hnd; cbn [fold_left].
  { split; [done|]. intros d. cbn [first_named find]. naive_solver. }
  unfold add_od at 2 4. destruct (existsb (named (name_of x)) odl) eqn:Ex.
  - destruct (IH odl Hnd) as [H1 H2]. split; [done|]. intros d. rewrite H2.
    apply existsb_exists in Ex as (o & Ho & E%String.eqb_eq). cbn [first_named find].
    destruct (named (name_of d) x) eqn:Ed; [|done]. apply String.eqb_eq in Ed.
    split; (intros [?|[Hno _]]; [by left|]); exfalso; apply (Hno o Ho); congruence.
  - assert (Hno : forall o, In o odl -> name_of o <> name_of x).
    { intros o Ho E. apply not_true_iff_false in Ex. apply Ex, existsb_exists. exists o.
      split; [done|]. by apply String.eqb_eq. }
    destruct (IH (x :: odl)) as [H1 H2].
    { cbn [map]. constructor; [|done]. rewrite list_elem_of_In, in_map_iff. intros (o & E & Ho). by apply (Hno o). }
    split; [done|]. intros d. rewrite H2. cbn [first_named find In].
    destruct (named (name_of d) x) eqn:Ed.
    + apply String.eqb_eq in Ed. split.
      * intros [[<-|?]|[Hn _]]; [right; split; [done|done]|by left|]. by destruct (Hn x (or_introl eq_refl)).
      * intros [?|[_ [= ->]]]; auto.
    + assert (Hne : x <> d) by (intros ->; unfold named in Ed; by rewrite String.eqb_refl in Ed).
      split.
      * intros [[?|?]|[Hn ?]]; [done|by left|]. right. split; [|done]. intros o Ho. apply Hn. by right.
      * intros [?|[Hn ?]]; [auto|]. right. split; [|done]. intros o [<-|Ho]; [|by apply Hn].
        intros E. unfold named in Ed. by rewrite E, String.eqb_refl in Ed.
Qed.

(** ** Staging *)

Section Staging.
Context `{Env}.

Lemma stage_od_spec sv d sv' r :
  stage_od sv d = Some (sv', r) -> name_of r = name_of d /\ sv_ls sv' = sv_ls sv.
Proof.
  unfold stage_od. destruct (obj_data_alloc _ _) as [t|] eqn:Et; [|done]. cbn [mbind option_bind]. intros Hs.
  assert (Hc : forall from r n, ssd_copy t from = Some (r, n) -> name_of r = name_of d).
  { unfold obj_data_alloc in Et. destruct (_ <? 0); [done|]. injection Et as <-. intros from r0 n. unfold ssd_copy. destruct (matrix_copy _ _) as [[data c]|]; [|done]. by intros [= <- <-]. }
  destruct (ls_find (sv_ls sv) (obj_desc d)) as [from|]; cbn [mbind option_bind] in Hs.
  - destruct (ssd_copy t from) as [[r0 n]|] eqn:Ec; [|done]. cbn [mbind option_bind] in Hs. simplify_eq. eauto.
  - destruct (ls_find (sv_ps _) (obj_desc d)) as [from|]; [|done]. cbn [mbind option_bind] in Hs.
    destruct (ssd_copy t from) as [[r0 n]|] eqn:Ec; [|done]. cbn [mbind option_bind] in Hs. simplify_eq.
    split; [eauto|]. destruct (local_responsibility sv (obj_desc d)); [done|]. unfold query_remotes.
    by destruct (list_find _ _) as [[]|].
Qed.

Lemma named_self d : named (name_of d) d = true.
Proof. apply String.eqb_refl. Qed.

Lemma existsb_named_notin n l : ~ In n (map name_of l) -> existsb (named n) l = false.
Proof.
  intros Hn. apply not_true_is_false. intros (o & Ho & E%String.eqb_eq)%existsb_exists.
  apply Hn. rewrite <- E. by apply in_map.
Qed.

Lemma stage_ods_spec odl : forall sv e sv' e',
  NoDup (map name_of odl) -> stage_ods sv e odl = Some (sv', e') ->
  e_type e' = e_type e /\ e_size e' = e_size e /\ sv_ls sv' = sv_ls sv /\
  exists data,
    (forall d, In d odl -> exists sv1 sv2, sv_ls sv1 = sv_ls sv /\ stage_od sv1 d = Some (sv2, data (name_of d))) /\
    leaves e' = map (fun o => if existsb (named (name_of o)) odl then data (name_of o) else o) (leaves e).
Proof.
  induction odl as [|d odl IH]; intros sv e sv' e' Hnd Hs; cbn [stage_ods] in Hs.
  { simplify_eq. split_and!; try done. exists (fun n => mkObj 0 (mkOdsc n row_major 0 0 0 "" 0 zero_bbox 0) zero_gdim [] 0 false).
    split; [done|]. cbn [existsb]. by rewrite map_id. }
  destruct (stage_od sv d) as [[sv1 r]|] eqn:Er; [|done]. cbn [mbind option_bind] in Hs.
  pose proof (stage_od_spec _ _ _ _ Er) as [Hname Hls]. cbn [map] in Hnd. apply NoDup_cons in Hnd as [Hd Hnd].
  rewrite list_elem_of_In in Hd.
  destruct (IH _ _ _ _ Hnd Hs) as (Ht & Hz & Hl & data & Hdata & Hleaves).
  destruct (update_type e r) as [Ht' Hz']. rewrite Ht', Hz', Hl, Hls in *.
  split_and!; try done. exists (fun n => if String.eqb n (name_of d) then r else data n). split.
  - intros x [<-|Hx].
    + rewrite String.eqb_refl. by exists sv, sv1.
    + destruct (Hdata x Hx) as (sv2 & sv3 & E1 & E2). exists sv2, sv3. split; [done|].
      destruct (String.eqb_spec (name_of x) (name_of d)) as [E|]; [|done].
      destruct Hd. rewrite <- E. by apply in_map.
  - rewrite Hleaves, update_leaves, map_map. apply map_ext. intros o. cbn [existsb].
    replace (named (name_of o) d) with (named (name_of o) r) by (unfold named; by rewrite Hname).
    destruct (named (name_of o) r) eqn:En; cbn [orb]; rewrite <- Hname, (String.eqb_sym (name_of o));
      change (String.eqb (name_of r) (name_of o)) with (named (name_of o) r); rewrite En; [|done].
    by rewrite Hname, existsb_named_notin.
Qed.
End Staging.

(** C24: What [do_ops_rpc] computes with: every reference to a variable reads
    the data fetched for the first object of that name in the expression,
    whose version and box they thereby take over; type and size are kept.  If
    the objects of a name agree, every reference reads its own data. *)
Theorem do_ops_operands `{Env} sv e sv' e' :
  stage_ods sv e (gather_op_ods e []) = Some (sv', e') ->
  e_type e' = e_type e /\ e_size e' = e_size e /\
  exists data,
    leaves e' = map (fun o => data (name_of o)) (leaves e) /\
    (forall o, In o (leaves e) -> exists d sv1 sv2,
       first_named (name_of o) (leaves e) = Some d /\ sv_ls sv1 = sv_ls sv /\
       stage_od sv1 d = Some (sv2, data (name_of o)) /\
       ((forall o', In o' (leaves e) -> name_of o' = name_of o -> o' = o) -> d = o)).
Proof.
  rewrite gather_leaves. intros Hs.
  destruct (gather_spec (leaves e) [] ltac:(constructor)) as [Hnd Hin].
  destruct (stage_ods_spec _ _ _ _ _ Hnd Hs) as (Ht & Hz & _ & data & Hdata & Hleaves).
  split; [done|]. split; [done|]. exists data.
  assert (Hfirst : forall o, In o (leaves e) -> exists d,
    first_named (name_of o) (leaves e) = Some d /\ name_of d = name_of o /\ In d (leaves e) /\
    In d (fold_left add_od (leaves e) [])).
  { intros o Ho. unfold first_named. destruct (find (named (name_of o)) (leaves e)) as [d|] eqn:Ed.
    - pose proof (find_some _ _ Ed) as [Hd E%String.eqb_eq]. exists d. split_and!; try done.
      apply Hin. right. split; [by intros x []|]. unfold first_named. by rewrite E.
    - pose proof (find_none _ _ Ed o Ho) as Hn. by rewrite named_self in Hn. }
  split.
  - rewrite Hleaves. apply map_ext_in. intros o Ho. destruct (Hfirst o Ho) as (d & _ & En & _ & Hd).
    replace (existsb _ _) with true; [done|]. symmetry. apply existsb_exists. exists d.
    split; [done|]. by apply String.eqb_eq.
  - intros o Ho. destruct (Hfirst o Ho) as (d & Ed & En & Hdl & Hd).
    destruct (Hdata d Hd) as (sv1 & sv2 & E1 & E2). rewrite En in E2. exists d, sv1, sv2. auto.
Qed.

(** ** Evaluation *)

Section Denote.
Context `{M : Libm}.

(** The element-wise meaning of an expression of [double] arrays and integer
    constants: each node is the operation it is named after, in the arithmetic
    of IEEE 754 and of the C library. *)
Fixpoint denote (e : ds_expr) (pos : Z) : spec_float :=
  match e with
  | Expr op pay _ sub _ =>
      match op, pay, sub with
      | DS_OP_OBJ, P_od od, _ => default dzero (read_double (ob_data od) pos)
      | DS_OP_ICONST, P_word w, _ => of_long (i64 w)
      | DS_OP_ARCTAN, _, [a] => libm_atan (denote a pos)
      | DS_OP_ADD, _, [a; b] => SFadd 53 1024 (denote a pos) (denote b pos)
      | DS_OP_SUB, _, [a; b] => SFsub 53 1024 (denote a pos) (denote b pos)
      | DS_OP_MULT, _, [a; b] => SFmul 53 1024 (denote a pos) (denote b pos)
      | DS_OP_DIV, _, [a; b] => SFdiv 53 1024 (denote a pos) (denote b pos)
      | DS_OP_POW, _, [a; b] => libm_pow (denote a pos) (denote b pos)
      | _, _, _ => dzero
      end
  end.

(** Expressions over arrays of [n] doubles as the constructors build them; an
    integer constant meets a real operand before anything else. *)
Inductive built (n : Z) : ds_expr -> Prop :=
| built_obj od : 8 * n <= Z.of_nat (length (ob_data od)) ->
    built n (Expr DS_OP_OBJ (P_od od) DS_VAL_REAL [] (8 * n))
| built_iconst val : built n (dspaces_op_new_iconst val)
| built_2arg op a b e : built n a -> built n b -> e_type a = DS_VAL_REAL \/ e_type b = DS_VAL_REAL ->
    dspaces_op_new_2arg op a b = Some e -> built n e
| built_arctan a : built n a -> e_type a = DS_VAL_REAL -> built n (dspaces_op_new_arctan a).

Lemma built_spec n e : 0 < n -> built n e -> forall pos, 0 <= pos < n ->
  (e_type e = DS_VAL_REAL /\ e_size e = 8 * n /\ ds_op_calc_rval e pos = Some (0, denote e pos)) \/
  (e_type e = DS_VAL_INT /\ e_size e = 4 /\ exists v, ds_op_calc_ival e pos = Some (0, v) /\ denote e pos = of_long v).
Proof.
  intros Hn Hb pos Hp. induction Hb as [od Hl|val|op a b e Ha IHa Hb IHb Hty He|a Ha IHa Hty].
  - left. split; [done|]. split; [done|]. cbn [ds_op_calc_rval denote].
    unfold read_double. destruct (Z.leb_spec 0 pos), (Z.leb_spec (8 * pos + 8) (Z.of_nat (length (ob_data od)))); try lia.
    done.
  - right. split; [done|]. split; [done|]. by exists (i64 val).
  - left. unfold dspaces_op_new_2arg in He. destruct (is_binary op) eqn:Hop; [|done]. simplify_eq/=.
    assert (Hop_a : operand_r (e_type a) (ds_op_calc_rval a pos) (ds_op_calc_ival a pos) = Some (0, denote a pos)).
    { destruct IHa as [(Et & _ & E)|(Et & _ & v & E & Ev)]; rewrite Et, E, ?Ev; done. }
    assert (Hop_b : operand_r (e_type b) (ds_op_calc_rval b pos) (ds_op_calc_ival b pos) = Some (0, denote b pos)).
    { destruct IHb as [(Et & _ & E)|(Et & _ & v & E & Ev)]; rewrite Et, E, ?Ev; done. }
    assert (Hreal : (e_type a =? DS_VAL_REAL) || (e_type b =? DS_VAL_REAL) = true).
    { destruct Hty as [->| ->]; [done|]. by rewrite orb_true_r. }
    rewrite Hreal. split; [done|]. split.
    + destruct IHa as [(Ea & Sa & _)|(Ea & Sa & _)], IHb as [(Eb & Sb & _)|(Eb & Sb & _)]; rewrite Sa, Sb.
      all: try (destruct (Z.ltb_spec (8 * n) (8 * n)); lia).
      * destruct (Z.ltb_spec 4 (8 * n)); lia.
      * destruct (Z.ltb_spec (8 * n) 4); lia.
      * exfalso. rewrite Ea, Eb in Hty. by destruct Hty.
    + change (negb (DS_VAL_REAL =? DS_VAL_REAL)) with false. cbn iota. rewrite Hop_a, Hop_b.
      by destruct op.
  - left. destruct IHa as [(Et & Es & E)|(Et & _)]; [|by rewrite Et in Hty].
    split; [done|]. split; [done|]. cbn [dspaces_op_new_arctan dspaces_op_new_1arg ds_op_calc_rval denote].
    change (negb (DS_VAL_REAL =? DS_VAL_REAL)) with false. cbn iota. rewrite Et, E. done.
Qed.

(** C23: The recursive evaluator agrees with the element-wise meaning: for an
    expression over arrays of [n] doubles the loop of [do_ops_rpc] fills a
    buffer of exactly [n] elements, without an error code, with the values
    of the expression at each position. *)
Theorem real_expr_evaluates n e :
  0 < n -> built n e -> e_type e = DS_VAL_REAL ->
  e_size e / 8 = n /\
  mapM (fun i => '(err, v) ← ds_op_calc_rval e (Z.of_nat i); Some (err, v)) (seq 0 (Z.to_nat (e_size e / 8)))
  = Some (map (fun i => (0, denote e (Z.of_nat i))) (seq 0 (Z.to_nat n))).
Proof.
  intros Hn Hb Ht. pose proof (built_spec n e Hn Hb) as Hs.
  assert (Hz : e_size e = 8 * n) by (destruct (Hs 0 ltac:(lia)) as [(_ & ? & _)|(E & _)]; [done|by rewrite Ht in E]).
  assert (Hd : e_size e / 8 = n) by (rewrite Hz, Z.mul_comm; by apply Z.div_mul).
  split; [done|]. rewrite Hd. apply mapM_Some. apply Forall2_fmap_r, Forall2_same_length_lookup_2; [done|].
  intros i x y Hx Hy. rewrite Hx in Hy. injection Hy as <-. apply lookup_seq in Hx as [-> Hi].
  destruct (Hs (Z.of_nat (0 + i)) ltac:(lia)) as [(_ & _ & ->)|(E & _)]; [done|by rewrite Ht in E].
Qed.
End Denote.

(** ** Concrete inputs *)

#[local] Instance demo_libm : Libm := { libm_pow a b := a; libm_atan a := a }.

#[local] Instance ops_env : Env := {
  env_fuel := 0;
  env_dim := 0;
  env_coord := zero_coord;
  env_malloc n := replicate n 0;
  env_py_exec _ _ _ := None;
  env_remote_get _ _ _ := None;
  env_lz4_compress _ := None
}.

(** An object as a tuple of countable parts. *)
Definition od_tuple (od : obj_data) :=
  let o := obj_desc od in
  ((od_name o, if od_st o is row_major then true else false, [od_flags o; od_tag o; od_type o], od_owner o),
   ([od_version o; od_size o], num_dims (od_bb o), lb (od_bb o), ub (od_bb o)),
   (ob_id od, gd_ndim (ob_gdim od), gd_sizes (ob_gdim od), refcnt od, f_free od)).

Definition tuple_od (t : (string * bool * list Z * string) * (list Z * nat * list Z * list Z)
    * (nat * nat * list Z * Z * bool)) : obj_data :=
  let '(a, b, c) := t in
  let '(name, st, fl, owner) := a in
  let '(vs, nd, l, u) := b in
  let '(id, gn, gs, r, f) := c in
  mkObj id (mkOdsc name (if st then row_major else column_major) (nth 0 fl 0) (nth 1 fl 0) (nth 2 fl 0) owner
              (nth 0 vs 0) (mkBBox nd l u) (nth 1 vs 0)) (mkGdim gn gs) [] r f.

Lemma tuple_od_tuple od :
  tuple_od (od_tuple od) = mkObj (ob_id od) (obj_desc od) (ob_gdim od) [] (refcnt od) (f_free od).
Proof. destruct od as [id [nm [] fl tg ty ow v [nd l u] sz] [gn gs] data r f]; reflexivity. Qed.

#[local] Instance demo_ops_proc : HgProcOps := {
  uint8_enc n := [n];
  uint8_dec buf := match buf with [] => None | n :: r => Some (n, r) end;
  uint64_enc n := [n];
  uint64_dec buf := match buf with [] => None | n :: r => Some (n, r) end;
  int32_enc n := [n];
  int32_dec buf := match buf with [] => None | n :: r => Some (n, r) end;
  int64_enc n := [n];
  int64_dec buf := match buf with [] => None | n :: r => Some (n, r) end;
  od_enc od := [Z.pos (encode (od_tuple od))];
  od_dec buf :=
    match buf with
    | Z.pos p :: r => t ← decode p; Some (tuple_od t, r)
    | _ => None
    end
}.

#[local] Instance demo_ops_laws : HgProcOpsLaws.
Proof.
  split; try done. intros od rest. unfold od_dec, od_enc, demo_ops_proc. cbn [app].
  rewrite decode_encode. cbn [mbind option_bind]. by rewrite tuple_od_tuple.
Defined.

(** Two doubles; version [v] of "x" holds [v] and 2. *)
Definition bits_of_int (v : Z) : Z := if v =? 1 then 4607182418800017408 else 4611686018427387904.

Definition x_odsc (v : Z) : obj_descriptor := mkOdsc "x" row_major 0 0 0 "addr" v (box2 0 0 1 0) 8.

Definition x_obj (v : Z) : obj_data :=
  mkObj (Z.to_nat v) (x_odsc v) zero_gdim (le_bytes 8 (bits_of_int v) ++ le_bytes 8 (bits_of_int 2)) 0 false.

Definition leaf (od : obj_data) : ds_expr := Expr DS_OP_OBJ (P_od od) DS_VAL_REAL [] (8 * 2).

(** [x + 3] and [x(version 2) - x(version 1)]. *)
Definition demo_sum : ds_expr :=
  Expr DS_OP_ADD (P_word 0) DS_VAL_REAL [leaf (x_obj 1); dspaces_op_new_iconst 3] (8 * 2).

Definition demo_diff : ds_expr :=
  Expr DS_OP_SUB (P_word 0) DS_VAL_REAL
    [leaf (mkObj 8 (x_odsc 2) zero_gdim [] 0 false); leaf (mkObj 9 (x_odsc 1) zero_gdim [] 0 false)] (8 * 2).

Lemma ds_expr_roundtrip_witness :
  ds_expr_decode 3 (ds_expr_encode demo_diff ++ [7]) = Some (demo_diff, true, [7]).
Proof.
  destruct (ds_expr_roundtrip demo_diff 3 [7]) as [H1 H2].
  - vm_compute. repeat split; discriminate.
  - cbn. lia.
  - rewrite H1, H2; [reflexivity|]. cbn. auto.
Defined.

Lemma real_expr_evaluates_witness :
  map (fun i => denote demo_sum (Z.of_nat i)) (seq 0 2) = [of_long 4; of_long 5] /\
  mapM (fun i => '(err, v) ← ds_op_calc_rval demo_sum (Z.of_nat i); Some (err, v)) (seq 0 (Z.to_nat (e_size demo_sum / 8)))
  = Some [(0, of_long 4); (0, of_long 5)].
Proof.
  split; [vm_compute; reflexivity|]. destruct (real_expr_evaluates 2 demo_sum) as [_ H].
  - lia.
  - apply (built_2arg 2 DS_OP_ADD (leaf (x_obj 1)) (dspaces_op_new_iconst 3)); [|apply built_iconst|left; reflexivity|reflexivity].
    apply built_obj. vm_compute. discriminate.
  - reflexivity.
  - etransitivity; [exact H|]. vm_compute. reflexivity.
Defined.

(** Both versions are stored here. *)
Definition ops_server : option server :=
  sv ← dsg_alloc 0 1 "addr" (mkConf 2 (2 :: 1 :: replicate 8 0) 4 ssd_hash_version_v2) [] [] 1;
  Some (set_stores (ls_add_obj (ls_add_obj (ls_alloc 4) (x_obj 1)) (x_obj 2)) (sv_ps sv) sv).

(** The difference of two versions reads one of them twice: 2 - 1 comes out
    as 0. *)
Lemma do_ops_operands_witness :
  exists sv sv' e', ops_server = Some sv /\
    stage_ods sv demo_diff (gather_op_ods demo_diff []) = Some (sv', e') /\
    (exists data, leaves e' = [data "x"%string; data "x"%string]) /\
    option_map snd (do_ops_rpc sv demo_diff) = Some (OR_real [dzero; dzero]).
Proof.
  destruct ops_server as [sv|] eqn:E0; [|vm_compute in E0; discriminate E0].
  destruct (stage_ods sv demo_diff (gather_op_ods demo_diff [])) as [[sv' e']|] eqn:E1;
    [|vm_compute in E0; injection E0 as <-; vm_compute in E1; discriminate E1].
  exists sv, sv', e'. split; [reflexivity|]. split; [exact E1|]. split.
  - destruct (do_ops_operands sv demo_diff sv' e' E1) as (_ & _ & data & H & _). exists data. exact H.
  - vm_compute in E0. injection E0 as <-. vm_compute. reflexivity.
Defined.

(** An object of [int]s is read as one of [double]s: of the two elements 1
    and 2 the first comes out as 0 and the second lies past the buffer. *)
Lemma int_object_misread :
  let od := mkObj 0 (mkOdsc "i" row_major 0 0 0 "" 1 (box2 0 0 1 0) 4) zero_gdim (le_bytes 4 1 ++ le_bytes 4 2) 0 false in
  let e := Expr DS_OP_OBJ (P_od od) DS_VAL_INT [] (4 * 2) in
  ds_op_calc_ival e 0 = Some (0, 0) /\ ds_op_calc_ival e 1 = None.
Proof. split; vm_compute; reflexivity. Qed.
