(* ===== verification/PyMods.v ===== *)
(** * PyMods: running a module in Python

    The Python half of [src/src/dspaces-modules.c]: loading the modules
    ([dspaces_init_mods], [dspaces_init_py_mod]), arguments as Python objects
    ([py_obj_from_arg]), the call ([dspaces_module_py_exec]) and results
    ([py_res_to_ret]), with the interpreter and NumPy behind an interface.  The
    theorems follow an array from the interpreter into the store: every
    element of the array a module returns is the cell of the stored object at
    the matching point, in either of NumPy's memory orders. *)

From Stdlib Require Import Ascii.
From S2P Require Import Prelude BBox ObjDesc Linear Sspace DhtEntry StrHash LocalStorage Matrix Codec Modules Server Cluster Client Access EndToEnd Exec ModCalls.

(** ** NumPy arrays *)

(** What the functions of NumPy's interface tell of an array; [np_data] is
    the memory from [PyArray_DATA] on. *)
Record numpy := mkNumpy {
  np_c_contiguous : bool;
  np_f_contiguous : bool;
  np_dims : list Z;
  np_strides : list Z;
  np_type : Z;
  np_itemsize : Z;
  np_data : list Z
}.

(** NumPy's memory model: an element is found at the sum of the strides. *)
Definition np_offset (a : numpy) (idx : list Z) : Z :=
  fold_right Z.add 0 (map (fun ks => fst ks * snd ks) (combine idx (np_strides a))).

Definition slice (off len : Z) (l : list Z) : list Z := take (Z.to_nat len) (drop (Z.to_nat off) l).

Definition np_item (a : numpy) (idx : list Z) : list Z := slice (np_offset a idx) (np_itemsize a) (np_data a).

Definition in_range (dims idx : list Z) : Prop := Forall2 (fun d k => 0 <= k < d) dims idx.

(** ** The interpreter *)

(** [json_loads] is [None] when the text is malformed, [import_module] when
    the import fails, [py_call] when an exception was raised; [as_array] is
    [None] for an object that is not an array; [dim_block] is the number of
    bytes behind the pointer that [malloc] returns for 8. *)
Class Python := {
  pyobj : Type;
  Py_None : pyobj;
  is_Py_None : pyobj -> bool;
  PyFloat_FromDouble : Z -> pyobj;
  PyLong_FromLong : Z -> pyobj;
  PyBool_FromLong : Z -> pyobj;
  PyTuple : list pyobj -> pyobj;
  PyUnicode_DecodeFSDefault : string -> pyobj;
  import_json : bool;
  json_loads : string -> option pyobj;
  import_module : string -> option pyobj;
  PyObject_GetAttrString : pyobj -> string -> option pyobj;
  PyCallable_Check : pyobj -> bool;
  py_call : pyobj -> list (string * pyobj) -> option pyobj;
  PyLong_AsLong : pyobj -> Z;
  as_array : pyobj -> option numpy;
  dim_block : Z
}.

Inductive ret_type := DSPACES_MOD_RET_ARRAY | DSPACES_MOD_RET_INT | DSPACES_MOD_RET_NONE | DSPACES_MOD_RET_ERR.

(** [struct dspaces_module_ret]. *)
Inductive py_ret := PR_array (r : mod_array) | PR_int (v : Z) | PR_err (err : Z).

Definition DS_MOD_ENODEF : Z := -2.

Section Run.
Context `{P : Python}.

(** ** Loading *)

(** [pModule], which starts as null. *)
Definition dspaces_init_py_mod (m : dspaces_module) : option pyobj :=
  file ← mod_file m; import_module file.

Definition ds_reg_mod : dspaces_module := mkModule "ds_reg" (Some "ds_reg"%string) (Some "ds_reg"%string) 0.

Definition add_builtin_mods (mods : list dspaces_module) : list dspaces_module := ds_reg_mod :: mods.

Definition dspaces_init_mods (mods : list dspaces_module) : list (dspaces_module * option pyobj) :=
  map (fun m => (m, if mod_type m =? 0 then dspaces_init_py_mod m else None)) (add_builtin_mods mods).

(** ** Arguments *)

(** One value, or a tuple of [len] of them. *)
Definition py_number (from : Z -> pyobj) (a : module_arg) : option pyobj :=
  match arg_val a with
  | AU_word w => if arg_len a =? -1 then Some (from w) else None
  | AU_array l =>
      if (0 <=? arg_len a) && (arg_len a <=? Z.of_nat (length l))
      then Some (PyTuple (map from (take (Z.to_nat (arg_len a)) l))) else None
  | _ => None
  end.

(** [py_obj_from_arg]; the inner [None] is a null pointer. *)
Definition py_obj_from_arg (a : module_arg) : option (option pyobj) :=
  match arg_ty a with
  | DSPACES_ARG_REAL => o ← py_number PyFloat_FromDouble a; Some (Some o)
  | DSPACES_ARG_INT => o ← py_number PyLong_FromLong a; Some (Some o)
  | DSPACES_ARG_BOOL => o ← py_number PyBool_FromLong a; Some (Some o)
  | DSPACES_ARG_STR =>
      match arg_val a with AU_str s => Some (Some (PyUnicode_DecodeFSDefault s)) | _ => None end
  | DSPACES_ARG_JSON =>
      if negb import_json then Some (Some Py_None)
      else match arg_val a with
           | AU_str s => Some (json_loads (String.substring 0 (Z.to_nat (arg_len a - 1)) s))
           | _ => None
           end
  | DSPACES_ARG_NONE => Some (Some Py_None)
  end.

(** [PyDict_SetItem]: the value of a key that is there is replaced. *)
Fixpoint dict_set (d : list (string * pyobj)) (k : string) (v : pyobj) : list (string * pyobj) :=
  match d with
  | [] => [(k, v)]
  | (k', v') :: d => if String.eqb k' k then (k, v) :: d else (k', v') :: dict_set d k v
  end.

(** The loop over the arguments; a null value is undefined. *)
Fixpoint build_kwargs (d : list (string * pyobj)) (args : list module_arg) : option (list (string * pyobj)) :=
  match args with
  | [] => Some d
  | a :: args =>
      o ← py_obj_from_arg a;
      o ← o;
      build_kwargs (dict_set d (arg_name a) o) args
  end.

(** ** Results *)

(** The loop of [py_res_buf] over the product; [len] is an [int]. *)
Definition res_len (dims : list Z) : Z := fold_left (fun len d => i32 (len * d)) dims 1.

(** [py_res_buf]: [None] is undefined: dimensions beyond the block of 8 bytes
    that [malloc(sizeof(ret->dim[0] * ret->ndim))] asks for, a size that
    overflows, or one beyond the array's memory. *)
Definition py_res_buf (a : numpy) : option (option mod_array) :=
  match (if np_c_contiguous a then Some row_major else if np_f_contiguous a then Some column_major else None) with
  | None => Some None
  | Some st =>
      let ndim := length (np_dims a) in
      if dim_block <? 8 * Z.of_nat ndim then None
      else
        let dim := map u64 (match st with column_major => np_dims a | row_major => rev (np_dims a) end) in
        let len := res_len (np_dims a) in
        let elem_size := i32 (np_itemsize a) in
        let data_len := len * elem_size in
        if (data_len <? 0) || (2 ^ 31 <=? data_len) || (Z.of_nat (length (np_data a)) <? data_len) then None
        else Some (Some (mkRet len dim ndim (np_type a) elem_size st (take (Z.to_nat data_len) (np_data a))))
  end.

Definition py_res_to_ret (o : pyobj) (ty : ret_type) : option (option py_ret) :=
  if is_Py_None o then Some None
  else match ty with
       | DSPACES_MOD_RET_ARRAY => a ← as_array o; r ← py_res_buf a; Some (option_map PR_array r)
       | DSPACES_MOD_RET_INT => Some (Some (PR_int (i64 (PyLong_AsLong o))))
       | DSPACES_MOD_RET_NONE | DSPACES_MOD_RET_ERR => Some None
       end.

(** ** The call *)

(** [dspaces_module_py_exec]: the result, null for [None], and the number of
    times the caller's thread holds the lock of the interpreter afterwards. *)
Definition dspaces_module_py_exec (m : dspaces_module * option pyobj) (operation : string) (args : list module_arg)
    (ty : ret_type) : option (option py_ret * Z) :=
  let held := 1 in
  match snd m with
  | None => Some (Some (PR_err DS_MOD_ENOMOD), held)
  | Some pModule =>
      match PyObject_GetAttrString pModule operation with
      | None => Some (Some (PR_err DS_MOD_ENODEF), held)
      | Some pFunc =>
          if negb (PyCallable_Check pFunc) then Some (Some (PR_err DS_MOD_ENODEF), held)
          else
            kwargs ← build_kwargs [] args;
            match py_call pFunc kwargs with
            | None => Some (Some (PR_err DS_MOD_EFAULT), held - 1)
            | Some pResult => ret ← py_res_to_ret pResult ty; Some (ret, held - 1)
            end
      end
  end.

(** What the request handlers call: [dspaces_module_exec] for an array and
    for an integer. *)
Definition py_exec_array (m : dspaces_module * option pyobj) (operation : string) (args : list module_arg)
    : option (option module_ret) :=
  '(r, _) ← dspaces_module_py_exec m operation args DSPACES_MOD_RET_ARRAY;
  match r with
  | None => Some None
  | Some (PR_array r) => Some (Some (MR_array r))
  | Some (PR_err e) => Some (Some (MR_err e))
  | Some (PR_int _) => None
  end.
End Run.

(** ** Lemmas on offsets *)

Definition zprodl (l : list Z) : Z := fold_right Z.mul 1 l.

Lemma zprodl_app l l' : zprodl (l ++ l') = zprodl l * zprodl l'.
Proof.
  induction l as [|x l IH]; [change (zprodl []) with 1; cbn [app]; lia|]. cbn [app].
  change (x * zprodl (l ++ l') = x * zprodl l * zprodl l'). rewrite IH. ring.
Qed.

Lemma zprodl_rev l : zprodl (rev l) = zprodl l.
Proof. induction l as [|x l IH]; [done|]. cbn [rev]. rewrite zprodl_app, IH. change (zprodl l * (x * 1) = x * zprodl l). ring. Qed.

Lemma zprodl_pos l : Forall (fun d => 0 < d) l -> 0 < zprodl l.
Proof. induction 1 as [|x l Hx H IH]; [done|]. by apply Z.mul_pos_pos. Qed.

Lemma zprod_dim_at l : zprod (length l) (dim_at l) = zprodl l.
Proof.
  induction l as [|x l IH] using rev_ind; [done|]. rewrite length_app, Nat.add_1_r, zprodl_app. cbn [zprod]. change (zprodl [x]) with (x * 1).
  rewrite (zprod_ext _ _ (dim_at l)), IH.
  - unfold dim_at at 1. rewrite nth_middle. ring.
  - intros i Hi. unfold dim_at. by rewrite app_nth1.
Qed.

Lemma zprodl_in l d : Forall (fun d => 0 < d) l -> d ∈ l -> 0 < d <= zprodl l.
Proof.
  induction 1 as [|x l Hx H IH]; intros Hd; [by apply list_elem_of_In in Hd|].
  pose proof (zprodl_pos l H). change (zprodl (x :: l)) with (x * zprodl l). apply list_elem_of_In in Hd as [->|Hd]; [nia|].
  apply list_elem_of_In in Hd. specialize (IH Hd). nia.
Qed.

Lemma res_len_spec l : Forall (fun d => 0 < d) l -> zprodl l < 2 ^ 31 -> res_len l = zprodl l.
Proof.
  intros Hl. unfold res_len. rewrite <- (Z.mul_1_l (zprodl l)). assert (H1 : 0 < 1) by lia. revert H1. generalize 1 as acc.
  induction Hl as [|d l Hd Hl IH]; intros acc Ha Hs; [change (zprodl []) with 1; cbn [fold_left]; lia|].
  change (zprodl (d :: l)) with (d * zprodl l) in *. cbn [fold_left].
  pose proof (zprodl_pos l Hl). rewrite i32_small by nia. rewrite IH; [ring|nia|]. rewrite <- Z.mul_assoc. done.
Qed.

Lemma nd_offset_from dims idx : length dims = length idx -> forall off,
  fold_left (fun off dk => off * fst dk + snd dk) (combine dims idx) off = off * zprodl dims + nd_offset dims idx.
Proof.
  unfold nd_offset. revert idx. induction dims as [|d dims IH]; intros [|k idx] Hl off; try done; cbn [combine fold_left]; [change (zprodl []) with 1; lia|].
  change (zprodl (d :: dims)) with (d * zprodl dims). injection Hl as Hl. cbn [fst snd]. rewrite (IH idx Hl (off * d + k)), (IH idx Hl (0 * d + k)). ring.
Qed.

Lemma nd_offset_bound dims idx : in_range dims idx -> 0 <= nd_offset dims idx < zprodl dims.
Proof.
  induction 1 as [|d k dims idx Hk H IH]; [done|]. unfold nd_offset. cbn [combine fold_left fst snd].
  rewrite nd_offset_from by (by eapply Forall2_length). change (zprodl (d :: dims)) with (d * zprodl dims). nia.
Qed.

Lemma in_range_rev dims idx : in_range dims idx -> in_range (rev dims) (rev idx).
Proof. intros H. induction H as [|d k dims idx Hk H IH]; cbn; [constructor|]. apply Forall2_app; [done|by constructor]. Qed.

Lemma slice_take off len n l : 0 <= off -> 0 <= len -> off + len <= Z.of_nat n -> slice off len (take n l) = slice off len l.
Proof.
  intros Ho Hl Hn. unfold slice. rewrite skipn_firstn_comm, take_take. f_equal. lia.
Qed.

(** ** An array in the store *)

Section Arrays.
Context `{P : Python}.

(** An array the code can take: what the flags of NumPy promise of its
    strides, and sizes within the code's integers and its block. *)
Record array_ok (a : numpy) : Prop := {
  ao_ndim : (1 <= length (np_dims a) <= 9)%nat;
  ao_block : 8 * Z.of_nat (length (np_dims a)) <= dim_block;
  ao_dims : Forall (fun d => 0 < d) (np_dims a);
  ao_item : 0 < np_itemsize a;
  ao_small : np_itemsize a * zprodl (np_dims a) < 2 ^ 31;
  ao_data : np_itemsize a * zprodl (np_dims a) <= Z.of_nat (length (np_data a));
  ao_order : np_c_contiguous a = true \/ np_f_contiguous a = true;
  ao_c : np_c_contiguous a = true -> forall idx, in_range (np_dims a) idx ->
    np_offset a idx = np_itemsize a * nd_offset (np_dims a) idx;
  ao_f : np_f_contiguous a = true -> forall idx, in_range (np_dims a) idx ->
    np_offset a idx = np_itemsize a * nd_offset (rev (np_dims a)) (rev idx)
}.

(** Sizes and points as DataSpaces counts them, the fastest dimension first. *)
Definition ds_sizes (a : numpy) : list Z := if np_c_contiguous a then rev (np_dims a) else np_dims a.
Definition ds_point (a : numpy) (idx : list Z) : list Z := if np_c_contiguous a then rev idx else idx.

(** The cell of a point in a buffer of [sizes]. *)
Definition cell (size : Z) (sizes point buf : list Z) : list Z := slice (size * nd_offset (rev sizes) (rev point)) size buf.

Lemma array_item a idx : array_ok a -> in_range (np_dims a) idx ->
  np_item a idx = cell (np_itemsize a) (ds_sizes a) (ds_point a idx)
                    (take (Z.to_nat (np_itemsize a * zprodl (np_dims a))) (np_data a)).
Proof.
  intros Ha Hi. pose proof (ao_item a Ha) as Hs. unfold np_item, cell, ds_sizes, ds_point.
  destruct (np_c_contiguous a) eqn:Hc.
  - rewrite (ao_c a Ha Hc idx Hi), !rev_involutive. pose proof (nd_offset_bound _ _ Hi). rewrite slice_take; [done|nia..].
  - destruct (ao_order a Ha) as [Hc'|Hf]; [congruence|]. rewrite (ao_f a Ha Hf idx Hi).
    pose proof (nd_offset_bound _ _ (in_range_rev _ _ Hi)) as Hb. rewrite zprodl_rev in Hb. rewrite slice_take; [done|nia..].
Qed.

Lemma ds_sizes_facts a : array_ok a ->
  length (ds_sizes a) = length (np_dims a) /\ zprodl (ds_sizes a) = zprodl (np_dims a) /\
  Forall (fun d => 0 < d < 2 ^ 31) (ds_sizes a).
Proof.
  intros Ha. pose proof (ao_dims a Ha) as Hd. pose proof (ao_item a Ha). pose proof (ao_small a Ha).
  assert (Hall : Forall (fun d => 0 < d < 2 ^ 31) (np_dims a)).
  { apply Forall_forall. intros d Hin. pose proof (zprodl_in _ _ Hd Hin). nia. }
  unfold ds_sizes. destruct (np_c_contiguous a); [|done].
  rewrite length_rev, zprodl_rev. split; [done|]. split; [done|]. by apply Forall_rev.
Qed.

Lemma map_u64_small l : Forall (fun d => 0 < d < 2 ^ 31) l -> map u64 l = l.
Proof. induction 1 as [|d l Hd H IH]; cbn; [done|]. rewrite IH, u64_small by lia. done. Qed.

(** [py_res_buf] hands on an array whole. *)
Lemma py_res_buf_ok a : array_ok a -> exists r,
  py_res_buf a = Some (Some r) /\ result_ok r /\
  ret_ndim r = length (np_dims a) /\ ret_dim r = ds_sizes a /\ ret_tag r = np_type a /\ ret_elem_size r = np_itemsize a /\
  ret_data r = take (Z.to_nat (np_itemsize a * zprodl (np_dims a))) (np_data a).
Proof.
  intros Ha. destruct (ds_sizes_facts a Ha) as (Hl & Hp & Hd). pose proof Ha as [Hn Hb Hpos Hi Hs Hdat Ho _ _].
  pose proof (zprodl_pos _ Hpos) as Hpp. set (st := if np_c_contiguous a then row_major else column_major).
  exists (mkRet (zprodl (np_dims a)) (ds_sizes a) (length (np_dims a)) (np_type a) (np_itemsize a) st
    (take (Z.to_nat (np_itemsize a * zprodl (np_dims a))) (np_data a))).
  split; [|split; [|done]].
  - unfold py_res_buf.
    replace (if np_c_contiguous a then Some row_major else if np_f_contiguous a then Some column_major else None) with (Some st)
      by (unfold st; destruct (np_c_contiguous a); [done|]; destruct Ho as [Ho| ->]; [done|done]).
    cbv iota beta. destruct (Z.ltb_spec dim_block (8 * Z.of_nat (length (np_dims a)))); [lia|].
    rewrite res_len_spec by (done || nia). rewrite i32_small by nia. rewrite (Z.mul_comm (zprodl _)).
    destruct (Z.ltb_spec (np_itemsize a * zprodl (np_dims a)) 0); [nia|].
    destruct (Z.leb_spec (2 ^ 31) (np_itemsize a * zprodl (np_dims a))); [lia|].
    destruct (Z.ltb_spec (Z.of_nat (length (np_data a))) (np_itemsize a * zprodl (np_dims a))); [lia|]. cbn [orb].
    replace (map u64 _) with (ds_sizes a); [done|].
    rewrite <- (map_u64_small _ Hd). unfold ds_sizes, st. by destruct (np_c_contiguous a).
  - split; cbn [ret_ndim ret_dim ret_elem_size ret_data]; [lia| |lia| |]; rewrite <- ?Hl, ?zprod_dim_at, ?Hp; [| |lia].
    + intros i Hi'. rewrite Forall_lookup in Hd. destruct (lookup_lt_is_Some_2 (ds_sizes a) i Hi') as [d Hdi].
      unfold dim_at. rewrite (nth_lookup_Some _ _ _ _ Hdi). specialize (Hd i d Hdi). lia.
    + rewrite length_take. nia.
Qed.
End Arrays.

(** ** Properties *)

Section Properties.
Context `{P : Python}.

(** The lock of the interpreter is kept exactly on the two early returns: a
    module that was not loaded and a function that is not there.  The next
    call from another thread then waits in [PyGILState_Ensure] for ever. *)
Lemma py_exec_keeps_lock m operation args ty r held :
  dspaces_module_py_exec m operation args ty = Some (r, held) ->
  (held = 1 /\ (r = Some (PR_err DS_MOD_ENOMOD) \/ r = Some (PR_err DS_MOD_ENODEF))) \/
  (held = 0 /\ r <> Some (PR_err DS_MOD_ENOMOD) /\ r <> Some (PR_err DS_MOD_ENODEF)).
Proof.
  unfold dspaces_module_py_exec. destruct (snd m) as [pm|]; [|intros [= <- <-]; left; auto].
  destruct (PyObject_GetAttrString pm operation) as [f|]; [|intros [= <- <-]; left; auto].
  destruct (PyCallable_Check f); cbn [negb]; [|intros [= <- <-]; left; auto].
  destruct (build_kwargs [] args) as [kw|]; [|done]. cbn [mbind option_bind].
  destruct (py_call f kw) as [o|]; [|intros [= <- <-]; right; split; [done|split; discriminate]].
  destruct (py_res_to_ret o ty) as [ret|] eqn:Hr; [|done]. cbn [mbind option_bind]. intros [= <- <-]. right. split; [done|].
  assert (G : forall e, ret <> Some (PR_err e)); [|split; apply G].
  intros e ->. revert Hr. unfold py_res_to_ret. destruct (is_Py_None o); [done|]. destruct ty; try done.
  destruct (as_array o) as [a|]; [|done]. cbn [mbind option_bind]. destruct (py_res_buf a) as [[r|]|]; done.
Qed.

(** The registry module of the server comes before a configured one of the
    same name. *)
Lemma builtin_first mods : dspaces_mod_by_name (add_builtin_mods mods) "ds_reg" = Some ds_reg_mod.
Proof. done. Qed.

(** A call that returns an array. *)
Definition returns_array (m : dspaces_module) (pModule : option pyobj) (operation : string) (args : list module_arg) (a : numpy) : Prop :=
  exists pm f kwargs o,
    pModule = Some pm /\ PyObject_GetAttrString pm operation = Some f /\ PyCallable_Check f = true /\
    build_kwargs [] args = Some kwargs /\ py_call f kwargs = Some o /\ is_Py_None o = false /\ as_array o = Some a.

Lemma exec_returns_array m pModule operation args a : returns_array m pModule operation args a -> array_ok a ->
  exists r, py_exec_array (m, pModule) operation args = Some (Some (MR_array r)) /\ result_ok r /\
    ret_ndim r = length (np_dims a) /\ ret_dim r = ds_sizes a /\ ret_tag r = np_type a /\ ret_elem_size r = np_itemsize a /\
    ret_data r = take (Z.to_nat (np_itemsize a * zprodl (np_dims a))) (np_data a).
Proof.
  intros (pm & f & kwargs & o & -> & Hf & Hc & Hk & Ho & Hn & Hao) Ha.
  destruct (py_res_buf_ok a Ha) as (r & Hr & Hrest). exists r. split; [|exact Hrest].
  unfold py_exec_array, dspaces_module_py_exec. cbn [snd]. rewrite Hf, Hc. cbn [negb]. rewrite Hk. cbn [mbind option_bind].
  rewrite Ho. unfold py_res_to_ret. rewrite Hn, Hao. cbn [mbind option_bind]. by rewrite Hr.
Qed.

(** C36: an array travels from a Python module to the client that asked for
    it: when the module's [pquery], run by the server on the client's
    parameters, returns a NumPy array, the request that
    [dspaces_get_module] returns has its element size and type, its
    dimensions (reversed for the row-major order), and the cell of every
    point is the element of the array at that index, whichever of the two
    memory orders the array has. *)
Theorem module_array_reaches_client `{E : Env} `{CE : ClientEnv} sv m pModule c module params args a sv' out rep :
  lz4_ok -> ls_inv (sv_ls sv) -> sv_remotes sv = [] -> cl_nspace c = None ->
  dspaces_mod_by_name (sv_mods sv) module = Some m -> mod_type m = 0 ->
  build_module_args_from_dict (sort_params params) = Some args ->
  py_exec_array (m, pModule) "pquery" args = Some (env_py_exec m "pquery" args) ->
  returns_array m pModule "pquery" args a -> array_ok a ->
  get_mod_rpc sv module (sort_params params) = Some (sv', out, rep) ->
  exists req buf, dspaces_get_module (fun n p => option_map snd (get_mod_rpc sv n p)) (fun o => get_rpc sv' o false)
      c module params = Some (0, Some req) /\
    req_elem_size req = np_itemsize a /\ req_tag req = np_type a /\ req_buf req = Some buf /\
    req_lb req = map (fun _ => 0) (ds_sizes a) /\ req_ub req = map (fun d => d - 1) (ds_sizes a) /\
    forall idx, in_range (np_dims a) idx ->
      np_item a idx = cell (np_itemsize a) (map (fun u => u + 1) (req_ub req)) (ds_point a idx) buf.
Proof.
  intros Hlz Hi Hrem Hns Hm Ht Hargs Hpy Hret Ha Hcall.
  destruct (exec_returns_array _ _ _ _ _ Hret Ha) as (r & Hr & Hok & Hnd & Hdim & Htag & Hsz & Hdata).
  rewrite Hr in Hpy. injection Hpy as Hpy. symmetry in Hpy.
  destruct (get_module_ok sv m c module params args r sv' out rep Hlz Hi Hrem Hns Hm Ht Hargs Hpy Hok Hcall)
    as (req & Hreq & _ & _ & Hlb & Hub & He & Htg & Hb).
  destruct (ds_sizes_facts a Ha) as (Hl & _ & _).
  assert (Hub' : req_ub req = map (fun d => d - 1) (ds_sizes a)).
  { rewrite Hub, Hnd, <- Hl, Hdim. generalize (ds_sizes a) as l. clear.
    intros l. apply list_eq_same_length with (length l); rewrite ?length_map, ?length_seq; [done..|].
    intros i x y Hi. rewrite !list_lookup_fmap, lookup_seq_lt by done. cbn [fmap option_fmap option_map Nat.add].
    destruct (l !! i) as [d|] eqn:Hd; [|done]. cbn. unfold dim_at. rewrite (nth_lookup_Some _ _ _ _ Hd). congruence. }
  exists req, (ret_data r). split; [exact Hreq|]. split; [congruence|]. split; [congruence|]. split; [exact Hb|].
  split; [|split; [exact Hub'|]].
  - rewrite Hlb, Hnd, <- Hl. generalize (ds_sizes a) as l. clear. induction l as [|d l IH]; cbn; [done|]. by rewrite IH.
  - intros idx Hin. rewrite Hub', map_map, (map_ext _ (fun d => d)), map_id, Hdata by (intros; lia). by apply array_item.
Qed.
End Properties.

(** ** A concrete interpreter *)

#[local] Existing Instance mod_env.
#[local] Existing Instance mod_client_env.

#[local] Set Warnings "-register-all".

Inductive demo_obj := DO_none | DO_int (z : Z) | DO_text (s : string) | DO_tuple (l : list demo_obj)
  | DO_module (s : string) | DO_fun (s : string) | DO_array (a : numpy).

(** Two rows of three bytes, row-major and column-major. *)
Definition demo_c : numpy := mkNumpy true false [2; 3] [3; 1] 7 1 [1; 2; 3; 4; 5; 6].
Definition demo_f : numpy := mkNumpy false true [2; 3] [1; 2] 7 1 [1; 4; 2; 5; 3; 6].

#[local] Instance demo_python : Python := {|
  pyobj := demo_obj;
  Py_None := DO_none;
  is_Py_None o := match o with DO_none => true | _ => false end;
  PyFloat_FromDouble := DO_int;
  PyLong_FromLong := DO_int;
  PyBool_FromLong := DO_int;
  PyTuple := DO_tuple;
  PyUnicode_DecodeFSDefault := DO_text;
  import_json := true;
  json_loads _ := None;
  import_module s := if String.eqb s "missing" then None else Some (DO_module s);
  PyObject_GetAttrString o f := match o with DO_module _ => if String.eqb f "pquery" then Some (DO_fun f) else None | _ => None end;
  PyCallable_Check o := match o with DO_fun _ => true | _ => false end;
  py_call _ kwargs := match kwargs with [] => None | (_, DO_int 9) :: _ => Some DO_none | _ => Some (DO_array demo_c) end;
  PyLong_AsLong o := match o with DO_int z => z | _ => -1 end;
  as_array o := match o with DO_array a => Some a | _ => None end;
  dim_block := 24
|}.

(** Both orders hold the same table. *)
Example demo_orders : map (np_item demo_c) [[0; 0]; [0; 2]; [1; 0]; [1; 2]] = map (np_item demo_f) [[0; 0]; [0; 2]; [1; 0]; [1; 2]].
Proof. reflexivity. Qed.

Lemma demo_index (P : list Z -> Prop) :
  (forall i j, 0 <= i < 2 -> 0 <= j < 3 -> P [i; j]) -> forall idx, in_range [2; 3] idx -> P idx.
Proof.
  intros H idx Hin. apply Forall2_cons_inv_l in Hin as (i & l & Hi & Hin & ->). apply Forall2_cons_inv_l in Hin as (j & l' & Hj & Hin & ->).
  apply Forall2_nil_inv_l in Hin as ->. by apply H.
Qed.

Lemma demo_c_ok : array_ok demo_c.
Proof.
  split; cbn [demo_c np_c_contiguous np_f_contiguous np_dims np_itemsize np_data length]; try done.
  - lia.
  - by repeat constructor.
  - by left.
  - intros _. apply demo_index. intros i j _ _. unfold np_offset, nd_offset. cbn. lia.
Qed.

Lemma module_array_reaches_client_witness :
  exists sv' out rep req buf,
    get_mod_rpc mod_server "table" (sort_params [int_param "b" 3; int_param "a" 2]) = Some (sv', out, rep) /\
    dspaces_get_module (fun n p => option_map snd (get_mod_rpc mod_server n p)) (fun o => get_rpc sv' o false)
      mod_client "table" [int_param "b" 3; int_param "a" 2] = Some (0, Some req) /\
    req_buf req = Some buf /\ req_ub req = [2; 1] /\ cell 1 [3; 2] [2; 1] buf = [6].
Proof.
  destruct (get_mod_rpc mod_server "table" (sort_params [int_param "b" 3; int_param "a" 2])) as [[[sv' out] rep]|] eqn:Ecall;
    [|vm_compute in Ecall; discriminate Ecall].
  destruct (module_array_reaches_client (P := demo_python) mod_server (mkModule "table" None (Some "table_mod"%string) 0) (Some (DO_module "table_mod"))
    mod_client "table" [int_param "b" 3; int_param "a" 2] [int_arg "a" 2; int_arg "b" 3] demo_c sv' out rep)
    as (req & buf & H1 & _ & _ & H2 & _ & H3 & H4);
    [by intros ? ?|apply mod_server_inv|reflexivity|reflexivity|reflexivity|reflexivity|reflexivity|reflexivity| |exact demo_c_ok|exact Ecall|].
  - exists (DO_module "table_mod"), (DO_fun "pquery"), [("a"%string, DO_int 2); ("b"%string, DO_int 3)], (DO_array demo_c).
    repeat (split; [reflexivity|]). reflexivity.
  - exists sv', out, rep, req, buf. split; [done|]. split; [done|]. split; [done|]. split; [exact H3|].
    specialize (H4 [1; 2] ltac:(repeat constructor; lia)). rewrite H3 in H4. symmetry. exact H4.
Defined.

(** Three calls after one another: a function that is not there keeps the
    lock, the others do not; [None] is a null pointer. *)
Example demo_calls :
  map (fun op => dspaces_module_py_exec (P := demo_python) (ds_reg_mod, Some (DO_module "m")) (fst op) (snd op) DSPACES_MOD_RET_ARRAY)
    [("query"%string, [int_arg "a" 2]); ("pquery"%string, []); ("pquery"%string, [int_arg "a" 9])]
  = [Some (Some (PR_err DS_MOD_ENODEF), 1); Some (Some (PR_err DS_MOD_EFAULT), 0); Some (None, 0)].
Proof. reflexivity. Qed.

(** With no more than the eight bytes asked for, two dimensions are already
    written past the block; a malformed JSON argument is a null pointer in
    the dictionary. *)
Example demo_undefined :
  (let P8 : Python := {|
     pyobj := demo_obj; Py_None := DO_none; is_Py_None _ := false; PyFloat_FromDouble := DO_int; PyLong_FromLong := DO_int;
     PyBool_FromLong := DO_int; PyTuple := DO_tuple; PyUnicode_DecodeFSDefault := DO_text; import_json := true;
     json_loads _ := None; import_module _ := None; PyObject_GetAttrString _ _ := None; PyCallable_Check _ := false;
     py_call _ _ := None; PyLong_AsLong _ := 0; as_array _ := None; dim_block := 8 |} in
   py_res_buf (P := P8) demo_c) = None /\
  build_kwargs (P := demo_python) [] [mkArg "j" DSPACES_ARG_JSON 2 (AU_str "{")] = None.
Proof. split; reflexivity. Qed.
