(* ===== verification/Messages.v ===== *)
(** * Messages: the structures of the requests, as they travel

    The structures that [src/include/ss_data.h] and
    [src/include/dspaces-ops.h] declare with [MERCURY_GEN_PROC]: the macro
    makes an encoding that takes the fields in the order of the declaration.
    Composed from the encodings of [Codec] and [Ops], and with the
    registrations of [Rpc]: whatever a client or server sends arrives as it
    was sent. *)

From S2P Require Import Prelude BBox ObjDesc Codec Ops Rpc.

(** ** Fields *)

Inductive field :=
  | F_int32 | F_uint8 | F_uint64 | F_size | F_string | F_bulk | F_odsc_hdr | F_odsc_hdr_with_gdim
  | F_dsp_dict | F_dsp_buf | F_name_list | F_ds_expr.

(** The declarations. *)
Definition proc_fields (p : proc) : list field :=
  match p with
  | bulk_gdim_t => [F_odsc_hdr_with_gdim; F_bulk]
  | bulk_in_t => [F_odsc_hdr; F_bulk; F_uint8]
  | bulk_out_t => [F_int32; F_size]
  | put_meta_in_t => [F_string; F_int32; F_int32; F_bulk]
  | query_meta_in_t => [F_string; F_int32; F_uint8]
  | query_meta_out_t => [F_dsp_buf; F_int32]
  | peek_meta_in_t => [F_string]
  | peek_meta_out_t => [F_int32]
  | odsc_gdim_t => [F_odsc_hdr_with_gdim; F_int32]
  | odsc_list_t => [F_odsc_hdr; F_int32]
  | pexec_in_t => [F_odsc_hdr; F_bulk; F_int32; F_string]
  | pexec_out_t => [F_bulk; F_int32; F_uint64; F_uint64]
  | ss_information => [F_odsc_hdr; F_string]
  | cond_in_t => [F_uint64; F_uint64]
  | get_var_objs_in_t => [F_string; F_int32]
  | reg_in_t => [F_string; F_string; F_string; F_int32; F_uint64]
  | get_mod_in_t => [F_string; F_dsp_dict]
  | get_mod_out_t => [F_odsc_hdr; F_int32; F_int32]
  | do_ops_in_t => [F_bulk; F_ds_expr]
  | odsc_hdr => [F_odsc_hdr]
  | name_list_t => [F_name_list]
  | int32_t => [F_int32]
  | uint64_t => [F_uint64]
  | void => []
  end.

(** The value of a field. *)
Inductive fval :=
  | V_int (z : Z)
  | V_string (s : string)
  | V_bulk (h : Z)
  | V_bytes (l : list Z)
  | V_odsc_gdim (raw_odsc : list Z) (raw_gdim : option (list Z))
  | V_dict (d : dsp_dict)
  | V_names (l : list string)
  | V_expr (e : ds_expr).

(** Handles of registered memory. *)
Class HgBulk := { bulk_enc : Z -> list Z; bulk_dec : list Z -> option (Z * list Z) }.

Class HgBulkLaws `{B : HgBulk} : Prop := { bulk_law : forall h rest, bulk_dec (bulk_enc h ++ rest) = Some (h, rest) }.

Section Messages.
Context `{P : HgProc} `{PO : HgProcOps} `{B : HgBulk}.

Definition field_encode (f : field) (v : fval) : option (list Z) :=
  match f, v with
  | F_int32, V_int z => Some (int32_enc z)
  | F_uint8, V_int z => Some (uint8_enc z)
  | F_uint64, V_int z => Some (uint64_enc z)
  | F_size, V_int z => size_enc z
  | F_string, V_string s => string_enc s
  | F_bulk, V_bulk h => Some (bulk_enc h)
  | F_odsc_hdr, V_bytes l => odsc_hdr_encode l
  | F_odsc_hdr_with_gdim, V_odsc_gdim o (Some g) => odsc_hdr_with_gdim_encode o g
  | F_dsp_dict, V_dict d => dsp_dict_encode d
  | F_dsp_buf, V_bytes l => dsp_buf_encode l
  | F_name_list, V_names l => name_list_encode l
  | F_ds_expr, V_expr e => Some (ds_expr_encode e)
  | _, _ => None
  end.

Definition field_decode (fuel : nat) (f : field) (buf : list Z) : option (fval * list Z) :=
  match f with
  | F_int32 => '(z, buf) ← int32_dec buf; Some (V_int z, buf)
  | F_uint8 => '(z, buf) ← uint8_dec buf; Some (V_int z, buf)
  | F_uint64 => '(z, buf) ← uint64_dec buf; Some (V_int z, buf)
  | F_size => '(z, buf) ← size_dec buf; Some (V_int z, buf)
  | F_string => '(s, buf) ← string_dec buf; Some (V_string s, buf)
  | F_bulk => '(h, buf) ← bulk_dec buf; Some (V_bulk h, buf)
  | F_odsc_hdr => '(l, buf) ← odsc_hdr_decode buf; Some (V_bytes l, buf)
  | F_odsc_hdr_with_gdim => '(o, g, buf) ← odsc_hdr_with_gdim_decode buf; Some (V_odsc_gdim o g, buf)
  | F_dsp_dict => '(d, buf) ← dsp_dict_decode buf; Some (V_dict d, buf)
  | F_dsp_buf => '(l, buf) ← dsp_buf_decode buf; Some (V_bytes l, buf)
  | F_name_list => '(l, buf) ← name_list_decode buf; Some (V_names l, buf)
  | F_ds_expr => '(e, _, buf) ← ds_expr_decode fuel buf; Some (V_expr e, buf)
  end.

(** The generated encoding: field by field, up to the first failure. *)
Fixpoint fields_encode (fs : list field) (vs : list fval) : option (list Z) :=
  match fs, vs with
  | [], [] => Some []
  | f :: fs, v :: vs => b ← field_encode f v; rest ← fields_encode fs vs; Some (b ++ rest)
  | _, _ => None
  end.

Fixpoint fields_decode (fuel : nat) (fs : list field) (buf : list Z) : option (list fval * list Z) :=
  match fs with
  | [] => Some ([], buf)
  | f :: fs => '(v, buf) ← field_decode fuel f buf; '(vs, buf) ← fields_decode fuel fs buf; Some (v :: vs, buf)
  end.

Definition hg_proc_encode (p : proc) (vs : list fval) : option (list Z) := fields_encode (proc_fields p) vs.
Definition hg_proc_decode (fuel : nat) (p : proc) (buf : list Z) : option (list fval * list Z) :=
  fields_decode fuel (proc_fields p) buf.

(** ** What arrives *)

(** A value of the type of a field. *)
Definition field_ok (fuel : nat) (f : field) (v : fval) : Prop :=
  match f, v with
  | F_int32, V_int z => - 2 ^ 31 <= z < 2 ^ 31
  | F_uint8, V_int z => 0 <= z < 2 ^ 7
  | F_uint64, V_int z | F_size, V_int z => in_u64 z
  | F_string, V_string _ | F_bulk, V_bulk _ => True
  | F_odsc_hdr, V_bytes l | F_dsp_buf, V_bytes l => in_u64 (Z.of_nat (length l))
  | F_odsc_hdr_with_gdim, V_odsc_gdim o (Some g) => in_u64 (Z.of_nat (length o)) /\ in_u64 (Z.of_nat (length g))
  | F_dsp_dict, V_dict d => in_u64 (Z.of_nat (length d)) /\ Forall entry_ok d
  | F_name_list, V_names l => in_u64 (Z.of_nat (length l))
  | F_ds_expr, V_expr e => sendable e /\ (depth e <= fuel)%nat
  | _, _ => False
  end.

(** An empty descriptor comes without its dimensions, an expression as [Ops]
    says; everything else as it was sent. *)
Definition arrives (v : fval) : fval :=
  match v with
  | V_odsc_gdim [] _ => V_odsc_gdim [] None
  | V_expr e => V_expr (received e)
  | _ => v
  end.
End Messages.

(** ** Round trips *)

Section Laws.
Context `{PL : HgProcLaws} `{POL : HgProcOpsLaws} `{BL : HgBulkLaws}.

(** The laws of the encodings in one form: the bytes, and what they decode
    to in front of anything. *)
Definition travels (fuel : nat) (f : field) (v : fval) : Prop :=
  exists bs, field_encode f v = Some bs /\ forall rest, field_decode fuel f (bs ++ rest) = Some (arrives v, rest).

(** A field whose encoding is a law of its own. *)
Lemma travels_by {A} (enc : option (list Z)) (dec : list Z -> option (A * list Z)) (x : A) (wrap : A -> fval) fuel f v :
  (exists bs, enc = Some bs /\ forall rest, dec (bs ++ rest) = Some (x, rest)) ->
  field_encode f v = enc -> (forall buf, field_decode fuel f buf = '(y, buf) ← dec buf; Some (wrap y, buf)) ->
  arrives v = wrap x -> travels fuel f v.
Proof.
  intros (bs & He & Hd) Hf Hdec Ha. exists bs. rewrite Hf. split; [exact He|]. intros rest. by rewrite Hdec, Hd, Ha.
Qed.

Lemma field_travels fuel f v : field_ok fuel f v -> travels fuel f v.
Proof.
  destruct f, v as [z|s|h|l|o [g|]|d|l|e]; cbn [field_ok]; try contradiction; intros Hok.
  - exists (int32_enc z). split; [done|]. intros rest. cbn. by rewrite int32_law.
  - exists (uint8_enc z). split; [done|]. intros rest. cbn. by rewrite uint8_law.
  - exists (uint64_enc z). split; [done|]. intros rest. cbn. by rewrite uint64_law.
  - by apply (travels_by _ _ z V_int _ _ _ (size_law z Hok)).
  - by apply (travels_by _ _ s V_string _ _ _ (string_law s)).
  - exists (bulk_enc h). split; [done|]. intros rest. cbn. by rewrite bulk_law.
  - destruct (headers_ok [] [] l [] ltac:(vm_compute; split; congruence) ltac:(vm_compute; split; congruence) Hok ltac:(vm_compute; split; congruence))
      as (_ & _ & H & _). by apply (travels_by _ _ l V_bytes _ _ _ H).
  - destruct Hok as [Ho Hg].
    destruct (headers_ok [] [] o g ltac:(vm_compute; split; congruence) ltac:(vm_compute; split; congruence) Ho Hg) as (_ & _ & _ & bs & He & Hd).
    exists bs. split; [exact He|]. intros rest. cbn. rewrite Hd. by destruct o.
  - destruct Hok as [Hl Hd]. destruct (dsp_dict_ok d (Codec.mkEntry 0 "" (DV_raw [])) Hl Hd eq_refl) as (H & _).
    by apply (travels_by _ _ d V_dict _ _ _ H).
  - destruct (headers_ok [] l [] [] ltac:(vm_compute; split; congruence) Hok ltac:(vm_compute; split; congruence) ltac:(vm_compute; split; congruence))
      as (_ & H & _). by apply (travels_by _ _ l V_bytes _ _ _ H).
  - destruct (headers_ok l [] [] [] Hok ltac:(vm_compute; split; congruence) ltac:(vm_compute; split; congruence) ltac:(vm_compute; split; congruence))
      as (H & _). by apply (travels_by _ _ l V_names _ _ _ H).
  - destruct Hok as [Hs Hf]. exists (ds_expr_encode e). split; [done|]. intros rest. cbn.
    by rewrite (proj1 (ds_expr_ok e fuel rest Hs Hf)).
Qed.

Lemma fields_travel fuel fs vs : Forall2 (field_ok fuel) fs vs ->
  exists bs, fields_encode fs vs = Some bs /\ forall rest, fields_decode fuel fs (bs ++ rest) = Some (map arrives vs, rest).
Proof.
  induction 1 as [|f v fs vs Hv H (bs & He & Hd)]; [by exists []|].
  destruct (field_travels fuel f v Hv) as (b & Hb & Hdb). exists (b ++ bs). cbn [fields_encode fields_decode map].
  rewrite Hb, He. split; [done|]. intros rest. rewrite <- app_assoc, Hdb. cbn [mbind option_bind]. by rewrite Hd.
Qed.

(** A request and its reply between two registered processes: the sender
    encodes with what it registered, the receiver decodes with what it
    registered and runs the handler that is meant; the reply likewise. *)
Definition delivered `{M : Margo} (fuel : nat) (c : rpc_call) (a b : rpc_state) : Prop :=
  exists ea eb,
    entry (r_reg a) (r_ids a (c_field c)) = Some ea /\ entry (r_reg b) (r_ids a (c_field c)) = Some eb /\
    e_handler eb = Some (c_target c) /\
    (forall vs, Forall2 (field_ok fuel) (proc_fields (c_in c)) vs ->
       exists bs, hg_proc_encode (e_in ea) vs = Some bs /\
         forall rest, hg_proc_decode fuel (e_in eb) (bs ++ rest) = Some (map arrives vs, rest)) /\
    match c_out c with
    | None => e_oneway ea = true /\ e_oneway eb = true
    | Some o => forall vs, Forall2 (field_ok fuel) (proc_fields o) vs ->
        handler_replies (c_target c) = Some o /\
        exists bs, hg_proc_encode (e_out eb) vs = Some bs /\
          forall rest, hg_proc_decode fuel (e_out ea) (bs ++ rest) = Some (map arrives vs, rest)
    end.

Lemma connected_delivered `{M : Margo} fuel c a b : connected c a b -> delivered fuel c a b.
Proof.
  intros (ea & eb & H1 & H2 & (Hia & Hib & _) & (Hh & _) & Ho). exists ea, eb. split_and!; try done.
  - intros vs Hvs. unfold hg_proc_encode, hg_proc_decode. rewrite Hia, Hib. by apply fields_travel.
  - destruct (c_out c) as [o|]; [|by destruct Ho as (_ & ? & ?)]. destruct Ho as (Hoa & Hob & Hr & _). intros vs Hvs.
    split; [done|]. unfold hg_proc_encode, hg_proc_decode. rewrite Hoa, Hob. by apply fields_travel.
Qed.

(** C22: what is sent arrives: for every place of the program that makes a
    request, in processes registered on their own, any structure of the
    request's type is encoded by the sender and decoded by the receiver, in
    front of anything, to the same fields in the same order for the handler
    that is meant, and the handler's reply back at the caller; an empty
    descriptor loses its dimension block, and an expression arrives as
    [received] says. *)
Theorem requests_arrive `{ML : MargoLaws} py fuel c :
  (c ∈ client_to_server -> needs_python c = false \/ py = true ->
     delivered fuel c (client_register no_rpcs) (server_register py no_rpcs)) /\
  (c ∈ client_to_client -> delivered fuel c (client_register no_rpcs) (client_register no_rpcs)) /\
  (c ∈ server_to_server -> delivered fuel c (server_register py no_rpcs) (server_register py no_rpcs)) /\
  (c ∈ server_to_client -> delivered fuel c (server_register py no_rpcs) (client_register no_rpcs)).
Proof.
  destruct (requests_ok py c) as (H1 & H2 & H3 & H4).
  split; [intros Hc Hpy|repeat split; intros Hc]; apply connected_delivered; auto.
Qed.
End Laws.

(** ** A concrete message *)

#[local] Existing Instances demo_proc demo_laws demo_ops_proc demo_ops_laws table_margo table_margo_laws.

#[local] Instance demo_bulk : HgBulk := {
  bulk_enc h := [h];
  bulk_dec buf := match buf with [] => None | h :: r => Some (h, r) end
}.

#[local] Instance demo_bulk_laws : HgBulkLaws.
Proof. split. done. Qed.

(** The request of [dspaces_get_meta] for version 4 of a name, and its
    reply. *)
Definition demo_request : list fval := [V_string "m"; V_int 4; V_int 1].
Definition demo_reply : list fval := [V_bytes [1; 2; 3]; V_int 4].

Lemma requests_arrive_witness :
  exists ea eb bs rs,
    entry (r_reg (server_register false no_rpcs)) (r_ids (client_register no_rpcs) query_meta_id) = Some eb /\
    e_handler eb = Some query_meta_rpc /\
    hg_proc_encode (e_in ea) demo_request = Some bs /\ hg_proc_decode 0 (e_in eb) (bs ++ [9]) = Some (demo_request, [9]) /\
    hg_proc_encode (e_out eb) demo_reply = Some rs /\ hg_proc_decode 0 (e_out ea) rs = Some (demo_reply, []).
Proof.
  destruct (requests_arrive false 0 (mkCall "dspaces_get_meta" query_meta_id query_meta_in_t (Some query_meta_out_t) query_meta_rpc))
    as (H & _).
  destruct H as (ea & eb & _ & H2 & H3 & H4 & H5).
  - unfold client_to_server. repeat first [apply list_elem_of_here | apply list_elem_of_further].
  - left. reflexivity.
  - destruct (H4 demo_request) as (bs & B1 & B2); [repeat constructor; cbn; unfold in_u64; lia|].
    destruct (H5 demo_reply) as (_ & rs & R1 & R2); [repeat constructor; cbn; unfold in_u64; lia|].
    exists ea, eb, bs, rs. specialize (R2 []). rewrite app_nil_r in R2.
    split; [exact H2|]. split; [exact H3|]. split; [exact B1|]. split; [apply B2|]. split; [exact R1|exact R2].
Defined.
