(* ===== verification/ServerStart.v ===== *)
(** * ServerStart: how the servers start, together

    [dspaces_server_init] of [src/src/dspaces-server.c] called by every
    process of the servers' communicator: the exchange of addresses and node
    names in [write_conf], the configuration each process reads, the state
    [dsg_alloc] makes of it, modules and registry.  With [StartGroup], the
    service from nothing to connected clients: what the servers start as is
    the cluster that the theorems of [Cluster] and [EndToEnd] speak of, and
    clients that read the file rank 0 wrote are attached to it. *)

From Stdlib Require Import Ascii.
From S2P Require Import Prelude BBox ObjDesc Linear Sspace DhtEntry StrHash LocalStorage Matrix Codec Modules Server Cluster Client ClientStore Conf Toml TomlParse TomlConf Startup StartGroup ModCalls PyMods.

(** ** Strings from every process *)

(** The loop over the sizes, signed integers: the positions and the sum. *)
Fixpoint sizes_psum (sum : Z) (sizes : list Z) : option (list Z * Z) :=
  match sizes with
  | [] => Some ([], sum)
  | s :: sizes =>
      if 2 ^ 31 <=? sum + s then None
      else '(ps, total) ← sizes_psum (sum + s) sizes; Some (sum :: ps, total)
  end.

Definition c_bytes (s : string) : text := txt s ++ [Ascii.zero].

(** [MPI_Allgatherv]: the bytes of each process at its position. *)
Definition put_bytes (buf : text) (off : Z) (bytes : text) : text :=
  take (Z.to_nat off) buf ++ bytes ++ drop (Z.to_nat off + length bytes) buf.

Definition MPI_Allgatherv (buf : text) (displs : list Z) (sent : list text) : text :=
  fold_left (fun buf pd => put_bytes buf (fst pd) (snd pd)) (combine displs sent) buf.

(** The string that starts at a position. *)
Definition string_at (buf : text) (off : Z) : option string :=
  let s := drop (Z.to_nat off) buf in
  if existsb (Ascii.eqb Ascii.zero) s then Some (str (c_text s)) else None.

Section Exchange.
Context `{E : Env}.

(** A block of the C library holds anything. *)
Definition malloc_text (n : Z) : text := map (fun b => chr (Z.to_nat b)) (env_malloc (Z.to_nat n)).

(** One of the two exchanges of [write_conf]: what every process sends, and
    the table every process has afterwards. *)
Definition gather_strings (strs : list string) : option (list string) :=
  let sent := map c_bytes strs in
  '(psum, buf_size) ← sizes_psum 0 (map (fun b => Z.of_nat (length b)) sent);
  mapM (string_at (MPI_Allgatherv (malloc_text buf_size) psum sent)) psum.

(** [gethostname], cut to the buffer. *)
Definition host_name (HOST_NAME_MAX : nat) (node : string) : string :=
  String.substring 0 (HOST_NAME_MAX - 1) node.

(** [write_conf] of every process: the tables, and the file that rank 0
    writes.  When it cannot, it finalises Margo and [dsg_alloc], which does
    not look at the result, goes on. *)
Definition write_conf_mpi (HOST_NAME_MAX : nat) (can_write : bool) (listen : string) (ids : list (string * string))
    : option (conn * text) :=
  addrs ← gather_strings (map fst ids);
  names ← gather_strings (map (fun an => host_name HOST_NAME_MAX (snd an)) ids);
  if can_write then Some (mkConn names addrs listen, write_conf (mkConn names addrs listen)) else None.

End Exchange.

(** ** Execution streams *)

Definition DSPACES_DEFAULT_NUM_HANDLERS : Z := 4.

Definition init_rmap (num_handlers : Z) : list Z := replicate (Z.to_nat num_handlers) (-1).

(** [get_handler_id]: the number of the calling stream, -1 when there are
    more streams than numbers, and the table. *)
Fixpoint get_handler_id (es_rank : Z) (i : Z) (rmap : list Z) : Z * list Z :=
  match rmap with
  | [] => (-1, [])
  | r :: rmap =>
      let r := if r =? -1 then es_rank else r in
      if r =? es_rank then (i, r :: rmap)
      else let '(n, rmap) := get_handler_id es_rank (i + 1) rmap in (n, r :: rmap)
  end.

(** ** One process *)

(** A process before it starts: the name of its node, the flags of the server
    and of the client library, its environment, Margo on its node, and the
    configuration file as it reads it. *)
Record sv_member := mkSvMember {
  sm_node : string;
  sm_initialized : bool;
  sm_client : bool;
  sm_num_handlers : option text;
  sm_drain : bool;
  sm_pub_ip : option string;
  sm_priv_ip : option string;
  sm_margo : string -> option string;
  sm_file : Z + text
}.

Section Start.
Context `{E : Env} `{D : Strtod} `{P : Python} `{RE : RegEnv}.

(** A process that runs a server: its state, its modules with their Python
    objects, [local_reg_id], [handler_rmap], [f_drain], the tables of
    addresses and names, and the connections to other systems. *)
Record sv_started := mkSvStarted {
  st_sv : server;
  st_mods : list (dspaces_module * option pyobj);
  st_reg_id : Z;
  st_rmap : list Z;
  st_drain : bool;
  st_conn : conn;
  st_remotes : list (option (client * conn))
}.

(** What a call returns, the server it hands out, and [is_initialized] after
    it. *)
Record sv_outcome := mkSvOutcome {
  so_ret : Z;
  so_server : option sv_started;
  so_flag : bool
}.

(** Up to the first collective call. *)
Definition begin_server (m : sv_member) : option (Z + list Z) :=
  if sm_initialized m then Some (inl dspaces_ERR_ALLOCATION)
  else n ← (match sm_num_handlers m with None => Some DSPACES_DEFAULT_NUM_HANDLERS | Some t => atoi t end);
       Some (inr (init_rmap n)).

(** Margo, and [dsg_alloc] up to [write_conf]; every process reads the file
    itself. *)
Definition dsg_alloc_member (conf_name : text) (listen : string) (size : nat) (rank : nat) (m : sv_member)
    : option (Z + server) :=
  match sm_margo m listen with
  | None => Some (inl dspaces_ERR_MERCURY)
  | Some addr =>
      r ← dsg_alloc_conf conf_name (sm_file m);
      match r with
      | inl _ => Some (inl dspaces_ERR_ALLOCATION)
      | inr (conf, num_apps, remotes, mods) =>
          sv ← dsg_alloc rank size addr conf mods (map (fun r => str (rm_addr_str r)) remotes) num_apps;
          Some (inr sv)
      end
  end.

Definition set_started (pub_ip priv_ip : option string) (mods : list dspaces_module) (sv : server) : server :=
  mkServer (sv_rank sv) (sv_size_sp sv) (sv_addr sv) pub_ip priv_ip (sv_conf sv)
    (sv_default_gdim sv) (sv_default sv) (sv_spaces sv) (sv_ls sv) (sv_ps sv) (sv_drain sv) (sv_cache sv)
    mods (sv_remotes sv) (sv_f_kill sv) (sv_next sv).

(** Without Python no module is added and none is loaded. *)
Definition load_mods (python : bool) (mods : list dspaces_module) : list (dspaces_module * option pyobj) :=
  if python then dspaces_init_mods mods else map (fun m => (m, None)) mods.

(** After [dsg_alloc]. *)
Definition finish_server (python : bool) (listen : string) (get : string -> option ss_info_hdr) (cn : conn)
    (m : sv_member) (rmap : list Z) (sv : server) : option sv_outcome :=
  '(conns, _) ← connect_remotes (sm_client m) listen (sm_node m) (sm_margo m) get (sv_remotes sv);
  let mods := load_mods python (sv_mods sv) in
  let '(_, reg_id) := dspaces_init_registry (map fst mods) (Z.of_nat (sv_rank sv)) in
  Some (mkSvOutcome dspaces_SUCCESS
    (Some (mkSvStarted (set_started (sm_pub_ip m) (sm_priv_ip m) (map fst mods) sv) mods reg_id rmap (sm_drain m) cn conns))
    true).

(** The processes that return with errors; a server that has not started may
    start again. *)
Definition sv_failed (ms : list sv_member) (errs : list Z) : list sv_outcome :=
  map (fun me => mkSvOutcome (snd me) None (sm_initialized (fst me))) (combine ms errs).

(** [dspaces_server_init] called by every process with the same listening
    address and file name: what each returns, and the connection file. *)
Definition dspaces_server_init (HOST_NAME_MAX : nat) (python can_write : bool) (listen : string) (conf_name : text)
    (get : string -> option ss_info_hdr) (ms : list sv_member) : option (list sv_outcome * option text) :=
  bs ← mapM begin_server ms;
  t ← collective bs;
  match t with
  | AllGone errs => Some (sv_failed ms errs, None)
  | AllHere rmaps =>
      ds ← mapM (fun rm => dsg_alloc_member conf_name listen (length ms) (fst rm) (snd rm)) (combine (seq 0 (length ms)) ms);
      t ← collective ds;
      match t with
      | AllGone errs => Some (sv_failed ms errs, None)
      | AllHere svs =>
          '(cn, file) ← write_conf_mpi HOST_NAME_MAX can_write listen (combine (map sv_addr svs) (map sm_node ms));
          os ← mapM (fun mrs => finish_server python listen get cn (fst mrs) (fst (snd mrs)) (snd (snd mrs)))
                 (combine ms (combine rmaps svs));
          Some (os, Some file)
      end
  end.
End Start.

(** ** The exchange *)

Lemma sizes_psum_total sum sizes : Forall (fun s => 0 <= s) sizes -> 0 <= sum -> sum + fold_right Z.add 0 sizes < 2 ^ 31 ->
  exists ps, sizes_psum sum sizes = Some (ps, sum + fold_right Z.add 0 sizes) /\ length ps = length sizes.
Proof.
  intros H. revert sum. induction H as [|s sizes Hs H IH]; intros sum H0 Hsum; cbn [sizes_psum fold_right] in *.
  - exists []. split; [f_equal; f_equal; lia|done].
  - assert (G : 0 <= fold_right Z.add 0 sizes) by (clear -H; induction H; cbn; lia).
    destruct (Z.leb_spec (2 ^ 31) (sum + s)); [lia|].
    destruct (IH (sum + s)) as (ps & -> & Hl); [lia|lia|]. cbn [mbind option_bind].
    exists (sum :: ps). split; [f_equal; f_equal; lia|cbn; lia].
Qed.

(** Each process's bytes follow those of the processes before it. *)
Lemma allgatherv_concat sent : forall pre rest ps total,
  sizes_psum (Z.of_nat (length pre)) (map (fun b => Z.of_nat (length b)) sent) = Some (ps, total) ->
  exists tail, MPI_Allgatherv (pre ++ rest) ps sent = pre ++ concat sent ++ tail.
Proof.
  induction sent as [|b sent IH]; intros pre rest ps total H; cbn [map sizes_psum] in H.
  - injection H as <- <-. by exists rest.
  - destruct (_ <=? _); [done|]. destruct (sizes_psum _ _) as [[qs t]|] eqn:Hq; [|done]. injection H as <- <-.
    unfold MPI_Allgatherv. cbn [combine fold_left fst snd]. unfold put_bytes at 2.
    rewrite Nat2Z.id, take_app_length, app_assoc.
    destruct (IH (pre ++ b) (drop (length pre + length b) (pre ++ rest)) qs t) as (tail & Ht).
    { rewrite length_app, Nat2Z.inj_add. exact Hq. }
    exists tail. unfold MPI_Allgatherv in Ht. rewrite Ht. cbn [concat]. by rewrite <- !app_assoc.
Qed.

Lemma c_text_bytes s rest : no_nul (txt s) -> c_text (c_bytes s ++ rest) = txt s.
Proof.
  intros H. unfold c_text, c_bytes. induction H as [|c l Hc H IH]; [done|]. cbn.
  apply Ascii.eqb_neq in Hc. unfold NUL in Hc. rewrite Hc. cbn. by rewrite IH.
Qed.

Lemma strings_at strs : forall pre tail ps total, Forall (fun s => no_nul (txt s)) strs ->
  sizes_psum (Z.of_nat (length pre)) (map (fun b => Z.of_nat (length b)) (map c_bytes strs)) = Some (ps, total) ->
  mapM (string_at (pre ++ concat (map c_bytes strs) ++ tail)) ps = Some strs.
Proof.
  induction strs as [|s strs IH]; intros pre tail ps total Hn H; cbn [map sizes_psum] in H.
  - by injection H as <- <-.
  - destruct (_ <=? _); [done|]. destruct (sizes_psum _ _) as [[qs t]|] eqn:Hq; [|done]. injection H as <- <-.
    apply Forall_cons in Hn as [Hs Hn]. cbn [map concat mapM].
    assert (E1 : string_at (pre ++ (c_bytes s ++ concat (map c_bytes strs)) ++ tail) (Z.of_nat (length pre)) = Some s).
    { unfold string_at. rewrite Nat2Z.id, drop_app_length, <- app_assoc, c_text_bytes, str_txt by done.
      unfold c_bytes. rewrite <- app_assoc, existsb_app. cbn [app existsb]. by rewrite orb_true_r. }
    rewrite E1. cbn [mbind option_bind]. rewrite <- app_assoc, app_assoc.
    rewrite (IH (pre ++ c_bytes s) tail qs t); [done|done|].
    rewrite length_app, Nat2Z.inj_add. exact Hq.
Qed.

(** Bytes of the strings with their terminators. *)
Definition bytes_of (strs : list string) : Z := fold_right Z.add 0 (map (fun s => Z.of_nat (length (c_bytes s))) strs).

Section Lemmas.
Context `{E : Env}.

Lemma gather_strings_ok strs : Forall (fun s => no_nul (txt s)) strs -> bytes_of strs < 2 ^ 31 -> gather_strings strs = Some strs.
Proof.
  intros Hn Hb. unfold gather_strings.
  destruct (sizes_psum_total 0 (map (fun b => Z.of_nat (length b)) (map c_bytes strs))) as (ps & Hps & _); [|lia| |].
  - rewrite map_map. apply Forall_map, Forall_true. cbn. lia.
  - rewrite map_map. exact Hb.
  - rewrite Hps. cbn [mbind option_bind].
    destruct (allgatherv_concat (map c_bytes strs) [] (malloc_text (0 + fold_right Z.add 0 (map (fun b => Z.of_nat (length b)) (map c_bytes strs)))) ps _ Hps)
      as (tail & Ht). cbn [app] in Ht. rewrite Ht. exact (strings_at strs [] tail ps _ Hn Hps).
Qed.
End Lemmas.

(** ** Numbers of execution streams *)

(** The table after the streams [known] have asked. *)
Definition rmap_of (known : list Z) (free : nat) : list Z := known ++ replicate free (-1).

Lemma get_handler_id_known known free es i k : NoDup known -> Forall (fun r => 0 <= r) known -> known !! k = Some es ->
  get_handler_id es i (rmap_of known free) = (i + Z.of_nat k, rmap_of known free).
Proof.
  unfold rmap_of. revert i k. induction known as [|r known IH]; intros i k Hnd Hp Hk; [done|].
  apply NoDup_cons in Hnd as [Hr Hnd]. apply Forall_cons in Hp as [Hr0 Hp]. cbn [app get_handler_id].
  destruct (Z.eqb_spec r (-1)); [lia|]. destruct k as [|k]; cbn in Hk.
  - injection Hk as ->. rewrite Z.eqb_refl. by rewrite Z.add_0_r.
  - destruct (Z.eqb_spec r es) as [->|]; [exfalso; apply Hr; by eapply list_elem_of_lookup_2|].
    rewrite (IH (i + 1) k) by done. cbn. f_equal. lia.
Qed.

Lemma get_handler_id_new known free es i : Forall (fun r => 0 <= r) known -> es ∉ known -> 0 <= es ->
  get_handler_id es i (rmap_of known free) =
    match free with
    | O => (-1, rmap_of known 0)
    | S free => (i + Z.of_nat (length known), rmap_of (known ++ [es]) free)
    end.
Proof.
  unfold rmap_of. revert i. induction known as [|r known IH]; intros i Hp Hes He.
  - destruct free; [done|]. cbn. rewrite Z.eqb_refl. by rewrite Z.add_0_r.
  - apply Forall_cons in Hp as [Hr0 Hp]. apply not_elem_of_cons in Hes as [Hne Hes]. cbn [app get_handler_id].
    destruct (Z.eqb_spec r (-1)); [lia|]. destruct (Z.eqb_spec r es); [congruence|].
    rewrite IH by done. destruct free; cbn; [done|]. f_equal. lia.
Qed.

(** ** A start that succeeds *)

Section Ready.
Context `{E : Env} `{D : Strtod} `{P : Python} `{RE : RegEnv}.
Context (HOST_NAME_MAX : nat) (python : bool) (listen : string) (conf_name : text).

Definition handlers_of (m : sv_member) : option Z :=
  match sm_num_handlers m with None => Some DSPACES_DEFAULT_NUM_HANDLERS | Some t => atoi t end.

Definition addr_of (m : sv_member) : string := default EmptyString (sm_margo m listen).
Definition node_of (m : sv_member) : string := host_name HOST_NAME_MAX (sm_node m).

(** A process that can run a server of a cluster with configuration [conf]. *)
Record sv_ready (conf : ds_conf) (tokens : Z) (mods : list dspaces_module) (m : sv_member) : Prop := {
  rd_new : sm_initialized m = false;
  rd_handlers : is_Some (handlers_of m);
  rd_file : dsg_alloc_conf conf_name (sm_file m) = Some (inr (conf, tokens, [], mods));
  rd_margo : is_Some (sm_margo m listen);
  rd_addr : word (addr_of m) /\ no_nul (txt (addr_of m));
  rd_node : word (node_of m) /\ no_nul (txt (node_of m))
}.

Definition servers_conn (ms : list sv_member) : conn := mkConn (map node_of ms) (map addr_of ms) listen.

(** The server of rank [r], and what its process has. *)
Definition server_at (N : nat) (conf : ds_conf) (tokens : Z) (ss : sspace) (mods : list dspaces_module) (rm : nat * sv_member) : server :=
  set_started (sm_pub_ip (snd rm)) (sm_priv_ip (snd rm)) (map fst (load_mods python mods))
    (first_server N (fun _ => addr_of (snd rm)) conf tokens ss (fst rm)).

Definition started_at (N : nat) (conf : ds_conf) (tokens : Z) (ss : sspace) (mods : list dspaces_module) (cn : conn)
    (rm : nat * sv_member) : sv_started :=
  mkSvStarted (server_at N conf tokens ss mods rm) (load_mods python mods)
    (snd (dspaces_init_registry (map fst (load_mods python mods)) (Z.of_nat (fst rm))))
    (init_rmap (default 0 (handlers_of (snd rm)))) (sm_drain (snd rm)) cn [].

Definition with_rank (ms : list sv_member) : list (nat * sv_member) := combine (seq 0 (length ms)) ms.

Lemma with_rank_snd ms : map snd (with_rank ms) = ms.
Proof. apply combine_snd, length_seq. Qed.

Lemma with_rank_ready (Q : sv_member -> Prop) ms : Forall Q ms -> Forall (fun rm => Q (snd rm)) (with_rank ms).
Proof. intros H. apply (proj1 (List.Forall_map snd Q (with_rank ms))). by rewrite with_rank_snd. Qed.

Lemma servers_init_ok conf tokens mods ss get ms :
  conf_ok (length ms) conf -> ssd_alloc_v2 0 (conf_domain conf) (length ms) env_dim = Some ss ->
  Forall (sv_ready conf tokens mods) ms ->
  bytes_of (map addr_of ms) < 2 ^ 31 -> bytes_of (map node_of ms) < 2 ^ 31 ->
  dspaces_server_init HOST_NAME_MAX python true listen conf_name get ms =
    Some (map (fun rm => mkSvOutcome dspaces_SUCCESS
                (Some (started_at (length ms) conf tokens ss mods (servers_conn ms) rm)) true) (with_rank ms),
          Some (write_conf (servers_conn ms))).
Proof.
  intros Hc Hss Hr Ha Hn. unfold dspaces_server_init.
  pose proof (with_rank_ready _ ms Hr) as Hrk.
  set (rmap m := init_rmap (default 0 (handlers_of m))).
  rewrite (mapM_total begin_server (fun m => inr (rmap m))).
  2: { eapply Forall_impl; [exact Hr|]. intros m Hm. unfold begin_server. rewrite (rd_new _ _ _ _ Hm).
       fold (handlers_of m). destruct (rd_handlers _ _ _ _ Hm) as [n E1]. unfold rmap. by rewrite E1. }
  cbn [mbind option_bind]. rewrite (collective_here _ rmap) by (apply Forall_true; reflexivity). cbn [mbind option_bind].
  set (base rm := mkServer (fst rm) (length ms) (addr_of (snd rm)) None None conf (conf_gdim conf)
        (mkSp (ssd_init ss (fst rm)) (dht_entry_alloc (conf_max_versions conf))) []
        (ls_alloc (conf_max_versions conf)) (ls_alloc (conf_max_versions conf)) [] [] mods [] tokens 1).
  fold (with_rank ms). rewrite (mapM_total _ (fun rm => inr (base rm))).
  2: { eapply Forall_impl; [exact Hrk|]. intros [r m] Hm. cbn [fst snd] in *. unfold dsg_alloc_member.
       destruct (rd_margo _ _ _ _ Hm) as [addr E1]. rewrite E1, (rd_file _ _ _ _ Hm). cbn [mbind option_bind map].
       rewrite (dsg_alloc_ok (length ms) conf ss) by done. unfold base, addr_of. cbn [fst snd mbind option_bind]. by rewrite E1. }
  cbn [mbind option_bind]. rewrite (collective_here _ base) by (apply Forall_true; reflexivity). cbn [mbind option_bind].
  assert (Eids : combine (map sv_addr (map base (with_rank ms))) (map sm_node ms) = map (fun m => (addr_of m, sm_node m)) ms).
  { rewrite map_map. change (fun x => sv_addr (base x)) with (fun x : nat * sv_member => addr_of (snd x)).
    rewrite <- (map_map snd addr_of), with_rank_snd. apply combine_maps. }
  rewrite Eids. unfold write_conf_mpi. rewrite !map_map. cbn [fst snd].
  rewrite (gather_strings_ok (map addr_of ms)); [|apply Forall_map; eapply Forall_impl; [exact Hr|]; intros m Hm; apply (rd_addr _ _ _ _ Hm)|done].
  cbn [mbind option_bind]. fold (node_of).
  change (fun x => host_name HOST_NAME_MAX (sm_node x)) with node_of.
  rewrite (gather_strings_ok (map node_of ms)); [|apply Forall_map; eapply Forall_impl; [exact Hr|]; intros m Hm; apply (rd_node _ _ _ _ Hm)|done].
  cbn [mbind option_bind]. fold (servers_conn ms).
  assert (Ecomb : combine ms (combine (map rmap ms) (map base (with_rank ms)))
    = map (fun rm => (snd rm, (rmap (snd rm), base rm))) (with_rank ms)).
  { rewrite <- (with_rank_snd ms) at 1 2. rewrite map_map. by rewrite !combine_maps. }
  rewrite Ecomb, mapM_map.
  rewrite (mapM_total _ (fun rm => mkSvOutcome dspaces_SUCCESS (Some (started_at (length ms) conf tokens ss mods (servers_conn ms) rm)) true)).
  - done.
  - apply Forall_true. intros [r m]. cbn [fst snd]. unfold finish_server. cbn [base sv_remotes connect_remotes mbind option_bind sv_mods sv_rank].
    unfold started_at. cbn [fst snd]. by destruct (dspaces_init_registry _ _).
Qed.
End Ready.

Section Service.
Context `{E : Env} `{D : Strtod} `{P : Python} `{RE : RegEnv}.

Lemma with_rank_lookup ms i : with_rank ms !! i = m ← ms !! i; Some (i, m).
Proof. apply combine_seq_lookup. Qed.

Lemma bytes_of_length strs : Z.of_nat (length strs) <= bytes_of strs.
Proof.
  unfold bytes_of. induction strs as [|s strs IH]; [done|]. cbn [map fold_right length].
  unfold c_bytes at 1. rewrite length_app. cbn [length]. lia.
Qed.

Lemma servers_conn_ok H listen conf_name conf tokens mods ms :
  Forall (sv_ready H listen conf_name conf tokens mods) ms -> word listen -> bytes_of (map (addr_of listen) ms) < 2 ^ 31 ->
  conn_ok (servers_conn H listen ms).
Proof.
  intros Hr Hl Hb. pose proof (bytes_of_length (map (addr_of listen) ms)) as Hb'. rewrite length_map in Hb'.
  split; cbn [servers_conn cn_names cn_addrs cn_listen].
  - rewrite !length_map. split; [done|lia].
  - split; [|split; [|done]]; apply List.Forall_map; (eapply Forall_impl; [exact Hr|]); intros m Hm;
      [apply (rd_node _ _ _ _ _ _ _ Hm)|apply (rd_addr _ _ _ _ _ _ _ Hm)].
Qed.

(** The servers of a cluster that has started. *)
Definition servers_of (python : bool) (listen : string) (conf : ds_conf) (tokens : Z) (ss : sspace) (mods : list dspaces_module)
    (ms : list sv_member) : list server :=
  map (server_at python listen (length ms) conf tokens ss mods) (with_rank ms).

Lemma servers_of_addrs python listen conf tokens ss mods ms :
  map sv_addr (servers_of python listen conf tokens ss mods ms) = map (addr_of listen) ms.
Proof.
  unfold servers_of. rewrite map_map. change (fun x => sv_addr _) with (fun x : nat * sv_member => addr_of listen (snd x)).
  by rewrite <- (map_map snd (addr_of listen)), with_rank_snd.
Qed.

(** Without modules and published addresses, it is the cluster of [Cluster]. *)
Lemma servers_of_start listen conf tokens ss ms :
  conf_ok (length ms) conf -> ssd_alloc_v2 0 (conf_domain conf) (length ms) env_dim = Some ss ->
  Forall (fun m => sm_pub_ip m = None /\ sm_priv_ip m = None) ms ->
  start (length ms) (fun r => default EmptyString (map (addr_of listen) ms !! r)) conf tokens
    = Some (mkCluster (servers_of false listen conf tokens ss [] ms) []).
Proof.
  intros Hc Hss Hip. destruct (start_ok (length ms) (fun r => default EmptyString (map (addr_of listen) ms !! r)) conf tokens Hc)
    as (ss' & Hss' & ->). rewrite Hss in Hss'. injection Hss' as <-. f_equal. f_equal.
  unfold servers_of. apply list_eq. intros i. rewrite !list_lookup_fmap, with_rank_lookup.
  destruct (ms !! i) as [m|] eqn:Hm; cbn [mbind option_bind fmap option_fmap option_map].
  - rewrite lookup_seq_lt by (by eapply lookup_lt_Some). cbn. f_equal.
    rewrite Forall_lookup in Hip. destruct (Hip i m Hm) as [E1 E2].
    unfold server_at, set_started, first_server. cbn. by rewrite E1, E2, list_lookup_fmap, Hm.
  - apply lookup_ge_None in Hm. by rewrite lookup_seq_ge by lia.
Qed.

(** C25: the service from nothing to connected clients: processes that call
    [dspaces_server_init] together with one configuration all become servers,
    each with its rank, the same configuration and the tables of everyone's
    names and addresses; clients that start together afterwards with the file
    rank 0 wrote are each attached to one of these servers and hold their
    default dimensions and an empty storage.  Without modules and published
    addresses the servers are the cluster [start] gives, which the theorems
    on whole clusters begin with. *)
Theorem service_starts HOST_NAME_MAX python listen conf_name conf tokens mods get ms cms :
  conf_ok (length ms) conf ->
  Forall (sv_ready HOST_NAME_MAX listen conf_name conf tokens mods) ms ->
  NoDup (map (addr_of listen) ms) -> word listen ->
  bytes_of (map (addr_of listen) ms) < 2 ^ 31 -> bytes_of (map (node_of HOST_NAME_MAX) ms) < 2 ^ 31 ->
  Z.of_nat (length (write_conf (servers_conn HOST_NAME_MAX listen ms))) < 2 ^ 31 ->
  cms <> [] -> Forall (fun m => m_flag m = false /\ is_Some (m_margo m listen)) cms ->
  let cn := servers_conn HOST_NAME_MAX listen ms in
  exists os svs cs,
    dspaces_server_init HOST_NAME_MAX python true listen conf_name get ms = Some (os, Some (write_conf cn)) /\
    length os = length ms /\
    (forall r m, ms !! r = Some m -> exists st sv,
       os !! r = Some (mkSvOutcome dspaces_SUCCESS (Some st) true) /\ svs !! r = Some sv /\ st_sv st = sv /\
       sv_rank sv = r /\ sv_size_sp sv = length ms /\ sm_margo m listen = Some (sv_addr sv) /\ sv_conf sv = conf /\
       st_conn st = cn /\ st_mods st = load_mods python mods /\ sv_f_kill sv = tokens) /\
    dspaces_init_mpi cms (Some (write_conf cn)) (servers_answer svs)
      = Some (map (fun c => mkOutcome dspaces_SUCCESS (Some (c, cn)) true) cs) /\
    length cs = length cms /\
    (forall i m, cms !! i = Some m -> exists c, cs !! i = Some c /\ started svs conf cn (Z.of_nat i) m c) /\
    (python = false -> mods = [] -> Forall (fun m => sm_pub_ip m = None /\ sm_priv_ip m = None) ms ->
       start (length ms) (fun r => default EmptyString (map (addr_of listen) ms !! r)) conf tokens
         = Some (mkCluster svs [])).
Proof.
  intros Hc Hr Hnd Hl Hba Hbn Hlen Hcms Hcl cn. pose proof Hc as (Hv & Hd & HN & HN' & Hmv).
  destruct (ssd_alloc_v2_spec 0 (conf_domain conf) (length ms) env_dim Hd HN HN') as (ss & _ & _ & Ea & _).
  set (svs := servers_of python listen conf tokens ss mods ms).
  assert (Haddr : map sv_addr svs = map (addr_of listen) ms) by apply servers_of_addrs.
  destruct (init_mpi_started cn svs conf (length ms) cms) as (cs & H1 & H2 & H3); try done.
  - by eapply servers_conn_ok.
  - intros E0. rewrite E0 in Haddr. destruct ms; [cbn in HN; lia|done].
  - unfold svs, servers_of. apply List.Forall_map, Forall_true. by intros [r m].
  - by rewrite Haddr.
  - destruct Hd as ((Hw & _) & _). apply Hw.
  - eexists _, svs, cs. split; [by apply (servers_init_ok _ _ _ _ conf tokens mods ss)|].
    split; [by rewrite length_map, <- (length_map snd), with_rank_snd|]. split; [|split; [done|split; [done|split; [done|]]]].
    + intros r m Hm. eexists _, _. unfold svs, servers_of. rewrite !list_lookup_fmap, with_rank_lookup, Hm.
      cbn [mbind option_bind fmap option_fmap option_map]. split; [reflexivity|]. split; [reflexivity|]. cbn.
      rewrite Forall_lookup in Hr. destruct (rd_margo _ _ _ _ _ _ _ (Hr r m Hm)) as [a E1]. unfold addr_of. by rewrite E1.
    + intros -> -> Hip. by apply servers_of_start.
Qed.
End Service.

(** ** A concrete service *)

#[local] Instance service_env : Env := {
  env_fuel := 0;
  env_dim := 77;
  env_coord := replicate 10 9;
  env_malloc n := replicate n 65;
  env_py_exec _ _ _ := None;
  env_remote_get _ _ _ := None;
  env_lz4_compress _ := None
}.
#[local] Existing Instance TomlParse.no_strtod.
#[local] Existing Instance mod_reg_env.
#[local] Existing Instance demo_python.

Definition service_file : Z + text := inr (conf_text demo_raw 2).

(** Two servers; the second listens on an address of its own and has room for
    eight streams. *)
Definition service_members : list sv_member :=
  [mkSvMember "n1" false false None false None None (fun l => Some (l ++ "://a")%string) service_file;
   mkSvMember "n2" false false (Some (txt "8")) true None None (fun l => Some (l ++ "://bb")%string) service_file].

Lemma startup_conf_ok : conf_ok 2 startup_conf.
Proof.
  split; [reflexivity|]. split; [|split; [lia|split; [lia|reflexivity]]].
  change (conf_domain startup_conf) with (box2 0 0 63 31). apply box2_domain_ok; lia.
Qed.

Lemma service_members_ready : Forall (sv_ready 64 "sm" (txt "dataspaces.conf") startup_conf 2 []) service_members.
Proof.
  assert (W : forall s, forallb (fun c => negb (isspace c) && negb (Ascii.eqb c NUL)) (txt s) = true -> txt s <> [] ->
    word s /\ no_nul (txt s)).
  { intros s H Hne. rewrite forallb_forall in H. split; [split; [done|]|]; apply Forall_forall; intros c Hc;
      apply list_elem_of_In, H, andb_true_iff in Hc as [H1 H2]; [by apply negb_true_iff|].
    by apply negb_true_iff, Ascii.eqb_neq in H2. }
  repeat (apply Forall_cons_2; [split; [reflexivity|eexists; vm_compute; reflexivity|vm_compute; reflexivity|eexists; reflexivity
    |apply W; [vm_compute; reflexivity|discriminate]|apply W; [vm_compute; reflexivity|discriminate]]|]). apply Forall_nil_2.
Qed.

Lemma service_starts_witness :
  exists os svs cs,
    dspaces_server_init 64 false true "sm" (txt "dataspaces.conf") (fun _ => None) service_members
      = Some (os, Some (write_conf (mkConn ["n1"; "n2"] ["sm://a"; "sm://bb"] "sm"))) /\
    dspaces_init_mpi group_members (Some (write_conf (mkConn ["n1"; "n2"] ["sm://a"; "sm://bb"] "sm"))) (servers_answer svs)
      = Some (map (fun c => mkOutcome dspaces_SUCCESS (Some (c, mkConn ["n1"; "n2"] ["sm://a"; "sm://bb"] "sm")) true) cs) /\
    start 2 (fun r => default EmptyString (["sm://a"; "sm://bb"] !! r)) startup_conf 2 = Some (mkCluster svs []).
Proof.
  destruct (service_starts 64 false "sm" (txt "dataspaces.conf") startup_conf 2 [] (fun _ => None) service_members group_members)
    as (os & svs & cs & H1 & _ & _ & H2 & _ & _ & H3);
    [exact startup_conf_ok|exact service_members_ready| | |vm_compute; reflexivity|vm_compute; reflexivity|vm_compute; reflexivity
     |discriminate|do 3 (apply Forall_cons_2; [split; [reflexivity|eexists; reflexivity]|]); apply Forall_nil_2|].
  - apply NoDup_cons. split; [by intros ?%list_elem_of_singleton|apply NoDup_singleton].
  - split; [discriminate|]. repeat (apply Forall_cons_2; [reflexivity|]). apply Forall_nil_2.
  - exists os, svs, cs. split; [exact H1|]. split; [exact H2|]. apply H3; [reflexivity|reflexivity|].
    do 2 (apply Forall_cons_2; [split; reflexivity|]). apply Forall_nil_2.
Defined.

(** A process whose file cannot be read leaves the others waiting; when no
    process can read it, all return and may try again. *)
Definition without_file (m : sv_member) : sv_member :=
  mkSvMember (sm_node m) (sm_initialized m) (sm_client m) (sm_num_handlers m) (sm_drain m) (sm_pub_ip m) (sm_priv_ip m)
    (sm_margo m) (inl 2).

Example files_missing :
  let start := dspaces_server_init 64 false true "sm" (txt "dataspaces.conf") (fun _ => None) in
  match service_members with
  | [a; b] => start [a; without_file b] = None /\
              start [without_file a; without_file b]
                = Some ([mkSvOutcome dspaces_ERR_ALLOCATION None false; mkSvOutcome dspaces_ERR_ALLOCATION None false], None)
  | _ => False
  end.
Proof. split; vm_compute; reflexivity. Qed.

(** The exchange over memory that holds something else. *)
Example gathered : gather_strings ["sm://a"; ""; "sm://bb"] = Some ["sm://a"; ""; "sm://bb"].
Proof. vm_compute. reflexivity. Qed.

(** Five streams on a server with four numbers. *)
Example streams :
  fst (get_handler_id 9 0 (snd (get_handler_id 7 0 (snd (get_handler_id 9 0 (init_rmap 4)))))) = 0 /\
  fst (get_handler_id 5 0 (rmap_of [9; 7; 3; 2] 0)) = -1.
Proof. split; reflexivity. Qed.
