(* ===== verification/PyClient.v ===== *)
(** * PyClient: the Python interface of a client

    [src/bindings/python/dspaces_wrapper.c]: what a Python program hands to
    the client library and what it gets back.  NumPy counts its fastest
    dimension last and DataSpaces first, so the wrapper reverses the indices;
    the theorem follows arrays from the programs that put them, through the
    cluster, to the program that gets a region of them. *)

From S2P Require Import Prelude BBox ObjDesc Linear Sspace DhtEntry StrHash LocalStorage Matrix Codec Modules Server Cluster Client Access EndToEnd Calls Exec ModCalls Ops PyMods.

(** ** Numbers and arrays *)

(** [PyLong_AsLong] into a [uint64_t]: -1 for what is not a [long]. *)
Definition py_as_u64 (z : Z) : Z := u64 (if (- 2 ^ 63 <=? z) && (z <? 2 ^ 63) then z else -1).

(** The loops over a tuple in the reversed order; [PyTuple_GetItem] past the
    end is a null pointer, of which [PyLong_AsLong] makes -1. *)
Definition tuple_corner (ndim : nat) (l : list Z) : list Z :=
  rev (map (fun i => py_as_u64 (nth i l (-1))) (seq 0 ndim)).

(** NumPy: the size of an element of a type number, and the array that
    [PyArray_NewFromDescr] makes over a buffer when it is given no strides
    (dimensions, type number, size of an element, buffer). *)
Class NumPyNew := {
  type_itemsize : Z -> Z;
  PyArray_NewFromDescr : list Z -> Z -> Z -> list Z -> numpy
}.

(** Its documented behaviour: the buffer is not copied, and its elements are
    in C order. *)
Class NumPyNewOk `{NN : NumPyNew} := {
  new_dims dims typenum size data : np_dims (PyArray_NewFromDescr dims typenum size data) = dims;
  new_type dims typenum size data : np_type (PyArray_NewFromDescr dims typenum size data) = typenum;
  new_itemsize dims typenum size data : np_itemsize (PyArray_NewFromDescr dims typenum size data) = size;
  new_data dims typenum size data : np_data (PyArray_NewFromDescr dims typenum size data) = data;
  new_order dims typenum size data idx : in_range dims idx ->
    np_offset (PyArray_NewFromDescr dims typenum size data) idx = size * nd_offset dims idx
}.

Section Wrapper.
Context `{E : Env} `{CE : ClientEnv} `{NN : NumPyNew}.

(** ** Puts and gets *)

(** What [wrapper_dspaces_put] asks a server for. *)
Definition wrapper_dspaces_put (c : client) (arr : numpy) (name : string) (version : Z) (offset : list Z) : option put_request :=
  let ndim := length (np_dims arr) in
  let lb := tuple_corner ndim offset in
  let ub := rev (map (fun i => u64 (py_as_u64 (nth i offset (-1)) + (nth i (np_dims arr) 0 - 1))) (seq 0 ndim)) in
  dspaces_put_tag c name version (i32 (np_itemsize arr)) (i32 (np_type arr)) ndim lb ub (np_data arr).

(** The array over a result; the type of its elements is the result's unless
    the caller names one, with its size. *)
Definition array_of_req (dtype : option (Z * Z)) (out : ds_req) : option (option numpy) :=
  match req_buf out with
  | None => Some None
  | Some data =>
      let '(typenum, itemsize) := default (req_tag out, type_itemsize (req_tag out)) dtype in
      Some (Some (PyArray_NewFromDescr (rev (map (fun lu => i64 (u64 (snd lu - fst lu + 1))) (combine (req_lb out) (req_ub out))))
                    typenum itemsize data))
  end.

(** [wrapper_dspaces_get]; [Some None] is Python's [None].  [dims] has as many
    places as the corners of the caller, and an answer of more dimensions is
    written past it. *)
Definition wrapper_dspaces_get query fetch (c : client) (name : string) (version : Z) (lbt ubt : list Z)
    (dtype : option (Z * Z)) (timeout : Z) : option (option numpy) :=
  let ndim := length lbt in
  let in_req := mkReq name version 0 ndim (tuple_corner ndim lbt) (tuple_corner ndim ubt) None 0 in
  out ← dspaces_get_req query fetch c in_req timeout;
  match out with
  | None => Some None
  | Some out => if (req_ndim out <=? ndim)%nat then array_of_req dtype out else None
  end.

(** ** Modules and functions *)

(** Every parameter is sent as JSON text. *)
Definition json_params (params : list (string * string)) : dsp_dict :=
  map (fun kv => mkEntry DSP_JSON (fst kv) (DV_str (snd kv))) params.

(** The array, or [None], with the error code. *)
Definition wrapper_dspaces_get_module call fetch (c : client) (module : string) (params : list (string * string))
    : option (option numpy * Z) :=
  '(err, out) ← dspaces_get_module call fetch c module (json_params params);
  match out with
  | None => Some (None, err)
  | Some out => arr ← array_of_req None out; Some (arr, err)
  end.

(** One argument of a function: [None] is Python's. *)
Record py_req := mkPyReq {
  pr_var_name : string;
  pr_ver : Z;
  pr_lb : option (list Z);
  pr_ub : option (list Z)
}.

(** The request, or the exception raised. *)
Definition exec_request (r : py_req) : string + ds_req :=
  let req ndim lb ub := mkReq (pr_var_name r) (i32 (i64 (py_as_u64 (pr_ver r)))) 0 ndim lb ub None 0 in
  match pr_lb r, pr_ub r with
  | None, None => inr (req 0%nat [] [])
  | Some l, Some u =>
      if (length l =? length u)%nat then inr (req (length l) (tuple_corner (length l) l) (tuple_corner (length l) u))
      else inl "lb and ub must have the same length"%string
  | _, _ => inl "both lb and ub must be set or neither"%string
  end.

Fixpoint exec_requests (rs : list py_req) : string + list ds_req :=
  match rs with
  | [] => inr []
  | r :: rs =>
      match exec_request r with
      | inl e => inl e
      | inr q => match exec_requests rs with inl e => inl e | inr qs => inr (q :: qs) end
      end
  end.

(** [wrapper_dspaces_pexec] on a serialised function: its bytes are sent with
    a terminator.  When the call fails the size of the result is not set. *)
Definition wrapper_dspaces_pexec call (c : client) (req_list : list py_req) (fn : list Z) : option (string + option (list Z)) :=
  match exec_requests req_list with
  | inl e => Some (inl e)
  | inr reqs =>
      '(ret, data) ← dspaces_mpexec call c reqs (fn ++ [0]);
      if ret =? dspaces_SUCCESS then Some (inr data) else None
  end.

(** ** Dimensions, listings, expressions *)

Definition wrapper_dspaces_define_gdim (c : client) (name : string) (gdimt : list Z) : option client :=
  let ndim := length gdimt in
  dspaces_define_gdim c name ndim (fun i => nth i (tuple_corner ndim gdimt) 0).

(** A listing: the names, nothing when the call failed. *)
Definition names_listed (r : Z * list string) : option (list string) := if fst r <? 0 then None else Some (snd r).

Definition wrapper_dspaces_get_vars (reply : option (list string)) : option (list string) := names_listed (dspaces_get_var_names reply).

Definition wrapper_dspaces_get_modules (reply : option (Z * list string)) : option (list string) :=
  names_listed (dspaces_get_modules reply).

(** The corners are handed out in the order of DataSpaces. *)
Definition wrapper_dspaces_get_var_objs (reply : option (list obj_descriptor)) (name : string)
    : option (list (string * Z * list Z * list Z)) :=
  let '(num_obj, objs) := dspaces_get_var_objs reply name in
  if num_obj <? 0 then None
  else Some (map (fun o => (do_name o, do_version o, map i64 (do_lb o), map i64 (do_ub o))) objs).

(** The corners are taken in the order of DataSpaces; [type] is the name of
    the Python type. *)
Definition wrapper_dspaces_ops_new_obj (od : obj_data) (gdim : global_dimension) (name : string) (version : Z)
    (lbt ubt : list Z) (type : string) : option (string + ds_expr) :=
  let ndim := length lbt in
  let corner l := map (fun i => py_as_u64 (nth i l (-1))) (seq 0 ndim) in
  if String.eqb type "float" then e ← dspaces_op_new_obj od gdim name version DS_VAL_REAL ndim (corner lbt) (corner ubt); Some (inr e)
  else if String.eqb type "int" then e ← dspaces_op_new_obj od gdim name version DS_VAL_INT ndim (corner lbt) (corner ubt); Some (inr e)
  else Some (inl "type must be int or float"%string).

(** What [wrapper_dspaces_ops_calc] hands back; a float is its word. *)
Inductive py_value :=
| Py_int (z : Z)
| Py_float (w : Z)
| Py_array (a : numpy)
| Py_TypeError (msg : string).

Definition NPY_INT64 : Z := 7.
Definition NPY_FLOAT64 : Z := 12.

(** An [int] result is read as a [long], or as an array of them; nothing is
    read when the call has failed, which is not looked at. *)
Definition wrapper_dspaces_ops_calc (reply : option (Z * list Z)) (expr : ds_expr) : option py_value :=
  '(_, result_buf) ← dspaces_op_calc reply (e_size expr);
  dims ← dspaces_op_get_result_size expr;
  let etype := e_type expr in
  let invalid := Some (Py_TypeError "invalid type assigned to expression (corruption?)"%string) in
  match dims with
  | [] =>
      let word := buf ← result_buf; if (8 <=? length buf)%nat then Some (of_le_bytes (take 8 buf)) else None in
      if etype =? DS_VAL_INT then w ← word; Some (Py_int (i64 w))
      else if etype =? DS_VAL_REAL then w ← word; Some (Py_float w)
      else invalid
  | _ =>
      let array typenum := buf ← result_buf; Some (Py_array (PyArray_NewFromDescr (map i64 dims) typenum (type_itemsize typenum) buf)) in
      if etype =? DS_VAL_INT then array NPY_INT64
      else if etype =? DS_VAL_REAL then array NPY_FLOAT64
      else invalid
  end.

(** The namespace of a registration and its number. *)
Definition wrapper_dspaces_register (call : reg_in -> option Z) (type name data : string) (id : Z) : option string * Z :=
  let '(id, nspace) := dspaces_register_simple call type name data id in (nspace, id).
End Wrapper.

(** ** Corners *)

(** An index as a point: reversed, then zeros. *)
Definition point (l : list Z) : coord := rev l ++ replicate (BBOX_MAX_NDIM - length l) 0.

Definition py_box (lbt ubt : list Z) : bbox := mkBBox (length lbt) (point lbt) (point ubt).

(** An integer that is a coordinate on both sides. *)
Definition in_coord (z : Z) : Prop := 0 <= z < 2 ^ 63.

Lemma cget_point l i : (i < length l)%nat -> cget (point l) i = nth (length l - S i) l 0.
Proof.
  intros Hi. unfold cget, point. rewrite app_nth1 by (by rewrite length_rev). by rewrite rev_nth.
Qed.

Lemma point_relation (R : Z -> Z -> Prop) l l' : length l = length l' ->
  Forall2 R l l' <-> forall i, (i < length l)%nat -> R (cget (point l) i) (cget (point l') i).
Proof.
  intros Hl. rewrite Forall2_lookup. split.
  - intros H i Hi. rewrite !cget_point by lia. rewrite <- Hl. set (j := (length l - S i)%nat).
    destruct (lookup_lt_is_Some_2 l j) as [x Hx]; [lia|]. destruct (lookup_lt_is_Some_2 l' j) as [y Hy]; [lia|].
    rewrite (nth_lookup_Some _ _ _ _ Hx), (nth_lookup_Some _ _ _ _ Hy). specialize (H j). rewrite Hx, Hy in H. by inversion H.
  - intros H j. destruct (l !! j) as [x|] eqn:Hx.
    + pose proof (lookup_lt_Some _ _ _ Hx) as Hj. destruct (lookup_lt_is_Some_2 l' j) as [y Hy]; [lia|]. rewrite Hy. constructor.
      specialize (H (length l - S j)%nat ltac:(lia)). rewrite !cget_point, <- Hl in H by lia.
      replace (length l - S (length l - S j))%nat with j in H by lia.
      by rewrite (nth_lookup_Some _ _ _ _ Hx), (nth_lookup_Some _ _ _ _ Hy) in H.
    + apply lookup_ge_None in Hx. rewrite (proj2 (lookup_ge_None l' j)) by lia. constructor.
Qed.

Lemma rev_points (f : Z -> Z -> Z) l l' : length l = length l' ->
  rev (map (fun i => f (cget (point l) i) (cget (point l') i)) (seq 0 (length l))) = zip_with f l l'.
Proof.
  intros Hl. apply list_eq. intros j. rewrite lookup_zip_with. destruct (l !! j) as [x|] eqn:Hx.
  - pose proof (lookup_lt_Some _ _ _ Hx) as Hj. destruct (lookup_lt_is_Some_2 l' j) as [y Hy]; [lia|]. rewrite Hy.
    cbn [mbind option_bind]. rewrite rev_alt. change (rev_append ?k []) with (reverse k).
    rewrite reverse_lookup by (rewrite length_map, length_seq; lia).
    rewrite length_map, length_seq. change (map ?g ?k) with (g <$> k).
    rewrite list_lookup_fmap, lookup_seq_lt by lia. cbn [fmap option_fmap option_map]. rewrite !cget_point, <- Hl by lia.
    replace (length l - S (0 + (length l - S j)))%nat with j by lia.
    by rewrite (nth_lookup_Some _ _ _ _ Hx), (nth_lookup_Some _ _ _ _ Hy).
  - apply lookup_ge_None in Hx. cbn. apply lookup_ge_None. by rewrite length_rev, length_map, length_seq.
Qed.

(** A point of a box as an index of Python. *)
Definition index_of (n : nat) (pt : coord) : list Z := rev (map (cget pt) (seq 0 n)).

Lemma length_index n pt : length (index_of n pt) = n.
Proof. unfold index_of. by rewrite length_rev, length_map, length_seq. Qed.

Lemma index_of_coord n pt i : (i < n)%nat -> cget (point (index_of n pt)) i = cget pt i.
Proof.
  intros Hi. rewrite cget_point by (by rewrite length_index). rewrite length_index. unfold index_of.
  rewrite rev_nth by (rewrite length_map, length_seq; lia). rewrite length_map, length_seq.
  replace (n - S (n - S i))%nat with i by lia.
  rewrite (nth_indep _ 0 (cget pt 0)) by (rewrite length_map, length_seq; lia). rewrite map_nth, seq_nth by lia. done.
Qed.

(** Between the corners, which are included. *)
Definition in_bounds (lbt ubt idx : list Z) : Prop := Forall2 Z.le lbt idx /\ Forall2 Z.le idx ubt.

Lemma in_bounds_box lbt ubt idx : length lbt = length ubt -> length idx = length lbt ->
  in_bounds lbt ubt idx <-> in_box (point idx) (py_box lbt ubt).
Proof.
  intros Hl Hi. unfold in_bounds, in_box, py_box. cbn [num_dims lb ub]. rewrite !point_relation by lia. rewrite Hi.
  split; [intros [H1 H2] i Hlt; split; [by apply H1|by apply H2]|intros H; split; intros i Hlt; by apply H].
Qed.

Lemma in_box_index b pt : in_box pt b <-> in_box (point (index_of (num_dims b) pt)) b.
Proof. unfold in_box. split; intros H i Hi; specialize (H i Hi); by rewrite index_of_coord in * by done. Qed.

Lemma py_box_shape lbt ubt : length lbt = length ubt -> nd_shape (py_box lbt ubt) = zip_with (fun l u => u - l + 1) lbt ubt.
Proof. intros Hl. unfold nd_shape, py_box. cbn [num_dims]. by rewrite <- (rev_points (fun l u => u - l + 1)). Qed.

Lemma py_box_index lbt ubt idx : length idx = length lbt -> nd_index (py_box lbt ubt) (point idx) = zip_with Z.sub idx lbt.
Proof. intros Hl. unfold nd_index, py_box. cbn [num_dims lb]. by rewrite <- rev_points, Hl. Qed.

Lemma tuple_corner_rev l : Forall in_coord l -> tuple_corner (length l) l = rev l.
Proof.
  intros H. unfold tuple_corner. f_equal. apply list_eq. intros i. change (map ?g ?k) with (g <$> k). rewrite list_lookup_fmap.
  destruct (l !! i) as [x|] eqn:Hx.
  - rewrite lookup_seq_lt by (by eapply lookup_lt_Some). cbn [fmap option_fmap option_map]. rewrite Forall_lookup in H.
    specialize (H i x Hx). unfold in_coord in H. cbn [Nat.add]. rewrite (nth_lookup_Some _ _ _ _ Hx). unfold py_as_u64.
    destruct (Z.leb_spec (- 2 ^ 63) x), (Z.ltb_spec x (2 ^ 63)); try lia. cbn [andb]. by rewrite u64_small by lia.
  - apply lookup_ge_None in Hx. by rewrite lookup_seq_ge.
Qed.

(** ** Arrays in the default order *)

(** An array in C order, of sizes within the code's integers. *)
Record c_array (a : numpy) : Prop := {
  ca_ndim : (1 <= length (np_dims a) <= 9)%nat;
  ca_dims : Forall (fun d => 0 < d) (np_dims a);
  ca_item : 0 < np_itemsize a;
  ca_small : np_itemsize a * zprodl (np_dims a) < 2 ^ 31;
  ca_data : np_itemsize a * zprodl (np_dims a) <= Z.of_nat (length (np_data a));
  ca_order : forall idx, in_range (np_dims a) idx -> np_offset a idx = np_itemsize a * nd_offset (np_dims a) idx
}.

Lemma zvolume_shape b : zvolume b = zprodl (nd_shape b).
Proof.
  unfold zvolume, nd_shape. rewrite zprodl_rev, <- zprod_dim_at, length_map, length_seq. apply zprod_ext. intros i Hi.
  unfold dim_at. rewrite (nth_indep _ 0 (side b 0)) by (rewrite length_map, length_seq; lia). by rewrite map_nth, seq_nth by lia.
Qed.

(** The corner opposite to [off]. *)
Definition far_corner (off dims : list Z) : list Z := zip_with (fun o d => o + (d - 1)) off dims.

Lemma length_far off dims : length off = length dims -> length (far_corner off dims) = length off.
Proof. intros H. unfold far_corner. rewrite length_zip_with. lia. Qed.

Lemma far_sizes off dims : length off = length dims -> zip_with (fun l u => u - l + 1) off (far_corner off dims) = dims.
Proof.
  unfold far_corner. revert dims. induction off as [|o off IH]; intros [|d dims] H; try done. injection H as H. cbn [zip_with].
  rewrite (IH dims H). f_equal. lia.
Qed.

Lemma sub_in_range lbt ubt idx : in_bounds lbt ubt idx ->
  in_range (zip_with (fun l u => u - l + 1) lbt ubt) (zip_with Z.sub idx lbt).
Proof.
  intros [H1 H2]. revert ubt H2. induction H1 as [|l k lbt idx Hlk H1 IH]; intros ubt H2; inversion H2; subst; cbn; constructor; [lia|].
  by apply IH.
Qed.

(** The elements of a C-ordered buffer are those of its box. *)
Lemma box_item size l u idx : length l = length u -> (0 < length l)%nat -> in_bounds l u idx ->
  let pos := box_pos (py_box l u) (point idx) in
  let dims := zip_with (fun l u => u - l + 1) l u in
  nd_offset dims (zip_with Z.sub idx l) = pos /\ (0 < size -> 0 <= size * pos /\ size * pos + size <= size * zprodl dims).
Proof.
  intros Hl Hn Hi. assert (Hli : length idx = length l) by (by destruct Hi as [->%Forall2_length _]).
  pose proof (nd_offset_bound _ _ (sub_in_range _ _ _ Hi)) as Hb.
  cbv zeta. rewrite <- (nd_offset_pos (py_box l u)), py_box_shape, py_box_index by done. split; [done|]. intros. nia.
Qed.

(** Slices of the same bytes. *)
Lemma slice_ext off off' len l l' : 0 <= off -> 0 <= off' ->
  (forall t, 0 <= t < len -> l !! Z.to_nat (off + t) = l' !! Z.to_nat (off' + t)) -> slice off len l = slice off' len l'.
Proof.
  intros Ho Ho' H. apply list_eq. intros i. unfold slice. destruct (decide (i < Z.to_nat len)%nat) as [Hi|Hi].
  - rewrite !lookup_take_lt, !lookup_drop by done. specialize (H (Z.of_nat i) ltac:(lia)).
    by rewrite !Z2Nat.inj_add, !Nat2Z.id in H by lia.
  - by rewrite !lookup_take_ge by lia.
Qed.

(** ** Boxes of the corners *)

Lemma py_box_valid lbt ubt : length lbt = length ubt -> (length lbt <= BBOX_MAX_NDIM)%nat ->
  Forall in_coord lbt -> Forall in_coord ubt -> Forall2 Z.le lbt ubt ->
  valid_box (py_box lbt ubt) /\ forall i, (i < length lbt)%nat -> cget (point ubt) i < 2 ^ 63.
Proof.
  intros Hl Hn H1 H2 Hle.
  assert (Hwf : forall l, (length l <= BBOX_MAX_NDIM)%nat -> Forall in_coord l -> wf_coord (point l)).
  { intros l Hll Hc. unfold point. split; [rewrite length_app, length_rev, length_replicate; lia|]. apply Forall_app. split.
    - apply Forall_rev. eapply Forall_impl; [exact Hc|]. intros x Hx. unfold in_coord, in_u64 in *. lia.
    - apply Forall_replicate. unfold in_u64. lia. }
  split.
  - split.
    + split; [exact Hn|]. split; apply Hwf; by rewrite <- ?Hl.
    + intros i Hi. by apply (proj1 (point_relation Z.le lbt ubt Hl) Hle).
  - intros i Hi. rewrite cget_point by lia. rewrite Forall_forall in H2.
    apply (H2 (nth (length ubt - S i) ubt 0)), list_elem_of_In, nth_In. lia.
Qed.

Lemma py_user_box lbt ubt : length lbt = length ubt -> (length lbt <= BBOX_MAX_NDIM)%nat ->
  user_box (length lbt) (rev lbt) (rev ubt) = Some (py_box lbt ubt).
Proof.
  intros Hl Hn. unfold user_box, copy_coord, py_box, point. rewrite !length_rev, <- Hl, Nat.leb_refl.
  destruct (Nat.leb_spec (length lbt) BBOX_MAX_NDIM); [|lia]. cbn [andb mbind option_bind].
  by rewrite !take_ge by (rewrite length_rev; lia).
Qed.

Lemma py_box_copyable size lbt ubt data : length lbt = length ubt -> (1 <= length lbt <= 9)%nat ->
  Forall in_coord lbt -> Forall in_coord ubt -> Forall2 Z.le lbt ubt -> 0 < size ->
  let dims := zip_with (fun l u => u - l + 1) lbt ubt in
  Z.of_nat (length data) = size * zprodl dims -> size * zprodl dims < 2 ^ 31 -> copyable size (py_box lbt ubt) data.
Proof.
  intros Hl Hn H1 H2 Hle Hs dims Hd Hsm. destruct (py_box_valid lbt ubt) as [Hv Hu]; try done; [unfold BBOX_MAX_NDIM; lia|].
  unfold copyable. rewrite zvolume_shape, py_box_shape by done. fold dims. split_and!; try done; try (cbn [num_dims py_box]; lia).
Qed.

(** ** What a Python put publishes *)

Section PyGet.
Context `{E : Env} `{CE : ClientEnv} `{NN : NumPyNew}.

(** The put [p] is that of the array [a] at [off]. *)
Record py_put (p : put) (a : numpy) (off : list Z) : Prop := {
  pp_array : c_array a;
  pp_off : length off = length (np_dims a);
  pp_lb : Forall in_coord off;
  pp_ub : Forall in_coord (far_corner off (np_dims a));
  pp_made : exists cl name ver, wrapper_dspaces_put cl a name ver off = Some (pt_odsc p, pt_gdim p, pt_data p)
}.

Lemma far_le off dims : length off = length dims -> Forall (fun d => 0 < d) dims -> Forall2 Z.le off (far_corner off dims).
Proof.
  unfold far_corner. intros Hl Hd. revert off Hl. induction Hd as [|d dims Hd0 Hd IH]; intros [|o off] Hl; try done; cbn [zip_with].
  injection Hl as Hl. constructor; [lia|by apply IH].
Qed.

(** The wrapper's second corner. *)
Lemma put_corner off dims : length off = length dims -> Forall in_coord off -> Forall in_coord (far_corner off dims) ->
  rev (map (fun i => u64 (py_as_u64 (nth i off (-1)) + (nth i dims 0 - 1))) (seq 0 (length dims))) = rev (far_corner off dims).
Proof.
  intros Hl Ho Hf. f_equal. unfold far_corner in *. apply list_eq. intros i. change (map ?g ?k) with (g <$> k). rewrite list_lookup_fmap, lookup_zip_with.
  destruct (dims !! i) as [d|] eqn:Hd.
  - pose proof (lookup_lt_Some _ _ _ Hd) as Hi. destruct (lookup_lt_is_Some_2 off i) as [o Hoi]; [lia|].
    rewrite Hoi, lookup_seq_lt by done. cbn [fmap option_fmap option_map mbind option_bind Nat.add].
    rewrite (nth_lookup_Some _ _ _ _ Hoi), (nth_lookup_Some _ _ _ _ Hd).
    rewrite Forall_lookup in Ho, Hf. pose proof (Ho i o Hoi) as Hoc. pose proof (Hf i (o + (d - 1))) as Hfc.
    rewrite lookup_zip_with, Hoi, Hd in Hfc. specialize (Hfc eq_refl). unfold in_coord, py_as_u64 in *.
    destruct (Z.leb_spec (- 2 ^ 63) o), (Z.ltb_spec o (2 ^ 63)); try lia. cbn [andb]. rewrite (u64_small o) by lia. by rewrite u64_small by lia.
  - apply lookup_ge_None in Hd. rewrite lookup_seq_ge by lia. rewrite (proj2 (lookup_ge_None off i)) by lia. done.
Qed.

Lemma py_put_facts p a off : py_put p a off ->
  od_bb (pt_odsc p) = py_box off (far_corner off (np_dims a)) /\ od_size (pt_odsc p) = np_itemsize a /\
  od_flags (pt_odsc p) = 0 /\ od_tag (pt_odsc p) = i32 (np_type a) /\
  pt_data p = take (Z.to_nat (np_itemsize a * zprodl (np_dims a))) (np_data a) /\
  copyable (np_itemsize a) (od_bb (pt_odsc p)) (pt_data p).
Proof.
  intros [Ha Hl Hlb Hub (cl & name & ver & H)]. pose proof Ha as []. pose proof (zprodl_pos _ ca_dims0) as Hz.
  assert (Hi : np_itemsize a < 2 ^ 31) by (clear - Hz ca_item0 ca_small0; nia).
  pose proof (length_far off (np_dims a) Hl) as Hlf. pose proof (far_sizes off (np_dims a) Hl) as Hsz.
  unfold wrapper_dspaces_put in H. rewrite put_corner, <- Hl, tuple_corner_rev in H by done.
  unfold dspaces_put_tag in H. rewrite (i32_small (np_itemsize a)) in H by lia. destruct (Z.ltb_spec (np_itemsize a) 0) as [|_]; [lia|].
  cbn [mbind option_bind] in H. unfold put_odsc in H. rewrite py_user_box in H by (unfold BBOX_MAX_NDIM; lia). cbn [mbind option_bind] in H.
  unfold copy_var_name_to_odsc in H. destruct (copy_var_name _ _ _) as [buf|]; [|done]. cbn [mbind option_bind] in H.
  unfold make_put, expose, obj_data_size in H. cbn [od_bb od_size set_name od_name od_st od_flags od_tag od_type od_owner od_version] in H.
  rewrite bbox_volume_zvolume, zvolume_shape, py_box_shape, Hsz in H by done.
  rewrite !u64_small in H by (rewrite ?u64_small by nia; nia).
  destruct (Nat.leb_spec (Z.to_nat (np_itemsize a * zprodl (np_dims a))) (length (np_data a))) as [Hle|]; [|lia].
  cbn [mbind option_bind] in H. injection H as Ho Hg Hd. rewrite <- Ho, <- Hd. cbn [od_bb od_size od_flags od_tag].
  split; [done|]. split; [done|]. split; [done|]. split; [done|]. split; [done|].
  apply py_box_copyable; try done; [lia|by apply far_le| |].
  - rewrite Hsz, length_take. clear - ca_data0 ca_item0 Hz. nia.
  - by rewrite Hsz.
Qed.

(** ** The region read *)

(** Members of a history that compete are the same. *)
Lemma compatible_unique_map {A} mv (f : A -> obj_descriptor) l x y :
  compatible mv (map f l) -> In x l -> In y l -> ~ apart mv (f x) (f y) -> x = y.
Proof.
  intros Hc Hx Hy Hn. apply list_elem_of_In, elem_of_Permutation in Hx as [l' Hx]. apply list_elem_of_In in Hy. rewrite Hx in Hy.
  apply elem_of_cons in Hy as [->|Hy]; [done|]. destruct Hn.
  assert (Hp : map f l ≡ₚ f x :: map f l') by (change (f x :: map f l') with (map f (x :: l')); by apply Permutation_map).
  apply Hc in Hp. rewrite Forall_forall in Hp. by apply Hp, list_elem_of_In, in_map, list_elem_of_In.
Qed.

(** A point belongs to one put of a name and version. *)
Lemma one_put mv dom (ps : list put) p p' q pt : compatible mv (map (fun p => key (pt_odsc p)) ps) ->
  Forall (fun p => publishable dom (pt_odsc p)) ps -> In p ps -> In p' ps ->
  obj_desc_equals_intersect (pt_odsc p) q = true -> obj_desc_equals_intersect (pt_odsc p') q = true ->
  in_box pt (od_bb (pt_odsc p)) -> in_box pt (od_bb (pt_odsc p')) -> p = p'.
Proof.
  intros Hc Hpub Hp Hp' (En & Ev & _)%obj_desc_equals_intersect_spec (En' & Ev' & _)%obj_desc_equals_intersect_spec Hb Hb'.
  apply (compatible_unique_map mv (fun p => key (pt_odsc p)) ps); try done.
  rewrite Forall_forall in Hpub. destruct (Hpub p) as [Hv Hd]; [by apply list_elem_of_In|].
  destruct (Hpub p') as [Hv' Hd']; [by apply list_elem_of_In|].
  intros [Ha|Ha]; cbn [key set_flags set_owner od_version] in Ha; [congruence|].
  unfold obj_desc_by_name_intersect in Ha. cbn [key set_flags set_owner od_name od_bb] in Ha.
  rewrite En, En', String.eqb_refl in Ha. cbn [andb] in Ha.
  assert (Hi : bbox_does_intersect (od_bb (pt_odsc p)) (od_bb (pt_odsc p')) = true)
    by (apply does_intersect_common; [done|done|congruence|by exists pt]). congruence.
Qed.

(** The query of a Python program. *)
Definition py_query (cl : client) (name : string) (ver : Z) (lbt ubt : list Z) : option obj_descriptor :=
  fill_odsc cl name ver 0 (length lbt) (tuple_corner (length lbt) lbt) (tuple_corner (length lbt) ubt) []
    (mkOdsc "" row_major 0 0 0 "" 0 zero_bbox 0).

(** A region a Python program can ask for: corners in order and in range, and
    a buffer within the code's integers. *)
Record py_region (size : Z) (lbt ubt : list Z) : Prop := {
  pr_ndim : (1 <= length lbt <= 9)%nat;
  pr_length : length ubt = length lbt;
  pr_low : Forall in_coord lbt;
  pr_high : Forall in_coord ubt;
  pr_order : Forall2 Z.le lbt ubt;
  pr_item : 0 < size;
  pr_small : size * zprodl (zip_with (fun l u => u - l + 1) lbt ubt) < 2 ^ 31
}.

Lemma py_query_facts size cl name ver lbt ubt q : py_region size lbt ubt -> py_query cl name ver lbt ubt = Some q ->
  od_bb q = py_box lbt ubt /\ od_flags q = 0.
Proof.
  intros [] H. unfold py_query in H. rewrite tuple_corner_rev in H by done.
  rewrite <- pr_length0 in H at 2. rewrite tuple_corner_rev in H by done.
  unfold fill_odsc in H. rewrite py_user_box in H by (unfold BBOX_MAX_NDIM; lia). cbn [mbind option_bind] in H.
  unfold copy_var_name_to_odsc in H. destruct (copy_var_name _ _ _); [|done]. cbn [mbind option_bind] in H. by injection H as <-.
Qed.

(** The buffer of a region has its size. *)
Lemma py_region_buffer size lbt ubt : py_region size lbt ubt ->
  exists data, result_buffer (num_elem (cget (point lbt)) (cget (point ubt)) (length lbt)) size = Some data /\
    copyable size (py_box lbt ubt) data.
Proof.
  intros []. destruct (py_box_valid lbt ubt) as [[Hw Hv] Hu]; try done; [unfold BBOX_MAX_NDIM; lia|]. cbn [py_box num_dims lb ub] in Hv.
  assert (Hz : zprod (length lbt) (fun i => cget (point ubt) i - cget (point lbt) i + 1) = zprodl (zip_with (fun l u => u - l + 1) lbt ubt))
    by (rewrite <- py_box_shape by done; by rewrite <- zvolume_shape).
  assert (Hp : 0 < zprodl (zip_with (fun l u => u - l + 1) lbt ubt))
    by (rewrite <- Hz; apply zprod_pos; intros i Hi; specialize (Hv i Hi); lia).
  rewrite num_elem_zprod; [|intros i Hi; specialize (Hv i Hi)|done|rewrite Hz; clear - pr_item0 pr_small0 Hp; nia].
  - rewrite Hz. set (v := zprodl _) in *. exists (malloc (Z.to_nat (v * size))). unfold result_buffer.
    destruct (Z.leb_spec 0 (v * size)), (Z.ltb_spec (v * size) (2 ^ 31)); try nia. split; [done|].
    apply py_box_copyable; try done. fold v. rewrite length_malloc. nia.
  - split; [|done]. destruct Hw as (_ & Hl & _). by apply wf_coord_range.
Qed.
End PyGet.

(** ** Results of expressions *)

Section PyOps.
Context `{E : Env} `{CE : ClientEnv} `{NO : NumPyNewOk}.

Lemma bulk_write_length buf size data buf' : bulk_write buf size data = Some buf' -> length buf' = length buf.
Proof.
  unfold bulk_write. destruct (Nat.leb_spec (length (take (Z.to_nat size) data)) (length buf)); [|done].
  intros [= <-]. rewrite length_app, length_drop. lia.
Qed.

Lemma op_calc_length reply size err buf : dspaces_op_calc reply size = Some (err, Some buf) -> length buf = Z.to_nat size.
Proof.
  unfold dspaces_op_calc. destruct reply as [[len bytes]|]; [|done].
  destruct (bulk_write _ _ bytes) as [cbuf|] eqn:E1; [|done]. cbn [mbind option_bind].
  apply bulk_write_length in E1. rewrite length_malloc in E1. destruct (negb (len =? 0)); [|by intros [= _ <-]].
  destruct (expose cbuf len); [|done]. cbn [mbind option_bind]. destruct (bulk_write _ _ (fst _)) as [b|] eqn:E2; [|done].
  apply bulk_write_length in E2. rewrite length_malloc in E2. by intros [= _ <-].
Qed.

(** An integer result without dimensions is read past its four bytes. *)
Lemma ops_calc_int_scalar reply expr : e_type expr = DS_VAL_INT -> e_size expr = 4 ->
  dspaces_op_get_result_size expr = Some [] -> wrapper_dspaces_ops_calc reply expr = None.
Proof.
  intros Ht Hs Hd. unfold wrapper_dspaces_ops_calc. rewrite Ht, Hs, Hd. destruct (dspaces_op_calc reply 4) as [[err [buf|]]|] eqn:E1; try done.
  cbn [mbind option_bind]. apply op_calc_length in E1. rewrite E1. done.
Qed.

(** The array over the integers of a variable has twice its bytes. *)
Lemma ops_calc_int_array reply od gdim name ver ndim lo hi expr arr : (0 < ndim)%nat -> type_itemsize NPY_INT64 = 8 ->
  dspaces_op_new_obj od gdim name ver DS_VAL_INT ndim lo hi = Some expr ->
  wrapper_dspaces_ops_calc reply expr = Some (Py_array arr) ->
  np_itemsize arr = 8 /\ length (np_data arr) = Z.to_nat (u64 (4 * bbox_volume (mkBBox ndim (take ndim lo ++ replicate (BBOX_MAX_NDIM - ndim) 0)
    (take ndim hi ++ replicate (BBOX_MAX_NDIM - ndim) 0)))).
Proof.
  intros Hn H8 He H. unfold dspaces_op_new_obj in He. destruct (negb _); [done|]. cbn in He. injection He as <-.
  unfold wrapper_dspaces_ops_calc in H. destruct (dspaces_op_calc _ _) as [[err buf]|] eqn:E1; [|done]. cbn [mbind option_bind] in H.
  cbn [dspaces_op_get_result_size obj_desc od_bb num_dims e_type e_size mbind option_bind] in *.
  destruct ndim as [|n]; [lia|]. cbn [seq map] in H. destruct buf as [b|]; [|done]. cbn [mbind option_bind Z.eqb DS_VAL_INT] in H.
  injection H as <-. rewrite new_itemsize, new_data. split; [done|]. by apply op_calc_length in E1.
Qed.
End PyOps.

(** Corners are reversed in a query and not in an expression. *)
Lemma ops_new_obj_corners `{CE : ClientEnv} od gdim name ver lbt ubt e : length lbt = length ubt -> Forall in_coord lbt ->
  wrapper_dspaces_ops_new_obj od gdim name ver lbt ubt "int" = Some (inr e) ->
  match e with
  | Expr _ (P_od d) _ _ _ => take (length lbt) (lb (od_bb (obj_desc d))) = lbt
  | _ => False
  end.
Proof.
  intros Hl Hc H. unfold wrapper_dspaces_ops_new_obj in H. cbn [String.eqb Ascii.eqb Bool.eqb] in H.
  destruct (dspaces_op_new_obj _ _ _ _ _ _ _ _) as [e'|] eqn:He; [|done]. cbn [mbind option_bind] in H. injection H as <-.
  unfold dspaces_op_new_obj in He. destruct (negb _); [done|]. cbn in He. injection He as <-. cbn [obj_desc od_bb lb].
  pose proof (tuple_corner_rev lbt Hc) as Hr. unfold tuple_corner in Hr. apply (f_equal (@rev Z)) in Hr. rewrite !rev_involutive in Hr.
  rewrite Hr, firstn_all, take_app_length. done.
Qed.

(** ** From Python to Python *)

Section RoundTrip.
Context `{E : Env} `{CE : ClientEnv} `{NO : NumPyNewOk}.
Context (N : nat) (addr : nat -> string) (conf : ds_conf).
Hypothesis Hconf : conf_ok N conf.
Hypothesis Haddr : forall i j, (i < N)%nat -> (j < N)%nat -> addr i = addr j -> i = j.
Hypothesis Hlz4 : lz4_ok.

Let dom := conf_domain conf.
Let mv := conf_max_versions conf.

(** What the theorem assumes of the puts: those of the name and version of
    [q] come from Python, with elements of one type, and they cover the
    region. *)
Record py_covered (ps : list put) (q : obj_descriptor) (typenum : Z) (lbt ubt : list Z) : Prop := {
  pc_python : forall p, In p ps -> obj_desc_equals_intersect (pt_odsc p) q = true ->
    exists a off, py_put p a off /\ np_type a = typenum /\ np_itemsize a = type_itemsize typenum;
  pc_cover : forall idx, in_bounds lbt ubt idx -> exists p, In p ps /\
    obj_desc_equals_intersect (pt_odsc p) q = true /\ in_box (point idx) (od_bb (pt_odsc p))
}.

(** The descriptor the results are read into. *)
Definition py_target (typenum : Z) (q : obj_descriptor) : obj_descriptor :=
  set_tag_type typenum (od_type q) (set_size (type_itemsize typenum) q).

Lemma region_dims size lbt ubt : py_region size lbt ubt -> Forall (fun d => 0 < d) (zip_with (fun l u => u - l + 1) lbt ubt).
Proof. intros []. clear - pr_order0. induction pr_order0; cbn; constructor; [lia|done]. Qed.

Lemma region_pos size lbt ubt : py_region size lbt ubt -> 0 < zprodl (zip_with (fun l u => u - l + 1) lbt ubt).
Proof. intros H. by eapply zprodl_pos, region_dims. Qed.

Lemma py_side size lbt ubt i : py_region size lbt ubt -> (i < length lbt)%nat ->
  i64 (u64 (cget (point ubt) i - cget (point lbt) i + 1)) = cget (point ubt) i - cget (point lbt) i + 1.
Proof.
  intros H Hi. pose proof (region_dims _ _ _ H) as Hd. destruct H. set (dims := zip_with (fun l u => u - l + 1) lbt ubt) in *.
  destruct (zprodl_in dims (cget (point ubt) i - cget (point lbt) i + 1) Hd) as [H1 H2].
  - apply list_elem_of_In. unfold dims. rewrite <- (rev_points (fun l u => u - l + 1)) by done. apply -> in_rev.
    apply (in_map (fun i => cget (point ubt) i - cget (point lbt) i + 1)), in_seq. lia.
  - assert (cget (point ubt) i - cget (point lbt) i + 1 < 2 ^ 31) by (clear - H1 H2 pr_item0 pr_small0; nia).
    rewrite u64_small by lia. by rewrite i64_small by lia.
Qed.

(** The elements of the array read and of the array put. *)
Lemma read_item lbt ubt typenum data idx : length ubt = length lbt -> (1 <= length lbt)%nat -> in_bounds lbt ubt idx ->
  np_item (PyArray_NewFromDescr (zip_with (fun l u => u - l + 1) lbt ubt) typenum (type_itemsize typenum) data) (zip_with Z.sub idx lbt)
  = slice (type_itemsize typenum * box_pos (py_box lbt ubt) (point idx)) (type_itemsize typenum) data.
Proof.
  intros Hl Hn Hi. unfold np_item. rewrite new_itemsize, new_data, (new_order _ _ _ _ _ (sub_in_range _ _ _ Hi)).
  destruct (box_item 0 lbt ubt idx) as [-> _]; [done|lia|done|done].
Qed.

Lemma put_item p a off idx : py_put p a off -> in_bounds off (far_corner off (np_dims a)) idx ->
  let pos := np_itemsize a * box_pos (od_bb (pt_odsc p)) (point idx) in
  0 <= pos /\ np_item a (zip_with Z.sub idx off) = slice pos (np_itemsize a) (pt_data p).
Proof.
  intros Hp Hi. destruct (py_put_facts p a off Hp) as (-> & _ & _ & _ & -> & _). destruct Hp as [[] Hl _ _ _].
  destruct (box_item (np_itemsize a) off (far_corner off (np_dims a)) idx) as [Hpos Hb];
    [by rewrite length_far|lia|done|]. specialize (Hb ltac:(done)). pose proof (sub_in_range _ _ _ Hi) as Hr.
  rewrite far_sizes in Hpos, Hb, Hr by done. cbv zeta. split; [apply Hb|].
  unfold np_item. rewrite (ca_order0 _ Hr), Hpos. rewrite slice_take; [done|lia|lia|lia].
Qed.

(** Points of a box are indices between its corners. *)
Lemma covered_points ps q typenum lbt ubt : length ubt = length lbt -> length lbt = num_dims dom ->
  Forall (fun p => publishable dom (pt_odsc p)) ps -> py_covered ps q typenum lbt ubt ->
  forall pt, in_box pt (py_box lbt ubt) -> exists p, In p ps /\
    obj_desc_equals_intersect (pt_odsc p) q = true /\ in_box pt (od_bb (pt_odsc p)).
Proof.
  intros Hl Hd Hpub [_ Hc] pt Hpt. rewrite in_box_index in Hpt. cbn [py_box num_dims] in Hpt.
  destruct (Hc (index_of (length lbt) pt)) as (p & Hp & Hm & Hb); [by apply in_bounds_box; rewrite ?length_index|].
  exists p. split; [done|]. split; [done|]. rewrite in_box_index. rewrite Forall_forall in Hpub.
  destruct (Hpub p) as [_ ->]; [by apply list_elem_of_In|]. by rewrite <- Hd.
Qed.

(** The puts of a history are published and do not compete. *)
Lemma puts_of_history es1 es2 : Forall server_event (es1 ++ es2) ->
  compatible mv (map (fun so => key (snd so)) (puts (es1 ++ es2))) ->
  Forall (fun so => publishable dom (snd so)) (puts (es1 ++ es2)) ->
  compatible mv (map (fun p => key (pt_odsc p)) (all_puts es1)) /\ Forall (fun p => publishable dom (pt_odsc p)) (all_puts es1).
Proof.
  intros [Hse _]%Forall_app Hc Hpub.
  assert (Hputs : puts (es1 ++ es2) = map put_pair (all_puts es1) ++ puts es2)
    by (rewrite all_puts_published by done; apply flat_map_app).
  rewrite Hputs in Hc, Hpub. rewrite map_app, map_map in Hc. apply compatible_app_l in Hc. apply Forall_app in Hpub as [Hpub _].
  split; [done|]. apply Forall_forall. intros p Hp. rewrite Forall_forall in Hpub.
  by apply (Hpub (put_pair p)), list_elem_of_In, in_map, list_elem_of_In.
Qed.

(** The wrapper's call, once the answer of the query and the fetches are
    known. *)
Lemma wrapper_get_returns query fetch cl name ver lbt ubt q typenum res data0 data' :
  py_region (type_itemsize typenum) lbt ubt -> py_query cl name ver lbt ubt = Some q -> cl_nspace cl = None ->
  query q (client_gdim cl q) 0 = Some res -> res <> [] ->
  (forall d, d ∈ res -> od_flags d = 0 /\ od_size d = type_itemsize typenum /\ od_tag d = typenum) ->
  result_buffer (num_elem (cget (point lbt)) (cget (point ubt)) (length lbt)) (type_itemsize typenum) = Some data0 ->
  get_data fetch (py_target typenum q) res data0 = Some data' ->
  wrapper_dspaces_get query fetch cl name ver lbt ubt None 0
  = Some (Some (PyArray_NewFromDescr (zip_with (fun l u => u - l + 1) lbt ubt) typenum (type_itemsize typenum) data')).
Proof.
  intros Hreg Hpq Hns Hquery Hne Hres Hbuf Hget. destruct (py_query_facts _ _ _ _ _ _ _ Hreg Hpq) as [Hb _].
  unfold wrapper_dspaces_get, dspaces_get_req. cbn [req_var_name req_ver req_elem_size req_ndim req_lb req_ub req_buf].
  unfold py_query in Hpq. rewrite Hpq. cbn [mbind option_bind]. unfold get_odscs. rewrite Hquery. cbn [default from_option id].
  assert (Hfold : fold_left resize_to res q = q).
  { clear Hget Hquery Hne. induction res as [|d l IH]; [done|]. cbn [fold_left]. unfold resize_to at 2.
    destruct (Hres d) as [-> _]; [by left|]. apply IH. intros x Hx. apply Hres. by right. }
  rewrite Hfold. destruct res as [|d l]; [done|]. destruct (Hres d) as (_ & Hsz & Htag); [by left|].
  assert (Hs : 0 < type_itemsize typenum < 2 ^ 31).
  { pose proof (region_pos _ _ _ Hreg) as Hz. pose proof Hreg as []. split; [done|]. clear - Hz pr_item0 pr_small0. nia. }
  rewrite Hsz, Htag, i32_small, u64_small by lia. cbn [set_tag_type set_size od_type od_bb]. rewrite Hb. cbn [py_box lb ub num_dims].
  rewrite Hbuf. cbn [mbind option_bind]. change (set_tag_type typenum (od_type q) (set_size (type_itemsize typenum) q)) with (py_target typenum q).
  rewrite Hget. cbn [mbind option_bind]. unfold fill_req. rewrite Hns. cbn [mbind option_bind].
  cbn [py_target set_tag_type set_size od_bb od_tag od_size od_name od_version req_ndim]. rewrite Hb. cbn [py_box num_dims lb ub].
  rewrite Nat.leb_refl. unfold array_of_req. cbn [req_buf req_tag req_lb req_ub default from_option id]. do 3 f_equal.
  rewrite combine_maps, map_map, <- (rev_points (fun l u => u - l + 1)) by (by destruct Hreg). f_equal. apply map_ext_in. intros i Hi.
  apply in_seq in Hi. cbn [fst snd]. eapply py_side; [done|lia].
Qed.

(** C35: What Python programs put is what a Python program gets.  On servers
    started on one configuration, after any puts, queries and deliveries whose
    descriptors do not compete, and once the insertions have arrived, a get
    through any server of a region that arrays put from Python cover returns
    an array of the region's shape and of their type, even if more is put
    between its query and its fetches: in Python's own index order, the
    element at each index of the region is the element there of an array that
    was put.  The arrays are C-ordered with elements of one type; their
    corners fit in both signed and unsigned words, their sizes in [int]. *)
Theorem python_get_returns_puts tokens es1 es2 c0 c1 r cl name ver lbt ubt q typenum :
  let ps := all_puts es1 in
  let gd := client_gdim cl q in
  Forall (event_ok N (conf_gdim conf)) (es1 ++ es2) -> Forall server_event (es1 ++ es2) ->
  compatible mv (map (fun so => key (snd so)) (puts (es1 ++ es2))) ->
  Forall (fun so => publishable dom (snd so)) (puts (es1 ++ es2)) ->
  start N addr conf tokens = Some c0 -> run c0 es1 = Some c1 -> quiet c1 -> (r < N)%nat ->
  cl_nspace cl = None -> py_query cl name ver lbt ubt = Some q -> global_dimension_equal gd (conf_gdim conf) = true ->
  py_region (type_itemsize typenum) lbt ubt -> length lbt = num_dims dom ->
  (forall idx, in_bounds lbt ubt idx -> in_box (point idx) dom) -> i32 typenum = typenum -> py_covered ps q typenum lbt ubt ->
  exists c1' res c2 arr, query_rpc c1 r q gd 0 = Some (c1', res) /\ run c1' es2 = Some c2 /\
    wrapper_dspaces_get (fun q gd timeout => option_map snd (query_rpc c1 r q gd timeout)) (cluster_fetch c2)
      cl name ver lbt ubt None 0 = Some (Some arr) /\
    np_dims arr = zip_with (fun l u => u - l + 1) lbt ubt /\ np_type arr = typenum /\
    forall idx, in_bounds lbt ubt idx -> exists p a off, In p ps /\ py_put p a off /\
      obj_desc_equals_intersect (pt_odsc p) q = true /\ in_bounds off (far_corner off (np_dims a)) idx /\
      np_item arr (zip_with Z.sub idx lbt) = np_item a (zip_with Z.sub idx off).
Proof.
  intros ps gd He Hse Hc Hpub Hstart Hrun Hquiet Hr Hns Hpq Hgd Hreg Hdim Hin Hint Hall. pose proof Hall as [Hpy _].
  destruct (py_query_facts _ _ _ _ _ _ _ Hreg Hpq) as [Hb Hfl].
  destruct (py_region_buffer _ _ _ Hreg) as (data0 & Hbuf & Hcopy). destruct (puts_of_history es1 es2 Hse Hc Hpub) as [Hcp Hpp].
  assert (Hpos : 0 < zprodl (zip_with (fun l u => u - l + 1) lbt ubt)) by (by eapply region_pos). pose proof Hreg as [].
  destruct (query_then_fetch N addr conf Hconf Haddr Hlz4 tokens es1 es2 c0 c1 r gd q (py_target typenum q) data0)
    as (c1' & res & c2 & data' & H1 & H2 & Hne & Hres & Hget & Hlen & Hcell); try done.
  - unfold query_box. rewrite Hb. destruct Hcopy as (Hv & _). split; [done|]. split; [done|].
    rewrite zvolume_shape, py_box_shape by done. clear - pr_item0 pr_small0 Hpos. nia.
  - cbn [py_target set_tag_type set_size od_size od_bb]. by rewrite Hb.
  - rewrite Hb. intros pt Hpt. rewrite in_box_index in Hpt. cbn [py_box num_dims] in Hpt. rewrite in_box_index.
    fold dom. rewrite <- Hdim. apply Hin. by apply in_bounds_box; rewrite ?length_index.
  - rewrite Hb. by eapply covered_points.
  - intros p Hp Hm. destruct (Hpy p Hp Hm) as (a & off & Ha & _ & Ei).
    destruct (py_put_facts p a off Ha) as (_ & Es & _ & _ & _ & Hca). cbn [py_target set_tag_type set_size od_size]. rewrite <- Ei. by split.
  - exists c1', res, c2, (PyArray_NewFromDescr (zip_with (fun l u => u - l + 1) lbt ubt) typenum (type_itemsize typenum) data').
    split; [done|]. split; [done|]. split; [|split; [apply new_dims|split; [apply new_type|]]].
    + eapply wrapper_get_returns; try done; [cbv beta; fold gd; by rewrite H1|]. intros d Hd. destruct (Hres d Hd) as (p & Hp & Hm & ->).
      destruct (Hpy p Hp Hm) as (a & off & Ha & Et & Ei).
      destruct (py_put_facts p a off Ha) as (_ & Es & Ef & Eg & _). cbn [query_view set_bb set_st owned_odsc set_owner od_flags od_size od_tag].
      by rewrite Es, Ef, Eg, Et, Hint.
    + intros idx Hidx. assert (Hbox : in_box (point idx) (od_bb q)).
      { rewrite Hb. apply in_bounds_box; [done| |done]. by destruct Hidx as [->%Forall2_length _]. }
      destruct (Hcell (point idx) 0 Hbox) as (p & Hp & Hm & Hpb & _); [cbn; lia|]. destruct (Hpy p Hp Hm) as (a & off & Ha & _ & Ei).
      destruct (py_put_facts p a off Ha) as (Ebb & _).
      assert (Hio : in_bounds off (far_corner off (np_dims a)) idx).
      { rewrite Forall_forall in Hpp. destruct (Hpp p) as [_ Hdp]; [by apply list_elem_of_In|]. rewrite Ebb in Hpb, Hdp.
        cbn [py_box num_dims] in Hdp. destruct Ha as [_ Hlo _ _ _]. apply in_bounds_box; [by rewrite length_far| |done].
        rewrite Hdp, <- Hdim. by destruct Hidx as [->%Forall2_length _]. }
      exists p, a, off. split; [done|]. split; [done|]. split; [done|]. split; [done|].
      destruct (put_item p a off idx Ha Hio) as [H0 ->]. rewrite read_item by (done || lia). rewrite Ei in *.
      destruct (box_item (type_itemsize typenum) lbt ubt idx) as [_ Hbi]; [done|lia|done|].
      apply slice_ext; [by apply Hbi|done|]. intros t Ht. rewrite <- Hb.
      destruct (Hcell (point idx) t Hbox Ht) as (p' & Hp' & Hm' & Hpb' & Heq).
      rewrite <- (one_put mv dom ps p p' q (point idx)) in Heq by done. exact Heq.
Qed.
End RoundTrip.

(** ** Two arrays and a region of both *)

Fixpoint c_strides (itemsize : Z) (dims : list Z) : list Z :=
  match dims with
  | [] => []
  | _ :: dims => itemsize * zprodl dims :: c_strides itemsize dims
  end.

(** A C-ordered array with the flags NumPy gives it. *)
Definition new_array (dims : list Z) (typenum itemsize : Z) (data : list Z) : numpy :=
  mkNumpy true (Nat.leb (length (List.filter (fun d => 1 <? d) dims)) 1) dims (c_strides itemsize dims) typenum itemsize data.

Lemma c_strides_offset size dims idx : length dims = length idx ->
  fold_right Z.add 0 (map (fun ks => fst ks * snd ks) (combine idx (c_strides size dims))) = size * nd_offset dims idx.
Proof.
  revert idx. induction dims as [|d dims IH]; intros [|k idx] Hl; try done; [unfold nd_offset; cbn; lia|].
  injection Hl as Hl. cbn [c_strides combine map fold_right fst snd]. rewrite (IH idx Hl).
  change (nd_offset (d :: dims) (k :: idx)) with (fold_left (fun off dk => off * fst dk + snd dk) (combine dims idx) (0 * d + k)).
  rewrite nd_offset_from by done. ring.
Qed.

Lemma c_strides_array dims typenum size data : (1 <= length dims <= 9)%nat -> Forall (fun d => 0 < d) dims -> 0 < size ->
  size * zprodl dims < 2 ^ 31 -> size * zprodl dims <= Z.of_nat (length data) -> c_array (new_array dims typenum size data).
Proof.
  intros. split; try done. intros idx Hi. unfold np_offset. cbn [new_array np_strides np_itemsize np_dims].
  apply c_strides_offset. by eapply Forall2_length.
Qed.

#[local] Existing Instance get_env.
#[local] Existing Instance get_client_env.
#[local] Instance demo_numpy : NumPyNew := { type_itemsize t := if t =? 3 then 2 else 8; PyArray_NewFromDescr := new_array }.

#[local] Instance demo_numpy_ok : NumPyNewOk.
Proof. split; try done. intros dims typenum size data idx Hi. by apply c_strides_offset, (Forall2_length _ _ _ Hi). Qed.

(** Five rows of four short integers each. *)
Definition left_array : numpy := new_array [5; 4] 3 2 (map Z.of_nat (seq 10 40)).
Definition right_array : numpy := new_array [5; 4] 3 2 (map Z.of_nat (seq 110 40)).

Definition py_event (r : nat) (a : numpy) (off : list Z) : event :=
  match wrapper_dspaces_put get_client a "u" 3 off with
  | Some (o, gd, data) => E_put r o gd data
  | None => E_deliver 0
  end.

Definition py_events : list event :=
  [py_event 0 left_array [0; 0]; py_event 1 right_array [0; 4]] ++ replicate 6 (E_deliver 0).

Definition the_put (e : event) : put := default (mkPut 0 zero_odsc zero_gdim []) (head (puts_of e)).
Definition left_put : put := the_put (py_event 0 left_array [0; 0]).
Definition right_put : put := the_put (py_event 1 right_array [0; 4]).

Lemma demo_py_put : py_put left_put left_array [0; 0] /\
  py_put right_put right_array [0; 4].
Proof.
  assert (Hp : Forall (fun d => 0 < d) [5; 4]) by (repeat constructor; lia).
  split; split;
    try (apply c_strides_array; [cbn; lia|exact Hp|lia|vm_compute; reflexivity|vm_compute; congruence]);
    try reflexivity; try (repeat constructor; unfold in_coord; lia); exists get_client, "u"%string, 3; vm_compute; reflexivity.
Qed.

Definition py_q : obj_descriptor := default zero_odsc (py_query get_client "u" 3 [0; 1] [4; 6]).

Lemma py_puts : all_puts py_events = [left_put; right_put].
Proof. vm_compute. reflexivity. Qed.

Lemma py_events_ok : Forall (event_ok 3 (conf_gdim demo_conf)) (py_events ++ []) /\ Forall server_event (py_events ++ []).
Proof.
  split; apply Forall_forall; intros e He; apply list_elem_of_In in He;
    repeat (destruct He as [<-|He]; [vm_compute; repeat split; lia|]); destruct He.
Qed.

Lemma py_compatible : compatible (conf_max_versions demo_conf) (map (fun so => key (snd so)) (puts (py_events ++ []))) /\
  Forall (fun so => publishable (conf_domain demo_conf) (snd so)) (puts (py_events ++ [])).
Proof.
  split.
  - apply compatible_pairs. repeat first [apply FOP_nil | apply FOP_cons | apply Forall_nil_2 | apply Forall_cons; split];
      (split; right; vm_compute; reflexivity).
  - repeat first [apply Forall_nil_2 | apply Forall_cons; split].
    + split; [|reflexivity]. change (valid_box (box2 0 0 3 4)). apply box2_domain_ok; lia.
    + split; [|reflexivity]. change (valid_box (box2 4 0 7 4)). apply box2_domain_ok; lia.
Qed.

Lemma py_region_demo : py_region (type_itemsize 3) [0; 1] [4; 6].
Proof.
  split; try reflexivity; try (repeat constructor; unfold in_coord; lia); cbn; lia.
Qed.

Lemma py_index2 idx : in_bounds [0; 1] [4; 6] idx -> exists y x, idx = [y; x] /\ 0 <= y <= 4 /\ 1 <= x <= 6.
Proof.
  intros [H1 H2]. inversion H1 as [|? y ? l Hy H1']; subst. inversion H1' as [|? x ? l' Hx H1'']; subst. inversion H1''; subst.
  inversion H2 as [|? ? ? ? Hy2 H2']; subst. inversion H2' as [|? ? ? ? Hx2 H2'']; subst. exists y, x. split; [done|lia].
Qed.

Lemma in_box2 y x l0 l1 u0 u1 : l0 <= x <= u0 -> l1 <= y <= u1 -> in_box (point [y; x]) (box2 l0 l1 u0 u1).
Proof.
  intros Hx Hy [|[|i]] Hi; [exact Hx|exact Hy|]. cbn in Hi. lia.
Qed.

Lemma py_covered_demo : py_covered (all_puts py_events) py_q 3 [0; 1] [4; 6].
Proof.
  destruct demo_py_put as [Hl Hr]. rewrite py_puts. split.
  - intros p [<-|[<-|[]]] _; [exists left_array, [0; 0]|exists right_array, [0; 4]]; by split.
  - intros idx (y & x & -> & Hy & Hx)%py_index2. destruct (Z_le_dec x 3).
    + exists left_put. split; [by left|]. split; [vm_compute; reflexivity|]. by apply (in_box2 y x 0 0 3 4); lia.
    + exists right_put. split; [right; by left|]. split; [vm_compute; reflexivity|]. by apply (in_box2 y x 4 0 7 4); lia.
Qed.

Lemma python_get_returns_puts_witness :
  exists c0 c1 c1' res arr, start 3 get_addr demo_conf 1 = Some c0 /\ run c0 py_events = Some c1 /\
    query_rpc c1 2 py_q (client_gdim get_client py_q) 0 = Some (c1', res) /\
    wrapper_dspaces_get (fun q gd timeout => option_map snd (query_rpc c1 2 q gd timeout)) (cluster_fetch c1')
      get_client "u" 3 [0; 1] [4; 6] None 0 = Some (Some arr) /\ np_dims arr = [5; 6] /\
    exists p a off, In p [left_put; right_put] /\ py_put p a off /\ in_bounds off (far_corner off (np_dims a)) [2; 5] /\
      np_item arr [2; 4] = np_item a (zip_with Z.sub [2; 5] off).
Proof.
  destruct (start 3 get_addr demo_conf 1) as [c0|] eqn:E0; [|vm_compute in E0; discriminate E0].
  destruct (run c0 py_events) as [c1|] eqn:E1;
    [|vm_compute in E0; injection E0 as <-; vm_compute in E1; discriminate E1].
  destruct (python_get_returns_puts 3 get_addr demo_conf demo_conf_ok) with (tokens := 1) (es1 := py_events)
    (es2 := @nil event) (c0 := c0) (c1 := c1) (r := 2%nat) (cl := get_client) (name := "u"%string) (ver := 3)
    (lbt := [0; 1]) (ubt := [4; 6]) (q := py_q) (typenum := 3)
    as (c1' & res & c2 & arr & H1 & H2 & H3 & H4 & _ & H5).
  - intros [|[|[|i]]] [|[|[|j]]] Hi Hj Ha; try reflexivity; try discriminate Ha; lia.
  - exact get_lz4_ok.
  - apply py_events_ok.
  - apply py_events_ok.
  - apply py_compatible.
  - apply py_compatible.
  - exact E0.
  - exact E1.
  - assert (H : cl_net c1 = []).
    { vm_compute in E0. injection E0 as <-. vm_compute in E1. injection E1 as <-. reflexivity. }
    unfold quiet. rewrite H. constructor.
  - lia.
  - reflexivity.
  - vm_compute. reflexivity.
  - reflexivity.
  - exact py_region_demo.
  - reflexivity.
  - intros idx (y & x & -> & Hy & Hx)%py_index2. change (in_box (point [y; x]) (box2 0 0 7 4)). apply in_box2; lia.
  - reflexivity.
  - exact py_covered_demo.
  - cbn [run] in H2. injection H2 as <-. exists c0, c1, c1', res, arr. split; [reflexivity|]. split; [exact E1|]. split; [exact H1|].
    split; [exact H3|]. split; [exact H4|]. destruct (H5 [2; 5]) as (p & a & off & Hp & Ha & _ & Hb & Hi).
    + split; repeat constructor; lia.
    + exists p, a, off. rewrite <- py_puts. split; [exact Hp|]. split; [exact Ha|]. split; [exact Hb|exact Hi].
Defined.
